(* ===== verification/_CoqProject ===== *)
-Q . S2P
Prelude.v
Text.v
Domain.v
Platform.v
Json.v
Events.v
Projection.v
ToolIdentity.v
Tables.v
Ledger.v
ModelCalls.v
Leases.v
Checkpoints.v
Runs.v
Tools.v
Budget.v
Store.v
Scenario.v
LedgerSafety.v
RunSafety.v
Lifecycle.v
BudgetSafety.v
ToolSafety.v
BlobSafety.v
ModelCallSafety.v
Progress.v
FileSystem.v
GuardSafety.v
World.v
Programs.v
ProgramRel.v
FileTools.v
Process.v
Executors.v
PromptSet.v
ModelClient.v
MiniAgent.v
Agent.v
AgentScenario.v
MutationSafety.v
ExecutorSafety.v
AgentSafety.v
AgentProperties.v
StartSafety.v
RunBound.v
AgentAnomalies.v
Datetime.v
Rollout.v
Capacity.v
Canary.v
EvidenceSigning.v
CanaryLifecycle.v
EvidenceSafety.v
CanarySafety.v
ReleaseSafety.v
CanaryScenario.v
Effects.v
Decimal.v
Redis.v
RateLimit.v
RedisRateLimit.v
RateLimitSafety.v
ShadowProjection.v
RedisShadow.v
ShadowSafety.v
ShadowConfig.v
OutboxRelay.v
OutboxSafety.v
RunOutbox.v
RunCommands.v
CommandSafety.v
ManagedWorker.v
RedisActiveIndex.v
IndexCodec.v
IndexSafety.v
IndexReads.v
Pipeline.v
Rebuild.v
ActiveReads.v
ShadowScenario.v
