(* ===== verification/Prelude.v ===== *)
(** * ForgeReplay: a verification library for the durable agent runtime

    ForgeReplay runs coding agents on top of an event-sourced store: every decision of a run
    (its phases, model calls, tool calls, approvals, budget, workspace, outcome) is an
    immutable event in a ledger, the other tables are projections that are updated in the
    same transaction, and a worker may only write while it holds the run's lease. Around
    that core stand the agent loop with its executors and model clients, and the production
    services: a PostgreSQL control plane with queues, a disposable Redis layer fed from an
    outbox, a rate limiter, and the evidence and gates of its canary release. This library
    models these parts, operation by operation, and proves what makes them correct.

    ** Parts and files

    The paths are relative to the package directory src/forge_replay of the repository. Each
    file opens with what it holds. The files build on each other in the order given here.

    Foundations.
    - [Prelude]: results, the transaction monad [tx] (a failed body carries no state: every
      body runs between BEGIN IMMEDIATE and COMMIT and is rolled back on an exception), the
      inversion lemmas of successful bodies, record updates, strings.
    - [Text], [Json]: Python's text methods on UTF-8 bytes, [canonical_json] and [json.loads].
    - [Domain] (domain.py, persistence/contracts.py): the enumerations with their values, the
      contexts, the transition predicate; the exceptions of all parts as one type [exn].
    - [Platform]: what Python's runtime provides and the model does not compute (SHA-256, the
      UUID reader, NFC, path resolution, float texts) as a class, with the one law the proofs
      use; fresh identifiers and clock readings are an [oracle] argument of each operation.
    - [Effects], [Datetime], [Decimal]: computations whose failures keep the state ([pyeff]),
      UTC datetimes as microseconds, versions as decimal texts.

    The store (persistence/store.py, class SQLiteEventStore, one definition per method).
    - [Events] (events.py), [Projection] (runtime/projection.py, runtime/checkpoint.py),
      [ToolIdentity] (runtime/tool_identity.py): payloads and envelopes, the reducer and its
      checkpoints, canonical arguments and approval fingerprints.
    - [Tables] (persistence/schema.py): one record per row, the database [db] as one finite
      map per table (the events as a list), the INSERT and UPDATE statements with the
      schema's keys, references and unique indexes as checked constraints; the tactics
      [tx_steps] (invert a committed body) and [tx_rel_tac] (prove a relation between the
      states before and after a body by walking it).
    - [Ledger] (events and blobs), [ModelCalls], [Leases] (fencing and replayable commands;
      [execute] adds the commit and the advance of the context), [Checkpoints], [Runs],
      [Tools], [Budget], [Store] (migrations and backfill; all state-changing methods as the
      constructors of [command], [exec] of a command, and the [reachable] databases).
      [Scenario]: a run from its creation to its cancellation, evaluated.

    The agent.
    - [FileSystem]: a POSIX file system, and the guard of workspace/path_guard.py on it.
    - [World], [Programs], [ProgramRel]: programs that drive the store, files, processes and
      providers; before every step others interfere, at every step the process may die. [wp]
      is their program logic, [io_rel] and [io_cost] relations and step bounds of them.
    - [FileTools] (tools/file_tools.py), [Process] (tools/process_supervisor.py), [Executors]
      (runtime/file_executor.py, runtime/shell_executor.py), [PromptSet]
      (runtime/prompt_working_set.py), [ModelClient] (runtime/model.py, ollama.py,
      openai_chat.py), [MiniAgent] (the parser of ../mini_coding_agent.py) and [Agent]
      (runtime/agent.py), which calls all of them and the store's commands.
      [AgentScenario]: an environment in which runs are evaluated.

    Release control.
    - [Rollout] (canary_cohort.py and the ladder), [Capacity] (production/capacity_gate.py,
      fault_drill.py), [Canary] (canary_release.py), [EvidenceSigning]
      (evidence_signing.py), [CanaryLifecycle] (canary_lifecycle.py): evidence, the gate, the
      manifest, and the coordinator that calls them. [CanaryScenario]: an evaluated release.

    Services over PostgreSQL and Redis.
    - [Redis]: a server as a class with the documented laws of its commands, the scripts
      [lua] that run on it, requests that may be lost, and a concrete server.
    - [RateLimit] (control_plane/rate_limit.py), [RedisRateLimit]
      (production/redis_api_rate_limit.py): the service and its token buckets.
    - [ShadowProjection], [RedisShadow], [ShadowConfig] (production/shadow_projection.py,
      redis_shadow.py, redis_shadow_reader.py, redis_fanout.py, shadow_config.py): snapshots,
      their copy in Redis, hints, and the flags that allow their use.
    - [RedisActiveIndex], [IndexCodec] (production/redis_active_index.py): the index of
      active runs.
    - [OutboxRelay] (production/outbox_relay.py): the relay and the rebuilder over ports.
    - [RunOutbox], [RunCommands] (control_plane/postgres.py, production/postgres_shadow.py):
      the outbox, the command queue, worker leases and registry, the projection source.
    - [ManagedWorker] (production/managed.py, worker_wake.py): the worker that handles the
      commands of the queue, its guard, and the loop around it.
    - [ActiveReads] (production/active_index_read.py, postgres_active_index.py,
      shadow_read.py): the reads for the user interface.
    - [ShadowScenario]: deliveries, a poll, a rebuild and reads, evaluated.

    ** Theorems

    - [LedgerSafety], [RunSafety], [Lifecycle], [Progress]: the ledger is append-only and
      dense; the runs table refines it, in every reachable database, and recovery returns the
      same projection whatever checkpoints are damaged; fencing, epochs, cancellation;
      commands that cannot fail. The last part of [Progress] records behaviours that callers
      have to avoid.
    - [ToolSafety], [ModelCallSafety], [BudgetSafety], [BlobSafety]: abstract machines that
      the store refines. No effect without an approval of the exact fingerprint, at most one
      attempt per call, one consumption per response, no budget oversubscribed, blobs intact
      within quota; opening a store is idempotent.
    - [GuardSafety], [MutationSafety], [ExecutorSafety], [AgentSafety], [AgentProperties],
      [StartSafety], [RunBound], [AgentAnomalies]: a guarded path stays in the workspace; a
      file mutation survives a crash at any step; every external action of the agent has a
      durable, approved intent before it and no process starts twice, along any run with
      crashes and interference; a run takes boundedly many steps; three failures that leave
      no trace.
    - [EvidenceSafety], [CanarySafety], [ReleaseSafety]: what a signature binds; the gate and
      the coordinator refine their specifications; nobody is served during a cooldown; the
      cohort of a percentage is its exact share.
    - [RateLimitSafety]: what the buckets admit over any period; exactly when the service
      refuses.
    - [ShadowSafety], [IndexSafety], [IndexReads]: the shadow is a versioned register and the
      index a sorted copy, over a network that loses requests. [OutboxSafety], [Pipeline],
      [Rebuild]: the relay over any ports that keep a contract, the same with PostgreSQL and
      Redis as the ports, and that a rebuild is exact. [ActiveReads]: reads return what SQL
      holds, whatever Redis answers.
    - [CommandSafety], [ManagedWorker]: a command has one owner and one outcome, a run's
      lease is exclusive and fenced, and a worker records only what happened.

    ** Choices and bounds

    Time stamps are integers (microseconds, UTC); counters and sequence numbers are Python
    ints, modelled as Z without a bound. Budget amounts and limits are ints (the code also
    accepts finite floats); other floats are binary64 ([SpecFloat]). The numbers of the Lua
    scripts are integers below 2^53, which their checks enforce, so binary64 is exact on
    them; versions travel as decimal texts. Loops whose end is not structural take fuel: the
    length of the text in parsers ([json_roundtrip] shows it to be enough); the configured
    step limits in the agent ([run_is_bounded] counts the steps of a run); MAXSYMLINKS = 40
    hops when links are followed, as in the kernel; more rounds than there are runs in a
    rebuild ([rebuild_is_exact]). The only assumption on store commands is [command_ok]: the
    generic [append_event] is used for events of the run's own session whose payload carries
    no run state, as the runtime does; event identifiers are canonical UUID texts
    ([oracle_ok]).

    Parameters with named hypotheses: the digests and HMAC, [datetime.fromisoformat], the
    float printer, the laws of the Redis server ([RedisLaws]) and of cjson ([CjsonLaws]), the
    collation of the database, the rows that concurrent transactions have locked. A statement
    of PostgreSQL reads the clock once, and UPDATE ... RETURNING returns rows in the order of
    the selected batch. [Pipeline] assumes that Redis loses no key during a poll and that
    the digests of the considered runs differ; without them the services fall back to SQL or
    to a rebuild. Texts are UTF-8: lone surrogates, which Python can hold, have no text here.
    The dynamic type checks of constructors are true of every value of the model.

    ** Not modelled

    Connections, pragmas and lock waits; the execution of DDL text; columns no method writes
    (parent runs, deadlines, session epochs, capability_grants). Durability under power loss,
    and changes of the file system between the guard's check and the use of its path. The
    HTTP exchange of model clients and the prompts a scripted model records. The PostgreSQL
    implementation of the store (persistence/postgres_store.py, the same port over another
    database), run creation and artifacts of the control plane and its HTTP routes; Redis
    readers of prompts; the wake relay and the event streams; the model gateway; workspaces
    (git) and their controller; sandbox, policy, orchestration and high availability of
    deployments; the interactive legacy agent around its parser; the command line, the
    release gate's aggregation and the evaluation code: they are glue around input and
    output, or repeat modelled logic over another interface. *)

From stdpp Require Export base tactics decidable option list numbers strings gmap fin_maps sorting.
From Stdlib Require Export ZArith Ascii.
From Stdlib Require Import Lia.

#[global] Set Default Goal Selector "!".

(** ** Results and transactions

    Python exceptions are values of a sum; a transaction body is a state passing
    computation whose failure carries no state, because every body of the store
    runs between BEGIN IMMEDIATE and COMMIT and is rolled back on an exception. *)

Inductive result (E A : Type) : Type :=
| Ok (a : A)
| Err (e : E).
Arguments Ok {E A} a.
Arguments Err {E A} e.

#[global] Instance result_eq_dec `{EqDecision E, EqDecision A} : EqDecision (result E A).
Proof. solve_decision. Defined.

#[global] Instance result_ret E : MRet (result E) := λ A a, Ok a.
#[global] Instance result_bind E : MBind (result E) := λ A B f m,
  match m with Ok a => f a | Err e => Err e end.
#[global] Instance result_fmap E : FMap (result E) := λ A B f m,
  match m with Ok a => Ok (f a) | Err e => Err e end.

Definition is_ok {E A} (r : result E A) : Prop := ∃ a, r = Ok a.

Definition result_of_option {E A} (e : E) (o : option A) : result E A :=
  match o with Some a => Ok a | None => Err e end.

Definition assert_result {E} (P : Prop) `{Decision P} (e : E) : result E unit :=
  if decide P then Ok tt else Err e.

(** [try_or a b] is Python's [try: a except ...: b] when every exception of [a] is
    caught. *)
Definition ok_or_none {E A} (r : result E A) : option A :=
  match r with Ok a => Some a | Err _ => None end.

Definition tx (S E A : Type) : Type := S → result E (A * S).

#[global] Instance tx_ret S E : MRet (tx S E) := λ A a s, Ok (a, s).
#[global] Instance tx_bind S E : MBind (tx S E) := λ A B f m s,
  match m s with Ok (a, s') => f a s' | Err e => Err e end.

Section tx_ops.
Context {S E : Type}.

Definition throw {A} (e : E) : tx S E A := λ _, Err e.
Definition gets {A} (f : S → A) : tx S E A := λ s, Ok (f s, s).
Definition modify (f : S → S) : tx S E unit := λ s, Ok (tt, f s).
Definition lift_result {A} (r : result E A) : tx S E A := λ s,
  match r with Ok a => Ok (a, s) | Err e => Err e end.
Definition lift_option {A} (e : E) (o : option A) : tx S E A := λ s,
  match o with Some a => Ok (a, s) | None => Err e end.
Definition require (P : Prop) `{Decision P} (e : E) : tx S E unit := λ s,
  if decide P then Ok (tt, s) else Err e.
End tx_ops.

Notation "m ;; k" := (mbind (λ _, k) m)
  (at level 100, k at level 200, right associativity, only parsing) : stdpp_scope.

(** ** Inversion of successful computations *)

Section tx_inversion.
Context {S E : Type}.
Implicit Types s : S.

Lemma tx_bind_Ok {A B} (m : tx S E A) (f : A → tx S E B) s b s' :
  mbind f m s = Ok (b, s') ↔ ∃ a s1, m s = Ok (a, s1) ∧ f a s1 = Ok (b, s').
Proof.
  unfold mbind, tx_bind. split.
  - destruct (m s) as [[a s1]|e] eqn:Hm; [eauto|done].
  - intros (a & s1 & -> & ?). done.
Qed.

Lemma tx_ret_Ok {A} (a b : A) s s' :
  (mret a : tx S E A) s = Ok (b, s') ↔ b = a ∧ s' = s.
Proof. unfold mret, tx_ret. naive_solver. Qed.

Lemma require_Ok (P : Prop) `{Decision P} (e : E) s u s' :
  require P e s = Ok (u, s') ↔ P ∧ s' = s.
Proof. unfold require. destruct u. case_decide; naive_solver. Qed.

Lemma gets_Ok {A} (f : S → A) s a s' :
  (gets f : tx S E A) s = Ok (a, s') ↔ a = f s ∧ s' = s.
Proof. unfold gets. naive_solver. Qed.

Lemma modify_Ok (f : S → S) s u s' :
  (modify f : tx S E unit) s = Ok (u, s') ↔ s' = f s.
Proof. unfold modify. destruct u. naive_solver. Qed.

Lemma lift_option_Ok {A} (e : E) (o : option A) s a s' :
  lift_option e o s = Ok (a, s') ↔ o = Some a ∧ s' = s.
Proof. unfold lift_option. destruct o; naive_solver. Qed.

Lemma lift_result_Ok {A} (r : result E A) s a s' :
  lift_result r s = Ok (a, s') ↔ r = Ok a ∧ s' = s.
Proof. unfold lift_result. destruct r; naive_solver. Qed.

Lemma throw_Ok {A} (e : E) s (a : A) s' : throw e s = Ok (a, s') ↔ False.
Proof. done. Qed.
End tx_inversion.

Lemma result_bind_Ok {E A B} (m : result E A) (f : A → result E B) b :
  mbind f m = Ok b ↔ ∃ a, m = Ok a ∧ f a = Ok b.
Proof. unfold mbind, result_bind. destruct m; naive_solver. Qed.

Lemma assert_result_Ok {E} (P : Prop) `{Decision P} (e : E) u :
  assert_result P e = Ok u ↔ P.
Proof. unfold assert_result. destruct u. case_decide; naive_solver. Qed.

Lemma bind_ok {E A B} (m : result E A) (f : A → result E B) a : m = Ok a → mbind f m = f a.
Proof. intros ->. done. Qed.

(** A check that passes. *)
Lemma assert_ok {E} (P : Prop) `{Decision P} (e : E) {B} (k : unit → result E B) :
  P → (assert_result P e ≫= k) = k ().
Proof. intros HP. unfold assert_result. by rewrite decide_True. Qed.

Lemma result_of_option_Ok {E A} (e : E) (o : option A) a :
  result_of_option e o = Ok a ↔ o = Some a.
Proof. unfold result_of_option. destruct o; naive_solver. Qed.

(** [tx_inv H] takes a successful run of a transaction body apart, one bind at a
    time, and substitutes the intermediate states that did not change. *)
Ltac tx_inv1 H :=
  lazymatch type of H with
  | mbind _ _ _ = Ok _ =>
      let a := fresh "a" in let s := fresh "s" in let Hm := fresh "Hm" in
      apply tx_bind_Ok in H as (a & s & Hm & H); tx_inv1 Hm
  | mret _ _ = Ok _ => apply tx_ret_Ok in H as [? ?]
  | require _ _ _ = Ok _ => apply require_Ok in H as [? ?]
  | gets _ _ = Ok _ => apply gets_Ok in H as [? ?]
  | modify _ _ = Ok _ => apply modify_Ok in H
  | lift_option _ _ _ = Ok _ => apply lift_option_Ok in H as [? ?]
  | lift_result _ _ = Ok _ => apply lift_result_Ok in H as [? ?]
  | throw _ _ = Ok _ => apply throw_Ok in H; destruct H
  | _ => idtac
  end.

Ltac tx_inv H := tx_inv1 H; repeat (simplify_eq; tx_inv1 H); simplify_eq.

(** ** Reading a computation's outcome under a transaction *)

(** Run a body as the store does: commit on success, roll back on failure. *)
Definition run_tx {S E A} (body : tx S E A) (s : S) : result E A * S :=
  match body s with
  | Ok (a, s') => (Ok a, s')
  | Err e => (Err e, s)
  end.

Lemma run_tx_Err {S E A} (body : tx S E A) s e s' :
  run_tx body s = (Err e, s') → s' = s.
Proof. unfold run_tx. destruct (body s) as [[??]|]; naive_solver. Qed.

Lemma run_tx_Ok {S E A} (body : tx S E A) s a s' :
  run_tx body s = (Ok a, s') ↔ body s = Ok (a, s').
Proof. unfold run_tx. destruct (body s) as [[??]|]; naive_solver. Qed.

(** ** Shared tactics *)

Ltac deex :=
  repeat match goal with
         | H : ∃ x, _ |- _ => let x' := fresh x in destruct H as [x' H]
         | H : _ ∧ _ |- _ => destruct H
         end.

(** ** Record update

    [x <| p := v |>] is the record [x] with the field [p] set to [v]; [x <| p ::= f |>]
    applies [f] to the field. A record type takes part once its eta expansion is
    declared as an instance of [Eta]. *)

Class Eta (R : Type) := eta : R → R.
Class Setter {R T : Type} (getter : R → T) := set_field : (T → T) → R → R.
#[global] Arguments set_field {R T} getter {_} f x.
#[global] Hint Mode Setter - - ! : typeclass_instances.

Ltac solve_setter R getter :=
  let e := constr:(_ : Eta R) in
  let e := eval hnf in e in
  lazymatch eval pattern getter in e with
  | ?h _ =>
      let u := eval cbv beta in (λ f, h (λ r, f (getter r))) in
      exact u
  end.

#[global] Hint Extern 1 (@Setter ?R _ ?getter) => solve_setter R getter : typeclass_instances.

Notation "x <| p ::= f |>" := (set_field p f x)
  (at level 1, p at level 99, f at level 99, left associativity, format "x  <| p  ::=  f |>").
Notation "x <| p := v |>" := (set_field p (λ _, v) x)
  (at level 1, p at level 99, v at level 99, left associativity, format "x  <| p  :=  v |>").

(** ** Strings as UTF-8 byte sequences *)

(** [s.startswith(p)]. *)
Fixpoint str_prefix (p s : string) {struct p} : bool :=
  match p, s with
  | EmptyString, _ => true
  | String a p', String b s' => if decide (a = b) then str_prefix p' s' else false
  | String _ _, EmptyString => false
  end.

(** Drop the first [n] bytes. *)
Fixpoint str_drop (n : nat) (s : string) : string :=
  match n, s with
  | O, _ => s
  | S n', String _ s' => str_drop n' s'
  | S _, EmptyString => EmptyString
  end.

(** The byte length of the white space character [str.strip] removes at the head of
    [s], 0 when there is none: ASCII white space and the separators U+001C to U+001F,
    U+0085, U+00A0, U+1680, U+2000 to U+200A, U+2028, U+2029, U+202F, U+205F, U+3000. *)
Definition space_width (s : string) : nat :=
  match s with
  | String a rest =>
      let n := nat_of_ascii a in
      if (((9 <=? n) && (n <=? 13)) || ((28 <=? n) && (n <=? 32)))%nat then 1%nat
      else
        match rest with
        | String b rest' =>
            let m := nat_of_ascii b in
            if ((n =? 194) && ((m =? 133) || (m =? 160)))%nat then 2%nat
            else
              match rest' with
              | String c _ =>
                  let k := nat_of_ascii c in
                  if (((n =? 225) && (m =? 154) && (k =? 128))
                      || ((n =? 226) && (m =? 128)
                          && (((128 <=? k) && (k <=? 138)) || (k =? 168) || (k =? 169) || (k =? 175)))
                      || ((n =? 226) && (m =? 129) && (k =? 159))
                      || ((n =? 227) && (m =? 128) && (k =? 128)))%nat
                  then 3%nat else 0%nat
              | EmptyString => 0%nat
              end
        | EmptyString => 0%nat
        end
  | EmptyString => 0%nat
  end.

Fixpoint blank_fuel (fuel : nat) (s : string) : bool :=
  match s with
  | EmptyString => true
  | _ =>
      match fuel with
      | O => false
      | S f => match space_width s with O => false | w => blank_fuel f (str_drop w s) end
      end
  end.

(** [blank s] is Python's [not s.strip()]: only white space, or empty. Every step of
    the scan removes a byte, so the length is enough fuel. *)
Definition blank (s : string) : bool := blank_fuel (String.length s) s.

(** ** Lists *)

Lemma StronglySorted_filter {A} (R : relation A) (P : A → Prop) `{!∀ x, Decision (P x)} l :
  StronglySorted R l → StronglySorted R (filter P l).
Proof.
  induction 1 as [|x l Hl IH Hx]; [constructor|]. rewrite filter_cons. case_decide; [|done].
  constructor; [done|]. apply Forall_forall. intros y [_ Hy]%list_elem_of_filter.
  by eapply Forall_forall in Hx.
Qed.

Lemma filter_snoc {A} (P : A → Prop) `{!∀ x, Decision (P x)} (l : list A) (x : A) :
  filter P (l ++ [x]) = filter P l ++ (if decide (P x) then [x] else []).
Proof.
  by rewrite list.filter_app.
Qed.

Lemma filter_none {A} (P : A → Prop) `{!∀ x, Decision (P x)} (l : list A) :
  Forall (λ x, ¬ P x) l → filter P l = [].
Proof.
  induction 1 as [|x l Hx _ IH]; [done|]. rewrite filter_cons. by rewrite decide_False.
Qed.

Lemma filter_all {A} (P : A → Prop) `{!∀ x, Decision (P x)} (l : list A) :
  Forall P l → filter P l = l.
Proof.
  induction 1 as [|x l Hx _ IH]; [done|]. rewrite filter_cons. rewrite decide_True by done.
  by rewrite IH.
Qed.

Lemma filter_ext_in {A} (P Q : A → Prop) `{!∀ x, Decision (P x), !∀ x, Decision (Q x)}
    (l : list A) :
  (∀ x, x ∈ l → P x ↔ Q x) → filter P l = filter Q l.
Proof.
  induction l as [|x l IH]; intros Hl; [done|]. rewrite !filter_cons.
  rewrite IH by (intros y Hy; apply Hl; by right).
  destruct (Hl x) as [H1 H2]; [by left|]. repeat case_decide; naive_solver.
Qed.

Lemma filter_fmap {A B} (f : A → B) (P : B → Prop) `{!∀ x, Decision (P x)} (l : list A) :
  filter P (f <$> l) = f <$> filter (λ x, P (f x)) l.
Proof.
  induction l as [|x l IH]; [done|]. rewrite fmap_cons, !filter_cons, IH. by case_decide.
Qed.

(** ** String append *)

#[global] Arguments String.append : simpl nomatch.

Lemma str_app_cons a (s t : string) : String a s +:+ t = String a (s +:+ t).
Proof. done. Qed.

Lemma str_app_assoc (a b c : string) : (a +:+ b) +:+ c = a +:+ (b +:+ c).
Proof. induction a as [|x a IH]; simpl; [done|by f_equal]. Qed.

Lemma str_app_nil_r (a : string) : a +:+ "" = a.
Proof. induction a as [|x a IH]; simpl; [done|by f_equal]. Qed.

Lemma str_length_app (a b : string) :
  String.length (a +:+ b) = (String.length a + String.length b)%nat.
Proof. induction a as [|x a IH]; simpl; [done|by f_equal]. Qed.

Create Rewrite HintDb str.
#[export] Hint Rewrite str_app_cons str_app_assoc str_app_nil_r str_length_app : str.
