(* ===== verification/Text.v ===== *)
(** * Text: Python's string methods on UTF-8 texts

    A text is the list of its UTF-8 bytes. A search for a valid UTF-8 text finds it only
    at a character boundary, so [in], [find], [split], [count] and [replace] work on
    bytes; the methods that count characters count the bytes that start one. *)

From S2P Require Import Prelude.

(** ** UTF-8 *)

Definition byte_in (lo hi : nat) (a : ascii) : bool :=
  let n := nat_of_ascii a in ((lo <=? n) && (n <=? hi))%nat.

Definition cont : ascii → bool := byte_in 128 191.

(** The bytes that may follow a first byte: how many, and the range of the first one. *)
Definition utf8_lead (a : ascii) : option (nat * ascii * ascii) :=
  let range n lo hi := Some (n, ascii_of_nat lo, ascii_of_nat hi) in
  if byte_in 194 223 a then range 1%nat 128%nat 191%nat
  else if byte_in 224 224 a then range 2%nat 160%nat 191%nat
  else if byte_in 237 237 a then range 2%nat 128%nat 159%nat
  else if byte_in 225 239 a then range 2%nat 128%nat 191%nat
  else if byte_in 240 240 a then range 3%nat 144%nat 191%nat
  else if byte_in 241 243 a then range 3%nat 128%nat 191%nat
  else if byte_in 244 244 a then range 3%nat 128%nat 143%nat
  else None.

(** The number of continuation bytes at the head of [s], at most [n]. *)
Fixpoint conts (n : nat) (s : string) : nat :=
  match n, s with
  | S n', String a s' => if cont a then S (conts n' s') else O
  | _, _ => O
  end.

(** The character at the head: [(true, w)] for a valid one of [w] bytes, [(false, w)] for
    an ill-formed sequence whose maximal prefix has [w] bytes; 0 only at the end. *)
Definition utf8_head (s : string) : bool * nat :=
  match s with
  | EmptyString => (false, O)
  | String a s' =>
      if byte_in 0 127 a then (true, 1%nat)
      else match utf8_lead a with
           | None => (false, 1%nat)
           | Some (n, lo, hi) =>
               match s' with
               | String b s'' =>
                   if byte_in (nat_of_ascii lo) (nat_of_ascii hi) b then
                     let k := conts (n - 1) s'' in
                     (bool_decide (k = n - 1), 2 + k)%nat
                   else (false, 1%nat)
               | EmptyString => (false, 1%nat)
               end
           end
  end.

Fixpoint str_take (n : nat) (s : string) : string :=
  match n, s with
  | S n', String a s' => String a (str_take n' s')
  | _, _ => EmptyString
  end.

Fixpoint utf8_valid_fuel (fuel : nat) (s : string) : bool :=
  match s with
  | EmptyString => true
  | _ => match fuel with
         | O => false
         | S f => let '(ok, w) := utf8_head s in ok && utf8_valid_fuel f (str_drop w s)
         end
  end.

(** Whether [s.decode("utf-8")] succeeds; the decoded text has the same bytes. *)
Definition utf8_valid (s : string) : bool := utf8_valid_fuel (String.length s) s.

(** U+FFFD. *)
Definition replacement : string :=
  String (ascii_of_nat 239) (String (ascii_of_nat 191) (String (ascii_of_nat 189) "")).

Fixpoint decode_replace_fuel (fuel : nat) (s : string) : string :=
  match s with
  | EmptyString => ""
  | _ => match fuel with
         | O => ""
         | S f => let '(ok, w) := utf8_head s in
                  (if ok then str_take w s else replacement)
                  +:+ decode_replace_fuel f (str_drop w s)
         end
  end.

(** [s.decode("utf-8", errors="replace")]. *)
Definition decode_replace (s : string) : string := decode_replace_fuel (String.length s) s.

(** [len(s)] of a text: the bytes that start a character. *)
Fixpoint char_length (s : string) : Z :=
  match s with
  | EmptyString => 0
  | String a s' => (if cont a then 0 else 1) + char_length s'
  end.

(** [s[:n]] of a text. *)
Fixpoint char_take (n : nat) (s : string) : string :=
  match s with
  | EmptyString => ""
  | String a s' =>
      if cont a then String a (char_take n s')
      else match n with O => "" | S n' => String a (char_take n' s') end
  end.

(** ** Searching *)

(** [sub in s]. *)
Fixpoint contains (sub s : string) : bool :=
  str_prefix sub s || match s with EmptyString => false | String _ s' => contains sub s' end.

(** [s.find(sub)] in bytes, [None] for -1. *)
Fixpoint find (sub s : string) : option nat :=
  if str_prefix sub s then Some O
  else match s with EmptyString => None | String _ s' => S <$> find sub s' end.

(** The text before and after the first occurrence of [sub]. *)
Definition partition (sub s : string) : option (string * string) :=
  i ← find sub s; Some (str_take i s, str_drop (i + String.length sub) s).

(** The non-overlapping occurrences of a text that is not empty. *)
Fixpoint count_fuel (fuel : nat) (sub s : string) : Z :=
  match fuel with
  | O => 0
  | S f => match partition sub s with
           | None => 0
           | Some (_, rest) => 1 + count_fuel f sub rest
           end
  end.

(** [s.count(sub)]; the empty text occurs around every character. *)
Definition count (sub s : string) : Z :=
  if decide (sub = "") then char_length s + 1 else count_fuel (S (String.length s)) sub s.

(** [s.replace(old, new, 1)]. *)
Definition replace_first (old new s : string) : string :=
  match partition old s with
  | None => s
  | Some (before, after) => before +:+ new +:+ after
  end.

Fixpoint replace_fuel (fuel : nat) (old new s : string) : string :=
  match fuel with
  | O => s
  | S f => match partition old s with
           | None => s
           | Some (before, after) => before +:+ new +:+ replace_fuel f old new after
           end
  end.

(** [s.replace(old, new)] for an [old] that is not empty. *)
Definition replace (old new s : string) : string := replace_fuel (S (String.length s)) old new s.

(** ** Case, ends and separators *)

Definition ascii_map (lo hi : nat) (f : nat → nat) (a : ascii) : ascii :=
  if byte_in lo hi a then ascii_of_nat (f (nat_of_ascii a)) else a.

Fixpoint str_map (f : ascii → ascii) (s : string) : string :=
  match s with EmptyString => "" | String a s' => String (f a) (str_map f s') end.

(** [s.upper()] and [s.lower()] on the ASCII letters. *)
Definition upper : string → string := str_map (ascii_map 97 122 (λ n, n - 32)%nat).
Definition lower : string → string := str_map (ascii_map 65 90 (λ n, n + 32)%nat).

(** [s.endswith(suffix)]. *)
Fixpoint ends_with (suffix s : string) : bool :=
  bool_decide (s = suffix) || match s with EmptyString => false | String _ s' => ends_with suffix s' end.

(** [s.split(c)]: never empty. *)
Fixpoint split_char (c : ascii) (s : string) : list string :=
  match s with
  | EmptyString => [""]
  | String a s' =>
      if decide (a = c) then "" :: split_char c s'
      else match split_char c s' with
           | part :: parts => String a part :: parts
           | [] => [String a ""]
           end
  end.

(** [s.split(c, 1)[0]]. *)
Definition before_char (c : ascii) (s : string) : string := default "" (head (split_char c s)).

(** ** White space *)

(** [s.lstrip()]; every step removes a byte. *)
Fixpoint lstrip_fuel (fuel : nat) (s : string) : string :=
  match fuel with
  | O => s
  | S f => match space_width s with O => s | w => lstrip_fuel f (str_drop w s) end
  end.

(** [s.rstrip()]. *)
Fixpoint rstrip (s : string) : string :=
  match s with
  | EmptyString => ""
  | String a s' => if blank s then "" else String a (rstrip s')
  end.

Definition strip (s : string) : string := rstrip (lstrip_fuel (String.length s) s).

Definition newline : ascii := ascii_of_nat 10.

(** [s.strip("\n")]. *)
Fixpoint lstrip_newlines (s : string) : string :=
  match s with
  | String a s' => if decide (a = newline) then lstrip_newlines s' else s
  | EmptyString => ""
  end.

Fixpoint only_newlines (s : string) : bool :=
  match s with EmptyString => true | String a s' => bool_decide (a = newline) && only_newlines s' end.

Fixpoint rstrip_newlines (s : string) : string :=
  match s with
  | EmptyString => ""
  | String a s' => if only_newlines s then "" else String a (rstrip_newlines s')
  end.

Definition strip_newlines (s : string) : string := rstrip_newlines (lstrip_newlines s).

(** ** Lines *)

(** The byte length of the line boundary at the head of [s], 0 when there is none. *)
Definition line_break (s : string) : nat :=
  match s with
  | String a (String b rest) =>
      let n := nat_of_ascii a in let m := nat_of_ascii b in
      if ((n =? 13) && (m =? 10))%nat then 2%nat
      else if byte_in 10 13 a || byte_in 28 30 a then 1%nat
      else if ((n =? 194) && (m =? 133))%nat then 2%nat
      else match rest with
           | String c _ =>
               if ((n =? 226) && (m =? 128))%nat && byte_in 168 169 c then 3%nat else 0%nat
           | EmptyString => 0%nat
           end
  | String a EmptyString => if byte_in 10 13 a || byte_in 28 30 a then 1%nat else 0%nat
  | EmptyString => 0%nat
  end.

(** [line] is the current line so far. *)
Fixpoint splitlines_fuel (fuel : nat) (line s : string) : list string :=
  match s, fuel with
  | EmptyString, _ => if decide (line = "") then [] else [line]
  | _, O => []
  | String a s', S f =>
      match line_break s with
      | O => splitlines_fuel f (line +:+ String a "") s'
      | w => line :: splitlines_fuel f "" (str_drop w s)
      end
  end.

(** [s.splitlines()]. *)
Definition splitlines (s : string) : list string := splitlines_fuel (String.length s) "" s.

Lemma str_take_length n s : String.length (str_take n s) = Nat.min n (String.length s).
Proof. revert s. induction n as [|n IH]; intros [|a s]; cbn; [done..|]. by rewrite IH. Qed.
