(* ===== verification/Domain.v ===== *)
(** * Domain: the stable domain types (src/forge_replay/domain.py) and the store's
    error contract (persistence/contracts.py).

    Every Python [StringEnum] is a module with an inductive type [t] that has the
    source's members, and an instance of [StringEnum] giving each member's string
    value. Datetimes are timezone-aware by construction: a [Z] counts microseconds
    since the Unix epoch in UTC. *)

From S2P Require Import Prelude.
From Corelib Require Import SpecFloat.

(** ** String enums *)

Class StringEnum (A : Type) := {
  value : A → string;
  members : list A;
  members_complete : ∀ a, a ∈ members;
  value_inj : Inj (=) (=) value;
}.

(** Python's [Enum(value)] lookup, [None] where Python raises ValueError. *)
Definition of_value `{StringEnum A} (s : string) : option A :=
  head (filter (λ a, value a = s) members).

Lemma of_value_value `{StringEnum A} (a : A) : of_value (value a) = Some a.
Proof.
  unfold of_value.
  destruct (filter _ members) as [|b l] eqn:Hf.
  - assert (a ∈ filter (λ b, value b = value a) members) as Hin.
    { apply list_elem_of_filter. split; [done|apply members_complete]. }
    rewrite Hf in Hin. by apply not_elem_of_nil in Hin.
  - assert (b ∈ filter (λ b, value b = value a) members) as Hin.
    { rewrite Hf. left. }
    apply list_elem_of_filter in Hin as [Hv%value_inj _]. by simplify_eq/=.
Qed.

Lemma of_value_Some `{StringEnum A} (s : string) (a : A) :
  of_value s = Some a → value a = s.
Proof.
  unfold of_value. destruct (filter _ members) as [|b l] eqn:Hf; [done|].
  intros [= ->].
  assert (a ∈ filter (λ b, value b = s) members) as Hin by (rewrite Hf; left).
  by apply list_elem_of_filter in Hin as [? _].
Qed.


Module ExecutionStatus.
Inductive t := ACTIVE | COMPLETED | FAILED | CANCELLED | BUDGET_EXCEEDED | NEEDS_ATTENTION.
#[global] Instance eq_dec : EqDecision t.
Proof. solve_decision. Defined.
#[global] Instance enum : StringEnum t.
Proof.
  refine {|
    value x := match x with
      | ACTIVE => "active" | COMPLETED => "completed" | FAILED => "failed"
      | CANCELLED => "cancelled" | BUDGET_EXCEEDED => "budget_exceeded"
      | NEEDS_ATTENTION => "needs_attention" end%string;
    members := [ACTIVE; COMPLETED; FAILED; CANCELLED; BUDGET_EXCEEDED; NEEDS_ATTENTION] |}.
  - intros []; set_solver.
  - abstract (intros [] [] ?; done).
Defined.
End ExecutionStatus.

Module RunPhase.
Inductive t := PREFLIGHTING | BLOCKED_DIRTY | PROVISIONING | AWAITING_MODEL
  | WAITING_APPROVAL | EXECUTING_TOOL | VERIFYING | RECOVERING.
#[global] Instance eq_dec : EqDecision t.
Proof. solve_decision. Defined.
#[global] Instance enum : StringEnum t.
Proof.
  refine {|
    value x := match x with
      | PREFLIGHTING => "preflighting" | BLOCKED_DIRTY => "blocked_dirty"
      | PROVISIONING => "provisioning" | AWAITING_MODEL => "awaiting_model"
      | WAITING_APPROVAL => "waiting_approval" | EXECUTING_TOOL => "executing_tool"
      | VERIFYING => "verifying" | RECOVERING => "recovering" end%string;
    members := [PREFLIGHTING; BLOCKED_DIRTY; PROVISIONING; AWAITING_MODEL;
                WAITING_APPROVAL; EXECUTING_TOOL; VERIFYING; RECOVERING] |}.
  - intros []; set_solver.
  - abstract (intros [] [] ?; done).
Defined.
End RunPhase.

Module WorkspaceDisposition.
Inductive t := NONE | ACTIVE | PRESERVED | EXPORTED | INTEGRATED | DISCARDED | CLEANED
  | ORPHANED | QUARANTINED.
#[global] Instance eq_dec : EqDecision t.
Proof. solve_decision. Defined.
#[global] Instance enum : StringEnum t.
Proof.
  refine {|
    value x := match x with
      | NONE => "none" | ACTIVE => "active" | PRESERVED => "preserved"
      | EXPORTED => "exported" | INTEGRATED => "integrated" | DISCARDED => "discarded"
      | CLEANED => "cleaned" | ORPHANED => "orphaned"
      | QUARANTINED => "quarantined" end%string;
    members := [NONE; ACTIVE; PRESERVED; EXPORTED; INTEGRATED; DISCARDED; CLEANED;
                ORPHANED; QUARANTINED] |}.
  - intros []; set_solver.
  - abstract (intros [] [] ?; done).
Defined.
End WorkspaceDisposition.

Module ToolEffectClass.
Inductive t := PURE | DETECTABLE_IDEMPOTENT | EXTERNALLY_IDEMPOTENT | NON_IDEMPOTENT.
#[global] Instance eq_dec : EqDecision t.
Proof. solve_decision. Defined.
#[global] Instance enum : StringEnum t.
Proof.
  refine {|
    value x := match x with
      | PURE => "pure" | DETECTABLE_IDEMPOTENT => "detectable_idempotent"
      | EXTERNALLY_IDEMPOTENT => "externally_idempotent"
      | NON_IDEMPOTENT => "non_idempotent" end%string;
    members := [PURE; DETECTABLE_IDEMPOTENT; EXTERNALLY_IDEMPOTENT; NON_IDEMPOTENT] |}.
  - intros []; set_solver.
  - abstract (intros [] [] ?; done).
Defined.
End ToolEffectClass.

Module ToolCallState.
Inductive t := PROPOSED | REJECTED | WAITING_APPROVAL | READY | DENIED | DISPATCHED
  | SUCCEEDED | FAILED | CANCELLED | UNCERTAIN.
#[global] Instance eq_dec : EqDecision t.
Proof. solve_decision. Defined.
#[global] Instance enum : StringEnum t.
Proof.
  refine {|
    value x := match x with
      | PROPOSED => "proposed" | REJECTED => "rejected"
      | WAITING_APPROVAL => "waiting_approval" | READY => "ready" | DENIED => "denied"
      | DISPATCHED => "dispatched" | SUCCEEDED => "succeeded" | FAILED => "failed"
      | CANCELLED => "cancelled" | UNCERTAIN => "uncertain" end%string;
    members := [PROPOSED; REJECTED; WAITING_APPROVAL; READY; DENIED; DISPATCHED;
                SUCCEEDED; FAILED; CANCELLED; UNCERTAIN] |}.
  - intros []; set_solver.
  - abstract (intros [] [] ?; done).
Defined.
End ToolCallState.

Module ApprovalDecision.
Inductive t := DENY | ALLOW_ONCE | ALLOW_RUN_SCOPE | HARD_DENY.
#[global] Instance eq_dec : EqDecision t.
Proof. solve_decision. Defined.
#[global] Instance enum : StringEnum t.
Proof.
  refine {|
    value x := match x with
      | DENY => "deny" | ALLOW_ONCE => "allow_once"
      | ALLOW_RUN_SCOPE => "allow_run_scope" | HARD_DENY => "hard_deny" end%string;
    members := [DENY; ALLOW_ONCE; ALLOW_RUN_SCOPE; HARD_DENY] |}.
  - intros []; set_solver.
  - abstract (intros [] [] ?; done).
Defined.
End ApprovalDecision.

Module RecoveryDecision.
Inductive t := COMPLETED | NOT_STARTED_RETRY_SAFE | STILL_RUNNING | FAILED | UNCERTAIN.
#[global] Instance eq_dec : EqDecision t.
Proof. solve_decision. Defined.
#[global] Instance enum : StringEnum t.
Proof.
  refine {|
    value x := match x with
      | COMPLETED => "completed" | NOT_STARTED_RETRY_SAFE => "not_started_retry_safe"
      | STILL_RUNNING => "still_running" | FAILED => "failed"
      | UNCERTAIN => "uncertain" end%string;
    members := [COMPLETED; NOT_STARTED_RETRY_SAFE; STILL_RUNNING; FAILED; UNCERTAIN] |}.
  - intros []; set_solver.
  - abstract (intros [] [] ?; done).
Defined.
End RecoveryDecision.

(** ** Exceptions

    The exception classes the modelled code raises. Messages are not modelled. *)

Inductive exn :=
| ValueError
| TypeError
| KeyError
| AttributeError
| OSError
| PydanticValidationError   (** pydantic's ValidationError, a ValueError *)
| ProjectionError           (** runtime/projection.py, a ValueError *)
| ToolIdentityError         (** runtime/tool_identity.py, a ValueError *)
| SqliteIntegrityError      (** sqlite3.IntegrityError: a schema constraint failed *)
| SessionNotFoundError
| LedgerIntegrityError
| MigrationChecksumError
| BlobQuotaExceededError
| BlobMetadataConflictError (** a LedgerIntegrityError *)
| RunNotFoundError
| RunStateConflictError
| ToolCallConflictError
| ApprovalConflictError
| BudgetLimitError
| LeaseConflictError
| RuntimeError
| AssertionError
| IndexError
| OverflowError
| FileNotFoundError         (** an OSError *)
| FileExistsError           (** an OSError *)
| UnicodeDecodeError        (** a ValueError *)
| RegexError                (** re.error *)
| PathGuardError            (** workspace/path_guard.py, a ValueError *)
| FileConflictError
| PromptWorkingSetIntegrityError
| ModelInvocationError
| DurableObservationError
| ModelProviderError (retryable : bool) (retry_after : option spec_float)
| RedisError                          (** redis.exceptions *)
| ShadowProjectionUnavailableError    (** production/redis_shadow.py *)
| ShadowProjectionProtocolError       (** a ShadowProjectionUnavailableError *)
| ActiveRunIndexUnavailableError      (** production/redis_active_index.py *)
| ActiveRunIndexProtocolError         (** an ActiveRunIndexUnavailableError *)
| ActiveRunReadProtocolError          (** production/active_index_read.py *)
| ShadowProjectionReadProtocolError   (** production/shadow_read.py *)
| RunFanoutUnavailableError           (** production/redis_fanout.py *)
| RunFanoutProtocolError              (** a RunFanoutUnavailableError *)
| RelayProtocolError                  (** _RelayProtocolError of production/outbox_relay.py *)
| ProjectionSourceConsistencyError    (** a _RelayProtocolError *)
| ApiRateLimitBackendUnavailableError (** control_plane/rate_limit.py *)
| ApiRateLimitBackendProtocolError    (** control_plane/rate_limit.py *)
| OperationalError                    (** psycopg: the database is not available *)
| RunVersionConflictError             (** control_plane/postgres.py *)
| RetryableManagedRunError            (** production/managed.py *)
| PermanentManagedRunError            (** production/managed.py *)
| ManagedLeaseLostError               (** a RetryableManagedRunError *)
| WorkerWakeUnavailableError          (** production/worker_wake.py *)
| Killed.                   (** no exception: the process died, no handler runs *)

#[global] Instance spec_float_eq_dec : EqDecision spec_float.
Proof. solve_decision. Defined.

#[global] Instance exn_eq_dec : EqDecision exn.
Proof. solve_decision. Defined.

(** [issubclass(e, ValueError)]. *)
Definition is_ValueError (e : exn) : bool :=
  match e with
  | ValueError | PydanticValidationError | ProjectionError | ToolIdentityError
  | UnicodeDecodeError | PathGuardError => true
  | _ => false
  end.

(** [issubclass(e, LedgerIntegrityError)]. *)
Definition is_LedgerIntegrityError (e : exn) : bool :=
  match e with LedgerIntegrityError | BlobMetadataConflictError => true | _ => false end.

(** [except Exception]: everything but the death of the process. *)
Definition is_Exception (e : exn) : bool :=
  match e with Killed => false | _ => true end.

(** [type(e).__name__]. *)
Definition exn_name (e : exn) : string :=
  match e with
  | ValueError => "ValueError"
  | TypeError => "TypeError"
  | KeyError => "KeyError"
  | AttributeError => "AttributeError"
  | OSError => "OSError"
  | PydanticValidationError => "ValidationError"
  | ProjectionError => "ProjectionError"
  | ToolIdentityError => "ToolIdentityError"
  | SqliteIntegrityError => "IntegrityError"
  | SessionNotFoundError => "SessionNotFoundError"
  | LedgerIntegrityError => "LedgerIntegrityError"
  | MigrationChecksumError => "MigrationChecksumError"
  | BlobQuotaExceededError => "BlobQuotaExceededError"
  | BlobMetadataConflictError => "BlobMetadataConflictError"
  | RunNotFoundError => "RunNotFoundError"
  | RunStateConflictError => "RunStateConflictError"
  | ToolCallConflictError => "ToolCallConflictError"
  | ApprovalConflictError => "ApprovalConflictError"
  | BudgetLimitError => "BudgetLimitError"
  | LeaseConflictError => "LeaseConflictError"
  | RuntimeError => "RuntimeError"
  | AssertionError => "AssertionError"
  | IndexError => "IndexError"
  | OverflowError => "OverflowError"
  | FileNotFoundError => "FileNotFoundError"
  | FileExistsError => "FileExistsError"
  | UnicodeDecodeError => "UnicodeDecodeError"
  | RegexError => "error"
  | PathGuardError => "PathGuardError"
  | FileConflictError => "FileConflictError"
  | PromptWorkingSetIntegrityError => "PromptWorkingSetIntegrityError"
  | ModelInvocationError => "ModelInvocationError"
  | DurableObservationError => "DurableObservationError"
  | ModelProviderError _ _ => "ModelProviderError"
  | RedisError => "RedisError"
  | ShadowProjectionUnavailableError => "ShadowProjectionUnavailableError"
  | ShadowProjectionProtocolError => "ShadowProjectionProtocolError"
  | ActiveRunIndexUnavailableError => "ActiveRunIndexUnavailableError"
  | ActiveRunIndexProtocolError => "ActiveRunIndexProtocolError"
  | ActiveRunReadProtocolError => "ActiveRunReadProtocolError"
  | ShadowProjectionReadProtocolError => "ShadowProjectionReadProtocolError"
  | RunFanoutUnavailableError => "RunFanoutUnavailableError"
  | RunFanoutProtocolError => "RunFanoutProtocolError"
  | RelayProtocolError => "_RelayProtocolError"
  | ProjectionSourceConsistencyError => "_ProjectionSourceConsistencyError"
  | ApiRateLimitBackendUnavailableError => "ApiRateLimitBackendUnavailableError"
  | ApiRateLimitBackendProtocolError => "ApiRateLimitBackendProtocolError"
  | OperationalError => "OperationalError"
  | RunVersionConflictError => "RunVersionConflictError"
  | RetryableManagedRunError => "RetryableManagedRunError"
  | PermanentManagedRunError => "PermanentManagedRunError"
  | ManagedLeaseLostError => "ManagedLeaseLostError"
  | WorkerWakeUnavailableError => "WorkerWakeUnavailableError"
  | Killed => ""
  end.

Abbreviation res := (result exn).

(** ** BlobLimits *)

Record BlobLimits := {
  max_blob_bytes : Z;
  max_total_bytes : Z;
}.

Definition BlobLimits_default : BlobLimits :=
  {| max_blob_bytes := 4 * 1024 * 1024; max_total_bytes := 64 * 1024 * 1024 |}.

(** [BlobLimits.__post_init__]. *)
Definition BlobLimits_init (blob total : Z) : res BlobLimits :=
  if decide (blob < 1)%Z then Err ValueError
  else if decide (total < blob)%Z then Err ValueError
  else Ok {| max_blob_bytes := blob; max_total_bytes := total |}.

(** ** Execution context: the fencing cursor one worker carries *)

Record ExecutionContext := {
  ec_run_id : string;
  ec_worker_id : string;
  ec_lease_epoch : Z;
  ec_lease_expires_at : Z;
  ec_stream_version : Z;
}.

#[global] Instance ExecutionContext_eq_dec : EqDecision ExecutionContext.
Proof. solve_decision. Defined.

(** [ExecutionContext(...)] with its [__post_init__] checks. *)
Definition ExecutionContext_init
    (run_id worker_id : string) (lease_epoch lease_expires_at stream_version : Z)
    : res ExecutionContext :=
  if decide (run_id = "" ∨ worker_id = "" ∨ lease_epoch < 0)%Z then Err ValueError
  else if decide (stream_version < 0)%Z then Err ValueError
  else Ok {| ec_run_id := run_id; ec_worker_id := worker_id;
             ec_lease_epoch := lease_epoch; ec_lease_expires_at := lease_expires_at;
             ec_stream_version := stream_version |}.

(** [ExecutionContext.observe]. *)
Definition observe (c : ExecutionContext) (stream_version : Z) : res ExecutionContext :=
  if decide (stream_version < c.(ec_stream_version))%Z then Err ValueError
  else Ok {| ec_run_id := c.(ec_run_id); ec_worker_id := c.(ec_worker_id);
             ec_lease_epoch := c.(ec_lease_epoch);
             ec_lease_expires_at := c.(ec_lease_expires_at);
             ec_stream_version := stream_version |}.

(** [ExecutionContext.renew]. *)
Definition renew (c : ExecutionContext) (expires_at lease_epoch : Z) : res ExecutionContext :=
  if decide (lease_epoch ≠ c.(ec_lease_epoch)) then Err ValueError
  else Ok {| ec_run_id := c.(ec_run_id); ec_worker_id := c.(ec_worker_id);
             ec_lease_epoch := c.(ec_lease_epoch);
             ec_lease_expires_at := expires_at;
             ec_stream_version := c.(ec_stream_version) |}.

(** ** Control command context *)

Record ControlCommandContext := {
  cc_command_id : string;
  cc_actor : string;
  cc_expected_stream_version : Z;
}.

Definition ControlCommandContext_init
    (command_id actor : string) (expected_stream_version : Z) : res ControlCommandContext :=
  if decide (command_id = "" ∨ actor = "") then Err ValueError
  else if decide (expected_stream_version < 0)%Z then Err ValueError
  else Ok {| cc_command_id := command_id; cc_actor := actor;
             cc_expected_stream_version := expected_stream_version |}.

(** ** Execution status transitions *)

Definition TERMINAL_EXECUTION_STATUSES : list ExecutionStatus.t :=
  [ExecutionStatus.COMPLETED; ExecutionStatus.FAILED; ExecutionStatus.CANCELLED;
   ExecutionStatus.BUDGET_EXCEEDED].

Definition can_transition_execution (current target : ExecutionStatus.t) : bool :=
  if decide (current ∈ TERMINAL_EXECUTION_STATUSES) then bool_decide (current = target)
  else if decide (current = ExecutionStatus.NEEDS_ATTENTION) then
    bool_decide (target ∈ [ExecutionStatus.ACTIVE; ExecutionStatus.FAILED;
                           ExecutionStatus.CANCELLED; ExecutionStatus.NEEDS_ATTENTION])
  else true.

(** A chain of statuses each of which the transition predicate allows after the one
    before it. *)
Inductive status_path : ExecutionStatus.t → ExecutionStatus.t → Prop :=
| status_path_refl a : status_path a a
| status_path_step a b c :
    can_transition_execution a b = true → status_path b c → status_path a c.

(** No sequence of allowed transitions leaves a terminal status. *)
Lemma terminal_status_absorbing a b :
  status_path a b → a ∈ TERMINAL_EXECUTION_STATUSES → b = a.
Proof.
  induction 1 as [|a b c Hab _ IH]; intros Ht; [done|].
  assert (b = a) as ->; [|by apply IH].
  unfold can_transition_execution in Hab. rewrite decide_True in Hab by done.
  by apply bool_decide_eq_true in Hab.
Qed.

(** The context never moves backwards and keeps its identity. *)
Lemma observe_Ok c v c' :
  observe c v = Ok c' →
  c'.(ec_stream_version) = v ∧ (c.(ec_stream_version) ≤ v)%Z
  ∧ c'.(ec_run_id) = c.(ec_run_id) ∧ c'.(ec_worker_id) = c.(ec_worker_id)
  ∧ c'.(ec_lease_epoch) = c.(ec_lease_epoch).
Proof. unfold observe. case_decide; intros; simplify_eq/=; naive_solver lia. Qed.
