(* ===== verification/Platform.v ===== *)
(** * Platform: the parts of Python's runtime whose result the model does not compute

    The digest, the UUID reader, Unicode normalization and the float printer and reader
    are parameters: [hashlib.sha256(...).hexdigest()], [str(uuid.UUID(text))],
    [unicodedata.normalize], path resolution, [repr(float)] and [float(text)]. The values that change
    from call to call (fresh identifiers, clock readings) are an [oracle] that each
    operation receives: a theorem about an operation quantifies over every oracle. *)

From S2P Require Import Prelude.
From Corelib Require Import SpecFloat.

Class Platform := {
  (** the lowercase hex digest of the UTF-8 bytes of a text *)
  sha256_text : string → string;
  (** [str(UUID(text))], [None] where UUID raises ValueError *)
  uuid_canon : string → option string;
  (** [unicodedata.normalize] with form NFC *)
  nfc : string → string;
  (** [str(Path(text).resolve())] *)
  path_resolve : string → string;
  (** [str(Path(text).resolve(strict=True))], [None] where it raises *)
  path_resolve_strict : string → option string;
  float_repr : spec_float → string;
  float_of : string → option spec_float;
}.

(** What the store relies on: the canonical text of a UUID is itself canonical. *)
Class PlatformLaws `{Platform} : Prop :=
  uuid_canon_idem : ∀ s t, uuid_canon s = Some t → uuid_canon t = Some t.

(** The values one operation draws from its surroundings. [ev_uuid k] and [ev_time k]
    are the identifier and the time stamp of the [k]-th event it creates, [new_id k] the
    [k]-th [new_uuid7()], [now k] the [k]-th other clock reading, in microseconds. *)
Record oracle := {
  ev_uuid : nat → string;
  ev_time : nat → Z;
  new_id : nat → string;
  now : nat → Z;
}.

(** A concrete platform, for evaluating the model on examples: the digest is the text
    itself, every text that is not empty is a canonical UUID, and texts are already
    normalized. *)
Definition plain_platform : Platform := {|
  sha256_text s := s;
  uuid_canon s := if decide (s = "") then None else Some s;
  nfc s := s;
  path_resolve s := s;
  path_resolve_strict s := Some s;
  float_repr _ := "0.0";
  float_of _ := None;
|}.

#[global] Instance plain_platform_laws : @PlatformLaws plain_platform.
Proof. intros s t. cbn. case_decide; [done|]. intros [= <-]. by rewrite decide_False. Qed.
