(* ===== verification/Json.v ===== *)
(** * Json: JSON values, [canonical_json] and [json.loads]

    [canonical_json] is the store's single text encoder (persistence/store.py,
    [json.dumps(value, ensure_ascii=False, separators, sort_keys=True)]); the reader is
    [json.loads]. Strings are UTF-8 byte sequences, so [ensure_ascii=False] copies every
    byte above the control range and [sort_keys] is the byte order. The main result is
    the round trip: reading a canonical text gives the value with its object keys sorted. *)

From S2P Require Import Prelude Domain Platform.
From Corelib Require Import SpecFloat.
From Stdlib Require Import Decimal DecimalString DecimalZ DecimalPos DecimalN DecimalFacts.

(** ** Values *)

#[warnings="-register-all"]
Inductive json :=
| JNull
| JBool (b : bool)
| JInt (z : Z)
| JFloat (f : spec_float)
| JStr (s : string)
| JArr (l : list json)
| JObj (l : list (string * json)).

Section json_ind.
Variable P : json → Prop.
Hypothesis Hnull : P JNull.
Hypothesis Hbool : ∀ b, P (JBool b).
Hypothesis Hint : ∀ z, P (JInt z).
Hypothesis Hfloat : ∀ f, P (JFloat f).
Hypothesis Hstr : ∀ s, P (JStr s).
Hypothesis Harr : ∀ l, Forall P l → P (JArr l).
Hypothesis Hobj : ∀ l, Forall (λ kv, P kv.2) l → P (JObj l).

Fixpoint json_nested_ind (j : json) : P j :=
  match j with
  | JNull => Hnull
  | JBool b => Hbool b
  | JInt z => Hint z
  | JFloat f => Hfloat f
  | JStr s => Hstr s
  | JArr l => Harr l
      ((fix go l : Forall P l :=
          match l with
          | [] => Forall_nil_2 _
          | x :: l => Forall_cons_2 _ _ _ (json_nested_ind x) (go l)
          end) l)
  | JObj l => Hobj l
      ((fix go l : Forall (λ kv, P kv.2) l :=
          match l with
          | [] => Forall_nil_2 _
          | kv :: l => Forall_cons_2 (λ kv, P kv.2) kv l (json_nested_ind kv.2) (go l)
          end) l)
  end.
End json_ind.

#[global] Instance json_eq_dec : EqDecision json.
Proof.
  refine (fix go (a b : json) : Decision (a = b) :=
    let _ : EqDecision json := @go in
    match a, b with
    | JNull, JNull => left eq_refl
    | JBool x, JBool y => cast_if (decide (x = y))
    | JInt x, JInt y => cast_if (decide (x = y))
    | JFloat x, JFloat y => cast_if (decide (x = y))
    | JStr x, JStr y => cast_if (decide (x = y))
    | JArr x, JArr y => cast_if (decide (x = y))
    | JObj x, JObj y => cast_if (decide (x = y))
    | _, _ => right _
    end); congruence.
Defined.

(** ** Printing *)

Definition quote_char : ascii := ascii_of_nat 34.
Definition backslash : ascii := ascii_of_nat 92.
Definition chr (n : N) : string := String (ascii_of_N n) "".

Definition hex_digit (n : nat) : ascii :=
  if (n <? 10)%nat then ascii_of_nat (48 + n) else ascii_of_nat (87 + n).

(** [ESCAPE_DCT] of the json module: the short escapes and the control characters. *)
Definition escape_char (a : ascii) : string :=
  let n := nat_of_ascii a in
  if (n =? 34)%nat then String backslash (String quote_char "")
  else if (n =? 92)%nat then String backslash (String backslash "")
  else if (n =? 10)%nat then String backslash "n"
  else if (n =? 13)%nat then String backslash "r"
  else if (n =? 9)%nat then String backslash "t"
  else if (n =? 8)%nat then String backslash "b"
  else if (n =? 12)%nat then String backslash "f"
  else if (n <? 32)%nat then
    String backslash ("u00" +:+ String (hex_digit (n / 16)) (String (hex_digit (n mod 16)) ""))
  else String a "".

Fixpoint escape (s : string) : string :=
  match s with
  | EmptyString => ""
  | String a s' => escape_char a +:+ escape s'
  end.

Definition json_str (s : string) : string :=
  String quote_char (escape s +:+ String quote_char "").

Definition int_str (z : Z) : string := NilEmpty.string_of_int (Z.to_int z).

Fixpoint join (sep : string) (l : list string) : string :=
  match l with
  | [] => ""
  | [x] => x
  | x :: l' => x +:+ sep +:+ join sep l'
  end.

Definition key_le {A} (x y : string * A) : Prop := String.le x.1 y.1.
#[global] Instance key_le_dec {A} : RelDecision (@key_le A).
Proof. intros x y. unfold key_le. apply _. Defined.
#[global] Instance key_le_total {A} : Total (@key_le A).
Proof. intros x y. apply String.le_total. Qed.
#[global] Instance key_le_trans {A} : Transitive (@key_le A).
Proof. intros x y z. unfold key_le. apply (transitivity (R:=String.le)). Qed.

Definition sort_keys {A} (l : list (string * A)) : list (string * A) := merge_sort key_le l.

Section printer.
Context `{Platform}.

Fixpoint canonical_json (j : json) : string :=
  match j with
  | JNull => "null"
  | JBool true => "true"
  | JBool false => "false"
  | JInt z => int_str z
  | JFloat f => float_repr f
  | JStr s => json_str s
  | JArr l => "[" +:+ join "," (map canonical_json l) +:+ "]"
  | JObj l =>
      "{" +:+ join "," (map (λ kv, json_str kv.1 +:+ ":" +:+ kv.2)
                          (sort_keys (map (λ kv, (kv.1, canonical_json kv.2)) l))) +:+ "}"
  end.
End printer.

(** The value a canonical text denotes: object keys in byte order at every level. *)
Fixpoint normalize_json (j : json) : json :=
  match j with
  | JArr l => JArr (map normalize_json l)
  | JObj l => JObj (sort_keys (map (λ kv, (kv.1, normalize_json kv.2)) l))
  | _ => j
  end.

(** ** Reading *)

Definition is_ws (a : ascii) : bool :=
  let n := nat_of_ascii a in ((n =? 32) || (n =? 9) || (n =? 10) || (n =? 13))%nat.

Fixpoint skip_ws (s : string) : string :=
  match s with
  | String a s' => if is_ws a then skip_ws s' else s
  | EmptyString => ""
  end.

Definition is_digit (a : ascii) : bool :=
  let n := nat_of_ascii a in ((48 <=? n) && (n <=? 57))%nat.

Fixpoint span_digits (s : string) : string * string :=
  match s with
  | String a s' =>
      if is_digit a then let '(d, r) := span_digits s' in (String a d, r) else ("", s)
  | EmptyString => ("", "")
  end.

Definition hex_val (a : ascii) : option N :=
  let n := N_of_ascii a in
  if ((48 <=? n) && (n <=? 57))%N then Some (n - 48)%N
  else if ((97 <=? n) && (n <=? 102))%N then Some (n - 87)%N
  else if ((65 <=? n) && (n <=? 70))%N then Some (n - 55)%N
  else None.

Definition hex4 (a b c d : ascii) : option N :=
  w ← hex_val a; x ← hex_val b; y ← hex_val c; z ← hex_val d;
  Some (((w * 16 + x) * 16 + y) * 16 + z)%N.

(** The UTF-8 bytes of a code point. *)
Definition utf8 (n : N) : string :=
  (if n <? 128 then chr n
   else if n <? 2048 then chr (192 + n / 64) +:+ chr (128 + n mod 64)
   else if n <? 65536 then
     chr (224 + n / 4096) +:+ chr (128 + (n / 64) mod 64) +:+ chr (128 + n mod 64)
   else chr (240 + n / 262144) +:+ chr (128 + (n / 4096) mod 64)
        +:+ chr (128 + (n / 64) mod 64) +:+ chr (128 + n mod 64))%N.

Definition simple_escape (a : ascii) : option ascii :=
  let n := nat_of_ascii a in
  if (n =? 34)%nat then Some quote_char
  else if (n =? 92)%nat then Some backslash
  else if (n =? 47)%nat then Some (ascii_of_nat 47)
  else if (n =? 98)%nat then Some (ascii_of_nat 8)
  else if (n =? 102)%nat then Some (ascii_of_nat 12)
  else if (n =? 110)%nat then Some (ascii_of_nat 10)
  else if (n =? 114)%nat then Some (ascii_of_nat 13)
  else if (n =? 116)%nat then Some (ascii_of_nat 9)
  else None.

Definition cons_result (p : string) (r : option (string * string)) : option (string * string) :=
  match r with Some (s, rest) => Some (p +:+ s, rest) | None => None end.

(** [py_scanstring]: the text after an opening quote; strict mode refuses control
    characters; a surrogate pair of two \u escapes is one code point. *)
Fixpoint scan_string (s : string) : option (string * string) :=
  match s with
  | EmptyString => None
  | String a s1 =>
      if (nat_of_ascii a =? 34)%nat then Some ("", s1)
      else if (nat_of_ascii a =? 92)%nat then
        match s1 with
        | EmptyString => None
        | String e s2 =>
            if (nat_of_ascii e =? 117)%nat then
              match s2 with
              | String h1 (String h2 (String h3 (String h4 s3))) =>
                  match hex4 h1 h2 h3 h4 with
                  | None => None
                  | Some n =>
                      if ((55296 <=? n) && (n <=? 56319))%N then
                        match s3 with
                        | String b (String u (String g1 (String g2 (String g3 (String g4 s4))))) =>
                            if ((nat_of_ascii b =? 92) && (nat_of_ascii u =? 117))%nat then
                              match hex4 g1 g2 g3 g4 with
                              | None => None
                              | Some m =>
                                  if ((56320 <=? m) && (m <=? 57343))%N then
                                    cons_result
                                      (utf8 (65536 + ((n - 55296) * 1024 + (m - 56320)))%N)
                                      (scan_string s4)
                                  else cons_result (utf8 n) (scan_string s3)
                              end
                            else cons_result (utf8 n) (scan_string s3)
                        | _ => cons_result (utf8 n) (scan_string s3)
                        end
                      else cons_result (utf8 n) (scan_string s3)
                  end
              | _ => None
              end
            else
              match simple_escape e with
              | Some c => cons_result (String c "") (scan_string s2)
              | None => None
              end
        end
      else if (nat_of_ascii a <? 32)%nat then None
      else cons_result (String a "") (scan_string s1)
  end.

Definition head_is (n : nat) (s : string) : bool :=
  match s with String a _ => (nat_of_ascii a =? n)%nat | EmptyString => false end.

(** [dict.__setitem__] on a dictionary kept as an association list: an existing key
    keeps its place and takes the new value. *)
Fixpoint dict_set {A} (k : string) (v : A) (d : list (string * A)) : list (string * A) :=
  match d with
  | [] => [(k, v)]
  | (k', v') :: d' => if String.eqb k' k then (k, v) :: d' else (k', v') :: dict_set k v d'
  end.

Fixpoint dict_get {A} (k : string) (d : list (string * A)) : option A :=
  match d with
  | [] => None
  | (k', v) :: d' => if String.eqb k' k then Some v else dict_get k d'
  end.

Definition dict_of_pairs {A} (l : list (string * A)) : list (string * A) :=
  foldl (λ d kv, dict_set kv.1 kv.2 d) [] l.

Section reader.
Context `{Platform}.

Definition number (neg : bool) (digits : string) : option json :=
  d ← NilEmpty.uint_of_string digits;
  Some (JInt (if neg then Z.of_int (Neg d) else Z.of_int (Pos d))).

(** The fraction and exponent of a number, as the reader's regular expression matches
    them; empty texts when absent. *)
Definition scan_frac (s : string) : string * string :=
  match s with
  | String a s' =>
      if (nat_of_ascii a =? 46)%nat then
        match span_digits s' with
        | (EmptyString, _) => ("", s)
        | (d, r) => (String a d, r)
        end
      else ("", s)
  | EmptyString => ("", "")
  end.

Definition scan_exp (s : string) : string * string :=
  match s with
  | String a s' =>
      if ((nat_of_ascii a =? 101) || (nat_of_ascii a =? 69))%nat then
        let '(sign, s2) :=
          match s' with
          | String b s3 =>
              if ((nat_of_ascii b =? 43) || (nat_of_ascii b =? 45))%nat
              then (String b "", s3) else ("", s')
          | EmptyString => ("", "")
          end in
        match span_digits s2 with
        | (EmptyString, _) => ("", s)
        | (d, r) => (String a (sign +:+ d), r)
        end
      else ("", s)
  | EmptyString => ("", "")
  end.

Definition parse_number (s : string) : option (json * string) :=
  let '(neg, s1) := if head_is 45 s then (true, str_drop 1 s) else (false, s) in
  let '(digits, s2) :=
    if head_is 48 s1 then ("0", str_drop 1 s1) else span_digits s1 in
  if decide (digits = "") then None
  else
    let '(frac, s3) := scan_frac s2 in
    let '(exp, s4) := scan_exp s3 in
    if decide (frac = "" ∧ exp = "") then
      j ← number neg digits; Some (j, s4)
    else
      f ← float_of ((if neg then "-" else "") +:+ digits +:+ frac +:+ exp);
      Some (JFloat f, s4).

Definition strip_prefix (p s : string) : option string :=
  if str_prefix p s then Some (str_drop (String.length p) s) else None.

Fixpoint parse_value (fuel : nat) (s : string) {struct fuel} : option (json * string) :=
  match fuel with
  | O => None
  | S f =>
      match s with
      | EmptyString => None
      | String a s' =>
          if (nat_of_ascii a =? 34)%nat then
            '(t, r) ← scan_string s'; Some (JStr t, r)
          else if (nat_of_ascii a =? 123)%nat then
            let s2 := skip_ws s' in
            if head_is 125 s2 then Some (JObj [], str_drop 1 s2)
            else '(l, r) ← parse_members f s2; Some (JObj (dict_of_pairs l), r)
          else if (nat_of_ascii a =? 91)%nat then
            let s2 := skip_ws s' in
            if head_is 93 s2 then Some (JArr [], str_drop 1 s2)
            else '(l, r) ← parse_elements f s2; Some (JArr l, r)
          else if str_prefix "null" s then Some (JNull, str_drop 4 s)
          else if str_prefix "true" s then Some (JBool true, str_drop 4 s)
          else if str_prefix "false" s then Some (JBool false, str_drop 5 s)
          else if str_prefix "NaN" s then Some (JFloat S754_nan, str_drop 3 s)
          else if str_prefix "Infinity" s then Some (JFloat (S754_infinity false), str_drop 8 s)
          else if str_prefix "-Infinity" s then Some (JFloat (S754_infinity true), str_drop 9 s)
          else parse_number s
      end
  end
with parse_members (fuel : nat) (s : string) {struct fuel}
    : option (list (string * json) * string) :=
  match fuel with
  | O => None
  | S f =>
      if head_is 34 s then
        '(k, r1) ← scan_string (str_drop 1 s);
        let r2 := skip_ws r1 in
        if head_is 58 r2 then
          '(v, r3) ← parse_value f (skip_ws (str_drop 1 r2));
          let r4 := skip_ws r3 in
          if head_is 125 r4 then Some ([(k, v)], str_drop 1 r4)
          else if head_is 44 r4 then
            '(l, r5) ← parse_members f (skip_ws (str_drop 1 r4));
            Some ((k, v) :: l, r5)
          else None
        else None
      else None
  end
with parse_elements (fuel : nat) (s : string) {struct fuel} : option (list json * string) :=
  match fuel with
  | O => None
  | S f =>
      '(v, r1) ← parse_value f s;
      let r2 := skip_ws r1 in
      if head_is 93 r2 then Some ([v], str_drop 1 r2)
      else if head_is 44 r2 then
        '(l, r3) ← parse_elements f (skip_ws (str_drop 1 r2));
        Some (v :: l, r3)
      else None
  end.

(** [json.loads(s)], [None] where it raises. Every recursive call consumes a byte of
    the text, so its length bounds the depth of the recursion. *)
Definition json_loads (s : string) : option json :=
  match parse_value (S (String.length s)) (skip_ws s) with
  | Some (j, rest) => if decide (skip_ws rest = "") then Some j else None
  | None => None
  end.
End reader.

(** ** Sorting keys commutes with mapping values *)

Section sort_map.
Context {A B : Type} (f : A → B).
Let g (kv : string * A) : string * B := (kv.1, f kv.2).

Lemma list_merge_map (l1 l2 : list (string * A)) :
  list_merge key_le (map g l1) (map g l2) = map g (list_merge key_le l1 l2).
Proof.
  revert l2. induction l1 as [|x1 l1 IH1]; intros l2; [by destruct l2|].
  induction l2 as [|x2 l2 IH2]; [done|].
  cbn [map]. rewrite !list_merge_cons.
  destruct (decide (key_le x1 x2)) as [Hd|Hd].
  - rewrite decide_True by done. cbn [map]. f_equal. apply (IH1 (x2 :: l2)).
  - rewrite decide_False by done. cbn [map]. f_equal. apply IH2.
Qed.

Lemma merge_list_to_stack_map (st : list (option (list (string * A)))) l :
  merge_list_to_stack key_le (map (fmap (map g)) st) (map g l)
  = map (fmap (map g)) (merge_list_to_stack key_le st l).
Proof.
  revert l. induction st as [|[l'|] st IH]; intros l; simpl; [done| |done].
  rewrite list_merge_map. by rewrite IH.
Qed.

Lemma merge_stack_map (st : list (option (list (string * A)))) :
  merge_stack key_le (map (fmap (map g)) st) = map g (merge_stack key_le st).
Proof.
  induction st as [|[l'|] st IH]; simpl; [done| |done].
  rewrite IH. apply list_merge_map.
Qed.

Lemma sort_keys_map l : sort_keys (map g l) = map g (sort_keys l).
Proof.
  unfold sort_keys, merge_sort.
  assert (∀ st, merge_sort_aux key_le (map (fmap (map g)) st) (map g l)
                = map g (merge_sort_aux key_le st l)) as Hgen.
  { induction l as [|x l IH]; intros st; simpl; [apply merge_stack_map|].
    rewrite <- IH. f_equal. apply (merge_list_to_stack_map st [x]). }
  apply (Hgen []).
Qed.
End sort_map.

(** ** The printer without sorting *)

Section roundtrip.
Context `{Platform}.

Fixpoint print_json (j : json) : string :=
  match j with
  | JNull => "null"
  | JBool true => "true"
  | JBool false => "false"
  | JInt z => int_str z
  | JFloat f => float_repr f
  | JStr s => json_str s
  | JArr l => "[" +:+ join "," (map print_json l) +:+ "]"
  | JObj l =>
      "{" +:+ join "," (map (λ kv, json_str kv.1 +:+ ":" +:+ print_json kv.2) l) +:+ "}"
  end.

Lemma canonical_is_print j : canonical_json j = print_json (normalize_json j).
Proof.
  induction j as [| | | | |l IH|l IH] using json_nested_ind; simpl; try done.
  - assert (map canonical_json l = map print_json (map normalize_json l)) as ->; [|done].
    rewrite map_map. by apply map_ext_Forall.
  - assert (map (λ kv, (kv.1, canonical_json kv.2)) l
            = map (λ kv, (kv.1, print_json kv.2)) (map (λ kv, (kv.1, normalize_json kv.2)) l)) as ->.
    { rewrite map_map. apply map_ext_Forall. eapply Forall_impl; [exact IH|].
      intros ? Heq. simpl. by f_equal. }
    rewrite (sort_keys_map print_json), map_map. done.
Qed.

(** Values whose objects are dictionaries (no repeated key) and that hold no float. *)
Fixpoint dict_value (j : json) : Prop :=
  match j with
  | JFloat _ => False
  | JArr l => foldr (λ x P, dict_value x ∧ P) True l
  | JObj l => NoDup l.*1 ∧ foldr (λ kv P, dict_value kv.2 ∧ P) True l
  | _ => True
  end.

Lemma foldr_and_Forall {A} (P : A → Prop) l : foldr (λ x Q, P x ∧ Q) True l ↔ Forall P l.
Proof.
  induction l as [|x l IH]; simpl; [naive_solver|]. rewrite Forall_cons. naive_solver.
Qed.

Lemma dict_value_JArr l : dict_value (JArr l) ↔ Forall dict_value l.
Proof. apply foldr_and_Forall. Qed.

Lemma dict_value_JObj l :
  dict_value (JObj l) ↔ NoDup l.*1 ∧ Forall (λ kv, dict_value kv.2) l.
Proof. simpl. by rewrite (foldr_and_Forall (λ kv, dict_value kv.2)). Qed.

Lemma sort_keys_perm {A} (l : list (string * A)) : sort_keys l ≡ₚ l.
Proof. apply merge_sort_Permutation. Qed.

Lemma normalize_dict_value j : dict_value j → dict_value (normalize_json j).
Proof.
  induction j as [| | | | |l IH|l IH] using json_nested_ind; try done.
  - cbn [normalize_json]. rewrite !dict_value_JArr, Forall_map.
    intros Hl. eapply Forall_impl; [apply Forall_and; exact (conj IH Hl)|]. simpl. naive_solver.
  - cbn [normalize_json]. rewrite !dict_value_JObj. intros [Hnd Hl]. split.
    + rewrite sort_keys_perm. rewrite <- list_fmap_compose. done.
    + rewrite sort_keys_perm, Forall_map. 
      eapply Forall_impl; [apply Forall_and; exact (conj IH Hl)|]. simpl. naive_solver.
Qed.

(** ** Strings *)

Lemma scan_string_escape s r :
  scan_string (escape s +:+ String quote_char r) = Some (s, r).
Proof.
  induction s as [|a s IH]; [done|].
  cbn [escape]. rewrite str_app_assoc.
  destruct a as [[] [] [] [] [] [] [] []]; simpl; rewrite IH; reflexivity.
Qed.

(** ** Numbers *)

(** What may follow a number in a canonical text. *)
Definition num_end (r : string) : Prop :=
  match r with
  | EmptyString => True
  | String a _ =>
      is_digit a = false ∧ nat_of_ascii a ≠ 46%nat ∧ nat_of_ascii a ≠ 101%nat
      ∧ nat_of_ascii a ≠ 69%nat
  end.

Lemma span_digits_uint d r :
  num_end r → span_digits (NilEmpty.string_of_uint d +:+ r) = (NilEmpty.string_of_uint d, r).
Proof.
  intros Hr. induction d; simpl; [|by rewrite IHd..].
  destruct r as [|a r]; [done|]. simpl. destruct Hr as [-> _]. done.
Qed.

Lemma scan_frac_end r : num_end r → scan_frac r = ("", r).
Proof.
  destruct r as [|a r]; [done|]. intros (_ & Ha & _). unfold scan_frac.
  by apply Nat.eqb_neq in Ha as ->.
Qed.

Lemma scan_exp_end r : num_end r → scan_exp r = ("", r).
Proof.
  destruct r as [|a r]; [done|]. intros (_ & _ & Hb & Hc). unfold scan_exp.
  apply Nat.eqb_neq in Hb as ->. by apply Nat.eqb_neq in Hc as ->.
Qed.

(** The decimal text of a positive number does not start with a zero. *)
Lemma pos_to_uint_head p d : Pos.to_uint p ≠ D0 d.
Proof.
  intros Heq.
  assert (unorm (Pos.to_uint p) = Pos.to_uint p) as Hn.
  { pose proof (DecimalN.Unsigned.to_of (Pos.to_uint p)) as Ht.
    rewrite <- Ht. pose proof (DecimalN.Unsigned.of_to (N.pos p)) as Hot.
    simpl in Hot. rewrite Hot. done. }
  rewrite Heq in Hn. unfold unorm in Hn. simpl in Hn.
  destruct (nzhead d) eqn:Hz; simplify_eq.
  - apply (DecimalPos.Unsigned.to_uint_nonzero p). by rewrite Heq.
  - by apply nzhead_nonzero in Hz.
Qed.

Lemma head_is_pos p r : head_is 48 (NilEmpty.string_of_uint (Pos.to_uint p) +:+ r) = false
  ∧ head_is 45 (NilEmpty.string_of_uint (Pos.to_uint p) +:+ r) = false
  ∧ NilEmpty.string_of_uint (Pos.to_uint p) ≠ "".
Proof.
  pose proof (DecimalPos.Unsigned.to_uint_nonnil p) as Hnn.
  pose proof (pos_to_uint_head p) as Hh.
  destruct (Pos.to_uint p) as [|d|d|d|d|d|d|d|d|d|d]; try done. by destruct (Hh d).
Qed.

Lemma number_uint neg d :
  number neg (NilEmpty.string_of_uint d)
  = Some (JInt (if neg then Z.of_int (Neg d) else Z.of_int (Pos d))).
Proof. unfold number. by rewrite NilEmpty.usu. Qed.

Lemma parse_number_int z r : num_end r → parse_number (int_str z +:+ r) = Some (JInt z, r).
Proof.
  intros Hr. unfold parse_number, int_str.
  destruct z as [|p|p]; simpl Z.to_int; unfold NilEmpty.string_of_int.
  - simpl. rewrite scan_frac_end by done. rewrite scan_exp_end by done. done.
  - destruct (head_is_pos p r) as (H0 & H1 & Hne). rewrite H1, H0.
    rewrite span_digits_uint by done. rewrite decide_False by done.
    rewrite scan_frac_end, scan_exp_end by done. simpl.
    rewrite number_uint.
    change (Some (JInt (Z.of_int (Z.to_int (Z.pos p))), r) = Some (JInt (Z.pos p), r)).
    by rewrite DecimalZ.of_to.
  - destruct (head_is_pos p r) as (H0 & H1 & Hne). simpl. rewrite H0.
    rewrite span_digits_uint by done. rewrite decide_False by done.
    rewrite scan_frac_end, scan_exp_end by done. simpl.
    rewrite number_uint.
    change (Some (JInt (Z.of_int (Z.to_int (Z.neg p))), r) = Some (JInt (Z.neg p), r)).
    by rewrite DecimalZ.of_to.
Qed.

(** ** Values *)

(** Fuel the reader needs for a printed value. *)
Fixpoint json_size (j : json) : nat :=
  match j with
  | JArr l => S (foldr (λ x n, S (json_size x + n)) 0 l)
  | JObj l => S (foldr (λ kv n, S (json_size kv.2 + n)) 0 l)
  | _ => 1
  end.

Lemma print_head j :
  dict_value j →
  ∃ a s, print_json j = String a s ∧ is_ws a = false ∧ nat_of_ascii a ≠ 93%nat.
Proof.
  destruct j as [|[]|z| |s|l|l]; intros Hd; try (by eexists _, _; split_and!; [reflexivity|..]).
  - destruct z as [|p|p]; try (by eexists _, _; split_and!; [reflexivity|..]).
    unfold print_json, int_str, Z.to_int, NilEmpty.string_of_int.
    pose proof (DecimalPos.Unsigned.to_uint_nonnil p).
    destruct (Pos.to_uint p); try done; by eexists _, _; split_and!; [reflexivity|..].
  - done.
Qed.

Lemma skip_ws_print j r : dict_value j → skip_ws (print_json j +:+ r) = print_json j +:+ r.
Proof. intros (a & s & -> & Ha & _)%print_head. simpl. by rewrite Ha. Qed.

Lemma parse_value_int f z r : num_end r → parse_value (S f) (int_str z +:+ r) = Some (JInt z, r).
Proof.
  intros Hr. rewrite <- (parse_number_int z r Hr).
  destruct z as [|p|p]; unfold int_str, Z.to_int, NilEmpty.string_of_int; [done|..].
  - pose proof (DecimalPos.Unsigned.to_uint_nonnil p). by destruct (Pos.to_uint p).
  - pose proof (DecimalPos.Unsigned.to_uint_nonnil p). by destruct (Pos.to_uint p).
Qed.

(** The text of a non-empty sequence is its first item, then a tail that starts with a
    comma or the closing bracket. *)
Lemma join_cons_app x l close r :
  join "," (x :: l) +:+ String close r
  = x +:+ match l with
          | [] => String close r
          | _ => String "," (join "," l +:+ String close r)
          end.
Proof. destruct l as [|y l]; [done|]. cbn [join]. by rewrite !str_app_assoc. Qed.

Definition reads_back (j : json) : Prop :=
  ∀ fuel r, (json_size j ≤ fuel)%nat → num_end r →
    parse_value fuel (print_json j +:+ r) = Some (j, r).

Lemma skip_ws_elements x l r :
  dict_value x →
  skip_ws (join "," (map print_json (x :: l)) +:+ r) = join "," (map print_json (x :: l)) +:+ r.
Proof.
  intros Hx. destruct l as [|z l']; cbn [map join]; [by apply skip_ws_print|].
  rewrite str_app_assoc. by apply skip_ws_print.
Qed.

Lemma parse_elements_print x l fuel r :
  Forall reads_back (x :: l) → Forall dict_value (x :: l) →
  (foldr (λ x n, S (json_size x + n)) 0 (x :: l) ≤ fuel)%nat →
  parse_elements fuel (join "," (map print_json (x :: l)) +:+ String "]" r) = Some (x :: l, r).
Proof.
  revert x fuel. induction l as [|y l IHl]; intros x [|f] Hp Hd Hf;
    [simpl in Hf; lia| |simpl in Hf; lia|];
    apply Forall_cons in Hp as [Hx Hp]; apply Forall_cons in Hd as [Hdx Hd];
    cbn [map]; rewrite join_cons_app; cbn [parse_elements].
  - rewrite Hx; [done|simpl in Hf; lia|done].
  - change (print_json y :: map print_json l) with (map print_json (y :: l)).
    assert (skip_ws (join "," (map print_json (y :: l)) +:+ String "]" r)
            = join "," (map print_json (y :: l)) +:+ String "]" r) as Hws.
    { apply skip_ws_elements. by apply Forall_cons in Hd as [? _]. }
    assert (parse_elements f (join "," (map print_json (y :: l)) +:+ String "]" r)
            = Some (y :: l, r)) as HP.
    { apply IHl; [done|done|]. simpl in Hf |- *. lia. }
    revert Hws HP. generalize (join "," (map print_json (y :: l)) +:+ String "]" r).
    intros T Hws HP. rewrite Hx; [|simpl in Hf; lia|done].
    simpl. by rewrite Hws, HP.
Qed.

Definition print_member (kv : string * json) : string :=
  json_str kv.1 +:+ ":" +:+ print_json kv.2.

Lemma print_member_app k v r :
  print_member (k, v) +:+ r
  = String quote_char (escape k +:+ String quote_char (String ":" (print_json v +:+ r))).
Proof.
  unfold print_member, json_str. cbn [fst snd].
  by rewrite !str_app_assoc, str_app_cons, !str_app_assoc, str_app_cons.
Qed.

Lemma skip_ws_members kv l r :
  skip_ws (join "," (map print_member (kv :: l)) +:+ r) = join "," (map print_member (kv :: l)) +:+ r.
Proof. by destruct l. Qed.

Lemma parse_members_key f k v r :
  dict_value v →
  parse_members (S f) (print_member (k, v) +:+ r)
  = ('(v, r3) ← parse_value f (print_json v +:+ r);
     let r4 := skip_ws r3 in
     if head_is 125 r4 then Some ([(k, v)], str_drop 1 r4)
     else if head_is 44 r4 then
       '(l, r5) ← parse_members f (skip_ws (str_drop 1 r4)); Some ((k, v) :: l, r5)
     else None).
Proof.
  intros Hv. rewrite print_member_app.
  cbn [parse_members head_is str_drop]. change (nat_of_ascii quote_char =? 34)%nat with true.
  cbn iota. rewrite scan_string_escape.
  cbn [mbind option_bind].
  change (skip_ws (String ":" (print_json v +:+ r))) with (String ":" (print_json v +:+ r)).
  cbn [head_is]. change (nat_of_ascii ":" =? 58)%nat with true. cbn iota.
  by rewrite skip_ws_print.
Qed.

Lemma parse_members_print kv l fuel r :
  Forall (λ kv, reads_back kv.2) (kv :: l) → Forall (λ kv, dict_value kv.2) (kv :: l) →
  (foldr (λ kv n, S (json_size kv.2 + n)) 0 (kv :: l) ≤ fuel)%nat →
  parse_members fuel (join "," (map print_member (kv :: l)) +:+ String "}" r) = Some (kv :: l, r).
Proof.
  revert kv fuel. induction l as [|kv' l IHl]; intros [k v] [|f] Hp Hd Hf;
    [simpl in Hf; lia| |simpl in Hf; lia|];
    apply Forall_cons in Hp as [Hx Hp]; apply Forall_cons in Hd as [Hdx Hd];
    cbn [map]; rewrite join_cons_app; cbn [fst snd] in *.
  - rewrite parse_members_key by done. rewrite Hx; [done|simpl in Hf; lia|done].
  - change (print_member kv' :: map print_member l) with (map print_member (kv' :: l)).
    pose proof (skip_ws_members kv' l (String "}" r)) as Hws.
    assert (parse_members f (join "," (map print_member (kv' :: l)) +:+ String "}" r)
            = Some (kv' :: l, r)) as HP.
    { apply IHl; [done|done|]. simpl in Hf |- *. lia. }
    revert Hws HP. generalize (join "," (map print_member (kv' :: l)) +:+ String "}" r).
    intros T Hws HP. rewrite parse_members_key by done. rewrite Hx; [|simpl in Hf; lia|done].
    simpl. by rewrite Hws, HP.
Qed.

(** A list of pairs with distinct keys is already a dictionary. *)
Lemma dict_set_new {A} k (v : A) d : k ∉ d.*1 → dict_set k v d = d ++ [(k, v)].
Proof.
  induction d as [|[k' v'] d IH]; intros Hk; [done|]. simpl in *.
  assert (String.eqb k' k = false) as -> by (apply String.eqb_neq; set_solver).
  rewrite IH by set_solver. done.
Qed.

Lemma dict_of_pairs_id {A} (l : list (string * A)) : NoDup l.*1 → dict_of_pairs l = l.
Proof.
  unfold dict_of_pairs. intros Hnd.
  assert (∀ d, NoDup (d ++ l).*1 → foldl (λ d kv, dict_set kv.1 kv.2 d) d l = d ++ l) as Hgen.
  { clear Hnd. induction l as [|[k v] l IH]; intros d Hnd; simpl; [by rewrite (right_id_L [] (++))|].
    rewrite dict_set_new.
    - rewrite IH; rewrite <- (assoc_L (++)); done.
    - rewrite fmap_app in Hnd. apply NoDup_app in Hnd as (_ & Hd & _).
      intros Hin. apply (Hd _ Hin). left. }
  apply (Hgen []). done.
Qed.

Lemma print_JObj l : print_json (JObj l) = "{" +:+ join "," (map print_member l) +:+ "}".
Proof. done. Qed.

Lemma parse_print j : dict_value j → reads_back j.
Proof.
  induction j as [|b|z|fl|s|l IH|l IH] using json_nested_ind; intros Hd [|f] r Hf Hr;
    try (simpl in Hf; lia); try done.
  - destruct b; reflexivity.
  - by apply parse_value_int.
  - unfold print_json, json_str. rewrite str_app_cons, str_app_assoc.
    cbn -[scan_string]. by rewrite scan_string_escape.
  - apply dict_value_JArr in Hd.
    assert (Forall reads_back l) as Hl.
    { eapply Forall_impl; [apply Forall_and; exact (conj IH Hd)|]. naive_solver. }
    cbn [print_json]. rewrite !str_app_assoc. destruct l as [|x l]; [done|].
    change ("]" +:+ r) with (String "]" r).
    cbn -[parse_elements join]. change (print_json x :: map print_json l) with (map print_json (x :: l)).
    rewrite skip_ws_elements by (by apply Forall_cons in Hd as [? _]).
    assert (∀ T, head_is 93 (join "," (map print_json (x :: l)) +:+ T) = false) as ->.
    { intros T. apply Forall_cons in Hd as [Hx _].
      destruct (print_head x Hx) as (a & s & Ha & _ & Hn).
      destruct l; cbn [map join]; rewrite Ha; simpl; by apply Nat.eqb_neq. }
    rewrite parse_elements_print; [done|done|done|]. simpl in Hf |- *. lia.
  - apply dict_value_JObj in Hd as [Hnd Hd].
    assert (Forall (λ kv, reads_back kv.2) l) as Hl.
    { eapply Forall_impl; [apply Forall_and; exact (conj IH Hd)|]. naive_solver. }
    rewrite print_JObj, !str_app_assoc. destruct l as [|x l]; [done|].
    change ("}" +:+ r) with (String "}" r).
    cbn -[parse_members join print_member].
    change (print_member x :: map print_member l) with (map print_member (x :: l)).
    rewrite skip_ws_members.
    assert (∀ T, head_is 125 (join "," (map print_member (x :: l)) +:+ T) = false) as ->
      by (intros T; by destruct l).
    rewrite parse_members_print; [|done|done|simpl in Hf |- *; lia].
    simpl. by rewrite dict_of_pairs_id.
Qed.

Lemma json_size_print j : dict_value j → (json_size j ≤ String.length (print_json j))%nat.
Proof.
  induction j as [|b|z|fl|s|l IH|l IH] using json_nested_ind; intros Hd; try done.
  - simpl; lia.
  - destruct b; simpl; lia.
  - destruct (print_head (JInt z) Hd) as (a & s & -> & _). simpl. lia.
  - simpl. lia.
  - apply dict_value_JArr in Hd. cbn [print_json json_size].
    rewrite !str_length_app. simpl.
    assert (foldr (λ x n, S (json_size x + n)) 0 l
            ≤ S (String.length (join "," (map print_json l))))%nat; [|lia].
    induction l as [|x l IHl]; simpl; [lia|].
    apply Forall_cons in IH as [Hx IH]. apply Forall_cons in Hd as [Hdx Hd].
    specialize (Hx Hdx). specialize (IHl IH Hd).
    destruct l as [|y l]; simpl in *; [lia|]. rewrite !str_length_app. simpl in *. lia.
  - apply dict_value_JObj in Hd as [_ Hd]. rewrite print_JObj. cbn [json_size].
    rewrite !str_length_app. simpl.
    assert (foldr (λ kv n, S (json_size kv.2 + n)) 0 l
            ≤ S (String.length (join "," (map print_member l))))%nat; [|lia].
    induction l as [|x l IHl]; simpl; [lia|].
    apply Forall_cons in IH as [Hx IH]. apply Forall_cons in Hd as [Hdx Hd].
    specialize (Hx Hdx). specialize (IHl IH Hd).
    assert (String.length (print_json x.2) ≤ String.length (print_member x))%nat.
    { unfold print_member. rewrite !str_length_app. lia. }
    destruct l as [|y l]; simpl in *; [lia|]. rewrite !str_length_app. simpl in *. lia.
Qed.

(** Reading a canonical text gives the value back, with sorted keys. *)
Lemma loads_canonical j :
  dict_value j → json_loads (canonical_json j) = Some (normalize_json j).
Proof.
  intros Hd%normalize_dict_value. rewrite canonical_is_print. unfold json_loads.
  rewrite <- (str_app_nil_r (print_json (normalize_json j))).
  rewrite skip_ws_print by done.
  rewrite parse_print; [done|done| |done].
  rewrite str_length_app. pose proof (json_size_print _ Hd). lia.
Qed.

Lemma normalize_sorted_id l :
  Sorted key_le l → NoDup l.*1 → Forall (λ kv, normalize_json kv.2 = kv.2) l →
  normalize_json (JObj l) = JObj l.
Proof.
  intros Hs Hnd Hl. simpl. f_equal.
  assert (map (λ kv, (kv.1, normalize_json kv.2)) l = l) as ->.
  { clear Hs Hnd. induction Hl as [|[k v] l Hv Hl IH]; simpl in *; congruence. }
  apply (Sorted_unique_strong key_le).
  - intros [k1 v1] [k2 v2] Hin1 Hin2 H1 H2. unfold key_le in *. simpl in *.
    assert (k1 = k2) as -> by (by apply (anti_symm String.le)).
    rewrite sort_keys_perm in Hin1.
    f_equal. apply list_elem_of_lookup in Hin1 as [i Hi]. apply list_elem_of_lookup in Hin2 as [i' Hi'].
    assert (i = i') as ->; [|congruence].
    eapply NoDup_lookup; [exact Hnd|..]; rewrite list_lookup_fmap.
    + by rewrite Hi.
    + by rewrite Hi'.
  - apply Sorted_merge_sort. apply _.
  - done.
  - apply sort_keys_perm.
Qed.

(** Looking a key up does not depend on the order of a dictionary's entries. *)
Lemma dict_get_Some {A} k (v : A) d : NoDup d.*1 → dict_get k d = Some v ↔ (k, v) ∈ d.
Proof.
  induction d as [|[k' v'] d IH]; simpl; intros Hnd; [set_solver|].
  apply NoDup_cons in Hnd as [Hk Hnd].
  destruct (String.eqb_spec k' k) as [->|Hne].
  - split; [intros [= ->]; left|]. intros [?|Hin]%elem_of_cons; [by simplify_eq|].
    destruct Hk. apply list_elem_of_fmap. by exists (k, v).
  - rewrite IH by done. set_solver.
Qed.

Lemma dict_get_perm {A} k (d1 d2 : list (string * A)) :
  d1 ≡ₚ d2 → NoDup d1.*1 → dict_get k d1 = dict_get k d2.
Proof.
  intros Hp Hnd. apply option_eq. intros v.
  rewrite !dict_get_Some, Hp; [done| |done]. by rewrite <- Hp.
Qed.

Lemma dict_get_map {A B} (f : A → B) k d :
  dict_get k (map (λ kv, (kv.1, f kv.2)) d) = f <$> dict_get k d.
Proof. induction d as [|[k' v] d IH]; simpl; [done|]. by destruct (String.eqb k' k). Qed.

Lemma canonical_json_inj a b :
  dict_value a → dict_value b → canonical_json a = canonical_json b →
  normalize_json a = normalize_json b.
Proof.
  intros Ha Hb Heq. pose proof (loads_canonical a Ha) as H1.
  pose proof (loads_canonical b Hb) as H2. rewrite Heq in H1. congruence.
Qed.

(** *** Properties *)

(** Reading back a canonical text: for every value without floats whose objects have
    distinct keys, [json.loads(canonical_json(v))] succeeds and is [v] with the keys of
    its objects in byte order. *)
Theorem json_roundtrip j :
  dict_value j → json_loads (canonical_json j) = Some (normalize_json j).
Proof. apply loads_canonical. Qed.

(** Two values have the same canonical text exactly when they are the same value up to
    the order of object keys: a digest of the text identifies the value. *)
Theorem canonical_json_faithful a b :
  dict_value a → dict_value b →
  canonical_json a = canonical_json b ↔ normalize_json a = normalize_json b.
Proof.
  intros Ha Hb. split.
  - by apply canonical_json_inj.
  - intros Heq. by rewrite !canonical_is_print, Heq.
Qed.
End roundtrip.

(** Witness of [json_roundtrip] on a nested object whose keys are out of order. *)
Lemma json_roundtrip_witness :
  @json_loads plain_platform
    (@canonical_json plain_platform (JObj [("b", JInt (-120)); ("a", JArr [JNull; JStr "x"])]))
  = Some (JObj [("a", JArr [JNull; JStr "x"]); ("b", JInt (-120))]).
Proof.
  rewrite (@json_roundtrip plain_platform); [vm_compute; reflexivity|].
  apply dict_value_JObj. split; [|repeat constructor].
  simpl. repeat constructor; set_solver.
Defined.

(** Witness of [canonical_json_faithful]: two orders of one object's keys. *)
Lemma canonical_json_faithful_witness :
  @canonical_json plain_platform (JObj [("b", JInt 1); ("a", JNull)])
  = @canonical_json plain_platform (JObj [("a", JNull); ("b", JInt 1)]).
Proof.
  apply (@canonical_json_faithful plain_platform).
  - apply dict_value_JObj. split; [|repeat constructor]. simpl. repeat constructor; set_solver.
  - apply dict_value_JObj. split; [|repeat constructor]. simpl. repeat constructor; set_solver.
  - vm_compute. reflexivity.
Defined.
