(* ===== verification/Events.v ===== *)
(** * Events: the versioned runtime event contracts (src/forge_replay/events.py)

    One constructor of [RuntimeEventPayload] per payload class, with the class's fields;
    [payload_valid] is the conjunction of the declared pydantic constraints;
    [model_dump] and [payload_of_json] are [payload.model_dump(mode="json")] and the
    validation of the discriminated union. Numbers in budgets are Python ints.
    Coercions pydantic adds for JSON texts the store never writes (a number given as a
    string, say) are not modelled: such a text is rejected. *)

From S2P Require Import Prelude Domain Platform Json.

Module EventType.
Inductive t :=
| SESSION_CREATED | USER_MESSAGE_RECEIVED | RUN_CREATED | RUN_PHASE_CHANGED
| WORKSPACE_PROVISIONING_STARTED | WORKSPACE_PROVISIONED | WORKSPACE_DISPOSITION_CHANGED
| MODEL_CALL_STARTED | MODEL_RESPONSE_RECEIVED | MODEL_CALL_FAILED | MODEL_OUTPUT_REJECTED
| TOOL_CALL_PROPOSED | APPROVAL_REQUESTED | APPROVAL_DECIDED
| TOOL_EXECUTION_DISPATCHED | TOOL_EXECUTION_SUCCEEDED | TOOL_EXECUTION_FAILED
| TOOL_EXECUTION_UNCERTAIN | CHECKPOINT_COMMITTED | BUDGET_RESERVED | BUDGET_SETTLED
| CANCELLATION_REQUESTED | RUN_COMPLETED | RUN_TERMINATED | FINAL_ANSWER_COMMITTED
| PROJECTION_REBUILT.
#[global] Instance eq_dec : EqDecision t.
Proof. solve_decision. Defined.
#[global] Instance enum : StringEnum t.
Proof.
  refine {|
    value x := match x with
      | SESSION_CREATED => "session_created"
      | USER_MESSAGE_RECEIVED => "user_message_received"
      | RUN_CREATED => "run_created"
      | RUN_PHASE_CHANGED => "run_phase_changed"
      | WORKSPACE_PROVISIONING_STARTED => "workspace_provisioning_started"
      | WORKSPACE_PROVISIONED => "workspace_provisioned"
      | WORKSPACE_DISPOSITION_CHANGED => "workspace_disposition_changed"
      | MODEL_CALL_STARTED => "model_call_started"
      | MODEL_RESPONSE_RECEIVED => "model_response_received"
      | MODEL_CALL_FAILED => "model_call_failed"
      | MODEL_OUTPUT_REJECTED => "model_output_rejected"
      | TOOL_CALL_PROPOSED => "tool_call_proposed"
      | APPROVAL_REQUESTED => "approval_requested"
      | APPROVAL_DECIDED => "approval_decided"
      | TOOL_EXECUTION_DISPATCHED => "tool_execution_dispatched"
      | TOOL_EXECUTION_SUCCEEDED => "tool_execution_succeeded"
      | TOOL_EXECUTION_FAILED => "tool_execution_failed"
      | TOOL_EXECUTION_UNCERTAIN => "tool_execution_uncertain"
      | CHECKPOINT_COMMITTED => "checkpoint_committed"
      | BUDGET_RESERVED => "budget_reserved"
      | BUDGET_SETTLED => "budget_settled"
      | CANCELLATION_REQUESTED => "cancellation_requested"
      | RUN_COMPLETED => "run_completed"
      | RUN_TERMINATED => "run_terminated"
      | FINAL_ANSWER_COMMITTED => "final_answer_committed"
      | PROJECTION_REBUILT => "projection_rebuilt" end%string;
    members := [SESSION_CREATED; USER_MESSAGE_RECEIVED; RUN_CREATED; RUN_PHASE_CHANGED;
      WORKSPACE_PROVISIONING_STARTED; WORKSPACE_PROVISIONED; WORKSPACE_DISPOSITION_CHANGED;
      MODEL_CALL_STARTED; MODEL_RESPONSE_RECEIVED; MODEL_CALL_FAILED; MODEL_OUTPUT_REJECTED;
      TOOL_CALL_PROPOSED; APPROVAL_REQUESTED; APPROVAL_DECIDED;
      TOOL_EXECUTION_DISPATCHED; TOOL_EXECUTION_SUCCEEDED; TOOL_EXECUTION_FAILED;
      TOOL_EXECUTION_UNCERTAIN; CHECKPOINT_COMMITTED; BUDGET_RESERVED; BUDGET_SETTLED;
      CANCELLATION_REQUESTED; RUN_COMPLETED; RUN_TERMINATED; FINAL_ANSWER_COMMITTED;
      PROJECTION_REBUILT] |}.
  - abstract (intros []; repeat (try (by left); right)).
  - abstract (intros [] [] ?; done).
Defined.
End EventType.

(** [Literal["refuse", "head-only"]]. *)
Module DirtyMode.
Inductive t := REFUSE | HEAD_ONLY.
#[global] Instance eq_dec : EqDecision t.
Proof. solve_decision. Defined.
#[global] Instance enum : StringEnum t.
Proof.
  refine {| value x := match x with REFUSE => "refuse" | HEAD_ONLY => "head-only" end%string;
            members := [REFUSE; HEAD_ONLY] |}.
  - intros []; set_solver.
  - abstract (intros [] [] ?; done).
Defined.
End DirtyMode.

(** [Literal["passed", "failed", "not_configured"]]. *)
Module VerificationStatus.
Inductive t := PASSED | FAILED | NOT_CONFIGURED.
#[global] Instance eq_dec : EqDecision t.
Proof. solve_decision. Defined.
#[global] Instance enum : StringEnum t.
Proof.
  refine {| value x := match x with PASSED => "passed" | FAILED => "failed"
                       | NOT_CONFIGURED => "not_configured" end%string;
            members := [PASSED; FAILED; NOT_CONFIGURED] |}.
  - intros []; set_solver.
  - abstract (intros [] [] ?; done).
Defined.
End VerificationStatus.

(** ** Payloads *)

Inductive RuntimeEventPayload :=
| SessionCreatedPayload (workspace_root config_sha256 : string)
| UserMessageReceivedPayload (message_blob_sha256 : string)
| RunCreatedPayload (base_repo_root base_commit_sha : string) (budget_limits : gmap string Z)
| RunPhaseChangedPayload (previous_phase : option RunPhase.t) (next_phase : RunPhase.t)
    (reason : string)
| WorkspaceProvisioningStartedPayload (base_repo_root base_commit_sha : string)
    (dirty_mode : DirtyMode.t)
| WorkspaceProvisionedPayload (worktree_path branch ownership_marker
    ownership_token_sha256 : string)
| WorkspaceDispositionChangedPayload (previous next : WorkspaceDisposition.t)
    (reason : string)
| ModelCallStartedPayload (model_call_id model_name : string) (attempt_no : Z)
    (step : option Z)
| ModelResponseReceivedPayload (model_call_id response_blob_sha256 : string)
    (input_tokens output_tokens : option Z)
| ModelCallFailedPayload (model_call_id error_class : string) (retryable : bool)
| ModelOutputRejectedPayload (response_event_id reason : string)
| ToolCallProposedPayload (tool_call_id tool_name tool_version args_sha256 : string)
    (effect_class : ToolEffectClass.t)
| ApprovalRequestedPayload (approval_id tool_call_id fingerprint policy : string)
| ApprovalDecidedPayload (approval_id tool_call_id fingerprint decision actor : string)
| ToolExecutionDispatchedPayload (tool_call_id attempt_id : string) (attempt_no : Z)
    (action_digest : string)
| ToolExecutionSucceededPayload (tool_call_id attempt_id receipt_sha256 : string)
    (output_blob_sha256 : option string) (output_truncated : bool)
| ToolExecutionFailedPayload (tool_call_id attempt_id error_class : string)
    (retryable : bool)
| ToolExecutionUncertainPayload (tool_call_id attempt_id evidence : string)
| CheckpointCommittedPayload (checkpoint_id : string) (through_seq : Z)
    (state_sha256 : string)
| BudgetReservedPayload (reservation_id category : string) (amount : Z)
| BudgetSettledPayload (reservation_id category : string) (reserved consumed : Z)
| CancellationRequestedPayload (actor reason : string)
| RunCompletedPayload (verification_status : VerificationStatus.t)
| RunTerminatedPayload (execution_status : ExecutionStatus.t) (reason : string)
| FinalAnswerCommittedPayload (answer_blob_sha256 : string)
| ProjectionRebuiltPayload (through_seq : Z) (previous_state_sha256
    rebuilt_state_sha256 : string).

#[global] Instance payload_eq_dec : EqDecision RuntimeEventPayload.
Proof. solve_decision. Defined.

Definition event_type_of (p : RuntimeEventPayload) : EventType.t :=
  match p with
  | SessionCreatedPayload _ _ => EventType.SESSION_CREATED
  | UserMessageReceivedPayload _ => EventType.USER_MESSAGE_RECEIVED
  | RunCreatedPayload _ _ _ => EventType.RUN_CREATED
  | RunPhaseChangedPayload _ _ _ => EventType.RUN_PHASE_CHANGED
  | WorkspaceProvisioningStartedPayload _ _ _ => EventType.WORKSPACE_PROVISIONING_STARTED
  | WorkspaceProvisionedPayload _ _ _ _ => EventType.WORKSPACE_PROVISIONED
  | WorkspaceDispositionChangedPayload _ _ _ => EventType.WORKSPACE_DISPOSITION_CHANGED
  | ModelCallStartedPayload _ _ _ _ => EventType.MODEL_CALL_STARTED
  | ModelResponseReceivedPayload _ _ _ _ => EventType.MODEL_RESPONSE_RECEIVED
  | ModelCallFailedPayload _ _ _ => EventType.MODEL_CALL_FAILED
  | ModelOutputRejectedPayload _ _ => EventType.MODEL_OUTPUT_REJECTED
  | ToolCallProposedPayload _ _ _ _ _ => EventType.TOOL_CALL_PROPOSED
  | ApprovalRequestedPayload _ _ _ _ => EventType.APPROVAL_REQUESTED
  | ApprovalDecidedPayload _ _ _ _ _ => EventType.APPROVAL_DECIDED
  | ToolExecutionDispatchedPayload _ _ _ _ => EventType.TOOL_EXECUTION_DISPATCHED
  | ToolExecutionSucceededPayload _ _ _ _ _ => EventType.TOOL_EXECUTION_SUCCEEDED
  | ToolExecutionFailedPayload _ _ _ _ => EventType.TOOL_EXECUTION_FAILED
  | ToolExecutionUncertainPayload _ _ _ => EventType.TOOL_EXECUTION_UNCERTAIN
  | CheckpointCommittedPayload _ _ _ => EventType.CHECKPOINT_COMMITTED
  | BudgetReservedPayload _ _ _ => EventType.BUDGET_RESERVED
  | BudgetSettledPayload _ _ _ _ => EventType.BUDGET_SETTLED
  | CancellationRequestedPayload _ _ => EventType.CANCELLATION_REQUESTED
  | RunCompletedPayload _ => EventType.RUN_COMPLETED
  | RunTerminatedPayload _ _ => EventType.RUN_TERMINATED
  | FinalAnswerCommittedPayload _ => EventType.FINAL_ANSWER_COMMITTED
  | ProjectionRebuiltPayload _ _ _ => EventType.PROJECTION_REBUILT
  end.

Definition opt_ge (lo : Z) (o : option Z) : bool :=
  match o with Some z => bool_decide (lo ≤ z)%Z | None => true end.

(** The [Field(ge=..., gt=...)] bounds and the [Literal] of [RunTerminatedPayload]. *)
Definition payload_valid (p : RuntimeEventPayload) : bool :=
  match p with
  | ModelCallStartedPayload _ _ attempt_no step => bool_decide (1 ≤ attempt_no)%Z && opt_ge 0 step
  | ModelResponseReceivedPayload _ _ input_tokens output_tokens =>
      opt_ge 0 input_tokens && opt_ge 0 output_tokens
  | ToolExecutionDispatchedPayload _ _ attempt_no _ => bool_decide (1 ≤ attempt_no)%Z
  | CheckpointCommittedPayload _ through_seq _ => bool_decide (1 ≤ through_seq)%Z
  | BudgetReservedPayload _ _ amount => bool_decide (0 < amount)%Z
  | BudgetSettledPayload _ _ reserved consumed =>
      bool_decide (0 < reserved)%Z && bool_decide (0 ≤ consumed)%Z
  | RunTerminatedPayload execution_status _ =>
      bool_decide (execution_status ∈
        [ExecutionStatus.FAILED; ExecutionStatus.CANCELLED; ExecutionStatus.BUDGET_EXCEEDED;
         ExecutionStatus.NEEDS_ATTENTION])
  | ProjectionRebuiltPayload through_seq _ _ => bool_decide (1 ≤ through_seq)%Z
  | _ => true
  end.

(** ** JSON form *)

Definition opt_json {A} (f : A → json) (o : option A) : json :=
  match o with Some a => f a | None => JNull end.

Definition budget_json (m : gmap string Z) : json :=
  JObj (map (λ kv, (kv.1, JInt kv.2)) (map_to_list m)).

Definition enum_json `{StringEnum A} (a : A) : json := JStr (value a).

Definition payload_fields (p : RuntimeEventPayload) : list (string * json) :=
  match p with
  | SessionCreatedPayload a b => [("workspace_root", JStr a); ("config_sha256", JStr b)]
  | UserMessageReceivedPayload a => [("message_blob_sha256", JStr a)]
  | RunCreatedPayload a b m =>
      [("base_repo_root", JStr a); ("base_commit_sha", JStr b); ("budget_limits", budget_json m)]
  | RunPhaseChangedPayload a b c =>
      [("previous_phase", opt_json enum_json a); ("next_phase", enum_json b); ("reason", JStr c)]
  | WorkspaceProvisioningStartedPayload a b c =>
      [("base_repo_root", JStr a); ("base_commit_sha", JStr b); ("dirty_mode", enum_json c)]
  | WorkspaceProvisionedPayload a b c d =>
      [("worktree_path", JStr a); ("branch", JStr b); ("ownership_marker", JStr c);
       ("ownership_token_sha256", JStr d)]
  | WorkspaceDispositionChangedPayload a b c =>
      [("previous", enum_json a); ("next", enum_json b); ("reason", JStr c)]
  | ModelCallStartedPayload a b c d =>
      [("model_call_id", JStr a); ("model_name", JStr b); ("attempt_no", JInt c);
       ("step", opt_json JInt d)]
  | ModelResponseReceivedPayload a b c d =>
      [("model_call_id", JStr a); ("response_blob_sha256", JStr b);
       ("input_tokens", opt_json JInt c); ("output_tokens", opt_json JInt d)]
  | ModelCallFailedPayload a b c =>
      [("model_call_id", JStr a); ("error_class", JStr b); ("retryable", JBool c)]
  | ModelOutputRejectedPayload a b => [("response_event_id", JStr a); ("reason", JStr b)]
  | ToolCallProposedPayload a b c d e =>
      [("tool_call_id", JStr a); ("tool_name", JStr b); ("tool_version", JStr c);
       ("args_sha256", JStr d); ("effect_class", enum_json e)]
  | ApprovalRequestedPayload a b c d =>
      [("approval_id", JStr a); ("tool_call_id", JStr b); ("fingerprint", JStr c);
       ("policy", JStr d)]
  | ApprovalDecidedPayload a b c d e =>
      [("approval_id", JStr a); ("tool_call_id", JStr b); ("fingerprint", JStr c);
       ("decision", JStr d); ("actor", JStr e)]
  | ToolExecutionDispatchedPayload a b c d =>
      [("tool_call_id", JStr a); ("attempt_id", JStr b); ("attempt_no", JInt c);
       ("action_digest", JStr d)]
  | ToolExecutionSucceededPayload a b c d e =>
      [("tool_call_id", JStr a); ("attempt_id", JStr b); ("receipt_sha256", JStr c);
       ("output_blob_sha256", opt_json JStr d); ("output_truncated", JBool e)]
  | ToolExecutionFailedPayload a b c d =>
      [("tool_call_id", JStr a); ("attempt_id", JStr b); ("error_class", JStr c);
       ("retryable", JBool d)]
  | ToolExecutionUncertainPayload a b c =>
      [("tool_call_id", JStr a); ("attempt_id", JStr b); ("evidence", JStr c)]
  | CheckpointCommittedPayload a b c =>
      [("checkpoint_id", JStr a); ("through_seq", JInt b); ("state_sha256", JStr c)]
  | BudgetReservedPayload a b c =>
      [("reservation_id", JStr a); ("category", JStr b); ("amount", JInt c)]
  | BudgetSettledPayload a b c d =>
      [("reservation_id", JStr a); ("category", JStr b); ("reserved", JInt c);
       ("consumed", JInt d)]
  | CancellationRequestedPayload a b => [("actor", JStr a); ("reason", JStr b)]
  | RunCompletedPayload a =>
      [("execution_status", enum_json ExecutionStatus.COMPLETED);
       ("verification_status", enum_json a)]
  | RunTerminatedPayload a b => [("execution_status", enum_json a); ("reason", JStr b)]
  | FinalAnswerCommittedPayload a => [("answer_blob_sha256", JStr a)]
  | ProjectionRebuiltPayload a b c =>
      [("through_seq", JInt a); ("previous_state_sha256", JStr b);
       ("rebuilt_state_sha256", JStr c)]
  end.

(** [payload.model_dump(mode="json")]. *)
Definition model_dump (p : RuntimeEventPayload) : json :=
  JObj (("event_type", enum_json (event_type_of p)) :: payload_fields p).

(** ** Validation *)

Definition as_str (j : json) : option string := match j with JStr s => Some s | _ => None end.
Definition as_int (j : json) : option Z := match j with JInt z => Some z | _ => None end.
Definition as_bool (j : json) : option bool := match j with JBool b => Some b | _ => None end.
Definition as_enum `{StringEnum A} (j : json) : option A := as_str j ≫= of_value.
Definition as_opt {A} (f : json → option A) (j : json) : option (option A) :=
  match j with JNull => Some None | _ => Some <$> f j end.
Definition as_budget (j : json) : option (gmap string Z) :=
  match j with
  | JObj l => list_to_map <$> mapM (λ kv, z ← as_int kv.2; Some (kv.1, z)) l
  | _ => None
  end.

(** A required field, and a field with a default. *)
Definition field {A} (f : json → option A) (k : string) (d : list (string * json)) : option A :=
  dict_get k d ≫= f.
Definition field_default {A} (dflt : A) (f : json → option A) (k : string)
    (d : list (string * json)) : option A :=
  match dict_get k d with Some j => f j | None => Some dflt end.

(** [extra="forbid"]. *)
Definition only_keys (ks : list string) (d : list (string * json)) : bool :=
  forallb (λ kv, existsb (String.eqb kv.1) ks) d.

Definition guard_opt (b : bool) : option unit := if b then Some tt else None.

(** The union member the discriminator selects, read from the remaining fields. *)
Definition payload_of_fields (t : EventType.t) (d : list (string * json))
    : option RuntimeEventPayload :=
  let keys ks := guard_opt (only_keys ("event_type" :: ks) d) in
  match t with
  | EventType.SESSION_CREATED =>
      keys ["workspace_root"; "config_sha256"];;
      a ← field as_str "workspace_root" d; b ← field as_str "config_sha256" d;
      Some (SessionCreatedPayload a b)
  | EventType.USER_MESSAGE_RECEIVED =>
      keys ["message_blob_sha256"];;
      a ← field as_str "message_blob_sha256" d; Some (UserMessageReceivedPayload a)
  | EventType.RUN_CREATED =>
      keys ["base_repo_root"; "base_commit_sha"; "budget_limits"];;
      a ← field as_str "base_repo_root" d; b ← field as_str "base_commit_sha" d;
      m ← field as_budget "budget_limits" d; Some (RunCreatedPayload a b m)
  | EventType.RUN_PHASE_CHANGED =>
      keys ["previous_phase"; "next_phase"; "reason"];;
      a ← field (as_opt as_enum) "previous_phase" d; b ← field as_enum "next_phase" d;
      c ← field as_str "reason" d; Some (RunPhaseChangedPayload a b c)
  | EventType.WORKSPACE_PROVISIONING_STARTED =>
      keys ["base_repo_root"; "base_commit_sha"; "dirty_mode"];;
      a ← field as_str "base_repo_root" d; b ← field as_str "base_commit_sha" d;
      c ← field as_enum "dirty_mode" d; Some (WorkspaceProvisioningStartedPayload a b c)
  | EventType.WORKSPACE_PROVISIONED =>
      keys ["worktree_path"; "branch"; "ownership_marker"; "ownership_token_sha256"];;
      a ← field as_str "worktree_path" d; b ← field as_str "branch" d;
      c ← field as_str "ownership_marker" d; e ← field as_str "ownership_token_sha256" d;
      Some (WorkspaceProvisionedPayload a b c e)
  | EventType.WORKSPACE_DISPOSITION_CHANGED =>
      keys ["previous"; "next"; "reason"];;
      a ← field as_enum "previous" d; b ← field as_enum "next" d;
      c ← field as_str "reason" d; Some (WorkspaceDispositionChangedPayload a b c)
  | EventType.MODEL_CALL_STARTED =>
      keys ["model_call_id"; "model_name"; "attempt_no"; "step"];;
      a ← field as_str "model_call_id" d; b ← field as_str "model_name" d;
      c ← field as_int "attempt_no" d; e ← field_default None (as_opt as_int) "step" d;
      Some (ModelCallStartedPayload a b c e)
  | EventType.MODEL_RESPONSE_RECEIVED =>
      keys ["model_call_id"; "response_blob_sha256"; "input_tokens"; "output_tokens"];;
      a ← field as_str "model_call_id" d; b ← field as_str "response_blob_sha256" d;
      c ← field_default None (as_opt as_int) "input_tokens" d;
      e ← field_default None (as_opt as_int) "output_tokens" d;
      Some (ModelResponseReceivedPayload a b c e)
  | EventType.MODEL_CALL_FAILED =>
      keys ["model_call_id"; "error_class"; "retryable"];;
      a ← field as_str "model_call_id" d; b ← field as_str "error_class" d;
      c ← field as_bool "retryable" d; Some (ModelCallFailedPayload a b c)
  | EventType.MODEL_OUTPUT_REJECTED =>
      keys ["response_event_id"; "reason"];;
      a ← field as_str "response_event_id" d; b ← field as_str "reason" d;
      Some (ModelOutputRejectedPayload a b)
  | EventType.TOOL_CALL_PROPOSED =>
      keys ["tool_call_id"; "tool_name"; "tool_version"; "args_sha256"; "effect_class"];;
      a ← field as_str "tool_call_id" d; b ← field as_str "tool_name" d;
      c ← field as_str "tool_version" d; e ← field as_str "args_sha256" d;
      f ← field as_enum "effect_class" d; Some (ToolCallProposedPayload a b c e f)
  | EventType.APPROVAL_REQUESTED =>
      keys ["approval_id"; "tool_call_id"; "fingerprint"; "policy"];;
      a ← field as_str "approval_id" d; b ← field as_str "tool_call_id" d;
      c ← field as_str "fingerprint" d; e ← field as_str "policy" d;
      Some (ApprovalRequestedPayload a b c e)
  | EventType.APPROVAL_DECIDED =>
      keys ["approval_id"; "tool_call_id"; "fingerprint"; "decision"; "actor"];;
      a ← field as_str "approval_id" d; b ← field as_str "tool_call_id" d;
      c ← field as_str "fingerprint" d; e ← field as_str "decision" d;
      f ← field as_str "actor" d; Some (ApprovalDecidedPayload a b c e f)
  | EventType.TOOL_EXECUTION_DISPATCHED =>
      keys ["tool_call_id"; "attempt_id"; "attempt_no"; "action_digest"];;
      a ← field as_str "tool_call_id" d; b ← field as_str "attempt_id" d;
      c ← field as_int "attempt_no" d; e ← field as_str "action_digest" d;
      Some (ToolExecutionDispatchedPayload a b c e)
  | EventType.TOOL_EXECUTION_SUCCEEDED =>
      keys ["tool_call_id"; "attempt_id"; "receipt_sha256"; "output_blob_sha256";
            "output_truncated"];;
      a ← field as_str "tool_call_id" d; b ← field as_str "attempt_id" d;
      c ← field as_str "receipt_sha256" d;
      e ← field_default None (as_opt as_str) "output_blob_sha256" d;
      f ← field_default false as_bool "output_truncated" d;
      Some (ToolExecutionSucceededPayload a b c e f)
  | EventType.TOOL_EXECUTION_FAILED =>
      keys ["tool_call_id"; "attempt_id"; "error_class"; "retryable"];;
      a ← field as_str "tool_call_id" d; b ← field as_str "attempt_id" d;
      c ← field as_str "error_class" d; e ← field as_bool "retryable" d;
      Some (ToolExecutionFailedPayload a b c e)
  | EventType.TOOL_EXECUTION_UNCERTAIN =>
      keys ["tool_call_id"; "attempt_id"; "evidence"];;
      a ← field as_str "tool_call_id" d; b ← field as_str "attempt_id" d;
      c ← field as_str "evidence" d; Some (ToolExecutionUncertainPayload a b c)
  | EventType.CHECKPOINT_COMMITTED =>
      keys ["checkpoint_id"; "through_seq"; "state_sha256"];;
      a ← field as_str "checkpoint_id" d; b ← field as_int "through_seq" d;
      c ← field as_str "state_sha256" d; Some (CheckpointCommittedPayload a b c)
  | EventType.BUDGET_RESERVED =>
      keys ["reservation_id"; "category"; "amount"];;
      a ← field as_str "reservation_id" d; b ← field as_str "category" d;
      c ← field as_int "amount" d; Some (BudgetReservedPayload a b c)
  | EventType.BUDGET_SETTLED =>
      keys ["reservation_id"; "category"; "reserved"; "consumed"];;
      a ← field as_str "reservation_id" d; b ← field as_str "category" d;
      c ← field as_int "reserved" d; e ← field as_int "consumed" d;
      Some (BudgetSettledPayload a b c e)
  | EventType.CANCELLATION_REQUESTED =>
      keys ["actor"; "reason"];;
      a ← field as_str "actor" d; b ← field as_str "reason" d;
      Some (CancellationRequestedPayload a b)
  | EventType.RUN_COMPLETED =>
      keys ["execution_status"; "verification_status"];;
      s ← field_default ExecutionStatus.COMPLETED as_enum "execution_status" d;
      guard_opt (bool_decide (s = ExecutionStatus.COMPLETED));;
      a ← field as_enum "verification_status" d; Some (RunCompletedPayload a)
  | EventType.RUN_TERMINATED =>
      keys ["execution_status"; "reason"];;
      a ← field as_enum "execution_status" d; b ← field as_str "reason" d;
      Some (RunTerminatedPayload a b)
  | EventType.FINAL_ANSWER_COMMITTED =>
      keys ["answer_blob_sha256"];;
      a ← field as_str "answer_blob_sha256" d; Some (FinalAnswerCommittedPayload a)
  | EventType.PROJECTION_REBUILT =>
      keys ["through_seq"; "previous_state_sha256"; "rebuilt_state_sha256"];;
      a ← field as_int "through_seq" d; b ← field as_str "previous_state_sha256" d;
      c ← field as_str "rebuilt_state_sha256" d; Some (ProjectionRebuiltPayload a b c)
  end.

(** The validation of the discriminated union; [None] is a ValidationError. *)
Definition payload_of_json (j : json) : option RuntimeEventPayload :=
  match j with
  | JObj d =>
      t ← field as_enum "event_type" d;
      p ← payload_of_fields t d;
      guard_opt (payload_valid p);;
      Some p
  | _ => None
  end.

(** ** Envelopes *)

Record EventEnvelope := {
  event_id : string;
  schema_version : Z;
  session_id : string;
  turn_id : option string;
  run_id : option string;
  seq : Z;
  occurred_at : Z;
  process_instance_id : string;
  boot_id : option string;
  causation_event_id : option string;
  correlation_id : option string;
  payload : RuntimeEventPayload;
}.

#[global] Instance EventEnvelope_eq_dec : EqDecision EventEnvelope.
Proof. solve_decision. Defined.

Definition event_type (e : EventEnvelope) : EventType.t := event_type_of e.(payload).

(** The envelope's field constraints, with those of its payload. *)
Definition envelope_valid (e : EventEnvelope) : bool :=
  bool_decide (1 ≤ e.(schema_version))%Z && negb (String.eqb e.(session_id) "")
  && bool_decide (1 ≤ e.(seq))%Z && negb (String.eqb e.(process_instance_id) "")
  && payload_valid e.(payload).

(** [new_event]: the identifier and the time stamp come from the oracle's [k]-th event. *)
Definition new_event (o : oracle) (k : nat) (session_id : string) (seq : Z)
    (process_instance_id : string) (payload : RuntimeEventPayload)
    (turn_id run_id causation_event_id correlation_id : option string) : res EventEnvelope :=
  let e := {| event_id := o.(ev_uuid) k; schema_version := 1; session_id := session_id;
              turn_id := turn_id; run_id := run_id; seq := seq; occurred_at := o.(ev_time) k;
              process_instance_id := process_instance_id; boot_id := None;
              causation_event_id := causation_event_id; correlation_id := correlation_id;
              payload := payload |} in
  if envelope_valid e then Ok e else Err PydanticValidationError.

(** ** The JSON round trip of payloads *)

Lemma only_keys_perm ks d d' : d ≡ₚ d' → only_keys ks d = only_keys ks d'.
Proof.
  unfold only_keys. intros Hp. apply eq_bool_prop_intro.
  rewrite !forallb_True. by rewrite Hp.
Qed.

Lemma payload_of_fields_perm t d d' :
  d ≡ₚ d' → NoDup d.*1 → payload_of_fields t d = payload_of_fields t d'.
Proof.
  intros Hp Hnd.
  assert (∀ ks, only_keys ks d = only_keys ks d') as Hk by (intros; by apply only_keys_perm).
  assert (∀ A (f : json → option A) k, field f k d = field f k d') as Hf.
  { intros. unfold field. by rewrite (dict_get_perm _ _ _ Hp Hnd). }
  assert (∀ A x (f : json → option A) k, field_default x f k d = field_default x f k d') as Hd.
  { intros. unfold field_default. by rewrite (dict_get_perm _ _ _ Hp Hnd). }
  destruct t; cbn [payload_of_fields]; rewrite ?Hk, ?Hf, ?Hd; reflexivity.
Qed.

Lemma payload_keys_NoDup p : NoDup (("event_type", enum_json (event_type_of p)) :: payload_fields p).*1.
Proof. destruct p; cbn; apply (bool_decide_unpack _); vm_compute; exact I. Qed.

Lemma as_budget_normalize m : as_budget (normalize_json (budget_json m)) = Some m.
Proof.
  unfold budget_json. cbn [normalize_json as_budget].
  rewrite map_map. cbn [normalize_json fst snd].
  set (l := map (λ kv, (kv.1, JInt kv.2)) (map_to_list m)).
  assert (∀ l : list (string * Z),
    mapM (λ kv : string * json, z ← as_int kv.2; Some (kv.1, z))
         (map (λ kv, (kv.1, JInt kv.2)) l) = Some l) as Hm.
  { clear l. induction l as [|[k z] l IH]; [done|].
    cbn [map mapM fst snd]. cbn. cbn in IH. rewrite IH. done. }
  unfold l. rewrite (sort_keys_map JInt), Hm. cbn. f_equal.
  rewrite <- (list_to_map_to_list m) at 2.
  apply list_to_map_proper.
  - rewrite sort_keys_perm. apply NoDup_fst_map_to_list.
  - apply sort_keys_perm.
Qed.

Lemma payload_of_fields_dump p :
  payload_of_fields (event_type_of p)
    (map (λ kv, (kv.1, normalize_json kv.2))
       (("event_type", enum_json (event_type_of p)) :: payload_fields p)) = Some p.
Proof.
  destruct p; cbn -[normalize_json as_budget budget_json of_value value as_enum as_opt enum_json];
    try reflexivity.
  all: try (rewrite as_budget_normalize; reflexivity).
  all: repeat match goal with o : option _ |- _ => destruct o end.
  all: cbn -[of_value value]; rewrite ?of_value_value; reflexivity.
Qed.

Lemma payload_of_json_dump p :
  payload_valid p = true → payload_of_json (normalize_json (model_dump p)) = Some p.
Proof.
  intros Hv. unfold model_dump. cbn [normalize_json payload_of_json].
  set (d := map (λ kv, (kv.1, normalize_json kv.2)) _).
  assert (NoDup d.*1) as Hnd.
  { unfold d. rewrite <- list_fmap_compose. apply payload_keys_NoDup. }
  pose proof (sort_keys_perm d) as Hp.
  assert (field as_enum "event_type" (sort_keys d) = Some (event_type_of p)) as ->.
  { unfold field. rewrite (dict_get_perm _ _ _ Hp) by (by rewrite Hp).
    cbn -[of_value value]. apply of_value_value. }
  cbn [mbind option_bind].
  rewrite (payload_of_fields_perm _ _ _ Hp) by (by rewrite Hp).
  unfold d. rewrite payload_of_fields_dump. cbn. by rewrite Hv.
Qed.

Lemma budget_json_dict_value m : dict_value (budget_json m).
Proof.
  unfold budget_json. apply dict_value_JObj. split.
  - rewrite <- list_fmap_compose. apply NoDup_fst_map_to_list.
  - apply Forall_map, Forall_true. done.
Qed.

Lemma opt_json_dict_value {A} (f : A → json) o :
  (∀ a, dict_value (f a)) → dict_value (opt_json f o).
Proof. intros Hf. destruct o; [apply Hf|exact I]. Qed.

Lemma model_dump_dict_value p : dict_value (model_dump p).
Proof.
  apply dict_value_JObj. split; [apply payload_keys_NoDup|].
  destruct p; cbn [payload_fields]; rewrite !Forall_cons; split_and!;
    first [ done | apply budget_json_dict_value | by apply opt_json_dict_value
          | by apply Forall_nil ].
Qed.

(** [payload_text p] is the text the ledger stores for a payload. *)
Definition payload_text `{Platform} (p : RuntimeEventPayload) : string :=
  canonical_json (model_dump p).

(** Parsing a stored payload text: [json.loads] then validation. *)
Definition parse_payload `{Platform} (text : string) : option RuntimeEventPayload :=
  json_loads text ≫= payload_of_json.


