(* ===== verification/Projection.v ===== *)
(** * Projection: the pure run reducer (src/forge_replay/runtime/projection.py) and the
    checkpoint snapshot (runtime/checkpoint.py).

    [reduce_run_events] is the fold the source writes as a loop: the accumulator is the
    projection built so far and the last sequence number seen. The central fact is that
    reducing a stream is reducing a prefix and then the rest from the prefix's
    projection, which is what makes checkpoints sound. *)

From S2P Require Import Prelude Domain Platform Json Events.

Record RunProjection := {
  p_run_id : string;
  p_session_id : string;
  p_turn_id : string;
  p_execution_status : ExecutionStatus.t;
  p_phase : option RunPhase.t;
  p_workspace_disposition : WorkspaceDisposition.t;
  p_base_repo_root : string;
  p_base_commit_sha : string;
  p_budget_limits : gmap string Z;
  p_last_event_seq : Z;
}.

#[global] Instance RunProjection_eq_dec : EqDecision RunProjection.
Proof. solve_decision. Defined.

(** [replace(projection, ...)] on the fields the reducer changes. *)
Definition with_status (s : ExecutionStatus.t) (p : RunProjection) : RunProjection :=
  {| p_run_id := p.(p_run_id); p_session_id := p.(p_session_id); p_turn_id := p.(p_turn_id);
     p_execution_status := s; p_phase := p.(p_phase);
     p_workspace_disposition := p.(p_workspace_disposition);
     p_base_repo_root := p.(p_base_repo_root); p_base_commit_sha := p.(p_base_commit_sha);
     p_budget_limits := p.(p_budget_limits); p_last_event_seq := p.(p_last_event_seq) |}.

Definition with_phase (ph : option RunPhase.t) (p : RunProjection) : RunProjection :=
  {| p_run_id := p.(p_run_id); p_session_id := p.(p_session_id); p_turn_id := p.(p_turn_id);
     p_execution_status := p.(p_execution_status); p_phase := ph;
     p_workspace_disposition := p.(p_workspace_disposition);
     p_base_repo_root := p.(p_base_repo_root); p_base_commit_sha := p.(p_base_commit_sha);
     p_budget_limits := p.(p_budget_limits); p_last_event_seq := p.(p_last_event_seq) |}.

Definition with_disposition (d : WorkspaceDisposition.t) (p : RunProjection) : RunProjection :=
  {| p_run_id := p.(p_run_id); p_session_id := p.(p_session_id); p_turn_id := p.(p_turn_id);
     p_execution_status := p.(p_execution_status); p_phase := p.(p_phase);
     p_workspace_disposition := d;
     p_base_repo_root := p.(p_base_repo_root); p_base_commit_sha := p.(p_base_commit_sha);
     p_budget_limits := p.(p_budget_limits); p_last_event_seq := p.(p_last_event_seq) |}.

Definition with_seq (n : Z) (p : RunProjection) : RunProjection :=
  {| p_run_id := p.(p_run_id); p_session_id := p.(p_session_id); p_turn_id := p.(p_turn_id);
     p_execution_status := p.(p_execution_status); p_phase := p.(p_phase);
     p_workspace_disposition := p.(p_workspace_disposition);
     p_base_repo_root := p.(p_base_repo_root); p_base_commit_sha := p.(p_base_commit_sha);
     p_budget_limits := p.(p_budget_limits); p_last_event_seq := n |}.

(** [RunProjection.business_state]. *)
Definition business_state (status : ExecutionStatus.t) (phase : option RunPhase.t)
    (disposition : WorkspaceDisposition.t) : json :=
  JObj [("execution_status", enum_json status);
        ("phase", opt_json enum_json phase);
        ("workspace_disposition", enum_json disposition)].

(** The projection a [RunCreatedPayload] event starts. *)
Definition created_projection (rid tid : string) (root sha : string) (limits : gmap string Z)
    (e : EventEnvelope) : RunProjection :=
  {| p_run_id := rid; p_session_id := e.(session_id); p_turn_id := tid;
     p_execution_status := ExecutionStatus.ACTIVE; p_phase := None;
     p_workspace_disposition := WorkspaceDisposition.NONE;
     p_base_repo_root := root; p_base_commit_sha := sha;
     p_budget_limits := limits; p_last_event_seq := e.(seq) |}.

(** The branches of the loop body for an event after [RunCreated]. *)
Definition apply_payload (p : RunProjection) (e : EventEnvelope) : res RunProjection :=
  match e.(payload) with
  | RunPhaseChangedPayload previous_phase next_phase _ =>
      if decide (p.(p_phase) = previous_phase)
      then Ok (with_seq e.(seq) (with_phase (Some next_phase) p))
      else Err ProjectionError
  | RunCompletedPayload _ =>
      Ok (with_seq e.(seq) (with_phase None (with_status ExecutionStatus.COMPLETED p)))
  | RunTerminatedPayload execution_status _ =>
      Ok (with_seq e.(seq) (with_phase None (with_status execution_status p)))
  | WorkspaceProvisionedPayload _ _ _ _ =>
      Ok (with_seq e.(seq) (with_disposition WorkspaceDisposition.ACTIVE p))
  | WorkspaceDispositionChangedPayload previous next _ =>
      if decide (p.(p_workspace_disposition) = previous)
      then Ok (with_seq e.(seq) (with_disposition next p))
      else Err ProjectionError
  | _ => Ok (with_seq e.(seq) p)
  end.

(** One iteration: the projection built so far and [previous_seq]. *)
Definition reduce_step (acc : option RunProjection * Z) (e : EventEnvelope)
    : res (option RunProjection * Z) :=
  let '(projection, previous_seq) := acc in
  match e.(run_id) with
  | None => Ok acc
  | Some rid =>
      if decide (e.(seq) ≤ previous_seq)%Z then Err ProjectionError
      else
        match e.(payload), projection with
        | RunCreatedPayload root sha limits, Some _ => Err ProjectionError
        | RunCreatedPayload root sha limits, None =>
            match e.(turn_id) with
            | None => Err ProjectionError
            | Some tid => Ok (Some (created_projection rid tid root sha limits e), e.(seq))
            end
        | _, None => Err ProjectionError
        | _, Some p =>
            if decide (rid = p.(p_run_id)) then
              p' ← apply_payload p e; Ok (Some p', e.(seq))
            else Err ProjectionError
        end
  end.

Fixpoint reduce_loop (acc : option RunProjection * Z) (events : list EventEnvelope)
    : res (option RunProjection * Z) :=
  match events with
  | [] => Ok acc
  | e :: events' => acc' ← reduce_step acc e; reduce_loop acc' events'
  end.

Definition initial_acc (initial : option RunProjection) : option RunProjection * Z :=
  (initial, match initial with Some p => p.(p_last_event_seq) | None => 0%Z end).

Definition reduce_run_events (events : list EventEnvelope) (initial : option RunProjection)
    : res RunProjection :=
  '(projection, _) ← reduce_loop (initial_acc initial) events;
  result_of_option ProjectionError projection.

(** ** Checkpoint snapshots *)

Definition CHECKPOINT_STATE_VERSION : Z := 1.

Record RunCheckpointSnapshot := {
  s_state_version : Z;
  s_run_id : string;
  s_session_id : string;
  s_turn_id : string;
  s_execution_status : ExecutionStatus.t;
  s_phase : option RunPhase.t;
  s_workspace_disposition : WorkspaceDisposition.t;
  s_base_repo_root : string;
  s_base_commit_sha : string;
  s_budget_limits : gmap string Z;
  s_through_seq : Z;
}.

Definition from_projection (p : RunProjection) : RunCheckpointSnapshot :=
  {| s_state_version := CHECKPOINT_STATE_VERSION;
     s_run_id := p.(p_run_id); s_session_id := p.(p_session_id); s_turn_id := p.(p_turn_id);
     s_execution_status := p.(p_execution_status); s_phase := p.(p_phase);
     s_workspace_disposition := p.(p_workspace_disposition);
     s_base_repo_root := p.(p_base_repo_root); s_base_commit_sha := p.(p_base_commit_sha);
     s_budget_limits := p.(p_budget_limits); s_through_seq := p.(p_last_event_seq) |}.

Definition to_projection (s : RunCheckpointSnapshot) : RunProjection :=
  {| p_run_id := s.(s_run_id); p_session_id := s.(s_session_id); p_turn_id := s.(s_turn_id);
     p_execution_status := s.(s_execution_status); p_phase := s.(s_phase);
     p_workspace_disposition := s.(s_workspace_disposition);
     p_base_repo_root := s.(s_base_repo_root); p_base_commit_sha := s.(s_base_commit_sha);
     p_budget_limits := s.(s_budget_limits); p_last_event_seq := s.(s_through_seq) |}.

(** [snapshot.model_dump(mode="json")]. *)
Definition snapshot_dump (s : RunCheckpointSnapshot) : json :=
  JObj [("state_version", JInt s.(s_state_version));
        ("run_id", JStr s.(s_run_id)); ("session_id", JStr s.(s_session_id));
        ("turn_id", JStr s.(s_turn_id));
        ("execution_status", enum_json s.(s_execution_status));
        ("phase", opt_json enum_json s.(s_phase));
        ("workspace_disposition", enum_json s.(s_workspace_disposition));
        ("base_repo_root", JStr s.(s_base_repo_root));
        ("base_commit_sha", JStr s.(s_base_commit_sha));
        ("budget_limits", budget_json s.(s_budget_limits));
        ("through_seq", JInt s.(s_through_seq))].

Definition snapshot_keys : list string :=
  ["state_version"; "run_id"; "session_id"; "turn_id"; "execution_status"; "phase";
   "workspace_disposition"; "base_repo_root"; "base_commit_sha"; "budget_limits";
   "through_seq"].

Definition snapshot_of_fields (d : list (string * json)) : option RunCheckpointSnapshot :=
  guard_opt (only_keys snapshot_keys d);;
  v ← field_default CHECKPOINT_STATE_VERSION as_int "state_version" d;
  rid ← field as_str "run_id" d; sid ← field as_str "session_id" d;
  tid ← field as_str "turn_id" d; st ← field as_enum "execution_status" d;
  ph ← field (as_opt as_enum) "phase" d; wd ← field as_enum "workspace_disposition" d;
  root ← field as_str "base_repo_root" d; sha ← field as_str "base_commit_sha" d;
  lim ← field as_budget "budget_limits" d; n ← field as_int "through_seq" d;
  Some {| s_state_version := v; s_run_id := rid; s_session_id := sid; s_turn_id := tid;
          s_execution_status := st; s_phase := ph; s_workspace_disposition := wd;
          s_base_repo_root := root; s_base_commit_sha := sha; s_budget_limits := lim;
          s_through_seq := n |}.

Section snapshot_text.
Context `{Platform}.

(** [canonical_json(snapshot.model_dump(mode="json"))]. *)
Definition snapshot_text (s : RunCheckpointSnapshot) : string :=
  canonical_json (snapshot_dump s).

(** [RunCheckpointSnapshot.model_validate_json]. *)
Definition parse_snapshot (text : string) : option RunCheckpointSnapshot :=
  match json_loads text with Some (JObj d) => snapshot_of_fields d | _ => None end.

Lemma snapshot_roundtrip s : parse_snapshot (snapshot_text s) = Some s.
Proof.
  unfold parse_snapshot, snapshot_text.
  assert (dict_value (snapshot_dump s)) as Hd.
  { apply dict_value_JObj. split.
    - cbn. apply (bool_decide_unpack _). vm_compute. exact I.
    - cbn. rewrite !Forall_cons; split_and!;
        first [ done | apply budget_json_dict_value | by apply opt_json_dict_value
              | by apply Forall_nil ]. }
  rewrite loads_canonical by done. unfold snapshot_dump in *. cbn [normalize_json].
  set (d := map (λ kv, (kv.1, normalize_json kv.2)) _).
  assert (NoDup d.*1) as Hnd.
  { unfold d. rewrite <- list_fmap_compose. by apply dict_value_JObj in Hd as [? _]. }
  pose proof (sort_keys_perm d) as Hp.
  assert (snapshot_of_fields (sort_keys d) = snapshot_of_fields d) as ->.
  { unfold snapshot_of_fields. rewrite (only_keys_perm _ _ _ Hp).
    assert (∀ A (f : json → option A) k, field f k (sort_keys d) = field f k d) as Hf.
    { intros. unfold field. by rewrite (dict_get_perm _ _ _ Hp) by (by rewrite Hp). }
    unfold field_default. rewrite (dict_get_perm _ _ _ Hp) by (by rewrite Hp).
    by rewrite !Hf. }
  unfold d. destruct s as [v ? ? ? st ph wd ? ? lim n].
  unfold snapshot_of_fields, field, field_default.
  cbn -[normalize_json as_budget budget_json of_value value as_enum as_opt enum_json].
  rewrite as_budget_normalize.
  destruct ph; cbn -[of_value value]; rewrite !of_value_value; reflexivity.
Qed.
End snapshot_text.

Lemma to_from_projection p : to_projection (from_projection p) = p.
Proof. by destruct p. Qed.

(** ** The reducer as a fold *)

Lemma reduce_loop_app acc a b :
  reduce_loop acc (a ++ b) = (acc' ← reduce_loop acc a; reduce_loop acc' b).
Proof.
  revert acc. induction a as [|e a IH]; intros acc; [done|].
  cbn [reduce_loop app]. destruct (reduce_step acc e) as [acc'|]; [apply IH|done].
Qed.

Lemma apply_payload_seq p e p' :
  apply_payload p e = Ok p' → p'.(p_last_event_seq) = e.(seq).
Proof. unfold apply_payload. intros. repeat case_match; by simplify_eq/=. Qed.

(** The accumulator is always the projection with its own last sequence number. *)
Lemma reduce_step_acc i e acc :
  reduce_step (initial_acc i) e = Ok acc → acc = initial_acc acc.1.
Proof.
  unfold reduce_step, initial_acc.
  destruct (run_id e); [|by intros; simplify_eq/=].
  case_decide; [done|].
  destruct i as [p|].
  - intros Hs.
    assert ((if decide (s = p_run_id p)
             then p' ← apply_payload p e; Ok (Some p', seq e) else Err ProjectionError) = Ok acc)
      as Hs' by (destruct (payload e); done).
    case_decide; [|done]. apply result_bind_Ok in Hs' as (p' & Hp & Hs').
    simplify_eq/=. by rewrite (apply_payload_seq _ _ _ Hp).
  - intros. repeat case_match; by simplify_eq/=.
Qed.

Lemma reduce_loop_acc i es acc :
  reduce_loop (initial_acc i) es = Ok acc → acc = initial_acc acc.1.
Proof.
  revert i. induction es as [|e es IH]; intros i; cbn [reduce_loop].
  - by intros; simplify_eq/=.
  - intros (acc' & He & Hes)%result_bind_Ok.
    pose proof (reduce_step_acc _ _ _ He) as Ha. rewrite Ha in Hes. eauto.
Qed.

Lemma reduce_run_events_Ok es i p :
  reduce_run_events es i = Ok p ↔ reduce_loop (initial_acc i) es = Ok (initial_acc (Some p)).
Proof.
  unfold reduce_run_events. split.
  - intros ([q n] & Hl & Hq)%result_bind_Ok.
    apply result_of_option_Ok in Hq as ->. rewrite Hl.
    by rewrite (reduce_loop_acc _ _ _ Hl).
  - intros Hl. by rewrite Hl.
Qed.

(** Reducing a stream is reducing a prefix and then the rest from its projection. *)
Lemma reduce_app a b i p :
  reduce_run_events a i = Ok p → reduce_run_events (a ++ b) i = reduce_run_events b (Some p).
Proof.
  intros Ha%reduce_run_events_Ok. unfold reduce_run_events.
  rewrite reduce_loop_app, Ha. done.
Qed.

Lemma reduce_nil p : reduce_run_events [] (Some p) = Ok p.
Proof. done. Qed.

(** One more event of the run, other than a second [RunCreated]. *)
Definition is_run_created (p : RuntimeEventPayload) : bool :=
  match p with RunCreatedPayload _ _ _ => true | _ => false end.

Lemma reduce_one p e :
  e.(run_id) = Some p.(p_run_id) → (p.(p_last_event_seq) < e.(seq))%Z →
  is_run_created e.(payload) = false →
  reduce_run_events [e] (Some p) = apply_payload p e.
Proof.
  intros Hr Hs Hc. unfold reduce_run_events, initial_acc. cbn [reduce_loop].
  unfold reduce_step. rewrite Hr. rewrite decide_False by lia.
  assert (∀ (A : Type) (x y : A),
    match payload e with RunCreatedPayload _ _ _ => x | _ => y end = y) as Hm
    by (intros; by destruct (payload e)).
  transitivity ('(q, _) ← (acc' ← (p' ← apply_payload p e; Ok (Some p', seq e));
                           Ok acc' : res (option RunProjection * Z));
                result_of_option ProjectionError q).
  - destruct (payload e); try done; by rewrite decide_True.
  - by destruct (apply_payload p e).
Qed.

Lemma reduce_snoc es i p e :
  reduce_run_events es i = Ok p →
  e.(run_id) = Some p.(p_run_id) → (p.(p_last_event_seq) < e.(seq))%Z →
  is_run_created e.(payload) = false →
  reduce_run_events (es ++ [e]) i = apply_payload p e.
Proof. intros Hp ???. rewrite (reduce_app _ _ _ _ Hp). by apply reduce_one. Qed.

(** ** What a reduction preserves *)

(** The identity of a projection: everything that only [RunCreated] sets. *)
Definition same_identity (p q : RunProjection) : Prop :=
  p.(p_run_id) = q.(p_run_id) ∧ p.(p_session_id) = q.(p_session_id)
  ∧ p.(p_turn_id) = q.(p_turn_id) ∧ p.(p_base_repo_root) = q.(p_base_repo_root)
  ∧ p.(p_base_commit_sha) = q.(p_base_commit_sha)
  ∧ p.(p_budget_limits) = q.(p_budget_limits).

#[global] Instance same_identity_equiv : Equivalence same_identity.
Proof. unfold same_identity. split; red; naive_solver congruence. Qed.

Lemma apply_payload_identity p e p' : apply_payload p e = Ok p' → same_identity p p'.
Proof. unfold apply_payload. intros. by repeat case_match; simplify_eq/=. Qed.

Lemma reduce_step_Some p e acc :
  reduce_step (initial_acc (Some p)) e = Ok acc →
  ∃ q, acc = initial_acc (Some q) ∧ same_identity p q
       ∧ (p.(p_last_event_seq) ≤ q.(p_last_event_seq))%Z.
Proof.
  intros Hs. pose proof (reduce_step_acc _ _ _ Hs) as Ha.
  unfold reduce_step, initial_acc in Hs.
  destruct (run_id e) as [rid|]; [|simplify_eq/=; by exists p].
  case_decide; [done|].
  assert ((if decide (rid = p_run_id p)
           then p' ← apply_payload p e; Ok (Some p', seq e) else Err ProjectionError) = Ok acc)
    as Hs' by (destruct (payload e); done).
  case_decide; [|done]. apply result_bind_Ok in Hs' as (p' & Hp & Hs'). simplify_eq/=.
  exists p'. rewrite (apply_payload_seq _ _ _ Hp) in *.
  split_and!; [by rewrite Ha|by eapply apply_payload_identity|lia].
Qed.

Lemma reduce_from_Some es p q :
  reduce_run_events es (Some p) = Ok q →
  same_identity p q ∧ (p.(p_last_event_seq) ≤ q.(p_last_event_seq))%Z.
Proof.
  rewrite reduce_run_events_Ok. revert p.
  induction es as [|e es IH]; intros p; cbn [reduce_loop].
  - intros [= ->]. done.
  - intros (acc & (p1 & -> & Hid & Hle)%reduce_step_Some & [Hid' Hle']%IH)%result_bind_Ok.
    split; [by trans p1|lia].
Qed.

(** *** Properties *)

(** Replay from a checkpoint equals full replay: if a prefix of the stream reduces to a
    projection, then serialising that projection as a checkpoint snapshot, reading the
    snapshot's text back and reducing only the remaining events from it gives exactly
    what reducing the whole stream gives, errors included. *)
Theorem checkpoint_replay_equivalence `{Platform} prefix rest initial p :
  reduce_run_events prefix initial = Ok p →
  ∃ s, parse_snapshot (snapshot_text (from_projection p)) = Some s ∧
       reduce_run_events rest (Some (to_projection s))
       = reduce_run_events (prefix ++ rest) initial.
Proof.
  intros Hp. exists (from_projection p). split; [apply snapshot_roundtrip|].
  rewrite to_from_projection. symmetry. by apply reduce_app.
Qed.

(** A reduction never changes who a run is, and never moves its cursor backwards: run,
    session, turn, base repository, base commit and budget limits are those of the
    projection it started from. *)
Theorem reduce_preserves_identity es p q :
  reduce_run_events es (Some p) = Ok q →
  same_identity p q ∧ (p.(p_last_event_seq) ≤ q.(p_last_event_seq))%Z.
Proof. apply reduce_from_Some. Qed.

(** A concrete two-event stream, for the witnesses. *)
Definition sample_event (n : Z) (p : RuntimeEventPayload) : EventEnvelope :=
  {| event_id := "e"; schema_version := 1; session_id := "s"; turn_id := Some "t";
     run_id := Some "r"; seq := n; occurred_at := 0; process_instance_id := "p";
     boot_id := None; causation_event_id := None; correlation_id := None; payload := p |}.

Definition sample_created : EventEnvelope :=
  sample_event 3 (RunCreatedPayload "/repo" "abc" {[ "model_calls" := 3%Z ]}).

Definition sample_phase : EventEnvelope :=
  sample_event 4 (RunPhaseChangedPayload None RunPhase.PREFLIGHTING "run created").

Definition sample_projection : RunProjection :=
  created_projection "r" "t" "/repo" "abc" {[ "model_calls" := 3%Z ]} sample_created.

(** Witness of [checkpoint_replay_equivalence]: a checkpoint after the creation event. *)
Lemma checkpoint_replay_equivalence_witness :
  ∃ s, @parse_snapshot plain_platform
         (@snapshot_text plain_platform (from_projection sample_projection)) = Some s ∧
       reduce_run_events [sample_phase] (Some (to_projection s))
       = reduce_run_events ([sample_created] ++ [sample_phase]) None.
Proof.
  apply (@checkpoint_replay_equivalence plain_platform). reflexivity.
Defined.

(** Witness of [reduce_preserves_identity]: one phase change after the creation. *)
Lemma reduce_preserves_identity_witness :
  ∃ q, reduce_run_events [sample_phase] (Some sample_projection) = Ok q
       ∧ same_identity sample_projection q
       ∧ (p_last_event_seq sample_projection ≤ p_last_event_seq q)%Z.
Proof.
  eexists. split; [reflexivity|].
  apply (reduce_preserves_identity [sample_phase]). reflexivity.
Defined.
