(* ===== verification/ToolIdentity.v ===== *)
(** * ToolIdentity: stable tool-call identities (src/forge_replay/runtime/tool_identity.py)

    UUIDv7 construction, canonical tool arguments, lexical target paths and the approval
    fingerprint that binds one approval to one exact call. *)

From S2P Require Import Prelude Domain Platform Json Events.
From Corelib Require Import SpecFloat.

(** ** UUIDv7 *)

(** [new_uuid7] as the 128-bit integer it passes to [UUID(int=...)]; the two random
    draws are [secrets.randbits(12)] and [secrets.randbits(62)]. *)
Definition new_uuid7 (timestamp_ms rand12 rand62 : Z) : res Z :=
  if decide (0 ≤ timestamp_ms < Z.shiftl 1 48)%Z then
    let v := Z.shiftl timestamp_ms 80 in
    let v := Z.lor v (Z.shiftl 7 76) in
    let v := Z.lor v (Z.shiftl rand12 64) in
    let v := Z.lor v (Z.shiftl 2 62) in
    Ok (Z.lor v rand62)
  else Err ValueError.

(** ** Python values passed as tool arguments *)

#[warnings="-register-all"]
Inductive pyval :=
| PNone
| PBool (b : bool)
| PInt (z : Z)
| PFloat (f : spec_float)
| PStr (s : string)
| PList (l : list pyval)
| PTuple (l : list pyval)
| PDict (l : list (pyval * pyval))
| POther.   (** a value of any other type *)

Section canonical.
Context `{Platform}.

(** [_normalize_json_value]. *)
Fixpoint normalize_json_value (v : pyval) : res json :=
  match v with
  | PNone => Ok JNull
  | PBool b => Ok (JBool b)
  | PInt z => Ok (JInt z)
  | PFloat f =>
      match f with
      | S754_nan | S754_infinity _ => Err ToolIdentityError
      | S754_zero _ => Ok (JFloat (S754_zero false))
      | S754_finite _ _ _ => Ok (JFloat f)
      end
  | PStr s => Ok (JStr (nfc s))
  | PList l | PTuple l =>
      JArr <$> (fix items (l : list pyval) : res (list json) :=
        match l with
        | [] => Ok []
        | x :: l' => y ← normalize_json_value x; ys ← items l'; Ok (y :: ys)
        end) l
  | PDict l =>
      JObj <$> (fix entries (normalized : list (string * json)) (l : list (pyval * pyval))
                  : res (list (string * json)) :=
        match l with
        | [] => Ok normalized
        | (PStr key, item) :: l' =>
            if decide (nfc key ∈ normalized.*1) then Err ToolIdentityError
            else
              y ← normalize_json_value item;
              entries (normalized ++ [(nfc key, y)]) l'
        | _ :: _ => Err ToolIdentityError
        end) [] l
  | POther => Err ToolIdentityError
  end.

Record CanonicalToolArgs := {
  cta_value : json;
  cta_json : string;
  cta_sha256 : string;
}.

(** [canonicalize_tool_args] on a dictionary. *)
Definition canonicalize_tool_args (args : list (pyval * pyval)) : res CanonicalToolArgs :=
  normalized ← normalize_json_value (PDict args);
  match normalized with
  | JObj _ =>
      let encoded := canonical_json normalized in
      Ok {| cta_value := normalized; cta_json := encoded; cta_sha256 := sha256_text encoded |}
  | _ => Err ToolIdentityError
  end.

(** ** Target paths *)

(** [s.replace("\\", "/")]. *)
Fixpoint slashes (s : string) : string :=
  match s with
  | EmptyString => ""
  | String a s' =>
      String (if decide (a = backslash) then "/"%char else a) (slashes s')
  end.

Fixpoint has_char (a : ascii) (s : string) : bool :=
  match s with
  | EmptyString => false
  | String b s' => if decide (b = a) then true else has_char a s'
  end.

(** [s.split("/")]. *)
Fixpoint split_slash (s : string) : list string :=
  match s with
  | EmptyString => [""]
  | String a s' =>
      if decide (a = "/"%char) then "" :: split_slash s'
      else match split_slash s' with
           | part :: parts => String a part :: parts
           | [] => [String a ""]
           end
  end.

Definition is_letter (a : ascii) : bool :=
  let n := nat_of_ascii a in (((65 <=? n) && (n <=? 90)) || ((97 <=? n) && (n <=? 122)))%nat.

(** [_WINDOWS_DRIVE.match(s)]. *)
Definition windows_drive (s : string) : bool :=
  match s with
  | String a (String b _) => is_letter a && bool_decide (b = ":"%char)
  | _ => false
  end.

(** The loop over the parts. *)
Fixpoint keep_parts (l : list string) : res (list string) :=
  match l with
  | [] => Ok []
  | part :: l' =>
      if decide (part = "" ∨ part = ".") then keep_parts l'
      else if decide (part = "..") then Err ToolIdentityError
      else parts ← keep_parts l'; Ok (part :: parts)
  end.

Definition normalize_target_path (raw_path : string) : res string :=
  let normalized := slashes (nfc raw_path) in
  if decide (normalized = "" ∨ has_char (ascii_of_nat 0) normalized = true)
  then Err ToolIdentityError
  else if str_prefix "/" normalized || windows_drive normalized then Err ToolIdentityError
  else
    parts ← keep_parts (split_slash normalized);
    match parts with
    | [] => Err ToolIdentityError
    | _ => Ok (join "/" parts)
    end.

Fixpoint result_mapM {A B} (f : A → res B) (l : list A) : res (list B) :=
  match l with
  | [] => Ok []
  | x :: l' => y ← f x; ys ← result_mapM f l'; Ok (y :: ys)
  end.

(** [tuple(sorted({... for path in paths}))]. *)
Definition sorted_set (l : list string) : list string := merge_sort String.le (remove_dups l).

Definition normalize_targets (paths : list string) : res (list string) :=
  l ← result_mapM normalize_target_path paths; Ok (sorted_set l).

(** ** The approval fingerprint *)

Record ApprovalFingerprintInput := {
  fi_run_id : string;
  fi_tool_call_id : string;
  fi_tool_name : string;
  fi_tool_version : string;
  fi_args_sha256 : string;
  fi_effect_class : ToolEffectClass.t;
  fi_base_repo_root : string;
  fi_base_commit_sha : string;
  fi_worktree_path : option string;
  fi_target_paths : list string;
  fi_policy_version : string;
}.

Definition fingerprint_document (i : ApprovalFingerprintInput) (target_paths : list string) : json :=
  JObj [("args_sha256", JStr i.(fi_args_sha256));
        ("base_commit_sha", JStr i.(fi_base_commit_sha));
        ("base_repo_root", JStr (nfc i.(fi_base_repo_root)));
        ("effect_class", enum_json i.(fi_effect_class));
        ("policy_version", JStr i.(fi_policy_version));
        ("run_id", JStr i.(fi_run_id));
        ("target_paths", JArr (map JStr target_paths));
        ("tool_call_id", JStr i.(fi_tool_call_id));
        ("tool_name", JStr i.(fi_tool_name));
        ("tool_version", JStr i.(fi_tool_version));
        ("worktree_path", opt_json (λ p, JStr (nfc p)) i.(fi_worktree_path))].

Definition build_approval_fingerprint (i : ApprovalFingerprintInput) : res string :=
  if blank i.(fi_policy_version) then Err ToolIdentityError
  else
    target_paths ← normalize_targets i.(fi_target_paths);
    Ok (sha256_text (canonical_json (fingerprint_document i target_paths))).
End canonical.

(** ** UUIDv7 layout *)

Lemma Ok_inj {E A} (a b : A) : Ok (E := E) a = Ok b → a = b.
Proof. by intros [= ->]. Qed.

Lemma lor_shift_add a b n :
  (0 ≤ n)%Z → (0 ≤ b < 2 ^ n)%Z → Z.lor (a * 2 ^ n) b = (a * 2 ^ n + b)%Z.
Proof.
  intros Hn Hb. rewrite <- Z.shiftl_mul_pow2 by done.
  assert (Z.land (Z.shiftl a n) b = 0)%Z as Hl.
  { apply Z.bits_inj'. intros i Hi. rewrite Z.land_spec, Z.bits_0.
    destruct (decide (i < n)%Z).
    - by rewrite Z.shiftl_spec_low.
    - rewrite <- (Z.mod_small b (2 ^ n)) by done. rewrite Z.mod_pow2_bits_high by lia.
      apply andb_false_r. }
  rewrite <- Z.lxor_lor by done. by rewrite <- Z.add_nocarry_lxor.
Qed.

Lemma new_uuid7_value ms r12 r62 v :
  (0 ≤ r12 < 2 ^ 12)%Z → (0 ≤ r62 < 2 ^ 62)%Z → new_uuid7 ms r12 r62 = Ok v →
  (0 ≤ ms < 2 ^ 48)%Z
  ∧ v = (ms * 2 ^ 80 + 7 * 2 ^ 76 + r12 * 2 ^ 64 + 2 * 2 ^ 62 + r62)%Z.
Proof.
  intros H12 H62. unfold new_uuid7.
  rewrite (Z.shiftl_mul_pow2 1 48), Z.mul_1_l by lia.
  case_decide as Hms; [|done]. intros [= <-]. split; [done|].
  rewrite !Z.shiftl_mul_pow2 by lia.
  rewrite (lor_shift_add ms) by lia.
  replace (ms * 2 ^ 80 + 7 * 2 ^ 76)%Z with ((ms * 2 ^ 16 + 7 * 2 ^ 12) * 2 ^ 64)%Z by lia.
  rewrite <- Z.lor_assoc.
  assert (Z.lor (r12 * 2 ^ 64) (Z.lor (2 * 2 ^ 62) r62)
          = r12 * 2 ^ 64 + 2 * 2 ^ 62 + r62)%Z as Hlow.
  { rewrite (lor_shift_add 2 r62) by lia. rewrite lor_shift_add by lia. lia. }
  rewrite <- Z.lor_assoc, Hlow.
  replace ((ms * 2 ^ 16 + 7 * 2 ^ 12) * 2 ^ 64)%Z
    with ((ms * 2 ^ 4 + 7) * 2 ^ 76)%Z by lia.
  rewrite lor_shift_add by lia. lia.
Qed.

(** ** Path lemmas *)

Definition plain_part (p : string) : Prop := p ≠ "" ∧ p ≠ "." ∧ p ≠ "..".

(** [free a s]: the character [a] does not occur in [s]. *)
Definition free (a : ascii) (s : string) : Prop := has_char a s = false.

Lemma free_cons a b s : free a (String b s) ↔ b ≠ a ∧ free a s.
Proof. unfold free. cbn. case_decide; naive_solver. Qed.

Lemma slashes_free s : free backslash (slashes s).
Proof.
  induction s as [|a s IH]; [done|]. cbn [slashes]. apply free_cons. split; [|done].
  case_decide; [done|done].
Qed.

Lemma split_slash_ne s : split_slash s ≠ [].
Proof.
  induction s as [|a s IH]; [done|]. cbn. case_decide; [done|]. by destruct (split_slash s).
Qed.

(** No part holds a separator, and the parts hold no character the text does not. *)
Lemma split_slash_parts s :
  Forall (λ p, free "/"%char p ∧ ∀ a, free a s → free a p) (split_slash s).
Proof.
  induction s as [|b s IH]; [by apply Forall_singleton|]. cbn [split_slash].
  case_decide as Hb.
  - constructor; [done|]. eapply Forall_impl; [exact IH|]. intros p [? Hp]. split; [done|].
    intros a [_ Ha]%free_cons. by apply Hp.
  - destruct (split_slash s) as [|part parts] eqn:Hs; [by apply split_slash_ne in Hs|].
    apply Forall_cons in IH as [[Hf Hp] IH]. constructor.
    + split; [by apply free_cons|]. intros a [Hab Ha]%free_cons. apply free_cons. auto.
    + eapply Forall_impl; [exact IH|]. intros q [? Hq]. split; [done|].
      intros a [_ Ha]%free_cons. by apply Hq.
Qed.

Lemma keep_parts_Ok l ps :
  keep_parts l = Ok ps → Forall plain_part ps ∧ ∀ P, Forall P l → Forall P ps.
Proof.
  revert ps. induction l as [|p l IH]; intros ps; cbn [keep_parts].
  - intros [= <-]. split; [constructor|done].
  - case_decide as H1.
    + intros [? Hall]%IH. split; [done|]. intros P [_ HP]%Forall_cons. by apply Hall.
    + case_decide as H2; [done|]. intros (ps' & Hps & [= <-])%result_bind_Ok.
      apply IH in Hps as [? Hall]. split.
      * constructor; [unfold plain_part; naive_solver|done].
      * intros P [? HP]%Forall_cons. constructor; [done|by apply Hall].
Qed.

Lemma keep_parts_id ps : Forall plain_part ps → keep_parts ps = Ok ps.
Proof.
  induction 1 as [|p ps (H1 & H2 & H3) _ IH]; [done|]. cbn [keep_parts].
  rewrite decide_False by naive_solver. rewrite decide_False by done. by rewrite IH.
Qed.

Lemma split_slash_free p : free "/"%char p → split_slash p = [p].
Proof.
  induction p as [|a p IH]; [done|]. intros [Ha Hp]%free_cons. cbn.
  rewrite decide_False by done. by rewrite IH.
Qed.

Lemma split_slash_app p s :
  free "/"%char p → split_slash (p +:+ String "/" s) = p :: split_slash s.
Proof.
  induction p as [|a p IH]; [done|]. intros [Ha Hp]%free_cons. cbn.
  rewrite decide_False by done. by rewrite IH.
Qed.

Lemma join_cons2 sep x y l : join sep (x :: y :: l) = x +:+ sep +:+ join sep (y :: l).
Proof. done. Qed.

Lemma split_slash_join ps :
  ps ≠ [] → Forall (free "/"%char) ps → split_slash (join "/" ps) = ps.
Proof.
  induction ps as [|p [|q ps] IH]; intros Hne Hf; [done|..].
  - apply Forall_cons in Hf as [? _]. by apply split_slash_free.
  - apply Forall_cons in Hf as [Hp Hf]. rewrite join_cons2.
    change (p +:+ "/" +:+ join "/" (q :: ps)) with (p +:+ String "/" (join "/" (q :: ps))).
    rewrite split_slash_app by done. by rewrite IH.
Qed.

Lemma free_app a s t : free a (s +:+ t) ↔ free a s ∧ free a t.
Proof.
  induction s as [|b s IH]; [cbn; naive_solver|].
  rewrite str_app_cons, !free_cons, IH. naive_solver.
Qed.

Lemma free_join a ps : a ≠ "/"%char → Forall (free a) ps → free a (join "/" ps).
Proof.
  intros Ha. induction ps as [|p [|q ps] IH]; intros Hf; [done|..].
  - by apply Forall_cons in Hf as [? _].
  - apply Forall_cons in Hf as [Hp Hf]. rewrite join_cons2, !free_app.
    split_and!; [done|by apply free_cons|]. by apply IH.
Qed.

Lemma slashes_id s : free backslash s → slashes s = s.
Proof.
  induction s as [|a s IH]; [done|]. intros [Ha Hs]%free_cons. cbn.
  rewrite decide_False by done. by rewrite IH.
Qed.

Section paths.
Context `{Platform}.

(** The parts of an accepted path: not empty, no dot segments, none holding a separator,
    a backslash or a NUL. *)
Definition path_part (p : string) : Prop :=
  plain_part p ∧ free "/"%char p ∧ free backslash p ∧ free (ascii_of_nat 0) p.

Lemma normalize_target_path_parts raw p :
  normalize_target_path raw = Ok p →
  ∃ parts, p = join "/" parts ∧ parts ≠ [] ∧ Forall path_part parts.
Proof.
  unfold normalize_target_path. case_decide as Hn; [done|]. case_match; [done|].
  intros (parts & Hk & Hp)%result_bind_Ok.
  apply keep_parts_Ok in Hk as [Hplain Hall].
  destruct parts as [|q parts]; [done|]. injection Hp as <-.
  exists (q :: parts). split; [done|]. split; [done|].
  pose proof (Hall _ (split_slash_parts (slashes (nfc raw)))) as Hs.
  eapply Forall_impl; [apply Forall_and; exact (conj Hplain Hs)|].
  intros x (? & ? & Hx). unfold path_part. do 2 (split; [done|]). split.
  - apply Hx, slashes_free.
  - apply Hx. unfold free. apply not_true_is_false. naive_solver.
Qed.

Lemma join_nonempty ps : ps ≠ [] → Forall plain_part ps → join "/" ps ≠ "".
Proof.
  destruct ps as [|[|a p] ps]; intros Hne Hf; [done|..].
  - by apply Forall_cons in Hf as [(?&_) _].
  - by destruct ps.
Qed.

Lemma join_no_root ps : Forall path_part ps → str_prefix "/" (join "/" ps) = false.
Proof.
  intros Hf. destruct ps as [|[|a p] ps]; [done|..].
  - apply Forall_cons in Hf as [((?&?&?)&_) _]. done.
  - apply Forall_cons in Hf as [(_ & Ha & _) _]. apply free_cons in Ha as [Ha _].
    destruct ps; cbn; rewrite decide_False by done; done.
Qed.

Lemma normalize_target_path_id parts :
  let p := join "/" parts in
  parts ≠ [] → Forall path_part parts → nfc p = p → windows_drive p = false →
  normalize_target_path p = Ok p.
Proof.
  intros p Hne Hf Hn Hw. subst p. unfold normalize_target_path. rewrite Hn.
  assert (Forall plain_part parts ∧ Forall (free "/"%char) parts ∧ Forall (free backslash) parts
          ∧ Forall (free (ascii_of_nat 0)) parts) as (H1 & H2 & H3 & H4).
  { unfold path_part in Hf. by rewrite !Forall_and in Hf. }
  rewrite slashes_id by (by apply free_join). rewrite decide_False.
  - rewrite Hw, join_no_root by done. cbn [orb].
    rewrite split_slash_join by done. rewrite keep_parts_id by done. by destruct parts.
  - intros [?|Hnul]; [by eapply join_nonempty|].
    pose proof (free_join (ascii_of_nat 0) parts) as Hj. unfold free in Hj.
    rewrite Hj in Hnul; done.
Qed.

(** ** Fingerprints *)

Lemma obj_normalize_eq l1 l2 k :
  NoDup l1.*1 → NoDup l2.*1 → normalize_json (JObj l1) = normalize_json (JObj l2) →
  normalize_json <$> dict_get k l1 = normalize_json <$> dict_get k l2.
Proof.
  intros H1 H2 [= Heq]. rewrite <- !(dict_get_map normalize_json).
  set (m1 := map _ l1) in *. set (m2 := map _ l2) in *.
  assert (m1 ≡ₚ m2) as Hp.
  { etransitivity; [symmetry; apply sort_keys_perm|]. rewrite Heq. apply sort_keys_perm. }
  apply dict_get_perm; [done|]. unfold m1. by rewrite <- list_fmap_compose.
Qed.

Lemma normalize_strs l : map normalize_json (map JStr l) = map JStr l.
Proof. induction l; simpl; congruence. Qed.

Lemma fingerprint_document_dict i ps : dict_value (fingerprint_document i ps).
Proof.
  apply dict_value_JObj. split.
  - cbn. apply (bool_decide_unpack _). vm_compute. exact I.
  - rewrite !Forall_cons; split_and!;
      first [ done | by apply opt_json_dict_value | by apply Forall_nil
            | apply dict_value_JArr, Forall_map, Forall_true; done ].
Qed.

(** The fields a fingerprint binds, with paths in normal form. *)
Definition same_call (i j : ApprovalFingerprintInput) : Prop :=
  i.(fi_run_id) = j.(fi_run_id) ∧ i.(fi_tool_call_id) = j.(fi_tool_call_id)
  ∧ i.(fi_tool_name) = j.(fi_tool_name) ∧ i.(fi_tool_version) = j.(fi_tool_version)
  ∧ i.(fi_args_sha256) = j.(fi_args_sha256) ∧ i.(fi_effect_class) = j.(fi_effect_class)
  ∧ nfc i.(fi_base_repo_root) = nfc j.(fi_base_repo_root)
  ∧ i.(fi_base_commit_sha) = j.(fi_base_commit_sha)
  ∧ nfc <$> i.(fi_worktree_path) = nfc <$> j.(fi_worktree_path)
  ∧ normalize_targets i.(fi_target_paths) = normalize_targets j.(fi_target_paths)
  ∧ i.(fi_policy_version) = j.(fi_policy_version).

Lemma fingerprint_document_inj i j ps qs :
  normalize_json (fingerprint_document i ps) = normalize_json (fingerprint_document j qs) →
  ps = qs ∧
  (normalize_targets i.(fi_target_paths) = Ok ps →
   normalize_targets j.(fi_target_paths) = Ok qs → same_call i j).
Proof.
  pose proof (fingerprint_document_dict i ps) as [Hi _]%dict_value_JObj.
  pose proof (fingerprint_document_dict j qs) as [Hj _]%dict_value_JObj.
  intros Heq. pose proof (λ k, obj_normalize_eq _ _ k Hi Hj Heq) as Hk.
  pose proof (Hk "target_paths") as Hps. cbn in Hps. rewrite !normalize_strs in Hps.
  injection Hps as Hps.
  apply (f_equal (map (λ j, match j with JStr s => s | _ => "" end))) in Hps.
  rewrite !map_map, !map_id in Hps. subst qs.
  split; [done|]. intros Hpi Hpj. unfold same_call.
  assert (fi_effect_class i = fi_effect_class j) as Heff.
  { apply value_inj. pose proof (Hk "effect_class") as Heff. injection Heff. done. }
  pose proof (Hk "worktree_path") as Hw.
  split_and!; try done; try (by rewrite Hpi, Hpj).
  - pose proof (Hk "run_id"). by simplify_eq/=.
  - pose proof (Hk "tool_call_id"). by simplify_eq/=.
  - pose proof (Hk "tool_name"). by simplify_eq/=.
  - pose proof (Hk "tool_version"). by simplify_eq/=.
  - pose proof (Hk "args_sha256"). by simplify_eq/=.
  - pose proof (Hk "base_repo_root"). by simplify_eq/=.
  - pose proof (Hk "base_commit_sha"). by simplify_eq/=.
  - destruct (fi_worktree_path i), (fi_worktree_path j); simplify_eq/=; congruence.
  - pose proof (Hk "policy_version"). by simplify_eq/=.
Qed.

(** *** Properties *)

(** A target path that is accepted names an entry below the workspace root: it is one or
    more segments joined by a slash, none empty, none a dot or a parent segment, none
    holding a separator, a backslash or a NUL, so it has no root and cannot climb. *)
Theorem normalize_target_path_safe raw p :
  normalize_target_path raw = Ok p →
  ∃ parts, p = join "/" parts ∧ parts ≠ [] ∧ Forall path_part parts
           ∧ str_prefix "/" p = false.
Proof.
  intros (parts & -> & Hne & Hf)%normalize_target_path_parts.
  exists parts. split_and!; [done..|]. by apply join_no_root.
Qed.

(** Normalising an accepted path again changes nothing, when the path is already in
    Unicode normal form and does not start with a drive letter. *)
Theorem normalize_target_path_idempotent raw p :
  normalize_target_path raw = Ok p → nfc p = p → windows_drive p = false →
  normalize_target_path p = Ok p.
Proof.
  intros (parts & -> & Hne & Hf)%normalize_target_path_parts Hn Hw.
  by apply normalize_target_path_id.
Qed.

(** Two calls with the same fingerprint are the same call, or the fingerprint exhibits a
    collision of the digest: run, call, tool, version, arguments digest, effect class,
    repository, commit, worktree, the set of target paths and the policy version agree. *)
Theorem fingerprint_binds_call i j f :
  build_approval_fingerprint i = Ok f → build_approval_fingerprint j = Ok f →
  same_call i j ∨ ∃ x y, x ≠ y ∧ sha256_text x = sha256_text y.
Proof.
  unfold build_approval_fingerprint.
  destruct (blank (fi_policy_version i)); [done|].
  destruct (blank (fi_policy_version j)); [done|].
  intros (ps & Hps & Hi)%result_bind_Ok (qs & Hqs & Hj)%result_bind_Ok.
  rewrite <- Hj in Hi. apply Ok_inj in Hi.
  destruct (decide (canonical_json (fingerprint_document i ps)
                    = canonical_json (fingerprint_document j qs))) as [Heq|Hne]; [left|right; eauto].
  apply canonical_json_inj in Heq; [|apply fingerprint_document_dict..].
  apply fingerprint_document_inj in Heq as [-> Hsame]. by apply Hsame.
Qed.
End paths.

(** A UUIDv7 holds its time stamp in the top 48 bits, version 7 and the RFC 9562
    variant, and fits in 128 bits. *)
Theorem new_uuid7_layout ms r12 r62 v :
  (0 ≤ r12 < 2 ^ 12)%Z → (0 ≤ r62 < 2 ^ 62)%Z → new_uuid7 ms r12 r62 = Ok v →
  (0 ≤ v < 2 ^ 128)%Z ∧ (v / 2 ^ 80 = ms)%Z ∧ ((v / 2 ^ 76) mod 16 = 7)%Z
  ∧ ((v / 2 ^ 62) mod 4 = 2)%Z.
Proof.
  intros H12 H62 [Hms ->]%new_uuid7_value; [|done..].
  split_and!; [lia|lia|..].
  - symmetry. apply (Z.div_unique_pos _ _ _ (7 * 2 ^ 76 + r12 * 2 ^ 64 + 2 * 2 ^ 62 + r62)); lia.
  - assert ((ms * 2 ^ 80 + 7 * 2 ^ 76 + r12 * 2 ^ 64 + 2 * 2 ^ 62 + r62) / 2 ^ 76
            = ms * 16 + 7)%Z as ->.
    { symmetry. apply (Z.div_unique_pos _ _ _ (r12 * 2 ^ 64 + 2 * 2 ^ 62 + r62)); lia. }
    rewrite Z.add_comm, Z.mod_add by lia. done.
  - assert ((ms * 2 ^ 80 + 7 * 2 ^ 76 + r12 * 2 ^ 64 + 2 * 2 ^ 62 + r62) / 2 ^ 62
            = (ms * 2 ^ 16 + 7 * 2 ^ 12 + r12) * 4 + 2)%Z as ->.
    { symmetry. apply (Z.div_unique_pos _ _ _ r62); lia. }
    rewrite Z.add_comm, Z.mod_add by lia. done.
Qed.

(** ** Concrete inputs *)

(** The drive guard looks at the start of the raw path only: behind a leading dot segment
    a drive-qualified path is accepted, and the accepted path is one that the function
    itself refuses. *)
Theorem drive_guard_bypassed :
  @normalize_target_path plain_platform "./C:/x" = Ok "C:/x"
  ∧ @normalize_target_path plain_platform "C:/x" = Err ToolIdentityError.
Proof. split; reflexivity. Qed.

(** Witness of [normalize_target_path_safe]: mixed separators and dot segments. *)
Lemma normalize_target_path_safe_witness :
  ∃ parts, "src/a.py" = join "/" parts ∧ parts ≠ [] ∧ Forall (path_part) parts
           ∧ str_prefix "/" "src/a.py" = false.
Proof.
  apply (@normalize_target_path_safe plain_platform
           ("./src" +:+ String backslash "a.py")). reflexivity.
Defined.

(** Witness of [normalize_target_path_idempotent]. *)
Lemma normalize_target_path_idempotent_witness :
  @normalize_target_path plain_platform "src/a.py" = Ok "src/a.py".
Proof.
  apply (@normalize_target_path_idempotent plain_platform "src//./a.py"); reflexivity.
Defined.

Definition sample_fingerprint_input (paths : list string) : ApprovalFingerprintInput :=
  {| fi_run_id := "r"; fi_tool_call_id := "c"; fi_tool_name := "write_file";
     fi_tool_version := "1"; fi_args_sha256 := "{}";
     fi_effect_class := ToolEffectClass.DETECTABLE_IDEMPOTENT;
     fi_base_repo_root := "/repo"; fi_base_commit_sha := "abc"; fi_worktree_path := None;
     fi_target_paths := paths; fi_policy_version := "1" |}.

(** Witness of [fingerprint_binds_call]: the same set of targets, spelled differently. *)
Lemma fingerprint_binds_call_witness :
  @same_call plain_platform (sample_fingerprint_input ["b"; "a/./c"])
                            (sample_fingerprint_input ["a/c"; "b"; "b"])
  ∨ ∃ x y, x ≠ y ∧ @sha256_text plain_platform x = @sha256_text plain_platform y.
Proof. eapply (@fingerprint_binds_call plain_platform); reflexivity. Defined.

(** Witness of [new_uuid7_layout]. *)
Lemma new_uuid7_layout_witness :
  ∃ v, new_uuid7 1700000000000 5 9 = Ok v ∧
  (0 ≤ v < 2 ^ 128)%Z ∧ (v / 2 ^ 80 = 1700000000000)%Z ∧ ((v / 2 ^ 76) mod 16 = 7)%Z
  ∧ ((v / 2 ^ 62) mod 4 = 2)%Z.
Proof.
  eexists. split; [reflexivity|]. apply (new_uuid7_layout 1700000000000 5 9); [lia|lia|reflexivity].
Defined.
