(* ===== verification/Tables.v ===== *)
(** * Tables: the SQLite schema (src/forge_replay/persistence/schema.py)

    The database is a record of tables. Every table but [events] is a finite map from its
    TEXT primary key to a row record; [events] is the list of its rows in insertion order,
    because the ledger's order is what most of the development is about. Columns that hold
    the value of an enum have the enum's type, time stamps are microseconds in UTC (the
    store compares ISO texts of UTC times, which order the same way), and NULL is [None].
    The columns whose text is protected by a digest, and the JSON documents the store reads
    back, are kept as text. An INSERT that violates a PRIMARY KEY, UNIQUE, CHECK or
    REFERENCES constraint fails with [SqliteIntegrityError]. *)

From S2P Require Import Prelude Domain Platform Json Events.

(** ** Status columns *)

(** [budget_reservations.state]. *)
Module ReservationState.
Inductive t := RESERVED | SETTLED.
#[global] Instance eq_dec : EqDecision t.
Proof. solve_decision. Defined.
End ReservationState.

(** [model_calls.status]. *)
Module ModelCallStatus.
Inductive t := STARTED | RESPONDED | CONSUMED.
#[global] Instance eq_dec : EqDecision t.
Proof. solve_decision. Defined.
End ModelCallStatus.

(** [model_calls.consumption_kind]. *)
Module ConsumptionKind.
Inductive t := TOOL_BATCH | REJECTED | FINAL.
#[global] Instance eq_dec : EqDecision t.
Proof. solve_decision. Defined.
End ConsumptionKind.

(** ** Rows *)

Record SessionRow := {
  ses_workspace_root : string;
  ses_created_at : Z;
  ses_status : string;
  ses_next_seq : Z;
  ses_config_json : string;
  ses_last_event_id : option string;
}.

#[global] Instance eta_SessionRow : Eta SessionRow := λ x,
  {| ses_workspace_root := x.(ses_workspace_root); ses_created_at := x.(ses_created_at);
     ses_status := x.(ses_status); ses_next_seq := x.(ses_next_seq);
     ses_config_json := x.(ses_config_json); ses_last_event_id := x.(ses_last_event_id) |}.

Record TurnRow := {
  tu_session_id : string;
  tu_user_event_id : string;
  tu_created_at : Z;
  tu_status : string;
  tu_active_run_id : option string;
}.

#[global] Instance eta_TurnRow : Eta TurnRow := λ x,
  {| tu_session_id := x.(tu_session_id); tu_user_event_id := x.(tu_user_event_id);
     tu_created_at := x.(tu_created_at); tu_status := x.(tu_status);
     tu_active_run_id := x.(tu_active_run_id) |}.

(** A row of [runs], without its key and the columns the store never writes
    ([parent_run_id], [parent_tool_call_id], [deadline_at]). The two budget columns hold
    the decoded JSON objects. *)
Record RunRow := {
  r_turn_id : string;
  r_session_id : string;
  r_execution_status : ExecutionStatus.t;
  r_phase : option RunPhase.t;
  r_workspace_disposition : WorkspaceDisposition.t;
  r_base_repo_root : string;
  r_base_commit_sha : string;
  r_worktree_path : option string;
  r_worktree_branch : option string;
  r_created_at : Z;
  r_started_at : option Z;
  r_finished_at : option Z;
  r_last_event_seq : Z;
  r_lease_owner : option string;
  r_lease_epoch : Z;
  r_lease_expires_at : option Z;
  r_cancel_requested_at : option Z;
  r_cancel_reason : option string;
  r_budget_limits : gmap string Z;
  r_budget_consumed : gmap string Z;
  r_terminal_reason_json : option string;
}.

#[global] Instance eta_RunRow : Eta RunRow := λ x,
  {| r_turn_id := x.(r_turn_id); r_session_id := x.(r_session_id);
     r_execution_status := x.(r_execution_status); r_phase := x.(r_phase);
     r_workspace_disposition := x.(r_workspace_disposition);
     r_base_repo_root := x.(r_base_repo_root); r_base_commit_sha := x.(r_base_commit_sha);
     r_worktree_path := x.(r_worktree_path); r_worktree_branch := x.(r_worktree_branch);
     r_created_at := x.(r_created_at); r_started_at := x.(r_started_at);
     r_finished_at := x.(r_finished_at); r_last_event_seq := x.(r_last_event_seq);
     r_lease_owner := x.(r_lease_owner); r_lease_epoch := x.(r_lease_epoch);
     r_lease_expires_at := x.(r_lease_expires_at);
     r_cancel_requested_at := x.(r_cancel_requested_at);
     r_cancel_reason := x.(r_cancel_reason); r_budget_limits := x.(r_budget_limits);
     r_budget_consumed := x.(r_budget_consumed);
     r_terminal_reason_json := x.(r_terminal_reason_json) |}.

(** A row of the ledger. The payload is stored as text next to its digest. *)
Record EventRow := {
  e_event_id : string;
  e_session_id : string;
  e_turn_id : option string;
  e_run_id : option string;
  e_seq : Z;
  e_event_type : EventType.t;
  e_schema_version : Z;
  e_occurred_at : Z;
  e_process_instance_id : string;
  e_boot_id : option string;
  e_causation_event_id : option string;
  e_correlation_id : option string;
  e_payload_json : string;
  e_payload_sha256 : string;
}.

#[global] Instance eta_EventRow : Eta EventRow := λ x,
  {| e_event_id := x.(e_event_id); e_session_id := x.(e_session_id);
     e_turn_id := x.(e_turn_id); e_run_id := x.(e_run_id); e_seq := x.(e_seq);
     e_event_type := x.(e_event_type); e_schema_version := x.(e_schema_version);
     e_occurred_at := x.(e_occurred_at); e_process_instance_id := x.(e_process_instance_id);
     e_boot_id := x.(e_boot_id); e_causation_event_id := x.(e_causation_event_id);
     e_correlation_id := x.(e_correlation_id); e_payload_json := x.(e_payload_json);
     e_payload_sha256 := x.(e_payload_sha256) |}.

Record ToolCallRow := {
  tc_run_id : string;
  tc_response_event_id : string;
  tc_ordinal : Z;
  tc_tool_name : string;
  tc_tool_version : string;
  tc_args_json : string;
  tc_args_sha256 : string;
  tc_approval_fingerprint : string;
  tc_effect_class : ToolEffectClass.t;
  tc_state : ToolCallState.t;
  tc_precondition_json : option string;
  tc_final_output_blob_sha256 : option string;
  tc_final_error_json : option string;
}.

#[global] Instance eta_ToolCallRow : Eta ToolCallRow := λ x,
  {| tc_run_id := x.(tc_run_id); tc_response_event_id := x.(tc_response_event_id);
     tc_ordinal := x.(tc_ordinal); tc_tool_name := x.(tc_tool_name);
     tc_tool_version := x.(tc_tool_version); tc_args_json := x.(tc_args_json);
     tc_args_sha256 := x.(tc_args_sha256);
     tc_approval_fingerprint := x.(tc_approval_fingerprint);
     tc_effect_class := x.(tc_effect_class); tc_state := x.(tc_state);
     tc_precondition_json := x.(tc_precondition_json);
     tc_final_output_blob_sha256 := x.(tc_final_output_blob_sha256);
     tc_final_error_json := x.(tc_final_error_json) |}.

Record ToolAttemptRow := {
  ta_tool_call_id : string;
  ta_attempt_no : Z;
  ta_state : ToolCallState.t;
  ta_executor_identity_json : option string;
  ta_dispatched_at : option Z;
  ta_completed_at : option Z;
  ta_receipt_json : option string;
  ta_output_blob_sha256 : option string;
  ta_error_json : option string;
}.

#[global] Instance eta_ToolAttemptRow : Eta ToolAttemptRow := λ x,
  {| ta_tool_call_id := x.(ta_tool_call_id); ta_attempt_no := x.(ta_attempt_no);
     ta_state := x.(ta_state); ta_executor_identity_json := x.(ta_executor_identity_json);
     ta_dispatched_at := x.(ta_dispatched_at); ta_completed_at := x.(ta_completed_at);
     ta_receipt_json := x.(ta_receipt_json);
     ta_output_blob_sha256 := x.(ta_output_blob_sha256); ta_error_json := x.(ta_error_json) |}.

Record ApprovalRow := {
  ap_run_id : string;
  ap_subject_type : string;
  ap_subject_id : string;
  ap_fingerprint : string;
  ap_policy : string;
  ap_decision : option ApprovalDecision.t;
  ap_requested_at : Z;
  ap_decided_at : option Z;
  ap_actor : option string;
  ap_reason : option string;
}.

#[global] Instance eta_ApprovalRow : Eta ApprovalRow := λ x,
  {| ap_run_id := x.(ap_run_id); ap_subject_type := x.(ap_subject_type);
     ap_subject_id := x.(ap_subject_id); ap_fingerprint := x.(ap_fingerprint);
     ap_policy := x.(ap_policy); ap_decision := x.(ap_decision);
     ap_requested_at := x.(ap_requested_at); ap_decided_at := x.(ap_decided_at);
     ap_actor := x.(ap_actor); ap_reason := x.(ap_reason) |}.

(** A row of [budget_reservations]; [amount_json] is the pair of amounts it encodes. *)
Record ReservationRow := {
  br_run_id : string;
  br_category : string;
  br_reserved : Z;
  br_consumed : option Z;
  br_state : ReservationState.t;
  br_created_at : Z;
  br_settled_at : option Z;
}.

#[global] Instance eta_ReservationRow : Eta ReservationRow := λ x,
  {| br_run_id := x.(br_run_id); br_category := x.(br_category);
     br_reserved := x.(br_reserved); br_consumed := x.(br_consumed);
     br_state := x.(br_state); br_created_at := x.(br_created_at);
     br_settled_at := x.(br_settled_at) |}.

Record CheckpointRow := {
  cp_run_id : string;
  cp_through_seq : Z;
  cp_state_version : Z;
  cp_phase : string;
  cp_snapshot_json : string;
  cp_snapshot_sha256 : string;
  cp_created_at : Z;
}.

#[global] Instance eta_CheckpointRow : Eta CheckpointRow := λ x,
  {| cp_run_id := x.(cp_run_id); cp_through_seq := x.(cp_through_seq);
     cp_state_version := x.(cp_state_version); cp_phase := x.(cp_phase);
     cp_snapshot_json := x.(cp_snapshot_json); cp_snapshot_sha256 := x.(cp_snapshot_sha256);
     cp_created_at := x.(cp_created_at) |}.

Record BlobRow := {
  bl_byte_length : Z;
  bl_media_type : string;
  bl_content : string;
  bl_created_at : Z;
}.

#[global] Instance eta_BlobRow : Eta BlobRow := λ x,
  {| bl_byte_length := x.(bl_byte_length); bl_media_type := x.(bl_media_type);
     bl_content := x.(bl_content); bl_created_at := x.(bl_created_at) |}.

Record CommandRow := {
  cm_run_id : string;
  cm_command_type : string;
  cm_actor : string;
  cm_expected_stream_version : Z;
  cm_payload_sha256 : string;
  cm_committed_event_id : option string;
  cm_created_at : Z;
}.

#[global] Instance eta_CommandRow : Eta CommandRow := λ x,
  {| cm_run_id := x.(cm_run_id); cm_command_type := x.(cm_command_type);
     cm_actor := x.(cm_actor); cm_expected_stream_version := x.(cm_expected_stream_version);
     cm_payload_sha256 := x.(cm_payload_sha256);
     cm_committed_event_id := x.(cm_committed_event_id); cm_created_at := x.(cm_created_at) |}.

(** A row of the operational projection [model_calls]. *)
Record ModelCallRow := {
  mc_run_id : string;
  mc_step : Z;
  mc_model_name : string;
  mc_status : ModelCallStatus.t;
  mc_attempt_count : Z;
  mc_latest_attempt_no : Z;
  mc_first_started_event_id : option string;
  mc_latest_attempt_event_id : option string;
  mc_latest_failure_event_id : option string;
  mc_response_event_id : option string;
  mc_response_blob_sha256 : option string;
  mc_response_seq : option Z;
  mc_consumed_event_id : option string;
  mc_consumed_seq : option Z;
  mc_consumption_kind : option ConsumptionKind.t;
  mc_updated_seq : Z;
}.

#[global] Instance eta_ModelCallRow : Eta ModelCallRow := λ x,
  {| mc_run_id := x.(mc_run_id); mc_step := x.(mc_step); mc_model_name := x.(mc_model_name);
     mc_status := x.(mc_status); mc_attempt_count := x.(mc_attempt_count);
     mc_latest_attempt_no := x.(mc_latest_attempt_no);
     mc_first_started_event_id := x.(mc_first_started_event_id);
     mc_latest_attempt_event_id := x.(mc_latest_attempt_event_id);
     mc_latest_failure_event_id := x.(mc_latest_failure_event_id);
     mc_response_event_id := x.(mc_response_event_id);
     mc_response_blob_sha256 := x.(mc_response_blob_sha256);
     mc_response_seq := x.(mc_response_seq);
     mc_consumed_event_id := x.(mc_consumed_event_id);
     mc_consumed_seq := x.(mc_consumed_seq); mc_consumption_kind := x.(mc_consumption_kind);
     mc_updated_seq := x.(mc_updated_seq) |}.

(** The database: one field per table. *)
Record db := {
  sessions : gmap string SessionRow;
  turns : gmap string TurnRow;
  runs : gmap string RunRow;
  events : list EventRow;
  tool_calls : gmap string ToolCallRow;
  tool_attempts : gmap string ToolAttemptRow;
  approvals : gmap string ApprovalRow;
  budget_reservations : gmap string ReservationRow;
  checkpoints : gmap string CheckpointRow;
  blobs : gmap string BlobRow;
  control_commands : gmap string CommandRow;
  model_calls : gmap string ModelCallRow;
  schema_migrations : gmap Z string;
  projection_migrations : gmap string Z;
}.

#[global] Instance eta_db : Eta db := λ x,
  {| sessions := x.(sessions); turns := x.(turns); runs := x.(runs); events := x.(events);
     tool_calls := x.(tool_calls); tool_attempts := x.(tool_attempts);
     approvals := x.(approvals); budget_reservations := x.(budget_reservations);
     checkpoints := x.(checkpoints); blobs := x.(blobs);
     control_commands := x.(control_commands); model_calls := x.(model_calls);
     schema_migrations := x.(schema_migrations);
     projection_migrations := x.(projection_migrations) |}.

Definition empty_db : db :=
  {| sessions := ∅; turns := ∅; runs := ∅; events := []; tool_calls := ∅;
     tool_attempts := ∅; approvals := ∅; budget_reservations := ∅; checkpoints := ∅;
     blobs := ∅; control_commands := ∅; model_calls := ∅; schema_migrations := ∅;
     projection_migrations := ∅ |}.

Abbreviation stx := (tx db exn).

(** ** SELECT helpers *)

(** Rows that satisfy a WHERE clause, with their keys. *)
Definition select {V} (P : string → V → bool) (m : gmap string V) : list (string * V) :=
  filter (λ kv, P kv.1 kv.2 = true) (map_to_list m).

(** ORDER BY an integer column, ascending; rows with equal keys keep their order. *)
Fixpoint insert_by {A} (key : A → Z) (x : A) (l : list A) : list A :=
  match l with
  | [] => [x]
  | y :: l' => if decide (key x ≤ key y)%Z then x :: l else y :: insert_by key x l'
  end.

Definition order_by {A} (key : A → Z) (l : list A) : list A := foldr (insert_by key) [] l.

(** MAX of an integer column, [None] on no row. *)
Definition max_of {A} (key : A → Z) (l : list A) : option Z :=
  foldr (λ x m, Some (match m with Some z => Z.max (key x) z | None => key x end)) None l.

Definition sum_of {A} (key : A → Z) (l : list A) : Z := foldr (λ x n, key x + n)%Z 0%Z l.

Definition event_by_id (id : string) (s : db) : option EventRow :=
  head (filter (λ r, r.(e_event_id) = id) s.(events)).

(** ** Constraints *)

Abbreviation present m k := (is_Some (m !! k)).

Definition opt_ref {A} (P : A → Prop) (o : option A) : Prop :=
  match o with Some a => P a | None => True end.

#[global] Instance opt_ref_dec {A} (P : A → Prop) `{!∀ a, Decision (P a)} o : Decision (opt_ref P o).
Proof. destruct o; apply _. Defined.

Definition event_exists (s : db) (id : string) : Prop := id ∈ (e_event_id <$> s.(events)).

#[global] Instance event_exists_dec s id : Decision (event_exists s id).
Proof. unfold event_exists. apply _. Defined.

(** [constrained P m] runs [m] only when the schema's constraint [P] holds. *)
Definition constrained (P : db → Prop) `{!∀ s, Decision (P s)} (m : stx unit) : stx unit :=
  λ s, if decide (P s) then m s else Err SqliteIntegrityError.

(** No row of the table satisfies the clause. *)
Definition no_row {V} (P : string → V → bool) (m : gmap string V) : Prop :=
  map_Forall (λ k v, P k v = false) m.

#[global] Instance no_row_dec {V} P (m : gmap string V) : Decision (no_row P m).
Proof. unfold no_row. apply _. Defined.

(** ** INSERT statements *)

Definition insert_session (id : string) (row : SessionRow) : stx unit :=
  constrained (λ s, s.(sessions) !! id = None)
    (modify (λ s, s <| sessions ::= <[id := row]> |>)).

Definition insert_turn (id : string) (row : TurnRow) : stx unit :=
  constrained (λ s, s.(turns) !! id = None ∧ present s.(sessions) row.(tu_session_id))
    (modify (λ s, s <| turns ::= <[id := row]> |>)).

Definition insert_run (id : string) (row : RunRow) : stx unit :=
  constrained (λ s, s.(runs) !! id = None ∧ present s.(turns) row.(r_turn_id)
                    ∧ present s.(sessions) row.(r_session_id))
    (modify (λ s, s <| runs ::= <[id := row]> |>)).

Definition event_constraints (row : EventRow) (s : db) : Prop :=
  ¬ event_exists s row.(e_event_id)
  ∧ Forall (λ r, ¬ (r.(e_session_id) = row.(e_session_id) ∧ r.(e_seq) = row.(e_seq))) s.(events)
  ∧ present s.(sessions) row.(e_session_id)
  ∧ opt_ref (λ t, present s.(turns) t) row.(e_turn_id)
  ∧ opt_ref (λ r, present s.(runs) r) row.(e_run_id).

#[global] Instance event_constraints_dec row s : Decision (event_constraints row s).
Proof. unfold event_constraints. apply _. Defined.

Definition insert_event_row (row : EventRow) : stx unit :=
  constrained (event_constraints row) (modify (λ s, s <| events ::= (λ l, l ++ [row]) |>)).

Definition insert_tool_call (id : string) (row : ToolCallRow) : stx unit :=
  constrained (λ s, s.(tool_calls) !! id = None ∧ present s.(runs) row.(tc_run_id)
      ∧ event_exists s row.(tc_response_event_id)
      ∧ no_row (λ _ t, bool_decide (t.(tc_run_id) = row.(tc_run_id)
                 ∧ t.(tc_response_event_id) = row.(tc_response_event_id)
                 ∧ t.(tc_ordinal) = row.(tc_ordinal))) s.(tool_calls))
    (modify (λ s, s <| tool_calls ::= <[id := row]> |>)).

Definition insert_tool_attempt (id : string) (row : ToolAttemptRow) : stx unit :=
  constrained (λ s, s.(tool_attempts) !! id = None
      ∧ present s.(tool_calls) row.(ta_tool_call_id)
      ∧ no_row (λ _ t, bool_decide (t.(ta_tool_call_id) = row.(ta_tool_call_id)
                 ∧ t.(ta_attempt_no) = row.(ta_attempt_no))) s.(tool_attempts))
    (modify (λ s, s <| tool_attempts ::= <[id := row]> |>)).

Definition insert_approval (id : string) (row : ApprovalRow) : stx unit :=
  constrained (λ s, s.(approvals) !! id = None ∧ present s.(runs) row.(ap_run_id)
      ∧ no_row (λ _ a, bool_decide (a.(ap_run_id) = row.(ap_run_id)
                 ∧ a.(ap_subject_type) = row.(ap_subject_type)
                 ∧ a.(ap_subject_id) = row.(ap_subject_id)
                 ∧ a.(ap_fingerprint) = row.(ap_fingerprint))) s.(approvals))
    (modify (λ s, s <| approvals ::= <[id := row]> |>)).

Definition insert_reservation (id : string) (row : ReservationRow) : stx unit :=
  constrained (λ s, s.(budget_reservations) !! id = None ∧ present s.(runs) row.(br_run_id))
    (modify (λ s, s <| budget_reservations ::= <[id := row]> |>)).

Definition insert_checkpoint (id : string) (row : CheckpointRow) : stx unit :=
  constrained (λ s, s.(checkpoints) !! id = None ∧ present s.(runs) row.(cp_run_id)
      ∧ no_row (λ _ c, bool_decide (c.(cp_run_id) = row.(cp_run_id)
                 ∧ c.(cp_through_seq) = row.(cp_through_seq))) s.(checkpoints))
    (modify (λ s, s <| checkpoints ::= <[id := row]> |>)).

Definition insert_blob (id : string) (row : BlobRow) : stx unit :=
  constrained (λ s, s.(blobs) !! id = None) (modify (λ s, s <| blobs ::= <[id := row]> |>)).

Definition insert_command (id : string) (row : CommandRow) : stx unit :=
  constrained (λ s, s.(control_commands) !! id = None ∧ present s.(runs) row.(cm_run_id)
      ∧ opt_ref (event_exists s) row.(cm_committed_event_id))
    (modify (λ s, s <| control_commands ::= <[id := row]> |>)).

(** [status IN ('started', 'responded')]. *)
Definition mc_active (row : ModelCallRow) : bool :=
  bool_decide (row.(mc_status) ∈ [ModelCallStatus.STARTED; ModelCallStatus.RESPONDED]).

(** The constraints a row of [model_calls] has to satisfy against the others: the CHECKs,
    the references, the step and response indexes and one active call per run. *)
Definition model_call_constraints (id : string) (row : ModelCallRow) (s : db) : Prop :=
  (0 ≤ row.(mc_step) ∧ 0 ≤ row.(mc_attempt_count) ∧ 0 ≤ row.(mc_latest_attempt_no))%Z
  ∧ present s.(runs) row.(mc_run_id)
  ∧ opt_ref (event_exists s) row.(mc_first_started_event_id)
  ∧ opt_ref (event_exists s) row.(mc_latest_attempt_event_id)
  ∧ opt_ref (event_exists s) row.(mc_latest_failure_event_id)
  ∧ opt_ref (event_exists s) row.(mc_response_event_id)
  ∧ opt_ref (λ b, present s.(blobs) b) row.(mc_response_blob_sha256)
  ∧ opt_ref (event_exists s) row.(mc_consumed_event_id)
  ∧ no_row (λ k m, bool_decide (k ≠ id ∧ m.(mc_run_id) = row.(mc_run_id)
                                ∧ m.(mc_step) = row.(mc_step))) s.(model_calls)
  ∧ no_row (λ k m, bool_decide (k ≠ id ∧ m.(mc_run_id) = row.(mc_run_id))
                   && mc_active m && mc_active row) s.(model_calls)
  ∧ no_row (λ k m, bool_decide (k ≠ id ∧ is_Some row.(mc_response_event_id)
                     ∧ m.(mc_response_event_id) = row.(mc_response_event_id))) s.(model_calls).

#[global] Instance model_call_constraints_dec id row s :
  Decision (model_call_constraints id row s).
Proof. unfold model_call_constraints. apply _. Defined.

Definition insert_model_call (id : string) (row : ModelCallRow) : stx unit :=
  constrained (λ s, s.(model_calls) !! id = None ∧ model_call_constraints id row s)
    (modify (λ s, s <| model_calls ::= <[id := row]> |>)).

(** ** UPDATE ... WHERE key = id *)

Definition update_run (id : string) (f : RunRow → RunRow) : stx unit :=
  modify (λ s, s <| runs ::= alter f id |>).

Definition update_turn (id : string) (f : TurnRow → TurnRow) : stx unit :=
  modify (λ s, s <| turns ::= alter f id |>).

Definition update_tool_call (id : string) (f : ToolCallRow → ToolCallRow) : stx unit :=
  modify (λ s, s <| tool_calls ::= alter f id |>).

Definition update_tool_attempt (id : string) (f : ToolAttemptRow → ToolAttemptRow) : stx unit :=
  modify (λ s, s <| tool_attempts ::= alter f id |>).

Definition update_approval (id : string) (f : ApprovalRow → ApprovalRow) : stx unit :=
  modify (λ s, s <| approvals ::= alter f id |>).

Definition update_reservation (id : string) (f : ReservationRow → ReservationRow) : stx unit :=
  modify (λ s, s <| budget_reservations ::= alter f id |>).

(** An update of [model_calls] is checked against the table's constraints. *)
Definition update_model_call (id : string) (f : ModelCallRow → ModelCallRow) : stx unit :=
  row ← gets (λ s, s.(model_calls) !! id);
  match row with
  | None => mret tt
  | Some r => constrained (model_call_constraints id (f r))
                (modify (λ s, s <| model_calls ::= <[id := f r]> |>))
  end.

(** ** Inverting a successful body *)

Lemma constrained_Ok (P : db → Prop) `{!∀ s, Decision (P s)} m s u s' :
  constrained P m s = Ok (u, s') ↔ P s ∧ m s = Ok (u, s').
Proof. unfold constrained. case_decide; naive_solver. Qed.

Lemma update_model_call_Ok id f s u s' :
  update_model_call id f s = Ok (u, s') ↔
  (s.(model_calls) !! id = None ∧ s' = s)
  ∨ ∃ r, s.(model_calls) !! id = Some r ∧ model_call_constraints id (f r) s
         ∧ s' = s <| model_calls ::= <[id := f r]> |>.
Proof.
  unfold update_model_call. rewrite tx_bind_Ok. split.
  - intros (r & s1 & [-> ->]%gets_Ok & Hm).
    destruct (model_calls s !! id) as [r|] eqn:Hr.
    + apply constrained_Ok in Hm as [? ->%modify_Ok]. naive_solver.
    + apply tx_ret_Ok in Hm as [_ ->]. naive_solver.
  - intros Hs. exists (model_calls s !! id), s. split; [by apply gets_Ok|].
    destruct Hs as [[Hn ->]|(r & Hr & Hc & ->)].
    + rewrite Hn. by destruct u.
    + rewrite Hr. apply constrained_Ok. by rewrite modify_Ok.
Qed.

Ltac tx_unfold_stmt H :=
  progress unfold insert_session, insert_turn, insert_run, insert_event_row, insert_tool_call,
    insert_tool_attempt, insert_approval, insert_reservation, insert_checkpoint, insert_blob,
    insert_command, insert_model_call, update_run, update_turn, update_tool_call,
    update_tool_attempt, update_approval, update_reservation in H.

(** One step of the inversion of some hypothesis [body s = Ok (a, s')]. *)
Ltac tx_step :=
  match goal with
  | H : mbind _ _ _ = Ok _ |- _ =>
      let a := fresh "a" in let s := fresh "s" in let Hm := fresh "Hm" in
      apply tx_bind_Ok in H as (a & s & Hm & H); cbv beta in H
  | H : mret _ _ = Ok _ |- _ => apply tx_ret_Ok in H as [? ?]
  | H : require _ _ _ = Ok _ |- _ => apply require_Ok in H as [? ?]
  | H : gets _ _ = Ok _ |- _ => apply gets_Ok in H as [? ?]
  | H : modify _ _ = Ok _ |- _ => apply modify_Ok in H
  | H : lift_option _ _ _ = Ok _ |- _ => apply lift_option_Ok in H as [? ?]
  | H : lift_result _ _ = Ok _ |- _ => apply lift_result_Ok in H as [? ?]
  | H : throw _ _ = Ok _ |- _ => apply throw_Ok in H; destruct H
  | H : constrained _ _ _ = Ok _ |- _ => apply constrained_Ok in H as [? H]
  | H : (match ?x with _ => _ end) _ = Ok _ |- _ =>
      let Hx := fresh "Hx" in destruct x eqn:Hx
  | H : _ _ = Ok (_, _) |- _ => progress cbv beta zeta in H
  | H : _ _ = Ok (_, _) |- _ => tx_unfold_stmt H
  | u : unit |- _ => destruct u
  end; subst.

Ltac tx_steps := repeat tx_step; simplify_eq.

(** ** Relations between the state before and after a body *)

Definition tx_rel {A} (R : relation db) (m : stx A) : Prop :=
  ∀ s a s', m s = Ok (a, s') → R s s'.

(** A component of the state that does not change. *)
Definition same {B} (f : db → B) : relation db := λ s s', f s' = f s.

#[global] Instance same_preorder {B} (f : db → B) : PreOrder (same f).
Proof. split; unfold same; [done|]. intros ???; congruence. Qed.

Section tx_rel.
Context (R : relation db) `{!PreOrder R}.

Lemma tx_rel_bind {A B} (m : stx A) (f : A → stx B) :
  tx_rel R m → (∀ a, tx_rel R (f a)) → tx_rel R (mbind f m).
Proof.
  intros Hm Hf s b s' (a & s1 & H1 & H2)%tx_bind_Ok. etrans; [by eapply Hm|by eapply Hf].
Qed.

Lemma tx_rel_ret {A} (a : A) : tx_rel R (mret a).
Proof. intros s b s' [_ ->]%tx_ret_Ok. done. Qed.

Lemma tx_rel_gets {A} (f : db → A) : tx_rel R (gets f).
Proof. intros s b s' [_ ->]%gets_Ok. done. Qed.

Lemma tx_rel_require P `{Decision P} e : tx_rel R (require P e).
Proof. intros s b s' [_ ->]%require_Ok. done. Qed.

Lemma tx_rel_lift_option {A} e (x : option A) : tx_rel R (lift_option e x).
Proof. intros s b s' [_ ->]%lift_option_Ok. done. Qed.

Lemma tx_rel_lift_result {A} (x : res A) : tx_rel R (lift_result x).
Proof. intros s b s' [_ ->]%lift_result_Ok. done. Qed.

Lemma tx_rel_throw {A} e : tx_rel R (throw e : stx A).
Proof. intros s b s' []%throw_Ok. Qed.
End tx_rel.

Lemma tx_rel_modify R f : (∀ s, R s (f s)) → tx_rel R (modify f).
Proof. intros HR s a s' ->%modify_Ok. done. Qed.

Lemma tx_rel_insert R P `{!∀ s, Decision (P s)} f :
  (∀ s, P s → R s (f s)) → tx_rel R (constrained P (modify f)).
Proof. intros HR s a s' [? ->%modify_Ok]%constrained_Ok. by apply HR. Qed.

(** A bind whose first computation establishes a fact about its result. *)
Lemma tx_rel_bind_post R `{!PreOrder R} {A B} (Q : A → Prop) (m : stx A) (f : A → stx B) :
  tx_rel R m → (∀ s a s', m s = Ok (a, s') → Q a) → (∀ a, Q a → tx_rel R (f a)) →
  tx_rel R (mbind f m).
Proof.
  intros Hm HQ Hf s b s' (a & s1 & H1 & H2)%tx_bind_Ok.
  etrans; [by eapply Hm|eapply Hf; eauto].
Qed.

Lemma tx_rel_update_model_call R id f :
  PreOrder R → (∀ s r, R s (s <| model_calls ::= <[id := r]> |>)) →
  tx_rel R (update_model_call id f).
Proof. intros ? HR s a s' [[_ ->]|(r & _ & _ & ->)]%update_model_call_Ok; done. Qed.

Create HintDb tx_rel.

(** The relation across one statement, where it holds by computation. *)
Ltac tx_rel_leaf := try solve [red; simpl; reflexivity | eauto with tx_rel nocore].

(** Walk a body and prove a relation that its primitive statements satisfy. *)
Ltac tx_rel_step :=
  lazymatch goal with
  | |- tx_rel _ (mbind _ _) => apply tx_rel_bind; [apply _| |intros ?]
  | |- tx_rel _ (mret _) => apply tx_rel_ret; apply _
  | |- tx_rel _ (gets _) => apply tx_rel_gets; apply _
  | |- tx_rel _ (require _ _) => apply tx_rel_require; apply _
  | |- tx_rel _ (lift_option _ _) => apply tx_rel_lift_option; apply _
  | |- tx_rel _ (lift_result _) => apply tx_rel_lift_result; apply _
  | |- tx_rel _ (throw _) => apply tx_rel_throw
  | |- tx_rel _ (constrained _ (modify _)) => apply tx_rel_insert; intros ? ?; tx_rel_leaf
  | |- tx_rel _ (modify _) => apply tx_rel_modify; intros ?; tx_rel_leaf
  | |- tx_rel _ (update_model_call _ _) =>
      apply tx_rel_update_model_call; [apply _|intros ? ?; tx_rel_leaf]
  | |- tx_rel _ (let _ := _ in _) => cbv zeta
  | |- tx_rel _ (match ?x with _ => _ end) => destruct x
  | |- tx_rel _ _ =>
      first
        [ solve [eauto with tx_rel nocore]
        | progress cbv beta
        | progress unfold insert_session, insert_turn, insert_run, insert_event_row,
            insert_tool_call, insert_tool_attempt, insert_approval, insert_reservation,
            insert_checkpoint, insert_blob, insert_command, insert_model_call, update_run,
            update_turn, update_tool_call, update_tool_attempt, update_approval,
            update_reservation ]
  end.

Ltac tx_rel_tac := repeat tx_rel_step; eauto with tx_rel nocore.
