(* ===== verification/Ledger.v ===== *)
(** * Ledger: the append path, the readers and the blob table of the event store
    (src/forge_replay/persistence/store.py)

    [prepare_event], [insert_event] and [event_from_row] are the three places where an
    envelope meets the [events] table. The ledger invariant says that the table is the
    image of a list of valid envelopes, with distinct identifiers and with the sequence
    numbers 1, 2, 3, ... in every session. *)

From S2P Require Import Prelude Domain Platform Json Events Projection Tables.

(** ** Definitions *)

(** The keyword arguments the append functions share. *)
Record EventArgs := {
  ea_session_id : string;
  ea_process_instance_id : string;
  ea_payload : RuntimeEventPayload;
  ea_turn_id : option string;
  ea_run_id : option string;
  ea_causation_event_id : option string;
  ea_correlation_id : option string;
}.

(** The arguments of an event about a run, taken from its row. *)
Definition run_event_args (run_id : string) (row : RunRow) (process_instance_id : string)
    (causation : option string) (payload : RuntimeEventPayload) : EventArgs :=
  {| ea_session_id := row.(r_session_id); ea_process_instance_id := process_instance_id;
     ea_payload := payload; ea_turn_id := Some row.(r_turn_id); ea_run_id := Some run_id;
     ea_causation_event_id := causation; ea_correlation_id := Some run_id |}.

Record StoredBlob := {
  sb_sha256 : string;
  sb_byte_length : Z;
  sb_media_type : string;
  sb_content : string;
  sb_created_at : Z;
}.

Section ledger.
Context `{Platform}.

(** [UUID(text) if text is not None else None], as its canonical text. *)
Definition parse_uuid (t : option string) : res (option string) :=
  match t with
  | None => Ok None
  | Some c => Some <$> result_of_option ValueError (uuid_canon c)
  end.

(** [_prepare_event_in_transaction]; the event is the operation's [k]-th. *)
Definition prepare_event (o : oracle) (k : nat) (a : EventArgs) : stx EventEnvelope :=
  session ← gets (λ s, s.(sessions) !! a.(ea_session_id));
  session ← lift_option SessionNotFoundError session;
  causation ← lift_result (parse_uuid a.(ea_causation_event_id));
  lift_result (new_event o k a.(ea_session_id) session.(ses_next_seq)
    a.(ea_process_instance_id) a.(ea_payload) a.(ea_turn_id) a.(ea_run_id) causation
    a.(ea_correlation_id)).

(** The VALUES of the INSERT in [_insert_event_in_transaction]. *)
Definition row_of_event (e : EventEnvelope) : EventRow :=
  {| e_event_id := e.(event_id); e_session_id := e.(session_id); e_turn_id := e.(turn_id);
     e_run_id := e.(run_id); e_seq := e.(seq); e_event_type := event_type e;
     e_schema_version := e.(schema_version); e_occurred_at := e.(occurred_at);
     e_process_instance_id := e.(process_instance_id); e_boot_id := e.(boot_id);
     e_causation_event_id := e.(causation_event_id);
     e_correlation_id := e.(correlation_id);
     e_payload_json := payload_text e.(payload);
     e_payload_sha256 := sha256_text (payload_text e.(payload)) |}.

(** [_insert_event_in_transaction]: the row, then the session cursor guarded by
    [next_seq = seq]. *)
Definition insert_event (e : EventEnvelope) : stx unit :=
  insert_event_row (row_of_event e);;
  session ← gets (λ s, s.(sessions) !! e.(session_id));
  session ← lift_option LedgerIntegrityError session;
  require (session.(ses_next_seq) = e.(seq)) LedgerIntegrityError;;
  modify (λ s, s <| sessions ::= <[e.(session_id) :=
    session <| ses_next_seq := (e.(seq) + 1)%Z |>
            <| ses_last_event_id := Some e.(event_id) |>]> |>).

(** [_event_from_row]. *)
Definition event_from_row (row : EventRow) : res EventEnvelope :=
  if decide (sha256_text row.(e_payload_json) = row.(e_payload_sha256)) then
    j ← result_of_option ValueError (json_loads row.(e_payload_json));
    p ← result_of_option PydanticValidationError (payload_of_json j);
    id ← result_of_option PydanticValidationError (uuid_canon row.(e_event_id));
    causation ← match row.(e_causation_event_id) with
                | None => Ok None
                | Some c => Some <$> result_of_option PydanticValidationError (uuid_canon c)
                end;
    let e := {| event_id := id; schema_version := row.(e_schema_version);
                session_id := row.(e_session_id); turn_id := row.(e_turn_id);
                run_id := row.(e_run_id); seq := row.(e_seq);
                occurred_at := row.(e_occurred_at);
                process_instance_id := row.(e_process_instance_id);
                boot_id := row.(e_boot_id); causation_event_id := causation;
                correlation_id := row.(e_correlation_id); payload := p |} in
    if envelope_valid e then Ok e else Err PydanticValidationError
  else Err LedgerIntegrityError.

(** [[self._event_from_row(row) for row in rows]]. *)
Fixpoint events_from_rows (rows : list EventRow) : res (list EventEnvelope) :=
  match rows with
  | [] => Ok []
  | row :: rows' => e ← event_from_row row; es ← events_from_rows rows'; Ok (e :: es)
  end.

(** [_require_run_row]. *)
Definition require_run_row (run_id : string) : stx RunRow :=
  row ← gets (λ s, s.(runs) !! run_id);
  lift_option RunNotFoundError row.

(** The rows of [SELECT * FROM events WHERE run_id = ? AND seq > ? ORDER BY seq]. *)
Definition run_rows (run_id : string) (after_seq : Z) (s : db) : list EventRow :=
  order_by e_seq (filter (λ r, r.(e_run_id) = Some run_id ∧ (after_seq < r.(e_seq))%Z) s.(events)).

(** [_load_run_events_in_transaction]. *)
Definition load_run_events_in_tx (run_id : string) (after_seq : Z) : stx (list EventEnvelope) :=
  rows ← gets (run_rows run_id after_seq);
  lift_result (events_from_rows rows).

Definition load_run_events (run_id : string) : stx (list EventEnvelope) :=
  _ ← require_run_row run_id;
  load_run_events_in_tx run_id 0.

(** [load_recent_run_events]: the last [limit] rows, back in chronological order. *)
Definition load_recent_run_events (run_id : string) (limit : Z) : stx (list EventEnvelope) :=
  require (1 ≤ limit ≤ 10000)%Z ValueError;;
  _ ← require_run_row run_id;
  rows ← gets (λ s, filter (λ r, r.(e_run_id) = Some run_id) s.(events));
  let descending := order_by (λ r, - r.(e_seq))%Z rows in
  lift_result (events_from_rows (reverse (take (Z.to_nat limit) descending))).

(** [load_events]. *)
Definition load_events (sid : string) (after_seq : Z) : stx (list EventEnvelope) :=
  rows ← gets (λ s, order_by e_seq
    (filter (λ r, r.(e_session_id) = sid ∧ (after_seq < r.(e_seq))%Z) s.(events)));
  lift_result (events_from_rows rows).

(** *** Blobs *)

(** [_stored_blob_from_row]. *)
Definition stored_blob_from_row (sha256 : string) (row : BlobRow) : StoredBlob :=
  {| sb_sha256 := sha256; sb_byte_length := row.(bl_byte_length);
     sb_media_type := row.(bl_media_type); sb_content := row.(bl_content);
     sb_created_at := row.(bl_created_at) |}.

(** [_verify_blob]. *)
Definition verify_blob (b : StoredBlob) : res unit :=
  assert_result (Z.of_nat (String.length b.(sb_content)) = b.(sb_byte_length))
    LedgerIntegrityError;;
  assert_result (sha256_text b.(sb_content) = b.(sb_sha256)) LedgerIntegrityError.

(** [SELECT COALESCE(SUM(byte_length), 0) FROM blobs]. *)
Definition total_blob_bytes (s : db) : Z :=
  sum_of (λ kv : string * BlobRow, kv.2.(bl_byte_length)) (map_to_list s.(blobs)).

(** [_put_blob_in_transaction]; contents are byte strings. *)
Definition put_blob_in_tx (limits : BlobLimits) (created_at : Z) (content media_type : string)
    : stx StoredBlob :=
  require (blank media_type = false) ValueError;;
  let content_sha256 := sha256_text content in
  existing ← gets (λ s, s.(blobs) !! content_sha256);
  match existing with
  | Some row =>
      let stored := stored_blob_from_row content_sha256 row in
      lift_result (verify_blob stored);;
      require (stored.(sb_content) = content) LedgerIntegrityError;;
      require (stored.(sb_media_type) = media_type) BlobMetadataConflictError;;
      mret stored
  | None =>
      let byte_length := Z.of_nat (String.length content) in
      require (byte_length ≤ limits.(max_blob_bytes))%Z BlobQuotaExceededError;;
      total_bytes ← gets total_blob_bytes;
      require (total_bytes + byte_length ≤ limits.(max_total_bytes))%Z BlobQuotaExceededError;;
      insert_blob content_sha256
        {| bl_byte_length := byte_length; bl_media_type := media_type; bl_content := content;
           bl_created_at := created_at |};;
      mret {| sb_sha256 := content_sha256; sb_byte_length := byte_length;
              sb_media_type := media_type; sb_content := content; sb_created_at := created_at |}
  end.

(** [get_blob]. *)
Definition get_blob (sha256 : string) : stx StoredBlob :=
  row ← gets (λ s, s.(blobs) !! sha256);
  row ← lift_option KeyError row;
  let blob := stored_blob_from_row sha256 row in
  lift_result (verify_blob blob);;
  mret blob.
End ledger.
