(* ===== verification/ModelCalls.v ===== *)
(** * ModelCalls: the operational projection of model calls and the append function built
    on it (src/forge_replay/persistence/store.py)

    Every appended event passes through [apply_operational_projection], which maintains the
    [model_calls] table: a call is started, answered by one response, and its response is
    consumed once, by a batch of tool proposals, by a rejection or by the final answer. The
    same functions, with [legacy_backfill], rebuild the table from the ledger. *)

From S2P Require Import Prelude Domain Platform Json Events Projection Tables Ledger.
From Stdlib Require Import DecimalString.

Definition legacy_unknown : string := "legacy-unknown".

(** [int(text)] where [text.isdigit()], for ASCII digits. *)
Definition digits_value (t : string) : option Z :=
  if decide (t = "") then None
  else Z.of_uint <$> NilEmpty.uint_of_string t.

Definition model_call_prefix (run_id : string) : string := "model-call:" +:+ run_id +:+ ":".

Section model_calls.
Context `{Platform}.

(** [_event_run_id]. *)
Definition event_run_id (e : EventEnvelope) : stx string :=
  lift_option LedgerIntegrityError e.(run_id).

(** The model calls of a run, with their identifiers. *)
Definition run_model_calls (run_id : string) (s : db) : list (string * ModelCallRow) :=
  select (λ _ m, bool_decide (m.(mc_run_id) = run_id)) s.(model_calls).

(** [_resolve_model_step]. *)
Definition resolve_model_step (run_id model_call_id : string) (explicit_step : option Z)
    (legacy_backfill : bool) (existing : option ModelCallRow) : stx Z :=
  match existing with
  | Some row =>
      require (opt_ref (λ step, step = row.(mc_step)) explicit_step) LedgerIntegrityError;;
      mret row.(mc_step)
  | None =>
      let prefix := model_call_prefix run_id in
      let parsed := if str_prefix prefix model_call_id
                    then digits_value (str_drop (String.length prefix) model_call_id)
                    else None in
      match explicit_step, parsed with
      | Some step, _ =>
          require (model_call_id = prefix +:+ int_str step) LedgerIntegrityError;;
          mret step
      | None, Some step => mret step
      | None, None =>
          require (legacy_backfill = true) LedgerIntegrityError;;
          max_step ← gets (λ s, max_of (λ kv : string * ModelCallRow, kv.2.(mc_step))
                                  (run_model_calls run_id s));
          mret (match max_step with None => 0 | Some m => m + 1 end)%Z
      end
  end.

(** The identifiers of the run's calls whose status is started or responded. *)
Definition active_model_calls (run_id : string) (s : db) : list string :=
  (filter (λ kv, mc_active kv.2 = true) (run_model_calls run_id s)).*1.

(** [_project_model_call_started]. *)
Definition project_model_call_started (legacy_backfill : bool) (e : EventEnvelope)
    (model_call_id model_name : string) (attempt_no : Z) (step : option Z) : stx unit :=
  rid ← event_run_id e;
  existing ← gets (λ s, s.(model_calls) !! model_call_id);
  step ← resolve_model_step rid model_call_id step legacy_backfill existing;
  match existing with
  | None =>
      active ← gets (active_model_calls rid);
      require (active = []) LedgerIntegrityError;;
      insert_model_call model_call_id
        {| mc_run_id := rid; mc_step := step; mc_model_name := model_name;
           mc_status := ModelCallStatus.STARTED; mc_attempt_count := 1;
           mc_latest_attempt_no := attempt_no;
           mc_first_started_event_id := Some e.(event_id);
           mc_latest_attempt_event_id := Some e.(event_id);
           mc_latest_failure_event_id := None; mc_response_event_id := None;
           mc_response_blob_sha256 := None; mc_response_seq := None;
           mc_consumed_event_id := None; mc_consumed_seq := None;
           mc_consumption_kind := None; mc_updated_seq := e.(seq) |}
  | Some row =>
      require (row.(mc_run_id) = rid ∧ row.(mc_step) = step
               ∧ row.(mc_model_name) ∈ [model_name; legacy_unknown]) LedgerIntegrityError;;
      require (row.(mc_status) = ModelCallStatus.STARTED) LedgerIntegrityError;;
      if decide (row.(mc_latest_attempt_event_id) = Some e.(event_id)) then mret tt
      else
        require (row.(mc_latest_attempt_no) < attempt_no)%Z LedgerIntegrityError;;
        update_model_call model_call_id (λ row,
          row <| mc_model_name := model_name |>
              <| mc_attempt_count := (row.(mc_attempt_count) + 1)%Z |>
              <| mc_latest_attempt_no := attempt_no |>
              <| mc_latest_attempt_event_id := Some e.(event_id) |>
              <| mc_first_started_event_id :=
                   match row.(mc_first_started_event_id) with
                   | Some id => Some id | None => Some e.(event_id) end |>
              <| mc_updated_seq := e.(seq) |>)
  end.

(** [_project_model_call_failed]. *)
Definition project_model_call_failed (legacy_backfill : bool) (e : EventEnvelope)
    (model_call_id : string) : stx unit :=
  row ← gets (λ s, s.(model_calls) !! model_call_id);
  row ← lift_option LedgerIntegrityError row;
  rid ← event_run_id e;
  require (row.(mc_run_id) = rid) LedgerIntegrityError;;
  require (row.(mc_status) = ModelCallStatus.STARTED) LedgerIntegrityError;;
  require (legacy_backfill = true ∨ is_Some e.(causation_event_id)) LedgerIntegrityError;;
  require (is_Some e.(causation_event_id) →
           e.(causation_event_id) = row.(mc_latest_attempt_event_id)) LedgerIntegrityError;;
  update_model_call model_call_id (λ row,
    row <| mc_latest_failure_event_id := Some e.(event_id) |>
        <| mc_updated_seq := e.(seq) |>).

(** [_project_model_response]. *)
Definition project_model_response (legacy_backfill : bool) (e : EventEnvelope)
    (model_call_id response_blob_sha256 : string) : stx unit :=
  rid ← event_run_id e;
  row ← gets (λ s, s.(model_calls) !! model_call_id);
  (match row with
   | None =>
       if legacy_backfill then
         active ← gets (active_model_calls rid);
         require (active = []) LedgerIntegrityError;;
         step ← resolve_model_step rid model_call_id None true None;
         insert_model_call model_call_id
           {| mc_run_id := rid; mc_step := step; mc_model_name := legacy_unknown;
              mc_status := ModelCallStatus.STARTED; mc_attempt_count := 0;
              mc_latest_attempt_no := 0; mc_first_started_event_id := None;
              mc_latest_attempt_event_id := None; mc_latest_failure_event_id := None;
              mc_response_event_id := None; mc_response_blob_sha256 := None;
              mc_response_seq := None; mc_consumed_event_id := None;
              mc_consumed_seq := None; mc_consumption_kind := None;
              mc_updated_seq := e.(seq) |}
       else mret tt
   | Some _ => mret tt
   end);;
  row ← gets (λ s, s.(model_calls) !! model_call_id);
  row ← lift_option LedgerIntegrityError row;
  require (row.(mc_run_id) = rid) LedgerIntegrityError;;
  if decide (row.(mc_status) = ModelCallStatus.RESPONDED
             ∧ row.(mc_response_event_id) = Some e.(event_id)
             ∧ row.(mc_response_blob_sha256) = Some response_blob_sha256)
  then mret tt
  else
    require (row.(mc_status) = ModelCallStatus.STARTED) LedgerIntegrityError;;
    require (legacy_backfill = true ∨ is_Some e.(causation_event_id)) LedgerIntegrityError;;
    require (is_Some e.(causation_event_id) → is_Some row.(mc_latest_attempt_event_id) →
             e.(causation_event_id) = row.(mc_latest_attempt_event_id)) LedgerIntegrityError;;
    update_model_call model_call_id (λ row,
      row <| mc_status := ModelCallStatus.RESPONDED |>
          <| mc_response_event_id := Some e.(event_id) |>
          <| mc_response_blob_sha256 := Some response_blob_sha256 |>
          <| mc_response_seq := Some e.(seq) |>
          <| mc_updated_seq := e.(seq) |>).

Definition is_model_response (p : RuntimeEventPayload) : bool :=
  match p with ModelResponseReceivedPayload _ _ _ _ => true | _ => false end.

(** The event a consumer names has to be a model response of the consumer's run. *)
Definition require_response (consumer : EventEnvelope) (response_event_id : string) : stx unit :=
  response_row ← gets (event_by_id response_event_id);
  response_row ← lift_option LedgerIntegrityError response_row;
  response ← lift_result (event_from_row response_row);
  rid ← event_run_id consumer;
  require (response.(run_id) = Some rid ∧ is_model_response response.(payload) = true)
    LedgerIntegrityError.

(** [SELECT * FROM model_calls WHERE response_event_id = ?]. *)
Definition call_by_response (response_event_id : string) (s : db)
    : option (string * ModelCallRow) :=
  head (select (λ _ m, bool_decide (m.(mc_response_event_id) = Some response_event_id))
          s.(model_calls)).

(** The UPDATE that consumes a response. *)
Definition consume_call (kind : ConsumptionKind.t) (e : EventEnvelope) (row : ModelCallRow)
    : ModelCallRow :=
  row <| mc_status := ModelCallStatus.CONSUMED |>
      <| mc_consumed_event_id := Some e.(event_id) |>
      <| mc_consumed_seq := Some e.(seq) |>
      <| mc_consumption_kind := Some kind |>
      <| mc_updated_seq := e.(seq) |>.

(** The part of [_project_model_response_consumption] that finds the consumed response
    and checks the consumer against its own record. *)
Definition consumed_response (legacy_backfill : bool) (e : EventEnvelope)
    : stx (ConsumptionKind.t * option string) :=
  match e.(payload) with
  | ToolCallProposedPayload tool_call_id tool_name tool_version args_sha256 effect_class =>
      tool_row ← gets (λ s, s.(tool_calls) !! tool_call_id);
      let response_event_id :=
        match e.(causation_event_id) with
        | Some id => Some id
        | None => if legacy_backfill then tc_response_event_id <$> tool_row else None
        end in
      tool_row ← lift_option LedgerIntegrityError tool_row;
      rid ← event_run_id e;
      require (tool_row.(tc_run_id) = rid
               ∧ Some tool_row.(tc_response_event_id) = response_event_id
               ∧ tool_row.(tc_tool_name) = tool_name
               ∧ tool_row.(tc_tool_version) = tool_version
               ∧ tool_row.(tc_args_sha256) = args_sha256
               ∧ tool_row.(tc_effect_class) = effect_class) LedgerIntegrityError;;
      mret (ConsumptionKind.TOOL_BATCH, response_event_id)
  | ModelOutputRejectedPayload response_event_id _ =>
      require (opt_ref (λ c, c = response_event_id) e.(causation_event_id))
        LedgerIntegrityError;;
      mret (ConsumptionKind.REJECTED, Some response_event_id)
  | _ => throw LedgerIntegrityError
  end.

(** [_project_model_response_consumption]. *)
Definition project_model_response_consumption (legacy_backfill : bool) (e : EventEnvelope)
    : stx unit :=
  '(kind, response_event_id) ← consumed_response legacy_backfill e;
  response_event_id ← lift_option LedgerIntegrityError response_event_id;
  require_response e response_event_id;;
  found ← gets (call_by_response response_event_id);
  '(model_call_id, row) ← lift_option LedgerIntegrityError found;
  match row.(mc_status) with
  | ModelCallStatus.CONSUMED =>
      if decide (kind = ConsumptionKind.TOOL_BATCH
                 ∧ row.(mc_consumption_kind) = Some ConsumptionKind.TOOL_BATCH
                 ∧ row.(mc_response_event_id) = Some response_event_id) then mret tt
      else if decide (row.(mc_consumed_event_id) = Some e.(event_id)) then mret tt
      else throw LedgerIntegrityError
  | ModelCallStatus.RESPONDED => update_model_call model_call_id (consume_call kind e)
  | ModelCallStatus.STARTED => throw LedgerIntegrityError
  end.

(** [_consume_final_model_response]; [response_event_id] is the final event's causation. *)
Definition consume_final_model_response (final_event : EventEnvelope)
    (response_event_id : string) : stx unit :=
  require_response final_event response_event_id;;
  found ← gets (call_by_response response_event_id);
  '(model_call_id, row) ← lift_option LedgerIntegrityError found;
  match row.(mc_status) with
  | ModelCallStatus.CONSUMED =>
      if decide (row.(mc_consumption_kind) = Some ConsumptionKind.FINAL
                 ∧ row.(mc_consumed_event_id) = Some final_event.(event_id)) then mret tt
      else throw LedgerIntegrityError
  | ModelCallStatus.RESPONDED =>
      update_model_call model_call_id (consume_call ConsumptionKind.FINAL final_event)
  | ModelCallStatus.STARTED => throw LedgerIntegrityError
  end.

Definition is_final_answer (p : RuntimeEventPayload) : bool :=
  match p with FinalAnswerCommittedPayload _ => true | _ => false end.

(** The last final answer of the run before [before], by sequence number. *)
Definition last_final_row (rid : string) (before : Z) (s : db) : option EventRow :=
  last (order_by e_seq (filter (λ r, r.(e_run_id) = Some rid
    ∧ r.(e_event_type) = EventType.FINAL_ANSWER_COMMITTED ∧ (r.(e_seq) < before)%Z) s.(events))).

(** The responses of the run still unconsumed before [before]. *)
Definition responded_before (rid : string) (before : Z) (s : db) : list (string * ModelCallRow) :=
  select (λ _ m, bool_decide (m.(mc_run_id) = rid ∧ m.(mc_status) = ModelCallStatus.RESPONDED)
                 && match m.(mc_response_seq) with
                    | Some n => bool_decide (n < before)%Z
                    | None => false
                    end)
    s.(model_calls).

(** [_project_completed_final_answer]. *)
Definition project_completed_final_answer (legacy_backfill : bool) (e : EventEnvelope)
    : stx unit :=
  match e.(causation_event_id), legacy_backfill with
  | None, false => mret tt
  | causation, _ =>
      final_row ← match causation with
                  | Some c => row ← gets (event_by_id c);
                              row ← lift_option LedgerIntegrityError row;
                              mret (Some row)
                  | None => rid ← event_run_id e; gets (last_final_row rid e.(seq))
                  end;
      match final_row with
      | None => mret tt
      | Some final_row =>
          final_event ← lift_result (event_from_row final_row);
          if is_final_answer final_event.(payload) then
            rid ← event_run_id e;
            require (final_event.(run_id) = Some rid) LedgerIntegrityError;;
            response_event_id ←
              match final_event.(causation_event_id) with
              | Some c => mret (Some c)
              | None =>
                  if legacy_backfill then
                    rows ← gets (responded_before rid final_event.(seq));
                    mret (match rows with
                          | [(_, m)] => m.(mc_response_event_id)
                          | _ => None
                          end)
                  else mret None
              end;
            response_event_id ← lift_option LedgerIntegrityError response_event_id;
            response_event_id ← lift_option ValueError (uuid_canon response_event_id);
            consume_final_model_response final_event response_event_id
          else if legacy_backfill then mret tt
          else throw LedgerIntegrityError
      end
  end.

(** [_apply_operational_projection_in_transaction]. *)
Definition apply_operational_projection (legacy_backfill : bool) (e : EventEnvelope) : stx unit :=
  match e.(payload) with
  | ModelCallStartedPayload model_call_id model_name attempt_no step =>
      project_model_call_started legacy_backfill e model_call_id model_name attempt_no step
  | ModelCallFailedPayload model_call_id _ _ =>
      project_model_call_failed legacy_backfill e model_call_id
  | ModelResponseReceivedPayload model_call_id response_blob_sha256 _ _ =>
      project_model_response legacy_backfill e model_call_id response_blob_sha256
  | ToolCallProposedPayload _ _ _ _ _ | ModelOutputRejectedPayload _ _ =>
      project_model_response_consumption legacy_backfill e
  | RunCompletedPayload _ => project_completed_final_answer legacy_backfill e
  | _ => mret tt
  end.

(** [_append_event_in_transaction]. *)
Definition append_event_in_tx (o : oracle) (k : nat) (a : EventArgs) : stx EventEnvelope :=
  e ← prepare_event o k a;
  insert_event e;;
  apply_operational_projection false e;;
  mret e.

(** ** Readers *)

Record PendingModelResponse := {
  pm_event : EventEnvelope;
  pm_model_call_id : string;
  pm_step : Z;
  pm_response_blob_sha256 : string;
}.

(** [get_model_call]; the record is the row. *)
Definition get_model_call (model_call_id : string) : stx (option ModelCallRow) :=
  gets (λ s, s.(model_calls) !! model_call_id).

(** [get_next_model_step]. *)
Definition get_next_model_step (rid : string) : stx Z :=
  _ ← require_run_row rid;
  row ← gets (λ s, head (order_by (λ kv : string * ModelCallRow, - kv.2.(mc_step))%Z
                           (run_model_calls rid s)));
  mret (match row with
        | None => 0
        | Some (_, m) => if decide (m.(mc_status) = ModelCallStatus.STARTED)
                         then m.(mc_step) else m.(mc_step) + 1
        end)%Z.

(** The run's calls with a response nobody consumed. *)
Definition responded_calls (rid : string) (s : db) : list (string * ModelCallRow) :=
  select (λ _ m, bool_decide (m.(mc_run_id) = rid ∧ m.(mc_status) = ModelCallStatus.RESPONDED))
    s.(model_calls).

(** The comparison of a pending call with its response event. *)
Definition response_matches (rid id : string) (m : ModelCallRow) (blob : string)
    (e : EventEnvelope) : bool :=
  bool_decide (e.(run_id) = Some rid ∧ Some e.(seq) = m.(mc_response_seq))
  && match e.(payload) with
     | ModelResponseReceivedPayload call response_blob _ _ =>
         bool_decide (call = id ∧ response_blob = blob)
     | _ => false
     end.

(** [get_latest_unconsumed_model_response]. *)
Definition get_latest_unconsumed_model_response (rid : string)
    : stx (option PendingModelResponse) :=
  _ ← require_run_row rid;
  rows ← gets (responded_calls rid);
  match rows with
  | [] => mret None
  | [(id, m)] =>
      response_event_id ← lift_option LedgerIntegrityError m.(mc_response_event_id);
      blob ← lift_option LedgerIntegrityError m.(mc_response_blob_sha256);
      response_row ← gets (event_by_id response_event_id);
      response_row ← lift_option LedgerIntegrityError response_row;
      response ← lift_result (event_from_row response_row);
      require (response_matches rid id m blob response = true) LedgerIntegrityError;;
      mret (Some {| pm_event := response; pm_model_call_id := id; pm_step := m.(mc_step);
                    pm_response_blob_sha256 := blob |})
  | _ => throw LedgerIntegrityError
  end.
End model_calls.
