(* ===== verification/Leases.v ===== *)
(** * Leases: run leases, fencing and control commands
    (src/forge_replay/persistence/store.py)

    An operation of the store is a transaction body: it returns what the method returns,
    computed from the rows it read, and the stream version the caller's execution context
    observes after the commit. [execute] runs a body the way the methods do: BEGIN
    IMMEDIATE, COMMIT or ROLLBACK, then [_advance_execution_context]. *)

From S2P Require Import Prelude Domain Platform Json Events Projection Tables Ledger ModelCalls.

(** ** Operations *)

(** The value a method returns (or the exception of decoding its result after the commit),
    and the stream version to observe, if the method advances the context. *)
Abbreviation op A := (stx (res A * option Z)).

Definition returned {A} (r : res A) : op A := mret (r, None).
Definition committed {A} (r : res A) (stream_version : Z) : op A :=
  mret (r, Some stream_version).

Record outcome (A : Type) := {
  out_result : res A;
  out_db : db;
  out_context : option ExecutionContext;
}.
Arguments out_result {A} _.
Arguments out_db {A} _.
Arguments out_context {A} _.

(** [_advance_execution_context]. *)
Definition advance_execution_context (ctx : option ExecutionContext) (stream_version : Z)
    : res (option ExecutionContext) :=
  match ctx with
  | None => Ok None
  | Some c => Some <$> observe c stream_version
  end.

Definition execute {A} (ctx : option ExecutionContext) (m : op A) (s : db) : outcome A :=
  match m s with
  | Err e => {| out_result := Err e; out_db := s; out_context := ctx |}
  | Ok ((r, None), s') => {| out_result := r; out_db := s'; out_context := ctx |}
  | Ok ((r, Some v), s') =>
      match advance_execution_context ctx v with
      | Ok ctx' => {| out_result := r; out_db := s'; out_context := ctx' |}
      | Err e => {| out_result := Err e; out_db := s'; out_context := ctx |}
      end
  end.

(** ** Leases *)

Record RunLease := {
  rl_run_id : string;
  rl_owner : string;
  rl_epoch : Z;
  rl_expires_at : Z;
}.

Definition SECOND : Z := 1000000.

(** [1 <= ttl_seconds <= 3600]; the time to live is given in microseconds. *)
Definition ttl_valid (ttl : Z) : Prop := (SECOND ≤ ttl ≤ 3600 * SECOND)%Z.

#[global] Instance ttl_valid_dec ttl : Decision (ttl_valid ttl).
Proof. unfold ttl_valid. apply _. Defined.

(** The condition under which an acquisition is refused: another owner holds a lease that
    has not expired. *)
Definition leased_by_other (row : RunRow) (owner : string) (observed_at : Z) : Prop :=
  match row.(r_lease_owner), row.(r_lease_expires_at) with
  | Some current, Some expiry => current ≠ "" ∧ current ≠ owner ∧ (observed_at < expiry)%Z
  | _, _ => False
  end.

#[global] Instance leased_by_other_dec row owner t : Decision (leased_by_other row owner t).
Proof. unfold leased_by_other. repeat case_match; apply _. Defined.

(** The epoch an acquisition by [owner] commits: one more unless it already owns the run. *)
Definition next_epoch (row : RunRow) (owner : string) : Z :=
  if decide (row.(r_lease_owner) = Some owner) then row.(r_lease_epoch)
  else (row.(r_lease_epoch) + 1)%Z.

Definition acquire_run_lease (o : oracle) (run_id owner : string) (ttl : Z) (at_time : option Z)
    : op RunLease :=
  require (blank owner = false ∧ ttl_valid ttl) ValueError;;
  let observed_at := default (o.(now) 0%nat) at_time in
  let expires_at := (observed_at + ttl)%Z in
  row ← require_run_row run_id;
  require (¬ leased_by_other row owner observed_at) LeaseConflictError;;
  let epoch := next_epoch row owner in
  update_run run_id (λ row, row <| r_lease_owner := Some owner |>
                                <| r_lease_epoch := epoch |>
                                <| r_lease_expires_at := Some expires_at |>);;
  returned (Ok {| rl_run_id := run_id; rl_owner := owner; rl_epoch := epoch;
                  rl_expires_at := expires_at |}).

(** The WHERE clause of the renewal: this owner, this epoch, not expired. *)
Definition holds_lease (row : RunRow) (worker : string) (epoch observed_at : Z) : Prop :=
  row.(r_lease_owner) = Some worker ∧ row.(r_lease_epoch) = epoch
  ∧ match row.(r_lease_expires_at) with Some expiry => (observed_at < expiry)%Z | None => False end.

#[global] Instance holds_lease_dec row w ep t : Decision (holds_lease row w ep t).
Proof. unfold holds_lease. destruct (r_lease_expires_at row); apply _. Defined.

Definition renew_run_lease (o : oracle) (c : ExecutionContext) (ttl : Z) (at_time : option Z)
    : op RunLease :=
  require (ttl_valid ttl) ValueError;;
  let observed_at := default (o.(now) 0%nat) at_time in
  let expires_at := (observed_at + ttl)%Z in
  row ← gets (λ s, s.(runs) !! c.(ec_run_id));
  row ← lift_option LeaseConflictError row;
  require (holds_lease row c.(ec_worker_id) c.(ec_lease_epoch) observed_at) LeaseConflictError;;
  update_run c.(ec_run_id) (λ row, row <| r_lease_expires_at := Some expires_at |>);;
  returned (Ok {| rl_run_id := c.(ec_run_id); rl_owner := c.(ec_worker_id);
                  rl_epoch := c.(ec_lease_epoch); rl_expires_at := expires_at |}).

(** [synchronize_execution_context]: the context observes the row's stream version. *)
Definition synchronize_execution_context (o : oracle) (c : ExecutionContext) : op Z :=
  row ← require_run_row c.(ec_run_id);
  require (holds_lease row c.(ec_worker_id) c.(ec_lease_epoch) (o.(now) 0%nat))
    LeaseConflictError;;
  committed (Ok row.(r_last_event_seq)) row.(r_last_event_seq).

Definition release_run_lease (lease : RunLease) : op unit :=
  row ← gets (λ s, s.(runs) !! lease.(rl_run_id));
  row ← lift_option LeaseConflictError row;
  require (row.(r_lease_owner) = Some lease.(rl_owner)
           ∧ row.(r_lease_epoch) = lease.(rl_epoch)) LeaseConflictError;;
  update_run lease.(rl_run_id) (λ row, row <| r_lease_owner := None |>
                                           <| r_lease_expires_at := None |>);;
  returned (Ok tt).

(** ** Fencing *)

(** [row["lease_owner"] and expiry is not None and expiry > now]. *)
Definition lease_live (row : RunRow) (t : Z) : Prop :=
  match row.(r_lease_owner), row.(r_lease_expires_at) with
  | Some current, Some expiry => current ≠ "" ∧ (t < expiry)%Z
  | _, _ => False
  end.

#[global] Instance lease_live_dec row t : Decision (lease_live row t).
Proof. unfold lease_live. repeat case_match; apply _. Defined.

(** [_require_execution_context]. *)
Definition require_execution_context (t : Z) (run_id : string) (ctx : option ExecutionContext)
    : stx RunRow :=
  row ← require_run_row run_id;
  match ctx with
  | None =>
      require (¬ lease_live row t) LeaseConflictError;;
      mret row
  | Some c =>
      require (c.(ec_run_id) = run_id) LeaseConflictError;;
      require (holds_lease row c.(ec_worker_id) c.(ec_lease_epoch) t) LeaseConflictError;;
      require (row.(r_last_event_seq) = c.(ec_stream_version)) RunStateConflictError;;
      mret row
  end.

(** ** Control commands *)

Section control.
Context `{Platform}.

(** [_begin_control_command]: [Some replay] for a command already recorded. *)
Definition begin_control_command (run_id command_type : string) (semantic_payload : json)
    (cc : ControlCommandContext) : stx (option (option EventEnvelope)) :=
  let payload_sha256 := sha256_text (canonical_json semantic_payload) in
  existing ← gets (λ s, s.(control_commands) !! cc.(cc_command_id));
  match existing with
  | Some row =>
      require (row.(cm_run_id) = run_id ∧ row.(cm_command_type) = command_type
               ∧ row.(cm_actor) = cc.(cc_actor)
               ∧ row.(cm_payload_sha256) = payload_sha256) RunStateConflictError;;
      match row.(cm_committed_event_id) with
      | None => mret (Some None)
      | Some id =>
          event_row ← gets (event_by_id id);
          event_row ← lift_option LedgerIntegrityError event_row;
          e ← lift_result (event_from_row event_row);
          mret (Some (Some e))
      end
  | None =>
      run_row ← require_run_row run_id;
      require (run_row.(r_last_event_seq) = cc.(cc_expected_stream_version))
        RunStateConflictError;;
      mret None
  end.

(** [_record_control_command]. *)
Definition record_control_command (created_at : Z) (run_id command_type : string)
    (semantic_payload : json) (cc : ControlCommandContext) (event : option EventEnvelope)
    : stx unit :=
  insert_command cc.(cc_command_id)
    {| cm_run_id := run_id; cm_command_type := command_type; cm_actor := cc.(cc_actor);
       cm_expected_stream_version := cc.(cc_expected_stream_version);
       cm_payload_sha256 := sha256_text (canonical_json semantic_payload);
       cm_committed_event_id := event_id <$> event; cm_created_at := created_at |}.

(** [if control_context is not None: self._begin_control_command(...)]. *)
Definition begin_optional_command (run_id command_type : string) (semantic_payload : json)
    (cc : option ControlCommandContext) : stx (option (option EventEnvelope)) :=
  match cc with
  | None => mret None
  | Some c => begin_control_command run_id command_type semantic_payload c
  end.

(** [if control_context is not None: self._record_control_command(...)]. *)
Definition record_optional_command (created_at : Z) (run_id command_type : string)
    (semantic_payload : json) (cc : option ControlCommandContext)
    (event : option EventEnvelope) : stx unit :=
  match cc with
  | None => mret tt
  | Some c => record_control_command created_at run_id command_type semantic_payload c event
  end.
End control.
