(* ===== verification/Checkpoints.v ===== *)
(** * Checkpoints: recovery of a run's projection and checkpoint commits
    (src/forge_replay/persistence/store.py)

    A checkpoint is a disposable cache: recovery walks the run's checkpoints from the newest
    to the oldest, skips every one that fails validation or cannot be continued, and falls
    back to a replay of the whole stream. *)

From S2P Require Import Prelude Domain Platform Json Events Projection Tables Ledger ModelCalls Leases.

Record RecoveredRun := {
  rr_projection : RunProjection;
  rr_checkpoint_id : option string;
  rr_rejected_checkpoint_ids : list string;
}.

Record CheckpointRecord := {
  ck_checkpoint_id : string;
  ck_run_id : string;
  ck_through_seq : Z;
  ck_state_sha256 : string;
  ck_created_at : Z;
  ck_committed_event : EventEnvelope;
}.

(** [phase.value if phase else "terminal"]. *)
Definition phase_label (phase : option RunPhase.t) : string :=
  match phase with Some p => value p | None => "terminal" end.

Section checkpoints.
Context `{Platform}.

(** [_projection_from_checkpoint_row]. *)
Definition projection_from_checkpoint_row (cp : CheckpointRow) (run_id : string) (run_row : RunRow)
    : res RunProjection :=
  assert_result (sha256_text cp.(cp_snapshot_json) = cp.(cp_snapshot_sha256))
    LedgerIntegrityError;;
  assert_result (cp.(cp_state_version) = CHECKPOINT_STATE_VERSION) LedgerIntegrityError;;
  snapshot ← result_of_option PydanticValidationError (parse_snapshot cp.(cp_snapshot_json));
  assert_result (snapshot.(s_state_version) = cp.(cp_state_version)) LedgerIntegrityError;;
  assert_result (snapshot.(s_through_seq) = cp.(cp_through_seq)) LedgerIntegrityError;;
  assert_result (phase_label snapshot.(s_phase) = cp.(cp_phase)) LedgerIntegrityError;;
  assert_result (snapshot.(s_run_id) = run_id
                 ∧ snapshot.(s_session_id) = run_row.(r_session_id)
                 ∧ snapshot.(s_turn_id) = run_row.(r_turn_id)
                 ∧ snapshot.(s_base_repo_root) = run_row.(r_base_repo_root)
                 ∧ snapshot.(s_base_commit_sha) = run_row.(r_base_commit_sha))
    LedgerIntegrityError;;
  Ok (to_projection snapshot).

(** The checkpoints of a run, newest first. *)
Definition checkpoint_rows (run_id : string) (s : db) : list (string * CheckpointRow) :=
  order_by (λ kv : string * CheckpointRow, - kv.2.(cp_through_seq))%Z
    (select (λ _ c, bool_decide (c.(cp_run_id) = run_id)) s.(checkpoints)).

(** The body of the [try]: validate one checkpoint and replay the later events on it. *)
Definition try_checkpoint (run_id : string) (run_row : RunRow) (cp : CheckpointRow) (s : db)
    : res RunProjection :=
  p ← projection_from_checkpoint_row cp run_id run_row;
  later ← events_from_rows (run_rows run_id p.(p_last_event_seq) s);
  reduce_run_events later (Some p).

(** [except (LedgerIntegrityError, ValueError)]. *)
Definition caught (e : exn) : bool := is_LedgerIntegrityError e || is_ValueError e.

(** The loop over the checkpoints, with the identifiers rejected so far. *)
Fixpoint recover_loop (run_id : string) (run_row : RunRow) (rejected : list string)
    (rows : list (string * CheckpointRow)) (s : db) : res RecoveredRun :=
  match rows with
  | [] =>
      events ← events_from_rows (run_rows run_id 0 s);
      p ← reduce_run_events events None;
      Ok {| rr_projection := p; rr_checkpoint_id := None;
            rr_rejected_checkpoint_ids := rejected |}
  | (id, cp) :: rows' =>
      match try_checkpoint run_id run_row cp s with
      | Ok p => Ok {| rr_projection := p; rr_checkpoint_id := Some id;
                      rr_rejected_checkpoint_ids := rejected |}
      | Err e => if caught e then recover_loop run_id run_row (rejected ++ [id]) rows' s
                 else Err e
      end
  end.

(** [_recover_run_projection_in_transaction]. *)
Definition recover_in_tx (run_id : string) (run_row : RunRow) : stx RecoveredRun :=
  r ← gets (λ s, recover_loop run_id run_row [] (checkpoint_rows run_id s) s);
  lift_result r.

(** [recover_run_projection] and [get_run_projection]. *)
Definition recover_run_projection (run_id : string) : stx RecoveredRun :=
  run_row ← require_run_row run_id;
  recover_in_tx run_id run_row.

Definition get_run_projection (run_id : string) : stx RunProjection :=
  r ← recover_run_projection run_id;
  mret r.(rr_projection).

(** [latest_checkpoint_through_seq]. *)
Definition latest_checkpoint_through_seq (run_id : string) : stx Z :=
  recovered ← recover_run_projection run_id;
  match recovered.(rr_checkpoint_id) with
  | None => mret 0%Z
  | Some id =>
      row ← gets (λ s, s.(checkpoints) !! id);
      row ← lift_option TypeError row;
      mret row.(cp_through_seq)
  end.

(** [commit_run_checkpoint]. *)
Definition commit_run_checkpoint (o : oracle) (run_id checkpoint_id process_instance_id : string)
    (ctx : option ExecutionContext) : op CheckpointRecord :=
  require (blank checkpoint_id = false) ValueError;;
  row ← require_execution_context (o.(now) 0%nat) run_id ctx;
  recovered ← recover_in_tx run_id row;
  let projection := recovered.(rr_projection) in
  let snapshot_json := snapshot_text (from_projection projection) in
  let snapshot_sha256 := sha256_text snapshot_json in
  let created_at := o.(now) 1%nat in
  insert_checkpoint checkpoint_id
    {| cp_run_id := run_id; cp_through_seq := projection.(p_last_event_seq);
       cp_state_version := CHECKPOINT_STATE_VERSION;
       cp_phase := phase_label projection.(p_phase);
       cp_snapshot_json := snapshot_json; cp_snapshot_sha256 := snapshot_sha256;
       cp_created_at := created_at |};;
  e ← append_event_in_tx o 0 (run_event_args run_id row process_instance_id None
        (CheckpointCommittedPayload checkpoint_id projection.(p_last_event_seq) snapshot_sha256));
  update_run run_id (λ row, row <| r_last_event_seq := e.(seq) |>);;
  committed (Ok {| ck_checkpoint_id := checkpoint_id; ck_run_id := run_id;
                   ck_through_seq := projection.(p_last_event_seq);
                   ck_state_sha256 := snapshot_sha256; ck_created_at := created_at;
                   ck_committed_event := e |}) e.(seq).
End checkpoints.
