(* ===== verification/Runs.v ===== *)
(** * Runs: sessions, run creation, workspace, phases and termination
    (src/forge_replay/persistence/store.py)

    Each operation is one transaction: it reads the run's row through the fence, recovers
    the projection where the source does, appends its events and writes the row columns the
    events imply. *)

From S2P Require Import Prelude Domain Platform Json Events Projection Tables Ledger ModelCalls Leases.
From S2P Require Import Checkpoints.

Record CreatedRun := {
  cr_message_blob : StoredBlob;
  cr_user_message_event : EventEnvelope;
  cr_run_created_event : EventEnvelope;
  cr_phase_changed_event : EventEnvelope;
  cr_projection : RunProjection;
}.

Record RunWorkspaceRecord := {
  rw_run_id : string;
  rw_base_repo_root : string;
  rw_base_commit_sha : string;
  rw_worktree_path : option string;
  rw_worktree_branch : option string;
  rw_disposition : WorkspaceDisposition.t;
}.

Definition TEXT_MEDIA_TYPE : string := "text/plain; charset=utf-8".

(** [set_workspace_disposition]'s table of allowed transitions. *)
Definition allowed_dispositions (expected : WorkspaceDisposition.t) : list WorkspaceDisposition.t :=
  match expected with
  | WorkspaceDisposition.ACTIVE =>
      [WorkspaceDisposition.EXPORTED; WorkspaceDisposition.CLEANED;
       WorkspaceDisposition.PRESERVED; WorkspaceDisposition.QUARANTINED]
  | WorkspaceDisposition.EXPORTED =>
      [WorkspaceDisposition.CLEANED; WorkspaceDisposition.PRESERVED;
       WorkspaceDisposition.INTEGRATED]
  | WorkspaceDisposition.PRESERVED =>
      [WorkspaceDisposition.EXPORTED; WorkspaceDisposition.INTEGRATED;
       WorkspaceDisposition.QUARANTINED]
  | WorkspaceDisposition.ORPHANED => [WorkspaceDisposition.QUARANTINED]
  | _ => []
  end.

(** [terminate_run]'s set of allowed statuses. *)
Definition allowed_terminations : list ExecutionStatus.t :=
  [ExecutionStatus.FAILED; ExecutionStatus.CANCELLED; ExecutionStatus.BUDGET_EXCEEDED;
   ExecutionStatus.NEEDS_ATTENTION].

Section runs.
Context `{Platform}.

(** [create_session]. *)
Definition create_session (o : oracle) (session_id workspace_root : string) (config : json)
    (process_instance_id : string) : op EventEnvelope :=
  let config_json := canonical_json config in
  let root := path_resolve workspace_root in
  insert_session session_id
    {| ses_workspace_root := root; ses_created_at := o.(now) 0%nat; ses_status := "active";
       ses_next_seq := 1; ses_config_json := config_json; ses_last_event_id := None |};;
  e ← append_event_in_tx o 0
        {| ea_session_id := session_id; ea_process_instance_id := process_instance_id;
           ea_payload := SessionCreatedPayload root (sha256_text config_json);
           ea_turn_id := None; ea_run_id := None; ea_causation_event_id := None;
           ea_correlation_id := None |};
  returned (Ok e).

(** [put_blob]. *)
Definition put_blob (limits : BlobLimits) (o : oracle) (content media_type : string)
    : op StoredBlob :=
  blob ← put_blob_in_tx limits (o.(now) 0%nat) content media_type;
  returned (Ok blob).

(** [create_turn_and_run]. *)
Definition create_turn_and_run (limits : BlobLimits) (o : oracle)
    (session_id turn_id run_id user_message base_repo_root base_commit_sha : string)
    (budget_limits : gmap string Z) (process_instance_id : string) : op CreatedRun :=
  require (user_message ≠ "") ValueError;;
  require (blank base_commit_sha = false) ValueError;;
  let created_at := o.(now) 0%nat in
  let resolved_repo_root := path_resolve base_repo_root in
  message_blob ← put_blob_in_tx limits (o.(now) 1%nat) user_message TEXT_MEDIA_TYPE;
  user_event ← prepare_event o 0
    {| ea_session_id := session_id; ea_process_instance_id := process_instance_id;
       ea_payload := UserMessageReceivedPayload message_blob.(sb_sha256);
       ea_turn_id := Some turn_id; ea_run_id := None; ea_causation_event_id := None;
       ea_correlation_id := None |};
  insert_turn turn_id
    {| tu_session_id := session_id; tu_user_event_id := user_event.(event_id);
       tu_created_at := created_at; tu_status := "active"; tu_active_run_id := Some run_id |};;
  let row :=
    {| r_turn_id := turn_id; r_session_id := session_id;
       r_execution_status := ExecutionStatus.ACTIVE; r_phase := None;
       r_workspace_disposition := WorkspaceDisposition.NONE;
       r_base_repo_root := resolved_repo_root; r_base_commit_sha := base_commit_sha;
       r_worktree_path := None; r_worktree_branch := None; r_created_at := created_at;
       r_started_at := Some created_at; r_finished_at := None; r_last_event_seq := 0;
       r_lease_owner := None; r_lease_epoch := 0; r_lease_expires_at := None;
       r_cancel_requested_at := None; r_cancel_reason := None;
       r_budget_limits := budget_limits; r_budget_consumed := ∅;
       r_terminal_reason_json := None |} in
  insert_run run_id row;;
  insert_event user_event;;
  run_created_event ← append_event_in_tx o 1
    (run_event_args run_id row process_instance_id (Some user_event.(event_id))
       (RunCreatedPayload resolved_repo_root base_commit_sha budget_limits));
  phase_changed_event ← append_event_in_tx o 2
    (run_event_args run_id row process_instance_id (Some run_created_event.(event_id))
       (RunPhaseChangedPayload None RunPhase.PREFLIGHTING "run created"));
  update_run run_id (λ row, row <| r_phase := Some RunPhase.PREFLIGHTING |>
                                <| r_last_event_seq := phase_changed_event.(seq) |>);;
  returned (projection ← reduce_run_events [run_created_event; phase_changed_event] None;
            Ok {| cr_message_blob := message_blob; cr_user_message_event := user_event;
                  cr_run_created_event := run_created_event;
                  cr_phase_changed_event := phase_changed_event;
                  cr_projection := projection |}).

(** [get_run_workspace]. *)
Definition workspace_of_row (run_id : string) (row : RunRow) : RunWorkspaceRecord :=
  {| rw_run_id := run_id; rw_base_repo_root := row.(r_base_repo_root);
     rw_base_commit_sha := row.(r_base_commit_sha);
     rw_worktree_path := row.(r_worktree_path); rw_worktree_branch := row.(r_worktree_branch);
     rw_disposition := row.(r_workspace_disposition) |}.

Definition get_run_workspace (run_id : string) : stx RunWorkspaceRecord :=
  row ← require_run_row run_id;
  mret (workspace_of_row run_id row).

(** [get_run_user_message]. *)
Definition get_run_user_message (run_id : string) : stx string :=
  run_row ← require_run_row run_id;
  row ← gets (λ s, turn ← s.(turns) !! run_row.(r_turn_id); event_by_id turn.(tu_user_event_id) s);
  row ← lift_option LedgerIntegrityError row;
  e ← lift_result (event_from_row row);
  match e.(payload) with
  | UserMessageReceivedPayload message_blob_sha256 =>
      blob ← get_blob message_blob_sha256;
      mret blob.(sb_content)
  | _ => throw LedgerIntegrityError
  end.

(** [begin_workspace_provisioning]. *)
Definition begin_workspace_provisioning (o : oracle) (run_id : string) (dirty_mode : DirtyMode.t)
    (process_instance_id : string) (ctx : option ExecutionContext) : op (option EventEnvelope) :=
  row ← require_execution_context (o.(now) 0%nat) run_id ctx;
  recovered ← recover_in_tx run_id row;
  let projection := recovered.(rr_projection) in
  if decide (projection.(p_phase) = Some RunPhase.PROVISIONING) then returned (Ok None)
  else
    require (projection.(p_phase) = Some RunPhase.PREFLIGHTING) RunStateConflictError;;
    intent ← append_event_in_tx o 0 (run_event_args run_id row process_instance_id None
      (WorkspaceProvisioningStartedPayload row.(r_base_repo_root) row.(r_base_commit_sha)
         dirty_mode));
    phase_event ← append_event_in_tx o 1
      (run_event_args run_id row process_instance_id (Some intent.(event_id))
         (RunPhaseChangedPayload (Some RunPhase.PREFLIGHTING) RunPhase.PROVISIONING
            "workspace provisioning intent committed"));
    update_run run_id (λ row, row <| r_phase := Some RunPhase.PROVISIONING |>
                                  <| r_last_event_seq := phase_event.(seq) |>);;
    committed (Ok (Some intent)) phase_event.(seq).

(** [attach_provisioned_workspace]; an unresolvable path raises before the transaction. *)
Definition attach_provisioned_workspace (o : oracle)
    (run_id worktree_path branch base_commit_sha ownership_marker ownership_token
     process_instance_id : string) (ctx : option ExecutionContext) : op RunWorkspaceRecord :=
  resolved_worktree ← lift_option OSError (path_resolve_strict worktree_path);
  resolved_marker ← lift_option OSError (path_resolve_strict ownership_marker);
  row ← require_execution_context (o.(now) 0%nat) run_id ctx;
  require (row.(r_base_commit_sha) = base_commit_sha) RunStateConflictError;;
  match row.(r_worktree_path) with
  | Some current =>
      require (current = resolved_worktree) RunStateConflictError;;
      returned (Ok (workspace_of_row run_id row))
  | None =>
      recovered ← recover_in_tx run_id row;
      require (recovered.(rr_projection).(p_phase) = Some RunPhase.PROVISIONING)
        RunStateConflictError;;
      provisioned ← append_event_in_tx o 0 (run_event_args run_id row process_instance_id None
        (WorkspaceProvisionedPayload resolved_worktree branch resolved_marker
           (sha256_text ownership_token)));
      phase_event ← append_event_in_tx o 1
        (run_event_args run_id row process_instance_id (Some provisioned.(event_id))
           (RunPhaseChangedPayload (Some RunPhase.PROVISIONING) RunPhase.AWAITING_MODEL
              "owned worktree attached"));
      update_run run_id (λ row,
        row <| r_worktree_path := Some resolved_worktree |> <| r_worktree_branch := Some branch |>
            <| r_workspace_disposition := WorkspaceDisposition.ACTIVE |>
            <| r_phase := Some RunPhase.AWAITING_MODEL |>
            <| r_last_event_seq := phase_event.(seq) |>);;
      workspace ← get_run_workspace run_id;
      committed (Ok workspace) phase_event.(seq)
  end.

(** [set_workspace_disposition]. *)
Definition set_workspace_disposition (o : oracle) (run_id : string)
    (expected target : WorkspaceDisposition.t) (reason process_instance_id : string)
    : op RunWorkspaceRecord :=
  require (blank reason = false ∧ target ≠ expected) ValueError;;
  require (target ∈ allowed_dispositions expected) ValueError;;
  row ← require_run_row run_id;
  require (row.(r_workspace_disposition) = expected) RunStateConflictError;;
  e ← append_event_in_tx o 0 (run_event_args run_id row process_instance_id None
        (WorkspaceDispositionChangedPayload expected target reason));
  update_run run_id (λ row, row <| r_workspace_disposition := target |>
                                <| r_last_event_seq := e.(seq) |>);;
  workspace ← get_run_workspace run_id;
  returned (Ok workspace).

(** [transition_run_phase]. *)
Definition transition_run_phase (o : oracle) (run_id : string)
    (expected_previous_phase : option RunPhase.t) (next_phase : RunPhase.t)
    (reason process_instance_id : string) (ctx : option ExecutionContext) : op RunProjection :=
  require (blank reason = false) ValueError;;
  row ← require_execution_context (o.(now) 0%nat) run_id ctx;
  recovered ← recover_in_tx run_id row;
  let projection := recovered.(rr_projection) in
  require (projection.(p_execution_status) = ExecutionStatus.ACTIVE) RunStateConflictError;;
  require (projection.(p_phase) = expected_previous_phase) RunStateConflictError;;
  require (projection.(p_phase) ≠ Some next_phase) RunStateConflictError;;
  e ← append_event_in_tx o 0 (run_event_args run_id row process_instance_id None
        (RunPhaseChangedPayload projection.(p_phase) next_phase reason));
  update_run run_id (λ row, row <| r_phase := Some next_phase |>
                                <| r_last_event_seq := e.(seq) |>);;
  committed (Ok (with_seq e.(seq) (with_phase (Some next_phase) projection))) e.(seq).

(** [UPDATE turns SET status = 'completed', active_run_id = NULL]. *)
Definition complete_turn (turn_id : string) : stx unit :=
  update_turn turn_id (λ t, t <| tu_status := "completed" |> <| tu_active_run_id := None |>).

(** [replace(projection, execution_status=..., phase=None, last_event_seq=...)]. *)
Definition finished_projection (status : ExecutionStatus.t) (n : Z) (p : RunProjection)
    : RunProjection := with_seq n (with_phase None (with_status status p)).

(** [commit_final_answer]. *)
Definition commit_final_answer (o : oracle) (run_id response_event_id answer_blob_sha256 : string)
    (verification_status : VerificationStatus.t) (process_instance_id : string)
    (ctx : option ExecutionContext) : op RunProjection :=
  row ← require_execution_context (o.(now) 0%nat) run_id ctx;
  recovered ← recover_in_tx run_id row;
  let projection := recovered.(rr_projection) in
  require (projection.(p_execution_status) = ExecutionStatus.ACTIVE) RunStateConflictError;;
  answer_blob ← gets (λ s, s.(blobs) !! answer_blob_sha256);
  require (is_Some answer_blob) LedgerIntegrityError;;
  final_event ← append_event_in_tx o 0
    (run_event_args run_id row process_instance_id (Some response_event_id)
       (FinalAnswerCommittedPayload answer_blob_sha256));
  completed_event ← append_event_in_tx o 1
    (run_event_args run_id row process_instance_id (Some final_event.(event_id))
       (RunCompletedPayload verification_status));
  update_run run_id (λ row, row <| r_execution_status := ExecutionStatus.COMPLETED |>
                                <| r_phase := None |>
                                <| r_finished_at := Some (o.(now) 1%nat) |>
                                <| r_last_event_seq := completed_event.(seq) |>);;
  complete_turn row.(r_turn_id);;
  committed (Ok (finished_projection ExecutionStatus.COMPLETED completed_event.(seq) projection))
    completed_event.(seq).

(** [complete_run]. *)
Definition complete_run (o : oracle) (run_id : string)
    (verification_status : VerificationStatus.t) (process_instance_id : string)
    (ctx : option ExecutionContext) : op RunProjection :=
  row ← require_execution_context (o.(now) 0%nat) run_id ctx;
  recovered ← recover_in_tx run_id row;
  let projection := recovered.(rr_projection) in
  require (can_transition_execution projection.(p_execution_status) ExecutionStatus.COMPLETED = true
           ∧ projection.(p_execution_status) ≠ ExecutionStatus.COMPLETED) RunStateConflictError;;
  e ← append_event_in_tx o 0 (run_event_args run_id row process_instance_id None
        (RunCompletedPayload verification_status));
  update_run run_id (λ row, row <| r_execution_status := ExecutionStatus.COMPLETED |>
                                <| r_phase := None |>
                                <| r_finished_at := Some (o.(now) 1%nat) |>
                                <| r_last_event_seq := e.(seq) |>);;
  complete_turn row.(r_turn_id);;
  committed (Ok (finished_projection ExecutionStatus.COMPLETED e.(seq) projection)) e.(seq).

(** [terminate_run]. *)
Definition terminate_run (o : oracle) (run_id : string) (execution_status : ExecutionStatus.t)
    (reason process_instance_id : string) (ctx : option ExecutionContext) : op RunProjection :=
  require (execution_status ∈ allowed_terminations ∧ blank reason = false) ValueError;;
  row ← require_execution_context (o.(now) 0%nat) run_id ctx;
  recovered ← recover_in_tx run_id row;
  let projection := recovered.(rr_projection) in
  if decide (projection.(p_execution_status) ≠ ExecutionStatus.ACTIVE) then
    require (projection.(p_execution_status) = execution_status) RunStateConflictError;;
    returned (Ok projection)
  else
    e ← append_event_in_tx o 0 (run_event_args run_id row process_instance_id None
          (RunTerminatedPayload execution_status reason));
    let finished_at := if decide (execution_status = ExecutionStatus.NEEDS_ATTENTION) then None
                       else Some (o.(now) 1%nat) in
    update_run run_id (λ row,
      row <| r_execution_status := execution_status |> <| r_phase := None |>
          <| r_finished_at := finished_at |>
          <| r_terminal_reason_json := Some (canonical_json (JObj [("reason", JStr reason)])) |>
          <| r_last_event_seq := e.(seq) |>);;
    committed (Ok (finished_projection execution_status e.(seq) projection)) e.(seq).

(** [request_cancellation]. *)
Definition cancellation_payload (actor reason : string) : json :=
  JObj [("actor", JStr actor); ("reason", JStr reason)].

Definition request_cancellation (o : oracle) (run_id actor reason process_instance_id : string)
    (cc : option ControlCommandContext) : op (option EventEnvelope) :=
  require (blank actor = false ∧ blank reason = false) ValueError;;
  require (opt_ref (λ c, c.(cc_actor) = actor) cc) RunStateConflictError;;
  run_row ← require_run_row run_id;
  let semantic := cancellation_payload actor reason in
  replay ← begin_optional_command run_id "request_cancellation" semantic cc;
  match replay with
  | Some event => returned (Ok event)
  | None =>
      match run_row.(r_cancel_requested_at) with
      | Some _ =>
          record_optional_command (o.(now) 0%nat) run_id "request_cancellation" semantic cc None;;
          returned (Ok None)
      | None =>
          require (run_row.(r_execution_status) = ExecutionStatus.ACTIVE) RunStateConflictError;;
          e ← append_event_in_tx o 0 (run_event_args run_id run_row process_instance_id None
                (CancellationRequestedPayload actor reason));
          update_run run_id (λ row, row <| r_cancel_requested_at := Some e.(occurred_at) |>
                                        <| r_cancel_reason := Some reason |>
                                        <| r_last_event_seq := e.(seq) |>);;
          record_optional_command (o.(now) 0%nat) run_id "request_cancellation" semantic cc
            (Some e);;
          returned (Ok (Some e))
      end
  end.

(** [is_cancellation_requested]. *)
Definition is_cancellation_requested (run_id : string) : stx bool :=
  row ← require_run_row run_id;
  mret (bool_decide (is_Some row.(r_cancel_requested_at))).

(** [rebuild_run_projection]. *)
Definition rebuild_run_projection (o : oracle) (run_id process_instance_id : string)
    : op RunProjection :=
  row ← require_run_row run_id;
  let previous_state := business_state row.(r_execution_status) row.(r_phase)
                          row.(r_workspace_disposition) in
  loaded ← load_run_events_in_tx run_id 0;
  projection ← lift_result (reduce_run_events loaded None);
  update_run run_id (λ row,
    row <| r_execution_status := projection.(p_execution_status) |>
        <| r_phase := projection.(p_phase) |>
        <| r_workspace_disposition := projection.(p_workspace_disposition) |>
        <| r_last_event_seq := projection.(p_last_event_seq) |>);;
  let rebuilt_state := business_state projection.(p_execution_status) projection.(p_phase)
                         projection.(p_workspace_disposition) in
  audit_event ← append_event_in_tx o 0 (run_event_args run_id row process_instance_id None
    (ProjectionRebuiltPayload projection.(p_last_event_seq)
       (sha256_text (canonical_json previous_state))
       (sha256_text (canonical_json rebuilt_state))));
  update_run run_id (λ row, row <| r_last_event_seq := audit_event.(seq) |>);;
  returned (Ok (with_seq audit_event.(seq) projection)).

(** [append_event]; the two payloads with their own command are refused. *)
Definition domain_command_payload (p : RuntimeEventPayload) : bool :=
  match p with
  | ToolCallProposedPayload _ _ _ _ _ | RunCompletedPayload _ => true
  | _ => false
  end.

Definition append_event (o : oracle) (a : EventArgs) (ctx : option ExecutionContext)
    : op EventEnvelope :=
  require (domain_command_payload a.(ea_payload) = false) TypeError;;
  match a.(ea_run_id) with
  | Some run_id =>
      _ ← require_execution_context (o.(now) 0%nat) run_id ctx;
      e ← append_event_in_tx o 0 a;
      update_run run_id (λ row, row <| r_last_event_seq := e.(seq) |>);;
      committed (Ok e) e.(seq)
  | None =>
      e ← append_event_in_tx o 0 a;
      returned (Ok e)
  end.
End runs.
