(* ===== verification/Tools.v ===== *)
(** * Tools: tool proposals, approvals, dispatch and outcomes
    (src/forge_replay/persistence/store.py)

    A logical tool call is proposed from a model response, waits for an approval of its
    exact fingerprint unless it is pure, is dispatched by a durable intent and gets one
    outcome. Every command is idempotent: a repetition with the same meaning returns the
    record, one with another meaning is a conflict. *)

From S2P Require Import Prelude Domain Platform Json Events Projection ToolIdentity Tables Ledger ModelCalls.
From S2P Require Import Leases.

Record ToolCallRecord := {
  tr_tool_call_id : string;
  tr_run_id : string;
  tr_response_event_id : string;
  tr_ordinal : Z;
  tr_tool_name : string;
  tr_tool_version : string;
  tr_args_json : string;
  tr_args_sha256 : string;
  tr_approval_fingerprint : string;
  tr_effect_class : ToolEffectClass.t;
  tr_state : ToolCallState.t;
  tr_target_paths : list json;
  tr_policy_version : json;
  tr_action_plan : option json;
  tr_proposal_event : option EventEnvelope;
}.

Record ToolAttemptRecord := {
  at_attempt_id : string;
  at_tool_call_id : string;
  at_attempt_no : Z;
  at_state : ToolCallState.t;
  at_action_digest : option json;
  at_receipt : option json;
  at_output_blob_sha256 : option string;
  at_error : option json;
  at_event : option EventEnvelope;
}.

Record ApprovalRecord := {
  ar_approval_id : string;
  ar_run_id : string;
  ar_tool_call_id : string;
  ar_fingerprint : string;
  ar_policy : string;
  ar_decision : option ApprovalDecision.t;
  ar_requested_at : Z;
  ar_decided_at : option Z;
  ar_actor : option string;
  ar_reason : option string;
  ar_event : option EventEnvelope;
}.

(** The outcome literals of [finish_tool_attempt]. *)
Module AttemptOutcome.
Inductive t := SUCCEEDED | FAILED | UNCERTAIN.
#[global] Instance eq_dec : EqDecision t.
Proof. solve_decision. Defined.
End AttemptOutcome.

(** [ToolCallState(outcome)]. *)
Definition outcome_state (out : AttemptOutcome.t) : ToolCallState.t :=
  match out with
  | AttemptOutcome.SUCCEEDED => ToolCallState.SUCCEEDED
  | AttemptOutcome.FAILED => ToolCallState.FAILED
  | AttemptOutcome.UNCERTAIN => ToolCallState.UNCERTAIN
  end.

(** The arguments of [propose_tool_call] that describe the call. *)
Record Proposal := {
  pr_response_event_id : string;
  pr_ordinal : Z;
  pr_tool_name : string;
  pr_tool_version : string;
  pr_args : list (pyval * pyval);
  pr_effect_class : ToolEffectClass.t;
  pr_target_paths : list string;
  pr_policy_version : string;
}.

Definition TOOL_CALL_SUBJECT : string := "tool_call".

Section tools.
Context `{Platform}.

(** [json.loads(text or "{}")], used as a dictionary. *)
Definition loads_dict (text : option string) : res (list (string * json)) :=
  match text with
  | None | Some EmptyString => Ok []
  | Some t =>
      j ← result_of_option ValueError (json_loads t);
      match j with JObj d => Ok d | _ => Err AttributeError end
  end.

(** [json.loads(text) if text else None]. *)
Definition loads_opt (text : option string) : res (option json) :=
  match text with
  | None | Some EmptyString => Ok None
  | Some t => Some <$> result_of_option ValueError (json_loads t)
  end.

(** ** Records from rows *)

(** [_tool_call_from_row]. *)
Definition tool_call_from_row (id : string) (row : ToolCallRow)
    (proposal_event : option EventEnvelope) : res ToolCallRecord :=
  assert_result (sha256_text row.(tc_args_json) = row.(tc_args_sha256)) LedgerIntegrityError;;
  identity ← loads_dict row.(tc_precondition_json);
  target_paths ← match dict_get "target_paths" identity with
                 | None => Ok []
                 | Some (JArr l) => Ok l
                 | Some _ => Err TypeError
                 end;
  Ok {| tr_tool_call_id := id; tr_run_id := row.(tc_run_id);
        tr_response_event_id := row.(tc_response_event_id); tr_ordinal := row.(tc_ordinal);
        tr_tool_name := row.(tc_tool_name); tr_tool_version := row.(tc_tool_version);
        tr_args_json := row.(tc_args_json); tr_args_sha256 := row.(tc_args_sha256);
        tr_approval_fingerprint := row.(tc_approval_fingerprint);
        tr_effect_class := row.(tc_effect_class); tr_state := row.(tc_state);
        tr_target_paths := target_paths;
        tr_policy_version := default (JStr "") (dict_get "policy_version" identity);
        tr_action_plan := dict_get "action_plan" identity;
        tr_proposal_event := proposal_event |}.

(** [_tool_attempt_from_row]. *)
Definition tool_attempt_from_row (id : string) (row : ToolAttemptRow)
    (event : option EventEnvelope) : res ToolAttemptRecord :=
  executor ← loads_dict row.(ta_executor_identity_json);
  receipt ← loads_opt row.(ta_receipt_json);
  error ← loads_opt row.(ta_error_json);
  Ok {| at_attempt_id := id; at_tool_call_id := row.(ta_tool_call_id);
        at_attempt_no := row.(ta_attempt_no); at_state := row.(ta_state);
        at_action_digest := dict_get "action_digest" executor; at_receipt := receipt;
        at_output_blob_sha256 := row.(ta_output_blob_sha256); at_error := error;
        at_event := event |}.

(** [_approval_from_row]. *)
Definition approval_from_row (id : string) (row : ApprovalRow) (event : option EventEnvelope)
    : ApprovalRecord :=
  {| ar_approval_id := id; ar_run_id := row.(ap_run_id); ar_tool_call_id := row.(ap_subject_id);
     ar_fingerprint := row.(ap_fingerprint); ar_policy := row.(ap_policy);
     ar_decision := row.(ap_decision); ar_requested_at := row.(ap_requested_at);
     ar_decided_at := row.(ap_decided_at); ar_actor := row.(ap_actor);
     ar_reason := row.(ap_reason); ar_event := event |}.

(** ** Proposals *)

(** The fingerprint input of a proposal for a given call identifier. *)
Definition proposal_input (run_id : string) (run_row : RunRow) (p : Proposal)
    (args_sha256 : string) (targets : list string) (tool_call_id : string)
    : ApprovalFingerprintInput :=
  {| fi_run_id := run_id; fi_tool_call_id := tool_call_id; fi_tool_name := p.(pr_tool_name);
     fi_tool_version := p.(pr_tool_version); fi_args_sha256 := args_sha256;
     fi_effect_class := p.(pr_effect_class); fi_base_repo_root := run_row.(r_base_repo_root);
     fi_base_commit_sha := run_row.(r_base_commit_sha);
     fi_worktree_path := run_row.(r_worktree_path); fi_target_paths := targets;
     fi_policy_version := p.(pr_policy_version) |}.

(** The row already recorded for this run, response and ordinal. *)
Definition existing_proposal (run_id : string) (p : Proposal) (s : db)
    : option (string * ToolCallRow) :=
  head (select (λ _ t, bool_decide (t.(tc_run_id) = run_id
          ∧ t.(tc_response_event_id) = p.(pr_response_event_id)
          ∧ t.(tc_ordinal) = p.(pr_ordinal))) s.(tool_calls)).

(** [propose_tool_call]. *)
Definition propose_tool_call (o : oracle) (rid : string) (p : Proposal)
    (process_instance_id : string) (ctx : option ExecutionContext) : op ToolCallRecord :=
  require (0 ≤ p.(pr_ordinal))%Z ValueError;;
  require (blank p.(pr_tool_name) = false ∧ blank p.(pr_tool_version) = false) ValueError;;
  canonical_args ← lift_result (canonicalize_tool_args p.(pr_args));
  targets ← lift_result (normalize_targets p.(pr_target_paths));
  run_row ← require_execution_context (o.(now) 0%nat) rid ctx;
  require (run_row.(r_execution_status) = ExecutionStatus.ACTIVE) RunStateConflictError;;
  response_row ← gets (event_by_id p.(pr_response_event_id));
  response_row ← lift_option ToolCallConflictError response_row;
  response_event ← lift_result (event_from_row response_row);
  require (response_event.(run_id) = Some rid
           ∧ is_model_response response_event.(payload) = true) ToolCallConflictError;;
  existing ← gets (existing_proposal rid p);
  let input := proposal_input rid run_row p canonical_args.(cta_sha256) targets in
  match existing with
  | Some (tool_call_id, row) =>
      record ← lift_result (tool_call_from_row tool_call_id row None);
      expected_fingerprint ← lift_result (build_approval_fingerprint (input tool_call_id));
      require (record.(tr_tool_name) = p.(pr_tool_name)
               ∧ record.(tr_tool_version) = p.(pr_tool_version)
               ∧ record.(tr_args_json) = canonical_args.(cta_json)
               ∧ record.(tr_effect_class) = p.(pr_effect_class)
               ∧ record.(tr_target_paths) = map JStr targets
               ∧ record.(tr_policy_version) = JStr p.(pr_policy_version)
               ∧ record.(tr_approval_fingerprint) = expected_fingerprint)
        ToolCallConflictError;;
      returned (Ok record)
  | None =>
      let tool_call_id := o.(new_id) 0%nat in
      approval_fingerprint ← lift_result (build_approval_fingerprint (input tool_call_id));
      let identity_json := canonical_json
        (JObj [("policy_version", JStr p.(pr_policy_version));
               ("target_paths", JArr (map JStr targets))]) in
      let initial_state := if decide (p.(pr_effect_class) = ToolEffectClass.PURE)
                           then ToolCallState.READY else ToolCallState.PROPOSED in
      insert_tool_call tool_call_id
        {| tc_run_id := rid; tc_response_event_id := p.(pr_response_event_id);
           tc_ordinal := p.(pr_ordinal); tc_tool_name := p.(pr_tool_name);
           tc_tool_version := p.(pr_tool_version); tc_args_json := canonical_args.(cta_json);
           tc_args_sha256 := canonical_args.(cta_sha256);
           tc_approval_fingerprint := approval_fingerprint;
           tc_effect_class := p.(pr_effect_class); tc_state := initial_state;
           tc_precondition_json := Some identity_json; tc_final_output_blob_sha256 := None;
           tc_final_error_json := None |};;
      proposal_event ← append_event_in_tx o 0
        (run_event_args rid run_row process_instance_id (Some p.(pr_response_event_id))
           (ToolCallProposedPayload tool_call_id p.(pr_tool_name) p.(pr_tool_version)
              canonical_args.(cta_sha256) p.(pr_effect_class)));
      update_run rid (λ row, row <| r_last_event_seq := proposal_event.(seq) |>);;
      row ← gets (λ s, s.(tool_calls) !! tool_call_id);
      row ← lift_option TypeError row;
      committed (tool_call_from_row tool_call_id row (Some proposal_event)) proposal_event.(seq)
  end.

(** ** Approvals *)

(** [request_tool_approval]. *)
Definition request_tool_approval (o : oracle) (tool_call_id policy process_instance_id : string)
    (ctx : option ExecutionContext) : op ApprovalRecord :=
  require (blank policy = false) ValueError;;
  tool_row ← gets (λ s, s.(tool_calls) !! tool_call_id);
  tool_row ← lift_option ToolCallConflictError tool_row;
  let run_id := tool_row.(tc_run_id) in
  run_row ← require_execution_context (o.(now) 0%nat) run_id ctx;
  existing ← gets (λ s, head (select (λ _ a, bool_decide (a.(ap_run_id) = run_id
      ∧ a.(ap_subject_type) = TOOL_CALL_SUBJECT ∧ a.(ap_subject_id) = tool_call_id
      ∧ a.(ap_fingerprint) = tool_row.(tc_approval_fingerprint))) s.(approvals)));
  match existing with
  | Some (approval_id, row) => returned (Ok (approval_from_row approval_id row None))
  | None =>
      require (tool_row.(tc_state) = ToolCallState.PROPOSED) ApprovalConflictError;;
      let approval_id := o.(new_id) 0%nat in
      insert_approval approval_id
        {| ap_run_id := run_id; ap_subject_type := TOOL_CALL_SUBJECT;
           ap_subject_id := tool_call_id; ap_fingerprint := tool_row.(tc_approval_fingerprint);
           ap_policy := policy; ap_decision := None; ap_requested_at := o.(now) 1%nat;
           ap_decided_at := None; ap_actor := None; ap_reason := None |};;
      update_tool_call tool_call_id (λ t, t <| tc_state := ToolCallState.WAITING_APPROVAL |>);;
      e ← append_event_in_tx o 0 (run_event_args run_id run_row process_instance_id None
            (ApprovalRequestedPayload approval_id tool_call_id
               tool_row.(tc_approval_fingerprint) policy));
      update_run run_id (λ row, row <| r_last_event_seq := e.(seq) |>);;
      row ← gets (λ s, s.(approvals) !! approval_id);
      row ← lift_option TypeError row;
      committed (Ok (approval_from_row approval_id row (Some e))) e.(seq)
  end.

(** The semantic payload of an approval decision. *)
Definition decision_payload (approval_id expected_fingerprint : string)
    (decision : ApprovalDecision.t) (reason : string) : json :=
  JObj [("approval_id", JStr approval_id); ("expected_fingerprint", JStr expected_fingerprint);
        ("decision", enum_json decision); ("reason", JStr reason)].

(** [if execution_context is not None: self._require_execution_context(...)]. *)
Definition require_optional_context (t : Z) (run_id : string) (ctx : option ExecutionContext)
    : stx unit :=
  match ctx with
  | None => mret tt
  | Some c => _ ← require_execution_context t run_id (Some c); mret tt
  end.

(** The part of [decide_tool_approval] that commits a first decision. *)
Definition commit_decision (o : oracle) (approval_id : string) (approval_row : ApprovalRow)
    (expected_fingerprint : string) (decision : ApprovalDecision.t)
    (actor reason process_instance_id : string) (cc : option ControlCommandContext)
    : op ApprovalRecord :=
  let tool_call_id := approval_row.(ap_subject_id) in
  let run_id := approval_row.(ap_run_id) in
  tool_row ← gets (λ s, s.(tool_calls) !! tool_call_id);
  tool_row ← lift_option ApprovalConflictError tool_row;
  require (tool_row.(tc_approval_fingerprint) = expected_fingerprint) ApprovalConflictError;;
  require (tool_row.(tc_state) = ToolCallState.WAITING_APPROVAL) ApprovalConflictError;;
  let next_state := if decide (decision = ApprovalDecision.ALLOW_ONCE)
                    then ToolCallState.READY else ToolCallState.DENIED in
  update_approval approval_id (λ a, a <| ap_decision := Some decision |>
                                      <| ap_decided_at := Some (o.(now) 1%nat) |>
                                      <| ap_actor := Some actor |>
                                      <| ap_reason := Some reason |>);;
  update_tool_call tool_call_id (λ t, t <| tc_state := next_state |>);;
  run_row ← require_run_row run_id;
  e ← append_event_in_tx o 0 (run_event_args run_id run_row process_instance_id None
        (ApprovalDecidedPayload approval_id tool_call_id expected_fingerprint
           (value decision) actor));
  update_run run_id (λ row, row <| r_last_event_seq := e.(seq) |>);;
  row ← gets (λ s, s.(approvals) !! approval_id);
  row ← lift_option TypeError row;
  record_optional_command (o.(now) 2%nat) run_id "decide_tool_approval"
    (decision_payload approval_id expected_fingerprint decision reason) cc (Some e);;
  committed (Ok (approval_from_row approval_id row (Some e))) e.(seq).

(** [decide_tool_approval]. *)
Definition decide_tool_approval (o : oracle) (approval_id expected_fingerprint : string)
    (decision : ApprovalDecision.t) (actor reason process_instance_id : string)
    (ctx : option ExecutionContext) (cc : option ControlCommandContext) : op ApprovalRecord :=
  require (decision ≠ ApprovalDecision.ALLOW_RUN_SCOPE) ApprovalConflictError;;
  require (blank actor = false ∧ blank reason = false) ValueError;;
  require (opt_ref (λ c, c.(cc_actor) = actor) cc) ApprovalConflictError;;
  approval_row ← gets (λ s, s.(approvals) !! approval_id);
  approval_row ← lift_option ApprovalConflictError approval_row;
  let run_id := approval_row.(ap_run_id) in
  let semantic := decision_payload approval_id expected_fingerprint decision reason in
  replay ← begin_optional_command run_id "decide_tool_approval" semantic cc;
  match replay with
  | Some event => returned (Ok (approval_from_row approval_id approval_row event))
  | None =>
      require_optional_context (o.(now) 0%nat) run_id ctx;;
      require (approval_row.(ap_fingerprint) = expected_fingerprint) ApprovalConflictError;;
      match approval_row.(ap_decision) with
      | Some existing_decision =>
          require (existing_decision = decision) ApprovalConflictError;;
          record_optional_command (o.(now) 2%nat) run_id "decide_tool_approval" semantic cc None;;
          returned (Ok (approval_from_row approval_id approval_row None))
      | None =>
          commit_decision o approval_id approval_row expected_fingerprint decision actor reason
            process_instance_id cc
      end
  end.

(** ** Dispatch and outcome *)

(** [SELECT COALESCE(MAX(attempt_no), 0) + 1]. *)
Definition next_attempt_no (tool_call_id : string) (s : db) : Z :=
  (default 0 (max_of (λ kv : string * ToolAttemptRow, kv.2.(ta_attempt_no))
    (select (λ _ t, bool_decide (t.(ta_tool_call_id) = tool_call_id)) s.(tool_attempts))) + 1)%Z.

(** [dispatch_tool_call]; [attempt_id] is drawn when the caller gives none. *)
Definition dispatch_tool_call (o : oracle) (tool_call_id : string) (action_plan : json)
    (executor_identity : list (string * json)) (process_instance_id : string)
    (attempt_id : option string) (ctx : option ExecutionContext) : op ToolAttemptRecord :=
  let action_digest := sha256_text (canonical_json action_plan) in
  let attempt_id := match attempt_id with
                    | Some id => if decide (id = "") then o.(new_id) 0%nat else id
                    | None => o.(new_id) 0%nat
                    end in
  tool_row ← gets (λ s, s.(tool_calls) !! tool_call_id);
  tool_row ← lift_option ToolCallConflictError tool_row;
  existing ← gets (λ s, s.(tool_attempts) !! attempt_id);
  match existing with
  | Some row =>
      record ← lift_result (tool_attempt_from_row attempt_id row None);
      require (record.(at_tool_call_id) = tool_call_id
               ∧ record.(at_action_digest) = Some (JStr action_digest)) ToolCallConflictError;;
      returned (Ok record)
  | None =>
      require (tool_row.(tc_state) = ToolCallState.READY) ToolCallConflictError;;
      let run_id := tool_row.(tc_run_id) in
      run_row ← require_execution_context (o.(now) 0%nat) run_id ctx;
      require (run_row.(r_cancel_requested_at) = None) ToolCallConflictError;;
      attempt_no ← gets (next_attempt_no tool_call_id);
      precondition ← lift_result (loads_dict tool_row.(tc_precondition_json));
      let precondition := dict_set "action_plan" action_plan precondition in
      let dispatch_identity := dict_set "action_digest" (JStr action_digest) executor_identity in
      insert_tool_attempt attempt_id
        {| ta_tool_call_id := tool_call_id; ta_attempt_no := attempt_no;
           ta_state := ToolCallState.DISPATCHED;
           ta_executor_identity_json := Some (canonical_json (JObj dispatch_identity));
           ta_dispatched_at := Some (o.(now) 1%nat); ta_completed_at := None;
           ta_receipt_json := None; ta_output_blob_sha256 := None; ta_error_json := None |};;
      update_tool_call tool_call_id (λ t,
        t <| tc_state := ToolCallState.DISPATCHED |>
          <| tc_precondition_json := Some (canonical_json (JObj precondition)) |>);;
      e ← append_event_in_tx o 0 (run_event_args run_id run_row process_instance_id None
            (ToolExecutionDispatchedPayload tool_call_id attempt_id attempt_no action_digest));
      update_run run_id (λ row, row <| r_last_event_seq := e.(seq) |>);;
      row ← gets (λ s, s.(tool_attempts) !! attempt_id);
      row ← lift_option TypeError row;
      committed (tool_attempt_from_row attempt_id row (Some e)) e.(seq)
  end.

(** [(error or {}).get(key, default)] where the event field is a string. *)
Definition error_field (error : option (list (string * json))) (key dflt : string) : res string :=
  match dict_get key (default [] error) with
  | None => Ok dflt
  | Some (JStr s) => Ok s
  | Some _ => Err PydanticValidationError
  end.

(** The payload [finish_tool_attempt] commits. *)
Definition outcome_payload (out : AttemptOutcome.t) (tool_call_id attempt_id : string)
    (receipt_json : option string) (output_blob_sha256 : option string)
    (error : option (list (string * json))) (retryable : bool) : res RuntimeEventPayload :=
  match out with
  | AttemptOutcome.SUCCEEDED =>
      receipt_json ← result_of_option LedgerIntegrityError receipt_json;
      Ok (ToolExecutionSucceededPayload tool_call_id attempt_id (sha256_text receipt_json)
            output_blob_sha256 false)
  | AttemptOutcome.FAILED =>
      c ← error_field error "class" "ToolError";
      Ok (ToolExecutionFailedPayload tool_call_id attempt_id c retryable)
  | AttemptOutcome.UNCERTAIN =>
      ev ← error_field error "evidence" "outcome could not be proven";
      Ok (ToolExecutionUncertainPayload tool_call_id attempt_id ev)
  end.

(** [if output is not None: ... self._put_blob_in_transaction(...)]. *)
Definition put_optional_blob (limits : BlobLimits) (created_at : Z) (output : option string)
    (media_type : string) : stx (option string) :=
  match output with
  | None => mret None
  | Some raw => b ← put_blob_in_tx limits created_at raw media_type; mret (Some b.(sb_sha256))
  end.

(** [finish_tool_attempt]. *)
Definition finish_tool_attempt (limits : BlobLimits) (o : oracle) (attempt_id : string)
    (out : AttemptOutcome.t) (process_instance_id : string)
    (receipt : option (list (string * json))) (output : option string)
    (output_media_type : string) (error : option (list (string * json))) (retryable : bool)
    (ctx : option ExecutionContext) : op ToolAttemptRecord :=
  require (out = AttemptOutcome.SUCCEEDED → is_Some receipt) ValueError;;
  attempt_row ← gets (λ s, s.(tool_attempts) !! attempt_id);
  attempt_row ← lift_option ToolCallConflictError attempt_row;
  existing ← lift_result (tool_attempt_from_row attempt_id attempt_row None);
  let target_state := outcome_state out in
  if decide (existing.(at_state) ≠ ToolCallState.DISPATCHED) then
    require (existing.(at_state) = target_state) ToolCallConflictError;;
    returned (Ok existing)
  else
    let tool_call_id := existing.(at_tool_call_id) in
    tool_row ← gets (λ s, s.(tool_calls) !! tool_call_id);
    tool_row ← lift_option TypeError tool_row;
    let run_id := tool_row.(tc_run_id) in
    run_row ← require_execution_context (o.(now) 0%nat) run_id ctx;
    output_sha ← put_optional_blob limits (o.(now) 1%nat) output output_media_type;
    let receipt_json := (λ d, canonical_json (JObj d)) <$> receipt in
    let error_json := (λ d, canonical_json (JObj d)) <$> error in
    update_tool_attempt attempt_id (λ t,
      t <| ta_state := target_state |> <| ta_completed_at := Some (o.(now) 2%nat) |>
        <| ta_receipt_json := receipt_json |> <| ta_output_blob_sha256 := output_sha |>
        <| ta_error_json := error_json |>);;
    update_tool_call tool_call_id (λ t,
      t <| tc_state := target_state |> <| tc_final_output_blob_sha256 := output_sha |>
        <| tc_final_error_json := error_json |>);;
    payload ← lift_result (outcome_payload out tool_call_id attempt_id receipt_json output_sha
                             error retryable);
    e ← append_event_in_tx o 0 (run_event_args run_id run_row process_instance_id None payload);
    update_run run_id (λ row, row <| r_last_event_seq := e.(seq) |>);;
    row ← gets (λ s, s.(tool_attempts) !! attempt_id);
    row ← lift_option TypeError row;
    committed (tool_attempt_from_row attempt_id row (Some e)) e.(seq).

(** ** Readers *)

Definition get_tool_call (tool_call_id : string) : stx ToolCallRecord :=
  row ← gets (λ s, s.(tool_calls) !! tool_call_id);
  row ← lift_option ToolCallConflictError row;
  lift_result (tool_call_from_row tool_call_id row None).

Definition get_tool_attempt (attempt_id : string) : stx ToolAttemptRecord :=
  row ← gets (λ s, s.(tool_attempts) !! attempt_id);
  row ← lift_option ToolCallConflictError row;
  lift_result (tool_attempt_from_row attempt_id row None).

Fixpoint attempts_from_rows (rows : list (string * ToolAttemptRow)) : res (list ToolAttemptRecord) :=
  match rows with
  | [] => Ok []
  | (id, row) :: rows' =>
      r ← tool_attempt_from_row id row None; rs ← attempts_from_rows rows'; Ok (r :: rs)
  end.

(** [list_dispatched_attempts]: NULL time stamps sort first. *)
Definition list_dispatched_attempts (run_id : string) : stx (list ToolAttemptRecord) :=
  rows ← gets (λ s, order_by (λ kv : string * ToolAttemptRow, default (-1) kv.2.(ta_dispatched_at))%Z
    (select (λ _ t, bool_decide (t.(ta_state) = ToolCallState.DISPATCHED
       ∧ tc_run_id <$> s.(tool_calls) !! t.(ta_tool_call_id) = Some run_id)) s.(tool_attempts)));
  lift_result (attempts_from_rows rows).

(** [get_dispatched_attempt]. *)
Definition dispatched_rows (tool_call_id : string) (s : db) : list (string * ToolAttemptRow) :=
  select (λ _ t, bool_decide (t.(ta_tool_call_id) = tool_call_id
                              ∧ t.(ta_state) = ToolCallState.DISPATCHED)) s.(tool_attempts).

Definition get_dispatched_attempt (tool_call_id : string) : stx (option ToolAttemptRecord) :=
  rows ← gets (dispatched_rows tool_call_id);
  match rows with
  | [] => mret None
  | [(id, row)] => r ← lift_result (tool_attempt_from_row id row None); mret (Some r)
  | _ => throw LedgerIntegrityError
  end.

Definition get_approval (approval_id : string) : stx ApprovalRecord :=
  row ← gets (λ s, s.(approvals) !! approval_id);
  row ← lift_option ApprovalConflictError row;
  mret (approval_from_row approval_id row None).

(** [get_pending_approval_for_tool]: the latest request without a decision. *)
Definition get_pending_approval_for_tool (tool_call_id : string) : stx (option ApprovalRecord) :=
  rows ← gets (λ s, order_by (λ kv : string * ApprovalRow, - kv.2.(ap_requested_at))%Z
    (select (λ _ a, bool_decide (a.(ap_subject_type) = TOOL_CALL_SUBJECT
       ∧ a.(ap_subject_id) = tool_call_id ∧ a.(ap_decision) = None)) s.(approvals)));
  mret ((λ kv, approval_from_row kv.1 kv.2 None) <$> head rows).

(** [get_unfinished_tool_call]. *)
Definition unfinished_rows (run_id : string) (s : db) : list (string * ToolCallRow) :=
  select (λ _ t, bool_decide (t.(tc_run_id) = run_id
    ∧ t.(tc_state) ∈ [ToolCallState.PROPOSED; ToolCallState.WAITING_APPROVAL;
                      ToolCallState.READY; ToolCallState.DISPATCHED])) s.(tool_calls).

Definition get_unfinished_tool_call (rid : string) : stx (option ToolCallRecord) :=
  _ ← require_run_row rid;
  rows ← gets (unfinished_rows rid);
  match rows with
  | [] => mret None
  | [(id, row)] =>
      response_row ← gets (event_by_id row.(tc_response_event_id));
      response_row ← lift_option LedgerIntegrityError response_row;
      response ← lift_result (event_from_row response_row);
      require (response.(run_id) = Some rid ∧ is_model_response response.(payload) = true)
        LedgerIntegrityError;;
      r ← lift_result (tool_call_from_row id row None);
      mret (Some r)
  | _ => throw LedgerIntegrityError
  end.
End tools.
