(* ===== verification/Budget.v ===== *)
(** * Budget: reservations and settlements (src/forge_replay/persistence/store.py)

    Amounts are Python ints. Capacity is reserved before an external action and settled
    once; the totals consumed so far live in the run's row. *)

From S2P Require Import Prelude Domain Platform Json Events Projection Tables Ledger ModelCalls Leases.

Record BudgetReservationRecord := {
  bb_reservation_id : string;
  bb_run_id : string;
  bb_category : string;
  bb_reserved : Z;
  bb_consumed : option Z;
  bb_state : ReservationState.t;
  bb_event : option EventEnvelope;
}.

(** [_budget_reservation_from_row]. *)
Definition budget_reservation_from_row (id : string) (row : ReservationRow)
    (event : option EventEnvelope) : BudgetReservationRecord :=
  {| bb_reservation_id := id; bb_run_id := row.(br_run_id); bb_category := row.(br_category);
     bb_reserved := row.(br_reserved); bb_consumed := row.(br_consumed);
     bb_state := row.(br_state); bb_event := event |}.

(** The open reservations of a run in a category. *)
Definition is_outstanding (run_id category : string) (row : ReservationRow) : bool :=
  bool_decide (row.(br_run_id) = run_id ∧ row.(br_category) = category
               ∧ row.(br_state) = ReservationState.RESERVED).

(** [sum(... for row in outstanding_rows)]. *)
Definition outstanding (run_id category : string) (s : db) : Z :=
  sum_of (λ kv : string * ReservationRow, kv.2.(br_reserved))
    (select (λ _ row, is_outstanding run_id category row) s.(budget_reservations)).

Section budget.
Context `{Platform}.

(** [reserve_budget]. *)
Definition reserve_budget (o : oracle) (run_id reservation_id category : string) (amount : Z)
    (process_instance_id : string) (ctx : option ExecutionContext) : op BudgetReservationRecord :=
  require (blank category = false ∧ blank reservation_id = false) ValueError;;
  require (0 < amount)%Z ValueError;;
  run_row ← require_execution_context (o.(now) 0%nat) run_id ctx;
  existing ← gets (λ s, s.(budget_reservations) !! reservation_id);
  match existing with
  | Some row =>
      let record := budget_reservation_from_row reservation_id row None in
      require (record.(bb_run_id) = run_id ∧ record.(bb_category) = category
               ∧ record.(bb_reserved) = amount) BudgetLimitError;;
      returned (Ok record)
  | None =>
      limit ← lift_option BudgetLimitError (run_row.(r_budget_limits) !! category);
      let consumed := default 0%Z (run_row.(r_budget_consumed) !! category) in
      open ← gets (outstanding run_id category);
      require (consumed + open + amount ≤ limit)%Z BudgetLimitError;;
      insert_reservation reservation_id
        {| br_run_id := run_id; br_category := category; br_reserved := amount;
           br_consumed := None; br_state := ReservationState.RESERVED;
           br_created_at := o.(now) 1%nat; br_settled_at := None |};;
      e ← append_event_in_tx o 0 (run_event_args run_id run_row process_instance_id None
            (BudgetReservedPayload reservation_id category amount));
      update_run run_id (λ row, row <| r_last_event_seq := e.(seq) |>);;
      row ← gets (λ s, s.(budget_reservations) !! reservation_id);
      row ← lift_option TypeError row;
      committed (Ok (budget_reservation_from_row reservation_id row (Some e))) e.(seq)
  end.

(** [settle_budget]. *)
Definition settle_budget (o : oracle) (reservation_id : string) (consumed : Z)
    (process_instance_id : string) (ctx : option ExecutionContext) : op BudgetReservationRecord :=
  require (0 ≤ consumed)%Z ValueError;;
  reservation_row ← gets (λ s, s.(budget_reservations) !! reservation_id);
  reservation_row ← lift_option BudgetLimitError reservation_row;
  let record := budget_reservation_from_row reservation_id reservation_row None in
  let run_id := record.(bb_run_id) in
  run_row ← require_execution_context (o.(now) 0%nat) run_id ctx;
  match record.(bb_state) with
  | ReservationState.SETTLED =>
      require (record.(bb_consumed) = Some consumed) BudgetLimitError;;
      returned (Ok record)
  | ReservationState.RESERVED =>
      require (consumed ≤ record.(bb_reserved))%Z BudgetLimitError;;
      let totals := run_row.(r_budget_consumed) in
      let totals := <[record.(bb_category) :=
                        (default 0 (totals !! record.(bb_category)) + consumed)%Z]> totals in
      update_reservation reservation_id (λ r,
        r <| br_consumed := Some consumed |> <| br_state := ReservationState.SETTLED |>
          <| br_settled_at := Some (o.(now) 1%nat) |>);;
      e ← append_event_in_tx o 0 (run_event_args run_id run_row process_instance_id None
            (BudgetSettledPayload reservation_id record.(bb_category) record.(bb_reserved)
               consumed));
      update_run run_id (λ row, row <| r_budget_consumed := totals |>
                                    <| r_last_event_seq := e.(seq) |>);;
      row ← gets (λ s, s.(budget_reservations) !! reservation_id);
      row ← lift_option TypeError row;
      committed (Ok (budget_reservation_from_row reservation_id row (Some e))) e.(seq)
  end.
End budget.
