(* ===== verification/Store.v ===== *)
(** * Store: the commands of the event store as one labelled transition system, and the
    opening of a store (src/forge_replay/persistence/store.py)

    [command] has one constructor per state-changing method of [SQLiteEventStore] and
    [command_tx] its transaction body. [exec] is what the method does to the database:
    commit on success, roll back on an exception. [reachable] closes an initialised
    database under executions with any clock and any identifiers. *)

From S2P Require Import Prelude Text Domain Platform Json Events Projection ToolIdentity Tables Ledger ModelCalls.
From S2P Require Import Leases Checkpoints Runs Tools Budget.

(** ** Opening a store *)

Record Migration := {
  version : Z;
  statements : list string;
}.

(** ORDER BY session_id, seq. *)
Definition ledger_le (a b : EventRow) : Prop :=
  if decide (a.(e_session_id) = b.(e_session_id)) then (a.(e_seq) ≤ b.(e_seq))%Z
  else String.le a.(e_session_id) b.(e_session_id).

#[global] Instance ledger_le_dec a b : Decision (ledger_le a b).
Proof. unfold ledger_le. case_decide; apply _. Defined.

Definition backfilled_types : list EventType.t :=
  [EventType.MODEL_CALL_STARTED; EventType.MODEL_CALL_FAILED;
   EventType.MODEL_RESPONSE_RECEIVED; EventType.MODEL_OUTPUT_REJECTED;
   EventType.TOOL_CALL_PROPOSED; EventType.FINAL_ANSWER_COMMITTED; EventType.RUN_COMPLETED].

(** ** Commands *)

Inductive command :=
| CreateSession (session_id workspace_root : string) (config : json) (process : string)
| PutBlob (content media_type : string)
| CreateTurnAndRun (session_id turn_id run_id user_message base_repo_root base_commit_sha : string)
    (budget_limits : gmap string Z) (process : string)
| AppendEvent (a : EventArgs) (ctx : option ExecutionContext)
| AcquireRunLease (run_id owner : string) (ttl : Z) (at_time : option Z)
| RenewRunLease (c : ExecutionContext) (ttl : Z) (at_time : option Z)
| ReleaseRunLease (lease : RunLease)
| BeginWorkspaceProvisioning (run_id : string) (dirty_mode : DirtyMode.t) (process : string)
    (ctx : option ExecutionContext)
| AttachProvisionedWorkspace (run_id worktree_path branch base_commit_sha ownership_marker
    ownership_token process : string) (ctx : option ExecutionContext)
| SetWorkspaceDisposition (run_id : string) (expected target : WorkspaceDisposition.t)
    (reason process : string)
| CommitRunCheckpoint (run_id checkpoint_id process : string) (ctx : option ExecutionContext)
| ProposeToolCall (run_id : string) (p : Proposal) (process : string)
    (ctx : option ExecutionContext)
| RequestToolApproval (tool_call_id policy process : string) (ctx : option ExecutionContext)
| DecideToolApproval (approval_id expected_fingerprint : string) (decision : ApprovalDecision.t)
    (actor reason process : string) (ctx : option ExecutionContext)
    (cc : option ControlCommandContext)
| ReserveBudget (run_id reservation_id category : string) (amount : Z) (process : string)
    (ctx : option ExecutionContext)
| SettleBudget (reservation_id : string) (consumed : Z) (process : string)
    (ctx : option ExecutionContext)
| RequestCancellation (run_id actor reason process : string) (cc : option ControlCommandContext)
| DispatchToolCall (tool_call_id : string) (action_plan : json)
    (executor_identity : list (string * json)) (process : string) (attempt_id : option string)
    (ctx : option ExecutionContext)
| FinishToolAttempt (attempt_id : string) (out : AttemptOutcome.t) (process : string)
    (receipt : option (list (string * json))) (output : option string)
    (output_media_type : string) (error : option (list (string * json))) (retryable : bool)
    (ctx : option ExecutionContext)
| TransitionRunPhase (run_id : string) (expected : option RunPhase.t) (next : RunPhase.t)
    (reason process : string) (ctx : option ExecutionContext)
| CommitFinalAnswer (run_id response_event_id answer_blob_sha256 : string)
    (verification : VerificationStatus.t) (process : string) (ctx : option ExecutionContext)
| CompleteRun (run_id : string) (verification : VerificationStatus.t) (process : string)
    (ctx : option ExecutionContext)
| TerminateRun (run_id : string) (status : ExecutionStatus.t) (reason process : string)
    (ctx : option ExecutionContext)
| RebuildRunProjection (run_id process : string).

(** Keep only the stream version an operation lets its context observe. *)
Definition advance {A} (m : op A) : stx (option Z) := x ← m; mret x.2.

Section store.
Context `{Platform} (limits : BlobLimits).

(** [migration_checksum]. *)
Definition migration_checksum (m : Migration) : string :=
  sha256_text (join (String (ascii_of_nat 10) "") (map strip m.(statements))).

(** [_apply_migration]; the tables a migration creates are the fields of [db]. *)
Definition apply_migration (m : Migration) : stx unit :=
  let expected_checksum := migration_checksum m in
  applied ← gets (λ s, s.(schema_migrations) !! m.(version));
  match applied with
  | Some checksum => require (checksum = expected_checksum) MigrationChecksumError
  | None => modify (λ s, s <| schema_migrations ::= <[m.(version) := expected_checksum]> |>)
  end.

(** The loop of the backfill: decode each row and project it. *)
Fixpoint backfill_rows (rows : list EventRow) : stx unit :=
  match rows with
  | [] => mret tt
  | row :: rows' =>
      e ← lift_result (event_from_row row);
      apply_operational_projection true e;;
      backfill_rows rows'
  end.

(** [_backfill_model_call_projection]. *)
Definition backfill_model_call_projection : stx unit :=
  completed ← gets (λ s, s.(projection_migrations) !! "model_calls");
  match completed with
  | Some v => require (v = 1)%Z MigrationChecksumError
  | None =>
      modify (λ s, s <| model_calls := ∅ |>);;
      rows ← gets (λ s, merge_sort ledger_le
                          (filter (λ r, r.(e_event_type) ∈ backfilled_types) s.(events)));
      backfill_rows rows;;
      modify (λ s, s <| projection_migrations ::= <["model_calls" := 1%Z]> |>)
  end.

(** [initialize]: one transaction per migration, then the backfill. *)
Fixpoint initialize (migrations : list Migration) (s : db) : res unit * db :=
  match migrations with
  | [] => run_tx backfill_model_call_projection s
  | m :: migrations' =>
      match run_tx (apply_migration m) s with
      | (Ok _, s') => initialize migrations' s'
      | (Err e, s') => (Err e, s')
      end
  end.

(** ** Execution *)

Definition command_tx (o : oracle) (c : command) : stx (option Z) :=
  match c with
  | CreateSession sid root config pid => advance (create_session o sid root config pid)
  | PutBlob content media => advance (put_blob limits o content media)
  | CreateTurnAndRun sid tid rid msg root sha budget pid =>
      advance (create_turn_and_run limits o sid tid rid msg root sha budget pid)
  | AppendEvent a ctx => advance (append_event o a ctx)
  | AcquireRunLease rid owner ttl t => advance (acquire_run_lease o rid owner ttl t)
  | RenewRunLease c ttl t => advance (renew_run_lease o c ttl t)
  | ReleaseRunLease lease => advance (release_run_lease lease)
  | BeginWorkspaceProvisioning rid mode pid ctx =>
      advance (begin_workspace_provisioning o rid mode pid ctx)
  | AttachProvisionedWorkspace rid path branch sha marker token pid ctx =>
      advance (attach_provisioned_workspace o rid path branch sha marker token pid ctx)
  | SetWorkspaceDisposition rid expected target reason pid =>
      advance (set_workspace_disposition o rid expected target reason pid)
  | CommitRunCheckpoint rid cid pid ctx => advance (commit_run_checkpoint o rid cid pid ctx)
  | ProposeToolCall rid p pid ctx => advance (propose_tool_call o rid p pid ctx)
  | RequestToolApproval tid policy pid ctx => advance (request_tool_approval o tid policy pid ctx)
  | DecideToolApproval aid fp decision actor reason pid ctx cc =>
      advance (decide_tool_approval o aid fp decision actor reason pid ctx cc)
  | ReserveBudget rid bid category amount pid ctx =>
      advance (reserve_budget o rid bid category amount pid ctx)
  | SettleBudget bid consumed pid ctx => advance (settle_budget o bid consumed pid ctx)
  | RequestCancellation rid actor reason pid cc =>
      advance (request_cancellation o rid actor reason pid cc)
  | DispatchToolCall tid plan executor pid attempt ctx =>
      advance (dispatch_tool_call o tid plan executor pid attempt ctx)
  | FinishToolAttempt aid out pid receipt output media error retryable ctx =>
      advance (finish_tool_attempt limits o aid out pid receipt output media error retryable ctx)
  | TransitionRunPhase rid expected next reason pid ctx =>
      advance (transition_run_phase o rid expected next reason pid ctx)
  | CommitFinalAnswer rid response answer v pid ctx =>
      advance (commit_final_answer o rid response answer v pid ctx)
  | CompleteRun rid v pid ctx => advance (complete_run o rid v pid ctx)
  | TerminateRun rid status reason pid ctx => advance (terminate_run o rid status reason pid ctx)
  | RebuildRunProjection rid pid => advance (rebuild_run_projection o rid pid)
  end.

(** What a command does to the database, whatever it returns or raises. *)
Definition exec (o : oracle) (c : command) (s : db) : db := (run_tx (command_tx o c) s).2.

(** ** Reachable databases *)

(** The identifiers an operation draws for its events are canonical UUID texts. *)
Definition oracle_ok (o : oracle) : Prop :=
  ∀ k, uuid_canon (o.(ev_uuid) k) = Some (o.(ev_uuid) k).

(** The payloads that carry no run state: everything the reducer only counts. *)
Definition projection_neutral (p : RuntimeEventPayload) : bool :=
  match p with
  | RunCreatedPayload _ _ _ | RunPhaseChangedPayload _ _ _ | RunCompletedPayload _
  | RunTerminatedPayload _ _ | WorkspaceProvisionedPayload _ _ _ _
  | WorkspaceDispositionChangedPayload _ _ _ => false
  | _ => true
  end.

(** How the runtime uses the generic [append_event]: for an event of a run, in the run's
    session, with a payload that carries no run state. The method itself does not check
    this; every other command is unrestricted. *)
Definition command_ok (s : db) (c : command) : Prop :=
  match c with
  | AppendEvent a _ =>
      ∀ rid, a.(ea_run_id) = Some rid →
        projection_neutral a.(ea_payload) = true
        ∧ ∀ row, s.(runs) !! rid = Some row → a.(ea_session_id) = row.(r_session_id)
  | _ => True
  end.

Inductive reachable : db → Prop :=
| reachable_init m p :
    reachable (empty_db <| schema_migrations := m |> <| projection_migrations := p |>)
| reachable_step s o c :
    reachable s → oracle_ok o → command_ok s c → reachable (exec o c s).

(** An execution either rolls back or commits the body's state. *)
Lemma exec_cases o c s : exec o c s = s ∨ ∃ v, command_tx o c s = Ok (v, exec o c s).
Proof.
  unfold exec, run_tx. destruct (command_tx o c s) as [[v s']|e]; eauto.
Qed.

(** Rule induction over committed steps only. *)
Lemma reachable_invariant (I : db → Prop) :
  (∀ m p, I (empty_db <| schema_migrations := m |> <| projection_migrations := p |>)) →
  (∀ o c s v s', reachable s → I s → oracle_ok o → command_ok s c →
     command_tx o c s = Ok (v, s') → I s') →
  ∀ s, reachable s → I s.
Proof.
  intros Hinit Hstep s. induction 1 as [m p|s o c Hs IH Ho Hc]; [done|].
  destruct (exec_cases o c s) as [->|[v Htx]]; [done|by eapply Hstep].
Qed.

(** A preorder that every body respects holds across any execution. *)
Lemma exec_rel (R : relation db) `{!PreOrder R} o c s :
  tx_rel R (command_tx o c) → R s (exec o c s).
Proof. intros HR. destruct (exec_cases o c s) as [->|[v Htx]]; [done|by eapply HR]. Qed.
End store.
