(* ===== verification/Scenario.v ===== *)
(** * Scenario: one concrete run of the store, evaluated

    A session with one run that is leased, provisioned, checkpointed, asks the model, gets a
    tool call approved, dispatches it, and finishes. The states along the way are reachable
    by construction; the witnesses of the theorems about reachable databases use them. *)

From S2P Require Import Prelude Domain Platform Json Events Projection ToolIdentity Tables Ledger ModelCalls.
From S2P Require Import Leases Checkpoints Runs Tools Budget Store.

(** The clock and the identifiers of the [n]-th command. *)
Definition tick (n : nat) : oracle :=
  {| ev_uuid k := "event-" +:+ int_str (Z.of_nat (10 * n + k));
     ev_time k := Z.of_nat (10 * n + k);
     new_id k := "id-" +:+ int_str (Z.of_nat (10 * n + k));
     now _ := Z.of_nat n |}.

Definition demo_limits : BlobLimits := BlobLimits_default.

(** [command_ok], decided. *)
Definition command_okb (s : db) (c : command) : bool :=
  match c with
  | AppendEvent a _ =>
      match a.(ea_run_id) with
      | None => true
      | Some rid =>
          projection_neutral a.(ea_payload)
          && match s.(runs) !! rid with
             | Some row => bool_decide (a.(ea_session_id) = row.(r_session_id))
             | None => true
             end
      end
  | _ => true
  end.

Lemma command_okb_ok s c : command_okb s c = true → command_ok s c.
Proof.
  destruct c; try done. cbn. destruct (ea_run_id a) as [rid|] eqn:Hr; [|done].
  intros [Hp Hs]%andb_prop rid' [= <-]. split; [done|]. intros row Hrow.
  rewrite Hrow in Hs. by apply bool_decide_eq_true in Hs.
Qed.

Section traces.
Context `{PlatformLaws}.

(** Execute commands in order, the [n]-th one with [tick n]. *)
Fixpoint run_trace (n : nat) (cs : list command) (s : db) : db :=
  match cs with
  | [] => s
  | c :: cs' => run_trace (S n) cs' (exec demo_limits (tick n) c s)
  end.

Fixpoint trace_ok (n : nat) (cs : list command) (s : db) : bool :=
  match cs with
  | [] => true
  | c :: cs' => command_okb s c && trace_ok (S n) cs' (exec demo_limits (tick n) c s)
  end.

Lemma trace_reachable n cs s :
  (∀ k, oracle_ok (tick k)) → reachable demo_limits s → trace_ok n cs s = true →
  reachable demo_limits (run_trace n cs s).
Proof.
  intros Ht. revert n s. induction cs as [|c cs IH]; intros n s Hs; [done|].
  intros [Hc Hcs]%andb_prop. apply IH; [|done].
  apply reachable_step; [done|apply Ht|by apply command_okb_ok].
Qed.
End traces.

#[local] Existing Instance plain_platform.

Lemma tick_ok n : oracle_ok (tick n).
Proof. done. Qed.

Lemma run_trace_reachable n cs s :
  reachable demo_limits s → trace_ok n cs s = true → reachable demo_limits (run_trace n cs s).
Proof. apply trace_reachable, tick_ok. Qed.

(** ** The run *)

(** The worker's context when it has observed stream version [v]. *)
Definition worker (v : Z) : ExecutionContext :=
  {| ec_run_id := "run"; ec_worker_id := "worker"; ec_lease_epoch := 1;
     ec_lease_expires_at := 0; ec_stream_version := v |}.

Definition model_event (payload : RuntimeEventPayload) (causation : option string) : EventArgs :=
  {| ea_session_id := "session"; ea_process_instance_id := "process"; ea_payload := payload;
     ea_turn_id := Some "turn"; ea_run_id := Some "run"; ea_causation_event_id := causation;
     ea_correlation_id := Some "run" |}.

Definition demo_proposal : Proposal :=
  {| pr_response_event_id := "event-100"; pr_ordinal := 0; pr_tool_name := "write_file";
     pr_tool_version := "1"; pr_args := [(PStr "path", PStr "a.txt")];
     pr_effect_class := ToolEffectClass.NON_IDEMPOTENT; pr_target_paths := ["a.txt"];
     pr_policy_version := "policy-v1" |}.

(** The fingerprint the store computes for the proposal; its call is [id-110]. *)
Definition demo_fingerprint : string := Eval vm_compute in
  match build_approval_fingerprint
          {| fi_run_id := "run"; fi_tool_call_id := "id-110"; fi_tool_name := "write_file";
             fi_tool_version := "1";
             fi_args_sha256 := canonical_json (JObj [("path", JStr "a.txt")]);
             fi_effect_class := ToolEffectClass.NON_IDEMPOTENT; fi_base_repo_root := "/repo";
             fi_base_commit_sha := "abc"; fi_worktree_path := Some "/worktree";
             fi_target_paths := ["a.txt"]; fi_policy_version := "policy-v1" |} with
  | Ok f => f
  | Err _ => ""
  end.

Definition opening : list command :=
  [CreateSession "session" "/workspace" (JObj []) "process";
   CreateTurnAndRun "session" "turn" "run" "hello" "/repo" "abc" {[ "calls" := 5%Z ]} "process";
   AcquireRunLease "run" "worker" (100 * SECOND) None;
   BeginWorkspaceProvisioning "run" DirtyMode.REFUSE "process" (Some (worker 4));
   AttachProvisionedWorkspace "run" "/worktree" "branch" "abc" "/marker" "token" "process"
     (Some (worker 6));
   CommitRunCheckpoint "run" "checkpoint" "process" (Some (worker 8));
   ReserveBudget "run" "reservation" "calls" 3 "process" (Some (worker 9));
   SettleBudget "reservation" 2 "process" (Some (worker 10));
   AppendEvent (model_event (ModelCallStartedPayload "model-call:run:0" "model" 1 (Some 0%Z)) None)
     (Some (worker 11));
   PutBlob "answer" "text/plain";
   AppendEvent (model_event (ModelResponseReceivedPayload "model-call:run:0" "answer" None None)
                  (Some "event-80")) (Some (worker 12));
   ProposeToolCall "run" demo_proposal "process" (Some (worker 13));
   RequestToolApproval "id-110" "policy" "process" (Some (worker 14));
   DecideToolApproval "id-120" demo_fingerprint ApprovalDecision.ALLOW_ONCE "user" "fine"
     "process" None None].

(** The call is ready: approved, not dispatched. *)
Definition ready_db : db := run_trace 0 opening empty_db.

Definition acting : list command :=
  [DispatchToolCall "id-110" (JObj []) [] "process" (Some "attempt") (Some (worker 16));
   FinishToolAttempt "attempt" AttemptOutcome.SUCCEEDED "process" (Some []) (Some "output")
     TEXT_MEDIA_TYPE None false (Some (worker 17));
   RequestCancellation "run" "user" "enough" "process"
     (Some {| cc_command_id := "cancel"; cc_actor := "user"; cc_expected_stream_version := 18 |});
   TerminateRun "run" ExecutionStatus.CANCELLED "cancelled" "process" (Some (worker 19))].

(** The run is cancelled after its tool call succeeded. *)
Definition final_db : db := run_trace 14 acting ready_db.

Lemma empty_reachable : reachable demo_limits empty_db.
Proof. exact (reachable_init demo_limits ∅ ∅). Qed.

Lemma ready_reachable : reachable demo_limits ready_db.
Proof. apply run_trace_reachable; [apply empty_reachable|vm_compute; reflexivity]. Qed.

Lemma final_reachable : reachable demo_limits final_db.
Proof. apply run_trace_reachable; [apply ready_reachable|vm_compute; reflexivity]. Qed.

(** The scenario does what it says: every command commits. *)
Example scenario_states :
  tc_state <$> ready_db.(tool_calls) !! "id-110" = Some ToolCallState.READY
  ∧ tc_state <$> final_db.(tool_calls) !! "id-110" = Some ToolCallState.SUCCEEDED
  ∧ r_execution_status <$> final_db.(runs) !! "run" = Some ExecutionStatus.CANCELLED
  ∧ r_last_event_seq <$> final_db.(runs) !! "run" = Some 20%Z.
Proof. vm_compute. done. Qed.

(** The run's row in a state of the scenario. *)
Definition blank_row : RunRow :=
  {| r_turn_id := ""; r_session_id := ""; r_execution_status := ExecutionStatus.ACTIVE;
     r_phase := None; r_workspace_disposition := WorkspaceDisposition.NONE;
     r_base_repo_root := ""; r_base_commit_sha := ""; r_worktree_path := None;
     r_worktree_branch := None; r_created_at := 0; r_started_at := None; r_finished_at := None;
     r_last_event_seq := 0; r_lease_owner := None; r_lease_epoch := 0;
     r_lease_expires_at := None; r_cancel_requested_at := None; r_cancel_reason := None;
     r_budget_limits := ∅; r_budget_consumed := ∅; r_terminal_reason_json := None |}.

Definition ready_row : RunRow := Eval vm_compute in
  match ready_db.(runs) !! "run" with Some row => row | None => blank_row end.
Definition final_row : RunRow := Eval vm_compute in
  match final_db.(runs) !! "run" with Some row => row | None => blank_row end.

Lemma ready_row_eq : ready_db.(runs) !! "run" = Some ready_row.
Proof. vm_compute. reflexivity. Qed.

Lemma final_row_eq : final_db.(runs) !! "run" = Some final_row.
Proof. vm_compute. reflexivity. Qed.
