(* ===== verification/LedgerSafety.v ===== *)
(** * LedgerSafety: the ledger is append-only, dense and readable

    The invariant of the [events] and [sessions] tables, what the append path does to them,
    and that every command preserves it. *)

From S2P Require Import Prelude Domain Platform Json Events Projection ToolIdentity Tables Ledger ModelCalls.
From S2P Require Import Leases Checkpoints Runs Tools Budget Store Scenario.

(** ** Sorting *)

Lemma insert_by_le {A} (key : A → Z) x l :
  Forall (λ y, key x ≤ key y)%Z l → insert_by key x l = x :: l.
Proof. destruct 1 as [|y l Hy _]; [done|]. cbn. by rewrite decide_True. Qed.

(** ORDER BY leaves a list alone that is already in order. *)
Lemma order_by_sorted {A} (key : A → Z) l :
  StronglySorted (λ x y, key x ≤ key y)%Z l → order_by key l = l.
Proof.
  induction 1 as [|x l Hl IH Hx]; [done|]. cbn. fold (order_by key l). rewrite IH.
  by apply insert_by_le.
Qed.

Lemma seqZ_sorted m n : StronglySorted Z.le (seqZ m n).
Proof.
  destruct (decide (0 ≤ n)%Z) as [Hn|]; [|rewrite seqZ_nil by lia; constructor].
  revert m. pattern n. apply natlike_ind; [constructor| |done].
  intros k Hk IH m. rewrite seqZ_cons by lia. rewrite Z.pred_succ. constructor; [apply IH|].
  apply Forall_forall. intros x Hx. apply elem_of_seqZ in Hx. lia.
Qed.

Lemma StronglySorted_fmap {A} (key : A → Z) l :
  StronglySorted Z.le (key <$> l) → StronglySorted (λ x y, key x ≤ key y)%Z l.
Proof.
  induction l as [|x l IH]; intros Hs; [constructor|].
  apply StronglySorted_inv in Hs as [Hs Hx]. constructor; [by apply IH|].
  exact (proj1 (Forall_fmap key (Z.le (key x)) l) Hx).
Qed.

(** ** The invariant *)

Section ledger_inv.
Context `{PlatformLaws}.

(** A valid envelope whose identifiers are canonical. *)
Definition event_ok (e : EventEnvelope) : Prop :=
  envelope_valid e = true ∧ uuid_canon e.(event_id) = Some e.(event_id)
  ∧ ∀ c, e.(causation_event_id) = Some c → uuid_canon c = Some c.

(** The rows of a session, in ledger order. *)
Definition session_rows (sid : string) (s : db) : list EventRow :=
  filter (λ r, r.(e_session_id) = sid) s.(events).

Record ledger_inv (s : db) : Prop := {
  li_rows : ∃ es, s.(events) = row_of_event <$> es ∧ Forall event_ok es;
  li_ids : NoDup (e_event_id <$> s.(events));
  li_dense : ∀ sid row, s.(sessions) !! sid = Some row →
    (1 ≤ row.(ses_next_seq))%Z
    ∧ e_seq <$> session_rows sid s = seqZ 1 (row.(ses_next_seq) - 1);
  li_home : Forall (λ r, is_Some (s.(sessions) !! r.(e_session_id))) s.(events);
}.

(** Decoding a stored row gives the envelope it was made from. *)
Lemma event_from_row_of_event e : event_ok e → event_from_row (row_of_event e) = Ok e.
Proof.
  intros (Hv & Hid & Hc). unfold event_from_row. cbn [row_of_event e_payload_json
    e_payload_sha256 e_event_id e_causation_event_id].
  rewrite decide_True by done.
  assert (payload_valid e.(payload) = true) as Hp.
  { unfold envelope_valid in Hv. by apply andb_prop in Hv as [_ ?]. }
  unfold payload_text. rewrite loads_canonical by apply model_dump_dict_value.
  cbn [result_of_option mbind result_bind]. rewrite payload_of_json_dump by done.
  cbn [result_of_option mbind result_bind]. rewrite Hid.
  destruct e as [id ver sid tid rid n occ pid boot [c|] cor p].
  - cbn. cbn in Hc. rewrite (Hc c) by done. cbn. cbn in Hv. by rewrite Hv.
  - cbn. cbn in Hv. by rewrite Hv.
Qed.

Lemma events_from_rows_of_events es :
  Forall event_ok es → events_from_rows (row_of_event <$> es) = Ok es.
Proof.
  induction 1 as [|e es He _ IH]; [done|]. cbn. rewrite event_from_row_of_event by done.
  cbn. fold (row_of_event <$> es). by rewrite IH.
Qed.

(** ** Preparing and inserting *)

Lemma new_event_Ok o k sid n pid p tid rid c cor e :
  new_event o k sid n pid p tid rid c cor = Ok e →
  envelope_valid e = true ∧ e.(event_id) = o.(ev_uuid) k ∧ e.(session_id) = sid
  ∧ e.(seq) = n ∧ e.(payload) = p ∧ e.(turn_id) = tid ∧ e.(run_id) = rid
  ∧ e.(causation_event_id) = c ∧ e.(occurred_at) = o.(ev_time) k.
Proof. unfold new_event. case_match; [|done]. intros [= <-]. done. Qed.

Lemma parse_uuid_Ok t c :
  parse_uuid t = Ok c → ∀ u, c = Some u → uuid_canon u = Some u.
Proof.
  unfold parse_uuid. destruct t as [t|]; [|by intros [= <-]].
  destruct (uuid_canon t) as [u'|] eqn:Hu; [|done]. intros [= <-] u [= <-].
  by eapply uuid_canon_idem.
Qed.

Lemma prepare_event_Ok o k a s e s' :
  oracle_ok o → prepare_event o k a s = Ok (e, s') →
  s' = s ∧ event_ok e
  ∧ e.(event_id) = o.(ev_uuid) k ∧ e.(session_id) = a.(ea_session_id)
  ∧ e.(payload) = a.(ea_payload) ∧ e.(run_id) = a.(ea_run_id)
  ∧ e.(turn_id) = a.(ea_turn_id)
  ∧ ∃ row, s.(sessions) !! a.(ea_session_id) = Some row ∧ e.(seq) = row.(ses_next_seq).
Proof.
  intros Ho He. unfold prepare_event in He. tx_steps.
  apply new_event_Ok in H2 as (Hv & Hid & Hs & Hn & Hp & Ht & Hr & Hc & _).
  split_and!; try done; [|by eauto].
  split_and!; [done|by rewrite Hid|]. intros u Hu. eapply parse_uuid_Ok; [done|congruence].
Qed.

(** The state after an insertion, in full. *)
Lemma insert_event_Ok e s u s' :
  insert_event e s = Ok (u, s') →
  event_constraints (row_of_event e) s ∧
  ∃ row, s.(sessions) !! e.(session_id) = Some row ∧ row.(ses_next_seq) = e.(seq)
  ∧ s' = s <| events ::= (λ l, l ++ [row_of_event e]) |>
           <| sessions ::= <[e.(session_id) :=
                row <| ses_next_seq := (e.(seq) + 1)%Z |>
                    <| ses_last_event_id := Some e.(event_id) |>]> |>.
Proof. unfold insert_event. intros Hi. tx_steps. split; [done|]. eauto. Qed.

Lemma seqZ_snoc m n : (0 ≤ n)%Z → seqZ m (n + 1) = seqZ m n ++ [(m + n)%Z].
Proof. intros. rewrite seqZ_app by lia. f_equal. Qed.

Lemma insert_event_ledger e s u s' :
  event_ok e → ledger_inv s → insert_event e s = Ok (u, s') → ledger_inv s'.
Proof.
  intros He [[es [Hes Hok]] Hids Hdense Hhome] Hi.
  apply insert_event_Ok in Hi as (Hc & row & Hrow & Hn & ->).
  destruct Hc as (Hfresh & _ & _). split; cbn.
  - exists (es ++ [e]). rewrite fmap_app, Hes. split; [done|].
    apply Forall_app. split; [done|by apply Forall_singleton].
  - rewrite fmap_app. apply NoDup_app. split_and!; [done| |apply NoDup_singleton].
    intros x Hx ->%list_elem_of_singleton. by apply Hfresh.
  - intros sid row' Hrow'. unfold session_rows in *. cbn. rewrite filter_snoc. cbn.
    apply lookup_insert_Some in Hrow' as [[<- <-]|[Hne Hrow']].
    + destruct (Hdense _ _ Hrow) as [Hge Hs]. rewrite decide_True by done. cbn.
      split; [lia|]. rewrite fmap_app, Hs. cbn. rewrite <- Hn.
      replace (ses_next_seq row + 1 - 1)%Z with ((ses_next_seq row - 1) + 1)%Z by lia.
      rewrite seqZ_snoc by lia. do 2 f_equal. lia.
    + rewrite decide_False by done. rewrite app_nil_r. by apply Hdense.
  - apply Forall_app. split.
    + eapply Forall_impl; [exact Hhome|]. intros r Hr. cbn in *.
      by apply lookup_insert_is_Some'; right.
    + apply Forall_singleton. cbn. apply lookup_insert_is_Some'. by left.
Qed.

(** ** Relations across the append path *)

Lemma apply_projection_rel R `{!PreOrder R} l e :
  (∀ s f, R s (s <| model_calls ::= f |>)) → tx_rel R (apply_operational_projection l e).
Proof.
  intros HR. assert (∀ s i r, R s (s <| model_calls ::= <[i := r]> |>)) by auto.
  unfold apply_operational_projection, project_model_call_started, project_model_call_failed,
    project_model_response, project_model_response_consumption, project_completed_final_answer,
    consume_final_model_response, consumed_response, require_response, resolve_model_step,
    event_run_id.
  tx_rel_tac.
Qed.

Lemma insert_event_rel R `{!PreOrder R} e :
  (∀ s r, R s (s <| events ::= (λ l, l ++ [r]) |>)) →
  (∀ s f, R s (s <| sessions ::= f |>)) → tx_rel R (insert_event e).
Proof. intros He Hs. unfold insert_event. tx_rel_tac. Qed.

Lemma prepare_event_rel R `{!PreOrder R} o k a : tx_rel R (prepare_event o k a).
Proof. unfold prepare_event. tx_rel_tac. Qed.

Lemma append_rel R `{!PreOrder R} o k a :
  (∀ s r, R s (s <| events ::= (λ l, l ++ [r]) |>)) →
  (∀ s f, R s (s <| sessions ::= f |>)) → (∀ s f, R s (s <| model_calls ::= f |>)) →
  tx_rel R (append_event_in_tx o k a).
Proof.
  intros. unfold append_event_in_tx.
  apply tx_rel_bind; [done|by apply prepare_event_rel|intros e].
  apply tx_rel_bind; [done|by apply insert_event_rel|intros _].
  apply tx_rel_bind; [done|by apply apply_projection_rel|intros _]. by apply tx_rel_ret.
Qed.
End ledger_inv.

(** ** Every command preserves the invariant *)

(** The operations of the store, for unfolding. *)
Ltac unfold_ops :=
  unfold advance, returned, committed, create_session, put_blob, create_turn_and_run,
    append_event, acquire_run_lease, renew_run_lease, release_run_lease,
    begin_workspace_provisioning, attach_provisioned_workspace, set_workspace_disposition,
    commit_run_checkpoint, propose_tool_call, request_tool_approval, decide_tool_approval,
    commit_decision, reserve_budget, settle_budget, request_cancellation, dispatch_tool_call,
    finish_tool_attempt, transition_run_phase, commit_final_answer, complete_run, terminate_run,
    rebuild_run_projection, complete_turn, put_optional_blob, put_blob_in_tx, get_run_workspace,
    require_optional_context, require_execution_context, require_run_row, recover_in_tx,
    load_run_events_in_tx, begin_optional_command, begin_control_command,
    record_optional_command, record_control_command.

(** Prove a relation for a body by walking it, using the lemmas in [tx_rel] first. *)
Ltac tx_rel_ops :=
  repeat first [ solve [eauto with tx_rel nocore] | tx_rel_step | progress unfold_ops ].

Section commands.
Context `{PlatformLaws} (limits : BlobLimits).

(** [ledger_inv] as a relation between states. *)
Definition ledger_kept : relation db := λ s s', ledger_inv s → ledger_inv s'.

#[global] Instance ledger_kept_preorder : PreOrder ledger_kept.
Proof. unfold ledger_kept. split; red; auto. Qed.

Lemma ledger_frame s s' :
  s'.(events) = s.(events) → s'.(sessions) = s.(sessions) → ledger_kept s s'.
Proof.
  intros He Hs [Hrows Hids Hdense Hhome].
  split; unfold session_rows; rewrite ?He, ?Hs; auto.
Qed.

Lemma append_ledger o k a :
  oracle_ok o → tx_rel ledger_kept (append_event_in_tx o k a).
Proof.
  intros Ho. unfold append_event_in_tx.
  apply tx_rel_bind_post with (Q := event_ok); [apply _|by apply prepare_event_rel, _| |].
  - intros s e s' He. eapply prepare_event_Ok in He; [tauto|done].
  - intros e He. apply tx_rel_bind; [apply _| |intros _].
    + intros s u s' Hi Hl. by eapply insert_event_ledger.
    + apply tx_rel_bind; [apply _| |intros _; by apply tx_rel_ret, _].
      apply apply_projection_rel; [apply _|]. intros s f. by apply ledger_frame.
Qed.

Lemma insert_session_ledger id row :
  row.(ses_next_seq) = 1%Z → tx_rel ledger_kept (insert_session id row).
Proof.
  intros Hn. apply tx_rel_insert. intros s Hnone [Hrows Hids Hdense Hhome].
  split; cbn; [done|done| |].
  - intros sid row' [[<- <-]|[_ Hrow]]%lookup_insert_Some; [|by apply Hdense].
    rewrite Hn. split; [done|]. unfold session_rows. cbn.
    rewrite filter_none; [done|].
    eapply Forall_impl; [exact Hhome|]. intros r [? Hr] Heq. congruence.
  - eapply Forall_impl; [exact Hhome|]. intros r Hr. by apply lookup_insert_is_Some'; right.
Qed.

Hint Resolve append_ledger ledger_frame : tx_rel.
Hint Extern 1 (ledger_kept _ _) => (apply ledger_frame; reflexivity) : tx_rel.

Lemma create_session_ledger o sid root config pid :
  oracle_ok o → tx_rel ledger_kept (create_session o sid root config pid).
Proof.
  intros Ho. unfold create_session. apply tx_rel_bind; [apply _|by apply insert_session_ledger|].
  intros _. tx_rel_ops.
Qed.

Lemma create_turn_and_run_ledger o sid tid rid msg root sha budget pid :
  oracle_ok o →
  tx_rel ledger_kept (create_turn_and_run limits o sid tid rid msg root sha budget pid).
Proof.
  intros Ho. unfold create_turn_and_run. do 2 (apply tx_rel_bind; [apply _|tx_rel_ops|intros _]).
  apply tx_rel_bind; [apply _|tx_rel_ops|intros blob].
  apply tx_rel_bind_post with (Q := event_ok); [apply _|by apply prepare_event_rel, _| |].
  - intros s e s' He. eapply prepare_event_Ok in He; [tauto|done].
  - intros e He. do 2 (apply tx_rel_bind; [apply _|tx_rel_ops|intros _]).
    apply tx_rel_bind; [apply _| |intros _; tx_rel_ops].
    intros s u s' Hi Hl. by eapply insert_event_ledger.
Qed.
Hint Resolve create_session_ledger create_turn_and_run_ledger : tx_rel.

Lemma command_ledger o c : oracle_ok o → tx_rel ledger_kept (command_tx limits o c).
Proof. intros Ho. destruct c; cbn [command_tx]; tx_rel_ops. Qed.

Lemma reachable_ledger s : reachable limits s → ledger_inv s.
Proof.
  apply reachable_invariant.
  - intros m p. split; cbn; [|apply NoDup_nil_2|done|done]. by exists [].
  - intros o c s1 v s2 _ Hl Ho _ Htx. by eapply command_ledger.
Qed.

(** ** Append-only *)

Definition append_only : relation db := λ s s', s.(events) `prefix_of` s'.(events).

#[global] Instance append_only_preorder : PreOrder append_only.
Proof. unfold append_only. split; red; intros; [done|by etrans]. Qed.

Lemma append_append_only o k a : tx_rel append_only (append_event_in_tx o k a).
Proof.
  apply append_rel; [apply _|..]; intros; red; cbn; [|done|done]. by apply prefix_app_r.
Qed.

Lemma insert_event_append_only e : tx_rel append_only (insert_event e).
Proof.
  apply insert_event_rel; [apply _|..]; intros; red; cbn; [|done]. by apply prefix_app_r.
Qed.

Lemma prepare_event_append_only o k a : tx_rel append_only (prepare_event o k a).
Proof. by apply prepare_event_rel, _. Qed.
Hint Resolve append_append_only insert_event_append_only prepare_event_append_only : tx_rel.

Lemma command_append_only o c : tx_rel append_only (command_tx limits o c).
Proof. destruct c; cbn [command_tx]; tx_rel_ops. Qed.
End commands.

(** ** Reading a session back *)

Section reading.
Context `{PlatformLaws}.

Lemma events_from_rows_filter es (P : EventRow → Prop) `{!∀ r, Decision (P r)} :
  Forall event_ok es →
  ∃ es', events_from_rows (filter P (row_of_event <$> es)) = Ok es'
         ∧ row_of_event <$> es' = filter P (row_of_event <$> es)
         ∧ es' = filter (λ e, P (row_of_event e)) es.
Proof.
  intros Hok. exists (filter (λ e, P (row_of_event e)) es).
  rewrite filter_fmap. split_and!; [|done|done].
  apply events_from_rows_of_events.
  apply Forall_forall. intros e [_ He]%list_elem_of_filter. by eapply Forall_forall in Hok.
Qed.

(** The rows of a session come in order. *)
Lemma session_rows_sorted s sid :
  ledger_inv s → StronglySorted (λ a b, e_seq a ≤ e_seq b)%Z (session_rows sid s).
Proof.
  intros [_ _ Hdense Hhome].
  destruct (sessions s !! sid) as [row|] eqn:Hrow.
  - apply StronglySorted_fmap. rewrite (proj2 (Hdense _ _ Hrow)). apply seqZ_sorted.
  - unfold session_rows. rewrite filter_none; [constructor|].
    eapply Forall_impl; [exact Hhome|]. intros r [? Hr] <-. congruence.
Qed.

Lemma filter_seqZ_after n len :
  (0 ≤ n ≤ len)%Z → filter (λ x, n < x)%Z (seqZ 1 len) = seqZ (n + 1) (len - n).
Proof.
  intros. replace len with (n + (len - n))%Z at 1 by lia. rewrite seqZ_app by lia.
  rewrite list.filter_app, filter_none, filter_all; [cbn; f_equal; lia|..];
    apply Forall_forall; intros x Hx%elem_of_seqZ; lia.
Qed.

Lemma load_events_dense s sid row n :
  ledger_inv s → s.(sessions) !! sid = Some row → (0 ≤ n < row.(ses_next_seq))%Z →
  ∃ es, load_events sid n s = Ok (es, s)
        ∧ row_of_event <$> es = filter (λ r, n < e_seq r)%Z (session_rows sid s)
        ∧ seq <$> es = seqZ (n + 1) (row.(ses_next_seq) - 1 - n).
Proof.
  intros Hl Hrow Hn. pose proof Hl as [(es & Hes & Hok) _ Hdense _].
  assert (filter (λ r, e_session_id r = sid ∧ n < e_seq r)%Z (events s)
          = filter (λ r, n < e_seq r)%Z (session_rows sid s)) as Hf.
  { unfold session_rows. rewrite list_filter_filter. apply list_filter_iff. naive_solver. }
  destruct (events_from_rows_filter es (λ r, e_session_id r = sid ∧ (n < e_seq r)%Z) Hok)
    as (es' & He' & Hrows & _). rewrite <- Hes in He', Hrows.
  exists es'. unfold load_events. split_and!.
  - apply tx_bind_Ok. eexists _, s. split; [by apply gets_Ok|]. cbv beta.
    rewrite Hf, order_by_sorted, <- Hf; [by rewrite lift_result_Ok|].
    by apply StronglySorted_filter, session_rows_sorted.
  - by rewrite Hrows.
  - assert (seq <$> es' = e_seq <$> (row_of_event <$> es')) as ->
      by (rewrite <- list_fmap_compose; done).
    rewrite Hrows, Hf, <- filter_seqZ_after by lia.
    rewrite <- (proj2 (Hdense _ _ Hrow)). by rewrite filter_fmap.
Qed.
End reading.

(** *** Properties *)

Section properties.
Context `{PlatformLaws} (limits : BlobLimits).

(** The ledger is append-only: whatever a command does, succeeds or raises, every event
    that was in the ledger is still there, unchanged and at its place. *)
Theorem ledger_append_only o c s : s.(events) `prefix_of` (exec limits o c s).(events).
Proof. apply (exec_rel limits append_only), command_append_only. Qed.

(** C32. In every reachable database event identifiers are unique, every session's events carry
    the sequence numbers 1, 2, 3, ... without a gap up to its cursor, and every stored row
    passes the checksum and validation of the reader. *)
Theorem reachable_ledger_dense s :
  reachable limits s →
  NoDup (e_event_id <$> s.(events))
  ∧ (∀ sid row, s.(sessions) !! sid = Some row →
       e_seq <$> session_rows sid s = seqZ 1 (row.(ses_next_seq) - 1))
  ∧ Forall (λ r, is_ok (event_from_row r)) s.(events).
Proof.
  intros [(es & Hes & Hok) Hids Hdense _]%reachable_ledger. split_and!; [done| |].
  - intros sid row Hrow. by apply Hdense.
  - rewrite Hes. apply Forall_fmap. eapply Forall_impl; [exact Hok|].
    intros e He. exists e. by apply event_from_row_of_event.
Qed.

(** Reading a session after a sequence number succeeds on every reachable database and
    returns exactly the stored events after it, in order and without a gap. *)
Theorem load_events_complete s sid row n :
  reachable limits s → s.(sessions) !! sid = Some row → (0 ≤ n < row.(ses_next_seq))%Z →
  ∃ es, load_events sid n s = Ok (es, s)
        ∧ row_of_event <$> es = filter (λ r, n < e_seq r)%Z (session_rows sid s)
        ∧ seq <$> es = seqZ (n + 1) (row.(ses_next_seq) - 1 - n).
Proof. intros Hr%reachable_ledger. by apply load_events_dense. Qed.
End properties.

(** Witness of [reachable_ledger_dense]: the scenario's last state. *)
Lemma reachable_ledger_dense_witness :
  NoDup (e_event_id <$> final_db.(events))
  ∧ (∀ sid row, final_db.(sessions) !! sid = Some row →
       e_seq <$> session_rows sid final_db = seqZ 1 (row.(ses_next_seq) - 1))
  ∧ Forall (λ r, is_ok (@event_from_row plain_platform r)) final_db.(events).
Proof. exact (reachable_ledger_dense demo_limits final_db final_reachable). Defined.

(** Witness of [load_events_complete]: the scenario's session after its 17th event. *)
Lemma load_events_complete_witness :
  ∃ row es, final_db.(sessions) !! "session" = Some row
    ∧ @load_events plain_platform "session" 17 final_db = Ok (es, final_db)
    ∧ @row_of_event plain_platform <$> es
      = filter (λ r, 17 < e_seq r)%Z (session_rows "session" final_db)
    ∧ seq <$> es = seqZ (17 + 1) (row.(ses_next_seq) - 1 - 17).
Proof.
  destruct (sessions final_db !! "session") as [row|] eqn:Hrow;
    [|vm_compute in Hrow; discriminate].
  assert (ses_next_seq row = 21%Z) as Hn.
  { assert (ses_next_seq <$> sessions final_db !! "session" = Some 21%Z) as Hs
      by (vm_compute; reflexivity). rewrite Hrow in Hs. by injection Hs. }
  destruct (load_events_complete demo_limits final_db "session" row 17
              final_reachable Hrow ltac:(lia)) as [es Hes].
  exists row, es. by split.
Defined.
