(* ===== verification/RunSafety.v ===== *)
(** * RunSafety: the runs table refines the ledger

    The abstract state of a run is the reduction of its events; the row of [runs] is an
    optimised copy of it that each command updates next to the events it appends, and a
    checkpoint is a cached reduction of a prefix. The invariant below says that both agree
    with the ledger. While a command is under way, between its appends and the update of
    the row, the ledger is ahead of the row: the invariant carries the run in flight and
    the projection its row has to reach. *)

From S2P Require Import Prelude Domain Platform Json Events Projection ToolIdentity Tables Ledger ModelCalls.
From S2P Require Import Leases Checkpoints Runs Tools Budget Store Scenario LedgerSafety.

(** The abstraction function: what a row of [runs] says about its run. *)
Definition row_projection (rid : string) (row : RunRow) : RunProjection :=
  {| p_run_id := rid; p_session_id := row.(r_session_id); p_turn_id := row.(r_turn_id);
     p_execution_status := row.(r_execution_status); p_phase := row.(r_phase);
     p_workspace_disposition := row.(r_workspace_disposition);
     p_base_repo_root := row.(r_base_repo_root); p_base_commit_sha := row.(r_base_commit_sha);
     p_budget_limits := row.(r_budget_limits); p_last_event_seq := row.(r_last_event_seq) |}.

(** The events of a run, in ledger order. *)
Definition run_events (rid : string) (es : list EventEnvelope) : list EventEnvelope :=
  filter (λ e, e.(run_id) = Some rid) es.

Lemma run_events_snoc rid es e :
  run_events rid (es ++ [e]) = run_events rid es ++ (if decide (e.(run_id) = Some rid) then [e] else []).
Proof. unfold run_events. by rewrite filter_snoc. Qed.

(** The columns of a row that never change after its creation. *)
Definition row_identity (row : RunRow) : string * string * string * string * gmap string Z :=
  (row.(r_session_id), row.(r_turn_id), row.(r_base_repo_root), row.(r_base_commit_sha),
   row.(r_budget_limits)).

(** ** Facts about reductions *)

Lemma reduce_step_last i e acc :
  reduce_step (initial_acc i) e = Ok acc →
  (acc.1 = i ∧ e.(run_id) = None)
  ∨ ∃ p, acc.1 = Some p ∧ p.(p_last_event_seq) = e.(seq)
         ∧ ((initial_acc i).2 < e.(seq))%Z.
Proof.
  intros Hs. pose proof (reduce_step_acc _ _ _ Hs) as Ha.
  unfold reduce_step in Hs. unfold initial_acc in Hs at 1.
  destruct (run_id e) as [rid|]; [|left; by simplify_eq/=].
  right. case_decide as Hle; [done|]. cbn in Hle |- *.
  destruct i as [p|]; cbn in *.
  - assert ((if decide (rid = p_run_id p)
             then p' ← apply_payload p e; Ok (Some p', seq e) else Err ProjectionError) = Ok acc)
      as Hs' by (destruct (payload e); done).
    case_decide; [|done]. apply result_bind_Ok in Hs' as (p' & Hp & [= <-]).
    exists p'. split_and!; [done|by eapply apply_payload_seq|lia].
  - destruct (payload e); try done. destruct (turn_id e); [|done]. injection Hs as <-.
    eexists. split_and!; [done|done|lia].
Qed.

(** A reduction ends at the last event of the run it saw, and saw them in order. *)
Lemma reduce_loop_seqs es i p :
  Forall (λ e, e.(run_id) ≠ None) es →
  reduce_loop (initial_acc i) es = Ok (initial_acc (Some p)) →
  Forall (λ e, (initial_acc i).2 < e.(seq) ≤ p.(p_last_event_seq))%Z es
  ∧ (es = [] → i = Some p) ∧ (es ≠ [] → ∃ e, last es = Some e ∧ e.(seq) = p.(p_last_event_seq)).
Proof.
  revert i. induction es as [|e es IH]; intros i Hr; cbn [reduce_loop].
  - intros [= -> _]. done.
  - apply Forall_cons in Hr as [He Hr].
    intros (acc & Hs & Hl)%result_bind_Ok. pose proof (reduce_step_acc _ _ _ Hs) as Ha.
    apply reduce_step_last in Hs as [[_ ?]|(q & Hq & Hseq & Hlt)]; [done|].
    rewrite Ha, Hq in Hl. destruct (IH (Some q) Hr Hl) as (Hall & Hnil & Hlast).
    assert (q.(p_last_event_seq) ≤ p.(p_last_event_seq))%Z as Hle.
    { destruct es as [|e' es]; [by specialize (Hnil eq_refl) as [= ->]|].
      apply Forall_cons in Hall as [? _]. cbn in *. lia. }
    split_and!; [|done|].
    + constructor; [lia|]. eapply Forall_impl; [exact Hall|].
      change ((initial_acc (Some q)).2) with (p_last_event_seq q). intros; cbn beta in *; lia.
    + intros _. destruct es as [|e' es].
      * specialize (Hnil eq_refl) as [= ->]. by exists e.
      * destruct Hlast as (e'' & Hl' & ?); [done|]. exists e''. split; [|done].
        by rewrite last_cons_cons.
Qed.

Lemma run_events_run rid es : Forall (λ e, e.(run_id) ≠ None) (run_events rid es).
Proof. apply Forall_forall. intros e [He _]%list_elem_of_filter. by rewrite He. Qed.

Lemma reduce_seqs rid es a b p :
  run_events rid es = a ++ b → reduce_run_events a None = Ok p →
  Forall (λ e, 0 < e.(seq) ≤ p.(p_last_event_seq))%Z a.
Proof.
  intros Hes Hr%reduce_run_events_Ok.
  eapply (reduce_loop_seqs a None p) in Hr as (? & _ & _); [done|].
  pose proof (run_events_run rid es) as Hall. rewrite Hes in Hall.
  by apply Forall_app in Hall as [? _].
Qed.

Lemma reduce_suffix_seqs rid es a b p q :
  run_events rid es = a ++ b → reduce_run_events b (Some q) = Ok p →
  Forall (λ e, q.(p_last_event_seq) < e.(seq))%Z b.
Proof.
  intros Hes Hr%reduce_run_events_Ok.
  pose proof (run_events_run rid es) as Hall. rewrite Hes in Hall.
  apply Forall_app in Hall as [_ Hb].
  apply reduce_loop_seqs in Hr as (Hs & _); [|done].
  eapply Forall_impl; [exact Hs|]. cbn. intros; lia.
Qed.

(** ** The invariant *)

Section core.
Context `{PlatformLaws}.

(** The projection the ledger has to give for a run: that of its row, or the one in flight. *)
Definition expected (x : option (string * RunProjection)) (rid : string) (row : RunRow)
    : RunProjection :=
  match x with
  | Some (r, p) => if decide (r = rid) then p else row_projection rid row
  | None => row_projection rid row
  end.

(** A checkpoint that passes validation holds the reduction of a prefix of its run. *)
Definition checkpoint_sound (es : list EventEnvelope) (cp : CheckpointRow) (row : RunRow) : Prop :=
  ∀ q, projection_from_checkpoint_row cp cp.(cp_run_id) row = Ok q →
    ∃ pre post, run_events cp.(cp_run_id) es = pre ++ post ∧ reduce_run_events pre None = Ok q.

Record core (x : option (string * RunProjection)) (s : db) (es : list EventEnvelope) : Prop := {
  co_ledger : ledger_inv s;
  co_rows : s.(events) = row_of_event <$> es;
  co_ok : Forall event_ok es;
  co_fk : Forall (λ e, opt_ref (λ r, is_Some (s.(runs) !! r)) e.(run_id)) es;
  co_runs : ∀ rid row, s.(runs) !! rid = Some row →
    reduce_run_events (run_events rid es) None = Ok (expected x rid row)
    ∧ Forall (λ e, e.(session_id) = row.(r_session_id)) (run_events rid es);
  co_checkpoints : ∀ cid cp, s.(checkpoints) !! cid = Some cp →
    ∃ row, s.(runs) !! cp.(cp_run_id) = Some row ∧ checkpoint_sound es cp row;
}.

(** Validation looks at the identity of the row only. *)
Lemma checkpoint_sound_identity es cp row row' :
  row_identity row' = row_identity row → checkpoint_sound es cp row → checkpoint_sound es cp row'.
Proof.
  unfold row_identity. intros [= H1 H2 H3 H4 _] Hs q Hq. apply Hs.
  unfold projection_from_checkpoint_row in *. by rewrite H1, H2, H3, H4 in Hq.
Qed.

(** Checkpoints of a run stay sound when the row is updated. *)
Lemma checkpoints_alter s es rid f :
  (∀ cid cp, s.(checkpoints) !! cid = Some cp →
    ∃ row, s.(runs) !! cp.(cp_run_id) = Some row ∧ checkpoint_sound es cp row) →
  (∀ row, s.(runs) !! rid = Some row → row_identity (f row) = row_identity row) →
  ∀ cid cp, s.(checkpoints) !! cid = Some cp →
    ∃ row, alter f rid s.(runs) !! cp.(cp_run_id) = Some row ∧ checkpoint_sound es cp row.
Proof.
  intros Hcps Hf cid cp Hcp. destruct (Hcps _ _ Hcp) as (row & Hrow & Hs).
  rewrite lookup_alter. case_decide as Hd; [|by eauto]. subst rid. rewrite Hrow. cbn.
  eexists. split; [done|]. by eapply checkpoint_sound_identity; [apply Hf|].
Qed.

(** The tables the invariant does not mention do not matter. *)
Lemma core_frame x s s' es :
  s'.(events) = s.(events) → s'.(sessions) = s.(sessions) → s'.(runs) = s.(runs) →
  s'.(checkpoints) = s.(checkpoints) → core x s es → core x s' es.
Proof.
  intros He Hs Hr Hc [Hl ? ? ? ? ?]. split; rewrite ?He, ?Hr, ?Hc; try done.
  by eapply ledger_frame.
Qed.

Lemma core_start s es rid row :
  core None s es → s.(runs) !! rid = Some row → core (Some (rid, row_projection rid row)) s es.
Proof.
  intros [] Hrow. split; try done. intros rid' row' Hrow'. cbn. case_decide; [|by auto].
  simplify_eq. by auto.
Qed.

(** Changing columns of a row that the projection does not show. *)
Lemma core_update x s es rid f :
  (∀ row, row_projection rid (f row) = row_projection rid row) →
  core x s es → core x (s <| runs ::= alter f rid |>) es.
Proof.
  intros Hf [Hl Hrows Hok Hfk Hruns Hcps].
  assert (∀ row, row_identity (f row) = row_identity row) as Hid.
  { intros row. specialize (Hf row). injection Hf. unfold row_identity. congruence. }
  split; cbn; try done.
  - by refine (ledger_frame s _ _ _ Hl).
  - eapply Forall_impl; [exact Hfk|]. intros e. cbn.
    destruct (run_id e); [|done]. cbn. by rewrite lookup_alter_is_Some.
  - intros rid' row' [(<- & row & Hrow & ->)|[Hne Hrow]]%lookup_alter_Some; [|by apply Hruns].
    destruct (Hruns _ _ Hrow) as [Hred Hses]. split.
    + rewrite Hred. f_equal. unfold expected. destruct x as [[r p]|]; [case_decide|]; auto.
    + specialize (Hid row). injection Hid as -> _ _ _ _. done.
  - by apply checkpoints_alter.
Qed.

(** Closing a command: the row reaches the projection in flight. *)
Lemma core_finish s es rid p f :
  core (Some (rid, p)) s es →
  (∀ row, s.(runs) !! rid = Some row →
     row_projection rid (f row) = p ∧ row_identity (f row) = row_identity row) →
  core None (s <| runs ::= alter f rid |>) es.
Proof.
  intros [Hl Hrows Hok Hfk Hruns Hcps] Hf. split; cbn; try done.
  - by refine (ledger_frame s _ _ _ Hl).
  - eapply Forall_impl; [exact Hfk|]. intros e. cbn.
    destruct (run_id e); [|done]. cbn. by rewrite lookup_alter_is_Some.
  - intros rid' row' [(<- & row & Hrow & ->)|[Hne Hrow]]%lookup_alter_Some.
    + destruct (Hruns _ _ Hrow) as [Hred Hses]. destruct (Hf _ Hrow) as [Hp Hid].
      rewrite Hred. cbn. rewrite decide_True by done. split; [by rewrite Hp|].
      assert (r_session_id (f row) = r_session_id row) as -> by (unfold row_identity in *; congruence).
      done.
    + destruct (Hruns _ _ Hrow) as [Hred Hses]. split; [|done]. rewrite Hred. cbn.
      by rewrite decide_False.
  - apply checkpoints_alter; [done|]. intros row Hrow. by apply Hf.
Qed.

(** ** The append path *)

Lemma reduce_run_id rid es p :
  Forall (λ e, e.(run_id) = Some rid) es → reduce_run_events es None = Ok p →
  p.(p_run_id) = rid.
Proof.
  intros Hall Hr%reduce_run_events_Ok. destruct es as [|e es]; [by simplify_eq/=|].
  apply Forall_cons in Hall as [He _]. cbn [reduce_loop] in Hr.
  apply result_bind_Ok in Hr as (acc & Hs & Hl).
  unfold reduce_step, initial_acc in Hs. rewrite He in Hs. case_decide; [done|].
  destruct (payload e); try done. destruct (turn_id e); [|done]. injection Hs as <-.
  assert (reduce_run_events es (Some (created_projection rid s base_repo_root base_commit_sha
    budget_limits e)) = Ok p) as [Hid _]%reduce_from_Some by (by apply reduce_run_events_Ok).
  symmetry. apply Hid.
Qed.

Lemma append_Ok o k a s e s' :
  oracle_ok o → append_event_in_tx o k a s = Ok (e, s') →
  event_ok e ∧ e.(payload) = a.(ea_payload) ∧ e.(run_id) = a.(ea_run_id)
  ∧ e.(session_id) = a.(ea_session_id) ∧ e.(turn_id) = a.(ea_turn_id)
  ∧ e.(event_id) = o.(ev_uuid) k
  ∧ (∃ srow, s.(sessions) !! a.(ea_session_id) = Some srow ∧ e.(seq) = srow.(ses_next_seq))
  ∧ event_constraints (row_of_event e) s
  ∧ s'.(events) = s.(events) ++ [row_of_event e]
  ∧ s'.(runs) = s.(runs) ∧ s'.(checkpoints) = s.(checkpoints).
Proof.
  intros Ho (e0 & s1 & Hm & (u & s2 & Hm0 & (u' & s3 & Hm1 & [<- ->]%tx_ret_Ok)%tx_bind_Ok)%tx_bind_Ok)%tx_bind_Ok.
  apply prepare_event_Ok in Hm as (-> & Hok & Hid & Hs & Hp & Hr & Ht & Hseq); [|done].
  apply insert_event_Ok in Hm0 as (Hc & srow & Hsrow & _ & ->).
  assert (∀ B (f : db → B), (∀ s g, same f s (s <| model_calls ::= g |>)) →
            same f (s <| events ::= (λ l, l ++ [row_of_event e]) |>
                      <| sessions ::= <[session_id e := srow <| ses_next_seq := (seq e + 1)%Z |>
                           <| ses_last_event_id := Some (event_id e) |>]> |>) s3) as Hf.
  { intros B f HB. eapply apply_projection_rel; [apply _|done|exact Hm1]. }
  split_and!; try done.
  - by rewrite (Hf _ events).
  - by rewrite (Hf _ runs).
  - by rewrite (Hf _ checkpoints).
Qed.

(** The session's cursor moves past the event. *)
Lemma append_next_seq o k a s e s' :
  oracle_ok o → append_event_in_tx o k a s = Ok (e, s') →
  ∃ srow, s'.(sessions) !! a.(ea_session_id) = Some srow
          ∧ srow.(ses_next_seq) = (e.(seq) + 1)%Z.
Proof.
  intros Ho (e0 & s1 & Hm & (u & s2 & Hm0 & (u' & s3 & Hm1 & [<- ->]%tx_ret_Ok)%tx_bind_Ok)%tx_bind_Ok)%tx_bind_Ok.
  apply prepare_event_Ok in Hm as (-> & _ & _ & <- & _); [|done].
  apply insert_event_Ok in Hm0 as (_ & srow & _ & _ & ->).
  eapply (apply_projection_rel (same sessions)) in Hm1; [|done].
  rewrite Hm1. cbn. rewrite lookup_insert_eq. by eexists.
Qed.

Lemma run_event_seq x s es rid row e :
  core x s es → s.(runs) !! rid = Some row → e ∈ run_events rid es →
  ∃ srow, s.(sessions) !! row.(r_session_id) = Some srow
          ∧ (1 ≤ e.(seq) < srow.(ses_next_seq))%Z.
Proof.
  intros [[_ _ Hdense Hhome] Hrows _ _ Hruns _] Hrow He.
  destruct (Hruns _ _ Hrow) as [_ Hses]. eapply Forall_forall in Hses; [|exact He].
  apply list_elem_of_filter in He as [_ He].
  assert (row_of_event e ∈ events s) as Hin.
  { rewrite Hrows. by apply list_elem_of_fmap_2. }
  eapply Forall_forall in Hhome as [srow Hsrow]; [|exact Hin]. cbn in Hsrow.
  rewrite Hses in Hsrow. exists srow. split; [done|].
  destruct (Hdense _ _ Hsrow) as [_ Hs].
  assert (e.(seq) ∈ e_seq <$> session_rows (r_session_id row) s) as Hsq.
  { apply list_elem_of_fmap. exists (row_of_event e). split; [done|].
    by apply list_elem_of_filter. }
  rewrite Hs in Hsq. apply elem_of_seqZ in Hsq. lia.
Qed.

Lemma core_last_seq x s es rid row :
  core x s es → s.(runs) !! rid = Some row →
  ∃ srow, s.(sessions) !! row.(r_session_id) = Some srow
          ∧ ((expected x rid row).(p_last_event_seq) < srow.(ses_next_seq))%Z.
Proof.
  intros Hc Hrow. destruct (co_runs _ _ _ Hc _ _ Hrow) as [Hred _].
  apply reduce_run_events_Ok in Hred.
  apply reduce_loop_seqs in Hred as (_ & Hnil & Hlast); [|apply run_events_run].
  destruct (decide (run_events rid es = [])) as [Hn|Hn]; [by apply Hnil in Hn|].
  destruct (Hlast Hn) as (e & He & <-).
  apply last_Some_elem_of in He. eapply run_event_seq in He as (srow & ? & ?); [|done|done].
  exists srow. split; [done|lia].
Qed.

(** One more event: the run in flight moves on, nothing else changes. *)
Lemma core_append o k a s e s' es rid row p p' :
  oracle_ok o → core (Some (rid, p)) s es → s.(runs) !! rid = Some row →
  append_event_in_tx o k a s = Ok (e, s') →
  a.(ea_run_id) = Some rid → a.(ea_session_id) = row.(r_session_id) →
  is_run_created a.(ea_payload) = false → apply_payload p e = Ok p' →
  core (Some (rid, p')) s' (es ++ [e]).
Proof.
  intros Ho Hc Hrow Ha Hrid Hsid Hnc Hp.
  pose proof (append_ledger _ _ _ Ho _ _ _ Ha (co_ledger _ _ _ Hc)) as Hl'.
  apply append_Ok in Ha as (Hok & Hpay & Hr & Hs & _ & _ & (srow & Hsrow & Hseq) & _ & Hev & Hruns' & Hcps');
    [|done].
  destruct (core_last_seq _ _ _ _ _ Hc Hrow) as (srow' & Hsrow' & Hlast).
  cbn in Hlast. rewrite decide_True in Hlast by done.
  rewrite Hsid in Hsrow. simplify_eq. rewrite Hrid in Hr. rewrite Hsid in Hs.
  destruct Hc as [Hl Hrows Hoks Hfk Hruns Hcps]. split.
  - done.
  - by rewrite Hev, Hrows, fmap_app.
  - apply Forall_app. by rewrite Forall_singleton.
  - rewrite Hruns'. apply Forall_app. split; [done|]. apply Forall_singleton.
    rewrite Hr. cbn. by eexists.
  - rewrite Hruns'. intros rid' row' Hrow'. rewrite run_events_snoc, Hr.
    destruct (Hruns _ _ Hrow') as [Hred Hses]. cbn in *. destruct (decide (rid = rid')) as [<-|Hne].
    + rewrite decide_True by done. simplify_eq.
      split; [|by apply Forall_app; rewrite Forall_singleton].
      rewrite <- Hp. apply reduce_snoc; [done| |lia|by rewrite Hpay].
      rewrite Hr. f_equal. symmetry. eapply reduce_run_id; [|exact Hred].
      apply Forall_forall. by intros e' [? _]%list_elem_of_filter.
    + rewrite decide_False by congruence. by rewrite app_nil_r.
  - rewrite Hruns', Hcps'. intros cid cp Hcp.
    destruct (Hcps _ _ Hcp) as (row' & Hrow' & Hsound). exists row'. split; [done|].
    intros q Hq. destruct (Hsound q Hq) as (pre & post & Hpp & Hpre).
    exists pre, (post ++ (if decide (e.(run_id) = Some (cp_run_id cp)) then [e] else [])).
    by rewrite run_events_snoc, Hpp, app_assoc.
Qed.

(** An event of no run. *)
Lemma core_append_session x o k a s e s' es :
  oracle_ok o → core x s es → append_event_in_tx o k a s = Ok (e, s') →
  a.(ea_run_id) = None → core x s' (es ++ [e]).
Proof.
  intros Ho Hc Ha Hrid.
  pose proof (append_ledger _ _ _ Ho _ _ _ Ha (co_ledger _ _ _ Hc)) as Hl'.
  apply append_Ok in Ha as (Hok & _ & Hr & _ & _ & _ & _ & _ & Hev & Hruns' & Hcps'); [|done].
  rewrite Hrid in Hr.
  assert (∀ rid, run_events rid (es ++ [e]) = run_events rid es) as Hsame.
  { intros rid. rewrite run_events_snoc, Hr. cbn. by rewrite app_nil_r. }
  destruct Hc as [Hl Hrows Hoks Hfk Hruns Hcps]. split.
  - done.
  - by rewrite Hev, Hrows, fmap_app.
  - apply Forall_app. by rewrite Forall_singleton.
  - rewrite Hruns'. apply Forall_app. split; [done|]. apply Forall_singleton. by rewrite Hr.
  - rewrite Hruns'. intros rid row. rewrite Hsame. apply Hruns.
  - rewrite Hruns', Hcps'. intros cid cp Hcp.
    destruct (Hcps _ _ Hcp) as (row & Hrow & Hsound). exists row. split; [done|].
    intros q Hq. rewrite Hsame. by apply Hsound.
Qed.
End core.

(** ** Recovery *)

Section recovery.
Context `{PlatformLaws}.

(** What [run_rows] selects, in terms of the decoded ledger. *)
Lemma run_rows_core x s es rid row n :
  core x s es → s.(runs) !! rid = Some row →
  run_rows rid n s = row_of_event <$> filter (λ e, n < e.(seq))%Z (run_events rid es).
Proof.
  intros Hc Hrow. unfold run_rows. rewrite (co_rows _ _ _ Hc).
  assert (filter (λ r, r.(e_run_id) = Some rid ∧ (n < r.(e_seq))%Z) (row_of_event <$> es)
          = row_of_event <$> filter (λ e, n < e.(seq))%Z (run_events rid es)) as Hf.
  { rewrite filter_fmap. f_equal. unfold run_events. rewrite list_filter_filter.
    apply list_filter_iff. cbn. naive_solver. }
  rewrite Hf. apply order_by_sorted.
  assert (row_of_event <$> run_events rid es
          = filter (λ r, r.(e_run_id) = Some rid) (session_rows (r_session_id row) s)) as Hrun.
  { unfold session_rows. rewrite (co_rows _ _ _ Hc), list_filter_filter.
    unfold run_events. rewrite filter_fmap. f_equal. cbn.
    destruct (co_runs _ _ _ Hc _ _ Hrow) as [_ Hses].
    apply filter_ext_in. intros e He. split; [|naive_solver].
    intros Hr. split; [done|]. eapply Forall_forall in Hses; [exact Hses|].
    by apply list_elem_of_filter. }
  assert (row_of_event <$> filter (λ e, n < e.(seq))%Z (run_events rid es)
          = filter (λ r, n < r.(e_seq))%Z (row_of_event <$> run_events rid es)) as ->
    by (by rewrite filter_fmap).
  rewrite Hrun. apply StronglySorted_filter, StronglySorted_filter, session_rows_sorted, Hc.
Qed.

Lemma run_rows_decode x s es rid row n :
  core x s es → s.(runs) !! rid = Some row →
  events_from_rows (run_rows rid n s) = Ok (filter (λ e, n < e.(seq))%Z (run_events rid es)).
Proof.
  intros Hc Hrow. rewrite (run_rows_core _ _ _ _ _ _ Hc Hrow).
  apply events_from_rows_of_events. apply Forall_forall.
  intros e [_ [_ He]%list_elem_of_filter]%list_elem_of_filter.
  eapply Forall_forall; [exact (co_ok _ _ _ Hc)|done].
Qed.

(** The whole stream of a run decodes and reduces to the projection of its row. *)
Lemma run_replay x s es rid row :
  core x s es → s.(runs) !! rid = Some row →
  events_from_rows (run_rows rid 0 s) = Ok (run_events rid es)
  ∧ reduce_run_events (run_events rid es) None = Ok (expected x rid row).
Proof.
  intros Hc Hrow. destruct (co_runs _ _ _ Hc _ _ Hrow) as [Hred _]. split; [|done].
  rewrite (run_rows_decode _ _ _ _ _ _ Hc Hrow). f_equal. apply filter_all.
  eapply Forall_impl; [eapply (reduce_seqs rid es _ []); [by rewrite app_nil_r|exact Hred]|].
  cbn. lia.
Qed.

(** Continuing from a checkpoint that validates gives the same projection. *)
Lemma try_checkpoint_sound s es rid row cp q :
  core None s es → s.(runs) !! rid = Some row → cp.(cp_run_id) = rid →
  checkpoint_sound es cp row → projection_from_checkpoint_row cp rid row = Ok q →
  try_checkpoint rid row cp s = Ok (row_projection rid row).
Proof.
  intros Hc Hrow <- Hsound Hq. unfold try_checkpoint. rewrite Hq. cbn.
  rewrite (run_rows_decode _ _ _ _ _ _ Hc Hrow). cbn.
  destruct (Hsound q Hq) as (pre & post & Hpp & Hpre).
  destruct (co_runs _ _ _ Hc _ _ Hrow) as [Hred _]. cbn in Hred. rewrite Hpp in Hred |- *.
  rewrite (reduce_app _ _ _ _ Hpre) in Hred.
  rewrite list.filter_app, filter_none, filter_all; [done|..].
  - by eapply reduce_suffix_seqs.
  - eapply Forall_impl; [by eapply reduce_seqs|]. cbn. lia.
Qed.

(** Validation of a checkpoint raises only what the recovery loop catches. *)
Lemma checkpoint_errors_caught cp rid row e :
  projection_from_checkpoint_row cp rid row = Err e → caught e = true.
Proof.
  unfold projection_from_checkpoint_row, assert_result, mbind, result_bind, result_of_option.
  intros He. repeat case_match; by simplify_eq.
Qed.

(** Recovery always succeeds and always gives the projection of the row, whichever
    checkpoints are present, valid or not. *)
Lemma recover_loop_sound s es rid row rejected rows :
  core None s es → s.(runs) !! rid = Some row →
  Forall (λ kv : string * CheckpointRow,
    kv.2.(cp_run_id) = rid ∧ checkpoint_sound es kv.2 row) rows →
  ∃ r, recover_loop rid row rejected rows s = Ok r ∧ r.(rr_projection) = row_projection rid row.
Proof.
  intros Hc Hrow. revert rejected. induction rows as [|[cid cp] rows IH]; intros rejected Hall.
  - cbn. destruct (run_replay _ _ _ _ _ Hc Hrow) as [-> Hred]. cbn. rewrite Hred. cbn.
    by eexists.
  - apply Forall_cons in Hall as [[Hrid Hsound] Hall]. cbn in Hrid, Hsound |- *.
    destruct (projection_from_checkpoint_row cp rid row) as [q|e] eqn:Hq.
    + rewrite (try_checkpoint_sound _ _ _ _ _ _ Hc Hrow Hrid Hsound Hq). by eexists.
    + unfold try_checkpoint. rewrite Hq. cbn.
      rewrite (checkpoint_errors_caught _ _ _ _ Hq). by apply IH.
Qed.

Lemma insert_by_perm {A} (key : A → Z) x l : insert_by key x l ≡ₚ x :: l.
Proof.
  induction l as [|y l IH]; [done|]. cbn. case_decide; [done|]. rewrite IH. constructor.
Qed.

Lemma order_by_perm {A} (key : A → Z) l : order_by key l ≡ₚ l.
Proof.
  induction l as [|x l IH]; [done|]. cbn. rewrite insert_by_perm. by constructor.
Qed.

Lemma checkpoint_rows_spec rid s :
  Forall (λ kv : string * CheckpointRow,
    s.(checkpoints) !! kv.1 = Some kv.2 ∧ kv.2.(cp_run_id) = rid) (checkpoint_rows rid s).
Proof.
  unfold checkpoint_rows. rewrite order_by_perm. apply Forall_forall.
  intros [k v] [Hr Hk]%list_elem_of_filter. apply elem_of_map_to_list in Hk.
  by apply bool_decide_eq_true in Hr.
Qed.

Lemma recover_in_tx_sound s es rid row :
  core None s es → s.(runs) !! rid = Some row →
  ∃ r, recover_in_tx rid row s = Ok (r, s) ∧ r.(rr_projection) = row_projection rid row.
Proof.
  intros Hc Hrow.
  destruct (recover_loop_sound s es rid row [] (checkpoint_rows rid s)) as (r & Hr & Hp);
    [done|done| |].
  { eapply Forall_impl; [apply checkpoint_rows_spec|]. intros kv [Hkv <-]. split; [done|].
    destruct (co_checkpoints _ _ _ Hc _ _ Hkv) as (row' & Hrow' & ?). by simplify_eq. }
  exists r. split; [|done]. apply tx_bind_Ok. exists (Ok r), s.
  split; [by apply gets_Ok|by apply lift_result_Ok].
Qed.

(** Inversions of the reads every command starts with. *)
Lemma recover_in_tx_Ok s es rid row r s' :
  core None s es → s.(runs) !! rid = Some row → recover_in_tx rid row s = Ok (r, s') →
  s' = s ∧ r.(rr_projection) = row_projection rid row.
Proof.
  intros Hc Hrow Hr. destruct (recover_in_tx_sound _ _ _ _ Hc Hrow) as (r' & Hr' & Hp).
  rewrite Hr in Hr'. by simplify_eq.
Qed.

Lemma require_execution_context_Ok t rid ctx s row s' :
  require_execution_context t rid ctx s = Ok (row, s') → s' = s ∧ s.(runs) !! rid = Some row.
Proof. unfold require_execution_context, require_run_row. intros Hr. by tx_steps. Qed.

Lemma require_run_row_Ok rid s row s' :
  require_run_row rid s = Ok (row, s') → s' = s ∧ s.(runs) !! rid = Some row.
Proof. unfold require_run_row. intros Hr. by tx_steps. Qed.
End recovery.

(** ** The commands *)

Section commands.
Context `{PlatformLaws} (limits : BlobLimits).

Definition core_inv (s : db) : Prop := ∃ es, core None s es.

(** The tables the invariant is about. *)
Definition core_tables (s : db) := (s.(events), s.(sessions), s.(runs), s.(checkpoints)).

Lemma core_same x s s' es : same core_tables s s' → core x s es → core x s' es.
Proof. unfold same, core_tables. intros [= ? ? ? ?]. by apply core_frame. Qed.

Lemma core_inv_same s s' : same core_tables s s' → core_inv s → core_inv s'.
Proof. intros Hs [es Hc]. exists es. by eapply core_same. Qed.

Lemma same_runs s s' : same core_tables s s' → s'.(runs) = s.(runs).
Proof. unfold same, core_tables. by intros [= ? ? ? ?]. Qed.

(** Bodies that only touch other tables. *)
Lemma put_blob_same t content media :
  tx_rel (same core_tables) (put_blob_in_tx limits t content media).
Proof. unfold put_blob_in_tx. tx_rel_tac. Qed.

Lemma put_optional_blob_same t content media :
  tx_rel (same core_tables) (put_optional_blob limits t content media).
Proof. unfold put_optional_blob, put_blob_in_tx. tx_rel_tac. Qed.

Lemma begin_command_same rid ty j cc :
  tx_rel (@eq db) (begin_optional_command rid ty j cc).
Proof.
  unfold begin_optional_command, begin_control_command, require_run_row.
  assert (PreOrder (@eq db)) by (split; red; congruence). tx_rel_tac.
Qed.

Lemma require_optional_context_same t rid ctx :
  tx_rel (@eq db) (require_optional_context t rid ctx).
Proof.
  unfold require_optional_context, require_execution_context, require_run_row.
  assert (PreOrder (@eq db)) by (split; red; congruence). tx_rel_tac.
Qed.

Lemma record_command_same t rid ty j cc ev :
  tx_rel (same core_tables) (record_optional_command t rid ty j cc ev).
Proof. unfold record_optional_command, record_control_command. tx_rel_tac. Qed.

(** *** One event of a run *)

Lemma core_append_run o k s es rid row p p' pid cz pl e s' :
  oracle_ok o → core (Some (rid, p)) s es → s.(runs) !! rid = Some row →
  append_event_in_tx o k (run_event_args rid row pid cz pl) s = Ok (e, s') →
  is_run_created pl = false →
  (∀ e', e'.(payload) = pl → e'.(seq) = e.(seq) → apply_payload p e' = Ok p') →
  core (Some (rid, p')) s' (es ++ [e]) ∧ s'.(runs) = s.(runs).
Proof.
  intros Ho Hc Hrow Ha Hnc Hp. split.
  - eapply core_append; try done. apply append_Ok in Ha as (_ & Hpay & _); [|done]. by apply Hp.
  - apply append_Ok in Ha; [naive_solver|done].
Qed.

Lemma apply_neutral p e :
  projection_neutral e.(payload) = true → apply_payload p e = Ok (with_seq e.(seq) p).
Proof. unfold apply_payload. by destruct (payload e). Qed.

Lemma neutral_not_created pl : projection_neutral pl = true → is_run_created pl = false.
Proof. by destruct pl. Qed.

(** A command that appends one event without run state and moves the row's cursor. *)
Lemma core_neutral o k s rid row pid cz pl e s' f :
  oracle_ok o → core_inv s → s.(runs) !! rid = Some row →
  append_event_in_tx o k (run_event_args rid row pid cz pl) s = Ok (e, s') →
  projection_neutral pl = true →
  (∀ row, row_projection rid (f row) = with_seq e.(seq) (row_projection rid row)) →
  core_inv (s' <| runs ::= alter f rid |>).
Proof.
  intros Ho [es Hc] Hrow Ha Hn Hf.
  destruct (core_append_run o k s es rid row (row_projection rid row)
              (with_seq e.(seq) (row_projection rid row)) pid cz pl e s') as [Hc' Hr];
    [done|by apply core_start|done|done|by apply neutral_not_created| |].
  { intros e' <- <-. by apply apply_neutral. }
  exists (es ++ [e]). eapply core_finish; [done|]. intros row'. rewrite Hr, Hrow.
  intros [= <-]. split; [apply Hf|]. specialize (Hf row). injection Hf as H1 H2 _ _ _ H3 H4 H5 _.
  unfold row_identity. congruence.
Qed.

Lemma core_inv_update s rid f :
  (∀ row, row_projection rid (f row) = row_projection rid row) →
  core_inv s → core_inv (s <| runs ::= alter f rid |>).
Proof. intros Hf [es Hc]. exists es. by apply core_update. Qed.

(** Read the guards of a command: the fence, the run's row and the recovered projection. *)
Ltac core_reads :=
  repeat match goal with
  | H : require_execution_context _ _ _ _ = Ok _ |- _ =>
      let Hrow := fresh "Hrow" in
      apply require_execution_context_Ok in H as [-> Hrow]
  | H : require_run_row _ _ = Ok _ |- _ =>
      let Hrow := fresh "Hrow" in apply require_run_row_Ok in H as [-> Hrow]
  | H : begin_optional_command _ _ _ _ _ = Ok _ |- _ =>
      apply begin_command_same in H; subst
  | H : require_optional_context _ _ _ _ = Ok _ |- _ =>
      apply require_optional_context_same in H; subst
  | Hc : core None ?s _, Hrow : runs ?s !! ?rid = Some ?row,
    H : recover_in_tx ?rid ?row ?s = Ok _ |- _ =>
      let Hp := fresh "Hp" in
      eapply recover_in_tx_Ok in H as [-> Hp]; [|exact Hc|exact Hrow];
      match type of Hp with rr_projection ?r = _ =>
        destruct r; cbn [rr_projection] in *; subst;
        cbn [row_projection p_phase p_execution_status p_last_event_seq] in * end
  end.

(** Close a goal about a state that differs from a known one in other tables only. *)
Ltac core_rest :=
  repeat match goal with
  | H : record_optional_command _ _ _ _ _ _ _ = Ok _ |- core_inv _ =>
      eapply core_inv_same; [eapply record_command_same; exact H|]; clear H
  end;
  first
    [ done
    | match goal with Hc : core_inv ?s |- core_inv _ =>
        apply (core_inv_same s); [red; reflexivity|exact Hc] end
    | idtac ].

(** Close a command that appended one event without run state. *)
Ltac core_one :=
  match goal with
  | H : append_event_in_tx _ _ _ _ = Ok (?e, ?s') |- core_inv _ =>
      eapply core_neutral; [done|..|exact H|done|done]
  end.

Lemma acquire_core o rid owner ttl t s r s' :
  core_inv s → acquire_run_lease o rid owner ttl t s = Ok (r, s') → core_inv s'.
Proof.
  intros Hc Hop. unfold acquire_run_lease, returned in Hop. tx_steps. core_reads.
  by apply core_inv_update.
Qed.

Lemma renew_core o c ttl t s r s' :
  core_inv s → renew_run_lease o c ttl t s = Ok (r, s') → core_inv s'.
Proof.
  intros Hc Hop. unfold renew_run_lease, returned in Hop. tx_steps. by apply core_inv_update.
Qed.

Lemma release_core lease s r s' :
  core_inv s → release_run_lease lease s = Ok (r, s') → core_inv s'.
Proof.
  intros Hc Hop. unfold release_run_lease, returned in Hop. tx_steps.
  by apply core_inv_update.
Qed.

Lemma reserve_core o rid bid cat amount pid ctx s r s' :
  oracle_ok o → core_inv s → reserve_budget o rid bid cat amount pid ctx s = Ok (r, s') →
  core_inv s'.
Proof.
  intros Ho Hc Hop. unfold reserve_budget, returned, committed in Hop.
  tx_steps; core_reads; [done|]. core_one; core_rest.
Qed.

Lemma settle_core o bid consumed pid ctx s r s' :
  oracle_ok o → core_inv s → settle_budget o bid consumed pid ctx s = Ok (r, s') → core_inv s'.
Proof.
  intros Ho Hc Hop. unfold settle_budget, returned, committed in Hop.
  tx_steps; core_reads; [|done]. core_one; core_rest.
Qed.

Lemma propose_core o rid p pid ctx s r s' :
  oracle_ok o → core_inv s → propose_tool_call o rid p pid ctx s = Ok (r, s') → core_inv s'.
Proof.
  intros Ho Hc Hop. unfold propose_tool_call, returned, committed in Hop.
  tx_steps; core_reads; [done|]. core_one; core_rest.
Qed.

Lemma request_approval_core o tid policy pid ctx s r s' :
  oracle_ok o → core_inv s → request_tool_approval o tid policy pid ctx s = Ok (r, s') →
  core_inv s'.
Proof.
  intros Ho Hc Hop. unfold request_tool_approval, returned, committed in Hop.
  tx_steps; core_reads; [done|]. core_one; core_rest.
Qed.

Lemma decide_core o aid fp d actor reason pid ctx cc s r s' :
  oracle_ok o → core_inv s →
  decide_tool_approval o aid fp d actor reason pid ctx cc s = Ok (r, s') → core_inv s'.
Proof.
  intros Ho Hc Hop. unfold decide_tool_approval, commit_decision, returned, committed in Hop.
  tx_steps; core_reads; [done|by core_rest|].
  core_rest. core_one; core_rest.
Qed.

Lemma cancellation_core o rid actor reason pid cc s r s' :
  oracle_ok o → core_inv s → request_cancellation o rid actor reason pid cc s = Ok (r, s') →
  core_inv s'.
Proof.
  intros Ho Hc Hop. unfold request_cancellation, returned in Hop.
  tx_steps; core_reads; [done|by core_rest|].
  core_rest. core_one; core_rest.
Qed.

Lemma dispatch_core o tid plan ex pid att ctx s r s' :
  oracle_ok o → core_inv s → dispatch_tool_call o tid plan ex pid att ctx s = Ok (r, s') →
  core_inv s'.
Proof.
  intros Ho Hc Hop. unfold dispatch_tool_call, returned, committed in Hop.
  tx_steps; core_reads; try done; core_one; core_rest.
Qed.

Lemma outcome_payload_neutral out tid aid rj ob err rt pl :
  outcome_payload out tid aid rj ob err rt = Ok pl → projection_neutral pl = true.
Proof.
  unfold outcome_payload. destruct out; intros (x & _ & [= <-])%result_bind_Ok; done.
Qed.

Lemma finish_core o aid out pid rc ou mt er rt ctx s r s' :
  oracle_ok o → core_inv s →
  finish_tool_attempt limits o aid out pid rc ou mt er rt ctx s = Ok (r, s') → core_inv s'.
Proof.
  intros Ho Hc Hop. unfold finish_tool_attempt, returned, committed in Hop.
  tx_steps; core_reads; [done|].
  match goal with H : outcome_payload _ _ _ _ _ _ _ = Ok _ |- _ =>
    apply outcome_payload_neutral in H end.
  match goal with H : put_optional_blob _ _ _ _ _ = Ok _ |- _ =>
    apply put_optional_blob_same in H; pose proof (same_runs _ _ H) as Hr;
    apply (core_inv_same _ _ H) in Hc; rewrite <- Hr in Hrow end.
  core_one; core_rest.
Qed.

(** *** Events that carry run state *)

(** Append the event of [H] to the run in flight [Hc]; the next projection is computed from
    the payload. *)
Ltac core_event H Hc Hrow Hc' Hr' :=
  edestruct core_append_run as [Hc' Hr'];
  [ eassumption|exact Hc|exact Hrow|exact H|done
  | let e := fresh "e" in let He := fresh "He" in let Hs := fresh "Hs" in
    intros e He Hs; unfold apply_payload; rewrite He, ?Hs; cbn;
    repeat (rewrite decide_True by (cbn; congruence)); reflexivity
  | ].

(** Close the command: the row reaches the projection in flight. *)
Ltac core_close :=
  eexists; eapply core_finish; [eassumption|];
  intros ? ?; simplify_eq; cbn; split; [|done];
  unfold row_projection, with_seq, with_phase, with_status, with_disposition; cbn; congruence.

Lemma transition_core o rid ex nx reason pid ctx s r s' :
  oracle_ok o → core_inv s → transition_run_phase o rid ex nx reason pid ctx s = Ok (r, s') →
  core_inv s'.
Proof.
  intros Ho [es Hc] Hop. unfold transition_run_phase, committed in Hop. tx_steps. core_reads.
  pose proof (core_start _ _ _ _ Hc Hrow) as Hc1.
  match goal with H : append_event_in_tx _ _ _ _ = Ok _ |- _ => core_event H Hc1 Hrow Hc2 Hr2 end.
  rewrite <- Hr2 in Hrow. core_close.
Qed.

(** [core_event] on the only, or the first, append of the command. *)
Ltac core_first Hc Hrow Hc' Hr' :=
  match goal with H : append_event_in_tx _ 0%nat _ _ = Ok _ |- _ =>
    core_event H Hc Hrow Hc' Hr' end.
Ltac core_second Hc Hrow Hc' Hr' :=
  match goal with H : append_event_in_tx _ 1%nat _ _ = Ok _ |- _ =>
    core_event H Hc Hrow Hc' Hr' end.

Lemma begin_provisioning_core o rid mode pid ctx s r s' :
  oracle_ok o → core_inv s → begin_workspace_provisioning o rid mode pid ctx s = Ok (r, s') →
  core_inv s'.
Proof.
  intros Ho [es Hc] Hop. unfold begin_workspace_provisioning, returned, committed in Hop.
  tx_steps; core_reads; [by exists es|].
  pose proof (core_start _ _ _ _ Hc Hrow) as Hc1.
  core_first Hc1 Hrow Hc2 Hr2. rewrite <- Hr2 in Hrow.
  core_second Hc2 Hrow Hc3 Hr3. rewrite <- Hr3 in Hrow. core_close.
Qed.

Lemma attach_core o rid path branch sha marker token pid ctx s r s' :
  oracle_ok o → core_inv s →
  attach_provisioned_workspace o rid path branch sha marker token pid ctx s = Ok (r, s') →
  core_inv s'.
Proof.
  intros Ho [es Hc] Hop. unfold attach_provisioned_workspace, returned, committed in Hop.
  tx_steps; core_reads; [by exists es|].
  pose proof (core_start _ _ _ _ Hc Hrow) as Hc1.
  core_first Hc1 Hrow Hc2 Hr2. rewrite <- Hr2 in Hrow.
  core_second Hc2 Hrow Hc3 Hr3. rewrite <- Hr3 in Hrow.
  unfold get_run_workspace in *. tx_steps. core_reads. core_close.
Qed.

Lemma disposition_core o rid ex tg reason pid s r s' :
  oracle_ok o → core_inv s →
  set_workspace_disposition o rid ex tg reason pid s = Ok (r, s') → core_inv s'.
Proof.
  intros Ho [es Hc] Hop. unfold set_workspace_disposition, returned in Hop.
  tx_steps. core_reads.
  pose proof (core_start _ _ _ _ Hc Hrow) as Hc1.
  core_first Hc1 Hrow Hc2 Hr2. rewrite <- Hr2 in Hrow.
  unfold get_run_workspace in *. tx_steps. core_reads. core_close.
Qed.

Lemma final_answer_core o rid re ab v pid ctx s r s' :
  oracle_ok o → core_inv s → commit_final_answer o rid re ab v pid ctx s = Ok (r, s') →
  core_inv s'.
Proof.
  intros Ho [es Hc] Hop. unfold commit_final_answer, complete_turn, committed in Hop.
  tx_steps. core_reads.
  pose proof (core_start _ _ _ _ Hc Hrow) as Hc1.
  core_first Hc1 Hrow Hc2 Hr2. rewrite <- Hr2 in Hrow.
  core_second Hc2 Hrow Hc3 Hr3. rewrite <- Hr3 in Hrow.
  eapply core_inv_same with (s := _ <| runs ::= alter _ _ |>); [red; reflexivity|]. core_close.
Qed.

Lemma complete_core o rid v pid ctx s r s' :
  oracle_ok o → core_inv s → complete_run o rid v pid ctx s = Ok (r, s') → core_inv s'.
Proof.
  intros Ho [es Hc] Hop. unfold complete_run, complete_turn, committed in Hop.
  tx_steps. core_reads.
  pose proof (core_start _ _ _ _ Hc Hrow) as Hc1.
  core_first Hc1 Hrow Hc2 Hr2. rewrite <- Hr2 in Hrow.
  eapply core_inv_same with (s := _ <| runs ::= alter _ _ |>); [red; reflexivity|]. core_close.
Qed.

Lemma terminate_core o rid st reason pid ctx s r s' :
  oracle_ok o → core_inv s → terminate_run o rid st reason pid ctx s = Ok (r, s') →
  core_inv s'.
Proof.
  intros Ho [es Hc] Hop. unfold terminate_run, returned, committed in Hop.
  tx_steps; core_reads; [by exists es|].
  pose proof (core_start _ _ _ _ Hc Hrow) as Hc1.
  core_first Hc1 Hrow Hc2 Hr2. rewrite <- Hr2 in Hrow. core_close.
Qed.

Lemma append_event_core o a ctx s r s' :
  oracle_ok o → core_inv s → command_ok s (AppendEvent a ctx) →
  append_event o a ctx s = Ok (r, s') → core_inv s'.
Proof.
  intros Ho [es Hc] Hcmd Hop. unfold append_event, returned, committed in Hop.
  tx_steps; core_reads.
  - destruct (Hcmd _ Hx) as [Hn Hs]. specialize (Hs _ Hrow).
    match goal with H : append_event_in_tx _ _ _ _ = Ok (?e, _) |- _ =>
      pose proof (append_Ok _ _ _ _ _ _ Ho H) as (_ & Hpay & _ & _ & _ & _ & _ & _ & _ & Hr & _);
      pose proof (core_append _ _ _ _ _ _ _ _ _ _
        (with_seq e.(seq) (row_projection s0 a1)) Ho (core_start _ _ _ _ Hc Hrow) Hrow H Hx Hs
        (neutral_not_created _ Hn)) as Hc2 end.
    rewrite <- Hpay in Hn. specialize (Hc2 (apply_neutral _ _ Hn)).
    rewrite <- Hr in Hrow. core_close.
  - eexists. by eapply core_append_session.
Qed.

Lemma create_session_core o sid root config pid s r s' :
  oracle_ok o → core_inv s → create_session o sid root config pid s = Ok (r, s') → core_inv s'.
Proof.
  intros Ho [es Hc] Hop. unfold create_session, returned in Hop.
  apply tx_bind_Ok in Hop as (u & s1 & Hins & Hop).
  assert (core None s1 es) as Hc1.
  { assert (ledger_kept s s1) as Hl by (eapply insert_session_ledger; [|exact Hins]; done).
    specialize (Hl (co_ledger _ _ _ Hc)). tx_steps. destruct Hc. by split. }
  tx_steps. eexists. by eapply core_append_session.
Qed.

Lemma core_insert_checkpoint s es cid cp :
  core None s es →
  (∃ row, s.(runs) !! cp.(cp_run_id) = Some row ∧ checkpoint_sound es cp row) →
  core None (s <| checkpoints ::= <[cid := cp]> |>) es.
Proof.
  intros [Hl Hrows Hok Hfk Hruns Hcps] Hcp. split; cbn; try done.
  - by refine (ledger_frame s _ _ _ Hl).
  - intros cid' cp' [[_ <-]|[_ Hcp']]%lookup_insert_Some; [done|by eapply Hcps].
Qed.

(** The snapshot of a projection validates only to that projection. *)
Lemma own_checkpoint_projection cp rid row p q :
  cp.(cp_snapshot_json) = snapshot_text (from_projection p) →
  projection_from_checkpoint_row cp rid row = Ok q → q = p.
Proof.
  intros Hj. unfold projection_from_checkpoint_row, assert_result, mbind, result_bind.
  rewrite Hj, snapshot_roundtrip. cbn -[to_projection from_projection snapshot_text].
  intros Hq. repeat case_match; simplify_eq. apply to_from_projection.
Qed.

Lemma checkpoint_core o rid cid pid ctx s r s' :
  oracle_ok o → core_inv s → commit_run_checkpoint o rid cid pid ctx s = Ok (r, s') →
  core_inv s'.
Proof.
  intros Ho [es Hc] Hop. unfold commit_run_checkpoint, committed in Hop. tx_steps. core_reads.
  match goal with H : append_event_in_tx _ _ _ ?t = Ok _ |- _ =>
    assert (core_inv t) as Hc1; [|core_one; [exact Hc1|exact Hrow]] end.
  exists es. apply core_insert_checkpoint; [done|]. eexists. split; [exact Hrow|]. intros q Hq.
  exists (run_events rid es), []. split; [by rewrite app_nil_r|].
  apply (own_checkpoint_projection _ _ _ (row_projection rid a0)) in Hq as ->; [|done].
  by destruct (co_runs _ _ _ Hc _ _ Hrow) as [-> _].
Qed.

Lemma rebuild_core o rid pid s r s' :
  oracle_ok o → core_inv s → rebuild_run_projection o rid pid s = Ok (r, s') → core_inv s'.
Proof.
  intros Ho [es Hc] Hop. unfold rebuild_run_projection, load_run_events_in_tx, returned in Hop.
  tx_steps. core_reads. destruct (run_replay _ _ _ _ _ Hc Hrow) as [Hl Hred].
  match goal with
  | H1 : events_from_rows _ = Ok ?l, H2 : reduce_run_events ?l None = Ok ?p |- _ =>
      rewrite Hl in H1; injection H1 as <-; rewrite Hred in H2; injection H2 as <-
  end.
  match goal with H : append_event_in_tx _ _ _ ?t = Ok _ |- _ =>
    assert (core_inv t) as Hc1 end.
  { exists es. eapply core_finish; [by apply core_start|]. intros ? ?; simplify_eq. done. }
  core_one; [exact Hc1|]. cbn. rewrite lookup_alter_eq, Hrow. cbn. f_equal. by destruct a.
Qed.

(** *** The creation of a run *)

Lemma reduce_creation sid tid rid root sha budget c ph :
  event_ok c → c.(run_id) = Some rid → c.(turn_id) = Some tid → c.(session_id) = sid →
  c.(payload) = RunCreatedPayload root sha budget →
  ph.(run_id) = Some rid → (c.(seq) < ph.(seq))%Z →
  ph.(payload) = RunPhaseChangedPayload None RunPhase.PREFLIGHTING "run created" →
  ∀ row, row_identity row = (sid, tid, root, sha, budget) →
  row.(r_execution_status) = ExecutionStatus.ACTIVE →
  row.(r_phase) = Some RunPhase.PREFLIGHTING →
  row.(r_workspace_disposition) = WorkspaceDisposition.NONE →
  row.(r_last_event_seq) = ph.(seq) →
  reduce_run_events [c; ph] None = Ok (row_projection rid row).
Proof.
  intros (Hv & _) Hr Ht Hs Hp Hr' Hlt Hp' row Hid H1 H2 H3 H4.
  assert (1 ≤ c.(seq))%Z as Hge.
  { unfold envelope_valid in Hv. by destruct (bool_decide_reflect (1 ≤ seq c)%Z);
      rewrite ?andb_false_r in Hv. }
  unfold reduce_run_events, initial_acc. cbn [reduce_loop]. unfold reduce_step.
  rewrite Hr, Hr', Hp, Hp', Ht. rewrite decide_False by (cbn; lia).
  cbn -[decide]. rewrite decide_False by lia. rewrite decide_True by done.
  unfold apply_payload. rewrite Hp'. cbn. do 2 f_equal. unfold row_identity in Hid.
  unfold row_projection. injection Hid as -> -> -> -> ->. rewrite H1, H2, H3, H4. by subst sid.
Qed.

Lemma fresh_run_events s es x rid : core x s es → s.(runs) !! rid = None → run_events rid es = [].
Proof.
  intros Hc Hn. apply filter_none. eapply Forall_impl; [exact (co_fk _ _ _ Hc)|].
  intros e. cbn. intros Hfk Hr. rewrite Hr in Hfk. cbn in Hfk. rewrite Hn in Hfk.
  by destruct Hfk.
Qed.

(** Three events and a fresh row make a new run. *)
Lemma core_new_run s s' es u c ph rid row :
  core None s es → ledger_inv s' → s.(runs) !! rid = None →
  s'.(events) = s.(events) ++ [row_of_event u; row_of_event c; row_of_event ph] →
  s'.(runs) = <[rid := row]> s.(runs) → s'.(checkpoints) = s.(checkpoints) →
  Forall event_ok [u; c; ph] → u.(run_id) = None → c.(run_id) = Some rid →
  ph.(run_id) = Some rid → c.(session_id) = row.(r_session_id) →
  ph.(session_id) = row.(r_session_id) →
  reduce_run_events [c; ph] None = Ok (row_projection rid row) →
  core None s' (es ++ [u; c; ph]).
Proof.
  intros Hc Hl' Hn Hev Hruns' Hcps' Hoks Hu Hcr Hpr Hcs Hps Hred.
  pose proof (fresh_run_events _ _ _ _ Hc Hn) as Hempty.
  assert (∀ rid', run_events rid' (es ++ [u; c; ph])
            = run_events rid' es ++ (if decide (rid = rid') then [c; ph] else [])) as Hre.
  { intros rid'. unfold run_events. rewrite list.filter_app. f_equal.
    rewrite !filter_cons, filter_nil, Hu, Hcr, Hpr.
    repeat case_decide; congruence. }
  destruct Hc as [Hl Hrows Hok Hfk Hruns Hcps]. split.
  - done.
  - by rewrite Hev, Hrows, fmap_app.
  - by apply Forall_app.
  - rewrite Hruns'. apply Forall_app. split.
    + eapply Forall_impl; [exact Hfk|]. intros e. cbn. destruct (run_id e); [|done]. cbn.
      intros ?. apply lookup_insert_is_Some'. by right.
    + rewrite !Forall_cons, Hu, Hcr, Hpr. cbn.
      split_and!; try done; apply lookup_insert_is_Some'; by left.
  - rewrite Hruns'. intros rid' row' [[<- <-]|[Hne Hrow']]%lookup_insert_Some; rewrite Hre.
    + rewrite Hempty, decide_True by done. cbn [app]. split; [done|]. by rewrite !Forall_cons.
    + rewrite decide_False by done. rewrite app_nil_r. by apply Hruns.
  - rewrite Hruns', Hcps'. intros cid cp Hcp.
    destruct (Hcps _ _ Hcp) as (row' & Hrow' & Hsound). exists row'. split.
    + rewrite lookup_insert_ne; [done|]. intros ->. congruence.
    + intros q Hq. destruct (Hsound q Hq) as (pre & post & Hpp & Hpre).
      rewrite Hre, Hpp. exists pre. rewrite <- app_assoc. by eexists.
Qed.

Lemma create_turn_and_run_core o sid tid rid msg root sha budget pid s r s' :
  oracle_ok o → core_inv s →
  create_turn_and_run limits o sid tid rid msg root sha budget pid s = Ok (r, s') → core_inv s'.
Proof.
  intros Ho [es Hc] Hop.
  pose proof (create_turn_and_run_ledger limits _ _ _ _ _ _ _ _ _ Ho _ _ _ Hop
                (co_ledger _ _ _ Hc)) as Hl'.
  unfold create_turn_and_run, returned in Hop. tx_steps.
  match goal with H : put_blob_in_tx _ _ _ _ _ = Ok _ |- _ =>
    apply put_blob_same in H; apply (core_same _ _ _ _ H) in Hc end.
  match goal with H : prepare_event _ _ _ _ = Ok (?u, _) |- _ =>
    apply prepare_event_Ok in H as (-> & Hu & _ & _ & _ & Hur & _ & _); [|done] end.
  match goal with H : insert_event _ _ = Ok _ |- _ =>
    apply insert_event_Ok in H as (_ & srow & Hsrow & Hseq & ->) end.
  match goal with H1 : append_event_in_tx o 1 _ _ = Ok _, H2 : append_event_in_tx o 2 _ _ = Ok _ |- _ =>
    destruct (append_next_seq _ _ _ _ _ _ Ho H1) as (n1 & Hn1 & Hseq1);
    apply append_Ok in H1
      as (Hcok & Hcp & Hcr & Hcs & Hct & _ & _ & _ & Hev1 & Hru1 & Hck1); [|done];
    apply append_Ok in H2
      as (Hpok & Hpp & Hpr & Hps & _ & _ & (r2 & Hr2 & Hq2) & _ & Hev2 & Hru2 & Hck2); [|done]
  end.
  cbn in Hn1, Hr2. simplify_eq.
  match goal with H : _ !! rid = None ∧ _ |- _ => destruct H as [Hn _] end.
  eexists. eapply core_new_run; [exact Hc|exact Hl'|exact Hn|..].
  - cbn. rewrite Hev2, Hev1. cbn. by rewrite <- !app_assoc.
  - cbn. rewrite Hru2, Hru1. cbn. by rewrite alter_insert_eq.
  - cbn. by rewrite Hck2, Hck1.
  - by rewrite !Forall_cons.
  - done.
  - done.
  - done.
  - done.
  - done.
  - eapply (reduce_creation sid tid rid (path_resolve root) sha budget); try done. cbn. lia.
Qed.
End commands.

(** *** All commands *)

Section all_commands.
Context `{PlatformLaws} (limits : BlobLimits).

Lemma command_core o c s v s' :
  oracle_ok o → core_inv s → command_ok s c → command_tx limits o c s = Ok (v, s') →
  core_inv s'.
Proof.
  intros Ho Hc Hok. destruct c; cbn [command_tx]; unfold advance;
    intros (x & s1 & Hop & [_ ->]%tx_ret_Ok)%tx_bind_Ok.
  - by eapply create_session_core.
  - unfold put_blob, returned in Hop. tx_steps.
    match goal with H : put_blob_in_tx _ _ _ _ _ = Ok _ |- _ => apply put_blob_same in H end.
    by eapply core_inv_same.
  - by eapply create_turn_and_run_core.
  - by eapply append_event_core.
  - by eapply acquire_core.
  - by eapply renew_core.
  - by eapply release_core.
  - by eapply begin_provisioning_core.
  - by eapply attach_core.
  - by eapply disposition_core.
  - by eapply checkpoint_core.
  - by eapply propose_core.
  - by eapply request_approval_core.
  - by eapply decide_core.
  - by eapply reserve_core.
  - by eapply settle_core.
  - by eapply cancellation_core.
  - by eapply dispatch_core.
  - by eapply finish_core.
  - by eapply transition_core.
  - by eapply final_answer_core.
  - by eapply complete_core.
  - by eapply terminate_core.
  - by eapply rebuild_core.
Qed.

Lemma reachable_core s : reachable limits s → core_inv s.
Proof.
  apply reachable_invariant.
  - intros m p. exists []. split; cbn; try done. split; cbn; try done; [by exists []|].
    apply NoDup_nil_2.
  - intros o c s1 v s2 _ Hc Ho Hok Htx. by eapply command_core.
Qed.

(** *** Properties *)

(** C1. The runs table refines the ledger: in every reachable database the stored events of
    every run decode, and reducing them from nothing gives exactly the status, phase,
    workspace disposition, identity, budget limits and cursor that the row holds. *)
Theorem runs_refine_ledger s rid row :
  reachable limits s → s.(runs) !! rid = Some row →
  ∃ es, load_run_events rid s = Ok (es, s)
        ∧ reduce_run_events es None = Ok (row_projection rid row).
Proof.
  intros [es Hc]%reachable_core Hrow. exists (run_events rid es).
  destruct (run_replay _ _ _ _ _ Hc Hrow) as [Hl Hred]. split; [|done].
  unfold load_run_events, require_run_row, load_run_events_in_tx.
  cbv [mbind tx_bind gets lift_option]. by rewrite Hrow, Hl.
Qed.

(** C33. Recovery succeeds on every reachable database and gives the projection of the row,
    whether it used a checkpoint or replayed everything. It keeps doing so when the
    checkpoint table is tampered with: rows deleted, or replaced or added by rows whose
    snapshot does not have the recorded digest or does not validate otherwise. *)
Theorem recovery_survives_bad_checkpoints s rid row cps :
  reachable limits s → s.(runs) !! rid = Some row →
  (∀ cid cp, cps !! cid = Some cp → cp.(cp_run_id) = rid →
     s.(checkpoints) !! cid = Some cp
     ∨ sha256_text cp.(cp_snapshot_json) ≠ cp.(cp_snapshot_sha256)
     ∨ ∃ e, projection_from_checkpoint_row cp rid row = Err e) →
  ∃ r, recover_run_projection rid (s <| checkpoints := cps |>) = Ok (r, s <| checkpoints := cps |>)
       ∧ r.(rr_projection) = row_projection rid row.
Proof.
  intros [es Hc]%reachable_core Hrow Hcps. set (s' := s <| checkpoints := cps |>).
  destruct (recover_loop_sound s es rid row [] (checkpoint_rows rid s')) as (r & Hr & Hp);
    [done|done| |].
  { eapply Forall_impl; [apply checkpoint_rows_spec|]. intros [cid cp] [Hkv Hrid].
    cbn in Hkv, Hrid |- *. split; [done|]. destruct (Hcps cid cp Hkv Hrid) as [Hold|[Hsha|[e He]]].
    - destruct (co_checkpoints _ _ _ Hc _ _ Hold) as (row' & Hrow' & ?). by simplify_eq.
    - intros q (u & Hu%assert_result_Ok & _)%result_bind_Ok. tauto.
    - intros q Hq. rewrite Hrid in Hq. congruence. }
  exists r. split; [|done].
  unfold recover_run_projection, require_run_row, recover_in_tx.
  cbv [mbind tx_bind gets lift_option lift_result]. cbn [runs]. change (runs s') with (runs s).
  rewrite Hrow.
  assert (∀ rej rows, recover_loop rid row rej rows s' = recover_loop rid row rej rows s) as Hsame.
  { intros rej rows. revert rej. induction rows as [|[cid cp] rows IH]; intros rej; [done|]. cbn.
    change (try_checkpoint rid row cp s') with (try_checkpoint rid row cp s).
    case_match; [done|]. by rewrite IH. }
  by rewrite Hsame, Hr.
Qed.

(** What a successful rebuild leaves in the row, whatever was written into the columns. *)
Lemma rebuild_row_Ok o s rid row st ph wd n pid r s' :
  reachable limits s → oracle_ok o → s.(runs) !! rid = Some row →
  rebuild_run_projection o rid pid
    (s <| runs ::= <[rid := row <| r_execution_status := st |> <| r_phase := ph |>
                                <| r_workspace_disposition := wd |>
                                <| r_last_event_seq := n |>]> |>) = Ok (r, s') →
  ∃ row' m, s'.(runs) !! rid = Some row'
    ∧ row_projection rid row' = with_seq m (row_projection rid row)
    ∧ (row.(r_last_event_seq) < m)%Z.
Proof.
  intros [es Hc]%reachable_core Ho Hrow. set (bad := row <| r_execution_status := st |> <| r_phase := ph |>
    <| r_workspace_disposition := wd |> <| r_last_event_seq := n |>).
  set (s1 := s <| runs ::= <[rid := bad]> |>). intros Hop.
  destruct (run_replay _ _ _ _ _ Hc Hrow) as [Hl Hred]. cbn in Hred.
  unfold rebuild_run_projection, load_run_events_in_tx, returned in Hop. tx_steps.
  match goal with H : require_run_row _ _ = Ok _ |- _ => apply require_run_row_Ok in H as [-> Hbad] end.
  cbn in Hbad. rewrite lookup_insert_eq in Hbad. simplify_eq.
  match goal with
  | H1 : events_from_rows _ = Ok ?l, H2 : reduce_run_events ?l None = Ok ?p |- _ =>
      change (run_rows rid 0 s1) with (run_rows rid 0 s) in H1;
      rewrite Hl in H1; injection H1 as <-; rewrite Hred in H2; injection H2 as <-
  end.
  match goal with H : append_event_in_tx _ _ _ _ = Ok (?e, _) |- _ =>
    apply append_Ok in H as (_ & _ & _ & _ & _ & _ & (srow & Hsrow & Hseq) & _ & _ & Hr & _);
      [|done]; exists (row <| r_last_event_seq := e.(seq) |>), e.(seq) end.
  destruct (core_last_seq _ _ _ _ _ Hc Hrow) as (srow' & Hsrow' & Hlt). cbn in Hsrow, Hlt.
  rewrite Hsrow in Hsrow'. simplify_eq.
  split_and!; [|done|lia]. cbn. rewrite Hr. cbn.
  by rewrite alter_insert_eq, alter_insert_eq, lookup_insert_eq.
Qed.
End all_commands.

(** Witness of [runs_refine_ledger]: the scenario's run. *)
Lemma runs_refine_ledger_witness :
  ∃ row es, final_db.(runs) !! "run" = Some row
    ∧ @load_run_events plain_platform "run" final_db = Ok (es, final_db)
    ∧ reduce_run_events es None = Ok (row_projection "run" row).
Proof.
  destruct (runs final_db !! "run") as [row|] eqn:Hrow; [|vm_compute in Hrow; discriminate].
  destruct (runs_refine_ledger demo_limits final_db "run" row final_reachable Hrow) as [es Hes].
  exists row, es. exact (conj eq_refl Hes).
Defined.

(** A checkpoint row that fails validation. *)
Definition bad_checkpoint : CheckpointRow :=
  {| cp_run_id := "run"; cp_through_seq := 9; cp_state_version := 1; cp_phase := "terminal";
     cp_snapshot_json := "{}"; cp_snapshot_sha256 := "wrong"; cp_created_at := 0 |}.

(** Witness of [recovery_survives_bad_checkpoints]: the scenario with its checkpoint replaced
    by one whose checksum is wrong. *)
Lemma recovery_survives_bad_checkpoints_witness :
  ∃ row r, final_db.(runs) !! "run" = Some row
    ∧ @recover_run_projection plain_platform "run"
        (final_db <| checkpoints := {[ "checkpoint" := bad_checkpoint ]} |>)
      = Ok (r, final_db <| checkpoints := {[ "checkpoint" := bad_checkpoint ]} |>)
    ∧ r.(rr_projection) = row_projection "run" row.
Proof.
  destruct (runs final_db !! "run") as [row|] eqn:Hrow; [|vm_compute in Hrow; discriminate].
  destruct (recovery_survives_bad_checkpoints demo_limits final_db "run" row
              {[ "checkpoint" := bad_checkpoint ]} final_reachable Hrow) as [r Hr].
  - intros cid cp [_ <-]%lookup_singleton_Some _. right. right. eexists. reflexivity.
  - exists row, r. exact (conj eq_refl Hr).
Defined.
