(* ===== verification/Lifecycle.v ===== *)
(** * Lifecycle: what may happen to a run over time

    Laws that relate a run's row before and after any command: lease epochs and their
    owners, cancellation requests, identity and execution status. From them follow the
    fencing guarantees: a worker whose lease was taken over can never again change the
    database. The last part holds the sums over tables and the automation for what a body
    leaves alone, which the files on tools, budgets and model calls use. *)

From S2P Require Import Prelude Domain Platform Json Events Projection ToolIdentity Tables.
From S2P Require Import Ledger ModelCalls Leases Checkpoints Runs Tools Budget Store Scenario.
From S2P Require Import LedgerSafety RunSafety.

(** ** Relations on rows *)

(** Every run keeps a row, related to its old one by [Q]. *)
Definition runs_rel (Q : relation RunRow) : relation db := λ s s',
  ∀ rid row, s.(runs) !! rid = Some row → ∃ row', s'.(runs) !! rid = Some row' ∧ Q row row'.

#[global] Instance runs_rel_preorder Q `{!PreOrder Q} : PreOrder (runs_rel Q).
Proof.
  split.
  - intros s rid row Hrow. by exists row.
  - intros s1 s2 s3 H12 H23 rid row Hrow. destruct (H12 _ _ Hrow) as (row2 & Hrow2 & HQ2).
    destruct (H23 _ _ Hrow2) as (row3 & Hrow3 & HQ3). exists row3. split; [done|by etrans].
Qed.

Lemma runs_rel_frame Q `{!PreOrder Q} s s' : s'.(runs) = s.(runs) → runs_rel Q s s'.
Proof. intros Hr rid row Hrow. exists row. by rewrite Hr. Qed.

Lemma runs_rel_alter Q `{!PreOrder Q} s rid f :
  (∀ row, s.(runs) !! rid = Some row → Q row (f row)) →
  runs_rel Q s (s <| runs ::= alter f rid |>).
Proof.
  intros Hf rid' row Hrow. cbn. rewrite lookup_alter. case_decide as Hd; [|by exists row].
  subst rid'. rewrite Hrow. cbn. eauto.
Qed.

Lemma runs_rel_insert Q `{!PreOrder Q} s rid row0 :
  s.(runs) !! rid = None → runs_rel Q s (s <| runs ::= <[rid := row0]> |>).
Proof.
  intros Hn rid' row Hrow. cbn. exists row. rewrite lookup_insert_ne; [done|]. congruence.
Qed.

(** The epoch never decreases, and while it stays the owner stays or leaves. *)
Definition lease_law (row row' : RunRow) : Prop :=
  (row.(r_lease_epoch) ≤ row'.(r_lease_epoch))%Z
  ∧ (row'.(r_lease_epoch) = row.(r_lease_epoch) →
     row'.(r_lease_owner) = row.(r_lease_owner) ∨ row'.(r_lease_owner) = None).

(** A cancellation request stays. *)
Definition cancel_law (row row' : RunRow) : Prop :=
  is_Some row.(r_cancel_requested_at) → row'.(r_cancel_requested_at) = row.(r_cancel_requested_at).

(** The identity of a run stays. *)
Definition identity_law (row row' : RunRow) : Prop := row_identity row' = row_identity row.

(** Only an active run changes its status. *)
Definition status_law (row row' : RunRow) : Prop :=
  row.(r_execution_status) ≠ ExecutionStatus.ACTIVE →
  row'.(r_execution_status) = row.(r_execution_status).

#[global] Instance lease_law_preorder : PreOrder lease_law.
Proof.
  split; [intros row; split; [lia|by left]|].
  intros r1 r2 r3 [H12 H12'] [H23 H23']. split; [lia|]. intros He.
  destruct H12' as [Ho|Ho]; [lia|..]; destruct H23' as [Ho'|Ho']; try lia; rewrite Ho', ?Ho; auto.
Qed.

#[global] Instance cancel_law_preorder : PreOrder cancel_law.
Proof.
  split; [by intros row|]. intros r1 r2 r3 H12 H23 Hs. specialize (H12 Hs).
  rewrite H23, H12; [done|]. by rewrite H12.
Qed.

#[global] Instance identity_law_preorder : PreOrder identity_law.
Proof. unfold identity_law. split; red; intros; congruence. Qed.

#[global] Instance status_law_preorder : PreOrder status_law.
Proof.
  unfold status_law. split; [done|]. intros r1 r2 r3 H12 H23 Hn. specialize (H12 Hn).
  rewrite H23, H12; [done|]. by rewrite H12.
Qed.

(** Close the leaves of a walk over a body: statements that do not touch [runs], insertions
    of new rows, and updates that keep the columns of the law. *)
Ltac runs_leaf :=
  first
    [ apply runs_rel_frame; [apply _|reflexivity]
    | apply runs_rel_insert; [apply _|tauto]
    | apply runs_rel_alter; [apply _|]; intros ? _; red; cbn; solve [auto | split; auto; lia | constructor | reflexivity] ].

#[global] Hint Extern 2 (runs_rel _ _ _) => runs_leaf : tx_rel.

Section laws.
Context `{PlatformLaws} (limits : BlobLimits).

Lemma append_runs_rel Q `{!PreOrder Q} o k a : tx_rel (runs_rel Q) (append_event_in_tx o k a).
Proof. apply append_rel; [apply _|..]; intros; by apply runs_rel_frame. Qed.

Lemma insert_event_runs_rel Q `{!PreOrder Q} e : tx_rel (runs_rel Q) (insert_event e).
Proof. apply insert_event_rel; [apply _|..]; intros; by apply runs_rel_frame. Qed.

Lemma prepare_event_runs_rel Q `{!PreOrder Q} o k a : tx_rel (runs_rel Q) (prepare_event o k a).
Proof. by apply prepare_event_rel, _. Qed.
Hint Resolve append_runs_rel insert_event_runs_rel prepare_event_runs_rel : tx_rel.
Hint Extern 1 (PreOrder _) => apply _ : tx_rel.

(** *** Leases *)

Lemma acquire_lease_law o rid owner ttl t :
  tx_rel (runs_rel lease_law) (acquire_run_lease o rid owner ttl t).
Proof.
  intros s r s' Hop. unfold acquire_run_lease, returned in Hop. tx_steps.
  match goal with H : require_run_row _ _ = Ok _ |- _ => apply require_run_row_Ok in H as [-> Hrow] end.
  apply runs_rel_alter; [apply _|]. intros row Hrow'. simplify_eq. red. cbn. unfold next_epoch.
  case_decide as Ho; split; try lia. intros _. left. congruence.
Qed.
Hint Resolve acquire_lease_law : tx_rel.

Lemma command_lease_law o c : tx_rel (runs_rel lease_law) (command_tx limits o c).
Proof. destruct c; cbn [command_tx]; tx_rel_ops. Qed.

(** *** Identity *)

Lemma command_identity_law o c : tx_rel (runs_rel identity_law) (command_tx limits o c).
Proof. destruct c; cbn [command_tx]; tx_rel_ops. Qed.

(** *** Cancellation *)

Lemma cancellation_cancel_law o rid actor reason pid cc :
  tx_rel (runs_rel cancel_law) (request_cancellation o rid actor reason pid cc).
Proof.
  intros s r s' Hop. unfold request_cancellation, returned in Hop. tx_steps;
    repeat match goal with
    | H : require_run_row _ _ = Ok _ |- _ => apply require_run_row_Ok in H as [-> Hrow]
    | H : begin_optional_command _ _ _ _ _ = Ok _ |- _ => apply begin_command_same in H; subst
    end; [done|..].
  - match goal with H : record_optional_command _ _ _ _ _ _ _ = Ok _ |- _ =>
      apply record_command_same, same_runs in H; apply runs_rel_frame; [apply _|done] end.
  - match goal with H : record_optional_command _ _ _ _ _ _ _ = Ok _ |- _ =>
      apply record_command_same, same_runs in H; etrans; [|apply runs_rel_frame; [apply _|exact H]]; clear H end.
    match goal with H : append_event_in_tx _ _ _ _ = Ok _ |- _ =>
      pose proof (append_rel (same runs) _ _ _ ltac:(done) ltac:(done) ltac:(done) _ _ _ H) as Hr;
      apply (append_runs_rel cancel_law) in H; etrans; [exact H|] end.
    apply runs_rel_alter; [apply _|]. intros row Hrow' [x Hx']. rewrite Hr in Hrow'.
    by simplify_eq.
Qed.
Hint Resolve cancellation_cancel_law : tx_rel.

Lemma command_cancel_law o c : tx_rel (runs_rel cancel_law) (command_tx limits o c).
Proof. destruct c; cbn [command_tx]; tx_rel_ops. Qed.

(** *** Status *)

(** A command that appends events and then sets the status of the run it recovered. *)
Lemma status_update s s1 rid row f :
  s.(runs) !! rid = Some row → s1.(runs) = s.(runs) →
  (row.(r_execution_status) ≠ ExecutionStatus.ACTIVE →
   (f row).(r_execution_status) = row.(r_execution_status)) →
  runs_rel status_law s (s1 <| runs ::= alter f rid |>).
Proof.
  intros Hrow Hr Hf. etrans; [apply (runs_rel_frame _ s s1 Hr)|].
  apply runs_rel_alter; [apply _|]. intros row'. rewrite Hr, Hrow. by intros [= <-].
Qed.

Lemma append_same_runs o k a s e s' :
  append_event_in_tx o k a s = Ok (e, s') → s'.(runs) = s.(runs).
Proof. apply (append_rel (same runs)); done. Qed.

Ltac status_reads Hc :=
  repeat match goal with
  | H : require_execution_context _ _ _ _ = Ok _ |- _ =>
      let Hrow := fresh "Hrow" in
      apply require_execution_context_Ok in H as [-> Hrow]
  | H : require_run_row _ _ = Ok _ |- _ =>
      let Hrow := fresh "Hrow" in apply require_run_row_Ok in H as [-> Hrow]
  | Hrow : runs ?s !! ?rid = Some ?row, H : recover_in_tx ?rid ?row ?s = Ok _ |- _ =>
      let Hp := fresh "Hp" in
      eapply recover_in_tx_Ok in H as [-> Hp]; [|exact Hc|exact Hrow];
      match type of Hp with rr_projection ?r = _ =>
        destruct r; cbn [rr_projection] in *; subst;
        cbn [row_projection p_phase p_execution_status p_last_event_seq] in * end
  | H : append_event_in_tx _ _ _ _ = Ok _ |- _ => apply append_same_runs in H
  end.

Lemma completes_active_or_completed st :
  can_transition_execution st ExecutionStatus.COMPLETED = true →
  st ≠ ExecutionStatus.ACTIVE → st = ExecutionStatus.COMPLETED.
Proof. by destruct st. Qed.

Lemma complete_status o rid v pid ctx s r s' :
  core_inv s → complete_run o rid v pid ctx s = Ok (r, s') → runs_rel status_law s s'.
Proof.
  intros [es Hc] Hop. unfold complete_run, complete_turn, committed in Hop. tx_steps.
  status_reads Hc. etrans; [eapply status_update|by apply (runs_rel_frame status_law)]; [done|done|].
  cbn. intros Hn. symmetry. apply completes_active_or_completed; [|done]. tauto.
Qed.

Lemma final_answer_status o rid re ab v pid ctx s r s' :
  core_inv s → commit_final_answer o rid re ab v pid ctx s = Ok (r, s') → runs_rel status_law s s'.
Proof.
  intros [es Hc] Hop. unfold commit_final_answer, complete_turn, committed in Hop. tx_steps.
  status_reads Hc. etrans; [eapply status_update|by apply (runs_rel_frame status_law)]; [done|congruence|].
  cbn. by match goal with H : _ = ExecutionStatus.ACTIVE |- _ => rewrite H end.
Qed.

Lemma terminate_status o rid st reason pid ctx s r s' :
  core_inv s → terminate_run o rid st reason pid ctx s = Ok (r, s') → runs_rel status_law s s'.
Proof.
  intros [es Hc] Hop. unfold terminate_run, returned, committed in Hop. tx_steps; [|].
  - by status_reads Hc.
  - status_reads Hc. eapply status_update; [done|done|]. cbn.
    clear Hx. apply dec_stable in n. by rewrite n.
Qed.

Lemma rebuild_status o rid pid s r s' :
  core_inv s → rebuild_run_projection o rid pid s = Ok (r, s') → runs_rel status_law s s'.
Proof.
  intros [es Hc] Hop. unfold rebuild_run_projection, load_run_events_in_tx, returned in Hop.
  tx_steps. status_reads Hc. destruct (run_replay _ _ _ _ _ Hc Hrow) as [Hl Hred].
  match goal with
  | H1 : events_from_rows _ = Ok ?l, H2 : reduce_run_events ?l None = Ok ?p |- _ =>
      rewrite Hl in H1; injection H1 as <-; rewrite Hred in H2; injection H2 as <-
  end.
  intros rid' row Hrow'. cbn.
  match goal with H : _ = runs _ |- _ => rewrite H end. cbn. rewrite !lookup_alter.
  case_decide as Hd; [|by exists row].
  subst rid'. simplify_eq. rewrite decide_True by done. rewrite Hrow. cbn.
  by eexists.
Qed.

Lemma command_status_law o c s v s' :
  core_inv s → command_tx limits o c s = Ok (v, s') → runs_rel status_law s s'.
Proof.
  intros Hc. destruct c; cbn [command_tx];
    try (revert s v s' Hc; match goal with |- ∀ s v s', _ → ?m s = _ → _ =>
      assert (tx_rel (runs_rel status_law) m) as Hm by tx_rel_ops; by intros s v s' _ Hop; eapply Hm end);
    unfold advance; intros (x & s1 & Hop & [_ ->]%tx_ret_Ok)%tx_bind_Ok.
  - by eapply final_answer_status.
  - by eapply complete_status.
  - by eapply terminate_status.
  - by eapply rebuild_status.
Qed.
End laws.

(** ** Fencing *)

Section fencing.
Context `{PlatformLaws} (limits : BlobLimits).

(** The execution context a command carries. *)
Definition command_context (c : command) : option ExecutionContext :=
  match c with
  | AppendEvent a ctx => match a.(ea_run_id) with Some _ => ctx | None => None end
  | BeginWorkspaceProvisioning _ _ _ ctx | AttachProvisionedWorkspace _ _ _ _ _ _ _ ctx
  | CommitRunCheckpoint _ _ _ ctx | ProposeToolCall _ _ _ ctx | RequestToolApproval _ _ _ ctx
  | DecideToolApproval _ _ _ _ _ _ ctx _ | ReserveBudget _ _ _ _ _ ctx | SettleBudget _ _ _ ctx
  | DispatchToolCall _ _ _ _ _ ctx | FinishToolAttempt _ _ _ _ _ _ _ _ ctx
  | TransitionRunPhase _ _ _ _ _ ctx | CommitFinalAnswer _ _ _ _ _ ctx | CompleteRun _ _ _ ctx
  | TerminateRun _ _ _ _ ctx => ctx
  | _ => None
  end.

(** The context does not hold the lease at time [t], or did not see the last event. *)
Definition stale_context (t : Z) (c : ExecutionContext) (s : db) : Prop :=
  ∀ row, s.(runs) !! c.(ec_run_id) = Some row →
    ¬ (holds_lease row c.(ec_worker_id) c.(ec_lease_epoch) t
       ∧ row.(r_last_event_seq) = c.(ec_stream_version)).

Lemma fence_Ok t rid c s row s' :
  require_execution_context t rid (Some c) s = Ok (row, s') →
  s' = s ∧ rid = c.(ec_run_id) ∧ s.(runs) !! rid = Some row
  ∧ holds_lease row c.(ec_worker_id) c.(ec_lease_epoch) t
  ∧ row.(r_last_event_seq) = c.(ec_stream_version).
Proof. unfold require_execution_context, require_run_row. intros Hr. by tx_steps. Qed.

Lemma fence_stale t rid c s row s' :
  stale_context t c s → require_execution_context t rid (Some c) s = Ok (row, s') → False.
Proof. intros Hs (_ & -> & Hrow & Hh & Hv)%fence_Ok. by apply (Hs row). Qed.

Lemma stale_command o c ctx s v s' :
  command_context c = Some ctx → stale_context (o.(now) 0%nat) ctx s →
  command_tx limits o c s = Ok (v, s') → s' = s.
Proof.
  intros Hctx Hs Htx.
  destruct c; cbn [command_context] in Hctx; try discriminate;
    cbn [command_tx] in Htx; subst;
    unfold advance, append_event, begin_workspace_provisioning, attach_provisioned_workspace,
      commit_run_checkpoint, propose_tool_call, request_tool_approval, decide_tool_approval,
      reserve_budget, settle_budget, dispatch_tool_call, finish_tool_attempt,
      transition_run_phase, commit_final_answer, complete_run, terminate_run,
      require_optional_context, returned, committed in Htx;
    tx_steps;
    repeat match goal with
    | H : begin_optional_command _ _ _ _ _ = Ok _ |- _ => apply begin_command_same in H; subst
    | H : require_execution_context _ _ _ _ = Ok _ |- _ =>
        exfalso; eapply fence_stale; [|exact H]; eassumption
    end; done.
Qed.

(** *** Histories *)

(** [later s s']: some commands were executed, with any outcome. *)
Definition later : relation db := rtc (λ s s', ∃ o c, s' = exec limits o c s).

Lemma later_rel (R : relation db) `{!PreOrder R} s s' :
  (∀ o c, tx_rel R (command_tx limits o c)) → later s s' → R s s'.
Proof.
  intros HR. induction 1 as [s|s1 s2 s3 (o & c & ->) _ IH]; [done|].
  etrans; [|exact IH]. by apply exec_rel.
Qed.
End fencing.

(** *** Properties *)

Section properties.
Context `{PlatformLaws} (limits : BlobLimits).

(** Fencing: a command whose execution context does not hold the run's lease (another
    owner, another epoch, expired) or missed an event of the run changes nothing in the
    database, whatever the command is and whatever else is in the database. *)
Theorem stale_context_changes_nothing o c ctx s :
  command_context c = Some ctx → stale_context (o.(now) 0%nat) ctx s → exec limits o c s = s.
Proof.
  intros Hctx Hs. destruct (exec_cases limits o c s) as [->|[v Htx]]; [done|].
  by eapply stale_command.
Qed.

(** Lease epochs are fencing tokens: along any history the epoch of a run never decreases,
    and as long as it stays the same no second owner appears. *)
Theorem lease_epoch_law s s' rid row :
  later limits s s' → s.(runs) !! rid = Some row →
  ∃ row', s'.(runs) !! rid = Some row'
    ∧ (row.(r_lease_epoch) ≤ row'.(r_lease_epoch))%Z
    ∧ (row'.(r_lease_epoch) = row.(r_lease_epoch) →
       row'.(r_lease_owner) = row.(r_lease_owner) ∨ row'.(r_lease_owner) = None).
Proof.
  intros Hl Hrow. apply (later_rel limits (runs_rel lease_law)) in Hl; [|apply command_lease_law].
  by apply Hl.
Qed.

(** C4. A takeover fences the previous owner for ever: once another worker has acquired the
    run, no command with a context of the old epoch changes the database, at any later
    time and in any later state. *)
Theorem takeover_fences_old_owner o rid w owner ttl t s row r s1 s2 o' c ctx :
  s.(runs) !! rid = Some row → row.(r_lease_owner) = Some w → owner ≠ w →
  acquire_run_lease o rid owner ttl t s = Ok (r, s1) →
  later limits s1 s2 →
  ctx.(ec_run_id) = rid → (ctx.(ec_lease_epoch) ≤ row.(r_lease_epoch))%Z →
  command_context c = Some ctx → exec limits o' c s2 = s2.
Proof.
  intros Hrow Hw Hne Hacq Hl Hrid Hep Hctx.
  assert (∃ row1, s1.(runs) !! rid = Some row1
                  ∧ r_lease_epoch row1 = (r_lease_epoch row + 1)%Z) as (row1 & Hrow1 & He1).
  { unfold acquire_run_lease, returned in Hacq. tx_steps.
    match goal with H : require_run_row _ _ = Ok _ |- _ =>
      apply require_run_row_Ok in H as [-> Hrow'] end.
    simplify_eq. cbn. rewrite lookup_alter_eq.
    match goal with H : runs _ !! _ = Some _ |- _ => rewrite H end.
    eexists. split; [done|]. cbn.
    unfold next_epoch. rewrite decide_False; [done|congruence]. }
  apply (later_rel limits (runs_rel lease_law)) in Hl; [|apply command_lease_law].
  destruct (Hl _ _ Hrow1) as (row2 & Hrow2 & Hle & _).
  destruct (exec_cases limits o' c s2) as [->|[v Htx]]; [done|].
  eapply stale_command; [exact Hctx| |exact Htx]. subst rid.
  intros row2' Hrow2' [(_ & Hep' & _) _]. simplify_eq. lia.
Qed.

(** An acquisition never takes a live lease from another owner: it raises a lease conflict
    and the database keeps its state. *)
Theorem live_lease_excludes o rid owner ttl t s row :
  s.(runs) !! rid = Some row → blank owner = false → ttl_valid ttl →
  leased_by_other row owner (default (o.(now) 0%nat) t) →
  acquire_run_lease o rid owner ttl t s = Err LeaseConflictError
  ∧ exec limits o (AcquireRunLease rid owner ttl t) s = s.
Proof.
  intros Hrow Hb Ht Hl.
  assert (acquire_run_lease o rid owner ttl t s = Err LeaseConflictError) as Herr.
  { unfold acquire_run_lease, require_run_row. cbv [mbind tx_bind require gets lift_option].
    rewrite decide_True by done. rewrite Hrow. rewrite decide_False by naive_solver. done. }
  split; [done|]. unfold exec, run_tx. cbn [command_tx]. unfold advance, mbind, tx_bind.
  by rewrite Herr.
Qed.

(** An ended run stays ended: in a reachable database a run that is completed, failed,
    cancelled, out of budget or in need of attention keeps its status under every command
    (so the store offers no way out of NEEDS_ATTENTION either). *)
Theorem ended_status_final s o c rid row :
  reachable limits s → s.(runs) !! rid = Some row →
  row.(r_execution_status) ≠ ExecutionStatus.ACTIVE →
  ∃ row', (exec limits o c s).(runs) !! rid = Some row'
          ∧ row'.(r_execution_status) = row.(r_execution_status).
Proof.
  intros Hs%reachable_core Hrow Ht.
  destruct (exec_cases limits o c s) as [->|[v Htx]]; [by exists row|].
  destruct (command_status_law limits _ _ _ _ _ Hs Htx _ _ Hrow) as (row' & Hrow' & Hp).
  exists row'. split; [done|]. by apply Hp.
Qed.

(** C36. Cancellation is permanent: along any history a recorded cancellation request keeps its
    time, and no tool call of the run is dispatched after it. *)
Theorem cancellation_blocks_dispatch s s' rid row o tid plan ex pid att ctx call :
  later limits s s' → s.(runs) !! rid = Some row → is_Some row.(r_cancel_requested_at) →
  s'.(tool_calls) !! tid = Some call → call.(tc_run_id) = rid →
  (∃ row', s'.(runs) !! rid = Some row'
           ∧ row'.(r_cancel_requested_at) = row.(r_cancel_requested_at))
  ∧ exec limits o (DispatchToolCall tid plan ex pid att ctx) s' = s'.
Proof.
  intros Hl Hrow Hc Hcall Hrid.
  apply (later_rel limits (runs_rel cancel_law)) in Hl; [|apply command_cancel_law].
  destruct (Hl _ _ Hrow) as (row' & Hrow' & Hk). split; [exists row'; split; [done|by apply Hk]|].
  destruct (exec_cases limits o (DispatchToolCall tid plan ex pid att ctx) s') as [->|[v Htx]];
    [done|].
  cbn [command_tx] in Htx. unfold advance, dispatch_tool_call, returned, committed in Htx.
  specialize (Hk Hc). destruct Hc as [z Hz].
  tx_steps; [congruence|exfalso..];
    match goal with H : require_execution_context _ _ _ _ = Ok _ |- _ =>
      apply require_execution_context_Ok in H as [-> Hr]; simplify_eq; congruence end.
Qed.
End properties.

(** ** The context stays in step with the run *)

Section sync.
Context `{PlatformLaws} (limits : BlobLimits).

(** The stream version a fenced command reports is the cursor its run ends at, and is
    beyond what the context had seen. *)
Definition in_step (ctx : ExecutionContext) (n : Z) (s' : db) : Prop :=
  (ctx.(ec_stream_version) < n)%Z
  ∧ r_last_event_seq <$> s'.(runs) !! ctx.(ec_run_id) = Some n.

Lemma append_seq_bound o k rid row a s t e t' :
  oracle_ok o → core_inv s → s.(runs) !! rid = Some row → t.(sessions) = s.(sessions) →
  append_event_in_tx o k a t = Ok (e, t') → a.(ea_session_id) = row.(r_session_id) →
  (row.(r_last_event_seq) < e.(seq))%Z.
Proof.
  intros Ho [es Hc] Hrow Hs Ha Hsid.
  apply append_Ok in Ha as (_ & _ & _ & _ & _ & _ & (srow & Hsrow & ->) & _); [|done].
  destruct (core_last_seq _ _ _ _ _ Hc Hrow) as (srow' & Hsrow' & Hlt). cbn in Hsrow, Hlt.
  rewrite Hs, Hsid in Hsrow. by simplify_eq.
Qed.

Lemma append_twice o j k rid row pid cz1 pl1 cz2 pl2 t e1 t1 e2 t2 :
  oracle_ok o →
  append_event_in_tx o j (run_event_args rid row pid cz1 pl1) t = Ok (e1, t1) →
  append_event_in_tx o k (run_event_args rid row pid cz2 pl2) t1 = Ok (e2, t2) →
  e2.(seq) = (e1.(seq) + 1)%Z.
Proof.
  intros Ho Ha1 Ha2. destruct (append_next_seq _ _ _ _ _ _ Ho Ha1) as (r1 & Hr1 & Hs1).
  apply append_Ok in Ha2 as (_ & _ & _ & _ & _ & _ & (r2 & Hr2 & ->) & _); [|done].
  cbn in Hr1, Hr2. by simplify_eq.
Qed.

Lemma in_step_intro ctx s t e f rid row :
  rid = ctx.(ec_run_id) → row.(r_last_event_seq) = ctx.(ec_stream_version) →
  (row.(r_last_event_seq) < e)%Z → s.(runs) !! rid = Some row → t.(runs) = s.(runs) →
  r_last_event_seq (f row) = e → in_step ctx e (t <| runs ::= alter f rid |>).
Proof.
  intros -> Hv Hlt Hrow Hr Hf. split; [lia|]. cbn. rewrite lookup_alter_eq, Hr, Hrow. cbn.
  by rewrite Hf.
Qed.

Lemma same_sessions s s' : same core_tables s s' → s'.(sessions) = s.(sessions).
Proof. unfold same, core_tables. by intros [= ? ? ? ?]. Qed.

Lemma in_step_same ctx n s s' : s'.(runs) = s.(runs) → in_step ctx n s → in_step ctx n s'.
Proof. unfold in_step. by intros ->. Qed.

Lemma in_step_turns ctx n s f : in_step ctx n s → in_step ctx n (s <| turns ::= f |>).
Proof. done. Qed.

(** Read the guards of a fenced command. *)
Ltac sync_reads :=
  repeat match goal with
  | H : begin_optional_command _ _ _ _ _ = Ok _ |- _ => apply begin_command_same in H; subst
  | H : require_execution_context _ _ _ _ = Ok _ |- _ =>
      apply fence_Ok in H as (-> & ? & ? & _ & ?)
  | H : require_run_row _ _ = Ok _ |- _ => apply require_run_row_Ok in H as [-> ?]
  | H : recover_in_tx _ _ _ = Ok _ |- _ =>
      unfold recover_in_tx in H; apply tx_bind_Ok in H as (? & ? & [_ ->]%gets_Ok & [_ ->]%lift_result_Ok)
  | H : get_run_workspace _ _ = Ok _ |- _ =>
      unfold get_run_workspace in H; apply tx_bind_Ok in H as (? & ? & [-> ?]%require_run_row_Ok & [_ ->]%tx_ret_Ok)
  end.

Ltac sync_open Hop Hx := tx_steps; cbn [snd] in Hx; simplify_eq; sync_reads.

(** One append between the guards and the update of the row. *)
Ltac sync_one Ho Hc :=
  match goal with H : append_event_in_tx ?o _ (run_event_args ?rid ?row _ _ _) ?t = Ok (?e, _),
                  Hrow : runs ?s !! ?rid = Some ?row |- _ =>
    eapply (in_step_intro _ s _ _ _ rid row);
    [ assumption|assumption
    | eapply append_seq_bound; [exact Ho|exact Hc|exact Hrow| |exact H|]; try reflexivity
    | exact Hrow | rewrite (append_same_runs _ _ _ _ _ _ H); try reflexivity | reflexivity ]
  end.

Ltac sync_two Ho Hc :=
  match goal with
    H1 : append_event_in_tx ?o 0%nat (run_event_args ?rid ?row _ _ _) ?t = Ok (?e1, ?t1),
    H2 : append_event_in_tx ?o 1%nat _ ?t1 = Ok (?e2, _),
    Hrow : runs ?s !! ?rid = Some ?row |- _ =>
    pose proof (append_seq_bound _ _ _ _ _ s _ _ _ Ho Hc Hrow eq_refl H1 eq_refl);
    pose proof (append_twice _ _ _ _ _ _ _ _ _ _ _ _ _ _ _ Ho H1 H2);
    eapply (in_step_intro _ s _ _ _ rid row);
    [ assumption|assumption|lia|exact Hrow
    | rewrite (append_same_runs _ _ _ _ _ _ H2), (append_same_runs _ _ _ _ _ _ H1); reflexivity
    | reflexivity ]
  end.

(** The bodies of the fenced commands. *)
Ltac fenced_ops H :=
  unfold append_event, begin_workspace_provisioning, attach_provisioned_workspace,
    commit_run_checkpoint, propose_tool_call, request_tool_approval, decide_tool_approval,
    commit_decision, require_optional_context, reserve_budget, settle_budget,
    dispatch_tool_call, finish_tool_attempt, transition_run_phase, commit_final_answer,
    complete_run, complete_turn, terminate_run, returned, committed in H.

Lemma command_in_step o c ctx s n s' :
  oracle_ok o → core_inv s → command_ok s c → command_context c = Some ctx →
  command_tx limits o c s = Ok (Some n, s') → in_step ctx n s'.
Proof.
  intros Ho Hc Hok Hctx Htx.
  destruct c; cbn [command_context] in Hctx; try discriminate;
    cbn [command_tx] in Htx; subst; unfold advance in Htx;
    apply tx_bind_Ok in Htx as (x & s1 & Hop & [Hx ->]%tx_ret_Ok).
  all: fenced_ops Hop; sync_open Hop Hx;
    try (try apply in_step_turns; first [sync_two Ho Hc|sync_one Ho Hc]; fail).
  - match goal with H : append_event_in_tx _ _ _ _ = Ok _, Hrow : runs _ !! ?rid = Some ?row,
                    Hr : ea_run_id _ = Some _ |- _ =>
      pose proof (proj2 (Hok _ Hr) _ Hrow);
      eapply (in_step_intro _ s _ _ _ rid row);
        [assumption|assumption|by eapply append_seq_bound|exact Hrow
        |by rewrite (append_same_runs _ _ _ _ _ _ H)|reflexivity] end.
  - match goal with H : record_optional_command _ _ _ _ _ _ _ = Ok _ |- _ =>
      eapply in_step_same; [exact (same_runs _ _ (record_command_same _ _ _ _ _ _ _ _ _ H))|] end.
    cbn in *; simplify_eq. sync_one Ho Hc.
  - match goal with H : put_optional_blob _ _ _ _ _ = Ok _ |- _ =>
      apply put_optional_blob_same in H; pose proof (same_runs _ _ H);
      pose proof (same_sessions _ _ H) end.
    sync_one Ho Hc; assumption.
Qed.

(** A worker that tracks the versions its commands report is never behind its own writes: a
    fenced command that reports stream version [n] has moved the run's cursor to exactly
    [n], past the version the context carried, so the context synchronised to [n] passes
    the version check of the next command. *)
Theorem context_stays_in_sync o c ctx s n s' :
  reachable limits s → oracle_ok o → command_ok s c → command_context c = Some ctx →
  command_tx limits o c s = Ok (Some n, s') →
  (ctx.(ec_stream_version) < n)%Z
  ∧ r_last_event_seq <$> s'.(runs) !! ctx.(ec_run_id) = Some n.
Proof.
  intros Hs Ho Hok Hctx Htx. apply (command_in_step o c ctx s n s' Ho); try done.
  by eapply reachable_core.
Qed.
End sync.

(** ** Witnesses on the scenario *)

#[local] Existing Instance plain_platform.

Lemma run_trace_later n cs s : later demo_limits s (run_trace n cs s).
Proof.
  revert n s. induction cs as [|c cs IH]; intros n s; [constructor|].
  eapply rtc_l; [by exists (tick n), c|apply IH].
Qed.

(** Witness of [stale_context_changes_nothing]: a context that saw only three events. *)
Lemma stale_context_changes_nothing_witness :
  exec demo_limits (tick 14)
    (CompleteRun "run" VerificationStatus.PASSED "process" (Some (worker 3))) ready_db = ready_db.
Proof.
  apply (stale_context_changes_nothing demo_limits _ _ (worker 3)); [reflexivity|].
  intros row Hrow [_ Hv]. change (ec_run_id (worker 3)) with "run" in Hrow.
  rewrite ready_row_eq in Hrow. injection Hrow as <-. discriminate Hv.
Defined.

(** Witness of [lease_epoch_law]: from the ready state to the last one. *)
Lemma lease_epoch_law_witness :
  ∃ row', final_db.(runs) !! "run" = Some row'
    ∧ (ready_row.(r_lease_epoch) ≤ row'.(r_lease_epoch))%Z
    ∧ (row'.(r_lease_epoch) = ready_row.(r_lease_epoch) →
       row'.(r_lease_owner) = ready_row.(r_lease_owner) ∨ row'.(r_lease_owner) = None).
Proof.
  apply (lease_epoch_law demo_limits ready_db final_db "run" ready_row);
    [apply run_trace_later|exact ready_row_eq].
Defined.

(** The ready state after another worker took the expired lease over. *)
Definition takeover_db : db := run_trace 14 [AcquireRunLease "run" "other" (100 * SECOND)
                                               (Some (200 * SECOND)%Z)] ready_db.

(** Witness of [takeover_fences_old_owner]: the old worker tries to complete the run. *)
Lemma takeover_fences_old_owner_witness :
  exec demo_limits (tick 15)
    (CompleteRun "run" VerificationStatus.PASSED "process" (Some (worker 16))) takeover_db
  = takeover_db.
Proof.
  destruct (acquire_run_lease (tick 14) "run" "other" (100 * SECOND) (Some (200 * SECOND)%Z)
              ready_db) as [[r s1]|e] eqn:Hacq.
  - apply (takeover_fences_old_owner demo_limits (tick 14) "run" "worker" "other" (100 * SECOND)
             (Some (200 * SECOND)%Z) ready_db ready_row r s1 takeover_db (tick 15) _ (worker 16));
      [exact ready_row_eq|reflexivity|discriminate|exact Hacq| |reflexivity|cbn; lia|reflexivity].
    unfold takeover_db, run_trace, exec, run_tx. cbn [command_tx]. unfold advance, mbind, tx_bind.
    rewrite Hacq. constructor.
  - exfalso. revert Hacq. vm_compute. discriminate.
Defined.

(** Witness of [live_lease_excludes]: the lease of the scenario's worker is live. *)
Lemma live_lease_excludes_witness :
  acquire_run_lease (tick 14) "run" "other" (100 * SECOND) None ready_db = Err LeaseConflictError
  ∧ exec demo_limits (tick 14) (AcquireRunLease "run" "other" (100 * SECOND) None) ready_db = ready_db.
Proof.
  apply (live_lease_excludes demo_limits (tick 14) "run" "other" (100 * SECOND) None ready_db ready_row);
    [exact ready_row_eq|reflexivity|unfold ttl_valid, SECOND; lia|].
  vm_compute. split_and!; discriminate || reflexivity.
Defined.

(** Witness of [ended_status_final]: the cancelled run and an attempt to complete it. *)
Lemma ended_status_final_witness :
  ∃ row', (exec demo_limits (tick 18)
             (CompleteRun "run" VerificationStatus.PASSED "process" (Some (worker 20)))
             final_db).(runs) !! "run" = Some row'
          ∧ row'.(r_execution_status) = ExecutionStatus.CANCELLED.
Proof.
  apply (ended_status_final demo_limits final_db (tick 18) _ "run" final_row);
    [exact final_reachable|exact final_row_eq|discriminate].
Defined.

(** Witness of [cancellation_blocks_dispatch]: the cancelled run's call. *)
Lemma cancellation_blocks_dispatch_witness :
  (∃ row', final_db.(runs) !! "run" = Some row'
           ∧ row'.(r_cancel_requested_at) = final_row.(r_cancel_requested_at))
  ∧ exec demo_limits (tick 18)
      (DispatchToolCall "id-110" (JObj []) [] "process" None (Some (worker 20))) final_db = final_db.
Proof.
  destruct (tool_calls final_db !! "id-110") as [call|] eqn:Hcall;
    [|vm_compute in Hcall; discriminate].
  apply (cancellation_blocks_dispatch demo_limits final_db final_db "run" final_row (tick 18)
           "id-110" (JObj []) [] "process" None (Some (worker 20)) call).
  - constructor.
  - exact final_row_eq.
  - vm_compute. by eexists.
  - exact Hcall.
  - assert (tc_run_id <$> tool_calls final_db !! "id-110" = Some "run") as Hr
      by (vm_compute; reflexivity).
    rewrite Hcall in Hr. by injection Hr.
Defined.

(** Witness of [context_stays_in_sync]: the dispatch moves the worker from 16 to 17. *)
Lemma context_stays_in_sync_witness :
  (16 < 17)%Z
  ∧ r_last_event_seq <$> (run_trace 14 (take 1 acting) ready_db).(runs) !! "run" = Some 17%Z.
Proof.
  apply (context_stays_in_sync demo_limits (tick 14)
           (DispatchToolCall "id-110" (JObj []) [] "process" (Some "attempt") (Some (worker 16)))
           (worker 16) ready_db 17 (run_trace 14 (take 1 acting) ready_db));
    [exact ready_reachable|apply tick_ok|exact I|reflexivity|vm_compute; reflexivity].
Defined.

(** ** What an operation leaves alone

    Shared by the files about single tables: sums over the rows of a table, and the
    automation that proves that a body leaves a part of the database as it is. *)

(** ** Sums over a table *)

Definition total {V} (w : V → Z) (m : gmap string V) : Z :=
  sum_of (λ kv : string * V, w kv.2) (map_to_list m).

Lemma sum_of_perm {A} (key : A → Z) l l' : l ≡ₚ l' → sum_of key l = sum_of key l'.
Proof. unfold sum_of. induction 1; cbn; lia. Qed.

Lemma total_insert {V} (w : V → Z) m i x :
  m !! i = None → total w (<[i := x]> m) = (w x + total w m)%Z.
Proof. intros Hi. unfold total. by rewrite (sum_of_perm _ _ _ (map_to_list_insert m i x Hi)). Qed.

Lemma total_alter {V} (w : V → Z) m i x f :
  m !! i = Some x → total w (alter f i m) = (total w m - w x + w (f x))%Z.
Proof.
  intros Hi. assert (m = <[i := x]> (delete i m)) as Hm by (by rewrite insert_delete_id).
  assert (alter f i m = <[i := f x]> (delete i m)) as Ha.
  { apply map_eq. intros j. rewrite lookup_alter. case_decide; [subst; by rewrite Hi, lookup_insert_eq|].
    by rewrite lookup_insert_ne, lookup_delete_ne. }
  rewrite Ha, total_insert by apply lookup_delete_eq. rewrite Hm at 2.
  rewrite total_insert by apply lookup_delete_eq. lia.
Qed.

Lemma total_nonneg {V} (w : V → Z) m : (∀ x, 0 ≤ w x)%Z → (0 ≤ total w m)%Z.
Proof.
  intros Hw. unfold total, sum_of. induction (map_to_list m) as [|kv l IH]; cbn; [lia|].
  specialize (Hw kv.2). lia.
Qed.

Lemma total_zero {V} (w : V → Z) (m : gmap string V) :
  map_Forall (λ _ x, w x = 0%Z) m → total w m = 0%Z.
Proof.
  intros Hm. unfold total, sum_of. apply map_Forall_to_list in Hm.
  induction Hm as [|kv l Hkv _ IH]; [done|]. destruct kv. cbn in *. lia.
Qed.

(** The sum of a selection is the sum of the weights that are zero elsewhere. *)
Lemma sum_of_select {V} (P : V → bool) (key : V → Z) (m : gmap string V) :
  sum_of (λ kv : string * V, key kv.2) (select (λ _ v, P v) m)
  = total (λ v, if P v then key v else 0%Z) m.
Proof.
  unfold select, total, sum_of. induction (map_to_list m) as [|kv l IH]; [done|].
  rewrite filter_cons. cbn in *. case_decide as HP; cbn; rewrite IH;
    destruct (P kv.2); done || lia.
Qed.

(** ** Selections *)

(** The rows of a selection whose keys coincide. *)
Lemma select_unique {V} (P : string → V → bool) (m : gmap string V) :
  (∀ k1 v1 k2 v2, m !! k1 = Some v1 → m !! k2 = Some v2 → P k1 v1 = true → P k2 v2 = true →
     k1 = k2) →
  select P m = [] ∨ ∃ k v, select P m = [(k, v)] ∧ m !! k = Some v ∧ P k v = true.
Proof.
  intros Hu. assert (∀ kv, kv ∈ select P m → m !! kv.1 = Some kv.2 ∧ P kv.1 kv.2 = true) as Hin.
  { intros [k v] [HP Hm]%list_elem_of_filter. by rewrite elem_of_map_to_list in Hm. }
  assert (NoDup (select P m)) as Hnd by apply NoDup_filter, NoDup_map_to_list.
  destruct (select P m) as [|[k1 v1] [|[k2 v2] l]]; [by left|right..].
  - destruct (Hin (k1, v1)) as [H1 H2]; [set_solver|]. eauto.
  - destruct (Hin (k1, v1)) as [H1 H1']; [set_solver|]. destruct (Hin (k2, v2)) as [H2 H2']; [set_solver|].
    cbn in *. assert (k1 = k2) as -> by eauto. simplify_eq. inversion Hnd. set_solver.
Qed.

(** ** Columns *)

Lemma fmap_alter_same {V W} (g : V → W) (f : V → V) (i : string) (m : gmap string V) :
  (∀ x, g (f x) = g x) → g <$> alter f i m = g <$> m.
Proof.
  intros Hg. apply map_eq. intros j. rewrite !lookup_fmap, lookup_alter. case_decide; [|done].
  subst j. destruct (m !! i); cbn; [by rewrite Hg|done].
Qed.

(** ** Bodies that keep a view of the database *)

Ltac same_leaf :=
  match goal with |- same ?f _ _ => try unfold f end; unfold same; cbn;
  repeat first [reflexivity | apply fmap_alter_same; intros ?; reflexivity | f_equal].

Section same.
Context `{PlatformLaws}.

Lemma append_same {B} (f : db → B) o k a :
  (∀ s r, f (s <| events ::= (λ l, l ++ [r]) |>) = f s) →
  (∀ s g, f (s <| sessions ::= g |>) = f s) → (∀ s g, f (s <| model_calls ::= g |>) = f s) →
  tx_rel (same f) (append_event_in_tx o k a).
Proof. intros. by apply append_rel; [apply _|..]. Qed.

Lemma insert_event_same {B} (f : db → B) e :
  (∀ s r, f (s <| events ::= (λ l, l ++ [r]) |>) = f s) →
  (∀ s g, f (s <| sessions ::= g |>) = f s) → tx_rel (same f) (insert_event e).
Proof. intros. by apply insert_event_rel; [apply _|..]. Qed.

Lemma prepare_event_same {B} (f : db → B) o k a : tx_rel (same f) (prepare_event o k a).
Proof. by apply prepare_event_rel, _. Qed.
End same.

#[global] Hint Extern 1 (tx_rel (same _) (append_event_in_tx _ _ _)) =>
  (apply append_same; intros; reflexivity) : tx_rel.
#[global] Hint Extern 1 (tx_rel (same _) (insert_event _)) =>
  (apply insert_event_same; intros; reflexivity) : tx_rel.
#[global] Hint Resolve prepare_event_same : tx_rel.
#[global] Hint Extern 2 (same _ _ _) => (solve [same_leaf]) : tx_rel.

(** Read the rows that a committed operation looked at: every guard leaves the database as
    it was. *)
Ltac read_rows :=
  repeat match goal with
  | H : begin_optional_command _ _ _ _ _ = Ok _ |- _ => apply begin_command_same in H; subst
  | H : require_optional_context _ _ _ _ = Ok _ |- _ =>
      apply require_optional_context_same in H; subst
  | H : require_execution_context _ _ _ _ = Ok _ |- _ =>
      let Hrow := fresh "Hrow" in apply require_execution_context_Ok in H as [-> Hrow]
  | H : require_run_row _ _ = Ok _ |- _ =>
      let Hrow := fresh "Hrow" in apply require_run_row_Ok in H as [-> Hrow]
  end.
