(* ===== verification/BudgetSafety.v ===== *)
(** * BudgetSafety: no budget is ever oversubscribed

    An account of every reservation: what a run has consumed is the sum of its settled
    reservations, and with the open ones it never exceeds the run's limit. *)

From S2P Require Import Prelude Domain Platform Json Events Projection ToolIdentity Tables Ledger ModelCalls.
From S2P Require Import Leases Checkpoints Runs Tools Budget Store Scenario LedgerSafety RunSafety Lifecycle.
From S2P Require Import Lifecycle.

(** What the settled reservations of a run in a category consumed. *)
Definition settled_weight (rid cat : string) (row : ReservationRow) : Z :=
  if bool_decide (row.(br_run_id) = rid ∧ row.(br_category) = cat
                  ∧ row.(br_state) = ReservationState.SETTLED)
  then default 0%Z row.(br_consumed) else 0%Z.

Definition settled (rid cat : string) (s : db) : Z :=
  total (settled_weight rid cat) s.(budget_reservations).

Definition open_weight (rid cat : string) (row : ReservationRow) : Z :=
  if is_outstanding rid cat row then row.(br_reserved) else 0%Z.

Lemma outstanding_total rid cat s :
  outstanding rid cat s = total (open_weight rid cat) s.(budget_reservations).
Proof. apply sum_of_select. Qed.

(** The part of the database the account is about. *)
Definition budget_view (s : db) :=
  (s.(budget_reservations), (λ r, (r.(r_budget_limits), r.(r_budget_consumed))) <$> s.(runs)).

Definition reservation_ok (row : ReservationRow) : Prop :=
  (0 < row.(br_reserved))%Z
  ∧ match row.(br_state) with
    | ReservationState.RESERVED => row.(br_consumed) = None
    | ReservationState.SETTLED =>
        match row.(br_consumed) with Some c => (0 ≤ c ≤ row.(br_reserved))%Z | None => False end
    end.

Record budget_inv (s : db) : Prop := {
  bi_rows : map_Forall (λ _ r, reservation_ok r) s.(budget_reservations);
  bi_runs : map_Forall (λ _ r, present s.(runs) r.(br_run_id)) s.(budget_reservations);
  bi_account : ∀ rid row cat, s.(runs) !! rid = Some row →
    default 0%Z (row.(r_budget_consumed) !! cat) = settled rid cat s
    ∧ (settled rid cat s + outstanding rid cat s
       ≤ Z.max 0 (default 0 (row.(r_budget_limits) !! cat)))%Z;
}.

Definition budget_kept : relation db := λ s s', budget_inv s → budget_inv s'.

#[global] Instance budget_kept_preorder : PreOrder budget_kept.
Proof. unfold budget_kept. split; red; auto. Qed.

Lemma budget_frame s s' : same budget_view s s' → budget_kept s s'.
Proof.
  unfold same, budget_view. intros [= Hb Hr] [Hrows Hruns Hacc].
  assert (∀ rid, present s.(runs) rid → present s'.(runs) rid) as Hp.
  { intros rid. rewrite <- !(fmap_is_Some (λ r, (r_budget_limits r, r_budget_consumed r))).
    rewrite <- !lookup_fmap. by rewrite Hr. }
  split; unfold settled, outstanding; rewrite ?Hb; [done|by eapply map_Forall_impl; eauto|].
  intros rid row cat Hrow.
  apply (f_equal (lookup rid)) in Hr. rewrite !lookup_fmap, Hrow in Hr. cbn in Hr.
  destruct (runs s !! rid) as [row0|] eqn:Hrow0; [|done]. injection Hr as -> ->. by apply Hacc.
Qed.

(** Apply a frame at the end of a history. *)
Lemma budget_same_inv s s' : same budget_view s s' → budget_inv s → budget_inv s'.
Proof. apply budget_frame. Qed.

(** ** The commands that move budget *)

Lemma budget_new_run s rid row :
  budget_inv s → s.(runs) !! rid = None → row.(r_budget_consumed) = ∅ →
  budget_inv (s <| runs ::= <[rid := row]> |>).
Proof.
  intros [Hrows Hruns Hacc] Hnone Hempty. split; cbn; [done| |].
  - eapply map_Forall_impl; [exact Hruns|]. intros k r Hr. cbn in *.
    apply lookup_insert_is_Some'. by right.
  - intros rid' row' cat [[<- <-]|[_ Hrow']]%lookup_insert_Some; [|by apply Hacc].
    change (settled rid cat _) with (settled rid cat s).
    change (outstanding rid cat _) with (outstanding rid cat s).
    rewrite outstanding_total. unfold settled. rewrite !total_zero, Hempty, lookup_empty; [cbn; lia|..].
    all: eapply map_Forall_impl; [exact Hruns|]; intros k r [x Hr]; cbn in *.
    all: unfold settled_weight, open_weight, is_outstanding; rewrite bool_decide_false; [done|].
    all: intros [Hd _]; rewrite Hd in Hr; congruence.
Qed.

Lemma budget_reserve s id row rrow :
  budget_inv s → s.(budget_reservations) !! id = None →
  row.(br_state) = ReservationState.RESERVED → row.(br_consumed) = None →
  (0 < row.(br_reserved))%Z → s.(runs) !! row.(br_run_id) = Some rrow →
  (∃ limit, rrow.(r_budget_limits) !! row.(br_category) = Some limit
     ∧ (default 0 (rrow.(r_budget_consumed) !! row.(br_category))
        + outstanding row.(br_run_id) row.(br_category) s + row.(br_reserved) ≤ limit)%Z) →
  budget_inv (s <| budget_reservations ::= <[id := row]> |>).
Proof.
  intros [Hrows Hruns Hacc] Hnone Hst Hc Hpos Hrun (limit & Hlim & Hle). split; cbn.
  - apply map_Forall_insert_2; [|done]. split; [done|]. by rewrite Hst.
  - apply map_Forall_insert_2; [by eexists|done].
  - intros rid row' cat Hrow'. destruct (Hacc _ _ cat Hrow') as [Ha Hb].
    rewrite outstanding_total in *. unfold settled in *. cbn.
    rewrite !total_insert by done. unfold settled_weight at 1 3.
    rewrite bool_decide_false by (rewrite Hst; naive_solver). split; [lia|].
    unfold open_weight at 1, is_outstanding. case_bool_decide as Hd; [|lia].
    destruct Hd as (<- & <- & _). simplify_eq. rewrite Hlim. rewrite Hlim in Hb. cbn in *. lia.
Qed.

(** What a settlement moves from the open reservations to the settled ones. *)
Lemma settle_weights rid cat row consumed t :
  row.(br_state) = ReservationState.RESERVED →
  let row' := row <| br_consumed := Some consumed |> <| br_state := ReservationState.SETTLED |>
                  <| br_settled_at := Some t |> in
  let mine := decide (rid = row.(br_run_id) ∧ cat = row.(br_category)) in
  settled_weight rid cat row = 0%Z
  ∧ settled_weight rid cat row' = (if mine then consumed else 0)%Z
  ∧ open_weight rid cat row = (if mine then row.(br_reserved) else 0)%Z
  ∧ open_weight rid cat row' = 0%Z.
Proof.
  intros Hst row' mine. unfold settled_weight, open_weight, is_outstanding, mine, row'. cbn.
  rewrite Hst. split_and!; repeat case_bool_decide; repeat case_decide; try done; exfalso; subst mine; destruct_and?; simplify_eq; try tauto.
Qed.

Lemma budget_settle s id row rrow consumed t v :
  budget_inv s → s.(budget_reservations) !! id = Some row →
  row.(br_state) = ReservationState.RESERVED → (0 ≤ consumed ≤ row.(br_reserved))%Z →
  s.(runs) !! row.(br_run_id) = Some rrow →
  budget_inv (s <| budget_reservations ::= alter (λ r,
        r <| br_consumed := Some consumed |> <| br_state := ReservationState.SETTLED |>
          <| br_settled_at := Some t |>) id |>
      <| runs ::= alter (λ r, r <| r_budget_consumed := <[row.(br_category) :=
             (default 0 (rrow.(r_budget_consumed) !! row.(br_category)) + consumed)%Z]>
                rrow.(r_budget_consumed) |> <| r_last_event_seq := v |>) row.(br_run_id) |>).
Proof.
  intros [Hrows Hruns Hacc] Hrow Hst Hc Hrun.
  split; cbn.
  - apply map_Forall_lookup. intros k r Hr. apply lookup_alter_Some in Hr as [(<- & r0 & Hr0 & ->)|[_ Hr]].
    + simplify_eq. split; cbn; [|done]. by apply (Hrows _ _ Hrow).
    + by apply (Hrows _ _ Hr).
  - apply map_Forall_lookup. intros k r Hr. rewrite lookup_alter_is_Some.
    apply lookup_alter_Some in Hr as [(<- & r0 & Hr0 & ->)|[_ Hr]]; cbn; by eapply Hruns.
  - intros rid row' cat Hrow'. rewrite outstanding_total. unfold settled. cbn.
    rewrite !(total_alter _ _ _ _ _ Hrow).
    destruct (settle_weights rid cat row consumed t Hst) as (-> & -> & -> & ->).
    assert (∃ row0, s.(runs) !! rid = Some row0 ∧ row'.(r_budget_limits) = row0.(r_budget_limits)
              ∧ default 0%Z (row'.(r_budget_consumed) !! cat)
                = (default 0 (row0.(r_budget_consumed) !! cat)
                   + if decide (rid = row.(br_run_id) ∧ cat = row.(br_category)) then consumed else 0)%Z)
      as (row0 & Hrow0 & Hlim & Hcons).
    { apply lookup_alter_Some in Hrow' as [(<- & r0 & Hr0 & ->)|[Hne Hr]].
      - exists r0. split_and!; [done..|]. cbn. simplify_eq. rewrite lookup_insert.
        repeat case_decide; subst; cbn; try tauto; try lia. naive_solver.
      - exists row'. split_and!; [done..|]. rewrite decide_False by naive_solver. lia. }
    destruct (Hacc _ _ cat Hrow0) as [Ha Hb]. rewrite Hcons, Hlim, Ha.
    rewrite outstanding_total in Hb. unfold settled in *. case_decide; lia.
Qed.

Section commands.
Context `{PlatformLaws} (limits : BlobLimits).

Definition moves_budget (c : command) : bool :=
  match c with
  | CreateTurnAndRun _ _ _ _ _ _ _ _ | ReserveBudget _ _ _ _ _ _ | SettleBudget _ _ _ _ => true
  | _ => false
  end.

Lemma command_budget_view o c :
  moves_budget c = false → tx_rel (same budget_view) (command_tx limits o c).
Proof. destruct c; intros Hc; try discriminate Hc; cbn [command_tx]; tx_rel_ops. Qed.

Lemma create_run_budget o sid tid rid msg root sha budget pid :
  tx_rel budget_kept (create_turn_and_run limits o sid tid rid msg root sha budget pid).
Proof.
  assert (∀ A (m : stx A), tx_rel (same budget_view) m → tx_rel budget_kept m) as Hf.
  { intros A m Hm s a s' Hs. by apply budget_frame, (Hm _ _ _ Hs). }
  unfold create_turn_and_run.
  do 5 (apply tx_rel_bind; [apply _|apply Hf; tx_rel_ops|intros ?]). cbv zeta.
  apply tx_rel_bind; [apply _| |intros _; apply Hf; tx_rel_ops].
  apply tx_rel_insert. intros s (Hnone & _) Hb. by apply budget_new_run.
Qed.

Lemma reserve_budget_kept o rid bid cat amount pid ctx :
  tx_rel budget_kept (reserve_budget o rid bid cat amount pid ctx).
Proof.
  intros s r s' Hop Hb. unfold reserve_budget, returned, committed in Hop.
  tx_steps; read_rows; [done|].
  match goal with H : append_event_in_tx _ _ _ _ = Ok _ |- _ =>
    apply (append_same budget_view) in H; [|done..] end.
  eapply budget_same_inv; [same_leaf|]. eapply budget_same_inv; [eassumption|].
  eapply budget_reserve; cbn; try done. eauto.
Qed.

Lemma settle_budget_kept o bid consumed pid ctx :
  tx_rel budget_kept (settle_budget o bid consumed pid ctx).
Proof.
  intros s r s' Hop Hb. unfold settle_budget, returned, committed in Hop.
  tx_steps; read_rows; [|done].
  match goal with H : append_event_in_tx _ _ _ _ = Ok (?e, _), Hrow : budget_reservations _ !! _ = Some ?row |- _ =>
    pose proof (append_same runs _ _ _ ltac:(done) ltac:(done) ltac:(done) _ _ _ H) as Hr;
    pose proof (append_same budget_reservations _ _ _ ltac:(done) ltac:(done) ltac:(done) _ _ _ H) as Hs;
    eapply budget_same_inv;
      [|eapply (budget_settle s bid row _ consumed (o.(now) 1%nat) (seq e)); [exact Hb|exact Hrow|done|done|eassumption]] end.
  unfold same, budget_view in *. cbn in *. by rewrite Hr, Hs.
Qed.

Lemma reachable_budget s : reachable limits s → budget_inv s.
Proof.
  apply reachable_invariant; [by split|].
  intros o c s1 v s2 _ Hb _ _ Htx. destruct (moves_budget c) eqn:Hc.
  - destruct c; try discriminate Hc; cbn [command_tx] in Htx; unfold advance in Htx;
      apply tx_bind_Ok in Htx as (x & s3 & Hop & [_ ->]%tx_ret_Ok).
    + by eapply create_run_budget.
    + by eapply reserve_budget_kept.
    + by eapply settle_budget_kept.
  - eapply budget_same_inv; [|done]. by eapply command_budget_view.
Qed.

(** ** Settled reservations are final *)

Definition settled_final : relation db := λ s s',
  ∀ id row, s.(budget_reservations) !! id = Some row →
    ∃ row', s'.(budget_reservations) !! id = Some row'
      ∧ (row'.(br_run_id), row'.(br_category), row'.(br_reserved))
        = (row.(br_run_id), row.(br_category), row.(br_reserved))
      ∧ (row.(br_state) = ReservationState.SETTLED → row' = row).

#[global] Instance settled_final_preorder : PreOrder settled_final.
Proof.
  split; [intros s id row Hrow; by exists row|]. intros s1 s2 s3 H12 H23 id row Hrow.
  destruct (H12 _ _ Hrow) as (row2 & Hrow2 & He2 & Hs2).
  destruct (H23 _ _ Hrow2) as (row3 & Hrow3 & He3 & Hs3). exists row3.
  split_and!; [done|congruence|]. intros Hst. rewrite Hs3; [by apply Hs2|]. by rewrite Hs2.
Qed.

Lemma settled_final_frame s s' :
  s'.(budget_reservations) = s.(budget_reservations) → settled_final s s'.
Proof. intros Hs id row Hrow. exists row. by rewrite Hs. Qed.

Lemma settled_final_insert s id row :
  s.(budget_reservations) !! id = None →
  settled_final s (s <| budget_reservations ::= <[id := row]> |>).
Proof. intros Hn id' row' Hr. exists row'. cbn. rewrite lookup_insert_ne; [done|congruence]. Qed.

Lemma append_settled_final o k a : tx_rel settled_final (append_event_in_tx o k a).
Proof. apply append_rel; [apply _|..]; intros; by apply settled_final_frame. Qed.

Lemma insert_event_settled_final e : tx_rel settled_final (insert_event e).
Proof. apply insert_event_rel; [apply _|..]; intros; by apply settled_final_frame. Qed.

Lemma prepare_event_settled_final o k a : tx_rel settled_final (prepare_event o k a).
Proof. by apply prepare_event_rel, _. Qed.

Hint Resolve append_settled_final insert_event_settled_final prepare_event_settled_final : tx_rel.
Hint Extern 2 (settled_final _ _) =>
  (first [apply settled_final_frame; reflexivity | apply settled_final_insert; tauto]) : tx_rel.

Lemma settle_settled_final o bid consumed pid ctx :
  tx_rel settled_final (settle_budget o bid consumed pid ctx).
Proof.
  intros s r s' Hop. unfold settle_budget, returned, committed in Hop.
  tx_steps; read_rows; [|done].
  match goal with H : append_event_in_tx _ _ _ _ = Ok _ |- _ => apply append_settled_final in H end.
  etrans; [|by apply settled_final_frame]. etrans; [|eassumption].
  intros id row Hrow'. cbn. rewrite lookup_alter. case_decide; [|by exists row]. subst id.
  rewrite Hrow'. cbn. eexists. split_and!; [done|done|]. intros Hst. cbn in *. congruence.
Qed.
Hint Resolve settle_settled_final : tx_rel.

Lemma command_settled_final o c : tx_rel settled_final (command_tx limits o c).
Proof. destruct c; cbn [command_tx]; tx_rel_ops. Qed.


(** A settlement happens once: after a reservation is settled for an amount, whatever
    commands follow, its row stays as it is, settling it again changes nothing, and
    succeeds only for the same amount, returning the same record. *)
Theorem settlement_is_final s s' bid row o consumed pid ctx :
  later limits s s' → s.(budget_reservations) !! bid = Some row →
  row.(br_state) = ReservationState.SETTLED →
  s'.(budget_reservations) !! bid = Some row
  ∧ exec limits o (SettleBudget bid consumed pid ctx) s' = s'
  ∧ ∀ r t, settle_budget o bid consumed pid ctx s' = Ok (r, t) →
      row.(br_consumed) = Some consumed
      ∧ r = (Ok (budget_reservation_from_row bid row None), None).
Proof.
  intros Hl Hrow Hst. apply (later_rel limits settled_final) in Hl; [|apply command_settled_final].
  destruct (Hl _ _ Hrow) as (row' & Hrow' & _ & Hsame). rewrite (Hsame Hst) in Hrow'.
  assert (∀ r t, settle_budget o bid consumed pid ctx s' = Ok (r, t) →
            row.(br_consumed) = Some consumed ∧ t = s'
            ∧ r = (Ok (budget_reservation_from_row bid row None), None)) as Hop.
  { intros r t Hop. unfold settle_budget, returned, committed in Hop.
    tx_steps; read_rows; cbn in *; [congruence|done]. }
  split_and!; [done| |intros r t Hr; by destruct (Hop _ _ Hr) as (? & _ & ?)].
  destruct (exec_cases limits o (SettleBudget bid consumed pid ctx) s') as [->|[v Htx]]; [done|].
  cbn [command_tx] in Htx. unfold advance in Htx.
  apply tx_bind_Ok in Htx as (x & t & Hr & [_ ->]%tx_ret_Ok). by apply Hop in Hr as (_ & -> & _).
Qed.
End commands.

(** ** Witnesses *)

#[local] Existing Instance plain_platform.


(** Witness of [settlement_is_final]: the scenario's reservation, settled again for more. *)
Lemma settlement_is_final_witness :
  ∃ row, final_db.(budget_reservations) !! "reservation" = Some row
  ∧ exec demo_limits (tick 18) (SettleBudget "reservation" 3 "process" (Some (worker 20))) final_db
    = final_db
  ∧ ∀ r t, settle_budget (tick 18) "reservation" 3 "process" (Some (worker 20)) final_db
             = Ok (r, t) →
      row.(br_consumed) = Some 3%Z
      ∧ r = (Ok (budget_reservation_from_row "reservation" row None), None).
Proof.
  destruct (budget_reservations ready_db !! "reservation") as [row|] eqn:Hrow;
    [|vm_compute in Hrow; discriminate].
  exists row. apply (settlement_is_final demo_limits ready_db final_db "reservation" row (tick 18) 3
           "process" (Some (worker 20))); [apply run_trace_later|exact Hrow|].
  assert (br_state <$> budget_reservations ready_db !! "reservation"
          = Some ReservationState.SETTLED) as Hst by (vm_compute; reflexivity).
  rewrite Hrow in Hst. injection Hst as Hst. exact Hst.
Defined.
