(* ===== verification/ToolSafety.v ===== *)
(** * ToolSafety: the tool protocol

    An abstract machine for tool calls, approvals and attempts, the proof that every command
    of the store makes at most one step of it, and what follows: nothing with an effect is
    ever dispatched without an approval of its exact fingerprint, a call is attempted at
    most once, and decisions and outcomes are final. *)

From S2P Require Import Prelude Domain Platform Json Events Projection ToolIdentity Tables Ledger ModelCalls.
From S2P Require Import Leases Checkpoints Runs Tools Budget Store Scenario LedgerSafety RunSafety Lifecycle.
From S2P Require Import Lifecycle.

(** ** The abstract machine *)

Record protocol := Protocol {
  calls : gmap string ToolCallRow;
  requests : gmap string ApprovalRow;
  attempts : gmap string ToolAttemptRow;
}.

Definition protocol_of (s : db) : protocol :=
  Protocol s.(tool_calls) s.(approvals) s.(tool_attempts).

(** What identifies a call and never changes. *)
Definition call_identity (t : ToolCallRow) :=
  (t.(tc_run_id), t.(tc_response_event_id), t.(tc_ordinal), t.(tc_tool_name),
   t.(tc_tool_version), t.(tc_args_json), t.(tc_args_sha256), t.(tc_approval_fingerprint),
   t.(tc_effect_class)).

Definition request_identity (a : ApprovalRow) :=
  (a.(ap_run_id), a.(ap_subject_type), a.(ap_subject_id), a.(ap_fingerprint), a.(ap_policy)).

Definition attempt_identity (t : ToolAttemptRow) :=
  (t.(ta_tool_call_id), t.(ta_attempt_no), t.(ta_executor_identity_json)).

Definition initial_state (effect : ToolEffectClass.t) : ToolCallState.t :=
  if decide (effect = ToolEffectClass.PURE) then ToolCallState.READY else ToolCallState.PROPOSED.

Definition decided_state (d : ApprovalDecision.t) : ToolCallState.t :=
  if decide (d = ApprovalDecision.ALLOW_ONCE) then ToolCallState.READY else ToolCallState.DENIED.

(** An approval request for a call: its exact fingerprint. *)
Definition requests_call (id : string) (t : ToolCallRow) (a : ApprovalRow) : Prop :=
  a.(ap_subject_type) = TOOL_CALL_SUBJECT ∧ a.(ap_subject_id) = id
  ∧ a.(ap_run_id) = t.(tc_run_id) ∧ a.(ap_fingerprint) = t.(tc_approval_fingerprint).

(** A decision somebody made, with a reason. *)
Definition decided (d : ApprovalDecision.t) (a : ApprovalRow) : Prop :=
  a.(ap_decision) = Some d
  ∧ (∃ actor, a.(ap_actor) = Some actor ∧ blank actor = false)
  ∧ (∃ reason, a.(ap_reason) = Some reason ∧ blank reason = false).

Inductive tool_step : protocol → protocol → Prop :=
| step_propose p id t :
    p.(calls) !! id = None → t.(tc_state) = initial_state t.(tc_effect_class) →
    tool_step p (Protocol (<[id := t]> p.(calls)) p.(requests) p.(attempts))
| step_request p id t t' aid a :
    p.(calls) !! id = Some t → t.(tc_state) = ToolCallState.PROPOSED →
    call_identity t' = call_identity t → t'.(tc_state) = ToolCallState.WAITING_APPROVAL →
    p.(requests) !! aid = None → requests_call id t a → a.(ap_decision) = None →
    tool_step p (Protocol (<[id := t']> p.(calls)) (<[aid := a]> p.(requests)) p.(attempts))
| step_decide p t t' aid a a' d :
    p.(requests) !! aid = Some a → a.(ap_decision) = None →
    p.(calls) !! a.(ap_subject_id) = Some t → t.(tc_state) = ToolCallState.WAITING_APPROVAL →
    t.(tc_approval_fingerprint) = a.(ap_fingerprint) →
    call_identity t' = call_identity t → t'.(tc_state) = decided_state d →
    d ≠ ApprovalDecision.ALLOW_RUN_SCOPE →
    request_identity a' = request_identity a → decided d a' →
    tool_step p (Protocol (<[a.(ap_subject_id) := t']> p.(calls)) (<[aid := a']> p.(requests))
                          p.(attempts))
| step_dispatch p id t t' tid att :
    p.(calls) !! id = Some t → t.(tc_state) = ToolCallState.READY →
    call_identity t' = call_identity t → t'.(tc_state) = ToolCallState.DISPATCHED →
    p.(attempts) !! tid = None → att.(ta_tool_call_id) = id →
    att.(ta_state) = ToolCallState.DISPATCHED →
    tool_step p (Protocol (<[id := t']> p.(calls)) p.(requests) (<[tid := att]> p.(attempts)))
| step_finish p t t' tid att att' out :
    p.(attempts) !! tid = Some att → att.(ta_state) = ToolCallState.DISPATCHED →
    p.(calls) !! att.(ta_tool_call_id) = Some t →
    call_identity t' = call_identity t → t'.(tc_state) = outcome_state out →
    attempt_identity att' = attempt_identity att → att'.(ta_state) = outcome_state out →
    (out = AttemptOutcome.SUCCEEDED → is_Some att'.(ta_receipt_json)) →
    tool_step p (Protocol (<[att.(ta_tool_call_id) := t']> p.(calls)) p.(requests)
                          (<[tid := att']> p.(attempts))).

(** ** The store implements the machine *)

Definition protocol_rel : relation db := λ s s', rtc tool_step (protocol_of s) (protocol_of s').

#[global] Instance protocol_rel_preorder : PreOrder protocol_rel.
Proof. unfold protocol_rel. split; red; intros; [done|by etrans]. Qed.

Lemma alter_insert {V} (f : V → V) (i : string) (m : gmap string V) x :
  m !! i = Some x → alter f i m = <[i := f x]> m.
Proof.
  intros Hi. apply map_eq. intros j. rewrite lookup_alter, lookup_insert.
  case_decide; [|done]. subst. by rewrite Hi.
Qed.

(** At most one step of the machine. *)
Definition protocol_step (s s' : db) : Prop :=
  protocol_of s' = protocol_of s ∨ tool_step (protocol_of s) (protocol_of s').

Lemma protocol_step_frame s s1 s2 s3 :
  protocol_of s1 = protocol_of s → protocol_step s1 s2 → protocol_of s3 = protocol_of s2 →
  protocol_step s s3.
Proof. unfold protocol_step. by intros -> H ->. Qed.

Section refinement.
Context `{PlatformLaws} (limits : BlobLimits).

Definition moves_tools (c : command) : bool :=
  match c with
  | ProposeToolCall _ _ _ _ | RequestToolApproval _ _ _ _ | DecideToolApproval _ _ _ _ _ _ _ _
  | DispatchToolCall _ _ _ _ _ _ | FinishToolAttempt _ _ _ _ _ _ _ _ _ => true
  | _ => false
  end.

Lemma command_protocol_same o c :
  moves_tools c = false → tx_rel (same protocol_of) (command_tx limits o c).
Proof. destruct c; intros Hc; try discriminate Hc; cbn [command_tx]; tx_rel_ops. Qed.

Lemma append_protocol o k a s e s' :
  append_event_in_tx o k a s = Ok (e, s') → protocol_of s' = protocol_of s.
Proof. by apply (append_same protocol_of). Qed.

(** The step an operation makes is visible in the state its append saw. *)
Ltac tool_step_of rule :=
  match goal with H : append_event_in_tx _ _ _ _ = Ok (_, ?t) |- protocol_step _ ?s' =>
    apply append_protocol in H; right;
    change (protocol_of s') with (protocol_of t); rewrite H; unfold protocol_of; cbn;
    repeat match goal with
      Hr : _ = Some _ |- _ => rewrite (alter_insert _ _ _ _ Hr) end;
    eapply rule end.

Lemma propose_tool_step o rid p pid ctx s r s' :
  propose_tool_call o rid p pid ctx s = Ok (r, s') → protocol_step s s'.
Proof.
  intros Hop. unfold propose_tool_call, returned, committed in Hop.
  tx_steps; read_rows; [by left|]. tool_step_of step_propose; cbn; tauto.
Qed.

Lemma request_tool_step o tid policy pid ctx s r s' :
  request_tool_approval o tid policy pid ctx s = Ok (r, s') → protocol_step s s'.
Proof.
  intros Hop. unfold request_tool_approval, returned, committed in Hop.
  tx_steps; read_rows; [by left|]. tool_step_of step_request; cbn; try done; try tauto.
Qed.

Lemma dispatch_tool_step o tid plan ex pid att ctx s r s' :
  dispatch_tool_call o tid plan ex pid att ctx s = Ok (r, s') → protocol_step s s'.
Proof.
  intros Hop. unfold dispatch_tool_call, returned, committed in Hop.
  tx_steps; read_rows; try by left. all: tool_step_of step_dispatch; cbn; try done; try tauto.
Qed.

Lemma put_optional_blob_protocol t content media :
  tx_rel (same protocol_of) (put_optional_blob limits t content media).
Proof. unfold put_optional_blob, put_blob_in_tx. tx_rel_tac. Qed.

Lemma record_command_protocol t rid ty j cc ev :
  tx_rel (same protocol_of) (record_optional_command t rid ty j cc ev).
Proof. unfold record_optional_command, record_control_command. tx_rel_tac. Qed.

Lemma attempt_from_row_Ok id row ev r :
  tool_attempt_from_row id row ev = Ok r →
  r.(at_tool_call_id) = row.(ta_tool_call_id) ∧ r.(at_state) = row.(ta_state).
Proof.
  unfold tool_attempt_from_row.
  intros (? & _ & (? & _ & (? & _ & [= <-])%result_bind_Ok)%result_bind_Ok)%result_bind_Ok. done.
Qed.

Lemma finish_tool_step o aid out pid receipt output media error retryable ctx s r s' :
  finish_tool_attempt limits o aid out pid receipt output media error retryable ctx s = Ok (r, s') →
  protocol_step s s'.
Proof.
  intros Hop. unfold finish_tool_attempt, returned, committed in Hop.
  tx_steps; read_rows; try by left.
  match goal with H : tool_attempt_from_row _ _ _ = Ok _ |- _ =>
    apply attempt_from_row_Ok in H as [Hcall Hst] end.
  match goal with H : put_optional_blob _ _ _ _ _ = Ok _ |- _ =>
    apply put_optional_blob_protocol in H as Hput end.
  match goal with n : ¬ _ ≠ _ |- _ =>
    assert (Hd := n); apply dec_stable in Hd; rewrite Hd in Hst end.
  rewrite Hcall in *. injection Hput as Hc Ha Ht.
  match goal with H : append_event_in_tx _ _ _ ?t = Ok _ |- _ =>
    apply (protocol_step_frame s s t _ eq_refl); [right|by apply append_protocol in H] end.
  unfold protocol_of. cbn. rewrite Hc, Ha, Ht.
  erewrite !alter_insert by done. eapply step_finish; cbn; try done.
  intros Hs. rewrite fmap_is_Some. auto.
Qed.

Lemma decide_tool_step o aid fp d actor reason pid ctx cc s r s' :
  decide_tool_approval o aid fp d actor reason pid ctx cc s = Ok (r, s') → protocol_step s s'.
Proof.
  intros Hop. unfold decide_tool_approval, commit_decision, returned, committed in Hop.
  tx_steps; read_rows; try by left.
  - left. by eapply record_command_protocol.
  - match goal with H : record_optional_command _ _ _ _ _ _ _ = Ok _ |- _ =>
      apply record_command_protocol in H; eapply protocol_step_frame; [done| |exact H]; clear H end.
    tool_step_of step_decide; cbn; try done. split_and!; cbn; naive_solver.
Qed.

(** Every command makes at most one step of the protocol. *)
Lemma command_protocol_step o c s v s' :
  command_tx limits o c s = Ok (v, s') → protocol_step s s'.
Proof.
  intros Htx. destruct (moves_tools c) eqn:Hc; [|left; by eapply command_protocol_same].
  destruct c; try discriminate Hc; cbn [command_tx] in Htx; unfold advance in Htx;
    apply tx_bind_Ok in Htx as (x & s3 & Hop & [_ ->]%tx_ret_Ok).
  - by eapply propose_tool_step.
  - by eapply request_tool_step.
  - by eapply decide_tool_step.
  - by eapply dispatch_tool_step.
  - by eapply finish_tool_step.
Qed.

Lemma exec_protocol_step o c s : protocol_step s (exec limits o c s).
Proof. destruct (exec_cases limits o c s) as [->|[v Htx]]; [by left|by eapply command_protocol_step]. Qed.
End refinement.

(** ** Invariants of the machine *)

Definition attempted (st : ToolCallState.t) : Prop :=
  st ∈ [ToolCallState.DISPATCHED; ToolCallState.SUCCEEDED; ToolCallState.FAILED;
        ToolCallState.UNCERTAIN].

Definition approved (p : protocol) (id : string) (t : ToolCallRow) : Prop :=
  ∃ aid a, p.(requests) !! aid = Some a ∧ requests_call id t a
           ∧ decided ApprovalDecision.ALLOW_ONCE a.

Record protocol_inv (p : protocol) : Prop := {
  (* a request names an existing call and its fingerprint *)
  pi_requests : ∀ aid a, p.(requests) !! aid = Some a →
    ∃ t, p.(calls) !! a.(ap_subject_id) = Some t ∧ requests_call a.(ap_subject_id) t a;
  (* an attempt is in the state of its call *)
  pi_attempts : ∀ tid att, p.(attempts) !! tid = Some att →
    ∃ t, p.(calls) !! att.(ta_tool_call_id) = Some t ∧ t.(tc_state) = att.(ta_state)
         ∧ attempted att.(ta_state);
  (* a call has at most one attempt *)
  pi_unique : ∀ tid1 tid2 att1 att2, p.(attempts) !! tid1 = Some att1 →
    p.(attempts) !! tid2 = Some att2 → att1.(ta_tool_call_id) = att2.(ta_tool_call_id) →
    tid1 = tid2;
  (* a call that got that far has one *)
  pi_attempted : ∀ id t, p.(calls) !! id = Some t → attempted t.(tc_state) →
    ∃ tid att, p.(attempts) !! tid = Some att ∧ att.(ta_tool_call_id) = id;
  (* nothing with an effect is ready, or further, without an approval *)
  pi_gate : ∀ id t, p.(calls) !! id = Some t → t.(tc_effect_class) ≠ ToolEffectClass.PURE →
    t.(tc_state) = ToolCallState.READY ∨ attempted t.(tc_state) → approved p id t;
  (* a success has a receipt *)
  pi_receipt : ∀ tid att, p.(attempts) !! tid = Some att →
    att.(ta_state) = ToolCallState.SUCCEEDED → is_Some att.(ta_receipt_json);
}.

Lemma call_identity_eq t t' :
  call_identity t' = call_identity t →
  t'.(tc_run_id) = t.(tc_run_id) ∧ t'.(tc_approval_fingerprint) = t.(tc_approval_fingerprint)
  ∧ t'.(tc_effect_class) = t.(tc_effect_class).
Proof. unfold call_identity. by intros [=]. Qed.

Lemma requests_call_same id t t' a :
  call_identity t' = call_identity t → requests_call id t a → requests_call id t' a.
Proof. intros (H1 & H2 & _)%call_identity_eq. unfold requests_call. rewrite H1, H2. tauto. Qed.

(** A request stays about its call when the call is updated or others are added. *)
Lemma requests_insert p id t' (R : gmap string ApprovalRow) :
  (∀ aid a, R !! aid = Some a →
     ∃ t, p.(calls) !! a.(ap_subject_id) = Some t ∧ requests_call a.(ap_subject_id) t a) →
  (∀ t, p.(calls) !! id = Some t → call_identity t' = call_identity t) →
  ∀ aid a, R !! aid = Some a →
     ∃ t0, <[id := t']> p.(calls) !! a.(ap_subject_id) = Some t0
           ∧ requests_call a.(ap_subject_id) t0 a.
Proof.
  intros HR Hid aid a Ha. destruct (HR _ _ Ha) as (t0 & Ht0 & Hq).
  rewrite lookup_insert. case_decide as Hd; [|by exists t0].
  subst id. exists t'. split; [done|]. eapply requests_call_same; [by apply Hid|done].
Qed.

Lemma approved_same p p' id t t' :
  call_identity t' = call_identity t → approved p id t →
  (∀ aid a, p.(requests) !! aid = Some a → is_Some a.(ap_decision) →
     p'.(requests) !! aid = Some a) → approved p' id t'.
Proof.
  intros He (aid & a & Ha & Hq & Hd) Hk. exists aid, a. split_and!; [|by eapply requests_call_same|done].
  apply Hk; [done|]. destruct Hd as [-> _]. by eexists.
Qed.

Lemma attempted_outcome out : attempted (outcome_state out).
Proof. unfold attempted. destruct out; cbn; set_solver. Qed.

Lemma propose_inv p id t :
  protocol_inv p → p.(calls) !! id = None → t.(tc_state) = initial_state t.(tc_effect_class) →
  protocol_inv (Protocol (<[id := t]> p.(calls)) p.(requests) p.(attempts)).
Proof.
  intros [Hr Ha Hu Hd Hg Hc] Hn Hst.
  assert (¬ attempted t.(tc_state)) as Hna.
  { rewrite Hst. unfold initial_state, attempted. case_decide; set_solver. }
  split; cbn; try done.
  - eapply requests_insert; [done|congruence].
  - intros tid att Hatt. destruct (Ha _ _ Hatt) as (t0 & Ht0 & Hs). exists t0.
    rewrite lookup_insert_ne; [done|congruence].
  - intros id' t0 [[<- <-]|[_ Ht0]]%lookup_insert_Some; [done|by apply Hd].
  - intros id' t0 [[<- <-]|[_ Ht0]]%lookup_insert_Some He; [|by apply Hg].
    intros [Hs|Hs]; [|done]. rewrite Hst in Hs. unfold initial_state in Hs. by case_decide.
Qed.

(** Steps that move one call without an attempt and record approvals. *)
Lemma request_inv p id t t' R :
  protocol_inv p → p.(calls) !! id = Some t → ¬ attempted t.(tc_state) →
  call_identity t' = call_identity t → ¬ attempted t'.(tc_state) →
  (∀ aid a, R !! aid = Some a →
     ∃ t, p.(calls) !! a.(ap_subject_id) = Some t ∧ requests_call a.(ap_subject_id) t a) →
  (∀ aid a, p.(requests) !! aid = Some a → is_Some a.(ap_decision) → R !! aid = Some a) →
  (t'.(tc_state) = ToolCallState.READY →
     ∃ aid a, R !! aid = Some a ∧ requests_call id t' a ∧ decided ApprovalDecision.ALLOW_ONCE a) →
  protocol_inv (Protocol (<[id := t']> p.(calls)) R p.(attempts)).
Proof.
  intros [Hr Ha Hu Hd Hg Hc] Ht Hna He Hna' HR Hkeep Hready. split; cbn; try done.
  - eapply requests_insert; [exact HR|congruence].
  - intros tid att Hatt. destruct (Ha _ _ Hatt) as (t0 & Ht0 & Hs & Hatt'). exists t0.
    rewrite lookup_insert_ne; [done|]. intros ->. simplify_eq. by rewrite Hs in Hna.
  - intros id' t0 [[<- <-]|[_ Ht0]]%lookup_insert_Some; [done|by apply Hd].
  - intros id' t0 [[<- <-]|[_ Ht0]]%lookup_insert_Some Hpure Hs.
    + destruct Hs as [Hs|Hs]; [|done]. by apply Hready.
    + eapply approved_same; [done|by apply Hg|done].
Qed.

(** Steps that move a call together with its attempt. *)
Lemma attempt_inv p id t t' tid att :
  protocol_inv p → p.(calls) !! id = Some t →
  (t.(tc_state) = ToolCallState.READY ∧ p.(attempts) !! tid = None
   ∨ ∃ att0, p.(attempts) !! tid = Some att0 ∧ att0.(ta_tool_call_id) = id) →
  call_identity t' = call_identity t → attempted t'.(tc_state) →
  att.(ta_tool_call_id) = id → att.(ta_state) = t'.(tc_state) →
  (att.(ta_state) = ToolCallState.SUCCEEDED → is_Some att.(ta_receipt_json)) →
  protocol_inv (Protocol (<[id := t']> p.(calls)) p.(requests) (<[tid := att]> p.(attempts))).
Proof.
  intros [Hr Ha Hu Hd Hg Hc] Ht Hcase He Hatt Hid Hst Hrec.
  assert (t.(tc_state) = ToolCallState.READY ∨ attempted t.(tc_state)) as Hready.
  { destruct Hcase as [[Hs _]|(att0 & Hatt0 & Hi)]; [by left|right].
    destruct (Ha _ _ Hatt0) as (t0 & Ht0 & Hs & Hat). rewrite Hi in Ht0. simplify_eq. by rewrite Hs. }
  assert (∀ tid' att', p.(attempts) !! tid' = Some att' → att'.(ta_tool_call_id) = id → tid' = tid)
    as Honly.
  { intros tid' att' Hatt' Hi. destruct Hcase as [[Hs _]|(att0 & Hatt0 & Hi0)].
    - destruct (Ha _ _ Hatt') as (t0 & Ht0 & Hs0 & Hat). rewrite Hi in Ht0. simplify_eq.
      rewrite <- Hs0, Hs in Hat. unfold attempted in Hat. set_solver.
    - eapply Hu; [done..|]. congruence. }
  split; cbn.
  - eapply requests_insert; [done|congruence].
  - intros tid' att' [[<- <-]|[Hne Hatt']]%lookup_insert_Some.
    + exists t'. rewrite Hid, lookup_insert_eq, Hst. done.
    + destruct (Ha _ _ Hatt') as (t0 & Ht0 & Hs). exists t0. rewrite lookup_insert_ne; [done|].
      intros Heq. apply Hne. symmetry. by eapply Honly.
  - intros tid1 tid2 att1 att2 [[<- <-]|[Hne1 H1]]%lookup_insert_Some
      [[<- <-]|[Hne2 H2]]%lookup_insert_Some Hsame; [done|..|by eapply Hu].
    + symmetry. eapply Honly; [done|]. congruence.
    + eapply Honly; [done|]. congruence.
  - intros id' t0 [[<- <-]|[Hne Ht0]]%lookup_insert_Some Hs.
    + exists tid, att. by rewrite lookup_insert_eq.
    + destruct (Hd _ _ Ht0 Hs) as (tid' & att' & Hatt' & Hi). exists tid', att'.
      rewrite lookup_insert_ne; [done|]. intros <-.
      destruct Hcase as [[_ Hn]|(att0 & Hatt0 & Hi0)]; congruence.
  - intros id' t0 [[<- <-]|[Hne Ht0]]%lookup_insert_Some Hpure Hs; [|exact (Hg _ _ Ht0 Hpure Hs)].
    apply (approved_same p _ id t); [done| |done]. apply Hg; [done| |done].
    apply call_identity_eq in He as (_ & _ & <-). done.
  - intros tid' att' [[<- <-]|[Hne Hatt']]%lookup_insert_Some; [done|by eapply Hc].
Qed.

Lemma tool_step_inv p p' : tool_step p p' → protocol_inv p → protocol_inv p'.
Proof.
  assert (∀ st, st ∈ [ToolCallState.PROPOSED; ToolCallState.WAITING_APPROVAL;
                      ToolCallState.READY; ToolCallState.DENIED] → ¬ attempted st) as Hna.
  { intros st Hst Hat. unfold attempted in Hat. set_solver. }
  destruct 1 as [p id t Hn Hst|p id t t' aid a Ht Hst He Hst' Hn Hq Hd
    |p t t' aid a a' d Ha Hd Ht Hst Hf He Hst' Hscope Hi Hdec
    |p id t t' tid att Ht Hst He Hst' Hn Hid Hs|p t t' tid att att' out Hatt Hs Ht He Hst' Hi Hs' Hrec];
    intros Hp.
  - by apply propose_inv.
  - eapply request_inv; try done;
      [rewrite Hst; apply Hna; set_solver|rewrite Hst'; apply Hna; set_solver| | |congruence].
    + intros aid' a' [[<- <-]|[_ Ha']]%lookup_insert_Some; [|by eapply pi_requests].
      exists t. assert (ap_subject_id a = id) as -> by apply Hq. done.
    + intros aid' a' Ha' _. rewrite lookup_insert_ne; [done|congruence].
  - destruct (pi_requests _ Hp _ _ Ha) as (t0 & Ht0 & Hq).
    rewrite Ht in Ht0. injection Ht0 as <-.
    assert (requests_call (ap_subject_id a) t a') as Hq'.
    { unfold request_identity in Hi. injection Hi as H1 H2 H3 H4 H5.
      unfold requests_call. by rewrite H1, H2, H3, H4. }
    assert (ap_subject_id a' = ap_subject_id a) as Hsub by apply Hq'.
    eapply request_inv; try done.
    + rewrite Hst. apply Hna. set_solver.
    + rewrite Hst'. apply Hna. unfold decided_state. case_decide; set_solver.
    + intros aid' a0 [[<- <-]|[_ Ha']]%lookup_insert_Some; [|by eapply pi_requests].
      exists t. by rewrite Hsub.
    + intros aid' a0 Ha' [x Hx]. rewrite lookup_insert_ne; [done|congruence].
    + intros Hr. exists aid, a'. rewrite lookup_insert_eq. split_and!; [done|by eapply requests_call_same|].
      rewrite Hst' in Hr. unfold decided_state in Hr. by case_decide; subst.
  - eapply attempt_inv; try done; [by left|rewrite Hst'|congruence..]. unfold attempted. set_solver.
  - unfold attempt_identity in Hi. injection Hi as Hi1 Hi2 Hi3.
    eapply attempt_inv; try done; [right; by eexists|rewrite Hst'; apply attempted_outcome|congruence|].
    intros Hsuc. apply Hrec. destruct out; cbn in *; congruence.
Qed.

(** ** What a history keeps *)

Definition finished (st : ToolCallState.t) : Prop :=
  st ∈ [ToolCallState.SUCCEEDED; ToolCallState.FAILED; ToolCallState.UNCERTAIN;
        ToolCallState.DENIED].

(** Identities stay, and what was decided or finished stays as it is. *)
Record protocol_law (p p' : protocol) : Prop := {
  pl_calls : ∀ id t, p.(calls) !! id = Some t → ∃ t', p'.(calls) !! id = Some t'
    ∧ call_identity t' = call_identity t ∧ (finished t.(tc_state) → t' = t);
  pl_requests : ∀ aid a, p.(requests) !! aid = Some a → ∃ a', p'.(requests) !! aid = Some a'
    ∧ request_identity a' = request_identity a ∧ (is_Some a.(ap_decision) → a' = a);
  pl_attempts : ∀ tid t, p.(attempts) !! tid = Some t → ∃ t', p'.(attempts) !! tid = Some t'
    ∧ attempt_identity t' = attempt_identity t ∧ (finished t.(ta_state) → t' = t);
}.

Lemma kept_trans {V I} (idf : V → I) (fin : V → Prop) (m1 m2 m3 : gmap string V) :
  (∀ k x, m1 !! k = Some x → ∃ y, m2 !! k = Some y ∧ idf y = idf x ∧ (fin x → y = x)) →
  (∀ k x, m2 !! k = Some x → ∃ y, m3 !! k = Some y ∧ idf y = idf x ∧ (fin x → y = x)) →
  ∀ k x, m1 !! k = Some x → ∃ y, m3 !! k = Some y ∧ idf y = idf x ∧ (fin x → y = x).
Proof.
  intros H12 H23 k x Hx. destruct (H12 _ _ Hx) as (y & Hy & Hi & Hf).
  destruct (H23 _ _ Hy) as (z & Hz & Hi' & Hf'). exists z. split_and!; [done|congruence|].
  intros Hx'. specialize (Hf Hx'). subst y. auto.
Qed.

#[global] Instance protocol_law_preorder : PreOrder protocol_law.
Proof.
  split; [intros p; split; intros; by eexists|].
  intros p1 p2 p3 [A1 B1 C1] [A2 B2 C2]. split.
  - exact (kept_trans call_identity (λ t, finished t.(tc_state)) _ _ _ A1 A2).
  - exact (kept_trans request_identity (λ a, is_Some a.(ap_decision)) _ _ _ B1 B2).
  - exact (kept_trans attempt_identity (λ t, finished t.(ta_state)) _ _ _ C1 C2).
Qed.

(** Adding an entry, or replacing one that is not final. *)
Lemma kept_insert {V I} (idf : V → I) (fin : V → Prop) (m : gmap string V) i v :
  (∀ x, m !! i = Some x → idf v = idf x ∧ ¬ fin x) →
  ∀ k x, m !! k = Some x → ∃ y, <[i := v]> m !! k = Some y ∧ idf y = idf x ∧ (fin x → y = x).
Proof.
  intros Hi k x Hx. rewrite lookup_insert. case_decide as Hd; [|by exists x].
  subst k. exists v. destruct (Hi _ Hx). split_and!; [done|done|tauto].
Qed.

Lemma kept_refl {V I} (idf : V → I) (fin : V → Prop) (m : gmap string V) :
  ∀ k x, m !! k = Some x → ∃ y, m !! k = Some y ∧ idf y = idf x ∧ (fin x → y = x).
Proof. intros k x Hx. by exists x. Qed.

Lemma not_finished st :
  st ∈ [ToolCallState.PROPOSED; ToolCallState.WAITING_APPROVAL; ToolCallState.READY;
        ToolCallState.DISPATCHED] → ¬ finished st.
Proof. unfold finished. intros Hst Hf. set_solver. Qed.

Lemma calls_move p id t t' :
  p.(calls) !! id = Some t → call_identity t' = call_identity t → ¬ finished t.(tc_state) →
  ∀ k x, p.(calls) !! k = Some x → ∃ y, <[id := t']> p.(calls) !! k = Some y
    ∧ call_identity y = call_identity x ∧ (finished x.(tc_state) → y = x).
Proof.
  intros Ht He Hf. apply (kept_insert call_identity (λ t, finished t.(tc_state))).
  intros x Hx. rewrite Ht in Hx. by injection Hx as <-.
Qed.

Lemma kept_new {V I} (idf : V → I) (fin : V → Prop) (m : gmap string V) i v :
  m !! i = None →
  ∀ k x, m !! k = Some x → ∃ y, <[i := v]> m !! k = Some y ∧ idf y = idf x ∧ (fin x → y = x).
Proof. intros Hn. apply kept_insert. congruence. Qed.

Lemma tool_step_law p p' : protocol_inv p → tool_step p p' → protocol_law p p'.
Proof.
  intros Hp Hst. destruct Hst as [p id t Hn Hst|p id t t' aid a Ht Hst He Hst' Hn Hq Hd
    |p t t' aid a a' d Ha Hd Ht Hst Hf He Hst' Hscope Hi Hdec
    |p id t t' tid att Ht Hst He Hst' Hn Hid Hs|p t t' tid att att' out Hatt Hs Ht He Hst' Hi Hs' Hrec];
    split; cbn; try (intros ? x Hx; by exists x).
  - by apply (kept_new call_identity (λ t, finished t.(tc_state))).
  - eapply calls_move; [exact Ht|exact He|]. rewrite Hst. apply not_finished. set_solver.
  - by apply (kept_new request_identity (λ a, is_Some a.(ap_decision))).
  - eapply calls_move; [exact Ht|exact He|]. rewrite Hst. apply not_finished. set_solver.
  - apply (kept_insert request_identity (λ a, is_Some a.(ap_decision))).
    intros x Hx. rewrite Ha in Hx. injection Hx as <-. rewrite Hd. split; [done|by intros []].
  - eapply calls_move; [exact Ht|exact He|]. rewrite Hst. apply not_finished. set_solver.
  - by apply (kept_new attempt_identity (λ t, finished t.(ta_state))).
  - destruct (pi_attempts _ Hp _ _ Hatt) as (t0 & Ht0 & Hst & _).
    rewrite Ht in Ht0. injection Ht0 as <-.
    eapply calls_move; [exact Ht|exact He|]. rewrite Hst, Hs. apply not_finished. set_solver.
  - apply (kept_insert attempt_identity (λ t, finished t.(ta_state))).
    intros x Hx. rewrite Hatt in Hx. injection Hx as <-. split; [done|].
    rewrite Hs. apply not_finished. set_solver.
Qed.

Section properties.
Context `{PlatformLaws} (limits : BlobLimits).

Lemma reachable_protocol s : reachable limits s → protocol_inv (protocol_of s).
Proof.
  apply (reachable_invariant limits (λ s, protocol_inv (protocol_of s))); [by split|].
  intros o c s1 v s2 _ Hp _ _ Htx. destruct (command_protocol_step _ _ _ _ _ _ Htx) as [->|Hst];
    [done|by eapply tool_step_inv].
Qed.

Lemma later_protocol s s' :
  later limits s s' → protocol_inv (protocol_of s) →
  protocol_law (protocol_of s) (protocol_of s').
Proof.
  induction 1 as [s|s1 s2 s3 (o & c & ->) _ IH]; intros Hp; [done|].
  destruct (exec_protocol_step limits o c s1) as [He|Hst]; [rewrite He in IH; auto|].
  etrans; [by eapply tool_step_law|]. apply IH. by eapply tool_step_inv.
Qed.

(** ** Properties *)

(** C35. The store implements the tool protocol: whatever a command returns or raises, it takes
    the tables of tool calls, approvals and attempts through at most one step of the
    abstract machine. *)
Theorem store_implements_tool_protocol o c s :
  protocol_of (exec limits o c s) = protocol_of s
  ∨ tool_step (protocol_of s) (protocol_of (exec limits o c s)).
Proof. apply exec_protocol_step. Qed.

(** C2. No effect without approval: in every reachable database a tool call that is not pure
    and is ready, dispatched or finished has an approval request for exactly its run, its
    identifier and its fingerprint that a named actor decided as ALLOW_ONCE, with a reason. *)
Theorem effects_need_approval s id t :
  reachable limits s → s.(tool_calls) !! id = Some t →
  t.(tc_effect_class) ≠ ToolEffectClass.PURE →
  t.(tc_state) = ToolCallState.READY ∨ attempted t.(tc_state) →
  ∃ aid a, s.(approvals) !! aid = Some a ∧ requests_call id t a
           ∧ decided ApprovalDecision.ALLOW_ONCE a.
Proof. intros Hs. exact (pi_gate _ (reachable_protocol _ Hs) id t). Qed.

(** C3. A tool call is attempted at most once: in every reachable database an attempt is in the
    state of its call, no call has two attempts, a succeeded attempt has a receipt, and
    reading the dispatched attempt of a call never finds the table inconsistent. *)
Theorem attempted_at_most_once s tid att :
  reachable limits s → s.(tool_attempts) !! tid = Some att →
  (∃ t, s.(tool_calls) !! att.(ta_tool_call_id) = Some t ∧ t.(tc_state) = att.(ta_state))
  ∧ (∀ tid' att', s.(tool_attempts) !! tid' = Some att' →
       att'.(ta_tool_call_id) = att.(ta_tool_call_id) → tid' = tid)
  ∧ (att.(ta_state) = ToolCallState.SUCCEEDED → is_Some att.(ta_receipt_json))
  ∧ get_dispatched_attempt att.(ta_tool_call_id) s ≠ Err LedgerIntegrityError.
Proof.
  intros Hs%reachable_protocol Hatt. destruct (pi_attempts _ Hs _ _ Hatt) as (t & Ht & Hst & _).
  split_and!; [by exists t| |by eapply (pi_receipt _ Hs)|].
  - intros tid' att' Hatt' Hc. by eapply (pi_unique _ Hs).
  - unfold get_dispatched_attempt, dispatched_rows, mbind, tx_bind, gets.
    edestruct (select_unique (λ _ t, bool_decide (t.(ta_tool_call_id) = att.(ta_tool_call_id)
                 ∧ t.(ta_state) = ToolCallState.DISPATCHED)) (tool_attempts s))
      as [->|(k & v & -> & _ & _)]; [|done|].
    + intros k1 v1 k2 v2 H1 H2 [E1 _]%bool_decide_eq_true [E2 _]%bool_decide_eq_true.
      eapply (pi_unique _ Hs); [done..|]. congruence.
    + unfold lift_result, tool_attempt_from_row, loads_dict, loads_opt, mbind, result_bind,
        fmap, result_fmap, result_of_option.
      repeat (case_match; simplify_eq; try done).
Qed.

(** Decisions and outcomes are final: along any history from a reachable database every tool
    call, approval and attempt keeps its identity, and one that is decided or finished stays
    exactly as it is. *)
Theorem decisions_and_outcomes_final s s' :
  reachable limits s → later limits s s' → protocol_law (protocol_of s) (protocol_of s').
Proof. intros Hs Hl. apply later_protocol; [done|by apply reachable_protocol]. Qed.
End properties.

(** ** Witnesses *)

#[local] Existing Instance plain_platform.

(** Witness of [effects_need_approval]: the scenario's call, which writes a file. *)
Lemma effects_need_approval_witness :
  ∃ t, ready_db.(tool_calls) !! "id-110" = Some t
  ∧ ∃ aid a, ready_db.(approvals) !! aid = Some a ∧ requests_call "id-110" t a
             ∧ decided ApprovalDecision.ALLOW_ONCE a.
Proof.
  destruct (tool_calls ready_db !! "id-110") as [t|] eqn:Ht; [|vm_compute in Ht; discriminate].
  exists t. split; [reflexivity|].
  assert ((λ t, (tc_effect_class t, tc_state t)) <$> tool_calls ready_db !! "id-110"
          = Some (ToolEffectClass.NON_IDEMPOTENT, ToolCallState.READY)) as Hf
    by (vm_compute; reflexivity).
  rewrite Ht in Hf. injection Hf as He Hst.
  apply (effects_need_approval demo_limits ready_db "id-110" t);
    [exact ready_reachable|exact Ht|rewrite He; discriminate|left; exact Hst].
Defined.

(** Witness of [attempted_at_most_once]: the scenario's attempt. *)
Lemma attempted_at_most_once_witness :
  ∃ att, final_db.(tool_attempts) !! "attempt" = Some att
  ∧ (∃ t, final_db.(tool_calls) !! att.(ta_tool_call_id) = Some t ∧ t.(tc_state) = att.(ta_state))
  ∧ (∀ tid' att', final_db.(tool_attempts) !! tid' = Some att' →
       att'.(ta_tool_call_id) = att.(ta_tool_call_id) → tid' = "attempt")
  ∧ (att.(ta_state) = ToolCallState.SUCCEEDED → is_Some att.(ta_receipt_json))
  ∧ get_dispatched_attempt att.(ta_tool_call_id) final_db ≠ Err LedgerIntegrityError.
Proof.
  destruct (tool_attempts final_db !! "attempt") as [att|] eqn:Hatt;
    [|vm_compute in Hatt; discriminate].
  exists att. split; [reflexivity|].
  apply (attempted_at_most_once demo_limits final_db "attempt" att);
    [exact final_reachable|exact Hatt].
Defined.

(** Witness of [decisions_and_outcomes_final]: from the approval to the end. *)
Lemma decisions_and_outcomes_final_witness :
  protocol_law (protocol_of ready_db) (protocol_of final_db).
Proof.
  apply (decisions_and_outcomes_final demo_limits ready_db final_db);
    [exact ready_reachable|apply run_trace_later].
Defined.
