(* ===== verification/BlobSafety.v ===== *)
(** * BlobSafety: the content-addressed blobs, and the opening of a store

    Every stored blob is intact and the store stays within its quotas; what was put can be
    read back after any history. Initialising a store again changes nothing, and a changed
    migration is refused. *)

From S2P Require Import Prelude Domain Platform Json Events Projection ToolIdentity Tables.
From S2P Require Import Ledger ModelCalls Leases Checkpoints Runs Tools Budget Store Scenario.
From S2P Require Import LedgerSafety RunSafety Lifecycle.

Section blobs.
Context `{PlatformLaws} (limits : BlobLimits).

(** A row that is what its key says. *)
Definition blob_intact (id : string) (row : BlobRow) : Prop :=
  sha256_text row.(bl_content) = id
  ∧ row.(bl_byte_length) = Z.of_nat (String.length row.(bl_content))
  ∧ blank row.(bl_media_type) = false
  ∧ (row.(bl_byte_length) ≤ limits.(max_blob_bytes))%Z.

Record blob_inv (s : db) : Prop := {
  bv_rows : map_Forall blob_intact s.(blobs);
  bv_total : (total_blob_bytes s ≤ Z.max 0 limits.(max_total_bytes))%Z;
}.

Definition blobs_kept : relation db := λ s s',
  s.(blobs) ⊆ s'.(blobs) ∧ (blob_inv s → blob_inv s').

#[global] Instance blobs_kept_preorder : PreOrder blobs_kept.
Proof.
  unfold blobs_kept. split; [done|]. intros s1 s2 s3 [? ?] [? ?]. split; [by etrans|auto].
Qed.

Lemma blobs_frame s s' : s'.(blobs) = s.(blobs) → blobs_kept s s'.
Proof.
  intros He. split; [by rewrite He|]. intros [Hr Ht]. split; [by rewrite He|].
  unfold total_blob_bytes in *. by rewrite He.
Qed.

Lemma total_blob_total s : total_blob_bytes s = total bl_byte_length s.(blobs).
Proof. done. Qed.

Lemma put_blob_kept t content media : tx_rel blobs_kept (put_blob_in_tx limits t content media).
Proof.
  intros s b s' Hop. unfold put_blob_in_tx in Hop. tx_steps; [done|].
  split; [by apply insert_subseteq|]. intros [Hr Ht]. split; cbn.
  - by apply map_Forall_insert_2.
  - rewrite total_blob_total in *. cbn. rewrite total_insert by done. cbn. lia.
Qed.

Lemma append_blobs o k a : tx_rel blobs_kept (append_event_in_tx o k a).
Proof. apply append_rel; [apply _|..]; intros; by apply blobs_frame. Qed.

Lemma insert_event_blobs e : tx_rel blobs_kept (insert_event e).
Proof. apply insert_event_rel; [apply _|..]; intros; by apply blobs_frame. Qed.

Lemma prepare_event_blobs o k a : tx_rel blobs_kept (prepare_event o k a).
Proof. by apply prepare_event_rel, _. Qed.
Hint Resolve put_blob_kept append_blobs insert_event_blobs prepare_event_blobs : tx_rel.
Hint Extern 2 (blobs_kept _ _) => (apply blobs_frame; reflexivity) : tx_rel.

Lemma command_blobs o c : tx_rel blobs_kept (command_tx limits o c).
Proof. destruct c; cbn [command_tx]; tx_rel_ops. Qed.

Lemma reachable_blobs s : reachable limits s → blob_inv s.
Proof.
  apply reachable_invariant.
  - intros m p. split; cbn; [by apply map_Forall_empty|]. unfold total_blob_bytes. cbn.
    change (sum_of _ _) with 0%Z. lia.
  - intros o c s1 v s2 _ Hb _ _ Htx. by apply (command_blobs _ _ _ _ _ Htx).
Qed.

Lemma verify_intact id row :
  blob_intact id row → verify_blob (stored_blob_from_row id row) = Ok tt.
Proof.
  intros (Hs & Hl & _). unfold verify_blob, assert_result. cbn.
  by rewrite decide_True, decide_True.
Qed.

Lemma get_blob_intact id row s :
  s.(blobs) !! id = Some row → blob_intact id row →
  get_blob id s = Ok (stored_blob_from_row id row, s).
Proof.
  intros Hr Hi. unfold get_blob, mbind, tx_bind, gets, lift_option, lift_result, mret, tx_ret.
  rewrite Hr. cbn [stored_blob_from_row]. by rewrite verify_intact.
Qed.

(** What a successful put leaves and returns. *)
Lemma put_blob_Ok t content media s b s' :
  put_blob_in_tx limits t content media s = Ok (b, s') →
  ∃ row, s'.(blobs) !! sha256_text content = Some row ∧ row.(bl_content) = content
         ∧ b = stored_blob_from_row (sha256_text content) row ∧ row.(bl_media_type) = media.
Proof.
  intros Hop. unfold put_blob_in_tx in Hop. tx_steps.
  - by eexists.
  - eexists. split; [by apply lookup_insert_eq|]. done.
Qed.

(** ** Properties *)

(** The blob table is intact and within quota in every reachable database: each row's key is
    the hash of its content, its length is the content's, no blob exceeds the size limit,
    and all of them together stay within the total. *)
Theorem blobs_intact_within_quota s :
  reachable limits s →
  map_Forall blob_intact s.(blobs)
  ∧ (total_blob_bytes s ≤ Z.max 0 limits.(max_total_bytes))%Z.
Proof. intros [? ?]%reachable_blobs. done. Qed.

(** Put, then get: what a put returned is what reading its hash returns after any further
    commands, and its content is the one that was put. *)
Theorem put_get_blob o content media s b s1 s' :
  reachable limits s → put_blob_in_tx limits o content media s = Ok (b, s1) → later limits s1 s' →
  get_blob (sha256_text content) s' = Ok (b, s') ∧ b.(sb_content) = content
  ∧ b.(sb_media_type) = media.
Proof.
  intros Hs%reachable_blobs Hput Hl.
  apply (proj2 (put_blob_kept _ _ _ _ _ _ Hput)) in Hs.
  apply put_blob_Ok in Hput as (row & Hrow & Hc & -> & Hm). split; [|done].
  apply (later_rel limits blobs_kept) in Hl as [Hsub Hinv]; [|apply command_blobs].
  specialize (Hinv Hs). eapply lookup_weaken in Hrow; [|exact Hsub].
  apply get_blob_intact; [done|]. by apply (bv_rows _ Hinv).
Qed.

(** Deduplication: putting a content whose hash is already stored writes nothing, and fails
    only for a different media type or for another content with the same hash. *)
Theorem put_blob_deduplicates o content media s row :
  reachable limits s → s.(blobs) !! sha256_text content = Some row → blank media = false →
  put_blob_in_tx limits o content media s =
    if decide (row.(bl_content) = content) then
      if decide (row.(bl_media_type) = media)
      then Ok (stored_blob_from_row (sha256_text content) row, s)
      else Err BlobMetadataConflictError
    else Err LedgerIntegrityError.
Proof.
  intros Hs%reachable_blobs Hrow Hm.
  unfold put_blob_in_tx, mbind, tx_bind, gets, require, lift_result, mret, tx_ret.
  rewrite (decide_True _ _ Hm), Hrow, verify_intact by (by apply (bv_rows _ Hs)). cbn.
  by repeat case_decide.
Qed.
End blobs.

(** ** Witnesses *)

#[local] Existing Instance plain_platform.

(** Witness of [blobs_intact_within_quota]. *)
Lemma blobs_intact_within_quota_witness :
  map_Forall (blob_intact demo_limits) final_db.(blobs)
  ∧ (total_blob_bytes final_db ≤ Z.max 0 demo_limits.(max_total_bytes))%Z.
Proof. apply (blobs_intact_within_quota demo_limits final_db). exact final_reachable. Defined.

(** Witness of [put_get_blob]: a new blob, read back after the run went on. *)
Lemma put_get_blob_witness :
  ∃ b s1, put_blob_in_tx demo_limits 14 "note" "text/plain" ready_db = Ok (b, s1)
  ∧ get_blob (sha256_text "note") (run_trace 14 acting s1) = Ok (b, run_trace 14 acting s1)
  ∧ b.(sb_content) = "note" ∧ b.(sb_media_type) = "text/plain".
Proof.
  destruct (put_blob_in_tx demo_limits 14 "note" "text/plain" ready_db) as [[b s1]|e] eqn:Hput;
    [|vm_compute in Hput; discriminate].
  exists b, s1. split; [reflexivity|].
  apply (put_get_blob demo_limits 14 "note" "text/plain" ready_db b s1 (run_trace 14 acting s1));
    [exact ready_reachable|exact Hput|apply run_trace_later].
Defined.

(** Witness of [put_blob_deduplicates]: the stored answer, put again. *)
Lemma put_blob_deduplicates_witness :
  ∃ row, ready_db.(blobs) !! sha256_text "answer" = Some row
  ∧ put_blob_in_tx demo_limits 14 "answer" "text/plain" ready_db =
      if decide (row.(bl_content) = "answer") then
        if decide (row.(bl_media_type) = "text/plain")
        then Ok (stored_blob_from_row (sha256_text "answer") row, ready_db)
        else Err BlobMetadataConflictError
      else Err LedgerIntegrityError.
Proof.
  destruct (blobs ready_db !! sha256_text "answer") as [row|] eqn:Hrow; [|vm_compute in Hrow; discriminate].
  exists row. split; [reflexivity|].
  apply (put_blob_deduplicates demo_limits 14 "answer" "text/plain" ready_db row);
    [exact ready_reachable|exact Hrow|reflexivity].
Defined.

(** ** Opening a database

    Opening a store again changes nothing, and a migration whose text differs from the one
    that was applied is refused before anything else of the database changes. *)

Section opening.
Context `{PlatformLaws}.

(** The migration is recorded with its own checksum. *)
Definition applied (s : db) (m : Migration) : Prop :=
  s.(schema_migrations) !! m.(version) = Some (migration_checksum m).

Lemma apply_migration_cases m s :
  run_tx (apply_migration m) s =
    match s.(schema_migrations) !! m.(version) with
    | Some c => if decide (c = migration_checksum m) then (Ok tt, s)
                else (Err MigrationChecksumError, s)
    | None => (Ok tt, s <| schema_migrations ::= <[m.(version) := migration_checksum m]> |>)
    end.
Proof.
  unfold run_tx, apply_migration, mbind, tx_bind, gets, require, modify.
  destruct (schema_migrations s !! version m); [by case_decide|done].
Qed.

Lemma backfill_rows_same rows : tx_rel (same schema_migrations) (backfill_rows rows).
Proof.
  induction rows as [|r rows IH]; cbn [backfill_rows]; [by apply tx_rel_ret, _|].
  repeat (apply tx_rel_bind; [apply _| |intros ?]); [by apply tx_rel_lift_result, _| |done].
  by apply apply_projection_rel; [apply _|].
Qed.

Lemma backfill_Ok s u s' :
  backfill_model_call_projection s = Ok (u, s') →
  s'.(schema_migrations) = s.(schema_migrations)
  ∧ s'.(projection_migrations) !! "model_calls" = Some 1%Z.
Proof.
  intros Hop. unfold backfill_model_call_projection in Hop. tx_steps; [done|].
  match goal with H : backfill_rows _ _ = Ok _ |- _ => apply backfill_rows_same in H as Hs end.
  cbn. split; [by rewrite Hs|by rewrite lookup_insert_eq].
Qed.

Lemma initialize_Ok ms s u s' :
  initialize ms s = (Ok u, s') →
  s.(schema_migrations) ⊆ s'.(schema_migrations) ∧ Forall (applied s') ms
  ∧ s'.(projection_migrations) !! "model_calls" = Some 1%Z.
Proof.
  revert s. induction ms as [|m ms IH]; intros s; cbn [initialize].
  - unfold run_tx. destruct (backfill_model_call_projection s) as [[u0 s0]|] eqn:Hb; [|done].
    intros [= <- <-]. apply backfill_Ok in Hb as [-> Hp]. done.
  - rewrite apply_migration_cases.
    destruct (schema_migrations s !! version m) as [c|] eqn:Hc.
    + case_decide as Hd; [|done]. intros (Hsub & Hall & Hp)%IH. split_and!; [done| |done].
      constructor; [|done]. red. subst c. by eapply lookup_weaken.
    + intros (Hsub & Hall & Hp)%IH. cbn in Hsub. split_and!; [|constructor|]; try done.
      * etrans; [|exact Hsub]. by apply insert_subseteq.
      * eapply lookup_weaken; [|exact Hsub]. by rewrite lookup_insert_eq.
Qed.

Lemma initialize_again ms s :
  Forall (applied s) ms → s.(projection_migrations) !! "model_calls" = Some 1%Z →
  initialize ms s = (Ok tt, s).
Proof.
  intros Hall Hp. induction Hall as [|m ms Hm _ IH]; cbn [initialize].
  - unfold run_tx, backfill_model_call_projection, mbind, tx_bind, gets, require. by rewrite Hp.
  - rewrite apply_migration_cases. red in Hm. rewrite Hm. by rewrite decide_True.
Qed.

(** Opening a store twice is opening it once: after a successful initialisation, another one
    succeeds and leaves the database exactly as it is. *)
Theorem initialize_idempotent ms s u s' :
  initialize ms s = (Ok u, s') → initialize ms s' = (Ok tt, s').
Proof. intros (_ & Hall & Hp)%initialize_Ok. by apply initialize_again. Qed.

(** A changed migration is refused: when the database records another checksum for the
    version of one of the migrations, the initialisation raises MigrationChecksumError, and
    no table other than the record of the migrations before it has changed. *)
Theorem changed_migration_refused ms s m c :
  m ∈ ms → s.(schema_migrations) !! m.(version) = Some c → c ≠ migration_checksum m →
  ∃ applied', s.(schema_migrations) ⊆ applied' ∧
    initialize ms s = (Err MigrationChecksumError, s <| schema_migrations := applied' |>).
Proof.
  revert s. induction ms as [|m' ms IH]; intros s Hin Hc Hne; [by apply not_elem_of_nil in Hin|].
  cbn [initialize]. rewrite apply_migration_cases.
  destruct (schema_migrations s !! version m') as [c'|] eqn:Hc'.
  - case_decide as Hd; [|by exists (schema_migrations s); destruct s].
    apply elem_of_cons in Hin as [->|Hin]; [congruence|by apply IH].
  - apply elem_of_cons in Hin as [->|Hin]; [congruence|].
    destruct (IH (s <| schema_migrations ::= <[version m' := migration_checksum m']> |>) Hin)
      as (ap & Hsub & ->); [cbn; rewrite lookup_insert_ne; congruence|done|].
    exists ap. split; [|done]. etrans; [|exact Hsub]. by apply insert_subseteq.
Qed.
End opening.

(** ** Witnesses *)


Definition demo_migration : Migration := {| version := 1; statements := ["CREATE TABLE a"] |}.
Definition edited_migration : Migration := {| version := 1; statements := ["CREATE TABLE b"] |}.

Definition opened_db : db := (initialize [demo_migration] empty_db).2.

(** Witness of [initialize_idempotent]. *)
Lemma initialize_idempotent_witness : initialize [demo_migration] opened_db = (Ok tt, opened_db).
Proof.
  apply (initialize_idempotent [demo_migration] empty_db tt opened_db). vm_compute. reflexivity.
Defined.

(** Witness of [changed_migration_refused]. *)
Lemma changed_migration_refused_witness :
  ∃ applied', opened_db.(schema_migrations) ⊆ applied' ∧
    initialize [edited_migration] opened_db
    = (Err MigrationChecksumError, opened_db <| schema_migrations := applied' |>).
Proof.
  apply (changed_migration_refused [edited_migration] opened_db edited_migration
           (migration_checksum demo_migration));
    [left|vm_compute; reflexivity|vm_compute; discriminate].
Defined.
