(* ===== verification/ModelCallSafety.v ===== *)
(** * ModelCallSafety: the protocol of model calls

    An abstract machine for the [model_calls] table: a call is started, may be attempted
    again, gets one response, and the response is consumed once. Every append makes at most
    one step of it, and a response that waits to be consumed can always be read back from
    the ledger. *)

From S2P Require Import Prelude Domain Platform Json Events Projection ToolIdentity Tables Ledger ModelCalls.
From S2P Require Import Leases Checkpoints Runs Tools Budget Store Scenario LedgerSafety RunSafety Lifecycle.
From S2P Require Import Lifecycle.

(** ** The abstract machine *)

Abbreviation calls_table := (gmap string ModelCallRow).

(** The other calls of a run have other steps, at most one call is active, and no two calls
    share a response. *)
Definition fits (m : calls_table) (id : string) (row : ModelCallRow) : Prop :=
  ∀ k x, m !! k = Some x → k ≠ id →
    (x.(mc_run_id) = row.(mc_run_id) →
       x.(mc_step) ≠ row.(mc_step) ∧ ¬ (mc_active x = true ∧ mc_active row = true))
    ∧ (is_Some row.(mc_response_event_id) →
       x.(mc_response_event_id) ≠ row.(mc_response_event_id)).

Definition call_key (row : ModelCallRow) := (row.(mc_run_id), row.(mc_step)).

Definition response_of (row : ModelCallRow) :=
  (row.(mc_response_event_id), row.(mc_response_blob_sha256), row.(mc_response_seq)).

Definition consumption_of (row : ModelCallRow) :=
  (row.(mc_consumed_event_id), row.(mc_consumed_seq), row.(mc_consumption_kind)).

Definition no_consumption : option string * option Z * option ConsumptionKind.t :=
  (None, None, None).

(** One step, taken while event [e] is appended. *)
Inductive model_step (e : EventEnvelope) : calls_table → calls_table → Prop :=
| ms_start m id row :
    m !! id = None → row.(mc_status) = ModelCallStatus.STARTED →
    response_of row = (None, None, None) → consumption_of row = no_consumption →
    e.(run_id) = Some row.(mc_run_id) → fits m id row → model_step e m (<[id := row]> m)
| ms_attempt m id row row' :
    m !! id = Some row → row.(mc_status) = ModelCallStatus.STARTED →
    row'.(mc_status) = ModelCallStatus.STARTED → call_key row' = call_key row →
    response_of row' = response_of row → consumption_of row' = consumption_of row →
    fits m id row' → model_step e m (<[id := row']> m)
| ms_respond m id row row' blob i p :
    m !! id = Some row → row.(mc_status) = ModelCallStatus.STARTED →
    row'.(mc_status) = ModelCallStatus.RESPONDED → call_key row' = call_key row →
    e.(run_id) = Some row.(mc_run_id) →
    e.(payload) = ModelResponseReceivedPayload id blob i p →
    response_of row' = (Some e.(event_id), Some blob, Some e.(seq)) →
    consumption_of row' = consumption_of row →
    fits m id row' → model_step e m (<[id := row']> m)
| ms_consume m id row row' consumer kind :
    m !! id = Some row → row.(mc_status) = ModelCallStatus.RESPONDED →
    row'.(mc_status) = ModelCallStatus.CONSUMED → call_key row' = call_key row →
    response_of row' = response_of row →
    consumption_of row' = (Some consumer.(event_id), Some consumer.(seq), Some kind) →
    consumer.(run_id) = e.(run_id) →
    fits m id row' → model_step e m (<[id := row']> m).

(** ** Appends implement the machine *)

Lemma constraints_fit id row s : model_call_constraints id row s → fits s.(model_calls) id row.
Proof.
  intros (_ & _ & _ & _ & _ & _ & _ & _ & Hstep & Hact & Hresp) k x Hx Hne. split.
  - intros Hrun. specialize (Hstep _ _ Hx). specialize (Hact _ _ Hx). cbn in *.
    apply bool_decide_eq_false in Hstep. split; [tauto|]. intros [H1 H2].
    rewrite H1, H2, !andb_true_r in Hact. apply bool_decide_eq_false in Hact. tauto.
  - intros Hs He. specialize (Hresp _ _ Hx). cbn in Hresp. apply bool_decide_eq_false in Hresp.
    tauto.
Qed.

Section append.
Context `{PlatformLaws}.

Definition projected (e : EventEnvelope) (s s' : db) : Prop :=
  s'.(model_calls) = s.(model_calls) ∨ model_step e s.(model_calls) s'.(model_calls).

Lemma event_run_id_Ok e s rid s' : event_run_id e s = Ok (rid, s') → s' = s ∧ e.(run_id) = Some rid.
Proof. unfold event_run_id. intros [? ?]%lift_option_Ok. done. Qed.

Lemma resolve_model_step_same rid id st l ex : tx_rel (@eq db) (resolve_model_step rid id st l ex).
Proof.
  unfold resolve_model_step. assert (PreOrder (@eq db)) by (split; red; congruence). tx_rel_tac.
Qed.

Lemma require_response_same e id : tx_rel (@eq db) (require_response e id).
Proof.
  unfold require_response, event_run_id.
  assert (PreOrder (@eq db)) by (split; red; congruence). tx_rel_tac.
Qed.

Lemma consumed_response_same l e : tx_rel (@eq db) (consumed_response l e).
Proof.
  unfold consumed_response, event_run_id.
  assert (PreOrder (@eq db)) by (split; red; congruence). tx_rel_tac.
Qed.

Lemma call_by_response_Some rid s id row :
  call_by_response rid s = Some (id, row) →
  s.(model_calls) !! id = Some row ∧ row.(mc_response_event_id) = Some rid.
Proof.
  unfold call_by_response. intros Hh%head_Some_elem_of. unfold select in Hh.
  apply list_elem_of_filter in Hh as [Hb%bool_decide_eq_true Hm].
  by rewrite elem_of_map_to_list in Hm.
Qed.

Ltac projection_reads :=
  repeat match goal with
  | H : event_run_id _ _ = Ok _ |- _ => apply event_run_id_Ok in H as [-> ?]
  | H : resolve_model_step _ _ _ _ _ _ = Ok _ |- _ => apply resolve_model_step_same in H; subst
  | H : require_response _ _ _ = Ok _ |- _ => apply require_response_same in H; subst
  | H : consumed_response _ _ _ = Ok _ |- _ => apply consumed_response_same in H; subst
  | H : call_by_response _ _ = Some (_, _) |- _ => apply call_by_response_Some in H as [? ?]
  | H : update_model_call _ _ _ = Ok _ |- _ =>
      apply update_model_call_Ok in H as [[? ->]|(? & ? & ? & ->)]; [congruence|]
  | H : model_call_constraints _ _ _ |- _ => apply constraints_fit in H
  end; simplify_eq.

Lemma started_projected e id name n st s u s' :
  project_model_call_started false e id name n st s = Ok (u, s') → projected e s s'.
Proof.
  intros Hop. unfold project_model_call_started in Hop. tx_steps; projection_reads.
  - by left.
  - right. by eapply ms_attempt.
  - match goal with H : _ ∧ model_call_constraints _ _ _ |- _ =>
      destruct H as [? Hc]; apply constraints_fit in Hc end.
    right. by eapply ms_start.
Qed.

Lemma failed_projected e id s u s' :
  project_model_call_failed false e id s = Ok (u, s') → projected e s s'.
Proof.
  intros Hop. unfold project_model_call_failed in Hop. tx_steps; projection_reads.
  right. by eapply ms_attempt.
Qed.

Lemma response_projected e id blob i p s u s' :
  e.(payload) = ModelResponseReceivedPayload id blob i p →
  project_model_response false e id blob s = Ok (u, s') → projected e s s'.
Proof.
  intros Hp Hop. unfold project_model_response in Hop. tx_steps; projection_reads; try by left.
  right. by eapply ms_respond.
Qed.

(** The update that consumes a response, by the event [consumer]. *)
Lemma consume_projected e consumer kind id row s u s' :
  s.(model_calls) !! id = Some row → row.(mc_status) = ModelCallStatus.RESPONDED →
  consumer.(run_id) = e.(run_id) →
  update_model_call id (consume_call kind consumer) s = Ok (u, s') → projected e s s'.
Proof. intros Hrow Hst Hr Hop. projection_reads. right. by eapply ms_consume. Qed.

Lemma consumption_projected e s u s' :
  project_model_response_consumption false e s = Ok (u, s') → projected e s s'.
Proof.
  intros Hop. unfold project_model_response_consumption in Hop.
  tx_steps; repeat match goal with
  | H : require_response _ _ _ = Ok _ |- _ => apply require_response_same in H; subst
  | H : consumed_response _ _ _ = Ok _ |- _ => apply consumed_response_same in H; subst
  | H : call_by_response _ _ = Some _ |- _ => apply call_by_response_Some in H as [? ?]
  end; try by left. by eapply consume_projected.
Qed.

Lemma final_projected e final rid s u s' :
  final.(run_id) = e.(run_id) →
  consume_final_model_response final rid s = Ok (u, s') → projected e s s'.
Proof.
  intros Hr Hop. unfold consume_final_model_response in Hop.
  tx_steps; repeat match goal with
  | H : require_response _ _ _ = Ok _ |- _ => apply require_response_same in H; subst
  | H : call_by_response _ _ = Some _ |- _ => apply call_by_response_Some in H as [? ?]
  end; try by left. by eapply consume_projected.
Qed.

Lemma completed_projected e s u s' :
  project_completed_final_answer false e s = Ok (u, s') → projected e s s'.
Proof.
  intros Hop. unfold project_completed_final_answer in Hop. tx_steps; try by left.
  all: repeat match goal with
    H : event_run_id _ _ = Ok _ |- _ => apply event_run_id_Ok in H as [-> ?] end.
  all: eapply final_projected; [|done]; congruence.
Qed.

Lemma apply_projected e s u s' :
  apply_operational_projection false e s = Ok (u, s') → projected e s s'.
Proof.
  intros Hop. unfold apply_operational_projection in Hop.
  destruct (payload e) eqn:Hp;
    try (apply tx_ret_Ok in Hop as [_ ->]; by left).
  all: first [by eapply started_projected|by eapply failed_projected|by eapply response_projected
             |by eapply consumption_projected|by eapply completed_projected].
Qed.

Lemma append_projected o k a s e s' :
  append_event_in_tx o k a s = Ok (e, s') → projected e s s'.
Proof.
  intros (e0 & s1 & Hm & (u & s2 & Hm0 & (u' & s3 & Hm1 & [<- ->]%tx_ret_Ok)%tx_bind_Ok)%tx_bind_Ok)%tx_bind_Ok.
  apply (prepare_event_same model_calls) in Hm. apply (insert_event_same model_calls) in Hm0; [|done..].
  apply apply_projected in Hm1. unfold projected in *. rewrite Hm0, Hm in Hm1. done.
Qed.
End append.

(** ** Invariants and laws of the machine *)

(** What the columns hold in each status. *)
Definition call_shape (row : ModelCallRow) : Prop :=
  match row.(mc_status) with
  | ModelCallStatus.STARTED =>
      response_of row = (None, None, None) ∧ consumption_of row = no_consumption
  | ModelCallStatus.RESPONDED =>
      (∃ ev blob n, response_of row = (Some ev, Some blob, Some n))
      ∧ consumption_of row = no_consumption
  | ModelCallStatus.CONSUMED =>
      (∃ ev blob n, response_of row = (Some ev, Some blob, Some n))
      ∧ ∃ ev n kind, consumption_of row = (Some ev, Some n, Some kind)
  end.

Definition calls_ok (m : calls_table) : Prop :=
  ∀ id row, m !! id = Some row → fits m id row ∧ call_shape row.

Lemma calls_ok_insert m id row :
  calls_ok m → fits m id row → call_shape row → calls_ok (<[id := row]> m).
Proof.
  intros Hm Hf Hs k x [[<- <-]|[Hne Hx]]%lookup_insert_Some.
  - split; [|done]. intros k' x' [[<- _]|[_ Hx']]%lookup_insert_Some Hne;
      [done|exact (Hf _ _ Hx' Hne)].
  - destruct (Hm _ _ Hx) as [Hfx Hsx]. split; [|done].
    intros k' x' [[<- <-]|[_ Hx']]%lookup_insert_Some Hne'; [|exact (Hfx _ _ Hx' Hne')].
    destruct (Hf _ _ Hx) as [H1 H2]; [done|]. split.
    + intros Hr. destruct (H1 (eq_sym Hr)) as [Hst Ha]. split; [congruence|tauto].
    + intros Hi He. rewrite <- He in Hi. by apply (H2 Hi).
Qed.

Lemma model_step_ok e m m' : model_step e m m' → calls_ok m → calls_ok m'.
Proof.
  destruct 1 as [m id row Hn Hst Hr Hc Hrun Hf|m id row row' Hrow Hst Hst' Hk Hr Hc Hf
    |m id row row' blob i p Hrow Hst Hst' Hk Hrun Hp Hr Hc Hf
    |m id row row' consumer kind Hrow Hst Hst' Hk Hr Hc Hrun Hf];
    intros Hm; apply calls_ok_insert; try done; unfold call_shape.
  - by rewrite Hst.
  - destruct (Hm _ _ Hrow) as [_ Hs]. unfold call_shape in Hs. rewrite Hst in Hs.
    by rewrite Hst', Hr, Hc.
  - destruct (Hm _ _ Hrow) as [_ Hs]. unfold call_shape in Hs. rewrite Hst in Hs.
    rewrite Hst', Hr, Hc. split; [by eauto|by apply Hs].
  - destruct (Hm _ _ Hrow) as [_ Hs]. unfold call_shape in Hs. rewrite Hst in Hs.
    rewrite Hst', Hr, Hc. split; [by apply Hs|by eauto].
Qed.

(** A call keeps its run and step; a response, once there, stays, and a consumed call stays
    exactly as it is. *)
Definition calls_law (m m' : calls_table) : Prop :=
  ∀ id row, m !! id = Some row → ∃ row', m' !! id = Some row' ∧ call_key row' = call_key row
    ∧ (row.(mc_status) ≠ ModelCallStatus.STARTED → response_of row' = response_of row
                                              ∧ row'.(mc_status) ≠ ModelCallStatus.STARTED)
    ∧ (row.(mc_status) = ModelCallStatus.CONSUMED → row' = row).

#[global] Instance calls_law_preorder : PreOrder calls_law.
Proof.
  split; [intros m id row Hrow; by exists row|]. intros m1 m2 m3 H12 H23 id row Hrow.
  destruct (H12 _ _ Hrow) as (r2 & Hr2 & Hk2 & Hs2 & Hc2).
  destruct (H23 _ _ Hr2) as (r3 & Hr3 & Hk3 & Hs3 & Hc3). exists r3. split_and!; [done|congruence| |].
  - intros Hst. destruct (Hs2 Hst) as [He2 Hst2]. destruct (Hs3 Hst2) as [He3 Hst3].
    split; [congruence|done].
  - intros Hst. rewrite Hc3; [by apply Hc2|]. by rewrite Hc2.
Qed.

Lemma model_step_law e m m' : model_step e m m' → calls_law m m'.
Proof.
  destruct 1 as [m id row Hn Hst Hr Hc Hrun Hf|m id row row' Hrow Hst Hst' Hk Hr Hc Hf
    |m id row row' blob i p Hrow Hst Hst' Hk Hrun Hp Hr Hc Hf
    |m id row row' consumer kind Hrow Hst Hst' Hk Hr Hc Hrun Hf]; intros k x Hx;
    rewrite lookup_insert; (case_decide as Hd; [subst k|by exists x]); [congruence|..];
    rewrite Hx in Hrow; injection Hrow as ->; exists row'; rewrite Hst, Hst';
    split_and!; done.
Qed.

(** ** The ledger behind the table *)

Section link.
Context `{PlatformLaws} (limits : BlobLimits).

(** A response that waits to be consumed is an event of the ledger that says the same. *)
Definition linked (s : db) (id : string) (row : ModelCallRow) : Prop :=
  row.(mc_status) = ModelCallStatus.RESPONDED →
  ∃ e blob, row_of_event e ∈ s.(events) ∧ event_ok e
    ∧ row.(mc_response_event_id) = Some e.(event_id)
    ∧ row.(mc_response_blob_sha256) = Some blob
    ∧ response_matches row.(mc_run_id) id row blob e = true.

Record model_inv (s : db) : Prop := {
  mi_calls : calls_ok s.(model_calls);
  mi_linked : ∀ id row, s.(model_calls) !! id = Some row → linked s id row;
}.

Definition model_kept : relation db := λ s s',
  calls_law s.(model_calls) s'.(model_calls) ∧ (model_inv s → model_inv s').

#[global] Instance model_kept_preorder : PreOrder model_kept.
Proof.
  unfold model_kept. split; [done|]. intros s1 s2 s3 [? ?] [? ?]. split; [by etrans|auto].
Qed.

Lemma linked_mono s s' id row :
  (∀ r, r ∈ s.(events) → r ∈ s'.(events)) → linked s id row → linked s' id row.
Proof. intros Hev Hl Hst. destruct (Hl Hst) as (e & blob & He & ?). exists e, blob. auto. Qed.

Lemma model_frame s s' :
  s'.(model_calls) = s.(model_calls) → (∀ r, r ∈ s.(events) → r ∈ s'.(events)) → model_kept s s'.
Proof.
  intros Hm Hev. split; [by rewrite Hm|]. intros [Hc Hl]. split; rewrite Hm; [done|].
  intros id row Hrow. eapply linked_mono; [done|by apply Hl].
Qed.

Lemma model_step_linked e s s' :
  model_step e s.(model_calls) s'.(model_calls) → event_ok e → row_of_event e ∈ s'.(events) →
  (∀ r, r ∈ s.(events) → r ∈ s'.(events)) →
  (∀ id row, s.(model_calls) !! id = Some row → linked s id row) →
  ∀ id row, s'.(model_calls) !! id = Some row → linked s' id row.
Proof.
  intros Hst He Hin Hev Hl id row. inversion Hst as
    [m id0 row0 Hn Hs Hr Hc Hrun Hf|m id0 row0 row' Hrow Hs Hs' Hk Hr Hc Hf
    |m id0 row0 row' blob i p Hrow Hs Hs' Hk Hrun Hp Hr Hc Hf
    |m id0 row0 row' consumer kind Hrow Hs Hs' Hk Hr Hc Hrun Hf]; subst;
    intros [[<- <-]|[Hne Hx]]%lookup_insert_Some;
    try (eapply linked_mono; [exact Hev|by apply Hl]);
    try (intros Hst'; congruence).
  intros _. exists e, blob. injection Hr as -> -> Hseq. injection Hk as Hk1 Hk2.
  split_and!; [done..|]. unfold response_matches. rewrite Hp, Hseq, Hk1, Hrun.
  by rewrite !bool_decide_true.
Qed.

Lemma append_model o k a : oracle_ok o → tx_rel model_kept (append_event_in_tx o k a).
Proof.
  intros Ho s e s' Ha. apply append_projected in Ha as Hp.
  apply append_Ok in Ha as (He & _ & _ & _ & _ & _ & _ & _ & Hev & _ & _); [|done].
  assert (∀ r, r ∈ s.(events) → r ∈ s'.(events)) as Hmono by (rewrite Hev; set_solver).
  destruct Hp as [Hm|Hst]; [by apply model_frame|]. split; [by eapply model_step_law|].
  intros [Hc Hl]. split; [by eapply model_step_ok|]. eapply model_step_linked; try done.
  rewrite Hev. set_solver.
Qed.

Lemma insert_event_model e : tx_rel model_kept (insert_event e).
Proof.
  apply insert_event_rel; [apply _|..]; intros; apply model_frame; try done. cbn. set_solver.
Qed.

Lemma prepare_event_model o k a : tx_rel model_kept (prepare_event o k a).
Proof. by apply prepare_event_rel, _. Qed.
Hint Resolve append_model insert_event_model prepare_event_model : tx_rel.
Hint Extern 2 (model_kept _ _) => (apply model_frame; [reflexivity|done]) : tx_rel.

Lemma command_model o c : oracle_ok o → tx_rel model_kept (command_tx limits o c).
Proof. intros Ho. destruct c; cbn [command_tx]; tx_rel_ops. Qed.

Lemma reachable_model s : reachable limits s → model_inv s.
Proof.
  apply reachable_invariant; [by split|].
  intros o c s1 v s2 _ Hi Ho _ Htx. by apply (command_model _ _ Ho _ _ _ Htx).
Qed.

(** *** Histories *)

Definition calls_rel : relation db := λ s s', calls_law s.(model_calls) s'.(model_calls).

#[global] Instance calls_rel_preorder : PreOrder calls_rel.
Proof. unfold calls_rel. split; red; intros; [done|by etrans]. Qed.

Lemma calls_rel_frame s s' : s'.(model_calls) = s.(model_calls) → calls_rel s s'.
Proof. unfold calls_rel. by intros ->. Qed.

Lemma append_calls_rel o k a : tx_rel calls_rel (append_event_in_tx o k a).
Proof.
  intros s e s' [Hm|Hst]%append_projected; [by apply calls_rel_frame|by eapply model_step_law].
Qed.

Lemma insert_event_calls_rel e : tx_rel calls_rel (insert_event e).
Proof. apply insert_event_rel; [apply _|..]; intros; by apply calls_rel_frame. Qed.

Lemma prepare_event_calls_rel o k a : tx_rel calls_rel (prepare_event o k a).
Proof. by apply prepare_event_rel, _. Qed.
Hint Resolve append_calls_rel insert_event_calls_rel prepare_event_calls_rel : tx_rel.
Hint Extern 2 (calls_rel _ _) => (apply calls_rel_frame; reflexivity) : tx_rel.

Lemma command_calls_rel o c : tx_rel calls_rel (command_tx limits o c).
Proof. destruct c; cbn [command_tx]; tx_rel_ops. Qed.

(** *** Reading *)

Lemma event_by_id_unique s r :
  NoDup (e_event_id <$> s.(events)) → r ∈ s.(events) → event_by_id r.(e_event_id) s = Some r.
Proof.
  unfold event_by_id. induction (events s) as [|x l IH]; [set_solver|].
  cbn [fmap list_fmap]. intros [Hx Hnd]%NoDup_cons Hr. rewrite filter_cons.
  apply elem_of_cons in Hr as [<-|Hr]; [by rewrite decide_True|].
  rewrite decide_False; [by apply IH|]. intros He. apply Hx. rewrite He. apply list_elem_of_fmap. eauto.
Qed.

Lemma active_unique s rid k1 v1 k2 v2 :
  calls_ok s.(model_calls) → s.(model_calls) !! k1 = Some v1 → s.(model_calls) !! k2 = Some v2 →
  v1.(mc_run_id) = rid → v2.(mc_run_id) = rid → mc_active v1 = true → mc_active v2 = true → k1 = k2.
Proof.
  intros Hc H1 H2 Hr1 Hr2 Ha1 Ha2. destruct (decide (k1 = k2)) as [|Hne]; [done|].
  destruct (Hc _ _ H2) as [Hf _]. destruct (Hf _ _ H1 Hne) as [Hx _].
  destruct Hx as [_ Hx]; [congruence|]. tauto.
Qed.

(** ** Properties *)

(** One model call at a time: in every reachable database a run has at most one call that is
    started or waits with a response, two calls never share a step of the run or a response,
    and the response and consumption columns are filled exactly as the status says. *)
Theorem one_active_model_call s id row :
  reachable limits s → s.(model_calls) !! id = Some row →
  fits s.(model_calls) id row ∧ call_shape row.
Proof. intros Hs%reachable_model Hrow. by apply (mi_calls _ Hs). Qed.

(** A response is consumed once: along any history a model call keeps its run and step, its
    response stays once it is there, and after the consumption nothing about it changes. *)
Theorem model_response_consumed_once s s' id row :
  later limits s s' → s.(model_calls) !! id = Some row →
  ∃ row', s'.(model_calls) !! id = Some row' ∧ call_key row' = call_key row
    ∧ (row.(mc_status) ≠ ModelCallStatus.STARTED → response_of row' = response_of row)
    ∧ (row.(mc_status) = ModelCallStatus.CONSUMED → row' = row).
Proof.
  intros Hl Hrow. apply (later_rel limits calls_rel) in Hl; [|apply command_calls_rel].
  destruct (Hl _ _ Hrow) as (row' & Hrow' & Hk & Hs & Hc). exists row'. split_and!; try done. intros Hst. by apply Hs.
Qed.

(** C37. A pending response survives: in every reachable database the reader of a run's
    unconsumed response succeeds, returns nothing exactly when no call of the run is
    waiting, and otherwise the ledger event that carries the response, decoded, with the
    call, step and blob the table holds. *)
Theorem pending_response_recoverable s rid row :
  reachable limits s → s.(runs) !! rid = Some row →
  (get_latest_unconsumed_model_response rid s = Ok (None, s) ∧ responded_calls rid s = [])
  ∨ ∃ id m e blob,
      responded_calls rid s = [(id, m)] ∧ row_of_event e ∈ s.(events)
      ∧ m.(mc_response_event_id) = Some e.(event_id)
      ∧ get_latest_unconsumed_model_response rid s
        = Ok (Some {| pm_event := e; pm_model_call_id := id; pm_step := m.(mc_step);
                      pm_response_blob_sha256 := blob |}, s).
Proof.
  intros Hs Hrow. destruct (reachable_model _ Hs) as [Hc Hl].
  destruct (reachable_ledger _ _ Hs) as [_ Hids _ _].
  unfold get_latest_unconsumed_model_response, require_run_row, mbind, tx_bind, gets, lift_option,
    lift_result, require, mret, tx_ret. rewrite Hrow.
  edestruct (select_unique (λ _ m, bool_decide (m.(mc_run_id) = rid
               ∧ m.(mc_status) = ModelCallStatus.RESPONDED)) (model_calls s)) as [Hn|(id & m & Hm & Hrm & Hb)].
  - intros k1 v1 k2 v2 H1 H2 [E1 S1]%bool_decide_eq_true [E2 S2]%bool_decide_eq_true.
    eapply active_unique; [done|exact H1|exact H2|done..| |]; unfold mc_active;
      [rewrite S1|rewrite S2]; done.
  - left. unfold responded_calls. by rewrite Hn.
  - right. apply bool_decide_eq_true in Hb as [Hr Hst].
    destruct (Hl _ _ Hrm Hst) as (e & blob & He & Hok & Hid & Hblob & Hmatch).
    exists id, m, e, blob. unfold responded_calls. rewrite Hm, Hid, Hblob.
    rewrite (event_by_id_unique s (row_of_event e)) by done.
    rewrite event_from_row_of_event by done. rewrite Hr in Hmatch. rewrite decide_True by done. done.
Qed.
End link.

(** ** Witnesses *)

#[local] Existing Instance plain_platform.

(** The scenario while the model's response waits. *)
Definition waiting_db : db := run_trace 0 (take 11 opening) empty_db.

Lemma waiting_reachable : reachable demo_limits waiting_db.
Proof. apply run_trace_reachable; [apply empty_reachable|vm_compute; reflexivity]. Qed.

(** Witness of [one_active_model_call]. *)
Lemma one_active_model_call_witness :
  ∃ row, waiting_db.(model_calls) !! "model-call:run:0" = Some row
  ∧ fits waiting_db.(model_calls) "model-call:run:0" row ∧ call_shape row.
Proof.
  destruct (model_calls waiting_db !! "model-call:run:0") as [row|] eqn:Hrow;
    [|vm_compute in Hrow; discriminate].
  exists row. split; [reflexivity|].
  apply (one_active_model_call demo_limits waiting_db "model-call:run:0" row);
    [exact waiting_reachable|exact Hrow].
Defined.

(** Witness of [model_response_consumed_once]: the call from its consumption to the end. *)
Lemma model_response_consumed_once_witness :
  ∃ row row', ready_db.(model_calls) !! "model-call:run:0" = Some row
  ∧ final_db.(model_calls) !! "model-call:run:0" = Some row' ∧ call_key row' = call_key row
    ∧ (row.(mc_status) ≠ ModelCallStatus.STARTED → response_of row' = response_of row)
    ∧ (row.(mc_status) = ModelCallStatus.CONSUMED → row' = row).
Proof.
  destruct (model_calls ready_db !! "model-call:run:0") as [row|] eqn:Hrow;
    [|vm_compute in Hrow; discriminate].
  destruct (model_response_consumed_once demo_limits ready_db final_db "model-call:run:0" row
              (run_trace_later 14 acting ready_db) Hrow) as (row' & Hr).
  exists row, row'. split; [reflexivity|exact Hr].
Defined.

(** Witness of [pending_response_recoverable]: a response waits. *)
Lemma pending_response_recoverable_witness :
  ∃ row, waiting_db.(runs) !! "run" = Some row
  ∧ ((get_latest_unconsumed_model_response "run" waiting_db = Ok (None, waiting_db)
      ∧ responded_calls "run" waiting_db = [])
     ∨ ∃ id m e blob,
      responded_calls "run" waiting_db = [(id, m)] ∧ row_of_event e ∈ waiting_db.(events)
      ∧ m.(mc_response_event_id) = Some e.(event_id)
      ∧ get_latest_unconsumed_model_response "run" waiting_db
        = Ok (Some {| pm_event := e; pm_model_call_id := id; pm_step := m.(mc_step);
                      pm_response_blob_sha256 := blob |}, waiting_db)).
Proof.
  destruct (runs waiting_db !! "run") as [row|] eqn:Hrow; [|vm_compute in Hrow; discriminate].
  exists row. split; [reflexivity|].
  apply (pending_response_recoverable demo_limits waiting_db "run" row);
    [exact waiting_reachable|exact Hrow].
Defined.
