(* ===== verification/Progress.v ===== *)
(** * Progress: commands that have to succeed do

    The appends a command makes cannot fail in a reachable database, so the outcome of a
    command is decided by its own guards: a cancellation request of an active run is always
    recorded, a reservation is granted exactly when it fits the budget, and a run whose
    lease is free can be taken over. The last part shows behaviours that callers have to
    avoid. *)

From S2P Require Import Prelude Domain Platform Json Events Projection ToolIdentity Tables.
From S2P Require Import Ledger ModelCalls Leases Checkpoints Runs Tools Budget Store Scenario.
From S2P Require Import LedgerSafety RunSafety Lifecycle.

(** ** Turns of runs *)

(** The turn of every run exists. *)
Definition turns_ok (s : db) : Prop := map_Forall (λ _ r, present s.(turns) r.(r_turn_id)) s.(runs).

Definition turns_kept : relation db := λ s s', turns_ok s → turns_ok s'.

#[global] Instance turns_kept_preorder : PreOrder turns_kept.
Proof. unfold turns_kept. split; red; auto. Qed.

Lemma turns_frame s s' : s'.(runs) = s.(runs) → s'.(turns) = s.(turns) → turns_kept s s'.
Proof. intros Hr Ht. unfold turns_kept, turns_ok. by rewrite Hr, Ht. Qed.

Lemma turns_insert_turn s id row : turns_kept s (s <| turns ::= <[id := row]> |>).
Proof.
  intros Ht k r Hr. cbn in *. apply lookup_insert_is_Some'. right. by apply (Ht _ _ Hr).
Qed.

Lemma turns_alter_turn s id f : turns_kept s (s <| turns ::= alter f id |>).
Proof. intros Ht k r Hr. cbn in *. rewrite lookup_alter_is_Some. by apply (Ht _ _ Hr). Qed.

Lemma turns_insert_run s id row :
  present s.(turns) row.(r_turn_id) → turns_kept s (s <| runs ::= <[id := row]> |>).
Proof. intros Hp Ht. by apply map_Forall_insert_2. Qed.

Lemma turns_alter_run s id f :
  (∀ r, r_turn_id (f r) = r_turn_id r) → turns_kept s (s <| runs ::= alter f id |>).
Proof.
  intros Hf Ht k r Hr. cbn in *. apply lookup_alter_Some in Hr as [(_ & r0 & Hr0 & ->)|[_ Hr]].
  - rewrite Hf. by apply (Ht _ _ Hr0).
  - by apply (Ht _ _ Hr).
Qed.

#[global] Hint Extern 2 (turns_kept _ _) =>
  (first [apply turns_frame; reflexivity | apply turns_alter_run; reflexivity
         | apply turns_insert_run; tauto | apply turns_insert_turn | apply turns_alter_turn]) : tx_rel.

Section progress.
Context `{PlatformLaws} (limits : BlobLimits).

Lemma append_turns o k a : tx_rel turns_kept (append_event_in_tx o k a).
Proof. apply append_rel; [apply _|..]; intros; by apply turns_frame. Qed.

Lemma insert_event_turns e : tx_rel turns_kept (insert_event e).
Proof. apply insert_event_rel; [apply _|..]; intros; by apply turns_frame. Qed.

Lemma prepare_event_turns o k a : tx_rel turns_kept (prepare_event o k a).
Proof. by apply prepare_event_rel, _. Qed.
Hint Resolve append_turns insert_event_turns prepare_event_turns : tx_rel.

Lemma command_turns o c : tx_rel turns_kept (command_tx limits o c).
Proof. destruct c; cbn [command_tx]; tx_rel_ops. Qed.

Lemma reachable_turns s : reachable limits s → turns_ok s.
Proof.
  apply reachable_invariant; [by intros|]. intros o c s1 v s2 _ Ht _ _ Htx. by eapply command_turns.
Qed.

(** ** Appends succeed *)

(** The payloads that do not touch the operational projection. *)
Definition quiet (p : RuntimeEventPayload) : bool :=
  match p with
  | ModelCallStartedPayload _ _ _ _ | ModelCallFailedPayload _ _ _
  | ModelResponseReceivedPayload _ _ _ _ | ToolCallProposedPayload _ _ _ _ _
  | ModelOutputRejectedPayload _ _ | RunCompletedPayload _ => false
  | _ => true
  end.

(** The session of a run has a name: its events were validated. *)
Lemma run_session_named s rid row :
  core_inv s → s.(runs) !! rid = Some row → row.(r_session_id) ≠ "".
Proof.
  intros [es Hc] Hrow Hs. destruct (co_runs _ _ _ Hc _ _ Hrow) as [Hred Hses].
  destruct (run_events rid es) as [|e l] eqn:He; [discriminate Hred|].
  assert (e ∈ es) as Hin.
  { assert (e ∈ run_events rid es) as Hin by (rewrite He; set_solver).
    by apply list_elem_of_filter in Hin as [_ Hin]. }
  apply Forall_cons in Hses as [Hse _]. pose proof (co_ok _ _ _ Hc) as Hok.
  rewrite Forall_forall in Hok. destruct (Hok _ Hin) as [Hv _].
  unfold envelope_valid in Hv. rewrite Hse, Hs in Hv. cbn in Hv.
  by rewrite !andb_false_r in Hv.
Qed.

Lemma next_seq_free s sid srow :
  ledger_inv s → s.(sessions) !! sid = Some srow →
  Forall (λ r, ¬ (r.(e_session_id) = sid ∧ r.(e_seq) = srow.(ses_next_seq))) s.(events).
Proof.
  intros Hl Hs. destruct (li_dense _ Hl _ _ Hs) as [Hge Hd]. apply Forall_forall.
  intros r Hr [Hsid Hseq]. assert (r.(e_seq) ∈ e_seq <$> session_rows sid s) as Hin.
  { apply list_elem_of_fmap. exists r. split; [done|]. by apply list_elem_of_filter. }
  rewrite Hd in Hin. apply elem_of_seqZ in Hin. lia.
Qed.

Lemma insert_event_total e s srow :
  event_constraints (row_of_event e) s → s.(sessions) !! e.(session_id) = Some srow →
  srow.(ses_next_seq) = e.(seq) → ∃ s', insert_event e s = Ok (tt, s').
Proof.
  intros Hc Hs Hn. unfold insert_event, insert_event_row, constrained, mbind, tx_bind, gets,
    lift_option, require, modify. rewrite decide_True by done. cbn. rewrite Hs.
  rewrite decide_True by done. by eexists.
Qed.

Lemma quiet_projection l e s :
  quiet e.(payload) = true → apply_operational_projection l e s = Ok (tt, s).
Proof. unfold apply_operational_projection. by destruct (payload e). Qed.

Lemma append_total o k rid row pid pl s :
  core_inv s → turns_ok s → s.(runs) !! rid = Some row → pid ≠ "" → payload_valid pl = true →
  quiet pl = true → ¬ event_exists s (o.(ev_uuid) k) →
  ∃ e s', append_event_in_tx o k (run_event_args rid row pid None pl) s = Ok (e, s')
          ∧ e.(payload) = pl ∧ s'.(runs) = s.(runs).
Proof.
  intros Hcore Ht Hrow Hpid Hpl Hq Hfresh. pose proof (run_session_named _ _ _ Hcore Hrow) as Hnamed.
  destruct Hcore as [es Hc]. destruct (core_last_seq _ _ _ _ _ Hc Hrow) as (srow & Hsrow & _).
  destruct (li_dense _ (co_ledger _ _ _ Hc) _ _ Hsrow) as [Hge _].
  pose proof (next_seq_free _ _ _ (co_ledger _ _ _ Hc) Hsrow) as Hfree.
  set (e := {| event_id := o.(ev_uuid) k; schema_version := 1; session_id := row.(r_session_id);
               turn_id := Some row.(r_turn_id); run_id := Some rid; seq := srow.(ses_next_seq);
               occurred_at := o.(ev_time) k; process_instance_id := pid; boot_id := None;
               causation_event_id := None; correlation_id := Some rid; payload := pl |}).
  assert (envelope_valid e = true) as Hv.
  { unfold envelope_valid. cbn. rewrite Hpl, !bool_decide_true by done.
    by rewrite !(proj2 (String.eqb_neq _ _)). }
  destruct (insert_event_total e s srow) as [s' Hi]; [|done|done|].
  { split_and!; cbn; [done|done|by eexists|by apply (Ht _ _ Hrow)|by eexists]. }
  exists e, s'. split_and!; [|done|by apply (insert_event_same runs) in Hi].
  unfold append_event_in_tx, prepare_event, mbind, tx_bind, gets, lift_option, lift_result.
  cbn [run_event_args ea_session_id ea_causation_event_id parse_uuid]. rewrite Hsrow.
  unfold new_event. cbn [ea_process_instance_id ea_payload ea_turn_id ea_run_id ea_correlation_id].
  change (envelope_valid _) with (envelope_valid e). rewrite Hv.
  change (insert_event _ s) with (insert_event e s). rewrite Hi.
  by rewrite quiet_projection.
Qed.

Lemma run_last_seq s rid row :
  core_inv s → s.(runs) !! rid = Some row → (1 ≤ row.(r_last_event_seq))%Z.
Proof.
  intros [es Hc] Hrow. destruct (co_runs _ _ _ Hc _ _ Hrow) as [Hred _].
  destruct (run_events rid es) as [|e l] eqn:He; [discriminate Hred|].
  eapply (reduce_seqs rid es (e :: l) []) in Hred; [|by rewrite app_nil_r].
  apply Forall_cons in Hred as [Hse _]. cbn in Hse. lia.
Qed.

Lemma runs_restored s f g :
  f (g s.(runs)) = s.(runs) → s <| runs ::= g |> <| runs ::= f |> = s.
Proof. intros Hfg. change (s <| runs := f (g s.(runs)) |> = s). rewrite Hfg. by destruct s. Qed.

(** A rebuild reads the ledger and appends one audit event: it cannot fail. *)
Lemma rebuild_total o s rid row st ph wd n pid :
  reachable limits s → s.(runs) !! rid = Some row → pid ≠ "" →
  ¬ event_exists s (o.(ev_uuid) 0%nat) →
  ∃ p s', rebuild_run_projection o rid pid
    (s <| runs ::= <[rid := row <| r_execution_status := st |> <| r_phase := ph |>
                                <| r_workspace_disposition := wd |>
                                <| r_last_event_seq := n |>]> |>) = Ok ((Ok p, None), s').
Proof.
  intros Hs Hrow Hpid Hfresh. pose proof (reachable_core _ _ Hs) as Hcore.
  pose proof (run_last_seq _ _ _ Hcore Hrow) as Hlast. destruct Hcore as [es Hc].
  destruct (run_replay _ _ _ _ _ Hc Hrow) as [Hl Hred].
  set (bad := row <| r_execution_status := st |> <| r_phase := ph |>
    <| r_workspace_disposition := wd |> <| r_last_event_seq := n |>).
  set (s1 := s <| runs ::= <[rid := bad]> |>).
  assert (require_run_row rid s1 = Ok (bad, s1)) as H1.
  { unfold require_run_row, mbind, tx_bind, gets, lift_option. cbn. by rewrite lookup_insert_eq. }
  assert (load_run_events_in_tx rid 0 s1 = Ok (run_events rid es, s1)) as H2.
  { unfold load_run_events_in_tx, mbind, tx_bind, gets, lift_result.
    change (run_rows rid 0 s1) with (run_rows rid 0 s). by rewrite Hl. }
  unfold rebuild_run_projection, update_run, returned, mbind, tx_bind, lift_result, modify, mret, tx_ret.
  rewrite H1, H2, Hred. cbn [row_projection expected].
  match goal with |- context [append_event_in_tx _ _ (run_event_args _ _ _ _ ?pl) ?t] =>
    assert (t = s) as ->;
      [|destruct (append_total o 0 rid row pid pl s) as (e & s2 & Happ & _ & _)] end;
    [|by exists es|by apply reachable_turns|done|done|by apply bool_decide_true|done|done|].
  - apply runs_restored. rewrite alter_insert_eq. apply insert_id. rewrite Hrow. f_equal.
    by destruct row.
  - change (run_event_args rid bad pid None) with (run_event_args rid row pid None).
    rewrite Happ. by do 2 eexists.
Qed.

(** ** Properties *)

(** A cancellation request cannot be lost: for an active run that nobody cancelled yet, a
    request with an actor and a reason is always recorded, whoever holds the lease, and from
    then on the run reports it. *)
Theorem cancellation_recorded o rid actor reason pid s row :
  reachable limits s → s.(runs) !! rid = Some row →
  row.(r_execution_status) = ExecutionStatus.ACTIVE → row.(r_cancel_requested_at) = None →
  blank actor = false → blank reason = false → pid ≠ "" →
  ¬ event_exists s (o.(ev_uuid) 0%nat) →
  ∃ e s', request_cancellation o rid actor reason pid None s = Ok ((Ok (Some e), None), s')
    ∧ e.(payload) = CancellationRequestedPayload actor reason
    ∧ is_cancellation_requested rid s' = Ok (true, s').
Proof.
  intros Hs Hrow Hst Hc Ha Hr Hpid Hfresh.
  destruct (append_total o 0 rid row pid (CancellationRequestedPayload actor reason) s)
    as (e & s1 & Happ & Hp & Hruns); [by eapply reachable_core|by apply reachable_turns|done..|].
  exists e. eexists. split_and!; [|done|].
  - unfold request_cancellation, require_run_row, begin_optional_command, record_optional_command,
      returned, mbind, tx_bind, gets, require, lift_option, mret, tx_ret.
    rewrite !decide_True by done. rewrite Hrow. cbn. rewrite Hc, decide_True by done. cbn.
    rewrite Happ. reflexivity.
  - unfold is_cancellation_requested, require_run_row, mbind, tx_bind, gets, lift_option, mret, tx_ret.
    cbn. by rewrite lookup_alter_eq, Hruns, Hrow.
Qed.

(** A damaged row can be repaired: whatever was written into the status, phase, disposition
    and cursor columns of a run, [rebuild_run_projection] succeeds and leaves the row the
    ledger implies, with the cursor at its audit event. *)
Theorem rebuild_repairs_row o s rid row st ph wd n pid :
  reachable limits s → oracle_ok o → s.(runs) !! rid = Some row → pid ≠ "" →
  ¬ event_exists s (o.(ev_uuid) 0%nat) →
  ∃ p s' row' m, rebuild_run_projection o rid pid
      (s <| runs ::= <[rid := row <| r_execution_status := st |> <| r_phase := ph |>
                                  <| r_workspace_disposition := wd |>
                                  <| r_last_event_seq := n |>]> |>) = Ok ((Ok p, None), s')
    ∧ s'.(runs) !! rid = Some row'
    ∧ row_projection rid row' = with_seq m (row_projection rid row)
    ∧ (row.(r_last_event_seq) < m)%Z.
Proof.
  intros Hs Ho Hrow Hpid Hfresh.
  destruct (rebuild_total o s rid row st ph wd n pid) as (p & s' & Hop); [done..|].
  destruct (rebuild_row_Ok limits o s rid row st ph wd n pid _ s' Hs Ho Hrow Hop) as (row' & m & Hr).
  by exists p, s', row', m.
Qed.

(** A reservation is granted exactly when it fits: for a worker that passes the fence, a new
    reservation of a positive amount in a category succeeds when the run has a limit for the
    category and what is consumed, what is reserved and the amount stay within it, and
    raises BudgetLimitError otherwise. *)
Theorem reservation_granted_iff_fits o rid bid cat amount pid ctx s row :
  reachable limits s → require_execution_context (o.(now) 0%nat) rid ctx s = Ok (row, s) →
  blank cat = false → blank bid = false → (0 < amount)%Z → pid ≠ "" →
  s.(budget_reservations) !! bid = None → ¬ event_exists s (o.(ev_uuid) 0%nat) →
  let used := (default 0 (row.(r_budget_consumed) !! cat) + outstanding rid cat s)%Z in
  (∀ limit, row.(r_budget_limits) !! cat = Some limit → (used + amount ≤ limit)%Z →
     ∃ r v s', reserve_budget o rid bid cat amount pid ctx s = Ok ((Ok r, v), s')
               ∧ r.(bb_state) = ReservationState.RESERVED ∧ r.(bb_reserved) = amount)
  ∧ ((∀ limit, row.(r_budget_limits) !! cat = Some limit → (limit < used + amount)%Z) →
     reserve_budget o rid bid cat amount pid ctx s = Err BudgetLimitError).
Proof.
  intros Hs Hfence Hcat Hbid Hamt Hpid Hnew Hfresh used.
  pose proof Hfence as [_ Hrow]%require_execution_context_Ok.
  unfold reserve_budget, committed, insert_reservation, constrained, update_run,
    mbind, tx_bind, gets, require, lift_option, modify, mret, tx_ret.
  rewrite !decide_True by done. rewrite Hfence, Hnew. split.
  - intros limit Hlim Hle. rewrite Hlim. fold used. rewrite decide_True by done.
    rewrite decide_True by (split; [done|by eexists]).
    match goal with |- context [append_event_in_tx _ _ (run_event_args _ _ _ _ ?pl) ?t] =>
      destruct (append_total o 0 rid row pid pl t) as (e & s1 & Happ & _ & _) end;
      [|by apply (reachable_turns s)|done|done|by apply bool_decide_true|done|done|].
    { destruct (reachable_core _ _ Hs) as [es Hc]. exists es. eapply core_frame; [..|exact Hc]; reflexivity. }
    rewrite Happ. cbn. apply (append_same budget_reservations) in Happ; [|done..].
    rewrite Happ. cbn. rewrite lookup_insert_eq. by do 3 eexists.
  - intros Hno. destruct (r_budget_limits row !! cat) as [limit|] eqn:Hlim; [|done].
    specialize (Hno _ eq_refl). fold used. by rewrite decide_False by lia.
Qed.

(** A free run can be taken over: when no other worker holds an unexpired lease, an
    acquisition succeeds, and the context built from the lease and the run's stream version
    passes the fence until the lease expires. *)
Theorem free_run_can_be_leased o rid owner ttl s row :
  s.(runs) !! rid = Some row → blank owner = false → ttl_valid ttl →
  ¬ leased_by_other row owner (o.(now) 0%nat) →
  ∃ lease s', acquire_run_lease o rid owner ttl None s = Ok ((Ok lease, None), s')
    ∧ lease.(rl_expires_at) = (o.(now) 0%nat + ttl)%Z
    ∧ ∀ t, (t < lease.(rl_expires_at))%Z →
        is_ok (require_execution_context t rid
          (Some {| ec_run_id := rid; ec_worker_id := owner; ec_lease_epoch := lease.(rl_epoch);
                   ec_lease_expires_at := lease.(rl_expires_at);
                   ec_stream_version := row.(r_last_event_seq) |}) s').
Proof.
  intros Hrow Ho Httl Hfree. do 2 eexists. split_and!.
  - unfold acquire_run_lease, require_run_row, update_run, returned, mbind, tx_bind, gets,
      lift_option, require, modify, mret, tx_ret. cbn [default].
    rewrite decide_True by done. rewrite Hrow, decide_True by done. reflexivity.
  - reflexivity.
  - intros t Ht. unfold is_ok, require_execution_context, require_run_row, mbind, tx_bind, gets,
      lift_option, require, mret, tx_ret. cbn. rewrite lookup_alter_eq, Hrow. cbn.
    rewrite decide_True by done. rewrite decide_True by done. rewrite decide_True by done.
    by eexists.
Qed.
End progress.

(** ** Witnesses *)

#[local] Existing Instance plain_platform.

Lemma ready_fresh : ¬ event_exists ready_db ((tick 14).(ev_uuid) 0%nat).
Proof. apply (bool_decide_eq_false_1 _). vm_compute. reflexivity. Qed.

(** Witness of [cancellation_recorded]: the leased run of the scenario. *)
Lemma cancellation_recorded_witness :
  ∃ e s', request_cancellation (tick 14) "run" "user" "enough" "process" None ready_db
          = Ok ((Ok (Some e), None), s')
    ∧ e.(payload) = CancellationRequestedPayload "user" "enough"
    ∧ is_cancellation_requested "run" s' = Ok (true, s').
Proof.
  apply (cancellation_recorded demo_limits (tick 14) "run" "user" "enough" "process" ready_db ready_row);
    [exact ready_reachable|exact ready_row_eq|reflexivity|reflexivity|reflexivity|reflexivity
    |discriminate|exact ready_fresh].
Defined.

(** Witness of [rebuild_repairs_row]: the scenario's ready run, its row reset. *)
Lemma rebuild_repairs_row_witness :
  ∃ p s' row' m, rebuild_run_projection (tick 14) "run" "process"
      (ready_db <| runs ::= <["run" := ready_row <| r_execution_status := ExecutionStatus.FAILED |>
         <| r_phase := None |> <| r_workspace_disposition := WorkspaceDisposition.NONE |>
         <| r_last_event_seq := 1%Z |>]> |>) = Ok ((Ok p, None), s')
    ∧ s'.(runs) !! "run" = Some row'
    ∧ row_projection "run" row' = with_seq m (row_projection "run" ready_row)
    ∧ (ready_row.(r_last_event_seq) < m)%Z.
Proof.
  apply (rebuild_repairs_row demo_limits (tick 14) ready_db "run" ready_row ExecutionStatus.FAILED None
           WorkspaceDisposition.NONE 1 "process");
    [exact ready_reachable|apply tick_ok|exact ready_row_eq|discriminate|exact ready_fresh].
Defined.

(** Witness of [reservation_granted_iff_fits]: three more calls of five fit, four do not. *)
Lemma reservation_granted_iff_fits_witness :
  (∃ r v s', reserve_budget (tick 14) "run" "more" "calls" 3 "process" (Some (worker 16)) ready_db
             = Ok ((Ok r, v), s')
             ∧ r.(bb_state) = ReservationState.RESERVED ∧ r.(bb_reserved) = 3%Z)
  ∧ reserve_budget (tick 14) "run" "more" "calls" 4 "process" (Some (worker 16)) ready_db
    = Err BudgetLimitError.
Proof.
  assert (require_execution_context ((tick 14).(now) 0%nat) "run" (Some (worker 16)) ready_db
          = Ok (ready_row, ready_db)) as Hf by (vm_compute; reflexivity).
  assert (ready_db.(budget_reservations) !! "more" = None) as Hn by (vm_compute; reflexivity).
  assert (outstanding "run" "calls" ready_db = 0%Z) as Hout by (vm_compute; reflexivity).
  split.
  - eapply (reservation_granted_iff_fits demo_limits (tick 14) "run" "more" "calls" 3 "process"
              (Some (worker 16)) ready_db ready_row);
      [exact ready_reachable|exact Hf|reflexivity|reflexivity|lia|discriminate|exact Hn
      |exact ready_fresh|reflexivity|].
    rewrite Hout. vm_compute. discriminate.
  - apply (reservation_granted_iff_fits demo_limits (tick 14) "run" "more" "calls" 4 "process"
              (Some (worker 16)) ready_db ready_row);
      [exact ready_reachable|exact Hf|reflexivity|reflexivity|lia|discriminate|exact Hn
      |exact ready_fresh|].
    rewrite Hout. intros limit Hl. injection Hl as <-. vm_compute. reflexivity.
Defined.

(** A clock after the scenario's lease has expired. *)
Definition late : oracle :=
  {| ev_uuid := (tick 14).(ev_uuid); ev_time := (tick 14).(ev_time); new_id := (tick 14).(new_id);
     now _ := (200 * SECOND)%Z |}.

(** Witness of [free_run_can_be_leased]: another worker takes the run over. *)
Lemma free_run_can_be_leased_witness :
  ∃ lease s', acquire_run_lease late "run" "other" (100 * SECOND) None ready_db
              = Ok ((Ok lease, None), s')
    ∧ lease.(rl_expires_at) = (late.(now) 0%nat + 100 * SECOND)%Z
    ∧ ∀ t, (t < lease.(rl_expires_at))%Z →
        is_ok (require_execution_context t "run"
          (Some {| ec_run_id := "run"; ec_worker_id := "other"; ec_lease_epoch := lease.(rl_epoch);
                   ec_lease_expires_at := lease.(rl_expires_at);
                   ec_stream_version := ready_row.(r_last_event_seq) |}) s').
Proof.
  apply (free_run_can_be_leased late "run" "other" (100 * SECOND) ready_db ready_row);
    [exact ready_row_eq|reflexivity|unfold ttl_valid, SECOND; lia|].
  vm_compute. intros (_ & _ & Hlt). discriminate Hlt.
Defined.

(** ** Behaviours that callers have to avoid

    Concrete histories, evaluated, that show where a command does less than its neighbours:
    a dispatch looks at the cancellation request but not at the status of the run, and the
    generic append accepts events that the runs table has to follow. *)

(** The scenario's run fails while its approved call is ready; then the call is dispatched. *)
Definition failed_then_dispatched : db := run_trace 14
  [TerminateRun "run" ExecutionStatus.FAILED "model gave up" "process" (Some (worker 16));
   DispatchToolCall "id-110" (JObj []) [] "process" (Some "attempt") (Some (worker 17))] ready_db.

(** [dispatch_tool_call] commits for a run that has failed: it checks the state of the call
    and the cancellation request, not the execution status ([propose_tool_call] does). *)
Example ended_run_still_dispatches :
  r_execution_status <$> failed_then_dispatched.(runs) !! "run" = Some ExecutionStatus.FAILED
  ∧ tc_state <$> failed_then_dispatched.(tool_calls) !! "id-110" = Some ToolCallState.DISPATCHED.
Proof. vm_compute. split; reflexivity. Qed.

(** The generic append with a payload that ends the run. *)
Definition terminated_by_append : db := run_trace 14
  [AppendEvent (model_event (RunTerminatedPayload ExecutionStatus.FAILED "by hand") None)
     (Some (worker 16))] ready_db.

(** [append_event] refuses only tool proposals and completions: a termination event goes
    into the ledger while the row of the run stays active, so the row and the reduction of
    the events disagree. *)
Example append_event_leaves_row_behind :
  r_execution_status <$> terminated_by_append.(runs) !! "run" = Some ExecutionStatus.ACTIVE
  ∧ (λ es, match reduce_run_events es.1 None with
           | Ok p => Some p.(p_execution_status) | Err _ => None end)
      <$> load_run_events "run" terminated_by_append = Ok (Some ExecutionStatus.FAILED).
Proof. vm_compute. split; reflexivity. Qed.
