(* ===== verification/FileSystem.v ===== *)
(** * FileSystem: the POSIX file system the workspace tools call, and the path guard

    A file system maps the absolute path of an entry, a list of names, to the entry.
    Lookups follow symbolic links the way the kernel and [Path.resolve] do; the functions
    are the calls the sources make of [pathlib] and [os], each one atomic. The second part is
    workspace/path_guard.py: the lexical checks of a relative path and its resolution. *)

From S2P Require Import Prelude Text Domain Platform Json ToolIdentity.

Record inode := {
  i_device : Z;
  i_number : Z;
  i_mode : Z;    (** the permission bits, [stat.S_IMODE] *)
  i_links : Z;   (** [st_nlink] *)
}.

#[global] Instance inode_eq_dec : EqDecision inode.
Proof. solve_decision. Defined.

Inductive node :=
| Dir (m : inode)
| File (m : inode) (content : string)
| Symlink (absolute : bool) (target : list string)
| Special (m : inode).   (** a socket, a pipe or a device *)

#[global] Instance node_eq_dec : EqDecision node.
Proof. solve_decision. Defined.

Abbreviation path := (list string).
Abbreviation fs := (gmap (list string) node).

Definition parent (p : path) : path := removelast p.
Definition name (p : path) : string := List.last p "".

(** The number of links one lookup follows at most (ELOOP). *)
Definition MAXSYMLINKS : nat := 40.

(** The path a lookup of [rest] from the directory [here] leads to, [None] when it follows
    too many links. Entries that do not exist are kept: [resolve(strict=False)]. *)
Fixpoint walk_links (links : nat) : fs → path → list string → option path :=
  fix walk (f : fs) (here : path) (rest : list string) : option path :=
    match rest with
    | [] => Some here
    | c :: rest' =>
        if decide (c = "" ∨ c = ".") then walk f here rest'
        else if decide (c = "..") then walk f (parent here) rest'
        else match f !! (here ++ [c]) with
             | Some (Symlink absolute target) =>
                 match links with
                 | O => None
                 | S links' =>
                     walk_links links' f (if absolute then [] else here) (target ++ rest')
                 end
             | _ => walk f (here ++ [c]) rest'
             end
    end.

(** [Path.resolve()]; a loop of links is a RuntimeError. *)
Definition resolve (f : fs) (p : path) : res path :=
  result_of_option RuntimeError (walk_links MAXSYMLINKS f [] p).

(** The entry a path names once the links in its directory are followed. *)
Definition entry (f : fs) (p : path) : option path :=
  match p with
  | [] => Some []
  | _ => d ← walk_links MAXSYMLINKS f [] (parent p); Some (d ++ [name p])
  end.

(** [os.stat] and [os.lstat]. *)
Definition stat (f : fs) (p : path) : option node := q ← walk_links MAXSYMLINKS f [] p; f !! q.
Definition lstat (f : fs) (p : path) : option node := q ← entry f p; f !! q.

Definition exists_at (f : fs) (p : path) : bool := bool_decide (is_Some (stat f p)).

Definition is_symlink (f : fs) (p : path) : bool :=
  match lstat f p with Some (Symlink _ _) => true | _ => false end.

Definition is_file (f : fs) (p : path) : bool :=
  match stat f p with Some (File _ _) => true | _ => false end.

Definition is_dir (f : fs) (p : path) : bool :=
  match stat f p with Some (Dir _) => true | _ => false end.

(** [Path.read_bytes]. *)
Definition read_bytes (f : fs) (p : path) : res string :=
  match stat f p with
  | Some (File _ content) => Ok content
  | Some _ => Err OSError
  | None => Err FileNotFoundError
  end.

(** The names directly in a directory. *)
Definition entries (f : fs) (d : path) : list path :=
  filter (λ p, p ≠ [] ∧ parent p = d) (map_to_list f).*1.

(** The entries below a directory, as [Path.rglob] visits them: links are not followed. *)
Definition below (f : fs) (d : path) : list path :=
  filter (λ p, d `prefix_of` p ∧ p ≠ d) (map_to_list f).*1.

(** [open(path, "xb")] in an existing directory. *)
Definition create_exclusive (m : inode) (f : fs) (p : path) : res fs :=
  q ← result_of_option OSError (entry f p);
  match f !! q, f !! parent q with
  | Some _, _ => Err FileExistsError
  | None, Some (Dir _) => Ok (<[q := File m ""]> f)
  | None, Some _ => Err OSError
  | None, None => Err FileNotFoundError
  end.

(** Change the regular file a path leads to. *)
Definition update_file (g : inode → string → node) (f : fs) (p : path) : res fs :=
  q ← result_of_option OSError (walk_links MAXSYMLINKS f [] p);
  match f !! q with
  | Some (File m content) => Ok (<[q := g m content]> f)
  | Some _ => Err OSError
  | None => Err FileNotFoundError
  end.

(** [handle.write(content)] to the empty file just created. *)
Definition write_file (content : string) : fs → path → res fs :=
  update_file (λ m _, File m content).

(** [os.chmod]. *)
Definition chmod (mode : Z) : fs → path → res fs :=
  update_file (λ m c, File {| i_device := m.(i_device); i_number := m.(i_number);
                              i_mode := mode; i_links := m.(i_links) |} c).

(** [os.replace] of a file: the target, unless it is a directory, is that file afterwards. *)
Definition replace_file (f : fs) (src dst : path) : res fs :=
  a ← result_of_option OSError (entry f src);
  b ← result_of_option OSError (entry f dst);
  match f !! a, f !! b with
  | None, _ => Err FileNotFoundError
  | Some _, Some (Dir _) => Err OSError
  | Some x, _ =>
      match f !! parent b with
      | Some (Dir _) => Ok (<[b := x]> (delete a f))
      | _ => Err FileNotFoundError
      end
  end.

(** [Path.unlink]. *)
Definition unlink (f : fs) (p : path) : res fs :=
  q ← result_of_option OSError (entry f p);
  match f !! q with
  | None => Err FileNotFoundError
  | Some (Dir _) => Err OSError
  | Some _ => Ok (delete q f)
  end.

(** ** The workspace path guard (src/forge_replay/workspace/path_guard.py)
    fail-closed path validation (src/forge_replay/workspace/path_guard.py) *)

Definition WINDOWS_RESERVED : list string :=
  ["CON"; "PRN"; "AUX"; "NUL";
   "COM1"; "COM2"; "COM3"; "COM4"; "COM5"; "COM6"; "COM7"; "COM8"; "COM9";
   "LPT1"; "LPT2"; "LPT3"; "LPT4"; "LPT5"; "LPT6"; "LPT7"; "LPT8"; "LPT9"].

Record GuardedPath := {
  relative : string;
  absolute : path;
  gp_exists : bool;
}.

Record WorkspacePathGuard := {
  workspace_root : path;
  harness_state_root : option path;
  max_depth : Z;
}.

(** The constructor: the workspace root exists and is resolved. *)
Definition WorkspacePathGuard_init (f : fs) (root : path) (harness : option path) (depth : Z)
    : res WorkspacePathGuard :=
  workspace ← resolve f root;
  assert_result (is_Some (f !! workspace)) FileNotFoundError;;
  state ← match harness with
          | None => Ok None
          | Some h => Some <$> resolve f h
          end;
  Ok {| workspace_root := workspace; harness_state_root := state; max_depth := depth |}.

(** The checks of one component. *)
Definition check_part (part : string) : res unit :=
  assert_result (ends_with "." part = false ∧ ends_with " " part = false) PathGuardError;;
  assert_result (has_char ":"%char part = false) PathGuardError;;
  assert_result (upper (before_char "."%char part) ∉ WINDOWS_RESERVED) PathGuardError.

(** The loop of [_lexical_parts]. *)
Fixpoint lexical_loop (l : list string) : res (list string) :=
  match l with
  | [] => Ok []
  | part :: l' =>
      if decide (part = "" ∨ part = ".") then lexical_loop l'
      else if decide (part = "..") then Err PathGuardError
      else check_part part;; parts ← lexical_loop l'; Ok (part :: parts)
  end.

(** [_lexical_parts]. Only ASCII letters fold to the letters of ".git" and of the reserved
    names, so ASCII case folding decides both comparisons. *)
Definition lexical_parts (depth : Z) (raw : string) : res (list string) :=
  assert_result (raw ≠ "" ∧ has_char (ascii_of_nat 0) raw = false) PathGuardError;;
  assert_result (str_prefix "/" raw = false ∧ str_prefix (String backslash "") raw = false
                 ∧ windows_drive raw = false) PathGuardError;;
  parts ← lexical_loop (split_slash (slashes raw));
  assert_result (parts ≠ [] ∧ (Z.of_nat (length parts) ≤ depth)%Z) PathGuardError;;
  assert_result (lower (default "" (head parts)) ≠ ".git") PathGuardError;;
  Ok parts.

(** The loop of [_resolve] over the components still to come. *)
Fixpoint check_components (f : fs) (for_write : bool) (current : path) (parts : list string)
    : res unit :=
  match parts with
  | [] => Ok tt
  | part :: rest =>
      let current := current ++ [part] in
      (if negb (exists_at f current) && negb (is_symlink f current) then
         assert_result (¬ (rest ≠ [] ∧ for_write = true)) PathGuardError
       else
         match lstat f current with
         | None => Err FileNotFoundError
         | Some (Symlink _ _) => Err PathGuardError
         | Some (File m _) =>
             assert_result (¬ (for_write = true ∧ (1 < m.(i_links))%Z)) PathGuardError
         | Some _ => Ok tt
         end);;
      check_components f for_write current rest
  end.

(** [_is_within] of absolute paths. *)
Definition is_within (candidate root : path) : bool := bool_decide (root `prefix_of` candidate).

(** [_resolve], on one state of the file system. *)
Definition guard_resolve (g : WorkspacePathGuard) (for_write : bool) (f : fs) (untrusted : string)
    : res GuardedPath :=
  parts ← lexical_parts g.(max_depth) untrusted;
  let candidate := g.(workspace_root) ++ parts in
  check_components f for_write g.(workspace_root) parts;;
  resolved ← resolve f candidate;
  assert_result (is_within resolved g.(workspace_root) = true) PathGuardError;;
  assert_result (from_option (is_within resolved) false g.(harness_state_root) = false)
    PathGuardError;;
  Ok {| relative := join "/" parts; absolute := resolved; gp_exists := exists_at f candidate |}.

Definition resolve_for_read (g : WorkspacePathGuard) : fs → string → res GuardedPath :=
  guard_resolve g false.

Definition resolve_for_write (g : WorkspacePathGuard) : fs → string → res GuardedPath :=
  guard_resolve g true.
