(* ===== verification/GuardSafety.v ===== *)
(** * GuardSafety: what a guarded path is

    The guard accepts a path only when it denotes, component by component, an entry of the
    workspace: nothing on the way is a link, so the kernel and the guard agree on it. *)

From S2P Require Import Prelude Text Domain Platform Json ToolIdentity FileSystem.

(** ** Paths without links *)

Definition not_link (n : option node) : Prop :=
  match n with Some (Symlink _ _) => False | _ => True end.

(** A path whose components are names and, in [f], no links. *)
Definition real (f : fs) (p : path) : Prop :=
  Forall plain_part p ∧ ∀ q, q ≠ [] → q `prefix_of` p → not_link (f !! q).

Lemma real_nil f : real f [].
Proof. split; [done|]. by intros q Hq ?%prefix_nil_inv. Qed.

Lemma real_prefix f p q : real f p → q `prefix_of` p → real f q.
Proof.
  intros [Hn Hl] Hq. split; [|intros q' ? ?; apply Hl; [done|by etrans]].
  destruct Hq as [k ->]. by apply Forall_app in Hn as [].
Qed.

Lemma prefix_snoc_inv {A} (q p : list A) c : q `prefix_of` p ++ [c] → q `prefix_of` p ∨ q = p ++ [c].
Proof.
  intros [k Hk]. destruct k as [|x k _] using rev_ind; [right; by rewrite app_nil_r in Hk|].
  left. rewrite app_assoc in Hk. apply app_inj_tail in Hk as [-> _]. by exists k.
Qed.

Lemma real_snoc f p c : real f p → plain_part c → not_link (f !! (p ++ [c])) → real f (p ++ [c]).
Proof.
  intros [Hn Hl] Hc Hf. split; [by apply Forall_app; split; [|apply Forall_singleton]|].
  intros q Hq [Hp| ->]%prefix_snoc_inv; [by apply Hl|done].
Qed.

Lemma snoc_app {A} (p q : list A) c : (p ++ [c]) ++ q = p ++ c :: q.
Proof. by rewrite <- app_assoc. Qed.

Lemma parent_snoc p c : parent (p ++ [c]) = p.
Proof. unfold parent. apply removelast_last. Qed.

Lemma name_snoc p c : name (p ++ [c]) = c.
Proof. unfold name. apply last_last. Qed.

Lemma parent_prefix p : parent p `prefix_of` p.
Proof.
  destruct p as [|c p _] using rev_ind; [done|]. rewrite parent_snoc. by eexists.
Qed.

Lemma walk_cons links f here c rest :
  walk_links links f here (c :: rest) =
  if decide (c = "" ∨ c = ".") then walk_links links f here rest
  else if decide (c = "..") then walk_links links f (parent here) rest
  else match f !! (here ++ [c]) with
       | Some (Symlink absolute target) =>
           match links with
           | O => None
           | S links' => walk_links links' f (if absolute then [] else here) (target ++ rest)
           end
       | _ => walk_links links f (here ++ [c]) rest
       end.
Proof. by destruct links. Qed.

Lemma walk_nil links f here : walk_links links f here [] = Some here.
Proof. by destruct links. Qed.

(** A lookup meets no link on a real path. *)
Lemma walk_real links f rest : ∀ here, real f (here ++ rest) →
  walk_links links f here rest = Some (here ++ rest).
Proof.
  induction rest as [|c rest IH]; intros here Hr; [by rewrite walk_nil, app_nil_r|].
  rewrite walk_cons. destruct Hr as [Hn Hl].
  assert (plain_part c) as (Hc1 & Hc2 & Hc3) by (apply Forall_app in Hn as [_ Hn]; by inversion Hn).
  rewrite decide_False by (by intros [?|?]). rewrite decide_False by done.
  assert (not_link (f !! (here ++ [c]))) as Hnl.
  { apply Hl; [by destruct here|]. exists rest. by rewrite snoc_app. }
  rewrite <- (snoc_app here rest c).
  assert (walk_links links f (here ++ [c]) rest = Some ((here ++ [c]) ++ rest)) as Hw.
  { apply IH. rewrite snoc_app. by split. }
  revert Hnl. destruct (f !! (here ++ [c])) as [[]|]; cbn; by intros.
Qed.

(** What a lookup leads to is real. *)
Lemma walk_leads_to_real f links : ∀ rest here p,
  real f here → walk_links links f here rest = Some p → real f p.
Proof.
  induction links as [|links IHl]; intros rest; induction rest as [|c rest IH]; intros here p Hr;
    rewrite ?walk_nil, ?walk_cons; try (by intros [= <-]);
    (case_decide; [by apply IH|]); (case_decide;
      [apply IH; eapply real_prefix; [done|apply parent_prefix]|]);
    assert (plain_part c) as Hc by (unfold plain_part; tauto);
    destruct (f !! (here ++ [c])) as [[| |abs target|]|] eqn:Hf;
    try done; try (apply IH, real_snoc; [done|done|by rewrite Hf]).
  apply IHl. destruct abs; [apply real_nil|done].
Qed.

Lemma resolve_real f p q : resolve f p = Ok q → real f q.
Proof. intros Hw%result_of_option_Ok. eapply walk_leads_to_real; [apply real_nil|done]. Qed.

Lemma resolve_id f p : real f p → resolve f p = Ok p.
Proof. intros Hr. unfold resolve. by rewrite (walk_real _ _ p []). Qed.

Lemma stat_real f p : real f p → stat f p = f !! p.
Proof. intros Hr. unfold stat. by rewrite (walk_real _ _ p []). Qed.

Lemma entry_real f p c : real f p → entry f (p ++ [c]) = Some (p ++ [c]).
Proof.
  intros Hr. unfold entry. rewrite parent_snoc, name_snoc, (walk_real _ _ p []) by done.
  by destruct p.
Qed.

Lemma lstat_real f p c : real f p → lstat f (p ++ [c]) = f !! (p ++ [c]).
Proof. intros Hr. unfold lstat. by rewrite entry_real. Qed.

(** ** The components of a path *)

(** The way from [here]: no links, for a write nothing missing before the last component and
    no file with another name. *)
Fixpoint clear_way (f : fs) (for_write : bool) (here : path) (parts : list string) : Prop :=
  match parts with
  | [] => True
  | part :: rest =>
      match f !! (here ++ [part]) with
      | None => ¬ (rest ≠ [] ∧ for_write = true)
      | Some (Symlink _ _) => False
      | Some (File m _) => ¬ (for_write = true ∧ (1 < m.(i_links))%Z)
      | Some _ => True
      end ∧ clear_way f for_write (here ++ [part]) rest
  end.

Lemma clear_way_real f w parts : ∀ here,
  real f here → Forall plain_part parts → clear_way f w here parts → real f (here ++ parts).
Proof.
  induction parts as [|c parts IH]; intros here Hr Hn; [by rewrite app_nil_r|].
  apply Forall_cons in Hn as [Hc Hn]. intros [Hf Hw].
  rewrite <- (snoc_app here parts c).
  apply IH; [|done|done]. apply real_snoc; [done|done|].
  revert Hf. destruct (f !! (here ++ [c])) as [[]|]; cbn; tauto.
Qed.

Lemma clear_way_iff f w parts : ∀ here, real f here → Forall plain_part parts →
  (check_components f w here parts = Ok tt ↔ clear_way f w here parts).
Proof.
  induction parts as [|c parts IH]; intros here Hr Hn; [done|].
  apply Forall_cons in Hn as [Hc Hn]. cbn [check_components clear_way].
  assert (∀ P `{Decision P} (e : exn), real f (here ++ [c]) →
    (mbind (λ _ : unit, check_components f w (here ++ [c]) parts) (assert_result P e) = Ok tt
     ↔ P ∧ clear_way f w (here ++ [c]) parts)) as Hstep.
  { intros P ? e Hr'. rewrite result_bind_Ok. split.
    - intros (u & Hp%assert_result_Ok & Hk). split; [done|]. by apply IH.
    - intros [Hp Hk]. exists tt. split; [by apply assert_result_Ok|]. by apply IH. }
  unfold is_symlink. rewrite lstat_real by done. destruct (f !! (here ++ [c])) as [n|] eqn:Hf.
  - destruct n as [m|m content|abs target|m].
    + assert (real f (here ++ [c])) as Hr' by (apply real_snoc; [done|done|by rewrite Hf]).
      unfold exists_at. rewrite stat_real, Hf by done. cbn. rewrite IH by done. naive_solver.
    + assert (real f (here ++ [c])) as Hr' by (apply real_snoc; [done|done|by rewrite Hf]).
      unfold exists_at. rewrite stat_real, Hf by done. cbn. by apply Hstep.
    + rewrite andb_false_r. by split; [|intros []].
    + assert (real f (here ++ [c])) as Hr' by (apply real_snoc; [done|done|by rewrite Hf]).
      unfold exists_at. rewrite stat_real, Hf by done. cbn. rewrite IH by done. naive_solver.
  - assert (real f (here ++ [c])) as Hr' by (apply real_snoc; [done|done|by rewrite Hf]).
    unfold exists_at. rewrite stat_real, Hf by done. cbn. by apply Hstep.
Qed.

(** ** Lexical parts *)

(** A component the guard accepts. *)
Definition safe_part (c : string) : Prop := path_part c ∧ check_part c = Ok tt.

Lemma check_part_colon c u : check_part c = Ok u → free ":"%char c.
Proof. unfold check_part. by intros (? & _ & (? & ?%assert_result_Ok & _)%result_bind_Ok)%result_bind_Ok. Qed.

Lemma lexical_loop_Ok l ps :
  lexical_loop l = Ok ps →
  Forall (λ p, plain_part p ∧ check_part p = Ok tt) ps ∧ ∀ P, Forall P l → Forall P ps.
Proof.
  revert ps. induction l as [|p l IH]; intros ps; cbn [lexical_loop].
  - intros [= <-]. split; [constructor|done].
  - case_decide as H1; [intros [? Hall]%IH; split; [done|]; intros P [_ HP]%Forall_cons; by apply Hall|].
    case_decide as H2; [done|].
    intros ([] & Hc & (ps' & Hps & [= <-])%result_bind_Ok)%result_bind_Ok. apply IH in Hps as [? Hall].
    split; [constructor; [unfold plain_part; naive_solver|done]|].
    intros P [? HP]%Forall_cons. constructor; [done|by apply Hall].
Qed.

Lemma lexical_loop_id ps :
  Forall (λ p, plain_part p ∧ check_part p = Ok tt) ps → lexical_loop ps = Ok ps.
Proof.
  induction 1 as [|p ps [(H1 & H2 & H3) Hc] _ IH]; [done|]. cbn [lexical_loop].
  rewrite decide_False by naive_solver. rewrite decide_False by done. by rewrite Hc, IH.
Qed.

Lemma lexical_parts_Ok depth raw parts :
  lexical_parts depth raw = Ok parts →
  parts ≠ [] ∧ Forall safe_part parts ∧ (Z.of_nat (length parts) ≤ depth)%Z
  ∧ lower (default "" (head parts)) ≠ ".git".
Proof.
  unfold lexical_parts. intros (? & [_ Hnul]%assert_result_Ok & H)%result_bind_Ok.
  apply result_bind_Ok in H as (? & _ & (ps & [Hplain Hall]%lexical_loop_Ok & H)%result_bind_Ok).
  apply result_bind_Ok in H as (? & [Hne Hlen]%assert_result_Ok & H).
  apply result_bind_Ok in H as (? & Hgit%assert_result_Ok & [= <-]).
  split_and!; [done| |done|done].
  eapply Forall_impl; [apply Forall_and; exact (conj Hplain (Hall _ (split_slash_parts _)))|].
  intros p ([Hp Hc] & Hs & Hf). split; [|done]. split_and!; [done|done| |].
  - apply Hf, slashes_free.
  - apply Hf. clear -Hnul. unfold free. induction raw as [|a s IH]; [done|]. revert Hnul. cbn.
    repeat case_decide; try done.
Qed.

Lemma no_drive_join ps : Forall safe_part ps → windows_drive (join "/" ps) = false.
Proof.
  intros Hf. destruct ps as [|p ps]; [done|].
  apply Forall_cons in Hf as [[((Hne & _) & _) Hc%check_part_colon] _].
  destruct p as [|a [|b p]]; [done|by destruct ps; cbn; rewrite ?andb_false_r|].
  apply free_cons in Hc as [_ [Hb _]%free_cons].
  destruct ps; cbn; rewrite bool_decide_eq_false_2 by done; by rewrite andb_false_r.
Qed.

Lemma no_backslash_join ps :
  Forall safe_part ps → str_prefix (String backslash "") (join "/" ps) = false.
Proof.
  intros Hf. destruct ps as [|[|a p] ps]; [done|..].
  - apply Forall_cons in Hf as [((H&_) & _) _]. by destruct H.
  - apply Forall_cons in Hf as [((_ & _ & Ha & _) & _) _]. apply free_cons in Ha as [Ha _].
    destruct ps; cbn; by rewrite decide_False by congruence.
Qed.

(** The relative path the guard returns is accepted again, as the same path. *)
Lemma lexical_parts_join depth raw parts :
  lexical_parts depth raw = Ok parts → lexical_parts depth (join "/" parts) = Ok parts.
Proof.
  intros (Hne & Hs & Hlen & Hgit)%lexical_parts_Ok.
  assert (Forall path_part parts ∧ Forall (λ p, check_part p = Ok tt) parts) as [Hp Hc]
    by (by apply Forall_and).
  assert (Forall plain_part parts ∧ Forall (free "/"%char) parts ∧ Forall (free backslash) parts
          ∧ Forall (free (ascii_of_nat 0)) parts) as (H1 & H2 & H3 & H4).
  { unfold path_part in Hp. by rewrite !Forall_and in Hp. }
  unfold lexical_parts. rewrite slashes_id, split_slash_join, lexical_loop_id;
    [|by apply Forall_and|done|done|by apply free_join].
  apply result_bind_Ok. exists tt. split.
  { apply assert_result_Ok. split; [by apply join_nonempty|by apply free_join]. }
  apply result_bind_Ok. exists tt. split.
  { apply assert_result_Ok.
    split_and!; [by apply join_no_root|by apply no_backslash_join|by apply no_drive_join]. }
  cbn [mbind result_bind]. apply result_bind_Ok. exists tt. split; [by apply assert_result_Ok|].
  apply result_bind_Ok. exists tt. split; [by apply assert_result_Ok|done].
Qed.

(** ** The guard *)

Section guard.
Variable g : WorkspacePathGuard.

Abbreviation root := (workspace_root g).

Definition in_harness (p : path) : Prop :=
  ∃ h, g.(harness_state_root) = Some h ∧ h `prefix_of` p.

Lemma in_harness_false p :
  from_option (is_within p) false g.(harness_state_root) = false ↔ ¬ in_harness p.
Proof.
  unfold in_harness, is_within. destruct (harness_state_root g) as [h|]; cbn.
  - rewrite bool_decide_eq_false. split; [by intros Hp (h' & [= <-] & ?)|].
    intros Hn Hp. apply Hn. by exists h.
  - split; [by intros _ (? & ? & _)|done].
Qed.

Definition guarded (f : fs) (parts : list string) : GuardedPath :=
  {| relative := join "/" parts; absolute := root ++ parts;
     gp_exists := bool_decide (is_Some (f !! (root ++ parts))) |}.

(** The guard, as a decision: it accepts exactly the safe relative paths with a clear way
    that lead out of the harness state, and denotes the entry they spell. *)
Lemma guard_resolve_iff w f raw p :
  real f root →
  guard_resolve g w f raw = Ok p ↔
  ∃ parts, lexical_parts g.(max_depth) raw = Ok parts ∧ clear_way f w root parts
    ∧ ¬ in_harness (root ++ parts) ∧ p = guarded f parts.
Proof.
  intros Hr. unfold guard_resolve. rewrite result_bind_Ok.
  assert (∀ parts, lexical_parts (max_depth g) raw = Ok parts → Forall plain_part parts) as Hplain.
  { intros parts (_ & Hs & _)%lexical_parts_Ok. eapply Forall_impl; [exact Hs|].
    by intros c [[? _] _]. }
  split.
  - intros (parts & Hp & (u & Hc & H)%result_bind_Ok). exists parts. destruct u.
    apply clear_way_iff in Hc; [|done|by apply Hplain].
    assert (real f (root ++ parts)) as Hr' by (eapply clear_way_real; [done|by apply Hplain|done]).
    rewrite resolve_id in H by done. cbn [mbind result_bind] in H.
    apply result_bind_Ok in H as (u & _ & H). apply result_bind_Ok in H as (u' & Hh%assert_result_Ok & H).
    injection H as <-. split_and!; [done|done|by apply in_harness_false|].
    unfold guarded, exists_at. by rewrite stat_real.
  - intros (parts & Hp & Hc & Hh & ->). exists parts. split; [done|].
    assert (real f (root ++ parts)) as Hr' by (eapply clear_way_real; [done|by apply Hplain|done]).
    apply result_bind_Ok. exists tt. split; [apply clear_way_iff; [done|by apply Hplain|done]|].
    rewrite resolve_id by done. cbn [mbind result_bind]. apply result_bind_Ok. exists tt. split.
    { apply assert_result_Ok. apply bool_decide_eq_true. by eexists. }
    apply result_bind_Ok. exists tt. split; [by apply assert_result_Ok, in_harness_false|].
    unfold guarded, exists_at. by rewrite stat_real.
Qed.

(** Every proper prefix of a clear way to write exists, and its file has no other name. *)
Lemma clear_way_write f parts : ∀ here, clear_way f true here parts →
  (∀ q, q `prefix_of` parts → q ≠ [] → q ≠ parts → is_Some (f !! (here ++ q)))
  ∧ (∀ m c, parts ≠ [] → f !! (here ++ parts) = Some (File m c) → (m.(i_links) ≤ 1)%Z).
Proof.
  induction parts as [|c parts IH]; intros here; cbn [clear_way].
  { intros _. split; [|done]. by intros q ?%prefix_nil_inv. }
  intros [Hf Hw]. destruct (IH _ Hw) as [IH1 IH2]. split.
  - intros q Hq Hne Hneq. destruct q as [|c' q]; [done|].
    pose proof (prefix_cons_inv_1 _ _ _ _ Hq) as ->. apply prefix_cons_inv_2 in Hq.
    destruct (decide (q = [])) as [->|Hne'].
    + destruct (f !! (here ++ [c])) eqn:He; [by eexists|]. exfalso. apply Hf. split; [|done].
      intros ->. done.
    + rewrite <- snoc_app. apply IH1; [done|done|congruence].
  - intros m s _ Hm. destruct (decide (parts = [])) as [->|Hne].
    + rewrite Hm in Hf. destruct (decide (1 < i_links m)%Z); [by destruct Hf|lia].
    + apply (IH2 m s); [done|]. by rewrite snoc_app.
Qed.

(** C14. What the guard lets through is an entry of the workspace: the accepted path is the
    root followed by at least one and at most [max_depth] safe components (not empty, no dot
    segments, no separator, backslash, NUL or colon inside, no reserved name), not starting
    with [.git] in any case; no component is a symbolic link, so the path denotes exactly
    that entry; it is not in the harness state; and for a write every directory above it
    exists and a file there has no other hard link. *)
Theorem guarded_path_stays_in_workspace w f raw p :
  real f root → guard_resolve g w f raw = Ok p →
  ∃ parts, p.(absolute) = root ++ parts ∧ p.(relative) = join "/" parts
    ∧ parts ≠ [] ∧ (Z.of_nat (length parts) ≤ g.(max_depth))%Z
    ∧ Forall safe_part parts ∧ lower (default "" (head parts)) ≠ ".git"
    ∧ real f p.(absolute) ∧ resolve f p.(absolute) = Ok p.(absolute)
    ∧ ¬ in_harness p.(absolute)
    ∧ p.(gp_exists) = bool_decide (is_Some (f !! p.(absolute)))
    ∧ (w = true →
         (∀ q, q `prefix_of` parts → q ≠ [] → q ≠ parts → is_Some (f !! (root ++ q)))
         ∧ ∀ m c, f !! p.(absolute) = Some (File m c) → (m.(i_links) ≤ 1)%Z).
Proof.
  intros Hr (parts & Hp & Hc & Hh & ->)%guard_resolve_iff; [|done]. exists parts.
  pose proof (lexical_parts_Ok _ _ _ Hp) as (Hne & Hs & Hlen & Hgit).
  assert (real f (root ++ parts)) as Hr'.
  { eapply clear_way_real; [done| |done]. eapply Forall_impl; [exact Hs|]. by intros c [[? _] _]. }
  split_and!; try done; [by apply resolve_id|]. intros ->.
  destruct (clear_way_write _ _ _ Hc) as [H1 H2]. split; [done|]. intros m c. by apply H2.
Qed.
End guard.

(** The constructor returns a guard whose root is real. *)
Lemma guard_init_real f root0 h d g : WorkspacePathGuard_init f root0 h d = Ok g → real f g.(workspace_root).
Proof.
  intros (root & Hroot%resolve_real & H)%result_bind_Ok.
  apply result_bind_Ok in H as (? & _ & (? & _ & [= <-])%result_bind_Ok). done.
Qed.

(** Witness of [guarded_path_stays_in_workspace]: a path with dots and doubled separators, to
    a directory of a workspace opened through a link. *)
Definition guard_example_fs : fs :=
  {[ [] := Dir {| i_device := 1; i_number := 1; i_mode := 493; i_links := 2 |};
     ["work"] := Dir {| i_device := 1; i_number := 2; i_mode := 493; i_links := 2 |};
     ["work"; "src"] := Dir {| i_device := 1; i_number := 3; i_mode := 493; i_links := 2 |};
     ["here"] := Symlink false ["work"] ]}.

Definition guard_example : WorkspacePathGuard :=
  {| workspace_root := ["work"]; harness_state_root := Some ["state"]; max_depth := 32 |}.

Lemma guarded_path_stays_in_workspace_witness :
  WorkspacePathGuard_init guard_example_fs ["here"] (Some ["state"]) 32 = Ok guard_example
  ∧ ∃ parts, ["work"; "src"; "new.py"] = ["work"] ++ parts ∧ Forall safe_part parts.
Proof.
  assert (WorkspacePathGuard_init guard_example_fs ["here"] (Some ["state"]) 32 = Ok guard_example)
    as Hinit by (vm_compute; reflexivity).
  split; [exact Hinit|].
  destruct (guarded_path_stays_in_workspace guard_example true guard_example_fs "./src//new.py"
              {| relative := "src/new.py"; absolute := ["work"; "src"; "new.py"]; gp_exists := false |})
    as (parts & Ha & _ & _ & _ & Hs & _).
  - exact (guard_init_real _ _ _ _ _ Hinit).
  - vm_compute. reflexivity.
  - exists parts. exact (conj Ha Hs).
Defined.
