(* ===== verification/World.v ===== *)
(** * World: programs that drive the store

    The components above the store (executors, model clients, the agent loop) run store
    commands one after the other, each in its own transaction, and act on files, processes
    and model providers in between. Such a program is a state passing computation over a
    [world]: the database, the file system, the worker's mutable execution context, the
    replies still scripted, a step counter and the history of external actions. An
    exception does not undo what was done before it.

    Before every step other workers may execute commands and other processes may change
    files; at every step the process may die, before or after the step takes effect. *)

From S2P Require Import Prelude Text Domain Platform Json Events Projection Tables Ledger ModelCalls.
From S2P Require Import Leases Checkpoints Runs Tools Budget Store.
From S2P Require Import FileSystem.
From Corelib Require Import SpecFloat.

(** ** The world *)

(** What a process that is started does: it exits or has to be killed after the timeout.
    The output is the chunks its reader threads get. *)
Record ProcessRun := {
  px_exit_code : Z;
  px_timed_out : bool;
  px_duration_ms : Z;
  px_stdout : list string;
  px_stderr : list string;
}.

(** External actions. *)
Inductive action :=
| RequestModel (attempt : Z) (payload : json)
| Sleep (seconds : spec_float + Z)
| StartProcess (argv : list string) (cwd : path)
| ReplaceFile (target : path) (content : string).

(** On whose behalf an action happens: a history variable that no code reads. *)
Inductive label :=
| ForModelCall (run_id model_call_id : string) (attempt_offset : Z)
| ForAttempt (tool_call_id attempt_id : string).

(** An action together with the database at that moment. *)
Record entry_of_history := {
  h_label : option label;
  h_action : action;
  h_db : db;
}.

(** The mutable part of [_DurableModelAttemptObserver]. *)
Record ObserverState := {
  last_started : option EventEnvelope;
  last_attempt_no : option Z;
  failed_attempts : list Z;
}.

Record world := {
  w_db : db;
  w_fs : fs;
  w_ctx : option ExecutionContext;
  w_outputs : list string;         (** [ScriptedModel.outputs] *)
  w_observer : ObserverState;
  w_label : option label;
  w_tick : nat;
  w_history : list entry_of_history;
}.

#[global] Instance eta_world : Eta world := (λ w,
  {| w_db := w.(w_db); w_fs := w.(w_fs); w_ctx := w.(w_ctx); w_outputs := w.(w_outputs);
     w_observer := w.(w_observer); w_label := w.(w_label); w_tick := w.(w_tick); w_history := w.(w_history) |}).

(** ** The environment

    What the code meets but does not compute: the values drawn at each step, the other
    workers and processes, the death of this process, the replies of model providers,
    child processes, the operating system's numbers and random tokens, the text of an
    exception, and the regular expression engine. *)

(** What a provider answers over HTTP. *)
Inductive http_reply :=
| Body (content : string)
| HttpStatus (code : Z) (retry_after_header : option string)
| Unreachable.   (** URLError, TimeoutError *)

Inductive Fate := Alive | DiesBefore | DiesAfter.

Class Environment := {
  clock : nat → oracle;
  others : nat → db → db;
  others_fs : nat → fs → fs;
  fate : nat → Fate;
  text_of : nat → exn → string;
  provider : nat → json → http_reply;
  spawn : nat → list string → path → res ProcessRun;
  new_inode : nat → inode;
  token : nat → string;
  dir_size : nat → Z;
  regex : string → option (string → bool);
}.

(** ** Programs *)

Definition io (A : Type) : Type := world → res A * world.

#[global] Instance io_ret : MRet io := λ A a w, (Ok a, w).
#[global] Instance io_bind : MBind io := λ A B k m w,
  match m w with
  | (Ok a, w') => k a w'
  | (Err e, w') => (Err e, w')
  end.

Lemma io_bind_eq {A B} (m : io A) (k : A → io B) w :
  mbind k m w = match m w with
                | (Ok a, w') => k a w'
                | (Err e, w') => (Err e, w')
                end.
Proof. done. Qed.

Definition raise {A} (e : exn) : io A := λ w, (Err e, w).
Definition lift {A} (r : res A) : io A := λ w, (r, w).
Definition ensure (P : Prop) `{Decision P} (e : exn) : io unit := lift (assert_result P e).
Definition ask {A} (f : world → A) : io A := λ w, (Ok (f w), w).
Definition put (f : world → world) : io unit := λ w, (Ok tt, f w).

(** [try: m except ...]: [h] says which exceptions are caught. A dead process catches
    nothing. *)
Definition try {A} (m : io A) (h : exn → option (io A)) : io A := λ w,
  match m w with
  | (Ok a, w') => (Ok a, w')
  | (Err Killed, w') => (Err Killed, w')
  | (Err e, w') => match h e with Some k => k w' | None => (Err e, w') end
  end.

(** [try: m finally: k]. *)
Definition finally {A} (m : io A) (k : io unit) : io A := λ w,
  match m w with
  | (Err Killed, w') => (Err Killed, w')
  | (r, w') => match k w' with (Ok _, w2) => (r, w2) | (Err e, w2) => (Err e, w2) end
  end.

(** Act on behalf of someone, in the history. *)
Definition on_behalf {A} (l : label) (m : io A) : io A := λ w,
  let '(r, w') := m (w <| w_label := Some l |>) in (r, w' <| w_label := w.(w_label) |>).

Section steps.
Context `{Environment}.

(** One step: the surroundings move, then the step takes effect if the process lives. *)
Definition step {A} (f : nat → world → res A * world) : io A := λ w,
  let n := w.(w_tick) in
  let w1 := w <| w_db ::= others n |> <| w_fs ::= others_fs n |> <| w_tick := S n |> in
  match fate n with
  | DiesBefore => (Err Killed, w1)
  | Alive => f n w1
  | DiesAfter => (Err Killed, (f n w1).2)
  end.

(** A method of the store that writes, called with the worker's context. *)
Definition call {A} (m : oracle → option ExecutionContext → op A) : io A :=
  step (λ n w,
    let out := execute w.(w_ctx) (m (clock n) w.(w_ctx)) w.(w_db) in
    (out_result out, w <| w_db := out_db out |> <| w_ctx := out_context out |>)).

(** A method of the store that reads. *)
Definition query {A} (m : stx A) : io A :=
  step (λ _ w, (match m w.(w_db) with Ok (a, _) => Ok a | Err e => Err e end, w)).

(** The file system is read, or changed. *)
Definition look {A} (f : fs → res A) : io A := step (λ _ w, (f w.(w_fs), w)).

Definition change (f : nat → fs → res fs) : io unit :=
  step (λ n w, match f n w.(w_fs) with
               | Ok g => (Ok tt, w <| w_fs := g |>)
               | Err e => (Err e, w)
               end).

(** An external action, recorded in the history. *)
Definition record (a : action) (w : world) : world :=
  w <| w_history ::= (λ h, h ++ [{| h_label := w.(w_label); h_action := a; h_db := w.(w_db) |}]) |>.

Definition perform {A} (a : action) (reply : nat → res A) : io A :=
  step (λ n w, (reply n, record a w)).

(** [os.replace], recorded. *)
Definition replace_step (src dst : path) (content : string) : io unit :=
  step (λ n w, match replace_file w.(w_fs) src dst with
               | Ok g => (Ok tt, record (ReplaceFile dst content) (w <| w_fs := g |>))
               | Err e => (Err e, w)
               end).

(** [str(e)], on its own: no state is read. *)
Definition message (e : exn) : io string := λ w, (Ok (text_of w.(w_tick) e), w).
End steps.
