(* ===== verification/Programs.v ===== *)
(** * Programs: reasoning about programs that drive the store

    A program is judged from a world that is fine: its database is reachable and every
    external action of its history satisfies a predicate. [wp w m Q] says that whatever the
    program does from there (return, raise or die, with any interference) it ends in a world
    that is fine and extends [w], and that [Q] holds when it returns. *)

From S2P Require Import Prelude Text Domain Platform Json Events Projection ToolIdentity Tables.
From S2P Require Import Ledger ModelCalls Leases Checkpoints Runs Tools Budget Store.
From S2P Require Import Scenario LedgerSafety RunSafety Lifecycle FileSystem World.

Section programs.
Context `{PlatformLaws} `{Environment} (limits : BlobLimits).

(** [progress s s']: commands were executed, by anybody, as the runtime uses them. *)
Definition progress : relation db :=
  rtc (λ s s', ∃ o c, oracle_ok o ∧ command_ok s c ∧ s' = exec limits o c s).

Lemma progress_reachable s s' : progress s s' → reachable limits s → reachable limits s'.
Proof.
  induction 1 as [s|s1 s2 s3 (o & c & Ho & Hc & ->) _ IH]; intros Hr; [done|].
  apply IH. by apply reachable_step.
Qed.

Lemma progress_later s s' : progress s s' → later limits s s'.
Proof. apply rtc_subrel. intros s1 s2 (o & c & _ & _ & ->). eauto. Qed.

(** What the surroundings promise: identifiers are canonical, other workers only execute
    commands. Nothing is asked of the other processes, the crashes or the replies. *)
Class EnvironmentLaws : Prop := {
  clock_ok : ∀ n, oracle_ok (clock n);
  others_progress : ∀ n s, reachable limits s → progress s (others n s);
}.

Context `{EnvironmentLaws}.
Variable good : entry_of_history → Prop.

Record fine (w : world) : Prop := {
  fine_db : reachable limits w.(w_db);
  fine_history : Forall good w.(w_history);
}.

(** The history grows, each new entry with a database that has progressed since. *)
Definition grows (w w' : world) : Prop :=
  ∃ new, w'.(w_history) = w.(w_history) ++ new ∧ Forall (λ h, progress h.(h_db) w'.(w_db)) new.

Lemma grows_same w w' : w_history w' = w_history w → grows w w'.
Proof. intros E. exists []. by rewrite E, app_nil_r. Qed.

Lemma grows_trans w1 w2 w3 :
  progress (w_db w2) (w_db w3) → grows w1 w2 → grows w2 w3 → grows w1 w3.
Proof.
  intros Hp (l & E & Hl) (k & E' & Hk). exists (l ++ k). rewrite E', E, app_assoc. split; [done|].
  apply Forall_app. split; [|done]. eapply Forall_impl; [done|]. intros h Hh. cbn in Hh |- *. by etrans.
Qed.

Record extends (w w' : world) : Prop := {
  ext_db : progress w.(w_db) w'.(w_db);
  ext_history : grows w w';
  ext_tick : w.(w_tick) ≤ w'.(w_tick);
  ext_label : w'.(w_label) = w.(w_label);
}.

Lemma extends_same w w' :
  progress w.(w_db) w'.(w_db) → w'.(w_history) = w.(w_history) → w.(w_tick) ≤ w'.(w_tick) →
  w'.(w_label) = w.(w_label) → extends w w'.
Proof. intros. split; [done|by apply grows_same|done|done]. Qed.

#[global] Instance extends_preorder : PreOrder extends.
Proof.
  split.
  - intros w. split; [apply rtc_refl|by apply grows_same|done|done].
  - intros w1 w2 w3 [A1 A2 A3 A4] [B1 B2 B3 B4].
    split; [by etrans|by eapply grows_trans|lia|congruence].
Qed.

Definition wp {A} (w : world) (m : io A) (Q : A → world → Prop) : Prop :=
  fine w → ∀ r w', m w = (r, w') →
    fine w' ∧ extends w w' ∧ ∀ a, r = Ok a → Q a w'.

(** ** Rules *)

Lemma wp_mono {A} (w : world) (m : io A) (Q R : A → world → Prop) :
  (∀ a w', fine w' → extends w w' → Q a w' → R a w') → wp w m Q → wp w m R.
Proof. intros HQ Hm Hw r w' Hr. destruct (Hm Hw r w' Hr) as (? & ? & ?). naive_solver. Qed.

Lemma wp_with_fine {A} (w : world) (m : io A) (Q : A → world → Prop) :
  (fine w → wp w m Q) → wp w m Q.
Proof. intros Hm Hw. by apply Hm. Qed.

Lemma wp_ret {A} (w : world) (a : A) (Q : A → world → Prop) : Q a w → wp w (mret a) Q.
Proof. intros HQ Hw r w' [= <- <-]. split_and!; [done|done|naive_solver]. Qed.

Lemma wp_lift {A} (w : world) (r : res A) (Q : A → world → Prop) :
  (∀ a, r = Ok a → Q a w) → wp w (lift r) Q.
Proof. intros HQ Hw r' w' [= <- <-]. split_and!; [done|done|naive_solver]. Qed.

Lemma wp_raise {A} (w : world) e (Q : A → world → Prop) : wp w (raise e) Q.
Proof. intros Hw r' w' [= <- <-]. by split_and!. Qed.

Lemma wp_bind {A B} (w : world) (m : io A) (k : A → io B) (Q : A → world → Prop) (R : B → world → Prop) :
  wp w m Q → (∀ a w1, fine w1 → extends w w1 → Q a w1 → wp w1 (k a) R) → wp w (mbind k m) R.
Proof.
  intros Hm Hk Hw r w'. unfold mbind, io_bind. destruct (m w) as [[a|e] w1] eqn:Hr.
  - intros Hr'. destruct (Hm Hw _ _ Hr) as (Hf & Hx & HQ).
    destruct (Hk a w1 Hf Hx (HQ a eq_refl) Hf _ _ Hr') as (Hf' & Hx' & HR).
    split_and!; [done|by etrans|done].
  - intros [= <- <-]. destruct (Hm Hw _ _ Hr) as (Hf & Hx & _). by split_and!.
Qed.

Lemma wp_try {A} (w : world) (m : io A) (h : exn → option (io A)) (Q : A → world → Prop) :
  wp w m Q →
  (∀ e k w1, h e = Some k → fine w1 → extends w w1 → wp w1 k Q) →
  wp w (try m h) Q.
Proof.
  intros Hm Hh Hw r w'. unfold try. destruct (m w) as [[a|e] w1] eqn:Hr.
  - intros [= <- <-]. by apply (Hm Hw).
  - destruct (Hm Hw _ _ Hr) as (Hf & Hx & _).
    assert (∀ r w', match h e with Some k => k w1 | None => (Err e, w1) end = (r, w') →
              fine w' ∧ extends w w' ∧ ∀ a, r = Ok a → Q a w') as Hk.
    { intros r0 w0 Hr0. destruct (h e) as [k|] eqn:He.
      - destruct (Hh e k w1 He Hf Hx Hf _ _ Hr0) as (? & ? & ?).
        split_and!; [done|by etrans|done].
      - injection Hr0 as <- <-. by split_and!. }
    destruct e; try exact (Hk r w'). intros [= <- <-]. by split_and!.
Qed.

Lemma wp_finally {A} (w : world) (m : io A) (k : io unit) (Q : A → world → Prop) :
  wp w m Q →
  (∀ w1, fine w1 → extends w w1 → wp w1 k (λ _ _, True)) →
  wp w (finally m k) (λ a _, ∃ w1, extends w w1 ∧ Q a w1).
Proof.
  intros Hm Hk Hw r w'. unfold finally. destruct (m w) as [r0 w1] eqn:Hr.
  destruct (Hm Hw _ _ Hr) as (Hf & Hx & HQ).
  assert (∀ r w', match k w1 with (Ok _, w2) => (r0, w2) | (Err e, w2) => (Err e, w2) end = (r, w') →
            fine w' ∧ extends w w' ∧ ∀ a, r = Ok a → ∃ w1, extends w w1 ∧ Q a w1) as Hend.
  { intros r2 w2. destruct (k w1) as [r1 w3] eqn:Hr1.
    destruct (Hk w1 Hf Hx Hf _ _ Hr1) as (Hf' & Hx' & _).
    destruct r1; intros [= <- <-]; (split_and!; [done|by etrans|]); naive_solver. }
  destruct r0 as [a|e]; [exact (Hend r w')|].
  destruct e; try exact (Hend r w'). intros [= <- <-]. by split_and!.
Qed.

Lemma wp_ask {A} (w : world) (f : world → A) (Q : A → world → Prop) : Q (f w) w → wp w (ask f) Q.
Proof. intros HQ Hw r w' [= <- <-]. split_and!; [done|done|naive_solver]. Qed.

Lemma wp_message (w : world) e (Q : string → world → Prop) : (∀ t, Q t w) → wp w (message e) Q.
Proof. intros HQ Hw r w' [= <- <-]. split_and!; [done|done|naive_solver]. Qed.

(** A change of the worker's own variables. *)
Definition local (f : world → world) : Prop := ∀ w,
  w_db (f w) = w_db w ∧ w_history (f w) = w_history w
  ∧ w_tick (f w) = w_tick w ∧ w_label (f w) = w_label w.

Lemma local_fine f w : local f → fine w → fine (f w).
Proof. intros Hf [Fd Fh]. destruct (Hf w) as (E1 & E2 & _). split; [by rewrite E1|by rewrite E2]. Qed.

Lemma local_extends f w : local f → extends w (f w).
Proof.
  intros Hf. destruct (Hf w) as (E1 & E2 & E3 & E4).
  split; [rewrite E1; apply rtc_refl|by apply grows_same|by rewrite E3|done].
Qed.

Lemma wp_put (w : world) f (Q : unit → world → Prop) : local f → Q tt (f w) → wp w (put f) Q.
Proof.
  intros Hf HQ Hw r w' [= <- <-].
  split_and!; [by apply local_fine|by apply local_extends|naive_solver].
Qed.

Lemma wp_on_behalf {A} (w : world) l (m : io A) (Q : A → world → Prop) :
  (∀ w1, w_db w1 = w_db w → w_tick w1 = w_tick w → w_label w1 = Some l → wp w1 m (λ a w', ∀ w2, w_db w2 = w_db w' → w_history w2 = w_history w' → Q a w2)) →
  wp w (on_behalf l m) Q.
Proof.
  intros Hm Hw r w'. unfold on_behalf.
  destruct (m (w <| w_label := Some l |>)) as [r1 w1] eqn:Hr. intros [= <- <-].
  assert (fine (w <| w_label := Some l |>)) as Hf by (by destruct Hw).
  assert (wp (w <| w_label := Some l |>) m
            (λ a w', ∀ w2, w_db w2 = w_db w' → w_history w2 = w_history w' → Q a w2)) as Hm'
    by (apply Hm; reflexivity).
  destruct (Hm' Hf _ _ Hr) as ([Fd Fh] & [X1 X2 X3 _] & HQ).
  split_and!; [by split|by split|]. intros a Ha. by apply HQ.
Qed.

(** *** Steps *)

Lemma wp_step {A} (w : world) (f : nat → world → res A * world) (Q : A → world → Prop) :
  (∀ w1, fine w1 → extends w w1 → w_tick w1 = S (w_tick w) →
     ∀ r w', f (w_tick w) w1 = (r, w') →
       fine w' ∧ extends w1 w' ∧ ∀ a, r = Ok a → Q a w') →
  wp w (step f) Q.
Proof.
  intros Hf [Hr Hh] r w'. unfold step.
  set (w1 := w <| w_db ::= _ |> <| w_fs ::= _ |> <| w_tick := _ |>).
  assert (progress (w_db w) (w_db w1)) as Hp by (by apply others_progress).
  assert (fine w1) as Hw1 by (split; [by eapply progress_reachable|done]).
  assert (extends w w1) as Hx by (apply extends_same; [done|done|cbn; lia|done]).
  assert (∀ r w', f (w_tick w) w1 = (r, w') → fine w' ∧ extends w w' ∧ ∀ a, r = Ok a → Q a w') as Hs.
  { intros r0 w0 Hr0. destruct (Hf w1 Hw1 Hx eq_refl _ _ Hr0) as (? & ? & ?).
    split_and!; [done|by etrans|done]. }
  destruct (fate (w_tick w)).
  - intros Hr'. by apply Hs.
  - intros [= <- <-]. by split_and!.
  - destruct (f (w_tick w) w1) as [r0 w0] eqn:Hr0. intros [= <- <-].
    destruct (Hs _ _ eq_refl) as (? & ? & _). by split_and!.
Qed.

(** A method of the store is one of its commands, or does not write. *)
Definition store_method {A} (w : world) (m : oracle → option ExecutionContext → op A) : Prop :=
  ∀ o ctx,
    (∃ c, command_tx limits o c = advance (m o ctx)
          ∧ ∀ s, reachable limits s → progress (w_db w) s → command_ok s c)
    ∨ (∀ s v s', m o ctx s = Ok (v, s') → s' = s).

(** What the caller of a store method knows when it returned. *)
Definition returned_from {A} (w : world) (m : oracle → option ExecutionContext → op A)
    (a : A) (w' : world) : Prop :=
  ∃ s ctx v, reachable limits s ∧ progress (w_db w) s
    ∧ m (clock (w_tick w)) ctx s = Ok ((Ok a, v), w_db w')
    ∧ w_tick w' = S (w_tick w).

Lemma execute_step {A} w (m : oracle → option ExecutionContext → op A) o ctx s :
  store_method w m → oracle_ok o → reachable limits s → progress (w_db w) s →
  progress s (out_db (execute ctx (m o ctx) s)).
Proof.
  intros Hm Ho Hs Hp. unfold execute.
  assert (∀ v s', m o ctx s = Ok (v, s') → progress s s') as Hstep.
  { intros v s' Hv. destruct (Hm o ctx) as [(c & Hc & Hok)|Hread].
    - apply rtc_once. exists o, c. split_and!; [done|by apply Hok|].
      unfold exec, run_tx. rewrite Hc. unfold advance, mbind, tx_bind. rewrite Hv. by destruct v.
    - apply Hread in Hv as ->. apply rtc_refl. }
  destruct (m o ctx s) as [[[r [v|]] s']|e] eqn:Hv; cbn.
  - destruct (advance_execution_context ctx v); by eapply Hstep.
  - by eapply Hstep.
  - apply rtc_refl.
Qed.

Lemma wp_call {A} (w : world) (m : oracle → option ExecutionContext → op A) (Q : A → world → Prop) :
  store_method w m →
  (∀ a w', fine w' → extends w w' → returned_from w m a w' → Q a w') →
  wp w (call m) Q.
Proof.
  intros Hm HQ. apply wp_step. intros w1 Hw1 Hx Htick r w'.
  set (out := execute (w_ctx w1) (m (clock (w_tick w)) (w_ctx w1)) (w_db w1)).
  intros [= <- <-].
  assert (progress (w_db w1) (out_db out)) as Hp.
  { apply (execute_step w); [done|apply clock_ok|apply Hw1|apply Hx]. }
  set (w2 := w1 <| w_db := _ |> <| w_ctx := _ |>).
  assert (fine w2) as Hw2 by (destruct Hw1; split; [by eapply progress_reachable|done]).
  assert (extends w1 w2) as Hx2 by by apply extends_same.
  split_and!; [done|done|]. intros a Ha. apply HQ; [done|by etrans|].
  exists (w_db w1), (w_ctx w1). subst out. unfold execute in *.
  destruct (m _ (w_ctx w1) (w_db w1)) as [[[r [v|]] s']|e] eqn:Hv; cbn in *.
  - exists (Some v). subst w2. cbn.
    destruct (advance_execution_context (w_ctx w1) v); cbn in *; [|done]. subst r.
    split_and!; [apply Hw1|apply Hx|done|done].
  - exists None. subst r. split_and!; [apply Hw1|apply Hx|done|done].
  - done.
Qed.

Lemma wp_query {A} (w : world) (m : stx A) (Q : A → world → Prop) :
  (∀ a w' s', fine w' → extends w w' → m (w_db w') = Ok (a, s') → Q a w') →
  wp w (query m) Q.
Proof.
  intros HQ. apply wp_step. intros w1 Hw1 Hx Htick r w' [= <- <-].
  split_and!; [done|done|]. intros a Ha.
  destruct (m (w_db w1)) as [[b s']|e] eqn:Hm; [|done]. injection Ha as ->. by eapply HQ.
Qed.

Lemma wp_look {A} (w : world) (f : fs → res A) (Q : A → world → Prop) :
  (∀ a w', extends w w' → f (w_fs w') = Ok a → Q a w') → wp w (look f) Q.
Proof.
  intros HQ. apply wp_step. intros w1 Hw1 Hx _ r w' [= <- <-].
  split_and!; [done|done|]. intros a Ha. by apply HQ.
Qed.

Lemma wp_change (w : world) f (Q : unit → world → Prop) :
  (∀ w', extends w w' → Q tt w') → wp w (change f) Q.
Proof.
  intros HQ. apply wp_step. intros w1 Hw1 Hx _ r w'.
  destruct (f (w_tick w) (w_fs w1)) as [g|e]; intros [= <- <-].
  - assert (extends w1 (w1 <| w_fs := g |>)) by (by apply extends_same; [apply rtc_refl|..]).
    split_and!; [by destruct Hw1|done|]. intros [] _. apply HQ. by etrans.
  - split_and!; [done|done|by intros]. 
Qed.

(** An action is recorded with what holds of the database at that moment. *)
Definition good_action (w : world) (a : action) : Prop :=
  ∀ s, reachable limits s → progress (w_db w) s →
    good {| h_label := w.(w_label); h_action := a; h_db := s |}.

Lemma record_fine w w1 a :
  good_action w a → extends w w1 → fine w1 → fine (record a w1) ∧ extends w1 (record a w1).
Proof.
  intros Hg Hx [Fd Fh]. split; [split|split]; cbn; [done| |apply rtc_refl| |done|done].
  - apply Forall_app. split; [done|]. constructor; [|done].
    rewrite (ext_label _ _ Hx). apply Hg; [done|apply Hx].
  - eexists. split; [done|]. apply Forall_singleton. apply rtc_refl.
Qed.

Lemma wp_perform {A} (w : world) a (reply : nat → res A) (Q : A → world → Prop) :
  good_action w a → (∀ x w', extends w w' → Q x w') → wp w (perform a reply) Q.
Proof.
  intros Hg HQ. apply wp_step. intros w1 Hw1 Hx _ r w' [= <- <-].
  destruct (record_fine _ _ _ Hg Hx Hw1) as [Hf Hx'].
  split_and!; [done|done|]. intros x Ha. apply HQ. by etrans.
Qed.

Lemma wp_replace_step (w : world) src dst content (Q : unit → world → Prop) :
  good_action w (ReplaceFile dst content) → (∀ w', extends w w' → Q tt w') →
  wp w (replace_step src dst content) Q.
Proof.
  intros Hg HQ. apply wp_step. intros w1 Hw1 Hx _ r w'.
  destruct (replace_file (w_fs w1) src dst) as [g|e]; intros [= <- <-].
  - set (w2 := w1 <| w_fs := g |>).
    assert (extends w w2) as Hx2 by (by destruct Hx).
    assert (fine w2) as Hw2 by (by destruct Hw1).
    destruct (record_fine _ _ _ Hg Hx2 Hw2) as [Hf Hx'].
    assert (extends w1 w2) as Hx3 by (by apply extends_same; [apply rtc_refl|..]).
    split_and!; [done|by etrans|]. intros [] _. apply HQ. by etrans.
  - split_and!; [done|done|by intros].
Qed.

(** ** Safe programs

    [safe J m]: from a fine world where the invariant [J] holds, [m] stays in fine worlds.
    The invariant is one that no step can break. *)

Class Stable (J : world → Prop) : Prop :=
  stable w w' : fine w → extends w w' → J w → J w'.

Definition safe (J : world → Prop) {A} (m : io A) : Prop :=
  ∀ w, J w → wp w m (λ _ _, True).

#[global] Instance stable_True : Stable (λ _, True).
Proof. done. Qed.

Section safe.
Context (J : world → Prop) `{!Stable J}.

Lemma safe_bind {A B} (m : io A) (k : A → io B) :
  safe J m → (∀ a, safe J (k a)) → safe J (mbind k m).
Proof.
  intros Hm Hk w Hw Hf. eapply wp_bind; [by apply Hm| |done].
  intros a w1 _ Hx _. apply Hk. by eapply stable.
Qed.

(** A program whose result carries knowledge into its continuation. *)
Lemma safe_bind_know {A B} (K : A → world → Prop) (m : io A) (k : A → io B) :
  (∀ w, J w → wp w m K) → (∀ a w, J w → K a w → wp w (k a) (λ _ _, True)) →
  safe J (mbind k m).
Proof.
  intros Hm Hk w Hw Hf. eapply wp_bind; [by apply Hm| |done].
  intros a w1 _ Hx HK. apply Hk; [by eapply stable|done].
Qed.

Lemma safe_try {A} (m : io A) (h : exn → option (io A)) :
  safe J m → (∀ e k, h e = Some k → safe J k) → safe J (try m h).
Proof.
  intros Hm Hh w Hw Hf. apply wp_try; [by apply Hm| |done].
  intros e k w1 He _ Hx. eapply Hh; [done|]. by eapply stable.
Qed.

Lemma safe_finally {A} (m : io A) (k : io unit) : safe J m → safe J k → safe J (finally m k).
Proof.
  intros Hm Hk w Hw Hf. eapply wp_mono; [|apply wp_finally; [by apply Hm|]|done]; [done|].
  intros w1 _ Hx. apply Hk. by eapply stable.
Qed.

Lemma safe_ret {A} (a : A) : safe J (mret a).
Proof. intros w _. by apply wp_ret. Qed.

Lemma safe_lift {A} (r : res A) : safe J (lift r).
Proof. intros w _. by apply wp_lift. Qed.

Lemma safe_ensure P `{Decision P} e : safe J (ensure P e).
Proof. apply safe_lift. Qed.

Lemma safe_raise {A} e : safe J (raise e : io A).
Proof. intros w _. apply wp_raise. Qed.

Lemma safe_ask {A} (f : world → A) : safe J (ask f).
Proof. intros w _. by apply wp_ask. Qed.

Lemma safe_message e : safe J (message e).
Proof. intros w _. by apply wp_message. Qed.

Lemma safe_put f : local f → safe J (put f).
Proof. intros Hf w _. by apply wp_put. Qed.

Lemma safe_query {A} (m : stx A) : safe J (query m).
Proof. intros w _. by apply wp_query. Qed.

Lemma safe_look {A} (f : fs → res A) : safe J (look f).
Proof. intros w _. by apply wp_look. Qed.

Lemma safe_change f : safe J (change f).
Proof. intros w _. by apply wp_change. Qed.

Lemma safe_call {A} (m : oracle → option ExecutionContext → op A) :
  (∀ w, J w → store_method w m) → safe J (call m).
Proof. intros Hm w Hw. by apply wp_call; [apply Hm|]. Qed.

Lemma safe_perform {A} a (reply : nat → res A) :
  (∀ w, fine w → J w → good_action w a) → safe J (perform a reply).
Proof. intros Hg w Hw Hf. by apply wp_perform; [apply Hg| |]. Qed.

Lemma safe_replace_step src dst content :
  (∀ w, fine w → J w → good_action w (ReplaceFile dst content)) →
  safe J (replace_step src dst content).
Proof. intros Hg w Hw Hf. by apply wp_replace_step; [apply Hg| |]. Qed.
End safe.

Lemma safe_weaken (J K : world → Prop) {A} (m : io A) : (∀ w, K w → J w) → safe J m → safe K m.
Proof. intros HK Hm w Hw. by apply Hm, HK. Qed.

(** *** The methods of the store, as commands *)

Ltac command c := intros ? ?; left; exists c; split; [reflexivity|done].

Lemma method_put_blob w content media : store_method w (λ o _, put_blob limits o content media).
Proof. command (PutBlob content media). Qed.

Lemma method_finish w aid out pid rc ou media er rt :
  store_method w (λ o ctx, finish_tool_attempt limits o aid out pid rc ou media er rt ctx).
Proof. intros o ctx. left. by exists (FinishToolAttempt aid out pid rc ou media er rt ctx). Qed.

Lemma method_dispatch w tid plan ex pid aid :
  store_method w (λ o ctx, dispatch_tool_call o tid plan ex pid aid ctx).
Proof. intros o ctx. left. by exists (DispatchToolCall tid plan ex pid aid ctx). Qed.

Lemma method_propose w rid p pid : store_method w (λ o ctx, propose_tool_call o rid p pid ctx).
Proof. intros o ctx. left. by exists (ProposeToolCall rid p pid ctx). Qed.

Lemma method_request_approval w tid policy pid :
  store_method w (λ o ctx, request_tool_approval o tid policy pid ctx).
Proof. intros o ctx. left. by exists (RequestToolApproval tid policy pid ctx). Qed.

Lemma method_decide w aid fp d actor reason pid cc :
  store_method w (λ o ctx, decide_tool_approval o aid fp d actor reason pid ctx cc).
Proof. intros o ctx. left. by exists (DecideToolApproval aid fp d actor reason pid ctx cc). Qed.

Lemma method_reserve w rid bid cat amount pid :
  store_method w (λ o ctx, reserve_budget o rid bid cat amount pid ctx).
Proof. intros o ctx. left. by exists (ReserveBudget rid bid cat amount pid ctx). Qed.

Lemma method_settle w bid consumed pid :
  store_method w (λ o ctx, settle_budget o bid consumed pid ctx).
Proof. intros o ctx. left. by exists (SettleBudget bid consumed pid ctx). Qed.

Lemma method_terminate w rid st reason pid :
  store_method w (λ o ctx, terminate_run o rid st reason pid ctx).
Proof. intros o ctx. left. by exists (TerminateRun rid st reason pid ctx). Qed.

Lemma method_final_answer w rid response answer v pid :
  store_method w (λ o ctx, commit_final_answer o rid response answer v pid ctx).
Proof. intros o ctx. left. by exists (CommitFinalAnswer rid response answer v pid ctx). Qed.

Lemma method_checkpoint w rid cid pid :
  store_method w (λ o ctx, commit_run_checkpoint o rid cid pid ctx).
Proof. intros o ctx. left. by exists (CommitRunCheckpoint rid cid pid ctx). Qed.

Lemma method_acquire w rid owner ttl t :
  store_method w (λ o _, acquire_run_lease o rid owner ttl t).
Proof. intros o ctx. left. by exists (AcquireRunLease rid owner ttl t). Qed.

Lemma method_release w lease : store_method w (λ _ _, release_run_lease lease).
Proof. intros o ctx. left. by exists (ReleaseRunLease lease). Qed.
End programs.

Create HintDb store_methods.
#[export] Hint Resolve method_put_blob method_finish method_dispatch method_propose
  method_request_approval method_decide method_reserve method_settle method_terminate
  method_final_answer method_checkpoint method_acquire method_release : store_methods.

(** [safe_tac] takes a program apart along its structure; what is left are calls the hints
    do not know and external actions. *)
Ltac safe1 :=
  lazymatch goal with
  | |- safe _ _ _ (mbind _ _) => apply safe_bind; [apply _| |intros ?]
  | |- safe _ _ _ (mret _) => apply safe_ret
  | |- safe _ _ _ (lift _) => apply safe_lift
  | |- safe _ _ _ (ensure _ _) => apply safe_ensure
  | |- safe _ _ _ (raise _) => apply safe_raise
  | |- safe _ _ _ (ask _) => apply safe_ask
  | |- safe _ _ _ (message _) => apply safe_message
  | |- safe _ _ _ (query _) => apply safe_query
  | |- safe _ _ _ (look _) => apply safe_look
  | |- safe _ _ _ (change _) => apply safe_change
  | |- safe _ _ _ (put _) => apply safe_put; intros ?; by split_and!
  | |- safe _ _ _ (try _ _) => apply safe_try; [apply _| |intros [] ? [= <-]]
  | |- safe _ _ _ (finally _ _) => apply safe_finally; [apply _| |]
  | |- safe _ _ _ (call _) => apply safe_call; [apply _|intros ? _; solve [eauto with store_methods]]
  | |- EnvironmentLaws _ => apply _
  | |- Stable _ _ _ => apply _
  | |- safe _ _ _ (match ?x with _ => _ end) => destruct x
  | |- safe _ _ _ (let '_ := ?x in _) => destruct x
  end.

Create HintDb safe.
#[export] Hint Extern 0 (Stable _ _ _) => apply _ : safe.
Ltac safe_tac := repeat first [safe1 | solve [eauto 2 with safe]].

(** Use a safety lemma, with or without a stability premise left. *)
Ltac safe_use lemma := first [by apply lemma | apply lemma, _].
