(* ===== verification/ProgramRel.v ===== *)
(** * ProgramRel: relations, step bounds and files of programs

    [io_rel R m]: whatever [m] does (return, raise, die), the worlds before and after it are
    related; a preorder that the steps respect is respected by every program. [io_cost m n]:
    [m] takes at most [n] steps. The last part follows the files of a program while nobody
    else changes them. *)

From S2P Require Import Prelude Text Domain Platform Json Events Projection Tables Ledger Leases.
From S2P Require Import FileSystem World.

Definition io_rel (R : relation world) {A} (m : io A) : Prop := ∀ w, R w (m w).2.

(** A program that only changes the worker's own variables. *)
Record owned (w w' : world) : Prop := {
  own_db : w_db w' = w_db w;
  own_fs : w_fs w' = w_fs w;
  own_history : w_history w' = w_history w;
  own_tick : w_tick w' = w_tick w;
}.

Section rel.
Context `{Environment} (R : relation world) `{!PreOrder R}.

Lemma rel_bind {A B} (m : io A) (k : A → io B) :
  io_rel R m → (∀ a, io_rel R (k a)) → io_rel R (mbind k m).
Proof.
  intros Hm Hk w. unfold mbind, io_bind. specialize (Hm w).
  destruct (m w) as [[a|e] w1]; [|done]. etrans; [exact Hm|apply Hk].
Qed.

Lemma rel_try {A} (m : io A) (h : exn → option (io A)) :
  io_rel R m → (∀ e k, h e = Some k → io_rel R k) → io_rel R (try m h).
Proof.
  intros Hm Hh w. unfold try. specialize (Hm w).
  destruct (m w) as [[a|e] w1]; [done|]. cbn in Hm.
  assert (R w (match h e with Some k => k w1 | None => (Err e, w1) end).2).
  { destruct (h e) as [k|] eqn:Hk; [|done]. etrans; [exact Hm|by eapply Hh]. }
  by destruct e.
Qed.

Lemma rel_finally {A} (m : io A) (k : io unit) :
  io_rel R m → io_rel R k → io_rel R (finally m k).
Proof.
  intros Hm Hk w. unfold finally. specialize (Hm w). destruct (m w) as [r w1]. cbn in Hm.
  specialize (Hk w1).
  assert (∀ r : res A, R w (match k w1 with (Ok _, w2) => (r, w2) | (Err e, w2) => (Err e, w2) end).2).
  { intros r'. destruct (k w1) as [[?|?] w2]; by etrans. }
  destruct r as [a|e]; [done|]. by destruct e.
Qed.

Lemma rel_ret {A} (a : A) : io_rel R (mret a).
Proof. by intros w. Qed.
Lemma rel_lift {A} (r : res A) : io_rel R (lift r).
Proof. by intros w. Qed.
Lemma rel_ensure P `{Decision P} e : io_rel R (ensure P e).
Proof. by intros w. Qed.
Lemma rel_raise {A} e : io_rel R (raise e : io A).
Proof. by intros w. Qed.
Lemma rel_ask {A} (f : world → A) : io_rel R (ask f).
Proof. by intros w. Qed.
Lemma rel_message e : io_rel R (message e).
Proof. by intros w. Qed.

Hypothesis R_owned : ∀ w w', owned w w' → R w w'.

Lemma rel_put f : (∀ w, owned w (f w)) → io_rel R (put f).
Proof. intros Hf w. apply R_owned, Hf. Qed.

Lemma rel_on_behalf {A} l (m : io A) : io_rel R m → io_rel R (on_behalf l m).
Proof.
  intros Hm w. unfold on_behalf. specialize (Hm (w <| w_label := Some l |>)).
  destruct (m (w <| w_label := Some l |>)) as [r w1]. cbn in *.
  transitivity (w <| w_label := Some l |>); [by apply R_owned|].
  etrans; [exact Hm|]. by apply R_owned.
Qed.

(** A step that records nothing. *)
Definition quiet_step (w w' : world) : Prop :=
  w_history w' = w_history w ∧ w_tick w' = S (w_tick w).

Hypothesis R_quiet : ∀ w w', quiet_step w w' → R w w'.

Lemma rel_step {A} (f : nat → world → res A * world) :
  (∀ n w, w_history (f n w).2 = w_history w ∧ w_tick (f n w).2 = w_tick w) → io_rel R (step f).
Proof.
  intros Hf w. apply R_quiet. unfold step, quiet_step.
  set (w1 := w <| w_db ::= _ |> <| w_fs ::= _ |> <| w_tick := _ |>).
  destruct (Hf (w_tick w) w1) as [H1 H2]. by destruct (fate (w_tick w)); cbn; rewrite ?H1, ?H2.
Qed.

Lemma rel_call {A} (m : oracle → option ExecutionContext → op A) : io_rel R (call m).
Proof. by apply rel_step. Qed.
Lemma rel_query {A} (m : stx A) : io_rel R (query m).
Proof. by apply rel_step. Qed.
Lemma rel_look {A} (f : fs → res A) : io_rel R (look f).
Proof. by apply rel_step. Qed.
Lemma rel_change f : io_rel R (change f).
Proof. apply rel_step. intros n w. by destruct (f n (w_fs w)). Qed.
End rel.

(** [rel_tac] takes a program apart; [R] is owned and quiet by hints of [io_rel]. *)
Create HintDb io_rel.

Ltac rel1 :=
  lazymatch goal with
  | |- io_rel _ (mbind _ _) => apply rel_bind; [apply _| |intros ?]
  | |- io_rel _ (mret _) => apply rel_ret; apply _
  | |- io_rel _ (lift _) => apply rel_lift; apply _
  | |- io_rel _ (ensure _ _) => apply rel_ensure; apply _
  | |- io_rel _ (raise _) => apply rel_raise; apply _
  | |- io_rel _ (ask _) => apply rel_ask; apply _
  | |- io_rel _ (message _) => apply rel_message; apply _
  | |- io_rel _ (query _) => apply rel_query; eauto with io_rel
  | |- io_rel _ (look _) => apply rel_look; eauto with io_rel
  | |- io_rel _ (change _) => apply rel_change; eauto with io_rel
  | |- io_rel _ (call _) => apply rel_call; eauto with io_rel
  | |- io_rel _ (put _) => apply rel_put; [eauto with io_rel|intros ?; by split]
  | |- io_rel _ (on_behalf _ _) => apply rel_on_behalf; [apply _|eauto with io_rel|]
  | |- io_rel _ (try _ _) => apply rel_try; [apply _| |intros [] ? [= <-]]
  | |- io_rel _ (finally _ _) => apply rel_finally; [apply _| |]
  | |- io_rel _ (match ?x with _ => _ end) => destruct x
  | |- io_rel _ (let '_ := ?x in _) => destruct x
  end.

Ltac rel_tac := repeat first [rel1 | solve [eauto 2 with io_rel]].

(** ** Step bounds *)

Definition io_cost {A} (m : io A) (n : nat) : Prop := ∀ w, w_tick (m w).2 ≤ w_tick w + n.

Section cost.
Context `{Environment}.

Lemma cost_weaken {A} (m : io A) n n' : io_cost m n → n ≤ n' → io_cost m n'.
Proof. intros Hm Hn w. specialize (Hm w). lia. Qed.

Lemma cost_bind {A B} (m : io A) (k : A → io B) n n' :
  io_cost m n → (∀ a, io_cost (k a) n') → io_cost (mbind k m) (n + n').
Proof.
  intros Hm Hk w. unfold mbind, io_bind. specialize (Hm w).
  destruct (m w) as [[a|e] w1]; cbn in *; [specialize (Hk a w1)|]; lia.
Qed.

Lemma cost_try {A} (m : io A) (h : exn → option (io A)) n n' :
  io_cost m n → (∀ e k, h e = Some k → io_cost k n') → io_cost (try m h) (n + n').
Proof.
  intros Hm Hh w. unfold try. specialize (Hm w).
  destruct (m w) as [[a|e] w1]; cbn in *; [lia|].
  assert (w_tick (match h e with Some k => k w1 | None => (Err e, w1) end).2 ≤ w_tick w + (n + n')).
  { destruct (h e) as [k|] eqn:Hk; cbn; [specialize (Hh e k Hk w1)|]; lia. }
  destruct e; cbn; try done; lia.
Qed.

Lemma cost_finally {A} (m : io A) (k : io unit) n n' :
  io_cost m n → io_cost k n' → io_cost (finally m k) (n + n').
Proof.
  intros Hm Hk w. unfold finally. specialize (Hm w). destruct (m w) as [r w1]. cbn in Hm.
  specialize (Hk w1).
  assert (∀ r : res A, w_tick (match k w1 with (Ok _, w2) => (r, w2) | (Err e, w2) => (Err e, w2) end).2
            ≤ w_tick w + (n + n')).
  { intros r'. destruct (k w1) as [[?|?] w2]; cbn in *; lia. }
  destruct r as [a|e]; [done|]. destruct e; try done. cbn. lia.
Qed.

Lemma cost_step {A} (f : nat → world → res A * world) :
  (∀ n w, w_tick (f n w).2 = w_tick w) → io_cost (step f) 1.
Proof.
  intros Hf w. unfold step.
  set (w1 := w <| w_db ::= _ |> <| w_fs ::= _ |> <| w_tick := _ |>).
  pose proof (Hf (w_tick w) w1) as Ht. destruct (fate (w_tick w)); cbn in *; rewrite ?Ht; lia.
Qed.

Lemma cost_call {A} (m : oracle → option ExecutionContext → op A) : io_cost (call m) 1.
Proof. by apply cost_step. Qed.
Lemma cost_query {A} (m : stx A) : io_cost (query m) 1.
Proof. by apply cost_step. Qed.
Lemma cost_look {A} (f : fs → res A) : io_cost (look f) 1.
Proof. by apply cost_step. Qed.
Lemma cost_change f : io_cost (change f) 1.
Proof. apply cost_step. intros n w. by destruct (f n (w_fs w)). Qed.
Lemma cost_perform {A} a (reply : nat → res A) : io_cost (perform a reply) 1.
Proof. by apply cost_step. Qed.
Lemma cost_replace_step src dst content : io_cost (replace_step src dst content) 1.
Proof. apply cost_step. intros n w. by destruct (replace_file (w_fs w) src dst). Qed.

(** Programs of no step. *)
Lemma cost_ret {A} (a : A) : io_cost (mret a) 0.
Proof. intros w. cbn. lia. Qed.
Lemma cost_lift {A} (r : res A) : io_cost (lift r) 0.
Proof. intros w. cbn. lia. Qed.
Lemma cost_ensure P `{Decision P} e : io_cost (ensure P e) 0.
Proof. intros w. cbn. lia. Qed.
Lemma cost_raise {A} e : io_cost (raise e : io A) 0.
Proof. intros w. cbn. lia. Qed.
Lemma cost_ask {A} (f : world → A) : io_cost (ask f) 0.
Proof. intros w. cbn. lia. Qed.
Lemma cost_message e : io_cost (message e) 0.
Proof. intros w. cbn. lia. Qed.
Lemma cost_put f : (∀ w, w_tick (f w) = w_tick w) → io_cost (put f) 0.
Proof. intros Hf w. cbn. rewrite Hf. lia. Qed.
Lemma cost_on_behalf {A} l (m : io A) n : io_cost m n → io_cost (on_behalf l m) n.
Proof.
  intros Hm w. unfold on_behalf. specialize (Hm (w <| w_label := Some l |>)).
  destruct (m (w <| w_label := Some l |>)) as [r w1]. cbn in *. done.
Qed.
End cost.

(** Bounds known in advance: what is left of [N] is for the rest. *)
Lemma cost_bind_within `{Environment} {A B} (m : io A) (k : A → io B) n N :
  io_cost m n → n ≤ N → (∀ a, io_cost (k a) (N - n)) → io_cost (mbind k m) N.
Proof. intros Hm Hn Hk. eapply cost_weaken; [by eapply cost_bind|lia]. Qed.

Lemma cost_try_within `{Environment} {A} (m : io A) (h : exn → option (io A)) n N :
  io_cost m n → n ≤ N → (∀ e k, h e = Some k → io_cost k (N - n)) → io_cost (try m h) N.
Proof. intros Hm Hn Hk. eapply cost_weaken; [by eapply cost_try|lia]. Qed.

Create HintDb io_cost.
#[export] Hint Resolve cost_ret cost_lift cost_ensure cost_raise cost_ask cost_message
  cost_query cost_look cost_change cost_call cost_perform cost_replace_step : io_cost.
#[export] Hint Extern 1 (io_cost (put _) _) => (apply cost_put; by intros) : io_cost.
#[export] Hint Extern 2 (io_cost (on_behalf _ _) _) => apply cost_on_behalf : io_cost.

(** [cost_tac] checks a numeral bound: each part takes what its lemma says. *)
Ltac cost1 :=
  lazymatch goal with
  | |- io_cost (mbind _ _) _ =>
      eapply cost_bind_within; [solve [eauto 3 with io_cost]|lia|intros ?; cbn [Nat.sub]]
  | |- io_cost (try _ _) _ =>
      eapply cost_try_within; [solve [eauto 3 with io_cost]|lia|intros [] ? [= <-]; cbn [Nat.sub]]
  | |- io_cost (match ?x with _ => _ end) _ => destruct x
  | |- io_cost (let '_ := ?x in _) _ => destruct x
  | |- io_cost _ _ => eapply cost_weaken; [solve [eauto 3 with io_cost]|lia]
  end.

Ltac cost_tac := repeat cost1.

(** ** The files of a program

    [from f m Q E]: started with the files [f], and with nobody else changing files, the
    program [m] returns a value and files that satisfy [Q], or ends with an exception (the
    death of the process is one) and files that satisfy [E]. *)

Section fs_logic.
Context `{Environment}.

(** No other process changes files. *)
Class QuietFiles : Prop := files_quiet : ∀ n f, others_fs n f = f.

(** The process may die at some step. *)
Definition mortal : Prop := ∃ n, fate n ≠ Alive.

Context `{!QuietFiles}.

Definition from (f : fs) {A} (m : io A) (Q : A → fs → Prop) (E : exn → fs → Prop) : Prop :=
  ∀ w, w_fs w = f →
    match m w with
    | (Ok a, w') => Q a (w_fs w')
    | (Err e, w') => E e (w_fs w')
    end.

Section rules.
Context (f : fs).

Lemma from_mono {A} (m : io A) (Q Q' : A → fs → Prop) (E E' : exn → fs → Prop) :
  from f m Q E → (∀ a f', Q a f' → Q' a f') → (∀ e f', E e f' → E' e f') → from f m Q' E'.
Proof. intros Hm HQ HE w Hw. specialize (Hm w Hw). destruct (m w) as [[]]; auto. Qed.

Lemma from_ret {A} (a : A) (Q : A → fs → Prop) (E : exn → fs → Prop) : Q a f → from f (mret a) Q E.
Proof. by intros HQ w <-. Qed.

Lemma from_raise {A} (e : exn) (Q : A → fs → Prop) (E : exn → fs → Prop) : E e f → from f (raise e : io A) Q E.
Proof. by intros HE w <-. Qed.

Lemma from_lift {A} (r : res A) (Q : A → fs → Prop) (E : exn → fs → Prop) :
  match r with Ok a => Q a f | Err e => E e f end → from f (lift r) Q E.
Proof. intros HQ w <-. cbn. by destruct r. Qed.

Lemma from_ensure (P : Prop) `{Decision P} (e : exn) (Q : unit → fs → Prop) (E : exn → fs → Prop) :
  (P → Q tt f) → (¬ P → E e f) → from f (ensure P e) Q E.
Proof. intros HQ HE. apply from_lift. unfold assert_result. case_decide; auto. Qed.

Lemma from_ask {A} (g : world → A) (Q : A → fs → Prop) (E : exn → fs → Prop) :
  (∀ w, Q (g w) f) → from f (ask g) Q E.
Proof. intros HQ w <-. exact (HQ w). Qed.

Lemma from_bind {A B} (m : io A) (k : A → io B) (Q : B → fs → Prop) (E : exn → fs → Prop) :
  from f m (λ a f', from f' (k a) Q E) E → from f (mbind k m) Q E.
Proof.
  intros Hm w Hw. rewrite io_bind_eq. specialize (Hm w Hw).
  destruct (m w) as [[a|e] w']; [by apply Hm|done].
Qed.

Lemma from_try {A} (m : io A) (h : exn → option (io A)) (Q : A → fs → Prop) (E : exn → fs → Prop) :
  from f m Q (λ e f', match h e with
                      | Some k => from f' k Q E
                      | None => E e f'
                      end) →
  (h Killed = None) →
  from f (try m h) Q E.
Proof.
  intros Hm Hk w Hw. unfold try. specialize (Hm w Hw). destruct (m w) as [[a|e] w']; [done|].
  destruct e; rewrite ?Hk in Hm; try done;
    match goal with
    | |- context [h ?e] => destruct (h e) as [k|]; [by apply Hm|done]
    end.
Qed.

Lemma from_finally {A} (m : io A) (k : io unit) (Q : A → fs → Prop) (E : exn → fs → Prop) :
  from f m (λ a f', from f' k (λ _, Q a) E)
           (λ e f', (e = Killed → E e f') ∧ (e ≠ Killed → from f' k (λ _, E e) E)) →
  from f (finally m k) Q E.
Proof.
  intros Hm w Hw. unfold finally. specialize (Hm w Hw). destruct (m w) as [r w'].
  assert (∀ r, match r with
               | Ok a => from (w_fs w') k (λ _, Q a) E
               | Err e => from (w_fs w') k (λ _, E e) E
               end →
    match (match k w' with (Ok _, w2) => (r, w2) | (Err e, w2) => (Err e, w2) end) with
    | (Ok a, w') => Q a (w_fs w')
    | (Err e, w') => E e (w_fs w')
    end) as Hend.
  { intros r0 Hr. destruct r0 as [a|e]; specialize (Hr w' eq_refl); by destruct (k w') as [[]]. }
  destruct r as [a|e]; [by apply (Hend (Ok a))|].
  destruct Hm as [HK Hm]. destruct e; try (by apply (Hend (Err _)), Hm). by apply HK.
Qed.

(** *** Steps *)

Lemma from_step {A} (g : nat → world → res A * world) (Q : A → fs → Prop) (E : exn → fs → Prop) :
  (∀ n w, w_fs w = f →
    match g n w with
    | (Ok a, w') => Q a (w_fs w') ∧ (mortal → E Killed (w_fs w'))
    | (Err e, w') => E e (w_fs w') ∧ (mortal → E Killed (w_fs w'))
    end) →
  (mortal → E Killed f) →
  from f (step g) Q E.
Proof.
  intros Hg HE w Hw. unfold step. set (w1 := w <| w_db ::= _ |> <| w_fs ::= _ |> <| w_tick := _ |>).
  assert (w_fs w1 = f) as Hw1 by (cbn; by rewrite files_quiet).
  specialize (Hg (w_tick w) w1 Hw1). destruct (fate (w_tick w)) eqn:Hf.
  - by destruct (g (w_tick w) w1) as [[]]; destruct Hg.
  - rewrite Hw1. apply HE. exists (w_tick w). by rewrite Hf.
  - assert mortal as Hm by (exists (w_tick w); by rewrite Hf).
    destruct (g (w_tick w) w1) as [[]]; cbn; by apply (proj2 Hg).
Qed.

Lemma from_look {A} (g : fs → res A) (Q : A → fs → Prop) (E : exn → fs → Prop) :
  match g f with Ok a => Q a f | Err e => E e f end → (mortal → E Killed f) →
  from f (look g) Q E.
Proof.
  intros Hg HE. apply from_step; [|done]. intros n w ->. destruct (g f); by split.
Qed.

Lemma from_change (g : nat → fs → res fs) (Q : unit → fs → Prop) (E : exn → fs → Prop) :
  (∀ n, match g n f with
        | Ok f' => Q tt f' ∧ (mortal → E Killed f')
        | Err e => E e f
        end) → (mortal → E Killed f) →
  from f (change g) Q E.
Proof.
  intros Hg HE. apply from_step; [|done]. intros n w Hw. specialize (Hg n). rewrite Hw.
  destruct (g n f); cbn; [done|]. rewrite Hw. by split.
Qed.

Lemma from_replace_step (src dst : path) (content : string) (Q : unit → fs → Prop) (E : exn → fs → Prop) :
  match replace_file f src dst with
  | Ok f' => Q tt f' ∧ (mortal → E Killed f')
  | Err e => E e f
  end → (mortal → E Killed f) →
  from f (replace_step src dst content) Q E.
Proof.
  intros Hg HE. apply from_step; [|done]. intros n w Hw. rewrite Hw.
  destruct (replace_file f src dst) eqn:Hr; cbn; [done|]. rewrite Hw. by split.
Qed.
End rules.

(** A program that only looks leaves the files as they are. *)
Lemma from_bind_look {A B : Type} (f : fs) (g : fs → res A) (k : A → io B) (a : A)
    (Q : B → fs → Prop) (E : exn → fs → Prop) :
  g f = Ok a → from f (k a) Q E → (mortal → E Killed f) → from f (mbind k (look g)) Q E.
Proof. intros Hg Hk HE. apply from_bind, from_look; [by rewrite Hg|done]. Qed.

Lemma from_bind_ensure {B : Type} (f : fs) (P : Prop) `{Decision P} (e : exn) (k : unit → io B)
    (Q : B → fs → Prop) (E : exn → fs → Prop) :
  P → from f (k tt) Q E → from f (mbind k (ensure P e)) Q E.
Proof. intros HP Hk. apply from_bind, from_ensure; [by intros|done]. Qed.
End fs_logic.
