(* ===== verification/FileTools.v ===== *)
(** * FileTools: atomic file mutations with crash reconciliation
    (src/forge_replay/tools/file_tools.py)

    Reading, listing and searching; a mutation is planned (identities of the file before and
    after), executed through a temporary file that replaces the target, and reconciled from
    its plan after a crash. *)

From S2P Require Import Prelude Text Domain Platform Json ToolIdentity Tables.
From S2P Require Import FileSystem World.

Definition ABSENT_SHA256 : string := "ABSENT".

Module FileReconcileDecision.
Inductive t := COMPLETED | RETRY_SAFE | CONFLICT.
#[global] Instance eq_dec : EqDecision t.
Proof. solve_decision. Defined.
End FileReconcileDecision.

Record FileIdentity := {
  device : Z;
  inode_number : Z;
  size : Z;
  mode : Z;
}.

#[global] Instance FileIdentity_eq_dec : EqDecision FileIdentity.
Proof. solve_decision. Defined.

Record FileMutationPlan := {
  relative_path : string;
  pre_sha256 : string;
  post_sha256 : string;
  post_content : string;
  pre_identity : option FileIdentity;
  parent_identity : FileIdentity;
}.

Record FileMutationReceipt := {
  fr_relative_path : string;
  fr_pre_sha256 : string;
  fr_post_sha256 : string;
  fr_byte_length : Z;
  fr_already_applied : bool;
}.

Record ReplaySafeFileTools := {
  guard : WorkspacePathGuard;
  max_file_bytes : Z;
}.

(** [list_files] and [search] have defaults the executor does not override. *)
Definition MAX_ENTRIES : nat := 500.
Definition MAX_RESULTS : nat := 100.
Definition MAX_SCANNED_FILES : nat := 1000.

(** The order of [sorted] on paths: component by component. *)
Fixpoint path_le (p q : path) : Prop :=
  match p, q with
  | [], _ => True
  | _ :: _, [] => False
  | a :: p', b :: q' => if decide (a = b) then path_le p' q' else String.le a b
  end.

#[global] Instance path_le_dec p q : Decision (path_le p q).
Proof. revert q. induction p; intros []; cbn; try case_decide; apply _. Defined.

(** [bytes(content)] of a JSON value that is not a text. *)
Fixpoint zeros (n : nat) : string :=
  match n with O => "" | S n' => String (ascii_of_nat 0) (zeros n') end.

Definition byte_of_json (j : json) : res ascii :=
  match j with
  | JInt z => if decide (0 ≤ z < 256)%Z then Ok (ascii_of_nat (Z.to_nat z)) else Err ValueError
  | JBool b => Ok (ascii_of_nat (if b then 1 else 0)%nat)
  | _ => Err TypeError
  end.

Fixpoint bytes_of_list (l : list json) : res string :=
  match l with
  | [] => Ok ""
  | j :: l' => a ← byte_of_json j; s ← bytes_of_list l'; Ok (String a s)
  end.

Definition bytes_of_json (j : json) : res string :=
  match j with
  | JStr s => Ok s
  | JInt z => if decide (z < 0)%Z then Err ValueError
              else if decide (2 ^ 63 ≤ z)%Z then Err OverflowError
              else Ok (zeros (Z.to_nat z))
  | JBool b => Ok (zeros (if b then 1 else 0)%nat)
  | JArr l => bytes_of_list l
  | JObj [] => Ok ""
  | JObj _ | JNull | JFloat _ => Err TypeError
  end.

(** A JSON value used as a text. *)
Definition text_arg (e : exn) (j : json) : res string :=
  match j with JStr s => Ok s | _ => Err e end.

Definition carriage_newline : string := String (ascii_of_nat 13) (String newline "").
Definition newline_text : string := String newline "".

Section file_tools.
Context `{Platform} `{Environment}.

(** [_identity]. *)
Definition identity_at (f : fs) (p : path) : res FileIdentity :=
  match stat f p with
  | None => Err FileNotFoundError
  | Some (Dir m) =>
      let names := from_option (entries f) [] (walk_links MAXSYMLINKS f [] p) in
      Ok {| device := m.(i_device); inode_number := m.(i_number);
            size := dir_size (length names); mode := m.(i_mode) |}
  | Some (File m content) =>
      Ok {| device := m.(i_device); inode_number := m.(i_number);
            size := Z.of_nat (String.length content); mode := m.(i_mode) |}
  | Some (Special m) =>
      Ok {| device := m.(i_device); inode_number := m.(i_number); size := 0;
            mode := m.(i_mode) |}
  | Some (Symlink _ _) => Err OSError
  end.

Variable tools : ReplaySafeFileTools.

(** [_check_size]. *)
Definition check_size (content : string) : io unit :=
  ensure (Z.of_nat (String.length content) ≤ tools.(max_file_bytes))%Z ValueError.

(** ** Reading *)

(** [read_text]. *)
Definition read_text (relative_path : string) : io (string * string) :=
  guarded ← look (λ f, resolve_for_read tools.(guard) f relative_path);
  regular ← look (λ f, Ok (is_file f guarded.(absolute)));
  ensure (guarded.(gp_exists) = true ∧ regular = true) FileNotFoundError;;
  content ← look (λ f, read_bytes f guarded.(absolute));
  check_size content;;
  ensure (utf8_valid content = true) UnicodeDecodeError;;
  mret (content, sha256_text content).

(** [_directory]. *)
Definition directory (relative_path : string) : io path :=
  if decide (relative_path = "" ∨ relative_path = ".") then mret tools.(guard).(workspace_root)
  else
    guarded ← look (λ f, resolve_for_read tools.(guard) f relative_path);
    dir ← look (λ f, Ok (is_dir f guarded.(absolute)));
    ensure (guarded.(gp_exists) = true ∧ dir = true) FileNotFoundError;;
    mret guarded.(absolute).

(** [path.relative_to(workspace_root)]. *)
Definition workspace_relative (p : path) : path :=
  drop (length tools.(guard).(workspace_root)) p.

(** The regular files the scans visit: no links, nothing in a [.git] directory. *)
Definition visible_file (f : fs) (p : path) : Prop :=
  is_symlink f p = false ∧ is_file f p = true ∧ ".git" ∉ workspace_relative p.

#[global] Instance visible_file_dec f p : Decision (visible_file f p).
Proof. unfold visible_file. apply _. Defined.

(** [list_files]. *)
Definition list_files (relative_path : string) : io (list string) :=
  root ← directory relative_path;
  look (λ f, Ok (take MAX_ENTRIES
    (join "/" ∘ workspace_relative <$> filter (visible_file f) (merge_sort path_le (below f root))))).

(** The matching lines of one file, numbered from [n]; at most [room] more results. *)
Fixpoint search_lines (matches : string → bool) (file : string) (room : nat) (n : Z)
    (lines : list string) : list json :=
  match lines, room with
  | [], _ | _, O => []
  | line :: lines', S room' =>
      if matches line then
        JObj [("path", JStr file); ("line", JInt n); ("text", JStr (char_take 500 line))]
          :: search_lines matches file room' (n + 1) lines'
      else search_lines matches file room (n + 1) lines'
  end.

(** The text of a file, [None] where the scan skips it. *)
Definition scan_text (f : fs) (p : path) : option string :=
  content ← ok_or_none (read_bytes f p);
  if decide (Z.of_nat (String.length content) ≤ tools.(max_file_bytes))%Z
  then if utf8_valid content then Some content else None
  else None.

(** The loop of [search] over the sorted paths. *)
Fixpoint search_files (matches : string → bool) (f : fs) (scanned : nat) (results : list json)
    (paths : list path) : list json :=
  match paths with
  | [] => results
  | p :: paths' =>
      if decide (MAX_SCANNED_FILES ≤ scanned ∨ MAX_RESULTS ≤ length results)%nat then results
      else if decide (visible_file f p) then
        let found := match scan_text f p with
                     | None => []
                     | Some text => search_lines matches (join "/" (workspace_relative p))
                                      (MAX_RESULTS - length results) 1 (splitlines text)
                     end in
        search_files matches f (S scanned) (results ++ found) paths'
      else search_files matches f scanned results paths'
  end.

(** [search]. *)
Definition search (pattern relative_path : string) : io (list json) :=
  ensure (pattern ≠ "" ∧ (char_length pattern ≤ 256)%Z) ValueError;;
  matches ← lift (result_of_option RegexError (regex pattern));
  root ← directory relative_path;
  look (λ f, Ok (search_files matches f 0 [] (merge_sort path_le (below f root)))).

(** ** Planning *)

(** [plan_write]; a text is its UTF-8 bytes. *)
Definition plan_write (relative_path : string) (content : json) : io FileMutationPlan :=
  post_content ← lift (bytes_of_json content);
  check_size post_content;;
  guarded ← look (λ f, resolve_for_write tools.(guard) f relative_path);
  parent_identity ← look (λ f, identity_at f (parent guarded.(absolute)));
  pre ← (if guarded.(gp_exists) then
           regular ← look (λ f, Ok (is_file f guarded.(absolute)));
           ensure (regular = true) FileConflictError;;
           before ← look (λ f, read_bytes f guarded.(absolute));
           check_size before;;
           pre_identity ← look (λ f, identity_at f guarded.(absolute));
           mret (Some pre_identity, sha256_text before)
         else mret (None, ABSENT_SHA256));
  mret {| relative_path := guarded.(relative); pre_sha256 := pre.2;
          post_sha256 := sha256_text post_content; post_content := post_content;
          pre_identity := pre.1; parent_identity := parent_identity |}.

(** The texts [plan_patch] looks for and puts in: as given, or with the line ends of the
    current text when they do not occur as given. *)
Definition patch_texts (current : string) (old_text new_text : json) : res (string * string) :=
  old ← text_arg TypeError old_text;
  if decide (count old current = 0)%Z then
    if contains carriage_newline current && negb (contains carriage_newline old) then
      new ← text_arg AttributeError new_text;
      Ok (replace newline_text carriage_newline old, replace newline_text carriage_newline new)
    else if negb (contains carriage_newline current) && contains carriage_newline old then
      new ← text_arg AttributeError new_text;
      Ok (replace carriage_newline newline_text old, replace carriage_newline newline_text new)
    else Err FileConflictError
  else if decide (count old current = 1)%Z then
    new ← text_arg TypeError new_text; Ok (old, new)
  else Err FileConflictError.

(** [plan_patch]. *)
Definition plan_patch (relative_path : string) (old_text new_text : json) : io FileMutationPlan :=
  current ← read_text relative_path;
  texts ← lift (patch_texts current.1 old_text new_text);
  let '(effective_old, effective_new) := texts in
  ensure (count effective_old current.1 = 1)%Z FileConflictError;;
  plan_write relative_path (JStr (replace_first effective_old effective_new current.1)).

(** ** Reconciliation and execution *)

(** [reconcile]. *)
Definition reconcile (plan : FileMutationPlan) : io FileReconcileDecision.t :=
  guarded ← look (λ f, resolve_for_write tools.(guard) f plan.(relative_path));
  current_sha256 ← (if guarded.(gp_exists)
                    then look (λ f, sha256_text <$> read_bytes f guarded.(absolute))
                    else mret ABSENT_SHA256);
  if decide (current_sha256 = plan.(post_sha256)) then mret FileReconcileDecision.COMPLETED
  else if decide (current_sha256 ≠ plan.(pre_sha256)) then mret FileReconcileDecision.CONFLICT
  else match plan.(pre_identity) with
       | None => mret FileReconcileDecision.RETRY_SAFE
       | Some pre =>
           try (current ← look (λ f, identity_at f guarded.(absolute));
                mret (if decide (current = pre) then FileReconcileDecision.RETRY_SAFE
                      else FileReconcileDecision.CONFLICT))
             (λ e, match e with
                   | FileNotFoundError => Some (mret FileReconcileDecision.CONFLICT)
                   | _ => None
                   end)
       end.

(** [_receipt]. *)
Definition receipt (plan : FileMutationPlan) (already_applied : bool) : FileMutationReceipt :=
  {| fr_relative_path := plan.(relative_path); fr_pre_sha256 := plan.(pre_sha256);
     fr_post_sha256 := plan.(post_sha256);
     fr_byte_length := Z.of_nat (String.length plan.(post_content));
     fr_already_applied := already_applied |}.

(** The name of the temporary file next to the target. *)
Definition temporary_path (target : path) (random : string) : path :=
  parent target ++ ["." +:+ name target +:+ ".forge-replay-" +:+ random +:+ ".tmp"].

(** The [try] block of [execute]. *)
Definition prepare_and_replace (plan : FileMutationPlan) (target temporary : path) : io unit :=
  change (λ n f, create_exclusive (new_inode n) f temporary);;
  change (λ _ f, write_file plan.(post_content) f temporary);;
  let mode := match plan.(pre_identity) with Some pre => pre.(mode) | None => 420%Z end in
  change (λ _ f, chmod mode f temporary);;
  decision ← reconcile plan;
  ensure (decision = FileReconcileDecision.RETRY_SAFE) FileConflictError;;
  replace_step temporary target plan.(post_content).

(** The [finally] block. *)
Definition remove_temporary (temporary : path) : io unit :=
  left_over ← look (λ f, Ok (exists_at f temporary));
  if left_over : bool then change (λ _ f, unlink f temporary) else mret tt.

(** [execute]. *)
Definition execute_plan (plan : FileMutationPlan) : io FileMutationReceipt :=
  guarded ← look (λ f, resolve_for_write tools.(guard) f plan.(relative_path));
  decision ← reconcile plan;
  match decision with
  | FileReconcileDecision.COMPLETED => mret (receipt plan true)
  | FileReconcileDecision.CONFLICT => raise FileConflictError
  | FileReconcileDecision.RETRY_SAFE =>
      current ← look (λ f, identity_at f (parent guarded.(absolute)));
      ensure (current = plan.(parent_identity)) FileConflictError;;
      n ← ask w_tick;
      let temporary := temporary_path guarded.(absolute) (token n) in
      finally (prepare_and_replace plan guarded.(absolute) temporary)
              (remove_temporary temporary);;
      decision ← reconcile plan;
      ensure (decision = FileReconcileDecision.COMPLETED) FileConflictError;;
      mret (receipt plan false)
  end.
End file_tools.
