(* ===== verification/Process.v ===== *)
(** * Process: bounded subprocess execution
    (src/forge_replay/tools/process_supervisor.py)

    Starting the child, waiting for it and killing its process group after the timeout are
    one external action whose result the environment gives; what the supervisor checks
    before it and keeps of the output after it is computed here, with the bound of what it
    keeps. *)

From S2P Require Import Prelude Text Domain Platform Json ToolIdentity Tables FileSystem World.
From Corelib Require Import SpecFloat.

Record ProcessReceipt := {
  argv : list string;
  cwd : path;
  exit_code : Z;
  timed_out : bool;
  duration_ms : Z;
  stdout : string;
  stderr : string;
  stdout_sha256 : string;
  stderr_sha256 : string;
  stdout_truncated : bool;
  stderr_truncated : bool;
}.

(** [_StreamCapture]: the digest is that of the bytes it was updated with. *)
Record StreamCapture := {
  prefix : string;
  digested : string;
  total : Z;
}.

Definition ProcessSupervisor_init (max_output_bytes : Z) : res Z :=
  if decide (max_output_bytes < 1)%Z then Err ValueError else Ok max_output_bytes.

(** The body of the loop of [_StreamCapture.read]. *)
Definition capture_chunk (limit : Z) (c : StreamCapture) (chunk : string) : StreamCapture :=
  let remaining := (limit - Z.of_nat (String.length c.(prefix)))%Z in
  {| prefix := if decide (0 < remaining)%Z
               then c.(prefix) +:+ str_take (Z.to_nat remaining) chunk else c.(prefix);
     digested := c.(digested) +:+ chunk;
     total := (c.(total) + Z.of_nat (String.length chunk))%Z |}.

(** [_StreamCapture.read]: the first empty chunk ends the stream. *)
Fixpoint capture_read (limit : Z) (c : StreamCapture) (chunks : list string) : StreamCapture :=
  match chunks with
  | [] | EmptyString :: _ => c
  | chunk :: chunks' => capture_read limit (capture_chunk limit c chunk) chunks'
  end.

Definition capture (limit : Z) (chunks : list string) : StreamCapture :=
  capture_read limit {| prefix := ""; digested := ""; total := 0 |} chunks.

Definition ALLOWED_ENVIRONMENT : list string :=
  ["HOME"; "LANG"; "PATH"; "PATHEXT"; "SYSTEMROOT"; "TEMP"; "TMP"; "USERPROFILE"; "WINDIR"].

(** [_environment], from the variables of this process. *)
Definition child_environment (environ extra : list (string * string)) : res (list (string * string)) :=
  (fix add (env : list (string * string)) (extra : list (string * string)) :=
     match extra with
     | [] => Ok env
     | (key, value) :: extra' =>
         assert_result (key ≠ "" ∧ has_char (ascii_of_nat 0) key = false
                        ∧ has_char (ascii_of_nat 0) value = false) ValueError;;
         add (dict_set key value env) extra'
     end)
    (filter (λ kv, upper kv.1 ∈ ALLOWED_ENVIRONMENT) environ) extra.

(** [float(z)], rounded to nearest even; infinite where Python raises OverflowError. *)
Definition float_of_Z (z : Z) : spec_float := binary_normalize 53 1024 z 0 false.

(** The characters of a text. *)
Fixpoint characters_fuel (fuel : nat) (s : string) : list string :=
  match fuel, s with
  | S f, String _ _ => let w := (utf8_head s).2 in str_take w s :: characters_fuel f (str_drop w s)
  | _, _ => []
  end.

Definition characters (s : string) : list string := characters_fuel (String.length s) s.

(** [tuple(value)] of a JSON value. *)
Definition tuple_of_json (j : json) : res (list json) :=
  match j with
  | JArr l => Ok l
  | JStr s => Ok (map JStr (characters s))
  | JObj d => Ok (map (λ kv, JStr kv.1) d)
  | _ => Err TypeError
  end.

(** The items as texts: the supervisor refuses the others. *)
Fixpoint argv_texts (l : list json) : res (list string) :=
  match l with
  | [] => Ok []
  | JStr s :: l' => ss ← argv_texts l'; Ok (s :: ss)
  | _ :: _ => Err ValueError
  end.

Section process.
Context `{Platform} `{Environment}.
Variable max_output_bytes : Z.

(** [float(value)] of a JSON value. *)
Definition float_of_json (j : json) : res spec_float :=
  match j with
  | JInt z => match float_of_Z z with
              | S754_infinity _ => Err OverflowError
              | f => Ok f
              end
  | JFloat f => Ok f
  | JBool b => Ok (float_of_Z (if b then 1 else 0))
  | JStr s => result_of_option ValueError (float_of s)
  | JNull | JArr _ | JObj _ => Err TypeError
  end.

(** [0.1 <= timeout_seconds <= 120] on doubles: 0.1 is the double nearest to a tenth. *)
Definition TENTH : spec_float := S754_finite false 7205759403792794 (-56).

Definition timeout_valid (t : spec_float) : Prop :=
  SFleb TENTH t = true ∧ SFleb t (float_of_Z 120) = true.

#[global] Instance timeout_valid_dec t : Decision (timeout_valid t).
Proof. unfold timeout_valid. apply _. Defined.

(** The receipt of a process that ended. *)
Definition receipt_of_run (command : list string) (directory : path) (p : ProcessRun)
    : ProcessReceipt :=
  let out := capture max_output_bytes p.(px_stdout) in
  let err := capture max_output_bytes p.(px_stderr) in
  {| argv := command; cwd := directory; exit_code := p.(px_exit_code);
     timed_out := p.(px_timed_out); duration_ms := p.(px_duration_ms);
     stdout := out.(prefix); stderr := err.(prefix);
     stdout_sha256 := sha256_text out.(digested); stderr_sha256 := sha256_text err.(digested);
     stdout_truncated := bool_decide (max_output_bytes < out.(total))%Z;
     stderr_truncated := bool_decide (max_output_bytes < err.(total))%Z |}.

(** [ProcessSupervisor.run] without extra environment. *)
Definition run_process (command : list string) (directory : path) (timeout : spec_float)
    : io ProcessReceipt :=
  ensure (command ≠ [] ∧ Forall (λ item, has_char (ascii_of_nat 0) item = false) command)
    ValueError;;
  ensure (timeout_valid timeout) ValueError;;
  working_directory ← look (λ f,
    p ← resolve f directory; assert_result (exists_at f p = true) FileNotFoundError;; Ok p);
  ended ← perform (StartProcess command working_directory)
                  (λ n, spawn n command working_directory);
  mret (receipt_of_run command working_directory ended).
End process.

(** ** What is kept of the output of a process
    what is kept of the output of a process *)

(** The bytes a stream delivers: its chunks up to the first empty one. *)
Fixpoint stream (chunks : list string) : string :=
  match chunks with
  | [] | EmptyString :: _ => ""
  | chunk :: chunks' => chunk +:+ stream chunks'
  end.

Lemma str_take_app n s t :
  str_take n (s +:+ t) = str_take n s +:+ str_take (n - String.length s) t.
Proof.
  revert n. induction s as [|a s IH]; intros n; [cbn; by rewrite Nat.sub_0_r; destruct n|].
  destruct n as [|n]; [done|]. cbn. by rewrite IH.
Qed.

Lemma str_take_all n s : String.length s ≤ n → str_take n s = s.
Proof.
  revert n. induction s as [|a s IH]; intros [|n]; cbn; intros Hn; try done; [lia|].
  rewrite IH; [done|lia].
Qed.

(** What a capture holds after the bytes [s]. *)
Definition captured (limit : Z) (s : string) : StreamCapture :=
  {| prefix := str_take (Z.to_nat limit) s; digested := s; total := Z.of_nat (String.length s) |}.

Lemma capture_chunk_captured limit s chunk :
  capture_chunk limit (captured limit s) chunk = captured limit (s +:+ chunk).
Proof.
  unfold capture_chunk, captured. cbn [prefix digested total]. f_equal.
  - rewrite str_take_app, str_take_length. case_decide as Hr.
    + f_equal. f_equal. lia.
    + replace (Z.to_nat limit - String.length s) with 0 by lia. by rewrite str_app_nil_r.
  - rewrite str_length_app. lia.
Qed.

Lemma capture_read_captured limit chunks : ∀ s,
  capture_read limit (captured limit s) chunks = captured limit (s +:+ stream chunks).
Proof.
  induction chunks as [|[|a c] chunks IH]; intros s; cbn [capture_read stream];
    rewrite ?str_app_nil_r; [done..|].
  rewrite capture_chunk_captured, IH. by rewrite str_app_assoc.
Qed.

Lemma capture_spec limit chunks : capture limit chunks = captured limit (stream chunks).
Proof.
  unfold capture. change (captured limit (stream chunks)) with (captured limit ("" +:+ stream chunks)).
  rewrite <- capture_read_captured. unfold captured. by destruct (Z.to_nat limit).
Qed.

Section process.
Context `{Platform}.

(** However a process writes its output, in whatever chunks, the receipt keeps exactly the
    first [max_output_bytes] bytes of each stream and never more, its digests are those of
    the whole streams, and the flags say whether something was cut. *)
Theorem process_output_is_bounded limit command directory p :
  (1 ≤ limit)%Z →
  let r := receipt_of_run limit command directory p in
  let out := stream p.(px_stdout) in
  let err := stream p.(px_stderr) in
  r.(stdout) = str_take (Z.to_nat limit) out ∧ r.(stderr) = str_take (Z.to_nat limit) err
  ∧ (Z.of_nat (String.length r.(stdout)) ≤ limit)%Z ∧ (Z.of_nat (String.length r.(stderr)) ≤ limit)%Z
  ∧ r.(stdout_sha256) = sha256_text out ∧ r.(stderr_sha256) = sha256_text err
  ∧ (r.(stdout_truncated) = false ↔ r.(stdout) = out)
  ∧ (r.(stderr_truncated) = false ↔ r.(stderr) = err).
Proof.
  intros Hl. cbn zeta. unfold receipt_of_run. rewrite !capture_spec. cbn.
  assert (∀ s, bool_decide (limit < Z.of_nat (String.length s))%Z = false ↔ str_take (Z.to_nat limit) s = s)
    as Hcut.
  { intros s. rewrite bool_decide_eq_false. split; [intros Hn; apply str_take_all; lia|].
    intros Heq. apply (f_equal String.length) in Heq. rewrite str_take_length in Heq. lia. }
  split_and!; try done; try apply Hcut; rewrite str_take_length; lia.
Qed.
End process.

(** Witness of [process_output_is_bounded]: five bytes in three chunks, two are kept. *)
Lemma process_output_is_bounded_witness :
  let p := {| px_exit_code := 0; px_timed_out := false; px_duration_ms := 1;
              px_stdout := ["a"; "bcd"; "e"; ""; "late"]; px_stderr := [] |} in
  (@receipt_of_run plain_platform 2 ["cmd"] ["work"] p).(stdout) = "ab"
  ∧ (@receipt_of_run plain_platform 2 ["cmd"] ["work"] p).(stdout_sha256) = "abcde".
Proof.
  intros p. destruct (@process_output_is_bounded plain_platform 2 ["cmd"] ["work"] p)
    as (Ho & _ & _ & _ & Hs & _); [lia|].
  split; [exact Ho|exact Hs].
Defined.
