(* ===== verification/Executors.v ===== *)
(** * Executors: durable adapters between tools and attempts
    (src/forge_replay/runtime/file_executor.py and shell_executor.py)

    Both dispatch an attempt, a durable intent, before they act and finish it with a
    receipt or an error after it; recovery starts from the dispatched attempt. *)

From S2P Require Import Prelude Text Domain Platform Json Events Projection ToolIdentity Tables.
From S2P Require Import Ledger Leases Tools Runs FileSystem World FileTools Process.

(** [json.dumps(value, ensure_ascii=False)]: with its default separators. *)
Definition comma_space : string := ", ".

Section dumps.
Context `{Platform}.
Fixpoint json_dumps (j : json) : string :=
  match j with
  | JNull => "null"
  | JBool true => "true"
  | JBool false => "false"
  | JInt z => int_str z
  | JFloat f => float_repr f
  | JStr s => json_str s
  | JArr l => "[" +:+ join comma_space (map json_dumps l) +:+ "]"
  | JObj l =>
      "{" +:+ join comma_space (map (λ kv, json_str kv.1 +:+ ": " +:+ json_dumps kv.2) l) +:+ "}"
  end.
End dumps.

(** [str(path)]. *)
Definition path_text (p : path) : string := "/" +:+ join "/" p.

(** A file path among the arguments: what the guard does with a value that is no text.
    The store accepts a mutation only with a text for its path. *)
Definition path_arg (j : json) : res string :=
  match j with
  | JStr s => Ok s
  | JNull | JBool false | JArr [] | JObj [] => Err PathGuardError
  | JInt z => Err (if decide (z = 0)%Z then PathGuardError else TypeError)
  | JArr _ | JObj _ => Err AttributeError
  | JBool true | JFloat _ => Err TypeError
  end.

(** The pattern of [search]: [not pattern or len(pattern) > 256], then [re.compile]. *)
Definition pattern_arg (j : json) : res string :=
  match j with
  | JStr s => Ok s
  | JNull | JBool false | JArr [] | JObj [] => Err ValueError
  | JInt z => Err (if decide (z = 0)%Z then ValueError else TypeError)
  | JArr l => Err (if decide (256 < length l)%nat then ValueError else TypeError)
  | JObj l => Err (if decide (256 < length l)%nat then ValueError else TypeError)
  | JBool true | JFloat _ => Err TypeError
  end.

Abbreviation dict := (list (string * json)).

(** [args[key]] and [args.get(key, default)]. *)
Definition item (key : string) (d : dict) : res json := result_of_option KeyError (dict_get key d).

(** The dictionary [d] updated by [e]. *)
Definition dict_update (d e : dict) : dict := fold_left (λ acc kv, dict_set kv.1 kv.2 acc) e d.

Definition identity_json (i : FileIdentity) : json :=
  JObj [("device", JInt i.(device)); ("inode", JInt i.(inode_number)); ("size", JInt i.(size));
        ("mode", JInt i.(mode))].

(** [asdict(receipt)]. *)
Definition mutation_receipt_fields (r : FileMutationReceipt) : dict :=
  [("relative_path", JStr r.(fr_relative_path)); ("pre_sha256", JStr r.(fr_pre_sha256));
   ("post_sha256", JStr r.(fr_post_sha256)); ("byte_length", JInt r.(fr_byte_length));
   ("already_applied", JBool r.(fr_already_applied))].

Definition READ_TOOLS : list string := ["read_file"; "list_files"; "search"].
Definition FILE_TOOLS : list string :=
  ["read_file"; "list_files"; "search"; "write_file"; "patch_file"].

(** The default media type of a tool's output. *)
Definition OUTPUT_MEDIA_TYPE : string := TEXT_MEDIA_TYPE.

(** A test hook: called at two stages of an execution, it may raise. *)
Abbreviation hook_t := (option (string → string → res unit)).

Definition run_hook (hook : hook_t) (stage attempt_id : string) : io unit :=
  match hook with None => mret tt | Some h => lift (h stage attempt_id) end.

Section executors.
Context `{Platform} `{Environment} (limits : BlobLimits).

(** [json.loads(call.args_json)]: the store only writes objects there. *)
Definition load_args (text : string) : res dict :=
  j ← result_of_option ValueError (json_loads text);
  match j with JObj d => Ok d | _ => Err TypeError end.

Definition sb_of_put (content media_type : string) : io StoredBlob :=
  call (λ o _, put_blob limits o content media_type).

(** [store.finish_tool_attempt] as the executors call it. *)
Definition finish (process_instance_id attempt_id : string) (out : AttemptOutcome.t)
    (receipt : option dict) (output : option string) (media : string) (error : option dict)
    : io ToolAttemptRecord :=
  call (λ o ctx, finish_tool_attempt limits o attempt_id out process_instance_id receipt output
                   media error false ctx).

Definition finish_failed (pid attempt_id : string) (e : exn) : io ToolAttemptRecord :=
  text ← message e;
  finish pid attempt_id AttemptOutcome.FAILED None None OUTPUT_MEDIA_TYPE
    (Some [("class", JStr (exn_name e)); ("message", JStr text)]).

Definition finish_uncertain (pid attempt_id evidence : string) : io ToolAttemptRecord :=
  finish pid attempt_id AttemptOutcome.UNCERTAIN None None OUTPUT_MEDIA_TYPE
    (Some [("evidence", JStr evidence)]).

(** ** DurableFileExecutor *)

Record DurableFileExecutor := {
  fx_tools : ReplaySafeFileTools;
  fx_process_instance_id : string;
  fx_hook : hook_t;
}.

Variable fx : DurableFileExecutor.

(** [_plan]. *)
Definition plan_tool (tool_name : string) (args : dict) : io (json * option FileMutationPlan) :=
  if decide (tool_name ∈ READ_TOOLS) then
    mret (JObj (dict_update [("kind", JStr tool_name)] args), None)
  else
    plan ← (if decide (tool_name = "write_file") then
              path ← lift (item "path" args);
              content ← lift (item "content" args);
              path ← lift (path_arg path);
              plan_write fx.(fx_tools) path content
            else if decide (tool_name = "patch_file") then
              path ← lift (item "path" args);
              old_text ← lift (item "old_text" args);
              new_text ← lift (item "new_text" args);
              path ← lift (path_arg path);
              plan_patch fx.(fx_tools) path old_text new_text
            else raise ValueError);
    content_blob ← sb_of_put plan.(post_content) "application/octet-stream";
    mret (JObj [("kind", JStr tool_name); ("relative_path", JStr plan.(relative_path));
                ("pre_sha256", JStr plan.(pre_sha256)); ("post_sha256", JStr plan.(post_sha256));
                ("post_content_blob_sha256", JStr content_blob.(sb_sha256));
                ("pre_identity", from_option identity_json JNull plan.(pre_identity));
                ("parent_identity", identity_json plan.(parent_identity))],
          Some plan).

(** The effect of a dispatched file tool: its receipt and its output. *)
Definition file_effect (tool_name : string) (args : dict) (plan : option FileMutationPlan)
    : io (dict * option string) :=
  if decide (tool_name = "read_file") then
    path ← lift (item "path" args);
    text ← lift (path_arg path);
    r ← read_text fx.(fx_tools) text;
    mret ([("path", path); ("sha256", JStr r.2);
           ("bytes", JInt (Z.of_nat (String.length r.1)))], Some r.1)
  else if decide (tool_name = "list_files") then
    path ← lift (path_arg (default (JStr ".") (dict_get "path" args)));
    names ← list_files fx.(fx_tools) path;
    mret ([("entries", JInt (Z.of_nat (length names)))], Some (json_dumps (JArr (map JStr names))))
  else if decide (tool_name = "search") then
    pattern ← lift (item "pattern" args);
    pattern ← lift (pattern_arg pattern);
    path ← lift (path_arg (default (JStr ".") (dict_get "path" args)));
    matches ← search fx.(fx_tools) pattern path;
    mret ([("matches", JInt (Z.of_nat (length matches)))], Some (json_dumps (JArr matches)))
  else match plan with
       | Some plan =>
           r ← execute_plan fx.(fx_tools) plan;
           mret (mutation_receipt_fields r, None)
       | None => raise ValueError
       end.

(** [_execute_dispatched]. *)
Definition execute_dispatched (tool_call_id attempt_id tool_name : string) (args : dict)
    (plan : option FileMutationPlan) : io ToolAttemptRecord :=
  try (r ← on_behalf (ForAttempt tool_call_id attempt_id) (file_effect tool_name args plan);
       run_hook fx.(fx_hook) "after_effect_before_receipt" attempt_id;;
       finish fx.(fx_process_instance_id) attempt_id AttemptOutcome.SUCCEEDED (Some r.1) r.2
         OUTPUT_MEDIA_TYPE None)
    (λ e, match e with
          | FileConflictError =>
              Some (text ← message e; finish_uncertain fx.(fx_process_instance_id) attempt_id text)
          | _ => Some (finish_failed fx.(fx_process_instance_id) attempt_id e)
          end).

Definition dispatch (pid tool_call_id : string) (action_plan : json) (kind : string)
    : io ToolAttemptRecord :=
  call (λ o ctx, dispatch_tool_call o tool_call_id action_plan
          [("kind", JStr kind); ("version", JInt 1)] pid None ctx).

(** The value of a computation, or the exception it raised; nothing is caught when the
    process died. *)
Definition outcome_of {A} (m : io A) : io (res A) :=
  try (a ← m; mret (Ok a)) (λ e, Some (mret (Err e))).

(** [DurableFileExecutor.execute]. *)
Definition file_execute (tool_call_id : string) : io ToolAttemptRecord :=
  let pid := fx.(fx_process_instance_id) in
  call_record ← query (get_tool_call tool_call_id);
  args ← lift (load_args call_record.(tr_args_json));
  planned ← outcome_of (plan_tool call_record.(tr_tool_name) args);
  match planned with
  | Err e =>
      attempt ← dispatch pid tool_call_id
        (JObj [("kind", JStr "planning_failed"); ("error_class", JStr (exn_name e))])
        "in_process_file_executor";
      finish_failed pid attempt.(at_attempt_id) e
  | Ok (action_plan, mutation_plan) =>
      attempt ← dispatch pid tool_call_id action_plan "in_process_file_executor";
      run_hook fx.(fx_hook) "after_dispatch_before_effect" attempt.(at_attempt_id);;
      execute_dispatched attempt.(at_tool_call_id) attempt.(at_attempt_id)
        call_record.(tr_tool_name) args mutation_plan
  end.

(** A [FileIdentity] from its fields, with the integers the executor wrote. *)
Definition identity_of_json (j : json) : res FileIdentity :=
  match j with
  | JObj d =>
      match dict_get "device" d, dict_get "inode" d, dict_get "size" d, dict_get "mode" d with
      | Some (JInt dev), Some (JInt ino), Some (JInt sz), Some (JInt m) =>
          if decide (length d = 4)%nat
          then Ok {| device := dev; inode_number := ino; size := sz; mode := m |}
          else Err TypeError
      | _, _, _, _ => Err TypeError
      end
  | _ => Err TypeError
  end.

(** [_restore_plan]. *)
Definition restore_plan (serialized : json) : io FileMutationPlan :=
  d ← lift (match serialized with JObj d => Ok d | _ => Err TypeError end);
  pre ← lift (item "pre_identity" d);
  path ← lift (r ← item "relative_path" d; text_arg TypeError r);
  pre_sha ← lift (r ← item "pre_sha256" d; text_arg TypeError r);
  post_sha ← lift (r ← item "post_sha256" d; text_arg TypeError r);
  blob_sha ← lift (r ← item "post_content_blob_sha256" d; text_arg TypeError r);
  blob ← query (get_blob blob_sha);
  pre_identity ← lift (match pre with
                       | JNull | JObj [] => Ok None
                       | j => Some <$> identity_of_json j
                       end);
  parent ← lift (r ← item "parent_identity" d; identity_of_json r);
  mret {| relative_path := path; pre_sha256 := pre_sha; post_sha256 := post_sha;
          post_content := blob.(sb_content); pre_identity := pre_identity;
          parent_identity := parent |}.

(** The part of [recover] after the two records are read. *)
Definition recover_dispatched_file (attempt : ToolAttemptRecord) (call_record : ToolCallRecord)
    : io ToolAttemptRecord :=
  let pid := fx.(fx_process_instance_id) in
  if decide (attempt.(at_state) ≠ ToolCallState.DISPATCHED) then mret attempt
  else
    args ← lift (load_args call_record.(tr_args_json));
    let execute := execute_dispatched attempt.(at_tool_call_id) attempt.(at_attempt_id)
                     call_record.(tr_tool_name) args in
    if decide (call_record.(tr_tool_name) ∈ READ_TOOLS) then execute None
    else match call_record.(tr_action_plan) with
         | None | Some JNull =>
             finish_uncertain pid attempt.(at_attempt_id) "durable file action plan is missing"
         | Some serialized =>
             plan ← restore_plan serialized;
             decision ← reconcile fx.(fx_tools) plan;
             match decision with
             | FileReconcileDecision.CONFLICT =>
                 finish_uncertain pid attempt.(at_attempt_id)
                   "workspace no longer matches pre or post hash"
             | _ => execute (Some plan)
             end
         end.

(** [DurableFileExecutor.recover]. *)
Definition file_recover (attempt_id : string) : io ToolAttemptRecord :=
  attempt ← query (get_tool_attempt attempt_id);
  call_record ← query (get_tool_call attempt.(at_tool_call_id));
  recover_dispatched_file attempt call_record.

(** ** DurableShellExecutor *)

Record DurableShellExecutor := {
  sx_max_output_bytes : Z;   (** of its [ProcessSupervisor] *)
  sx_guard : WorkspacePathGuard;
  sx_process_instance_id : string;
  sx_hook : hook_t;
}.

Variable sx : DurableShellExecutor.

(** [_cwd]. *)
Definition shell_cwd (relative : option json) : io path :=
  match default JNull relative with
  | JNull | JStr "" | JStr "." => mret sx.(sx_guard).(workspace_root)
  | j =>
      path ← lift (path_arg j);
      guarded ← look (λ f, resolve_for_read sx.(sx_guard) f path);
      dir ← look (λ f, Ok (is_dir f guarded.(absolute)));
      ensure (guarded.(gp_exists) = true ∧ dir = true) ValueError;;
      mret guarded.(absolute)
  end.

(** [asdict(receipt)] without the captured bytes. *)
Definition process_receipt_fields (r : ProcessReceipt) : dict :=
  [("argv", JArr (map JStr r.(argv))); ("cwd", JStr (path_text r.(cwd)));
   ("exit_code", JInt r.(exit_code)); ("timed_out", JBool r.(timed_out));
   ("duration_ms", JInt r.(duration_ms)); ("stdout_sha256", JStr r.(stdout_sha256));
   ("stderr_sha256", JStr r.(stderr_sha256)); ("stdout_truncated", JBool r.(stdout_truncated));
   ("stderr_truncated", JBool r.(stderr_truncated))].

(** The JSON output of a process: its captured streams as texts. *)
Definition process_output (r : ProcessReceipt) : string :=
  json_dumps (JObj [("stderr", JStr (decode_replace r.(stderr)));
                    ("stdout", JStr (decode_replace r.(stdout)))]).

(** The [try] block of [execute]: [args["argv"]] is there, the action plan has it. *)
Definition supervise (argv_arg : json) (timeout : json) (directory : path) : io ProcessReceipt :=
  items ← lift (tuple_of_json argv_arg);
  seconds ← lift (float_of_json timeout);
  command ← lift (argv_texts items);
  run_process sx.(sx_max_output_bytes) command directory seconds.

(** [DurableShellExecutor.execute]. *)
Definition shell_execute (tool_call_id : string) : io ToolAttemptRecord :=
  let pid := sx.(sx_process_instance_id) in
  call_record ← query (get_tool_call tool_call_id);
  ensure (call_record.(tr_tool_name) = "run_process") ValueError;;
  args ← lift (load_args call_record.(tr_args_json));
  directory ← shell_cwd (dict_get "cwd" args);
  argv_arg ← lift (item "argv" args);
  let timeout := default (JInt 30) (dict_get "timeout_seconds" args) in
  attempt ← dispatch pid tool_call_id
    (JObj [("kind", JStr "run_process"); ("argv", argv_arg); ("cwd", JStr (path_text directory));
           ("timeout_seconds", timeout)])
    "process_supervisor";
  run_hook sx.(sx_hook) "after_dispatch_before_process_start" attempt.(at_attempt_id);;
  try (r ← on_behalf (ForAttempt attempt.(at_tool_call_id) attempt.(at_attempt_id))
             (supervise argv_arg timeout directory);
       run_hook sx.(sx_hook) "after_process_exit_before_receipt" attempt.(at_attempt_id);;
       finish pid attempt.(at_attempt_id) AttemptOutcome.SUCCEEDED
         (Some (process_receipt_fields r)) (Some (process_output r)) "application/json" None)
    (λ e, Some (finish_failed pid attempt.(at_attempt_id) e)).

(** [DurableShellExecutor.recover]: a process is never started again. *)
Definition shell_recover (attempt_id : string) : io ToolAttemptRecord :=
  attempt ← query (get_tool_attempt attempt_id);
  if decide (attempt.(at_state) ≠ ToolCallState.DISPATCHED) then mret attempt
  else finish_uncertain sx.(sx_process_instance_id) attempt_id
         ("process dispatch was durable but no terminal receipt exists; "
          +:+ "arbitrary commands are not automatically replayed").
End executors.
