(* ===== verification/PromptSet.v ===== *)
(** * PromptSet: the bounded working set of a model prompt
    (src/forge_replay/runtime/prompt_working_set.py)

    The selection of events, their hydration from blobs or from a cache, and the rendering.
    A prompt that is built with a faithful cache is the prompt that the store gives. *)

From S2P Require Import Prelude Text Domain Platform Json Events Projection ToolIdentity Tables.
From S2P Require Import Ledger Runs FileSystem World FileTools Executors.

Definition PROMPT_RECENT_EVENT_LIMIT : Z := 64.
Definition PROMPT_TRANSCRIPT_ENTRY_LIMIT : Z := 12.

(** [_SHA256_RE.fullmatch]. *)
Definition lower_hex (a : ascii) : bool := byte_in 48 57 a || byte_in 97 102 a.

Fixpoint all_chars (p : ascii → bool) (s : string) : bool :=
  match s with EmptyString => true | String a s' => p a && all_chars p s' end.

Definition is_sha256 (s : string) : bool :=
  all_chars lower_hex s && bool_decide (String.length s = 64)%nat.

Module Role.
Inductive t := ASSISTANT | TOOL | APPROVAL.
#[global] Instance eq_dec : EqDecision t.
Proof. solve_decision. Defined.
Definition text (r : t) : string :=
  match r with ASSISTANT => "assistant" | TOOL => "tool" | APPROVAL => "approval" end.
End Role.

Record PromptWorkingSetEntry := {
  en_event_id : string;
  en_seq : Z;
  en_event_type : EventType.t;
  en_role : Role.t;
  en_text : string;
  en_source_blob_sha256 : option string;
}.

#[global] Instance PromptWorkingSetEntry_eq_dec : EqDecision PromptWorkingSetEntry.
Proof. solve_decision. Defined.

(** [PromptWorkingSetEntry.__post_init__]. *)
Definition entry_init (e : PromptWorkingSetEntry) : res PromptWorkingSetEntry :=
  assert_result (e.(en_event_id) ≠ "" ∧ (1 ≤ e.(en_seq))%Z) ValueError;;
  assert_result (from_option is_sha256 true e.(en_source_blob_sha256) = true) ValueError;;
  Ok e.

(** [rendered_line]. *)
Definition rendered_line (e : PromptWorkingSetEntry) : string :=
  Role.text e.(en_role) +:+ ": " +:+ e.(en_text).

Record PromptWorkingSet := {
  ws_run_id : string;
  ws_user_message : string;
  ws_entries : list PromptWorkingSetEntry;
}.

(** Every element is below its successor, through [seq]. *)
Fixpoint increasing (l : list Z) : bool :=
  match l with
  | a :: (b :: _) as l' => bool_decide (a < b)%Z && increasing l'
  | _ => true
  end.

(** [PromptWorkingSet.__post_init__]. *)
Definition working_set_init (w : PromptWorkingSet) : res PromptWorkingSet :=
  assert_result (w.(ws_run_id) ≠ "" ∧ has_char (ascii_of_nat 0) w.(ws_run_id) = false) ValueError;;
  assert_result (Z.of_nat (length w.(ws_entries)) ≤ PROMPT_TRANSCRIPT_ENTRY_LIMIT)%Z ValueError;;
  assert_result (increasing (en_seq <$> w.(ws_entries)) = true) ValueError;;
  Ok w.

(** The store surface a prompt needs ([PromptWorkingSetStore]). *)
Record PromptWorkingSetStore := {
  ps_load_recent_run_events : string → Z → io (list EventEnvelope);
  ps_get_run_user_message : string → io string;
  ps_get_blob : string → io StoredBlob;
  ps_run_event_sequences_contiguous : bool;
}.

(** [_validate_limits]. *)
Definition validate_limits (event_limit transcript_limit : Z) : res unit :=
  assert_result (1 ≤ event_limit ≤ 10000)%Z ValueError;;
  assert_result (1 ≤ transcript_limit ≤ PROMPT_TRANSCRIPT_ENTRY_LIMIT)%Z ValueError;;
  assert_result (transcript_limit ≤ event_limit)%Z ValueError.

(** The loop of [_validate_event_window]. *)
Fixpoint validate_sequence (run : string) (contiguous : bool) (previous : option Z)
    (events : list EventEnvelope) : res unit :=
  match events with
  | [] => Ok tt
  | e :: events' =>
      assert_result (e.(run_id) = Some run) PromptWorkingSetIntegrityError;;
      match previous with
      | None => Ok tt
      | Some p =>
          assert_result (p < e.(seq))%Z PromptWorkingSetIntegrityError;;
          assert_result (contiguous = true → e.(seq) = p + 1)%Z PromptWorkingSetIntegrityError
      end;;
      validate_sequence run contiguous (Some e.(seq)) events'
  end.

(** [_validate_event_window]. *)
Definition validate_event_window (events : list EventEnvelope) (run : string)
    (expected_through_seq : option Z) (event_limit : Z) (contiguous : bool) : res unit :=
  validate_sequence run contiguous None events;;
  match expected_through_seq with
  | None => Ok tt
  | Some n =>
      assert_result (seq <$> last events = Some n) PromptWorkingSetIntegrityError;;
      assert_result (contiguous = true → Z.of_nat (length events) = event_limit →
                     seq <$> head events = Some (n - event_limit + 1)%Z)
        PromptWorkingSetIntegrityError
  end.

(** The payload classes a transcript shows. *)
Definition is_relevant (p : RuntimeEventPayload) : bool :=
  match p with
  | ModelResponseReceivedPayload _ _ _ _ | ToolExecutionSucceededPayload _ _ _ _ _
  | ToolExecutionFailedPayload _ _ _ _ | ToolExecutionUncertainPayload _ _ _
  | ModelOutputRejectedPayload _ _ | ApprovalDecidedPayload _ _ _ _ _ => true
  | _ => false
  end.

(** [relevant[-transcript_limit:]]. *)
Definition select_entries (transcript_limit : Z) (events : list EventEnvelope) : list EventEnvelope :=
  let relevant := filter (λ e, is_relevant e.(payload) = true) events in
  drop (length relevant - Z.to_nat transcript_limit) relevant.

(** [_validate_text_media_type]. *)
Definition validate_text_media_type (media_type : string) : res unit :=
  assert_result (blank media_type = false) PromptWorkingSetIntegrityError;;
  let base_type := lower (strip (before_char ";"%char media_type)) in
  assert_result (str_prefix "text/" base_type = true ∨ base_type = "application/json"
                 ∨ str_prefix "application/" base_type = true ∧ ends_with "+json" base_type = true)
    PromptWorkingSetIntegrityError.

(** The truth of an optional text. *)
Definition truthy (s : option string) : bool :=
  match s with None | Some EmptyString => false | Some _ => true end.

Section prompt.
Context `{Platform}.

(** [_entry_contract]: the role, the blob and the inline text of a line. A digest has no
    character that [json.dumps] would escape. *)
Definition entry_contract (e : EventEnvelope) : res (Role.t * option string * option string) :=
  match e.(payload) with
  | ModelResponseReceivedPayload _ blob _ _ => Ok (Role.ASSISTANT, Some blob, None)
  | ToolExecutionSucceededPayload _ _ receipt_sha256 output_blob_sha256 _ =>
      Ok (Role.TOOL, output_blob_sha256,
          if truthy output_blob_sha256 then None
          else Some (json_dumps (JObj [("receipt", JStr receipt_sha256)])))
  | (ToolExecutionFailedPayload _ _ _ _ | ToolExecutionUncertainPayload _ _ _) as p =>
      Ok (Role.TOOL, None, Some (print_json (model_dump p)))
  | ModelOutputRejectedPayload _ reason =>
      Ok (Role.TOOL, None, Some ("the previous model tool call was rejected; " +:+ reason))
  | ApprovalDecidedPayload _ _ _ decision _ => Ok (Role.APPROVAL, None, Some decision)
  | _ => Err PromptWorkingSetIntegrityError
  end.

Variable store : PromptWorkingSetStore.

(** [_blob_bytes]. *)
Definition blob_bytes (sha256 : string) : io string :=
  ensure (is_sha256 sha256 = true) PromptWorkingSetIntegrityError;;
  blob ← store.(ps_get_blob) sha256;
  ensure (blob.(sb_sha256) = sha256) PromptWorkingSetIntegrityError;;
  ensure (blob.(sb_byte_length) = Z.of_nat (String.length blob.(sb_content)))
    PromptWorkingSetIntegrityError;;
  lift (validate_text_media_type blob.(sb_media_type));;
  ensure (sha256_text blob.(sb_content) = sha256) PromptWorkingSetIntegrityError;;
  mret blob.(sb_content).

(** The text of a line: the part of [_hydrate_entry] that reads blobs. *)
Definition entry_text (e : EventEnvelope) (inline_text : option string) : io string :=
  match e.(payload) with
  | ModelResponseReceivedPayload _ blob _ _ =>
      content ← blob_bytes blob;
      ensure (utf8_valid content = true) UnicodeDecodeError;;
      mret content
  | ToolExecutionSucceededPayload _ _ _ (Some (String _ _ as blob)) _ =>
      content ← blob_bytes blob;
      mret (decode_replace content)
  | _ => lift (result_of_option PromptWorkingSetIntegrityError inline_text)
  end.

(** [_hydrate_entry]. *)
Definition hydrate_entry (e : EventEnvelope) : io PromptWorkingSetEntry :=
  contract ← lift (entry_contract e);
  let '(role, source_blob_sha256, inline_text) := contract in
  text ← entry_text e inline_text;
  lift (entry_init {| en_event_id := e.(event_id); en_seq := e.(seq);
                      en_event_type := event_type e; en_role := role; en_text := text;
                      en_source_blob_sha256 := source_blob_sha256 |}).

(** The key of [_candidate_entries]. *)
Definition candidate_key (e : PromptWorkingSetEntry)
    : string * Z * EventType.t * option string :=
  (e.(en_event_id), e.(en_seq), e.(en_event_type), e.(en_source_blob_sha256)).

(** A lookup in the dictionary of [_candidate_entries]: the last entry with a key wins. *)
Definition find_candidate (key : string * Z * EventType.t * option string)
    (entries : list PromptWorkingSetEntry) : option PromptWorkingSetEntry :=
  last (filter (λ e, candidate_key e = key) entries).

(** [_reuse_or_hydrate_entry]. *)
Definition reuse_or_hydrate_entry (candidates : list PromptWorkingSetEntry) (e : EventEnvelope)
    : io PromptWorkingSetEntry :=
  contract ← lift (entry_contract e);
  let '(role, blob_sha256, inline_text) := contract in
  match find_candidate (e.(event_id), e.(seq), event_type e, blob_sha256) candidates with
  | Some candidate =>
      if decide (candidate.(en_role) = role
                 ∧ from_option (λ t, candidate.(en_text) = t) True inline_text)
      then mret candidate else hydrate_entry e
  | None => hydrate_entry e
  end.

Fixpoint reuse_or_hydrate (candidates : list PromptWorkingSetEntry) (events : list EventEnvelope)
    : io (list PromptWorkingSetEntry) :=
  match events with
  | [] => mret []
  | e :: events' =>
      entry ← reuse_or_hydrate_entry candidates e;
      entries ← reuse_or_hydrate candidates events';
      mret (entry :: entries)
  end.

(** [build_authoritative_prompt_working_set]. *)
Definition build_authoritative_prompt_working_set (run : string) (expected_through_seq : option Z)
    (cached_candidate : option PromptWorkingSet) (event_limit transcript_limit : Z)
    : io PromptWorkingSet :=
  ensure (run ≠ "" ∧ has_char (ascii_of_nat 0) run = false) ValueError;;
  lift (validate_limits event_limit transcript_limit);;
  ensure (from_option (λ n, 1 ≤ n)%Z True expected_through_seq) ValueError;;
  events ← store.(ps_load_recent_run_events) run event_limit;
  ensure (Z.of_nat (length events) ≤ event_limit)%Z PromptWorkingSetIntegrityError;;
  lift (validate_event_window events run expected_through_seq event_limit
          store.(ps_run_event_sequences_contiguous));;
  let selected := select_entries transcript_limit events in
  let usable := match cached_candidate with
                | Some c => if decide (c.(ws_run_id) = run) then Some c else None
                | None => None
                end in
  entries ← reuse_or_hydrate (from_option ws_entries [] usable) selected;
  user_message ← match usable with
                 | Some c => mret c.(ws_user_message)
                 | None => store.(ps_get_run_user_message) run
                 end;
  lift (working_set_init {| ws_run_id := run; ws_user_message := user_message;
                            ws_entries := entries |}).

(** [render_agent_prompt]. *)
Definition render_agent_prompt (w : PromptWorkingSet) (step : Z) (process_tools_enabled : bool)
    : res string :=
  assert_result (0 ≤ step)%Z ValueError;;
  let process_tool := if process_tools_enabled
                      then ", run_process(argv, cwd='.', timeout_seconds=30)" else "" in
  let process_rule := if process_tools_enabled
    then " run_process argv must be a JSON list and is not a shell string."
    else " Process execution is disabled; edit files without invoking commands." in
  let nl := newline_text in
  Ok ("You are ForgeReplay, a coding agent. Return exactly one JSON <tool> call or one "
      +:+ "<final> answer. Available tools: list_files(path='.'), read_file(path), "
      +:+ "search(pattern, path='.'), write_file(path, content), "
      +:+ "patch_file(path, old_text, new_text)" +:+ process_tool +:+ "."
      +:+ process_rule +:+ nl +:+ nl
      +:+ "User request:" +:+ nl +:+ w.(ws_user_message) +:+ nl +:+ nl
      +:+ "Step: " +:+ int_str step +:+ nl +:+ "Transcript:" +:+ nl
      +:+ join nl (rendered_line <$> w.(ws_entries))).

End prompt.

Section sqlite.
Context `{Platform} `{Environment}.

(** The event store as a [PromptWorkingSetStore]: it does not promise contiguous sequences. *)
Definition sqlite_prompt_store : PromptWorkingSetStore := {|
  ps_load_recent_run_events run limit := query (load_recent_run_events run limit);
  ps_get_run_user_message run := query (get_run_user_message run);
  ps_get_blob sha256 := query (get_blob sha256);
  ps_run_event_sequences_contiguous := false;
|}.
End sqlite.

(** ** A cached prompt is the authoritative prompt

    The working set of a prompt can be built from a cached candidate. Entries are
    content-addressed, so a candidate that was once hydrated gives the same prompt. *)

Section prompt.
Context `{Platform}.

(** A store whose answers do not change. *)
Definition static_store (load : string → Z → res (list EventEnvelope)) (user_message : string → res string)
    (blob : string → res StoredBlob) (contiguous : bool) : PromptWorkingSetStore := {|
  ps_load_recent_run_events run n := lift (load run n);
  ps_get_run_user_message run := lift (user_message run);
  ps_get_blob sha := lift (blob sha);
  ps_run_event_sequences_contiguous := contiguous;
|}.

Context (load : string → Z → res (list EventEnvelope)) (user_message : string → res string)
  (blob : string → res StoredBlob) (contiguous : bool).

Abbreviation store := (static_store load user_message blob contiguous).

(** A program whose result is fixed. *)
Definition fixed {A} (m : io A) : Prop := ∃ r, ∀ w, m w = (r, w).

Lemma fixed_lift {A} (r : res A) : fixed (lift r).
Proof. by exists r. Qed.

Lemma fixed_bind {A B} (m : io A) (k : A → io B) : fixed m → (∀ a, fixed (k a)) → fixed (mbind k m).
Proof.
  intros [[a|e] Hr] Hk; [destruct (Hk a) as [r Hr']; exists r|exists (Err e)];
    intros w; by rewrite io_bind_eq, Hr.
Qed.

Lemma blob_bytes_fixed sha : fixed (blob_bytes store sha).
Proof. unfold blob_bytes. repeat (apply fixed_bind; [apply fixed_lift|intros ?]). apply fixed_lift. Qed.

Lemma entry_text_fixed e inline : fixed (entry_text store e inline).
Proof.
  unfold entry_text. destruct (payload e); try apply fixed_lift.
  - apply fixed_bind; [apply blob_bytes_fixed|intros c].
    apply fixed_bind; [apply fixed_lift|intros _; apply (fixed_lift (Ok c))].
  - repeat case_match; try apply fixed_lift.
    apply fixed_bind; [apply blob_bytes_fixed|intros c; apply (fixed_lift (Ok (decode_replace c)))].
Qed.

(** An entry of the cache: some event was hydrated to it. *)
Definition hydrated (en : PromptWorkingSetEntry) : Prop :=
  ∃ e w, (hydrate_entry store e w).1 = Ok en.

(** A cache: the message of the run and hydrated entries. *)
Definition faithful (c : PromptWorkingSet) : Prop :=
  user_message c.(ws_run_id) = Ok c.(ws_user_message) ∧ Forall hydrated c.(ws_entries).

Lemma entry_init_id e en : entry_init e = Ok en → en = e.
Proof. by intros (? & _ & (? & _ & [= ->])%result_bind_Ok)%result_bind_Ok. Qed.

(** The parts of a hydrated entry. *)
Lemma hydrated_parts en :
  hydrated en → ∃ e inline,
    entry_contract e = Ok (en.(en_role), en.(en_source_blob_sha256), inline)
    ∧ en.(en_event_type) = event_type e ∧ entry_init en = Ok en
    ∧ ∀ w, entry_text store e inline w = (Ok en.(en_text), w).
Proof.
  intros (e & w & Hh). revert Hh. unfold hydrate_entry. rewrite io_bind_eq. unfold lift at 1.
  destruct (entry_contract e) as [[[role src] inline]|x] eqn:Hc; [|done]. rewrite io_bind_eq.
  destruct (entry_text_fixed e inline) as [r Hr]. rewrite Hr. destruct r as [text|]; [|done].
  cbn. intros Hi. pose proof (entry_init_id _ _ Hi) as ->. exists e, inline.
  by split_and!.
Qed.

(** The text of a line is given by the type of its event and its blob, or by its inline text. *)
Lemma entry_text_same e e' role src inline inline' text :
  entry_contract e = Ok (role, src, inline) → entry_contract e' = Ok (role, src, inline') →
  event_type e = event_type e' → from_option (λ t, text = t) True inline →
  (∀ w, entry_text store e' inline' w = (Ok text, w)) →
  ∀ w, entry_text store e inline w = (Ok text, w).
Proof.
  unfold entry_contract, entry_text, event_type.
  destruct (payload e) eqn:Hp; try done; intros Hc Hc' Ht Hin Htext;
    destruct (payload e') eqn:Hp'; try done; simplify_eq; cbn in Hin; subst; try done.
  repeat case_match; cbn in *; simplify_eq; done.
Qed.

Lemma find_candidate_In key cs en :
  find_candidate key cs = Some en → en ∈ cs ∧ candidate_key en = key.
Proof.
  unfold find_candidate. intros Hl%last_Some_elem_of. by apply list_elem_of_filter in Hl as [? ?].
Qed.

(** Reusing an entry of a faithful cache is hydrating it. *)
Lemma reuse_is_hydration cs e w :
  Forall hydrated cs → reuse_or_hydrate_entry store cs e w = hydrate_entry store e w.
Proof.
  intros Hcs. unfold reuse_or_hydrate_entry. rewrite io_bind_eq. unfold lift.
  destruct (entry_contract e) as [[[role src] inline]|x] eqn:Hc;
    [|unfold hydrate_entry; by rewrite io_bind_eq, Hc].
  destruct (find_candidate _ cs) as [en|] eqn:Hf; [|done].
  apply find_candidate_In in Hf as [Hin Hkey]. unfold candidate_key in Hkey.
  injection Hkey as Hid Hseq Htype Hsrc. case_decide as Hd; [|done].
  destruct Hd as [Hrole Htext]. rewrite Forall_forall in Hcs.
  destruct (hydrated_parts _ (Hcs _ Hin)) as (e' & inline' & Hc' & Ht' & Hi & Hx).
  rewrite Hrole, Hsrc in Hc'. rewrite Htype in Ht'.
  unfold hydrate_entry. rewrite io_bind_eq, Hc. cbn beta iota delta [lift].
  rewrite io_bind_eq, (entry_text_same _ _ _ _ _ _ _ Hc Hc' Ht' Htext Hx).
  replace {| en_event_id := _; en_seq := _; en_event_type := _; en_role := _; en_text := _;
             en_source_blob_sha256 := _ |} with en by (destruct en; cbn in *; congruence).
  by rewrite Hi.
Qed.

Lemma reuse_list cs es : ∀ w, Forall hydrated cs →
  reuse_or_hydrate store cs es w = reuse_or_hydrate store [] es w.
Proof.
  induction es as [|e es IH]; intros w Hcs; [done|]. cbn [reuse_or_hydrate].
  rewrite !io_bind_eq, (reuse_is_hydration cs), (reuse_is_hydration []) by done.
  destruct (hydrate_entry store e w) as [[en|]w']; [|done]. by rewrite !io_bind_eq, IH.
Qed.

Lemma bind_lift_ext {A B} (r : res A) (k k' : A → io B) w :
  (∀ a, k a w = k' a w) → mbind k (lift r) w = mbind k' (lift r) w.
Proof. intros Hk. rewrite !io_bind_eq. unfold lift. by destruct r. Qed.

(** A prompt built from a cached working set is the prompt built without it: whatever events
    the store loads, if the cache is of the run the caller asks for and its entries were
    hydrated from events of that store, of any run and any time, or it is of another run,
    the two builds agree in result and in error. *)
Theorem cached_prompt_is_authoritative run n c event_limit transcript_limit w :
  faithful c →
  build_authoritative_prompt_working_set store run n (Some c) event_limit transcript_limit w
  = build_authoritative_prompt_working_set store run n None event_limit transcript_limit w.
Proof.
  intros [Hm He]. unfold build_authoritative_prompt_working_set.
  do 3 (apply bind_lift_ext; intros _). apply (bind_lift_ext (load run event_limit)). intros events.
  do 2 (apply bind_lift_ext; intros _). cbn beta zeta. rewrite !io_bind_eq. cbn [from_option].
  case_decide as Hrun; [|done]. subst run. cbn [from_option].
  rewrite (reuse_list (ws_entries c)) by done.
  destruct (reuse_or_hydrate store [] _ w) as [[entries|e] w']; [|done].
  rewrite !io_bind_eq. cbn [static_store ps_get_run_user_message]. unfold lift. by rewrite Hm.
Qed.
End prompt.

(** ** Witness *)

#[local] Existing Instance plain_platform.

Definition sample_text : string :=
  "0123456789abcdef0123456789abcdef0123456789abcdef0123456789abcdef".

Definition sample_event (n : Z) (p : RuntimeEventPayload) : EventEnvelope :=
  {| event_id := "event"; schema_version := 1; session_id := "session"; turn_id := Some "turn";
     run_id := Some "run"; seq := n; occurred_at := 0; process_instance_id := "process";
     boot_id := None; causation_event_id := None; correlation_id := None; payload := p |}.

Definition sample_store : PromptWorkingSetStore :=
  static_store
    (λ _ _, Ok [sample_event 1 (ModelResponseReceivedPayload "call" sample_text None None);
                sample_event 2 (ModelOutputRejectedPayload "event" "no tool call")])
    (λ _, Ok "hello")
    (λ sha, Ok {| sb_sha256 := sha; sb_byte_length := 64; sb_media_type := "text/plain";
                  sb_content := sha; sb_created_at := 0 |}) false.

(** Only the first line is cached. *)
Definition sample_cache : PromptWorkingSet :=
  {| ws_run_id := "run"; ws_user_message := "hello";
     ws_entries := [{| en_event_id := "event"; en_seq := 1;
                       en_event_type := EventType.MODEL_RESPONSE_RECEIVED;
                       en_role := Role.ASSISTANT; en_text := sample_text;
                       en_source_blob_sha256 := Some sample_text |}] |}.

Definition sample_world : world :=
  {| w_db := empty_db; w_fs := ∅; w_ctx := None; w_outputs := []; w_label := None; w_tick := 0;
     w_observer := {| last_started := None; last_attempt_no := None; failed_attempts := [] |};
     w_history := [] |}.

(** Witness of [cached_prompt_is_authoritative]. *)
Lemma cached_prompt_is_authoritative_witness :
  let w := sample_world in
  build_authoritative_prompt_working_set sample_store "run" (Some 2%Z) (Some sample_cache) 64 12 w
  = build_authoritative_prompt_working_set sample_store "run" (Some 2%Z) None 64 12 w.
Proof.
  intros w. apply cached_prompt_is_authoritative. split; [reflexivity|]. apply Forall_singleton.
  exists (sample_event 1 (ModelResponseReceivedPayload "call" sample_text None None)), w.
  cbn. reflexivity.
Defined.
