(* ===== verification/ModelClient.v ===== *)
(** * ModelClient: model ports (src/forge_replay/runtime/model.py, ollama.py, openai_chat.py)

    A model port completes a prompt and reports each physical attempt to an observer:
    [started] before the request, [failed] after a failure. *)

From S2P Require Import Prelude Text Domain Platform Json Events Projection Tables.
From S2P Require Import FileSystem World.
From Corelib Require Import SpecFloat.

Record ModelResult := {
  mr_text : string;
  input_tokens : option Z;
  output_tokens : option Z;
}.

(** [ModelAttemptObserver]. *)
Record ModelAttemptObserver := {
  started : Z → io unit;
  failed : Z → exn → bool → io unit;
}.

(** [ModelPort]. *)
Record ModelPort := {
  model_name : string;
  complete : string → Z → ModelAttemptObserver → io ModelResult;
}.

(** [ScriptedModel]; its record of the prompts it got is not modelled. *)
Definition scripted_complete (prompt : string) (max_output_tokens : Z)
    (observer : ModelAttemptObserver) : io ModelResult :=
  observer.(started) 1%Z;;
  outputs ← ask w_outputs;
  match outputs with
  | text :: rest =>
      put (λ w, w <| w_outputs := rest |>);;
      mret {| mr_text := text; input_tokens := None; output_tokens := None |}
  | [] => observer.(failed) 1%Z RuntimeError false;; raise RuntimeError
  end.

Definition ScriptedModel : ModelPort :=
  {| model_name := "scripted-model"; complete := scripted_complete |}.

(** ** Documents *)

(** The truth of a JSON value. *)
Definition json_truthy (j : json) : bool :=
  match j with
  | JNull | JBool false | JStr EmptyString | JArr [] | JObj [] => false
  | JInt z => bool_decide (z ≠ 0)
  | JFloat (S754_zero _) => false
  | _ => true
  end%Z.

(** [value.get(key)] of a JSON value. *)
Definition get (key : string) (j : json) : res json :=
  match j with JObj d => Ok (default JNull (dict_get key d)) | _ => Err AttributeError end.

(** [_optional_count]; a bool is an int. *)
Definition optional_count (j : json) : option Z :=
  match j with
  | JInt z => if decide (0 ≤ z)%Z then Some z else None
  | JBool b => Some (if b then 1 else 0)%Z
  | _ => None
  end.

Section clients.
Context `{Platform} `{Environment}.

(** [_retry_after]: [max(0.0, float(value))]. *)
Definition retry_after_seconds (value : option string) : option spec_float :=
  match value with
  | None => None
  | Some v => (λ f, if SFltb (S754_zero false) f then f else S754_zero false) <$> float_of v
  end.

(** The transports: the reply classified. *)
Definition classify_reply (r : http_reply) : res json :=
  match r with
  | Body content =>
      if utf8_valid content
      then result_of_option (ModelProviderError true None) (json_loads content)
      else Err (ModelProviderError true None)
  | HttpStatus code header =>
      Err (ModelProviderError (bool_decide (code = 429 ∨ 500 ≤ code < 600)%Z)
             (retry_after_seconds header))
  | Unreachable => Err (ModelProviderError true None)
  end.

Definition generate (attempt : Z) (payload : json) : io json :=
  perform (RequestModel attempt payload) (λ n, classify_reply (provider n payload)).

(** The delay before the attempt after [attempt]. *)
Definition backoff (attempt : Z) (retry_after : option spec_float) : spec_float + Z :=
  match retry_after with
  | Some f => inl f
  | None => inr (Z.min (2 ^ (attempt - 1)) 8)
  end.

(** The loop of the clients: [remaining] attempts are left, the next one is [attempt]. *)
Fixpoint attempt_loop (remaining : nat) (max_attempts attempt : Z) (payload : json)
    (read : json → res ModelResult) (observer : ModelAttemptObserver) : io ModelResult :=
  match remaining with
  | O => raise TypeError
  | S remaining' =>
      observer.(started) attempt;;
      try (data ← generate attempt payload; lift (read data))
        (λ e, match e with
              | ModelProviderError retryable retry_after => Some (
                  observer.(failed) attempt e retryable;;
                  if decide (retryable = false ∨ attempt = max_attempts) then raise e
                  else
                    perform (Sleep (backoff attempt retry_after)) (λ _, Ok tt);;
                    attempt_loop remaining' max_attempts (attempt + 1) payload read observer)
              | _ => None
              end)
  end.

(** *** Ollama *)

Record OllamaModel := {
  om_name : string;
  om_max_attempts : Z;
  om_temperature : spec_float;
  om_top_p : spec_float;
}.

Definition OllamaModel_init (model : string) (max_attempts : Z) (temperature top_p : spec_float)
    : res OllamaModel :=
  assert_result (1 ≤ max_attempts)%Z ValueError;;
  Ok {| om_name := model; om_max_attempts := max_attempts; om_temperature := temperature;
        om_top_p := top_p |}.

Definition ollama_payload (m : OllamaModel) (prompt : string) (max_output_tokens : Z) : json :=
  JObj [("model", JStr m.(om_name)); ("prompt", JStr prompt); ("stream", JBool false);
        ("raw", JBool false); ("think", JBool false);
        ("options", JObj [("num_predict", JInt max_output_tokens);
                          ("temperature", JFloat m.(om_temperature));
                          ("top_p", JFloat m.(om_top_p))])].

(** The part of [complete] that reads the document. *)
Definition ollama_read (data : json) : res ModelResult :=
  error ← get "error" data;
  if json_truthy error then Err (ModelProviderError false None)
  else
    response ← get "response" data;
    text ← match response with
           | JStr s => if blank s then Err (ModelProviderError true None) else Ok s
           | _ => Err (ModelProviderError true None)
           end;
    prompt_eval_count ← get "prompt_eval_count" data;
    eval_count ← get "eval_count" data;
    Ok {| mr_text := text; input_tokens := optional_count prompt_eval_count;
          output_tokens := optional_count eval_count |}.

Definition ollama_complete (m : OllamaModel) (prompt : string) (max_output_tokens : Z)
    (observer : ModelAttemptObserver) : io ModelResult :=
  attempt_loop (Z.to_nat m.(om_max_attempts)) m.(om_max_attempts) 1
    (ollama_payload m prompt max_output_tokens) ollama_read observer.

Definition ollama_port (m : OllamaModel) : ModelPort :=
  {| model_name := m.(om_name); complete := ollama_complete m |}.

(** *** OpenAI-compatible chat completions *)

Record OpenAIChatModel := {
  oa_name : string;
  oa_max_attempts : Z;
  oa_temperature : spec_float;
  oa_enable_thinking : bool;
}.

Definition OpenAIChatModel_init (model api_key : string) (max_attempts : Z)
    (temperature : spec_float) (enable_thinking : bool) : res OpenAIChatModel :=
  assert_result (¬ (api_key = "" ∨ max_attempts < 1)%Z) ValueError;;
  Ok {| oa_name := model; oa_max_attempts := max_attempts; oa_temperature := temperature;
        oa_enable_thinking := enable_thinking |}.

Definition openai_payload (m : OpenAIChatModel) (prompt : string) (max_output_tokens : Z) : json :=
  JObj [("model", JStr m.(oa_name));
        ("messages", JArr [JObj [("role", JStr "user"); ("content", JStr prompt)]]);
        ("max_tokens", JInt max_output_tokens); ("temperature", JFloat m.(oa_temperature));
        ("extra_body", JObj [("enable_thinking", JBool m.(oa_enable_thinking))])].

(** [choices[0].get("message", {}).get("content")], when there are choices. *)
Definition openai_content (data : json) : res json :=
  choices ← get "choices" data;
  match choices with
  | JArr (JObj choice :: _) => get "content" (default (JObj []) (dict_get "message" choice))
  | JArr (_ :: _) => Err AttributeError
  | _ => Ok JNull
  end.

Definition openai_read (data : json) : res ModelResult :=
  content ← openai_content data;
  text ← match content with
         | JStr s => if blank s then Err (ModelProviderError true None) else Ok s
         | _ => Err (ModelProviderError true None)
         end;
  usage ← get "usage" data;
  let usage := match usage with JObj d => d | _ => [] end in
  Ok {| mr_text := text;
        input_tokens := optional_count (default JNull (dict_get "prompt_tokens" usage));
        output_tokens := optional_count (default JNull (dict_get "completion_tokens" usage)) |}.

Definition openai_complete (m : OpenAIChatModel) (prompt : string) (max_output_tokens : Z)
    (observer : ModelAttemptObserver) : io ModelResult :=
  attempt_loop (Z.to_nat m.(oa_max_attempts)) m.(oa_max_attempts) 1
    (openai_payload m prompt max_output_tokens) openai_read observer.

Definition openai_port (m : OpenAIChatModel) : ModelPort :=
  {| model_name := m.(oa_name); complete := openai_complete m |}.
End clients.
