(* ===== verification/MiniAgent.v ===== *)
(** * MiniAgent: the reading of a model response (src/mini_coding_agent.py)

    [parse] tells tool calls, final answers and malformed responses apart. The two regular
    expressions of the module are written out as the scans they denote. *)

From S2P Require Import Prelude Text Domain Platform Json.

Inductive parsed :=
| Tool (payload : list (string * json))
| Final (answer : string)
| Retry (notice : string).

(** [retry_notice]. *)
Definition quoted (s : string) : string := String quote_char (s +:+ String quote_char "").

Definition retry_notice (problem : option string) : string :=
  "Runtime notice: "
  +:+ default "model returned malformed tool output" problem
  +:+ ". Reply with a valid <tool> call or a non-empty <final> answer. "
  +:+ "For multi-line files, prefer <tool name=" +:+ quoted "write_file" +:+ " path="
  +:+ quoted "file.py" +:+ "><content>...</content></tool>.".

Definition open_tag (tag : string) : string := "<" +:+ tag +:+ ">".
Definition close_tag (tag : string) : string := "</" +:+ tag +:+ ">".

(** [extract_raw]: the text between the tags, to the end when the closing one is missing. *)
Definition extract_raw (text tag : string) : string :=
  match partition (open_tag tag) text with
  | None => text
  | Some (_, rest) =>
      match partition (close_tag tag) rest with
      | None => rest
      | Some (inner, _) => inner
      end
  end.

(** [extract]. *)
Definition extract (text tag : string) : string :=
  match partition (open_tag tag) text with
  | None => text
  | Some _ => strip (extract_raw text tag)
  end.

(** ** Attributes *)

Definition ident_start (a : ascii) : bool :=
  byte_in 65 90 a || byte_in 97 122 a || bool_decide (a = "_"%char).
Definition ident_char (a : ascii) : bool := ident_start a || byte_in 48 57 a.

Fixpoint span_ident (s : string) : string * string :=
  match s with
  | String a s' =>
      if ident_char a then let '(i, rest) := span_ident s' in (String a i, rest) else ("", s)
  | EmptyString => ("", "")
  end.

Definition skip_spaces (s : string) : string := lstrip_fuel (String.length s) s.

(** A quoted value at the head of [s], and what follows it. *)
Definition quoted_value (s : string) : option (string * string) :=
  match s with
  | String q rest =>
      if decide (q = quote_char ∨ q = "'"%char) then partition (String q "") rest else None
  | EmptyString => None
  end.

(** The attribute pattern, matched at the head of [s]. *)
Definition match_attr (s : string) : option (string * string * string) :=
  match s with
  | String a _ =>
      if ident_start a then
        let '(name, rest) := span_ident s in
        rest ← strip_prefix "=" (skip_spaces rest);
        '(value, rest) ← quoted_value (skip_spaces rest);
        Some (name, value, rest)
      else None
  | EmptyString => None
  end.

(** [parse_attrs]: every match, from left to right; a repeated name keeps its last value. *)
Fixpoint parse_attrs_fuel (fuel : nat) (attrs : list (string * string)) (s : string)
    : list (string * string) :=
  match fuel, s with
  | S f, String _ s' =>
      match match_attr s with
      | Some (name, value, rest) => parse_attrs_fuel f (dict_set name value attrs) rest
      | None => parse_attrs_fuel f attrs s'
      end
  | _, _ => attrs
  end.

Definition parse_attrs (s : string) : list (string * string) :=
  parse_attrs_fuel (String.length s) [] s.

(** [attrs.pop(key, "")]. *)
Definition dict_pop (key : string) (d : list (string * string)) : string * list (string * string) :=
  (default "" (dict_get key d), filter (λ kv, kv.1 ≠ key) d).

(** ** XML-like tool calls *)

Definition BODY_KEYS : list string :=
  ["content"; "old_text"; "new_text"; "command"; "task"; "pattern"; "path"].

(** The match of the tool pattern: the attributes and the body of the first tool. Every
    later start fails where the first one fails. *)
Definition match_tool (raw : string) : option (string * string) :=
  '(_, rest) ← partition "<tool" raw;
  '(attrs, rest) ← partition ">" rest;
  '(body, _) ← partition "</tool>" rest;
  Some (attrs, body).

(** [parse_xml_tool]. *)
Definition parse_xml_tool (raw : string) : option (list (string * json)) :=
  '(attrs, body) ← match_tool raw;
  let '(name, args) := dict_pop "name" (parse_attrs attrs) in
  let name := strip name in
  if decide (name = "") then None
  else
    let args := fold_left (λ args key,
      if contains (open_tag key) body then dict_set key (extract_raw body key) args else args)
      BODY_KEYS args in
    let body_text := strip_newlines body in
    let args := if decide (name = "write_file" ∧ dict_get "content" args = None ∧ body_text ≠ "")
                then dict_set "content" body_text args else args in
    let args := if decide (name = "delegate" ∧ dict_get "task" args = None ∧ body_text ≠ "")
                then dict_set "task" (strip body_text) args else args in
    Some [("name", JStr name); ("args", JObj (map (λ kv, (kv.1, JStr kv.2)) args))].

Section parse.
Context `{Platform}.

(** The checks of a JSON tool payload. *)
Definition check_payload (body : string) : parsed :=
  match json_loads body with
  | None => Retry (retry_notice (Some "model returned malformed tool JSON"))
  | Some (JObj payload) =>
      let unnamed := match dict_get "name" payload with
                     | None => true
                     | Some (JStr s) => blank s
                     | Some _ => false
                     end in
      if unnamed : bool then Retry (retry_notice (Some "tool payload is missing a tool name"))
      else match dict_get "args" payload with
           | None | Some (JObj _) => Tool payload
           | Some JNull => Tool (dict_set "args" (JObj []) payload)
           | Some _ => Retry (retry_notice None)
           end
  | Some _ => Retry (retry_notice (Some "tool payload must be a JSON object"))
  end.

(** [a in raw and (b not in raw or raw.find(a) < raw.find(b))]. *)
Definition comes_first (a b raw : string) : bool :=
  match find a raw, find b raw with
  | Some i, Some j => (i <? j)%nat
  | Some _, None => true
  | None, _ => false
  end.

(** [MiniAgent.parse]. *)
Definition parse (raw : string) : parsed :=
  if comes_first "<tool>" "<final>" raw then check_payload (extract raw "tool")
  else if comes_first "<tool" "<final>" raw then
    match parse_xml_tool raw with
    | Some payload => Tool payload
    | None => Retry (retry_notice None)
    end
  else if contains "<final>" raw then
    let final := strip (extract raw "final") in
    if decide (final = "") then Retry (retry_notice (Some "model returned an empty <final> answer"))
    else Final final
  else
    let answer := strip raw in
    if decide (answer = "") then Retry (retry_notice (Some "model returned an empty response"))
    else Final answer.
End parse.
