(* ===== verification/Agent.v ===== *)
(** * Agent: the durable model and tool loop (src/forge_replay/runtime/agent.py)

    One definition per method of [DurableAgentRuntime]: a step continues an unfinished tool
    call, else works on a response that waits, else asks the model; the loop repeats it up to
    the step limit under the run's lease. *)

From S2P Require Import Prelude Text Domain Platform Json Events Projection ToolIdentity Tables.
From S2P Require Import Ledger ModelCalls Leases Checkpoints Runs Tools Budget Store.
From S2P Require Import FileSystem World FileTools Process Executors PromptSet ModelClient MiniAgent.

Module AgentStatus.
Inductive t := COMPLETED | WAITING_APPROVAL | NEEDS_ATTENTION | STEP_LIMIT | CANCELLED
  | BUDGET_EXCEEDED.
#[global] Instance eq_dec : EqDecision t.
Proof. solve_decision. Defined.
End AgentStatus.

Record AgentOutcome := {
  status : AgentStatus.t;
  final_answer : option string;
  approval_id : option string;
  tool_call_id : option string;
  detail : option string;
}.

Definition ended (st : AgentStatus.t) (detail : string) : AgentOutcome :=
  {| status := st; final_answer := None; approval_id := None; tool_call_id := None;
     detail := Some detail |}.

Definition answered (answer : string) : AgentOutcome :=
  {| status := AgentStatus.COMPLETED; final_answer := Some answer; approval_id := None;
     tool_call_id := None; detail := None |}.

Definition waiting (approval : option string) (tool : string) : AgentOutcome :=
  {| status := AgentStatus.WAITING_APPROVAL; final_answer := None; approval_id := approval;
     tool_call_id := Some tool; detail := None |}.

Definition attention (tool detail : string) : AgentOutcome :=
  {| status := AgentStatus.NEEDS_ATTENTION; final_answer := None; approval_id := None;
     tool_call_id := Some tool; detail := Some detail |}.

(** A parsed JSON value as the Python object it is. *)
Fixpoint py_of_json (j : json) : pyval :=
  match j with
  | JNull => PNone
  | JBool b => PBool b
  | JInt z => PInt z
  | JFloat f => PFloat f
  | JStr s => PStr s
  | JArr l => PList (map py_of_json l)
  | JObj l => PDict (map (λ kv, (PStr kv.1, py_of_json kv.2)) l)
  end.

(** The default time to live of a lease. *)
Definition LEASE_TTL : Z := 300 * SECOND.

Section agent.
Context `{Platform} `{Environment} (limits : BlobLimits).

Record DurableAgentRuntime := {
  model : ModelPort;
  file_executor : DurableFileExecutor;
  shell_executor : DurableShellExecutor;
  process_instance_id : string;
  max_steps : Z;
  max_output_tokens : Z;
  auto_approve_file_mutations : bool;
  auto_approve_processes : bool;
  process_tools_enabled : bool;
  checkpoint_interval_events : Z;
  prompt_working_set_reader : option (string → Z → io PromptWorkingSet);
}.

(** The check of the constructor. *)
Definition DurableAgentRuntime_init (r : DurableAgentRuntime) : res DurableAgentRuntime :=
  assert_result (1 ≤ r.(checkpoint_interval_events))%Z ValueError;; Ok r.

Variable rt : DurableAgentRuntime.

Definition with_context {A} (m : ExecutionContext → op A) (ctx : option ExecutionContext) : op A :=
  match ctx with Some c => m c | None => throw AttributeError end.

(** The stream version of the worker's context. *)
Definition stream_version : io Z :=
  ctx ← ask w_ctx;
  lift (result_of_option AttributeError (ec_stream_version <$> ctx)).

(** ** Appending events of the run *)

Definition append_run_event (run_id : string) (projection : RunProjection)
    (causation : option string) (payload : RuntimeEventPayload) : io EventEnvelope :=
  call (λ o ctx, append_event o
    {| ea_session_id := projection.(p_session_id);
       ea_process_instance_id := rt.(process_instance_id); ea_payload := payload;
       ea_turn_id := Some projection.(p_turn_id); ea_run_id := Some run_id;
       ea_causation_event_id := causation; ea_correlation_id := None |} ctx).

(** [terminate_run] with the worker's context. *)
Definition terminate (run_id : string) (st : ExecutionStatus.t) (reason : string)
    : io RunProjection :=
  call (λ o ctx, terminate_run o run_id st reason rt.(process_instance_id) ctx).

Definition settle (reservation_id : string) (consumed : Z) : io BudgetReservationRecord :=
  call (λ o ctx, settle_budget o reservation_id consumed rt.(process_instance_id) ctx).

(** ** The attempt observer *)

(** [except Exception as exc: raise DurableObservationError(...) from exc]. *)
Definition observed {A} (m : io A) : io A := try m (λ _, Some (raise DurableObservationError)).

(** [_DurableModelAttemptObserver.started]. *)
Definition observer_started (run_id model_call_id : string) (step attempt_offset attempt_no : Z)
    : io unit :=
  projection ← query (get_run_projection run_id);
  let durable_attempt := (attempt_offset + attempt_no)%Z in
  e ← observed (append_run_event run_id projection None
        (ModelCallStartedPayload model_call_id rt.(model).(model_name) durable_attempt (Some step)));
  put (λ w, w <| w_observer ::= (λ ob,
    {| last_started := Some e; last_attempt_no := Some durable_attempt;
       failed_attempts := ob.(failed_attempts) |}) |>).

(** [_DurableModelAttemptObserver.failed]. *)
Definition observer_failed (run_id model_call_id : string) (attempt_offset attempt_no : Z)
    (error : exn) (retryable : bool) : io unit :=
  let durable_attempt := (attempt_offset + attempt_no)%Z in
  projection ← query (get_run_projection run_id);
  ob ← ask w_observer;
  observed (append_run_event run_id projection (event_id <$> ob.(last_started))
    (ModelCallFailedPayload model_call_id (exn_name error) retryable));;
  put (λ w, w <| w_observer ::= (λ ob,
    {| last_started := ob.(last_started); last_attempt_no := ob.(last_attempt_no);
       failed_attempts := durable_attempt :: ob.(failed_attempts) |}) |>).

Definition observer (run_id model_call_id : string) (step attempt_offset : Z)
    : ModelAttemptObserver :=
  {| started := observer_started run_id model_call_id step attempt_offset;
     failed := observer_failed run_id model_call_id attempt_offset |}.

Definition new_observer : ObserverState :=
  {| last_started := None; last_attempt_no := None; failed_attempts := [] |}.

(** ** Leases and checkpoints *)

(** [_renew_lease]. *)
Definition renew_lease : io unit :=
  renewed ← call (λ o, with_context (λ c, renew_run_lease o c LEASE_TTL None));
  ctx ← ask w_ctx;
  c ← lift (result_of_option AttributeError ctx);
  c ← lift (renew c renewed.(rl_expires_at) renewed.(rl_epoch));
  put (λ w, w <| w_ctx := Some c |>);;
  _ ← call (λ o, with_context (synchronize_execution_context o));
  mret tt.

(** [_maybe_checkpoint]. *)
Definition maybe_checkpoint (run_id : string) : io unit :=
  latest ← query (latest_checkpoint_through_seq run_id);
  version ← stream_version;
  if decide (version - latest < rt.(checkpoint_interval_events))%Z then mret tt
  else
    _ ← call (λ o ctx, commit_run_checkpoint o run_id
                ("auto:" +:+ run_id +:+ ":" +:+ int_str version) rt.(process_instance_id) ctx);
    mret tt.

(** ** Prompts *)

(** [_prompt]. *)
Definition prompt (run_id : string) (step expected_through_seq : Z) : io string :=
  working_set ← match rt.(prompt_working_set_reader) with
                | Some load => load run_id expected_through_seq
                | None => build_authoritative_prompt_working_set sqlite_prompt_store run_id None None
                            PROMPT_RECENT_EVENT_LIMIT PROMPT_TRANSCRIPT_ENTRY_LIMIT
                end;
  lift (render_agent_prompt working_set step rt.(process_tools_enabled)).

(** ** Model calls *)

Definition reservation_name (run_id : string) (step : Z) : string :=
  "model-budget:" +:+ run_id +:+ ":" +:+ int_str step.
Definition model_call_name (run_id : string) (step : Z) : string :=
  "model-call:" +:+ run_id +:+ ":" +:+ int_str step.

(** [if reserved: self.store.settle_budget(...)]. *)
Definition settle_if (reserved : bool) (reservation_id : string) (consumed : Z) : io unit :=
  if reserved then _ ← settle reservation_id consumed; mret tt else mret tt.

(** The handlers of [_call_model] around the provider call. *)
Definition provider_failed {A} (run_id model_call_id reservation_id : string) (reserved : bool)
    (step previous_attempts : Z) (error : exn) : io A :=
  let ob := observer run_id model_call_id step previous_attempts in
  try (state ← ask w_observer;
       (match state.(last_attempt_no) with
        | None => ob.(started) 1%Z
        | Some _ => mret tt
        end);;
       state ← ask w_observer;
       last ← lift (result_of_option AssertionError state.(last_attempt_no));
       if decide (last ∈ state.(failed_attempts)) then mret tt
       else ob.(failed) (last - previous_attempts)%Z error false)
    (λ e, match e with
          | DurableObservationError => Some (
              settle_if reserved reservation_id 1;; raise ModelInvocationError)
          | _ => None
          end);;
  settle_if reserved reservation_id 1;;
  raise ModelInvocationError.

Definition invoke_model (run_id model_call_id reservation_id : string) (reserved : bool)
    (step previous_attempts : Z) : io ModelResult :=
  try (version ← stream_version;
       text ← prompt run_id step version;
       rt.(model).(complete) text rt.(max_output_tokens)
         (observer run_id model_call_id step previous_attempts))
    (λ e, match e with
          | DurableObservationError => Some (
              state ← ask w_observer;
              settle_if reserved reservation_id
                (if decide (is_Some state.(last_started)) then 1 else 0)%Z;;
              raise ModelInvocationError)
          | _ => Some (provider_failed run_id model_call_id reservation_id reserved step
                         previous_attempts e)
          end).

(** [_call_model]. *)
Definition call_model (run_id : string) (step : Z) : io (EventEnvelope * string) :=
  renew_lease;;
  projection ← query (get_run_projection run_id);
  let reservation_id := reservation_name run_id step in
  let model_call_id := model_call_name run_id step in
  existing_call ← query (get_model_call model_call_id);
  ensure (from_option (λ m, m.(mc_run_id) = run_id ∧ m.(mc_step) = step) True existing_call)
    ModelInvocationError;;
  ensure (from_option (λ m, m.(mc_model_name) ∈ [rt.(model).(model_name); "legacy-unknown"]) True
            existing_call) ModelInvocationError;;
  let reserved := bool_decide (is_Some (projection.(p_budget_limits) !! "model_calls")) in
  (if reserved then
     _ ← call (λ o ctx, reserve_budget o run_id reservation_id "model_calls" 1
                 rt.(process_instance_id) ctx);
     mret tt
   else mret tt);;
  let previous_attempts := from_option mc_latest_attempt_no 0%Z existing_call in
  put (λ w, w <| w_observer := new_observer |>);;
  result ← on_behalf (ForModelCall run_id model_call_id previous_attempts)
             (invoke_model run_id model_call_id reservation_id reserved step previous_attempts);
  blob ← sb_of_put limits result.(mr_text) TEXT_MEDIA_TYPE;
  state ← ask w_observer;
  e ← append_run_event run_id projection (event_id <$> state.(last_started))
        (ModelResponseReceivedPayload model_call_id blob.(sb_sha256) result.(input_tokens)
           result.(output_tokens));
  settle_if reserved reservation_id 1;;
  mret (e, result.(mr_text)).

(** [_settle_model_budget]. *)
Definition settle_model_budget (run_id : string) (step : Z) : io unit :=
  projection ← query (get_run_projection run_id);
  settle_if (bool_decide (is_Some (projection.(p_budget_limits) !! "model_calls")))
    (reservation_name run_id step) 1.

(** [_latest_unconsumed_model_response]. *)
Definition latest_unconsumed_model_response (run_id : string)
    : io (option (EventEnvelope * string * Z)) :=
  pending ← query (get_latest_unconsumed_model_response run_id);
  match pending with
  | None => mret None
  | Some p =>
      blob ← query (get_blob p.(pm_response_blob_sha256));
      ensure (utf8_valid blob.(sb_content) = true) UnicodeDecodeError;;
      mret (Some (p.(pm_event), blob.(sb_content), p.(pm_step)))
  end.

(** ** Tools *)

(** [auto] in [_continue_tool]. *)
Definition auto_approved (effect : ToolEffectClass.t) : bool :=
  (bool_decide (effect = ToolEffectClass.DETECTABLE_IDEMPOTENT) && rt.(auto_approve_file_mutations))
  || (bool_decide (effect = ToolEffectClass.NON_IDEMPOTENT) && rt.(auto_approve_processes)).

(** What follows an execution or a recovery. *)
Definition after_attempt (run_id tool : string) (reason detail : string)
    (result : ToolAttemptRecord) : io (option AgentOutcome) :=
  if decide (result.(at_state) = ToolCallState.UNCERTAIN) then
    _ ← terminate run_id ExecutionStatus.NEEDS_ATTENTION reason;
    mret (Some (attention tool detail))
  else mret None.

(** The READY branch. *)
Definition execute_ready (run_id tool : string) (call_record : ToolCallRecord)
    : io (option AgentOutcome) :=
  if decide (call_record.(tr_tool_name) ∈ FILE_TOOLS) then
    result ← file_execute limits rt.(file_executor) tool;
    after_attempt run_id tool "tool outcome is uncertain" "tool uncertain" result
  else if decide (call_record.(tr_tool_name) = "run_process") then
    result ← shell_execute limits rt.(shell_executor) tool;
    after_attempt run_id tool "tool outcome is uncertain" "tool uncertain" result
  else mret (Some (ended AgentStatus.NEEDS_ATTENTION "unsupported tool")).

(** The DISPATCHED branch. *)
Definition recover_dispatched (run_id tool : string) (call_record : ToolCallRecord)
    : io (option AgentOutcome) :=
  attempt ← query (get_dispatched_attempt tool);
  match attempt with
  | None => mret (Some (attention tool "dispatched tool is missing its attempt state"))
  | Some attempt =>
      result ← (if decide (call_record.(tr_tool_name) ∈ FILE_TOOLS)
                then file_recover limits rt.(file_executor) attempt.(at_attempt_id)
                else shell_recover limits rt.(shell_executor) attempt.(at_attempt_id));
      after_attempt run_id tool "recovered tool outcome is uncertain" "tool recovery is uncertain"
        result
  end.

(** The PROPOSED branch: the call as it is afterwards, or the outcome to return. *)
Definition request_approval (tool : string) (call_record : ToolCallRecord)
    : io (ToolCallRecord + AgentOutcome) :=
  if decide (call_record.(tr_state) ≠ ToolCallState.PROPOSED) then mret (inl call_record)
  else
    approval ← call (λ o ctx, request_tool_approval o tool "runtime-policy-v1"
                                rt.(process_instance_id) ctx);
    if auto_approved call_record.(tr_effect_class) then
      _ ← call (λ o ctx, decide_tool_approval o approval.(ar_approval_id)
                  call_record.(tr_approval_fingerprint) ApprovalDecision.ALLOW_ONCE
                  "runtime:auto-policy" "explicit runtime auto-approval configuration"
                  rt.(process_instance_id) ctx None);
      call_record ← query (get_tool_call tool);
      mret (inl call_record)
    else mret (inr (waiting (Some approval.(ar_approval_id)) tool)).

(** [_continue_tool]. *)
Definition continue_tool (run_id tool : string) : io (option AgentOutcome) :=
  renew_lease;;
  call_record ← query (get_tool_call tool);
  next ← request_approval tool call_record;
  match next with
  | inr outcome => mret (Some outcome)
  | inl call_record =>
      match call_record.(tr_state) with
      | ToolCallState.WAITING_APPROVAL =>
          pending ← query (get_pending_approval_for_tool tool);
          mret (Some (waiting (ar_approval_id <$> pending) tool))
      | ToolCallState.READY => execute_ready run_id tool call_record
      | ToolCallState.DISPATCHED => recover_dispatched run_id tool call_record
      | _ => mret None
      end
  end.

(** [_classify]: the effect class and the target paths of a call. *)
Definition classify (name : string) (args : dict) : res (ToolEffectClass.t * list json) :=
  if decide (name = "read_file") then
    path ← item "path" args; Ok (ToolEffectClass.PURE, [path])
  else if decide (name = "list_files" ∨ name = "search") then
    let path := default (JStr ".") (dict_get "path" args) in
    Ok (ToolEffectClass.PURE, if decide (path = JStr "" ∨ path = JStr ".") then [] else [path])
  else if decide (name = "write_file" ∨ name = "patch_file") then
    path ← item "path" args; Ok (ToolEffectClass.DETECTABLE_IDEMPOTENT, [path])
  else if decide (name = "run_process") then
    if rt.(process_tools_enabled) then Ok (ToolEffectClass.NON_IDEMPOTENT, [])
    else Err ValueError
  else Err ValueError.

(** The [try] block that reads a tool payload. *)
Definition read_tool_payload (payload : dict) : res (string * dict * ToolEffectClass.t * list json) :=
  name ← item "name" payload;
  let args := default (default (JObj []) (dict_get "arguments" payload)) (dict_get "args" payload) in
  match name, args with
  | JStr name, JObj args =>
      c ← classify name args; Ok (name, args, c.1, c.2)
  | _, _ => Err TypeError
  end.

(** A list of JSON values as texts. *)
Fixpoint texts (l : list json) : option (list string) :=
  match l with
  | [] => Some []
  | JStr s :: l' => ss ← texts l'; Some (s :: ss)
  | _ :: _ => None
  end.

(** [propose_tool_call]; a target path that is no text is a TypeError of the normalization,
    after the arguments were normalized. *)
Definition propose (run_id response_event_id name : string) (args : dict)
    (effect : ToolEffectClass.t) (targets : list json) : io ToolCallRecord :=
  let py_args := map (λ kv, (PStr kv.1, py_of_json kv.2)) args in
  match texts targets with
  | None => _ ← lift (canonicalize_tool_args py_args); raise TypeError
  | Some paths =>
      call (λ o ctx, propose_tool_call o run_id
        {| pr_response_event_id := response_event_id; pr_ordinal := 0; pr_tool_name := name;
           pr_tool_version := "1"; pr_args := py_args; pr_effect_class := effect;
           pr_target_paths := paths; pr_policy_version := "policy-v1" |}
        rt.(process_instance_id) ctx)
  end.

(** Record that a response is unusable. *)
Definition reject_output (run_id : string) (response_event : EventEnvelope) (reason : string)
    : io unit :=
  projection ← query (get_run_projection run_id);
  _ ← append_run_event run_id projection (Some response_event.(event_id))
        (ModelOutputRejectedPayload response_event.(event_id) reason);
  mret tt.

(** ** The loop *)

(** What one response leads to. *)
Definition consume_response (run_id : string) (response_event : EventEnvelope) (raw : string)
    : io (option AgentOutcome) :=
  match parse raw with
  | Retry notice => reject_output run_id response_event (char_take 1000 notice);; mret None
  | Final payload =>
      let answer := strip payload in
      blob ← sb_of_put limits answer TEXT_MEDIA_TYPE;
      _ ← call (λ o ctx, commit_final_answer o run_id response_event.(event_id) blob.(sb_sha256)
                  VerificationStatus.NOT_CONFIGURED rt.(process_instance_id) ctx);
      mret (Some (answered answer))
  | Tool payload =>
      match read_tool_payload payload with
      | Err e =>
          text ← message e;
          reject_output run_id response_event ("invalid tool call: " +:+ exn_name e +:+ ": " +:+ text);;
          mret None
      | Ok (name, args, effect, targets) =>
          call_record ← propose run_id response_event.(event_id) name args effect targets;
          continue_tool run_id call_record.(tr_tool_call_id)
      end
  end.

(** The response to work on: one that waits, or that of a new model call. *)
Definition next_response (run_id : string) : io (EventEnvelope * string + AgentOutcome) :=
  recovered ← latest_unconsumed_model_response run_id;
  match recovered with
  | Some (response_event, raw, step) =>
      settle_model_budget run_id step;; mret (inl (response_event, raw))
  | None =>
      step ← query (get_next_model_step run_id);
      if decide (rt.(max_steps) ≤ step)%Z then
        mret (inr (ended AgentStatus.STEP_LIMIT
                     ("reached " +:+ int_str rt.(max_steps) +:+ " model steps")))
      else r ← call_model run_id step; mret (inl r)
  end.

(** The body of the loop. *)
Definition agent_step (run_id : string) : io (option AgentOutcome) :=
  renew_lease;;
  maybe_checkpoint run_id;;
  cancelled ← query (is_cancellation_requested run_id);
  if cancelled : bool then
    _ ← terminate run_id ExecutionStatus.CANCELLED "durable cancellation observed by runtime";
    mret (Some (ended AgentStatus.CANCELLED "cancellation requested"))
  else
    pending ← query (get_unfinished_tool_call run_id);
    match pending with
    | Some call_record => continue_tool run_id call_record.(tr_tool_call_id)
    | None =>
        response ← next_response run_id;
        match response with
        | inr outcome => mret (Some outcome)
        | inl (response_event, raw) => consume_response run_id response_event raw
        end
    end.

(** [for _ in range(n)]. *)
Fixpoint agent_loop (n : nat) (run_id : string) : io AgentOutcome :=
  match n with
  | O => mret (ended AgentStatus.STEP_LIMIT "reached the bounded runtime action limit")
  | S n' =>
      outcome ← agent_step run_id;
      match outcome with
      | Some out => mret out
      | None => agent_loop n' run_id
      end
  end.

(** [_run_with_lease]. *)
Definition run_with_lease (run_id : string) : io AgentOutcome :=
  projection ← query (get_run_projection run_id);
  if decide (projection.(p_execution_status) = ExecutionStatus.COMPLETED) then
    mret (ended AgentStatus.COMPLETED "run was already completed")
  else if decide (projection.(p_execution_status) ≠ ExecutionStatus.ACTIVE) then
    mret (ended (if decide (projection.(p_execution_status) = ExecutionStatus.CANCELLED)
                 then AgentStatus.CANCELLED else AgentStatus.NEEDS_ATTENTION)
            ("run status is " +:+ value projection.(p_execution_status)))
  else
    ensure (projection.(p_phase) = Some RunPhase.AWAITING_MODEL) RunStateConflictError;;
    agent_loop (Z.to_nat (rt.(max_steps) * 2)) run_id.

(** The handlers around [_run_with_lease]. *)
Definition run_handled (run_id : string) : io AgentOutcome :=
  let finish st status e :=
    text ← message e;
    _ ← terminate run_id st text;
    mret (ended status text) in
  try (run_with_lease run_id)
    (λ e, match e with
          | BudgetLimitError =>
              Some (finish ExecutionStatus.BUDGET_EXCEEDED AgentStatus.BUDGET_EXCEEDED e)
          | ModelInvocationError =>
              Some (finish ExecutionStatus.NEEDS_ATTENTION AgentStatus.NEEDS_ATTENTION e)
          | _ => None
          end).

(** The release of an owned lease; a newer owner keeps its lease. *)
Definition release_owned (lease : RunLease) : io unit :=
  try (call (λ _ _, release_run_lease lease))
    (λ e, match e with LeaseConflictError => Some (mret tt) | _ => None end).

(** [DurableAgentRuntime.run]. *)
Definition run (run_id : string) (execution_context : option ExecutionContext) : io AgentOutcome :=
  match execution_context with
  | None =>
      owned_lease ← call (λ o _, acquire_run_lease o run_id rt.(process_instance_id) LEASE_TTL None);
      finally
        (projection ← query (get_run_projection run_id);
         c ← lift (ExecutionContext_init run_id rt.(process_instance_id) owned_lease.(rl_epoch)
                     owned_lease.(rl_expires_at) projection.(p_last_event_seq));
         put (λ w, w <| w_ctx := Some c |>);;
         run_handled run_id)
        (release_owned owned_lease)
  | Some c =>
      ensure (c.(ec_run_id) = run_id) ValueError;;
      ensure (c.(ec_worker_id) = rt.(process_instance_id)) ValueError;;
      put (λ w, w <| w_ctx := Some c |>);;
      _ ← call (λ o, with_context (synchronize_execution_context o));
      run_handled run_id
  end.
End agent.
