(* ===== verification/AgentScenario.v ===== *)
(** * AgentScenario: a concrete environment and workspace to evaluate the agent in

    A platform whose digest is 64 hexadecimal digits of a small polynomial of the bytes, a quiet
    environment (nobody interferes, nothing dies), a workspace with one file, and a run that
    is ready for the agent. *)

From S2P Require Import Prelude Text Domain Platform Json Events Projection ToolIdentity Tables.
From S2P Require Import Ledger ModelCalls Leases Checkpoints Runs Tools Budget Store Scenario.
From S2P Require Import FileSystem World FileTools Process Executors PromptSet ModelClient MiniAgent Agent.

(** ** The platform *)

Definition polynomial (s : string) : Z :=
  (fix go (acc : Z) (s : string) : Z :=
     match s with
     | EmptyString => acc
     | String a s' => go (Z.land (acc * 257 + Z.of_nat (nat_of_ascii a) + 1) (2 ^ 40 - 1)) s'
     end)%Z 7%Z s.

Fixpoint hex_digits (n : nat) (z : Z) (acc : string) : string :=
  match n with
  | O => acc
  | S n' => hex_digits n' (Z.shiftr z 4) (String (hex_digit (Z.to_nat (Z.land z 15))) acc)
  end.

Definition toy_digest (s : string) : string := hex_digits 64 (polynomial s) "".

#[global] Instance toy_platform : Platform := {|
  sha256_text := toy_digest;
  uuid_canon s := if decide (s = "") then None else Some s;
  nfc s := s;
  path_resolve s := s;
  path_resolve_strict s := Some s;
  float_repr _ := "0.0";
  float_of _ := None;
|}.

#[global] Instance toy_platform_laws : PlatformLaws.
Proof. intros s t. cbn. case_decide; [done|]. intros [= <-]. by rewrite decide_False. Qed.

(** ** The environment *)

Definition root : path := ["work"].
Definition plain_inode (n : Z) : inode :=
  {| i_device := 1; i_number := n; i_mode := 420; i_links := 1 |}.

Definition environment (fates : nat → Fate) : Environment := {|
  clock n := tick (100 + n);
  others _ s := s;
  others_fs _ f := f;
  fate := fates;
  text_of _ e := exn_name e;
  provider _ _ := Unreachable;
  spawn _ command _ := Ok {| px_exit_code := 0; px_timed_out := false; px_duration_ms := 1;
                             px_stdout := ["ran " +:+ join " " command]; px_stderr := [] |};
  new_inode n := plain_inode (1000 + Z.of_nat n);
  token n := "token" +:+ int_str (Z.of_nat n);
  dir_size n := 4096%Z;
  regex p := Some (contains p);
|}.

#[global] Instance quiet : Environment := environment (λ _, Alive).

(** The same surroundings, in which this process dies after its [n]-th step took effect. *)
Definition dies_after (n : nat) : Environment :=
  environment (λ k, if decide (k = n) then DiesAfter else Alive).

Definition demo_fs : fs :=
  {[ [] := Dir (plain_inode 1); root := Dir (plain_inode 2);
     (root ++ ["a.txt"]) := File (plain_inode 3) "old text" ]}.

Definition demo_guard : WorkspacePathGuard :=
  {| workspace_root := root; harness_state_root := None; max_depth := 32 |}.

(** ** The worker *)

Definition scripted_runtime : DurableAgentRuntime := {|
  model := ScriptedModel;
  file_executor := {| fx_tools := {| guard := demo_guard; max_file_bytes := 4194304 |};
                      fx_process_instance_id := "worker"; fx_hook := None |};
  shell_executor := {| sx_max_output_bytes := 262144; sx_guard := demo_guard;
                       sx_process_instance_id := "worker"; sx_hook := None |};
  process_instance_id := "worker";
  max_steps := 12;
  max_output_tokens := 1024;
  auto_approve_file_mutations := true;
  auto_approve_processes := true;
  process_tools_enabled := true;
  checkpoint_interval_events := 25;
  prompt_working_set_reader := None;
|}.

(** A run whose workspace is provisioned and that nobody leases. *)
Definition provisioning : list command :=
  [CreateSession "session" "/workspace" (JObj []) "process";
   CreateTurnAndRun "session" "turn" "run" "hello" "/repo" "abc" {[ "model_calls" := 5%Z ]} "process";
   BeginWorkspaceProvisioning "run" DirtyMode.REFUSE "process" None;
   AttachProvisionedWorkspace "run" "/worktree" "branch" "abc" "/marker" "token" "process" None].

Definition provisioned_db : db := run_trace 0 provisioning empty_db.

Lemma toy_tick_ok n : oracle_ok (tick n).
Proof. intros k. cbn. by rewrite decide_False. Qed.

Lemma provisioned_reachable : reachable demo_limits provisioned_db.
Proof.
  apply trace_reachable; [apply toy_tick_ok|exact (reachable_init demo_limits ∅ ∅)|].
  vm_compute. reflexivity.
Qed.

Definition start (outputs : list string) : world := {|
  w_db := provisioned_db; w_fs := demo_fs; w_ctx := None; w_outputs := outputs;
  w_observer := new_observer; w_label := None; w_tick := 0; w_history := [];
|}.

(** The workspace alone. *)
Definition workspace_world : world := (start []) <| w_db := empty_db |>.

(** [<tool>] around a JSON text whose quotes are written as apostrophes. *)
Fixpoint quotes (s : string) : string :=
  match s with
  | EmptyString => ""
  | String a s' => String (if decide (a = "'"%char) then quote_char else a) (quotes s')
  end.

Definition tool_text (s : string) : string := "<tool>" +:+ quotes s +:+ "</tool>".

(** A run in which the model starts a process and answers. *)
Definition acting_world : world :=
  start [tool_text "{'name': 'run_process', 'args': {'argv': ['ls']}}"; "<final>done</final>"].

Abbreviation acting_run := (Agent.run demo_limits scripted_runtime "run" None acting_world).

Lemma acting_history :
  map h_action acting_run.2.(w_history) = [StartProcess ["ls"] root].
Proof. vm_compute. reflexivity. Qed.

(** The run cancelled before a worker takes it. *)
Definition cancelled_db : db :=
  run_trace 4 [RequestCancellation "run" "user" "enough" "process"
                 (Some {| cc_command_id := "cancel"; cc_actor := "user";
                          cc_expected_stream_version := 8 |})] provisioned_db.

Lemma cancelled_reachable : reachable demo_limits cancelled_db.
Proof.
  apply trace_reachable; [apply toy_tick_ok|apply provisioned_reachable|]. vm_compute. reflexivity.
Qed.

Definition cancelled_world : world := acting_world <| w_db := cancelled_db |>.

(** The step that draws an identifier can be read off it. *)
Lemma drawn_by_tick n m : new_id (clock n) 0 = new_id (clock m) 0 → n = m.
Proof.
  cbn. intros Hid. assert (∀ z, parse_number (int_str z) = Some (JInt z, "")) as Hp.
  { intros z. rewrite <- (str_app_nil_r (int_str z)) at 1. by apply parse_number_int. }
  assert (int_str (Z.of_nat (10 * (100 + n) + 0)) = int_str (Z.of_nat (10 * (100 + m) + 0))) as Hs
    by by injection Hid.
  pose proof (Hp (Z.of_nat (10 * (100 + n) + 0))) as H1. rewrite Hs, Hp in H1.
  injection H1. lia.
Qed.
