(* ===== verification/MutationSafety.v ===== *)
(** * MutationSafety: file mutations survive a crash

    Nobody else changes files here, but the process may die at any step. A file mutation
    leaves the old or the new content, and reconciliation tells which. *)

From S2P Require Import Prelude Text Domain Platform Json ToolIdentity Tables.
From S2P Require Import FileSystem GuardSafety World FileTools ProgramRel AgentScenario.

Section mutation.
Context `{Platform} `{Environment} `{!QuietFiles}.

(** A file just created has one link. *)
Class FreshInodes : Prop := fresh_links : ∀ n, (new_inode n).(i_links) = 1%Z.
Context `{!FreshInodes}.

Variable tools : ReplaySafeFileTools.

Abbreviation root := (workspace_root (guard tools)).

(** ** Changing the target of a guarded path *)

(** [f] and [f'] differ at most in entries as deep as [target]. *)
Definition same_above (target : path) (f f' : fs) : Prop :=
  ∀ q, length q < length target → f' !! q = f !! q.

(** What a writable target may be. *)
Definition writable_entry (n : option node) : Prop :=
  match n with
  | Some (Symlink _ _) => False
  | Some (File m _) => (m.(i_links) ≤ 1)%Z
  | _ => True
  end.

Lemma real_same_above target f f' p :
  same_above target f f' → length p < length target → real f p → real f' p.
Proof.
  intros Hs Hl [Hn Hr]. split; [done|]. intros q Hq Hp. rewrite Hs; [by apply Hr|].
  apply prefix_length in Hp. lia.
Qed.

Lemma clear_way_same_above f f' parts : ∀ here,
  same_above (here ++ parts) f f' → writable_entry (f' !! (here ++ parts)) →
  clear_way f true here parts → clear_way f' true here parts.
Proof.
  induction parts as [|c parts IH]; intros here Hs Hw; [done|]. cbn [clear_way]. intros [Hc Hrest].
  split.
  - destruct (decide (parts = [])) as [->|Hne].
    + by destruct (f' !! (here ++ [c])) as [[]|]; cbn in *; try done; [lia|]; intros [].
    + rewrite Hs; [done|]. destruct parts; [done|]. rewrite !length_app. cbn. lia.
  - rewrite <- snoc_app in Hs, Hw. by apply IH.
Qed.

(** A plan that describes the files [f]. *)
Record plan_of (f : fs) (plan : FileMutationPlan) (parts : list string) : Prop := {
  po_root : real f root;
  po_parts : lexical_parts tools.(guard).(max_depth) plan.(relative_path) = Ok parts;
  po_way : clear_way f true root parts;
  po_harness : ¬ in_harness tools.(guard) (root ++ parts);
  po_parent : identity_at f (parent (root ++ parts)) = Ok plan.(parent_identity);
  po_post : plan.(post_sha256) = sha256_text plan.(post_content);
  po_pre : match f !! (root ++ parts) with
           | None => plan.(pre_sha256) = ABSENT_SHA256 ∧ plan.(pre_identity) = None
           | Some (File m c) => plan.(pre_sha256) = sha256_text c
               ∧ ∃ i, plan.(pre_identity) = Some i ∧ identity_at f (root ++ parts) = Ok i
           | _ => False
           end;
}.

Section plan.
Context (f : fs) (plan : FileMutationPlan) (parts : list string) (Hplan : plan_of f plan parts).

Abbreviation target := (root ++ parts).

Lemma plan_parts_ne : parts ≠ [].
Proof. by apply (lexical_parts_Ok _ _ _ (po_parts _ _ _ Hplan)). Qed.

Lemma target_real : real f target.
Proof.
  destruct Hplan as [Hr Hp Hc _ _ _ _]. eapply clear_way_real; [done| |done].
  apply lexical_parts_Ok in Hp as (_ & Hs & _). eapply Forall_impl; [exact Hs|]. by intros c [[? _] _].
Qed.

Lemma target_snoc : target = parent target ++ [name target].
Proof.
  pose proof plan_parts_ne. destruct parts as [|c ps _] using rev_ind; [done|].
  by rewrite app_assoc, parent_snoc, name_snoc.
Qed.

Lemma parent_length : length target = S (length (parent target)).
Proof. rewrite target_snoc at 1. rewrite length_app. cbn. lia. Qed.

(** With a changed target, the guard gives the same path. *)
Lemma target_guarded f' :
  same_above target f f' → writable_entry (f' !! target) →
  resolve_for_write tools.(guard) f' plan.(relative_path) = Ok (guarded tools.(guard) f' parts)
  ∧ real f' target.
Proof.
  intros Hs Hw. pose proof plan_parts_ne as Hne. destruct Hplan as [Hr Hp Hc Hh _ _ _].
  assert (real f' root) as Hr'.
  { eapply real_same_above; [exact Hs| |done]. rewrite length_app. destruct parts; [done|cbn; lia]. }
  assert (clear_way f' true root parts) as Hc' by by eapply clear_way_same_above.
  split; [apply guard_resolve_iff; [done|]; by exists parts|].
  eapply clear_way_real; [done| |done].
  apply lexical_parts_Ok in Hp as (_ & Hsp & _). eapply Forall_impl; [exact Hsp|]. by intros c [[? _] _].
Qed.

Lemma file_identity f' m c : real f' target → f' !! target = Some (File m c) →
  identity_at f' target = Ok {| device := m.(i_device); inode_number := m.(i_number);
                                size := Z.of_nat (String.length c); mode := m.(i_mode) |}.
Proof. intros Hr Hf. unfold identity_at. by rewrite stat_real, Hf. Qed.

Lemma target_writable : writable_entry (f !! target).
Proof.
  pose proof (clear_way_write _ _ _ (po_way _ _ _ Hplan)) as [_ Hl].
  pose proof (po_pre _ _ _ Hplan) as Hpre. destruct (f !! target) as [[m|m c| |]|] eqn:Hf; try done.
  by apply (Hl m c plan_parts_ne).
Qed.

(** ** Reconciliation *)

(** With the target as planned, the mutation is safe to retry, or changes nothing. *)
Definition unchanged_decision : FileReconcileDecision.t :=
  if decide (plan.(pre_sha256) = plan.(post_sha256))
  then FileReconcileDecision.COMPLETED else FileReconcileDecision.RETRY_SAFE.

Lemma reconcile_unchanged (f' : fs) (Q : FileReconcileDecision.t → fs → Prop) (E : exn → fs → Prop) :
  same_above target f f' → f' !! target = f !! target →
  Q unchanged_decision f' → (mortal → E Killed f') → from f' (reconcile tools plan) Q E.
Proof.
  intros Hs Ht HQ HE. unfold reconcile.
  destruct (target_guarded f') as [Hg Hr]; [done|rewrite Ht; apply target_writable|].
  eapply from_bind_look; [exact Hg| |done]. cbn [gp_exists absolute guarded].
  pose proof (po_pre _ _ _ Hplan) as Hpre. revert HQ. unfold unchanged_decision.
  rewrite <- Ht in Hpre. destruct (f' !! target) as [[m|m c|a t|m]|] eqn:Hf; try done.
  - destruct Hpre as (Hsha & i & Hpi & Hi). rewrite bool_decide_eq_true_2 by by eexists.
    intros HQ. eapply from_bind_look; [unfold read_bytes; by rewrite stat_real, Hf| |done].
    cbn beta. rewrite Hsha in HQ. case_decide as Hd; [by apply from_ret|].
    rewrite (decide_False (P := sha256_text c ≠ pre_sha256 plan)) by (intros Hn; by apply Hn).
    rewrite Hpi. apply from_try; [|done]. eapply from_bind_look; [by apply file_identity| |done].
    rewrite decide_True; [by apply from_ret|].
    rewrite (file_identity f m c (target_real)) in Hi by by rewrite <- Ht. by injection Hi.
  - destruct Hpre as [Hsha Hpi]. rewrite bool_decide_eq_false_2 by by intros [].
    intros HQ. apply from_bind, from_ret. rewrite Hsha in HQ. case_decide as Hd; [by apply from_ret|].
    rewrite decide_False by (intros Hn; by apply Hn). rewrite Hpi. by apply from_ret.
Qed.

(** With the new content in place, the mutation is completed. *)
Lemma reconcile_replaced (f' : fs) (m : inode) (Q : FileReconcileDecision.t → fs → Prop) (E : exn → fs → Prop) :
  same_above target f f' → f' !! target = Some (File m plan.(post_content)) →
  (m.(i_links) ≤ 1)%Z →
  Q FileReconcileDecision.COMPLETED f' → (mortal → E Killed f') → from f' (reconcile tools plan) Q E.
Proof.
  intros Hs Ht Hm HQ HE. unfold reconcile.
  destruct (target_guarded f') as [Hg Hr]; [done|by rewrite Ht|].
  eapply from_bind_look; [exact Hg| |done]. cbn [gp_exists absolute guarded].
  rewrite Ht, bool_decide_eq_true_2 by by eexists.
  eapply from_bind_look; [unfold read_bytes; by rewrite stat_real, Ht| |done].
  cbn beta. rewrite decide_True by (symmetry; apply Hplan). by apply from_ret.
Qed.

(** ** Execution *)

Hypothesis Hfresh : ∀ n, f !! temporary_path target (token n) = None.

(** Where an execution that dies can leave the files. *)
Inductive interrupted (temporary : path) : fs → Prop :=
| untouched : interrupted temporary f
| preparing m c : interrupted temporary (<[temporary := File m c]> f)
| replaced m : m.(i_links) = 1%Z →
    interrupted temporary (<[target := File m plan.(post_content)]> f).

(** The directory of the target is missing. *)
Definition no_directory : Prop := ∀ m, f !! parent target ≠ Some (Dir m).

(** How an execution ends when it does not return. *)
Definition broken_off (e : exn) (f' : fs) : Prop :=
  (e = Killed ∧ mortal ∧ ∃ n, interrupted (temporary_path target (token n)) f')
  ∨ (e ≠ Killed ∧ f' = f ∧ no_directory).

(** How it returns. *)
Definition executed (r : FileMutationReceipt) (f' : fs) : Prop :=
  (r = receipt plan true ∧ plan.(pre_sha256) = plan.(post_sha256) ∧ f' = f)
  ∨ (r = receipt plan false ∧ plan.(pre_sha256) ≠ plan.(post_sha256)
     ∧ ∃ m, m.(i_links) = 1%Z ∧ m.(i_mode) = from_option mode 420%Z plan.(pre_identity)
            ∧ f' = <[target := File m plan.(post_content)]> f).

Section temporary.
Variable n : nat.
Abbreviation temporary := (temporary_path target (token n)).

Lemma temporary_snoc : ∃ c, temporary = parent target ++ [c] ∧ plain_part c ∧ c ≠ name target.
Proof.
  unfold temporary_path. eexists. split; [done|]. split.
  - split_and!; [done|..]; destruct (name target) as [|a [|b s]]; done.
  - intros E. apply (f_equal String.length) in E. rewrite str_length_app in E.
    rewrite str_length_app in E. cbn in E. lia.
Qed.

Lemma temporary_not_target : temporary ≠ target.
Proof.
  destruct temporary_snoc as (c & -> & _ & Hc). rewrite target_snoc at 2.
  intros [_ E]%app_inj_tail. done.
Qed.

Lemma temporary_same_above node : same_above target f (<[temporary := node]> f).
Proof.
  intros q Hq. rewrite lookup_insert_ne; [done|]. intros <-.
  destruct temporary_snoc as (c & Ht & _). rewrite Ht, length_app in Hq. cbn in Hq.
  pose proof parent_length. lia.
Qed.

Lemma temporary_entry f' : same_above target f f' →
  entry f' temporary = Some temporary ∧ entry f' target = Some target
  ∧ (not_link (f' !! temporary) → real f' temporary).
Proof.
  intros Hs. assert (real f' (parent target)) as Hr.
  { eapply real_same_above; [exact Hs|rewrite parent_length; lia|].
    eapply real_prefix; [apply target_real|apply parent_prefix]. }
  destruct temporary_snoc as (c & -> & Hc & _).
  split_and!; [by apply entry_real|rewrite target_snoc at 1 2; by apply entry_real|].
  by apply real_snoc.
Qed.

(** The file operations on the temporary file. *)
Lemma create_temporary k :
  create_exclusive (new_inode k) f temporary =
  match f !! parent target with
  | Some (Dir _) => Ok (<[temporary := File (new_inode k) ""]> f)
  | Some _ => Err OSError
  | None => Err FileNotFoundError
  end.
Proof.
  unfold create_exclusive. destruct (temporary_entry f) as (-> & _ & _); [done|]. cbn.
  rewrite Hfresh. destruct temporary_snoc as (c & -> & _). by rewrite parent_snoc.
Qed.

Lemma update_temporary (u : inode → string → node) m c :
  update_file u (<[temporary := File m c]> f) temporary
  = Ok (<[temporary := u m c]> f).
Proof.
  unfold update_file.
  destruct (temporary_entry _ (temporary_same_above (File m c))) as (_ & _ & Hr).
  rewrite (walk_real _ _ temporary []) by (apply Hr; by rewrite lookup_insert_eq).
  cbn. by rewrite lookup_insert_eq, insert_insert_eq.
Qed.

Lemma replace_target m c d :
  f !! parent target = Some (Dir d) →
  replace_file (<[temporary := File m c]> f) temporary target = Ok (<[target := File m c]> f).
Proof.
  intros Hd. unfold replace_file.
  destruct (temporary_entry _ (temporary_same_above (File m c))) as (-> & -> & _). cbn.
  rewrite lookup_insert_eq. rewrite lookup_insert_ne by apply temporary_not_target.
  rewrite (lookup_insert_ne _ _ (parent target)), Hd.
  - pose proof (po_pre _ _ _ Hplan) as Hpre.
    rewrite delete_insert_id by apply Hfresh. by destruct (f !! target) as [[]|].
  - intros E. apply (f_equal length) in E. destruct temporary_snoc as (c' & Ht & _).
    rewrite Ht, length_app in E. cbn in E. lia.
Qed.

(** [prepare_and_replace] replaces the target, or dies on the way; where the directory is
    missing it changes nothing. *)
Lemma prepare_from :
  plan.(pre_sha256) ≠ plan.(post_sha256) →
  from f (prepare_and_replace tools plan target temporary)
    (λ _ f', ∃ m, m.(i_links) = 1%Z ∧ m.(i_mode) = from_option mode 420%Z plan.(pre_identity)
                  ∧ f' = <[target := File m plan.(post_content)]> f)
    (λ e f', (e = Killed ∧ mortal ∧ interrupted temporary f')
             ∨ (e ≠ Killed ∧ f' = f ∧ no_directory)).
Proof.
  intros Hne. unfold prepare_and_replace.
  assert (∀ f', interrupted temporary f' → mortal →
    (Killed = Killed ∧ mortal ∧ interrupted temporary f')
    ∨ (Killed ≠ Killed ∧ f' = f ∧ no_directory)) as HE by (by left).
  apply from_bind, from_change; [intros k; rewrite create_temporary|apply HE, untouched].
  destruct (f !! parent target) as [nd|] eqn:Hd; [|right; unfold no_directory; by rewrite Hd].
  destruct nd as [d|m c|a t|m]; try (right; unfold no_directory; by rewrite Hd).
  split; [|apply HE, preparing].
  apply from_bind, from_change; [intros k'|apply HE, preparing].
  unfold write_file. rewrite update_temporary. split; [|apply HE, preparing].
  apply from_bind, from_change; [intros k''|apply HE, preparing].
  unfold chmod. rewrite update_temporary. split; [|apply HE, preparing].
  apply from_bind. eapply reconcile_unchanged; [by apply temporary_same_above| |
    |apply HE, preparing].
  { rewrite lookup_insert_ne; [done|apply temporary_not_target]. }
  unfold unchanged_decision. rewrite decide_False by done.
  apply from_bind_ensure; [done|]. apply from_replace_step; [|apply HE, preparing].
  erewrite replace_target by done. split; [|apply HE, replaced; apply fresh_links].
  eexists. split_and!; [..|reflexivity]; [apply fresh_links|by destruct (pre_identity plan)].
Qed.

Lemma remove_from (f' : fs) (Q : unit → fs → Prop) (E : exn → fs → Prop) :
  f' !! temporary = None → same_above target f f' → Q tt f' → (mortal → E Killed f') →
  from f' (remove_temporary temporary) Q E.
Proof.
  intros Hn Hs HQ HE. unfold remove_temporary.
  destruct (temporary_entry _ Hs) as (_ & _ & Hr). eapply from_bind_look; [done| |done].
  unfold exists_at. rewrite stat_real by (apply Hr; by rewrite Hn). rewrite Hn. by apply from_ret.
Qed.
End temporary.

Lemma same_above_target (x : node) : same_above target f (<[target := x]> f).
Proof. intros q Hq. rewrite lookup_insert_ne; [done|]. intros <-. lia. Qed.

Lemma execute_from : from f (execute_plan tools plan) executed broken_off.
Proof.
  unfold execute_plan.
  assert (mortal → broken_off Killed f) as HE.
  { intros Hm. left. split_and!; [done|done|]. exists 0. apply untouched. }
  destruct (target_guarded f) as [Hg Hr]; [done|apply target_writable|].
  eapply from_bind_look; [exact Hg| |done]. cbn [absolute guarded].
  apply from_bind. apply reconcile_unchanged; [done|done| |done]. unfold unchanged_decision.
  case_decide as Hd; [apply from_ret; by left|].
  eapply from_bind_look; [apply (po_parent _ _ _ Hplan)| |done].
  apply from_bind_ensure; [done|]. apply from_bind, from_ask. intros w.
  apply from_bind, from_finally. eapply from_mono; [by apply prepare_from|..].
  - intros [] f' (m & Hm & Hmode & ->). apply remove_from.
    + rewrite lookup_insert_ne; [apply Hfresh|]. intros E. symmetry in E.
      by apply temporary_not_target in E.
    + apply same_above_target.
    + apply from_bind. eapply reconcile_replaced; [apply same_above_target| |by rewrite Hm| |].
      * by rewrite lookup_insert_eq.
      * apply from_bind_ensure; [done|]. apply from_ret. right. split_and!; [done|done|]. by exists m.
      * intros Hmt. left. split_and!; [done|done|]. exists 0. by apply replaced.
    + intros Hmt. left. split_and!; [done|done|]. exists 0. by apply replaced.
  - intros e f' [(-> & Hm & Hi)|(He & -> & Hd')].
    + split; [|by intros []]. intros _. left. split_and!; [done|done|]. by eexists.
    + split; [by intros ->|]. intros _. apply remove_from; [apply Hfresh|done| |done]. by right.
Qed.

(** ** After an execution *)

(** The new content is there, or the target is as it was; the rest of the workspace is. *)
Definition old_or_new (f' : fs) : Prop :=
  (∀ q, q ≠ target → (∀ n, q ≠ temporary_path target (token n)) → f' !! q = f !! q)
  ∧ same_above target f f'
  ∧ (f' !! target = f !! target
     ∨ ∃ m, m.(i_links) = 1%Z ∧ f' !! target = Some (File m plan.(post_content))).

Lemma interrupted_old_or_new n f' : interrupted (temporary_path target (token n)) f' → old_or_new f'.
Proof.
  intros [|m c|m Hm]; (split_and!; [| |]).
  - done.
  - done.
  - by left.
  - intros q _ Hq. by rewrite lookup_insert_ne by (symmetry; apply Hq).
  - apply temporary_same_above.
  - left. rewrite lookup_insert_ne; [done|apply temporary_not_target].
  - intros q Hq _. by rewrite lookup_insert_ne.
  - apply same_above_target.
  - right. exists m. by rewrite lookup_insert_eq.
Qed.

Lemma outcome_old_or_new w r w' :
  w_fs w = f → execute_plan tools plan w = (r, w') → old_or_new (w_fs w').
Proof.
  intros Hw Hr. pose proof (execute_from w Hw) as H'. rewrite Hr in H'. destruct r as [r|e].
  - destruct H' as [(_ & _ & ->)|(_ & _ & m & Hm & _ & ->)];
      apply (interrupted_old_or_new 0); [apply untouched|by apply replaced].
  - destruct H' as [(_ & _ & n & Hi)|(_ & -> & _)]; [by eapply interrupted_old_or_new|].
    apply (interrupted_old_or_new 0), untouched.
Qed.

(** Reconciliation of such files: it looks, it only fails by dying, and never finds a
    conflict. *)
Lemma reconcile_old_or_new f' : old_or_new f' →
  from f' (reconcile tools plan)
    (λ d f'', f'' = f' ∧ match d with
       | FileReconcileDecision.CONFLICT => False
       | FileReconcileDecision.RETRY_SAFE => f' !! target = f !! target
       | FileReconcileDecision.COMPLETED =>
           plan.(pre_sha256) = plan.(post_sha256)
           ∨ ∃ m, f' !! target = Some (File m plan.(post_content))
       end)
    (λ e f'', e = Killed ∧ f'' = f').
Proof.
  intros (_ & Hs & [Ht|(m & Hm & Ht)]).
  - apply reconcile_unchanged; [done|done| |done]. split; [done|]. unfold unchanged_decision.
    case_decide; [by left|done].
  - eapply reconcile_replaced; [done|done|by rewrite Hm| |done]. split; [done|]. right. by exists m.
Qed.

(** Executing a plan whose content is in place does nothing. *)
Lemma execute_again f' m :
  same_above target f f' → f' !! target = Some (File m plan.(post_content)) →
  (m.(i_links) ≤ 1)%Z →
  from f' (execute_plan tools plan) (λ r f'', r = receipt plan true ∧ f'' = f') (λ e _, e = Killed ∧ mortal).
Proof.
  intros Hs Ht Hm. unfold execute_plan. destruct (target_guarded f') as [Hg Hr]; [done|by rewrite Ht|].
  eapply from_bind_look; [exact Hg| |done]. apply from_bind.
  eapply reconcile_replaced; [done|done|done| |done]. by apply from_ret.
Qed.
End plan.

(** ** Planning *)

Lemma plan_write_from f raw content :
  real f root →
  from f (plan_write tools raw content)
    (λ plan f', f' = f ∧ ∃ parts, plan_of f plan parts) (λ _ f', f' = f).
Proof.
  intros Hr. unfold plan_write. apply from_bind, from_lift.
  destruct (bytes_of_json content) as [post|]; [|done].
  apply from_bind, from_ensure; [intros _|done]. apply from_bind, from_look; [|done].
  destruct (resolve_for_write (guard tools) f raw) as [p|] eqn:Hp; [|done].
  apply guard_resolve_iff in Hp as (parts & Hparts & Hway & Hh & ->); [|done]. cbn [absolute gp_exists guarded].
  apply from_bind, from_look; [|done].
  destruct (identity_at f (parent (root ++ parts))) as [pi|] eqn:Hpi; [|done].
  assert (real f (root ++ parts)) as Hreal.
  { eapply clear_way_real; [done| |done]. apply lexical_parts_Ok in Hparts as (_ & Hsp & _).
    eapply Forall_impl; [exact Hsp|]. by intros c [[? _] _]. }
  assert (∀ pre_id pre_sha,
    match f !! (root ++ parts) with
    | None => pre_sha = ABSENT_SHA256 ∧ pre_id = None
    | Some (File m c) => pre_sha = sha256_text c
        ∧ ∃ i, pre_id = Some i ∧ identity_at f (root ++ parts) = Ok i
    | _ => False
    end → plan_of f {| relative_path := join "/" parts; pre_sha256 := pre_sha;
                       post_sha256 := sha256_text post; post_content := post;
                       pre_identity := pre_id; parent_identity := pi |} parts) as Hplan.
  { intros pre_id pre_sha Hpre. split; try done. by eapply lexical_parts_join. }
  destruct (f !! (root ++ parts)) as [nd|] eqn:Hf.
  - rewrite bool_decide_eq_true_2 by by eexists. apply from_bind, from_bind, from_look; [|done].
    unfold is_file. rewrite stat_real, Hf by done.
    destruct nd as [m|m c|a t|m]; (apply from_bind, from_ensure; [intros Hfile|done]); try done.
    apply from_bind, from_look; [|done]. unfold read_bytes. rewrite stat_real, Hf by done.
    apply from_bind, from_ensure; [intros _|done]. apply from_bind, from_look; [|done].
    destruct (identity_at f (root ++ parts)) as [i|] eqn:Hi; [|done].
    apply from_ret, from_ret. split; [done|]. exists parts. apply Hplan. cbn. by eauto.
  - rewrite bool_decide_eq_false_2 by by intros []. apply from_bind, from_ret, from_ret.
    split; [done|]. exists parts. by apply Hplan.
Qed.

(** ** Properties *)

Lemma planned w raw content plan w1 :
  real (w_fs w) root → plan_write tools raw content w = (Ok plan, w1) →
  w_fs w1 = w_fs w ∧ ∃ parts, plan_of (w_fs w) plan parts.
Proof.
  intros Hr Hp. pose proof (plan_write_from (w_fs w) raw content Hr w eq_refl) as Hf.
  by rewrite Hp in Hf.
Qed.

(** C12. A crash never tears a file: after a write was planned and its execution returned, raised
    or died at any step, the target holds its old entry or exactly the new content, no other
    entry of the file system differs except the temporary file, and reconciling the plan
    afterwards looks only, never finds a conflict, and tells the two cases apart. *)
Theorem interrupted_mutation_is_recoverable w raw content plan w1 r w2 :
  real (w_fs w) root → plan_write tools raw content w = (Ok plan, w1) →
  (∀ q n, w_fs w !! temporary_path q (token n) = None) →
  execute_plan tools plan w1 = (r, w2) →
  ∃ p, resolve_for_write tools.(guard) (w_fs w) plan.(relative_path) = Ok p
    ∧ (∀ q, q ≠ p.(absolute) → (∀ n, q ≠ temporary_path p.(absolute) (token n)) →
         w_fs w2 !! q = w_fs w !! q)
    ∧ (w_fs w2 !! p.(absolute) = w_fs w !! p.(absolute)
       ∨ ∃ m, w_fs w2 !! p.(absolute) = Some (File m plan.(post_content)))
    ∧ ∀ w3 d w4, w_fs w3 = w_fs w2 → reconcile tools plan w3 = (d, w4) →
        w_fs w4 = w_fs w2
        ∧ match d with
          | Ok FileReconcileDecision.CONFLICT => False
          | Ok FileReconcileDecision.RETRY_SAFE =>
              w_fs w2 !! p.(absolute) = w_fs w !! p.(absolute)
          | Ok FileReconcileDecision.COMPLETED =>
              plan.(pre_sha256) = plan.(post_sha256)
              ∨ ∃ m, w_fs w2 !! p.(absolute) = Some (File m plan.(post_content))
          | Err e => e = Killed
          end.
Proof.
  intros Hr Hp Hfresh He. destruct (planned _ _ _ _ _ Hr Hp) as (Hw1 & parts & Hplan).
  exists (guarded tools.(guard) (w_fs w) parts).
  assert (old_or_new (w_fs w) plan parts (w_fs w2)) as Ho.
  { by apply (outcome_old_or_new (w_fs w) plan parts Hplan (λ n, Hfresh _ n) w1 r). }
  destruct (target_guarded _ _ _ Hplan (w_fs w)) as [Hg _]; [done|by eapply target_writable|].
  split_and!; [done|apply Ho|destruct Ho as (_ & _ & [?|(m & _ & ?)]); [by left|right; by exists m]|].
  intros w3 d w4 Hw3 Hd. pose proof (reconcile_old_or_new _ _ _ Hplan _ Ho w3 Hw3) as Hrec.
  rewrite Hd in Hrec. destruct d as [d|e]; [|by destruct Hrec as [-> ->]].
  destruct Hrec as [Hw4 Hcase]. split; [done|]. by destruct d.
Qed.

(** C38. A planned write succeeds when nobody interferes: its execution returns a receipt; when the
    digests differ the file then is exactly the planned content, with the permissions it had
    or 0644, the rest of the file system is as before and no temporary file is left; when they
    agree nothing changes; and executing the plan again reports that it was already applied
    and changes nothing. *)
Theorem planned_mutation_is_executed w raw content plan w1 p d :
  ¬ mortal → real (w_fs w) root → plan_write tools raw content w = (Ok plan, w1) →
  (∀ q n, w_fs w !! temporary_path q (token n) = None) →
  resolve_for_write tools.(guard) (w_fs w) plan.(relative_path) = Ok p →
  w_fs w !! parent p.(absolute) = Some (Dir d) →
  ∃ applied w2, execute_plan tools plan w1 = (Ok (receipt plan applied), w2)
    ∧ (applied = true → plan.(pre_sha256) = plan.(post_sha256) ∧ w_fs w2 = w_fs w)
    ∧ (applied = false → plan.(pre_sha256) ≠ plan.(post_sha256)
         ∧ (∃ m, m.(i_mode) = from_option mode 420%Z plan.(pre_identity)
                 ∧ w_fs w2 = <[p.(absolute) := File m plan.(post_content)]> (w_fs w))
         ∧ ∀ w3, w_fs w3 = w_fs w2 →
             ∃ w4, execute_plan tools plan w3 = (Ok (receipt plan true), w4) ∧ w_fs w4 = w_fs w2).
Proof.
  intros Hlive Hr Hp Hfresh Hg Hd. destruct (planned _ _ _ _ _ Hr Hp) as (Hw1 & parts & Hplan).
  destruct (target_guarded _ _ _ Hplan (w_fs w)) as [Hg' _]; [done|by eapply target_writable|].
  rewrite Hg in Hg'. injection Hg' as ->. cbn [absolute guarded] in *.
  pose proof (execute_from _ _ _ Hplan (λ n, Hfresh _ n) w1 Hw1) as He.
  destruct (execute_plan tools plan w1) as [[rc|e] w2] eqn:Hex.
  - destruct He as [(-> & Heq & Hw2)|(-> & Hne & m & Hm & Hmode & Hw2)];
      [exists true, w2|exists false, w2]; (split; [done|split; [|]]); try done.
    intros _. split_and!; [done|by exists m|]. intros w3 Hw3. rewrite Hw2 in Hw3.
    assert (from (w_fs w3) (execute_plan tools plan)
              (λ r f'', r = receipt plan true ∧ f'' = w_fs w3) (λ e _, e = Killed ∧ mortal)) as Hag.
    { apply (execute_again _ _ _ Hplan (w_fs w3) m); rewrite ?Hw3; [by apply same_above_target| |lia].
      by rewrite lookup_insert_eq. }
    specialize (Hag w3 eq_refl). destruct (execute_plan tools plan w3) as [[rc|e] w4].
    + destruct Hag as [-> Hw4]. exists w4. split; [done|]. congruence.
    + by destruct Hag.
  - exfalso. destruct He as [(_ & Hm & _)|(_ & _ & Hno)]; [done|]. by eapply Hno.
Qed.
End mutation.

(** ** Witnesses *)

#[global] Instance environment_quiet fates : @QuietFiles (environment fates).
Proof. done. Qed.

#[global] Instance environment_fresh fates : @FreshInodes (environment fates).
Proof. done. Qed.

Lemma demo_root_real : real demo_fs root.
Proof.
  split; [by apply Forall_singleton|]. intros q Hq [k Hk]. destruct q as [|c q]; [done|].
  injection Hk as <- Hk. symmetry in Hk. apply app_eq_nil in Hk as [-> _]. done.
Qed.

Lemma demo_temporary_fresh q t : demo_fs !! temporary_path q t = None.
Proof.
  unfold temporary_path, demo_fs. set (c := "." +:+ _).
  assert (∀ r s, r ++ [s] = parent q ++ [c] → s = c) as Hlast by (by intros r s [_ ?]%app_inj_tail).
  rewrite lookup_insert_ne, lookup_insert_ne, lookup_singleton_ne; [done|..].
  - intros E. by apply (Hlast ["work"]) in E.
  - intros E. by apply (Hlast []) in E.
  - intros E. symmetry in E. by apply app_eq_nil in E as [_ ?].
Qed.

Definition demo_tools : ReplaySafeFileTools := {| guard := demo_guard; max_file_bytes := 4194304 |}.

(** The plan to write "new text" over the file of the workspace. *)
Definition planning `{Environment} := plan_write demo_tools "a.txt" (JStr "new text") workspace_world.

Definition demo_plan : FileMutationPlan := Eval vm_compute in
  match planning.1 with
  | Ok plan => plan
  | Err _ => {| relative_path := ""; pre_sha256 := ""; post_sha256 := ""; post_content := "";
                pre_identity := None;
                parent_identity := {| device := 0; inode_number := 0; size := 0; mode := 0 |} |}
  end.

Lemma with_result {A} (x : res A * world) r : x.1 = r → x = (r, x.2).
Proof. by destruct x; cbn; intros ->. Qed.

Lemma dying_planning : @planning (dies_after 11) = (Ok demo_plan, (@planning (dies_after 11)).2).
Proof. apply with_result. vm_compute. reflexivity. Qed.

Lemma quiet_planning : planning = (Ok demo_plan, planning.2).
Proof. apply with_result. vm_compute. reflexivity. Qed.

(** Witness of [interrupted_mutation_is_recoverable]: the process dies when the temporary file
    holds the new content and the target still the old one. *)
Lemma interrupted_mutation_is_recoverable_witness :
  let env := dies_after 11 in
  let w2 := (execute_plan demo_tools demo_plan planning.2).2 in
  read_bytes (w_fs w2) ["work"; "a.txt"] = Ok "old text"
  ∧ length (entries (w_fs w2) ["work"]) = 2
  ∧ ∀ d w3, reconcile demo_tools demo_plan w2 = (Ok d, w3) → d ≠ FileReconcileDecision.CONFLICT.
Proof.
  intros env w2. split; [vm_compute; reflexivity|]. split; [vm_compute; reflexivity|].
  destruct (interrupted_mutation_is_recoverable demo_tools workspace_world "a.txt"
              (JStr "new text") demo_plan planning.2
              (execute_plan demo_tools demo_plan planning.2).1 w2) as (p & _ & _ & _ & Hrec).
  - exact demo_root_real.
  - exact dying_planning.
  - intros q n. apply demo_temporary_fresh.
  - apply surjective_pairing.
  - intros d w3 Hd E. rewrite E in Hd. exact (proj2 (Hrec _ _ _ eq_refl Hd)).
Defined.

(** Witness of [planned_mutation_is_executed]. *)
Lemma planned_mutation_is_executed_witness :
  ∃ applied w2, execute_plan demo_tools demo_plan planning.2 = (Ok (receipt demo_plan applied), w2).
Proof.
  destruct (planned_mutation_is_executed demo_tools workspace_world "a.txt" (JStr "new text") demo_plan
              planning.2 {| relative := "a.txt"; absolute := ["work"; "a.txt"]; gp_exists := true |}
              (plain_inode 2)) as (applied & w2 & He & _).
  - intros [n Hn]. exact (Hn eq_refl).
  - exact demo_root_real.
  - exact quiet_planning.
  - intros q n. apply demo_temporary_fresh.
  - vm_compute. reflexivity.
  - vm_compute. reflexivity.
  - exists applied, w2. exact He.
Defined.
