(* ===== verification/ExecutorSafety.v ===== *)
(** * ExecutorSafety: the executors act on recorded attempts only

    What the database holds when an external action happens ([durable_intent]), and the
    file tools, the process supervisor and both executors as safe programs for it. *)

From S2P Require Import Prelude Text Domain Platform Json Events Projection ToolIdentity Tables.
From S2P Require Import Ledger ModelCalls Leases Checkpoints Runs Tools Budget Store.
From S2P Require Import Scenario LedgerSafety RunSafety Lifecycle ToolSafety.
From S2P Require Import FileSystem World Programs FileTools Process Executors.

(** ** Durable intents *)

Section intents.
Context `{Platform}.

(** The ledger holds the start of the [n]-th attempt of a model call of a run. *)
Definition started_in_ledger (s : db) (run model_call : string) (n : Z) : Prop :=
  ∃ row name step, row ∈ s.(events) ∧ row.(e_run_id) = Some run
    ∧ row.(e_payload_json) = payload_text (ModelCallStartedPayload model_call name n step).

(** The attempt of a tool call is recorded. *)
Definition attempt_recorded (s : db) (tool attempt : string) : Prop :=
  ∃ row, s.(tool_attempts) !! attempt = Some row ∧ row.(ta_tool_call_id) = tool.

(** What the database holds when an action happens: a request and the wait before the next
    one belong to a model call, the former to an attempt whose start is in the ledger; a
    process and a file replacement belong to a recorded attempt. *)
Definition durable_intent (h : entry_of_history) : Prop :=
  match h.(h_label), h.(h_action) with
  | Some (ForModelCall run call offset), RequestModel n _ =>
      started_in_ledger h.(h_db) run call (offset + n)
  | Some (ForModelCall _ _ _), Sleep _ => True
  | Some (ForAttempt tool attempt), (StartProcess _ _ | ReplaceFile _ _) =>
      attempt_recorded h.(h_db) tool attempt
  | _, _ => False
  end.

(** The database is reachable at every action, too. *)
Definition intended (limits : BlobLimits) (h : entry_of_history) : Prop :=
  reachable limits h.(h_db) ∧ durable_intent h.
End intents.

Section stability.
Context `{PlatformLaws} (limits : BlobLimits).

Lemma progress_events s s' : progress limits s s' → s.(events) `prefix_of` s'.(events).
Proof.
  intros Hp%progress_later. apply (later_rel limits append_only) in Hp; [done|].
  intros o c. apply command_append_only.
Qed.

Lemma started_stable s s' run call n :
  progress limits s s' → started_in_ledger s run call n → started_in_ledger s' run call n.
Proof.
  intros [l Hl]%progress_events (row & name & step & Hr & ?).
  exists row, name, step. split; [|done]. rewrite Hl. set_solver.
Qed.

Lemma attempt_stable s s' tool attempt :
  reachable limits s → progress limits s s' →
  attempt_recorded s tool attempt → attempt_recorded s' tool attempt.
Proof.
  intros Hs%reachable_protocol Hp%progress_later (row & Hrow & Ht).
  destruct (later_protocol limits _ _ Hp Hs) as [_ _ Ha].
  destruct (Ha _ _ Hrow) as (row' & Hrow' & Hid & _). exists row'. split; [done|].
  by injection Hid as ->.
Qed.
End stability.

Section executors.
Context `{PlatformLaws} `{Environment} (limits : BlobLimits) `{!EnvironmentLaws limits}.

Abbreviation good := (intended limits).
Abbreviation safe := (safe limits good).
Abbreviation wp := (wp limits good).

(** ** Knowledge no step takes away *)

Definition attempt_known (tool attempt : string) (w : world) : Prop :=
  attempt_recorded w.(w_db) tool attempt.

Definition acting (tool attempt : string) (w : world) : Prop :=
  w.(w_label) = Some (ForAttempt tool attempt) ∧ attempt_known tool attempt w.

#[global] Instance attempt_known_stable tool attempt :
  Stable limits good (attempt_known tool attempt).
Proof. intros w w' Hw Hx. apply (attempt_stable limits); [apply Hw|apply Hx]. Qed.

#[global] Instance acting_stable tool attempt : Stable limits good (acting tool attempt).
Proof.
  intros w w' Hw Hx [Hl Ha]. split; [by rewrite (ext_label _ _ _ Hx)|].
  exact (attempt_known_stable tool attempt w w' Hw Hx Ha).
Qed.

Lemma acting_good tool attempt w a :
  acting tool attempt w → fine limits good w →
  match a with StartProcess _ _ | ReplaceFile _ _ => True | _ => False end →
  good_action limits good w a.
Proof.
  intros [Hl Ha] Hw Hact s Hs Hp. split; [done|]. unfold durable_intent. cbn. rewrite Hl.
  assert (attempt_recorded s tool attempt) by (by apply (attempt_stable limits (w_db w)); [apply Hw|..]).
  by destruct a.
Qed.

Lemma safe_on_behalf (J K : world → Prop) {A} l (m : io A) :
  (∀ w w1, J w → w_db w1 = w_db w → w_label w1 = Some l → K w1) →
  safe K m → safe J (on_behalf l m).
Proof.
  intros HK Hm w Hw. apply wp_on_behalf. intros w1 Hdb _ Hl.
  eapply wp_mono; [|apply Hm; by eapply HK]. done.
Qed.

(** ** Files and processes *)

Section files.
Context (J : world → Prop) `{!Stable limits good J} (tools : ReplaySafeFileTools).

Lemma reconcile_safe plan : safe J (reconcile tools plan).
Proof. unfold reconcile. safe_tac. Qed.
Hint Resolve reconcile_safe : safe.

Lemma read_text_safe p : safe J (read_text tools p).
Proof. unfold read_text, check_size. safe_tac. Qed.
Hint Resolve read_text_safe : safe.

Lemma directory_safe p : safe J (directory tools p).
Proof. unfold directory. safe_tac. Qed.
Hint Resolve directory_safe : safe.

Lemma list_files_safe p : safe J (list_files tools p).
Proof. unfold list_files. safe_tac. Qed.

Lemma search_safe q p : safe J (search tools q p).
Proof. unfold search. safe_tac. Qed.

Lemma plan_write_safe p c : safe J (plan_write tools p c).
Proof. unfold plan_write, check_size. safe_tac. Qed.
Hint Resolve plan_write_safe : safe.

Lemma plan_patch_safe p o n : safe J (plan_patch tools p o n).
Proof. unfold plan_patch. safe_tac. Qed.
End files.
Hint Resolve reconcile_safe read_text_safe list_files_safe search_safe plan_write_safe
  plan_patch_safe : safe.

Lemma execute_plan_safe tool attempt tools plan :
  safe (acting tool attempt) (execute_plan tools plan).
Proof.
  unfold execute_plan, prepare_and_replace, remove_temporary. safe_tac.
  apply safe_replace_step; [apply _|]. intros w Hw Ha. by eapply acting_good.
Qed.
Hint Resolve execute_plan_safe : safe.

Lemma run_process_safe tool attempt n command dir t :
  safe (acting tool attempt) (run_process n command dir t).
Proof.
  unfold run_process. safe_tac. apply safe_perform; [apply _|]. intros w Hw Ha. by eapply acting_good.
Qed.
Hint Resolve run_process_safe : safe.

(** ** Executors *)

Lemma run_hook_safe J hook stage aid : safe J (run_hook hook stage aid).
Proof. unfold run_hook. safe_tac. Qed.
Hint Resolve run_hook_safe : safe.

Lemma finish_safe J pid aid out rc ou media er : safe J (finish limits pid aid out rc ou media er).
Proof. unfold finish. safe_tac. Qed.
Hint Resolve finish_safe : safe.

Lemma finish_failed_safe J `{!Stable limits good J} pid aid e : safe J (finish_failed limits pid aid e).
Proof. unfold finish_failed. safe_tac. Qed.
Hint Resolve finish_failed_safe : safe.

Lemma finish_uncertain_safe J `{!Stable limits good J} pid aid text :
  safe J (finish_uncertain limits pid aid text).
Proof. unfold finish_uncertain. safe_tac. Qed.
Hint Resolve finish_uncertain_safe : safe.

Lemma put_blob_safe J content media : safe J (sb_of_put limits content media).
Proof. unfold sb_of_put. safe_tac. Qed.
Hint Resolve put_blob_safe : safe.

Lemma attempt_record_Ok id row event r :
  tool_attempt_from_row id row event = Ok r →
  r.(at_attempt_id) = id ∧ r.(at_tool_call_id) = row.(ta_tool_call_id).
Proof.
  unfold tool_attempt_from_row.
  intros (? & _ & (? & _ & (? & _ & [= <-])%result_bind_Ok)%result_bind_Ok)%result_bind_Ok. done.
Qed.

(** A dispatch returns an attempt that is recorded. *)
Lemma dispatch_recorded o tid plan ex pid aid ctx s att v s' :
  dispatch_tool_call o tid plan ex pid aid ctx s = Ok ((Ok att, v), s') →
  attempt_recorded s' att.(at_tool_call_id) att.(at_attempt_id).
Proof.
  intros Hd. unfold dispatch_tool_call, returned, committed in Hd. tx_steps;
    match goal with
    | Hr : tool_attempt_from_row _ _ _ = Ok _ |- _ => apply attempt_record_Ok in Hr as [-> ->]
    | Hr : Ok _ = tool_attempt_from_row _ _ _ |- _ =>
        symmetry in Hr; apply attempt_record_Ok in Hr as [-> ->]
    end; by eexists.
Qed.

Lemma dispatch_known pid tid plan kind w :
  wp w (dispatch pid tid plan kind)
    (λ att, attempt_known att.(at_tool_call_id) att.(at_attempt_id)).
Proof.
  apply wp_call; [apply _|apply method_dispatch|].
  intros att w' _ _ (s & ctx & v & _ & _ & Hd & _). by eapply dispatch_recorded.
Qed.

(** Reading an attempt. *)
Lemma read_attempt_known aid w :
  wp w (query (get_tool_attempt aid))
    (λ att w', attempt_known att.(at_tool_call_id) att.(at_attempt_id) w' ∧ at_attempt_id att = aid).
Proof.
  apply wp_query; [apply _|]. intros att w' s' _ _ Hq. unfold get_tool_attempt in Hq. tx_inv Hq.
  match goal with Hr : tool_attempt_from_row _ _ _ = Ok _ |- _ =>
    apply attempt_record_Ok in Hr as [-> ->] end.
  split; [by eexists|done].
Qed.

Lemma attempt_actor tool attempt w w1 :
  attempt_known tool attempt w → w_db w1 = w_db w → w_label w1 = Some (ForAttempt tool attempt) →
  acting tool attempt w1.
Proof. intros Ha Hdb Hl. split; [done|]. unfold attempt_known. by rewrite Hdb. Qed.

Section file_executor.
Variable fx : DurableFileExecutor.

Lemma file_effect_safe tool attempt name args plan :
  safe (acting tool attempt) (file_effect fx name args plan).
Proof. unfold file_effect. safe_tac. Qed.
Hint Resolve file_effect_safe : safe.

Lemma execute_dispatched_safe tool attempt name args plan :
  safe (attempt_known tool attempt) (execute_dispatched limits fx tool attempt name args plan).
Proof.
  unfold execute_dispatched. apply safe_try; [apply _| |].
  - safe_tac. eapply safe_on_behalf; [by apply attempt_actor|]. safe_tac.
  - intros [] k [= <-]; safe_tac.
Qed.

Lemma plan_tool_safe J `{!Stable limits good J} name args : safe J (plan_tool limits fx name args).
Proof. unfold plan_tool. safe_tac. Qed.
Hint Resolve plan_tool_safe : safe.

Lemma restore_plan_safe J `{!Stable limits good J} j : safe J (restore_plan j).
Proof. unfold restore_plan. safe_tac. Qed.
Hint Resolve restore_plan_safe : safe.

Lemma dispatch_safe J pid tid plan kind : safe J (dispatch pid tid plan kind).
Proof. unfold dispatch. safe_tac. Qed.
Hint Resolve dispatch_safe : safe.

Lemma file_execute_safe J `{!Stable limits good J} tid : safe J (file_execute limits fx tid).
Proof.
  unfold file_execute, outcome_of.
  do 3 (apply safe_bind; [apply _|safe_tac|intros ?]). destruct a1 as [[j plan]|e]; [|safe_tac].
  eapply safe_bind_know; [apply _|intros; apply dispatch_known|].
  intros att w Hw Ha. cbn beta in Ha. clear Hw; revert w Ha.
  apply (safe_bind limits good (attempt_known (at_tool_call_id att) (at_attempt_id att)));
    [safe_tac|intros; apply execute_dispatched_safe].
Qed.

Lemma file_recover_known tool attempt att :
  att.(at_tool_call_id) = tool → att.(at_attempt_id) = attempt →
  safe (attempt_known tool attempt)
    (call_record ← query (get_tool_call att.(at_tool_call_id));
     recover_dispatched_file limits fx att call_record).
Proof.
  intros <- <-. unfold recover_dispatched_file. safe_tac; apply execute_dispatched_safe.
Qed.

Lemma file_recover_safe J `{!Stable limits good J} aid : safe J (file_recover limits fx aid).
Proof.
  unfold file_recover. eapply safe_bind_know; [apply _|intros; apply read_attempt_known|].
  intros att w Hw [Ha _]. by apply (file_recover_known _ _ att eq_refl eq_refl).
Qed.
End file_executor.

Section shell_executor.
Variable sx : DurableShellExecutor.

Lemma supervise_safe tool attempt argv timeout dir :
  safe (acting tool attempt) (supervise sx argv timeout dir).
Proof. unfold supervise. safe_tac. Qed.
Hint Resolve supervise_safe : safe.

Lemma shell_cwd_safe J `{!Stable limits good J} j : safe J (shell_cwd sx j).
Proof. unfold shell_cwd. safe_tac. Qed.
Hint Resolve shell_cwd_safe : safe.

Lemma shell_execute_safe J `{!Stable limits good J} tid : safe J (shell_execute limits sx tid).
Proof.
  unfold shell_execute.
  do 5 (apply safe_bind; [apply _|safe_tac|intros ?]).
  eapply safe_bind_know; [apply _|intros; apply dispatch_known|].
  intros att w Hw Ha. cbn beta in Ha. clear Hw; revert w Ha.
  eapply (safe_bind limits good (attempt_known (at_tool_call_id att) (at_attempt_id att)));
    [safe_tac|]. intros _.
  apply safe_try; [apply _| |].
  - safe_tac. eapply safe_on_behalf; [by apply attempt_actor|]. safe_tac.
  - intros e k [= <-]. safe_tac.
Qed.

Lemma shell_recover_safe J `{!Stable limits good J} aid : safe J (shell_recover limits sx aid).
Proof. unfold shell_recover. safe_tac. Qed.
End shell_executor.
End executors.

#[export] Hint Resolve put_blob_safe file_execute_safe file_recover_safe shell_execute_safe
  shell_recover_safe : safe.
