(* ===== verification/AgentSafety.v ===== *)
(** * AgentSafety: the agent loop acts through the store

    Model clients are used through an interface: a port that reports an attempt before it
    requests it. Against it, the whole loop is a safe program; the three clients of the
    repository implement the interface. *)

From S2P Require Import Prelude Text Domain Platform Json Events Projection ToolIdentity Tables.
From S2P Require Import Ledger ModelCalls Leases Checkpoints Runs Tools Budget Store.
From S2P Require Import Scenario LedgerSafety RunSafety Lifecycle ToolSafety.
From S2P Require Import FileSystem World Programs FileTools Process Executors PromptSet.
From S2P Require Import ModelClient MiniAgent Agent ExecutorSafety.

Section agent_safety.
Context `{PlatformLaws} `{Environment} (limits : BlobLimits) `{!EnvironmentLaws limits}.

Abbreviation good := (intended limits).
Abbreviation safe := (safe limits good).
Abbreviation wp := (wp limits good).

(** ** The interface of a model port *)

Definition calling (run call : string) (offset : Z) (w : world) : Prop :=
  w.(w_label) = Some (ForModelCall run call offset).

#[global] Instance calling_stable run call offset : Stable limits good (calling run call offset).
Proof. intros w w' _ Hx Hc. unfold calling. by rewrite (ext_label _ _ _ Hx). Qed.

(** An observer that reports to the ledger. *)
Record observes (run call : string) (offset : Z) (ob : ModelAttemptObserver) : Prop := {
  ob_started : ∀ n w,
    wp w (ob.(started) n) (λ _ w', started_in_ledger w'.(w_db) run call (offset + n));
  ob_failed : ∀ J, Stable limits good J → ∀ n e b, safe J (ob.(failed) n e b);
}.

(** A port that is safe with such an observer, on behalf of the model call. *)
Class SafeModelPort (port : ModelPort) : Prop :=
  complete_safe : ∀ run call offset ob text n,
    observes run call offset ob → safe (calling run call offset) (port.(complete) text n ob).

#[global] Instance scripted_safe : SafeModelPort ScriptedModel.
Proof.
  intros run call offset ob text n [Hs Hf]. cbn. unfold scripted_complete.
  apply safe_bind; [apply _|intros w _; eapply wp_mono; [|apply Hs]; done|intros _].
  apply safe_bind; [apply _|safe_tac|intros [|t rest]].
  - apply safe_bind; [apply _|by apply Hf, _|intros; safe_tac].
  - safe_tac.
Qed.

(** An attempt whose start is in the ledger. *)
Definition requesting (run call : string) (offset n : Z) (w : world) : Prop :=
  calling run call offset w ∧ started_in_ledger w.(w_db) run call (offset + n).

#[global] Instance requesting_stable run call offset n :
  Stable limits good (requesting run call offset n).
Proof.
  intros w w' Hw Hx [Hc Hs]. split; [by apply (calling_stable run call offset w)|].
  eapply started_stable; [apply Hx|done].
Qed.

Lemma generate_safe run call offset n payload :
  safe (requesting run call offset n) (generate n payload).
Proof.
  apply safe_perform; [apply _|]. intros w Hw [Hc Hst] s Hs Hp. split; [done|].
  unfold durable_intent. cbn. rewrite Hc. by eapply started_stable.
Qed.

Lemma sleep_safe run call offset d (reply : nat → res unit) :
  safe (calling run call offset) (perform (Sleep d) reply).
Proof.
  apply safe_perform; [apply _|]. intros w Hw Hc s Hs Hp. split; [done|].
  unfold durable_intent. cbn. by rewrite Hc.
Qed.

Lemma attempt_loop_safe run call offset ob max payload read :
  observes run call offset ob →
  ∀ remaining attempt,
    safe (calling run call offset) (attempt_loop remaining max attempt payload read ob).
Proof.
  intros [Hs Hf] remaining. induction remaining as [|remaining IH]; intros attempt; cbn [attempt_loop];
    [safe_tac|].
  eapply safe_bind_know; [apply _|intros; apply Hs|]. intros [] w Hc Hst. cbn beta in Hst.
  apply (safe_try limits good (requesting run call offset attempt)); [| |done].
  - apply safe_bind; [apply _|apply generate_safe|intros; safe_tac].
  - intros [] k [= <-]. apply (safe_weaken limits good (calling run call offset)); [by intros ? []|].
    apply safe_bind; [apply _|by apply Hf, _|intros _]. case_decide; [safe_tac|].
    apply safe_bind; [apply _|apply sleep_safe|intros _; apply IH].
Qed.

#[global] Instance ollama_safe m : SafeModelPort (ollama_port m).
Proof. intros run call offset ob text n Hob. by apply attempt_loop_safe. Qed.

#[global] Instance openai_safe m : SafeModelPort (openai_port m).
Proof. intros run call offset ob text n Hob. by apply attempt_loop_safe. Qed.

(** ** Prompts *)

Section prompts.
Context (J : world → Prop) `{!Stable limits good J}.

Lemma blob_bytes_safe sha : safe J (blob_bytes sqlite_prompt_store sha).
Proof. unfold blob_bytes. cbn. safe_tac. Qed.
Hint Resolve blob_bytes_safe : safe.

Lemma hydrate_safe e : safe J (hydrate_entry sqlite_prompt_store e).
Proof. unfold hydrate_entry, entry_text. safe_tac. Qed.
Hint Resolve hydrate_safe : safe.

Lemma reuse_entry_safe cs e : safe J (reuse_or_hydrate_entry sqlite_prompt_store cs e).
Proof. unfold reuse_or_hydrate_entry. safe_tac. Qed.

Lemma reuse_safe cs es : safe J (reuse_or_hydrate sqlite_prompt_store cs es).
Proof.
  induction es as [|e es IH]; cbn [reuse_or_hydrate]; [safe_tac|].
  apply safe_bind; [apply _|apply reuse_entry_safe|intros; safe_tac].
Qed.
Hint Resolve reuse_safe : safe.

Lemma build_prompt_safe run n c a b :
  safe J (build_authoritative_prompt_working_set sqlite_prompt_store run n c a b).
Proof. unfold build_authoritative_prompt_working_set. cbn. safe_tac. Qed.
End prompts.
Hint Resolve build_prompt_safe : safe.

(** ** Events of the run *)

(** The session a run belongs to. *)
Definition session_known (run session : string) (w : world) : Prop :=
  ∃ row, w.(w_db).(runs) !! run = Some row ∧ row.(r_session_id) = session.

#[global] Instance session_known_stable run session : Stable limits good (session_known run session).
Proof.
  intros w w' _ Hx (row & Hrow & Hs). pose proof (progress_later _ _ _ (ext_db _ _ _ Hx)) as Hl.
  apply (later_rel limits (runs_rel identity_law)) in Hl; [|apply command_identity_law].
  destruct (Hl _ _ Hrow) as (row' & Hrow' & Hid). exists row'. split; [done|].
  unfold identity_law, row_identity in Hid. by injection Hid as ->.
Qed.

Lemma read_projection_known run w :
  wp w (query (get_run_projection run)) (λ p, session_known run p.(p_session_id)).
Proof.
  apply wp_query; [apply _|]. intros p w' s' Hw _ Hq.
  unfold get_run_projection, recover_run_projection in Hq.
  apply tx_bind_Ok in Hq as (r & s1 & Hr & [-> _]%tx_ret_Ok).
  apply tx_bind_Ok in Hr as (row & s2 & [-> Hrow]%require_run_row_Ok & Hr).
  destruct (reachable_core limits _ (fine_db _ _ _ Hw)) as [es Hc].
  destruct (recover_in_tx_Ok _ _ _ _ _ _ Hc Hrow Hr) as [_ ->]. by exists row.
Qed.

Variable rt : DurableAgentRuntime.

(** The event is in the ledger when [append_event] returns it. *)
Lemma append_run_event_known run projection causation payload w :
  projection_neutral payload = true → session_known run projection.(p_session_id) w →
  wp w (append_run_event rt run projection causation payload)
    (λ _ w', ∃ row, row ∈ w'.(w_db).(events) ∧ row.(e_run_id) = Some run
                    ∧ row.(e_payload_json) = payload_text payload).
Proof.
  intros Hn Hk. apply wp_with_fine. intros Hw. apply wp_call; [apply _| |].
  - intros o ctx. left. eexists (AppendEvent _ ctx). split; [reflexivity|].
    intros s Hs Hp. cbn. intros rid [= <-]. split; [done|]. intros row Hrow.
    assert (session_known run (p_session_id projection) (w <| w_db := s |>)) as (row' & Hrow' & Hs').
    { eapply session_known_stable; [exact Hw| |exact Hk]. by apply extends_same. }
    cbn in Hrow'. by simplify_eq.
  - intros e w' Hw' _ (s & ctx & v & Hs & _ & Ha & _). unfold append_event in Ha. cbn in Ha.
    apply tx_bind_Ok in Ha as ([] & s1 & [_ ->]%require_Ok & Ha).
    apply tx_bind_Ok in Ha as (row & s2 & [-> _]%require_execution_context_Ok & Ha).
    apply tx_bind_Ok in Ha as (e' & s3 & Happ & Ha).
    apply tx_bind_Ok in Ha as ([] & s4 & Hup%modify_Ok & [[= <- _] ->]%tx_ret_Ok).
    apply append_Ok in Happ as (_ & Hpl & Hr & _ & _ & _ & _ & _ & Hev & _); [|apply (clock_ok limits)].
    exists (row_of_event e). rewrite Hup. cbn. rewrite Hev, Hpl, Hr.
    split_and!; [set_solver|done|done].
Qed.

Lemma append_run_event_safe run projection causation payload :
  projection_neutral payload = true →
  safe (session_known run projection.(p_session_id)) (append_run_event rt run projection causation payload).
Proof. intros Hn w Hk. eapply wp_mono; [|by apply append_run_event_known]. done. Qed.

(** An event appended with the projection just read. *)
Lemma append_now_safe J `{!Stable limits good J} {A} run causation payload (k : EventEnvelope → io A) :
  (∀ p, projection_neutral (payload p) = true) → (∀ e, safe J (k e)) →
  safe J (projection ← query (get_run_projection run);
          e ← append_run_event rt run projection (causation projection) (payload projection); k e).
Proof.
  intros Hn Hk. eapply safe_bind_know; [apply _|intros; apply read_projection_known|].
  intros p w Hw Hp. cbn beta in Hp. apply wp_with_fine. intros Hf.
  eapply wp_bind; [by apply append_run_event_safe|].
  intros e w1 Hw1 Hx _. apply Hk. by apply (stable limits good w).
Qed.

Lemma observed_safe J {A} `{!Stable limits good J} (m : io A) : safe J m → safe J (observed m).
Proof. intros Hm. unfold observed. apply safe_try; [apply _|done|]. intros e k [= <-]. safe_tac. Qed.

Lemma observer_observes run call step offset :
  observes run call offset (observer rt run call step offset).
Proof.
  split.
  - intros n w. cbn. unfold observer_started. eapply wp_bind; [apply read_projection_known|].
    intros p w1 Hw1 _ Hp. cbn beta in Hp.
    eapply (wp_bind _ _ _ _ _ (λ _ w', started_in_ledger (w_db w') run call (offset + n))).
    + unfold observed. apply wp_try; [|intros e k w2 [= <-] _ _; apply wp_raise].
      eapply wp_mono; [|by apply append_run_event_known].
      intros e w2 _ _ (row & Hr & Hrid & Hpl). by exists row, (model_name (model rt)), (Some step).
    + intros e w2 _ _ Hst. apply wp_put; [intros ?; by split_and!|exact Hst].
  - intros J HJ n e b. cbn. unfold observer_failed.
    eapply safe_bind_know; [apply _|intros; apply read_projection_known|].
    intros p w Hw Hp. cbn beta in Hp. apply wp_with_fine. intros Hf.
    eapply wp_bind; [by apply (wp_ask _ _ _ _ (λ _ _, True))|]. intros ob w1 Hw1 Hx _.
    eapply wp_bind; [apply (observed_safe (session_known run (p_session_id p)))|].
    + by apply append_run_event_safe.
    + by apply (stable limits good w).
    + intros. apply wp_put; [intros ?; by split_and!|done].
Qed.

(** ** The store methods that need the worker's context *)

Lemma method_renew w ttl t :
  store_method limits w (λ o, with_context (λ c, renew_run_lease o c ttl t)).
Proof.
  intros o [c|]; [left; by exists (RenewRunLease c ttl t)|right; done].
Qed.

Lemma method_synchronize w : store_method limits w (λ o, with_context (synchronize_execution_context o)).
Proof.
  intros o [c|]; right; [|done]. intros s v s' Hs. unfold with_context, synchronize_execution_context,
    committed, require_run_row in Hs. by tx_steps.
Qed.
Hint Resolve method_renew method_synchronize : store_methods.

(** ** The loop *)

Section loop.
Context (J : world → Prop) `{!Stable limits good J}.

Lemma renew_lease_safe : safe J renew_lease.
Proof. unfold renew_lease. safe_tac. Qed.
Hint Resolve renew_lease_safe : safe.

Lemma maybe_checkpoint_safe run : safe J (maybe_checkpoint rt run).
Proof. unfold maybe_checkpoint, stream_version. safe_tac. Qed.

Lemma settle_if_safe b id n : safe J (settle_if rt b id n).
Proof. unfold settle_if, settle. safe_tac. Qed.
Hint Resolve settle_if_safe : safe.

Lemma settle_model_budget_safe run step : safe J (settle_model_budget rt run step).
Proof. unfold settle_model_budget. safe_tac. Qed.

Lemma latest_response_safe run : safe J (latest_unconsumed_model_response run).
Proof. unfold latest_unconsumed_model_response. safe_tac. Qed.

Lemma terminate_safe run st reason : safe J (terminate rt run st reason).
Proof. unfold terminate. safe_tac. Qed.
Hint Resolve terminate_safe : safe.

Lemma after_attempt_safe run tool r d att : safe J (after_attempt rt run tool r d att).
Proof. unfold after_attempt. safe_tac. Qed.
Hint Resolve after_attempt_safe : safe.

Lemma continue_tool_safe run tool : safe J (continue_tool limits rt run tool).
Proof. unfold continue_tool, request_approval, execute_ready, recover_dispatched. safe_tac. Qed.
Hint Resolve continue_tool_safe : safe.

Lemma propose_safe run rid name args eff ts : safe J (propose rt run rid name args eff ts).
Proof. unfold propose. safe_tac. Qed.
Hint Resolve propose_safe : safe.

Lemma reject_output_safe run e reason : safe J (reject_output rt run e reason).
Proof. unfold reject_output. apply append_now_safe; [apply _|done|intros; safe_tac]. Qed.
Hint Resolve reject_output_safe : safe.

Lemma consume_response_safe run e raw : safe J (consume_response limits rt run e raw).
Proof. unfold consume_response. safe_tac. Qed.
End loop.

(** *** Model calls *)

Context `{!SafeModelPort rt.(model)}.

(** An injected reader of prompts, if there is one, is safe. *)
Hypothesis reader_safe : ∀ load, rt.(prompt_working_set_reader) = Some load →
  ∀ J, Stable limits good J → ∀ run n, safe J (load run n).

Lemma prompt_safe J `{!Stable limits good J} run step n : safe J (prompt rt run step n).
Proof.
  unfold prompt. destruct (prompt_working_set_reader rt) as [load|] eqn:Hl; [|safe_tac].
  apply safe_bind; [apply _|by apply (reader_safe load eq_refl), _|intros; safe_tac].
Qed.
Hint Resolve prompt_safe : safe.

Lemma provider_failed_safe J `{!Stable limits good J} {A} run call id reserved step previous e :
  safe J (provider_failed rt run call id reserved step previous e : io A).
Proof.
  unfold provider_failed.
  destruct (observer_observes run call step previous) as [Hs Hf].
  assert (∀ n, safe J (started (observer rt run call step previous) n)) as Hst.
  { intros n w _. eapply wp_mono; [|apply Hs]. done. }
  assert (∀ n e b, safe J (failed (observer rt run call step previous) n e b)) as Hfl.
  { intros. by apply Hf, _. }
  safe_tac; first [apply Hst|apply Hfl|safe_use settle_if_safe].
Qed.

Lemma invoke_model_safe run call id reserved step previous :
  safe (calling run call previous) (invoke_model rt run call id reserved step previous).
Proof.
  unfold invoke_model. apply safe_try; [apply _| |].
  - unfold stream_version. safe_tac. apply complete_safe, observer_observes.
  - intros [] k [= <-]; try (safe_use provider_failed_safe). safe_tac. safe_use settle_if_safe.
Qed.

Lemma call_model_safe J `{!Stable limits good J} run step : safe J (call_model limits rt run step).
Proof.
  unfold call_model. apply safe_bind; [apply _|safe_use renew_lease_safe|intros _].
  eapply safe_bind_know; [apply _|intros; apply read_projection_known|].
  intros p w Hw Hp. cbn beta in Hp. clear Hw. revert w Hp.
  apply safe_bind; [apply _|safe_tac|intros existing].
  do 2 (apply safe_bind; [apply _|safe_tac|intros _]).
  apply safe_bind; [apply _|safe_tac|intros _].
  apply safe_bind; [apply _|safe_tac|intros _].
  apply safe_bind; [apply _| |intros result].
  - eapply safe_on_behalf; [|apply invoke_model_safe]. by intros.
  - apply safe_bind; [apply _|safe_tac|intros blob].
    apply safe_bind; [apply _|safe_tac|intros state].
    apply safe_bind; [apply _|by apply append_run_event_safe|intros e].
    apply safe_bind; [apply _|safe_use settle_if_safe|intros _; safe_tac].
Qed.

Lemma next_response_safe J `{!Stable limits good J} run : safe J (next_response limits rt run).
Proof.
  unfold next_response. safe_tac;
    first [safe_use latest_response_safe|safe_use settle_model_budget_safe|safe_use call_model_safe].
Qed.

Lemma agent_step_safe J `{!Stable limits good J} run : safe J (agent_step limits rt run).
Proof.
  unfold agent_step. apply safe_bind; [apply _|safe_use renew_lease_safe|intros _].
  apply safe_bind; [apply _|safe_use maybe_checkpoint_safe|intros _].
  apply safe_bind; [apply _|safe_tac|intros []].
  - apply safe_bind; [apply _|safe_use terminate_safe|intros; safe_tac].
  - apply safe_bind; [apply _|safe_tac|intros [pending|]]; [safe_use continue_tool_safe|].
    apply safe_bind; [apply _|safe_use next_response_safe|intros [[e raw]|out]]; [|safe_tac].
    safe_use consume_response_safe.
Qed.

Lemma agent_loop_safe J `{!Stable limits good J} n run : safe J (agent_loop limits rt n run).
Proof.
  induction n as [|n IH]; cbn [agent_loop]; [safe_tac|].
  apply safe_bind; [apply _|safe_use agent_step_safe|intros [out|]]; [safe_tac|done].
Qed.

Lemma run_safe J `{!Stable limits good J} run ctx : safe J (Agent.run limits rt run ctx).
Proof.
  assert (safe J (run_handled limits rt run)) as Hrun.
  { unfold run_handled, run_with_lease. apply safe_try; [apply _| |].
    - safe_tac. safe_use agent_loop_safe.
    - intros [] k [= <-]; safe_tac; safe_use terminate_safe. }
  unfold Agent.run, release_owned. destruct ctx as [c|]; safe_tac; exact Hrun.
Qed.
End agent_safety.
