(* ===== verification/AgentProperties.v ===== *)
(** * AgentProperties: durable intents, approvals, cancellation and single starts

    The properties of whole runs of the agent that follow from its safety as a program. *)

From S2P Require Import Prelude Text Domain Platform Json Events Projection ToolIdentity Tables.
From S2P Require Import Ledger ModelCalls Leases Checkpoints Runs Tools Budget Store.
From S2P Require Import Scenario LedgerSafety RunSafety Lifecycle ToolSafety.
From S2P Require Import FileSystem World Programs ProgramRel FileTools Process Executors.
From S2P Require Import PromptSet ModelClient MiniAgent Agent ExecutorSafety AgentSafety AgentScenario.

(** ** Programs that do not act *)

Definition no_action : relation world := λ w w', w_history w' = w_history w.

#[global] Instance no_action_preorder : PreOrder no_action.
Proof. unfold no_action. split; red; intros; congruence. Qed.

Lemma no_action_owned w w' : owned w w' → no_action w w'.
Proof. apply own_history. Qed.

Lemma no_action_quiet w w' : quiet_step w w' → no_action w w'.
Proof. by intros []. Qed.

#[export] Hint Resolve no_action_preorder no_action_owned no_action_quiet : io_rel.

Section cancellation.
Context `{PlatformLaws} `{Environment} (limits : BlobLimits) `{!EnvironmentLaws limits}.
Variable rt : DurableAgentRuntime.

Abbreviation good := (intended limits).

Lemma renew_lease_quiet : io_rel no_action renew_lease.
Proof. unfold renew_lease. rel_tac. Qed.

Lemma maybe_checkpoint_quiet run : io_rel no_action (maybe_checkpoint rt run).
Proof. unfold maybe_checkpoint, stream_version. rel_tac. Qed.

Lemma terminate_quiet run st reason : io_rel no_action (terminate rt run st reason).
Proof. unfold terminate. rel_tac. Qed.
Hint Resolve renew_lease_quiet maybe_checkpoint_quiet terminate_quiet : io_rel.

(** A cancellation, once requested, stays. *)
Definition cancel_requested (run : string) (w : world) : Prop :=
  ∃ row, w.(w_db).(runs) !! run = Some row ∧ is_Some row.(r_cancel_requested_at).

#[global] Instance cancel_requested_stable run : Stable limits good (cancel_requested run).
Proof.
  intros w w' _ Hx (row & Hrow & Hc). pose proof (progress_later _ _ _ (ext_db _ _ _ Hx)) as Hl.
  apply (later_rel limits (runs_rel cancel_law)) in Hl; [|apply command_cancel_law].
  destruct (Hl _ _ Hrow) as (row' & Hrow' & Hlaw). exists row'. by rewrite (Hlaw Hc).
Qed.

(** Chain a program that is quiet and keeps a stable fact. *)
Lemma quiet_bind (J : world → Prop) `{!Stable limits good J} {A B} w (m : io A) (k : A → io B)
    (P : res B → Prop) :
  fine limits good w → J w → io_rel no_action m → wp limits good w m (λ _ _, True) →
  (∀ e, P (Err e)) →
  (∀ a w1, fine limits good w1 → J w1 → no_action w1 (k a w1).2 ∧ P (k a w1).1) →
  no_action w (mbind k m w).2 ∧ P (mbind k m w).1.
Proof.
  intros Hw HJ Hq Hm He Hk. unfold mbind, io_bind. specialize (Hq w).
  destruct (m w) as [[a|e] w1] eqn:Hr; [|split; [exact Hq|apply He]].
  destruct (Hm Hw _ _ Hr) as (Hf & Hx & _). destruct (Hk a w1) as [Hn HP]; [done| |].
  - by eapply (stable limits good w).
  - split; [by etrans|done].
Qed.

Lemma read_cancelled run w :
  cancel_requested run w → wp limits good w (query (is_cancellation_requested run)) (λ c _, c = true).
Proof.
  intros Hc. apply wp_with_fine. intros Hf. apply wp_query; [apply _|].
  intros c w' s' _ Hx Hq.
  destruct (cancel_requested_stable run w w' Hf Hx Hc) as (row & Hrow & [t Ht]).
  unfold is_cancellation_requested in Hq.
  apply tx_bind_Ok in Hq as (row' & s1 & [-> Hrow']%require_run_row_Ok & [-> _]%tx_ret_Ok).
  simplify_eq. rewrite Ht. by apply bool_decide_eq_true.
Qed.

(** A step of the loop for a cancelled run ends the loop, and does not act. *)
Definition ends_without_answer (r : res (option AgentOutcome)) : Prop :=
  ∀ out, r = Ok out → ∃ o, out = Some o ∧ o.(final_answer) = None.

Lemma cancelled_step run w :
  fine limits good w → cancel_requested run w →
  no_action w (agent_step limits rt run w).2 ∧ ends_without_answer (agent_step limits rt run w).1.
Proof.
  intros Hw Hc. unfold agent_step.
  apply (quiet_bind (cancel_requested run)); [done|done|apply renew_lease_quiet| |by intros ? ?|].
  { exact (renew_lease_safe limits (λ _, True) w I). }
  clear w Hw Hc. intros _ w Hw Hc.
  apply (quiet_bind (cancel_requested run)); [done|done|apply maybe_checkpoint_quiet| |by intros ? ?|].
  { exact (maybe_checkpoint_safe limits rt (λ _, True) run w I). }
  clear w Hw Hc. intros _ w Hw Hc. rewrite io_bind_eq.
  destruct (query (is_cancellation_requested run) w) as [r w1] eqn:Hr.
  assert (no_action w w1) as Hq.
  { change w1 with (r, w1).2. rewrite <- Hr. assert (io_rel no_action (query (is_cancellation_requested run)))
      as Hqq by rel_tac. apply Hqq. }
  destruct (read_cancelled _ _ Hc Hw _ _ Hr) as (_ & _ & Ht).
  destruct r as [c|e]; [|split; [exact Hq|by intros ? ?]]. specialize (Ht c eq_refl). subst c.
  assert (no_action w1 (terminate rt run ExecutionStatus.CANCELLED
            "durable cancellation observed by runtime" w1).2) as Hterm by apply terminate_quiet.
  unfold mbind, io_bind. destruct (terminate _ _ _ _ w1) as [[p|e] w2]; cbn in Hterm |- *.
  - split; [by etrans|]. intros out [= <-]. by eexists.
  - split; [by etrans|by intros ? ?].
Qed.

Lemma cancelled_loop n run w :
  fine limits good w → cancel_requested run w →
  no_action w (agent_loop limits rt n run w).2
  ∧ ∀ out, (agent_loop limits rt n run w).1 = Ok out → out.(final_answer) = None.
Proof.
  intros Hw Hc. destruct n as [|n]; [split; [done|by intros out [= <-]]|]. cbn [agent_loop].
  destruct (cancelled_step run w Hw Hc) as [Hn He]. unfold mbind, io_bind.
  destruct (agent_step limits rt run w) as [[out|e] w1]; cbn in *; [|by split].
  destruct (He out eq_refl) as (o & -> & Ho). split; [done|]. by intros out [= <-].
Qed.

Lemma handled_cancelled run w :
  fine limits good w → cancel_requested run w →
  no_action w (run_handled limits rt run w).2
  ∧ ∀ out, (run_handled limits rt run w).1 = Ok out → out.(final_answer) = None.
Proof.
  intros Hw Hc. assert (no_action w (run_with_lease limits rt run w).2
    ∧ ∀ out, (run_with_lease limits rt run w).1 = Ok out → out.(final_answer) = None) as [Hn Ho].
  { unfold run_with_lease.
    apply (quiet_bind (cancel_requested run) _ _ _ (λ r : res AgentOutcome, ∀ out, r = Ok out → out.(final_answer) = None)); [done|done|rel_tac| |by intros|].
    { exact (safe_query limits good (λ _, True) _ w I). }
    clear w Hw Hc. intros p w Hw Hc. case_decide; [split; [done|by intros out [= <-]]|].
    case_decide; [split; [done|by intros out [= <-]]|]. unfold mbind, io_bind, ensure, lift.
    destruct (assert_result _ _); [by apply cancelled_loop|by split]. }
  unfold run_handled, try. destruct (run_with_lease limits rt run w) as [[out|e] w1]; [by split|].
  cbn in Hn.
  assert (∀ st status e w1, no_action w w1 →
    no_action w ((text ← message e; _ ← terminate rt run st text; mret (ended status text)) w1).2
    ∧ ∀ out, ((text ← message e; _ ← terminate rt run st text; mret (ended status text)) w1).1 = Ok out →
        final_answer out = None) as Hend.
  { intros st status e0 w0 Hq0. unfold mbind, io_bind, message.
    pose proof (terminate_quiet run st (text_of (w_tick w0) e0) w0) as Ht.
    destruct (terminate rt run st (text_of (w_tick w0) e0) w0) as [[p|e1] w2]; cbn in *;
      split; try (by etrans); try done. by intros out [= <-]. }
  destruct e; try (by split); by apply Hend.
Qed.

Lemma run_cancelled run ctx w :
  fine limits good w → cancel_requested run w →
  no_action w (Agent.run limits rt run ctx w).2
  ∧ ∀ out, (Agent.run limits rt run ctx w).1 = Ok out → out.(final_answer) = None.
Proof.
  intros Hw Hc. unfold Agent.run.
  pose (P := λ r : res AgentOutcome, ∀ out, r = Ok out → out.(final_answer) = None).
  destruct ctx as [c|].
  - apply (quiet_bind (cancel_requested run) _ _ _ P); [done|done|rel_tac| |by intros|].
    { exact (safe_ensure limits good (λ _, True) _ _ w I). }
    clear w Hw Hc. intros _ w Hw Hc.
    apply (quiet_bind (cancel_requested run) _ _ _ P); [done|done|rel_tac| |by intros|].
    { exact (safe_ensure limits good (λ _, True) _ _ w I). }
    clear w Hw Hc. intros _ w Hw Hc.
    apply (quiet_bind (cancel_requested run) _ _ _ P); [done|done|rel_tac| |by intros|].
    { apply wp_put; [intros ?; by split_and!|done]. }
    clear w Hw Hc. intros _ w Hw Hc.
    apply (quiet_bind (cancel_requested run) _ _ _ P); [done|done|rel_tac| |by intros|].
    { apply wp_call; [apply _|apply method_synchronize|done]. }
    clear w Hw Hc. intros _ w Hw Hc. by apply handled_cancelled.
  - apply (quiet_bind (cancel_requested run) _ _ _ P); [done|done|rel_tac| |by intros|].
    { apply wp_call; [apply _|apply method_acquire|done]. }
    clear w Hw Hc. intros lease w Hw Hc.
    match goal with |- context [finally ?m _] => set (body := m) end.
    assert (no_action w (body w).2 ∧ P (body w).1) as [Hn HP].
    { apply (quiet_bind (cancel_requested run) _ _ _ P); [done|done|rel_tac| |by intros|].
      { exact (safe_query limits good (λ _, True) _ w I). }
      clear w Hw Hc. intros p w Hw Hc.
      apply (quiet_bind (cancel_requested run) _ _ _ P); [done|done|rel_tac| |by intros|].
      { exact (safe_lift limits good (λ _, True) _ w I). }
      clear w Hw Hc. intros c w Hw Hc.
      apply (quiet_bind (cancel_requested run) _ _ _ P); [done|done|rel_tac| |by intros|].
      { apply wp_put; [intros ?; by split_and!|done]. }
      clear w Hw Hc. intros _ w Hw Hc. by apply handled_cancelled. }
    assert (io_rel no_action (release_owned lease)) as Hrel by (unfold release_owned; rel_tac).
    unfold finally. destruct (body w) as [r w1]. cbn in Hn, HP. specialize (Hrel w1).
    destruct r as [out|e].
    + destruct (release_owned lease w1) as [[?|e] w2]; cbn in *; (split; [by etrans|done]).
    + assert (∀ w', no_action w w' → no_action w w' ∧ P (Err e)) as He by by intros.
      destruct (release_owned lease w1) as [[?|e'] w2]; cbn in Hrel;
        destruct e; cbn; (split; [by etrans|by intros]).
Qed.

(** ** Properties *)

Context `{!SafeModelPort limits rt.(model)}.
Hypothesis reader_safe : ∀ load, rt.(prompt_working_set_reader) = Some load →
  ∀ J, Stable limits good J → ∀ run n, safe limits good J (load run n).

(** C8. The agent acts through the store, and every external action has a durable intent:
    from a reachable database, whatever the run does (finish, raise, die at any step) and
    whatever other workers, other processes and the providers do in between, the database
    stays reachable, and at each request to a provider the start of that attempt is in the
    ledger, at each process start and file replacement the attempt is recorded. *)
Theorem external_actions_have_durable_intents run ctx w r w' :
  reachable limits w.(w_db) → w.(w_history) = [] → Agent.run limits rt run ctx w = (r, w') →
  reachable limits w'.(w_db) ∧ progress limits w.(w_db) w'.(w_db)
  ∧ Forall (intended limits) w'.(w_history).
Proof.
  intros Hs Hh Hr. assert (fine limits good w) as Hw by (split; [done|by rewrite Hh]).
  destruct (run_safe limits rt reader_safe (λ _, True) run ctx w I Hw _ _ Hr) as ([? ?] & [? _ _ _] & _).
  done.
Qed.

(** C9. No unapproved effect: at the moment a process is started or a file replaced, the database
    holds the tool call with an attempt under way or finished, and unless the call is of the
    pure class it holds an approval of exactly this call, decided ALLOW_ONCE by a named
    actor. *)
Theorem external_effects_are_approved run ctx w r w' h :
  reachable limits w.(w_db) → w.(w_history) = [] → Agent.run limits rt run ctx w = (r, w') →
  h ∈ w'.(w_history) →
  match h.(h_action) with StartProcess _ _ | ReplaceFile _ _ => True | _ => False end →
  ∃ tool attempt call, h.(h_label) = Some (ForAttempt tool attempt)
    ∧ h.(h_db).(tool_calls) !! tool = Some call ∧ attempted call.(tc_state)
    ∧ (call.(tc_effect_class) ≠ ToolEffectClass.PURE →
       ∃ aid a, h.(h_db).(approvals) !! aid = Some a ∧ requests_call tool call a
                ∧ decided ApprovalDecision.ALLOW_ONCE a).
Proof.
  intros Hs Hh Hr Hin Hact. assert (fine limits good w) as Hw by (split; [done|by rewrite Hh]).
  destruct (run_safe limits rt reader_safe (λ _, True) run ctx w I Hw _ _ Hr) as ([_ Hall] & _).
  rewrite Forall_forall in Hall. destruct (Hall h Hin) as [Hdb Hi]. unfold durable_intent in Hi.
  destruct (h_label h) as [[|tool attempt]|]; [by destruct (h_action h)| |done].
  assert (attempt_recorded (h_db h) tool attempt) as (row & Hrow & Ht) by by destruct (h_action h).
  pose proof (reachable_protocol limits _ Hdb) as Hp.
  destruct (pi_attempts _ Hp _ _ Hrow) as (call & Hcall & Hst & Hatt). rewrite Ht in Hcall.
  exists tool, attempt, call. split_and!; [done|done|by rewrite Hst|].
  intros Hne. apply (pi_gate _ Hp tool call); [done|done|]. right. by rewrite Hst.
Qed.

(** C11. A cancelled run does nothing more: once the cancellation of a run is in the database, a
    worker that runs it starts no process, replaces no file and sends no request, whatever
    else happens, and does not report an answer. *)
Theorem cancelled_run_does_not_act run ctx w r w' :
  reachable limits w.(w_db) → w.(w_history) = [] → cancel_requested run w →
  Agent.run limits rt run ctx w = (r, w') →
  w'.(w_history) = [] ∧ ∀ out, r = Ok out → out.(final_answer) = None.
Proof.
  intros Hs Hh Hc Hr. assert (fine limits good w) as Hw by (split; [done|by rewrite Hh]).
  destruct (run_cancelled run ctx w Hw Hc) as [Hn Ho]. rewrite Hr in Hn, Ho. cbn in Hn, Ho.
  split; [by rewrite Hn|done].
Qed.
End cancellation.

(** ** Witnesses *)

#[global] Instance quiet_laws : EnvironmentLaws demo_limits.
Proof.
  split; [intros n; apply toy_tick_ok|]. intros n s _. apply rtc_refl.
Qed.

(** Without a prompt reader there is nothing to ask of it. *)
Lemma scripted_reader : ∀ load, scripted_runtime.(prompt_working_set_reader) = Some load →
  ∀ J, Stable demo_limits (intended demo_limits) J → ∀ run n,
    safe demo_limits (intended demo_limits) J (load run n).
Proof. done. Qed.

Lemma acting_start : ∃ h, h ∈ acting_run.2.(w_history) ∧ h.(h_action) = StartProcess ["ls"] root.
Proof.
  pose proof acting_history as Hm. destruct (w_history acting_run.2) as [|h l]; [done|].
  exists h. split; [by left|]. by injection Hm.
Qed.

(** Witness of [external_actions_have_durable_intents]: a run that starts a process. *)
Lemma external_actions_have_durable_intents_witness :
  acting_run.2.(w_history) ≠ [] ∧ Forall (intended demo_limits) acting_run.2.(w_history).
Proof.
  split; [intros E; destruct acting_start as (h & Hin & _); rewrite E in Hin; inversion Hin|].
  apply (external_actions_have_durable_intents demo_limits scripted_runtime scripted_reader "run" None
           acting_world acting_run.1 acting_run.2).
  - apply provisioned_reachable.
  - reflexivity.
  - apply surjective_pairing.
Defined.

(** Witness of [external_effects_are_approved]: the process started is of an attempted call. *)
Lemma external_effects_are_approved_witness :
  ∃ h tool attempt call, h ∈ acting_run.2.(w_history)
    ∧ h.(h_label) = Some (ForAttempt tool attempt)
    ∧ h.(h_db).(tool_calls) !! tool = Some call ∧ attempted call.(tc_state).
Proof.
  destruct acting_start as (h & Hin & Ha).
  destruct (external_effects_are_approved demo_limits scripted_runtime scripted_reader "run" None
              acting_world acting_run.1 acting_run.2 h) as (tool & attempt & call & Hl & Hc & Hat & _).
  - apply provisioned_reachable.
  - reflexivity.
  - apply surjective_pairing.
  - exact Hin.
  - rewrite Ha. exact I.
  - exact (ex_intro _ h (ex_intro _ tool (ex_intro _ attempt (ex_intro _ call
      (conj Hin (conj Hl (conj Hc Hat))))))). 
Defined.

(** Witness of [cancelled_run_does_not_act]: the same worker, the run cancelled before. *)
Lemma cancelled_run_does_not_act_witness :
  (Agent.run demo_limits scripted_runtime "run" None cancelled_world).2.(w_history) = [].
Proof.
  apply (cancelled_run_does_not_act demo_limits scripted_runtime "run" None cancelled_world
           (Agent.run demo_limits scripted_runtime "run" None cancelled_world).1).
  - apply cancelled_reachable.
  - reflexivity.
  - vm_compute. eexists. split; [reflexivity|]. by eexists.
  - apply surjective_pairing.
Defined.
