(* ===== verification/StartSafety.v ===== *)
(** * StartSafety: a process is started at most once for a tool call

    Each dispatch draws its attempt identifier at its own step and the process is started on
    behalf of that attempt, once; recovery starts nothing. So along any sequence of runs of a
    worker, with crashes and restarts anywhere, no tool call starts a second process. *)

From S2P Require Import Prelude Text Domain Platform Json Events Projection ToolIdentity Tables.
From S2P Require Import Ledger ModelCalls Leases Checkpoints Runs Tools Budget Store.
From S2P Require Import Scenario LedgerSafety RunSafety Lifecycle ToolSafety.
From S2P Require Import FileSystem World Programs ProgramRel FileTools Process Executors.
From S2P Require Import PromptSet ModelClient MiniAgent Agent ExecutorSafety AgentSafety AgentScenario AgentProperties.

(** The labels of the process starts of a history. *)
Fixpoint process_starts (l : list entry_of_history) : list (option label) :=
  match l with
  | [] => []
  | h :: l' => match h.(h_action) with
               | StartProcess _ _ => h.(h_label) :: process_starts l'
               | _ => process_starts l'
               end
  end.

Lemma process_starts_app l l' : process_starts (l ++ l') = process_starts l ++ process_starts l'.
Proof. induction l as [|h l IH]; cbn; [done|]. destruct (h_action h); cbn; by rewrite IH. Qed.

Abbreviation starts w := (process_starts (w_history w)).

Section starts.
Context `{Platform} `{Environment}.

(** The attempt a dispatch at step [n] draws. *)
Definition drawn (n : nat) : string := (clock n).(new_id) 0.

Definition start_label (nt : nat * string) : option label :=
  Some (ForAttempt nt.2 (drawn nt.1)).

(** The new starts are those of attempts drawn in between, each at most once. *)
Definition fresh_starts : relation world := λ w w',
  w_tick w ≤ w_tick w'
  ∧ ∃ ns, starts w' = starts w ++ (start_label <$> ns)
          ∧ Forall (λ nt, w_tick w ≤ nt.1 < w_tick w') ns ∧ NoDup ns.*1.

#[global] Instance fresh_starts_preorder : PreOrder fresh_starts.
Proof.
  split.
  - intros w. split; [done|]. exists []. cbn. split_and!; [by rewrite app_nil_r|done|apply NoDup_nil_2].
  - intros w1 w2 w3 (T12 & ns & E12 & F12 & D12) (T23 & ms & E23 & F23 & D23). split; [lia|].
    exists (ns ++ ms). split_and!.
    + by rewrite E23, E12, fmap_app, app_assoc.
    + apply Forall_app. split; (eapply Forall_impl; [done|]); cbn; intros; lia.
    + rewrite fmap_app. apply NoDup_app. split_and!; [done| |done].
      intros n (x & -> & Hx)%list_elem_of_fmap (y & Hxy & Hy)%list_elem_of_fmap.
      rewrite Forall_forall in F12, F23. specialize (F12 _ Hx). specialize (F23 _ Hy). lia.
Qed.

(** No start. *)
Definition no_starts : relation world := λ w w', w_tick w ≤ w_tick w' ∧ starts w' = starts w.

#[global] Instance no_starts_preorder : PreOrder no_starts.
Proof. split; [done|]. intros w1 w2 w3 [? E12] [? E23]. split; [lia|by rewrite E23]. Qed.

Lemma no_starts_fresh w w' : no_starts w w' → fresh_starts w w'.
Proof.
  intros [Ht Hs]. split; [done|]. exists []. cbn.
  split_and!; [by rewrite app_nil_r|done|apply NoDup_nil_2].
Qed.

Lemma no_starts_owned w w' : owned w w' → no_starts w w'.
Proof. intros [_ _ Hh Ht]. split; [lia|by rewrite Hh]. Qed.

Lemma no_starts_quiet w w' : quiet_step w w' → no_starts w w'.
Proof. intros [Hh Ht]. split; [lia|by rewrite Hh]. Qed.

Lemma rel_fresh {A} (m : io A) : io_rel no_starts m → io_rel fresh_starts m.
Proof. intros Hm w. apply no_starts_fresh, Hm. Qed.

Lemma fresh_starts_owned w w' : owned w w' → fresh_starts w w'.
Proof. intros. by apply no_starts_fresh, no_starts_owned. Qed.

Lemma fresh_starts_quiet w w' : quiet_step w w' → fresh_starts w w'.
Proof. intros. by apply no_starts_fresh, no_starts_quiet. Qed.
Hint Resolve no_starts_preorder no_starts_owned no_starts_quiet fresh_starts_preorder
  fresh_starts_owned fresh_starts_quiet : io_rel.

(** Actions that are not process starts. *)
Lemma record_starts a w :
  match a with StartProcess _ _ => False | _ => True end → starts (record a w) = starts w.
Proof. intros Ha. cbn. rewrite process_starts_app. cbn. destruct a; try done; by rewrite app_nil_r. Qed.

Lemma perform_starts {A} a (reply : nat → res A) :
  match a with StartProcess _ _ => False | _ => True end → io_rel no_starts (perform a reply).
Proof.
  intros Ha w. unfold perform, step. set (w1 := w <| w_db ::= _ |> <| w_fs ::= _ |> <| w_tick := _ |>).
  split; destruct (fate (w_tick w)); cbn [fst snd]; try (subst w1; cbn; lia);
    try done; by rewrite record_starts.
Qed.

Lemma replace_starts src dst content : io_rel no_starts (replace_step src dst content).
Proof.
  intros w. unfold replace_step, step. set (w1 := w <| w_db ::= _ |> <| w_fs ::= _ |> <| w_tick := _ |>).
  split; destruct (fate (w_tick w)), (replace_file (w_fs w1) src dst); cbn [fst snd];
    try (subst w1; cbn; lia); try done; by rewrite record_starts.
Qed.
Hint Resolve replace_starts : io_rel.
Hint Extern 1 (io_rel no_starts (perform _ _)) => (apply perform_starts; exact I) : io_rel.

(** ** One start *)

(** At most one process start, on behalf of the current label. *)
Definition one_start (w w' : world) : Prop :=
  w_tick w ≤ w_tick w' ∧ (starts w' = starts w ∨ starts w' = starts w ++ [w_label w]).

(** A program that records nothing and keeps the label. *)
Definition still : relation world := λ w w',
  w_tick w ≤ w_tick w' ∧ w_history w' = w_history w ∧ w_label w' = w_label w.

Lemma perform_one {A} command dir (reply : nat → res A) w :
  one_start w (perform (StartProcess command dir) reply w).2.
Proof.
  unfold perform, step. set (w1 := w <| w_db ::= _ |> <| w_fs ::= _ |> <| w_tick := _ |>).
  destruct (fate (w_tick w)); cbn [fst snd]; (split; [subst w1; cbn; lia|]); [right|by left|right];
    cbn; by rewrite process_starts_app.
Qed.

Lemma bind_one {A B} (m : io A) (k : A → io B) w :
  still w (m w).2 → (∀ a w1, one_start w1 (k a w1).2) → one_start w (mbind k m w).2.
Proof.
  intros (Ht & Hh & Hl) Hk. rewrite io_bind_eq. destruct (m w) as [[a|e] w1]; cbn in *.
  - destruct (Hk a w1) as [Ht' Hs]. split; [lia|]. by rewrite Hh, Hl in Hs.
  - split; [done|]. left. by rewrite Hh.
Qed.

Lemma bind_still {A B} (m : io A) (k : A → io B) w :
  one_start w (m w).2 → (∀ a w1, (k a w1).2 = w1) → one_start w (mbind k m w).2.
Proof.
  intros Hm Hk. rewrite io_bind_eq. destruct (m w) as [[a|e] w1]; cbn in *; [by rewrite Hk|done].
Qed.

Lemma look_still {A} (f : fs → res A) w : still w (look f w).2.
Proof.
  unfold look, step, still. destruct (fate (w_tick w)); cbn; (split_and!; [lia|done|done]).
Qed.

Lemma pure_still {A} (r : res A) w : still w (lift r w).2.
Proof. by split_and!. Qed.

Lemma run_process_one n command dir t w : one_start w (run_process n command dir t w).2.
Proof.
  unfold run_process. apply bind_one; [apply pure_still|intros _ w1].
  apply bind_one; [apply pure_still|intros _ w2]. apply bind_one; [apply look_still|intros p w3].
  apply bind_still; [apply perform_one|done].
Qed.

Lemma supervise_one sx argv timeout dir w : one_start w (supervise sx argv timeout dir w).2.
Proof.
  unfold supervise. do 3 (apply bind_one; [apply pure_still|intros ? ?]). apply run_process_one.
Qed.

(** A dispatch returns the attempt drawn at its step. *)
Lemma dispatch_drawn pid tid plan kind w att w' :
  dispatch pid tid plan kind w = (Ok att, w') →
  att.(at_attempt_id) = drawn (w_tick w) ∧ quiet_step w w'.
Proof.
  intros Hd. unfold dispatch, call, step in Hd.
  set (w1 := w <| w_db ::= _ |> <| w_fs ::= _ |> <| w_tick := _ |>) in Hd.
  destruct (fate (w_tick w)); try discriminate Hd. injection Hd as Hout <-.
  split; [|by split]. unfold execute in Hout.
  destruct (dispatch_tool_call _ _ _ _ _ _ _ _) as [[[r v] s']|e] eqn:Hm; [|done].
  assert (r = Ok att) as ->.
  { destruct v as [v|]; [|exact Hout]. revert Hout. by case_match. }
  unfold dispatch_tool_call, returned, committed in Hm. tx_steps;
    match goal with
    | Hr : tool_attempt_from_row _ _ _ = Ok _ |- _ => apply attempt_record_Ok in Hr as [-> _]
    | Hr : Ok _ = tool_attempt_from_row _ _ _ |- _ =>
        symmetry in Hr; apply attempt_record_Ok in Hr as [-> _]
    end; done.
Qed.

(** ** Executors *)

Lemma reconcile_starts tools plan : io_rel no_starts (reconcile tools plan).
Proof. unfold reconcile. rel_tac. Qed.
Hint Resolve reconcile_starts : io_rel.

Lemma read_text_starts tools p : io_rel no_starts (read_text tools p).
Proof. unfold read_text, check_size. rel_tac. Qed.
Hint Resolve read_text_starts : io_rel.

Lemma plan_write_starts tools p c : io_rel no_starts (plan_write tools p c).
Proof. unfold plan_write, check_size. rel_tac. Qed.
Hint Resolve plan_write_starts : io_rel.

Lemma plan_patch_starts tools p o n : io_rel no_starts (plan_patch tools p o n).
Proof. unfold plan_patch. rel_tac. Qed.
Hint Resolve plan_patch_starts : io_rel.

Lemma execute_plan_starts tools plan : io_rel no_starts (execute_plan tools plan).
Proof. unfold execute_plan, prepare_and_replace, remove_temporary. rel_tac. Qed.
Hint Resolve execute_plan_starts : io_rel.

Context (limits : BlobLimits).

Lemma finish_failed_starts pid aid e : io_rel no_starts (finish_failed limits pid aid e).
Proof. unfold finish_failed, finish. rel_tac. Qed.
Hint Resolve finish_failed_starts : io_rel.

Lemma finish_uncertain_starts pid aid e : io_rel no_starts (finish_uncertain limits pid aid e).
Proof. unfold finish_uncertain, finish. rel_tac. Qed.
Hint Resolve finish_uncertain_starts : io_rel.

Lemma file_effect_starts fx name args plan : io_rel no_starts (file_effect fx name args plan).
Proof. unfold file_effect, list_files, search, directory. rel_tac. Qed.
Hint Resolve file_effect_starts : io_rel.

Lemma execute_dispatched_starts fx tid aid name args plan :
  io_rel no_starts (execute_dispatched limits fx tid aid name args plan).
Proof. unfold execute_dispatched, run_hook, finish. rel_tac. Qed.
Hint Resolve execute_dispatched_starts : io_rel.

Lemma file_execute_starts fx tid : io_rel no_starts (file_execute limits fx tid).
Proof. unfold file_execute, outcome_of, plan_tool, sb_of_put, dispatch, run_hook. rel_tac. Qed.

Lemma file_recover_starts fx aid : io_rel no_starts (file_recover limits fx aid).
Proof. unfold file_recover, recover_dispatched_file, restore_plan. rel_tac. Qed.

Lemma shell_recover_starts sx aid : io_rel no_starts (shell_recover limits sx aid).
Proof. unfold shell_recover. rel_tac. Qed.

(** What follows a dispatch starts at most one process, for the dispatched attempt. *)
Definition one_start_for (l : label) (w w' : world) : Prop :=
  w_tick w ≤ w_tick w' ∧ (starts w' = starts w ∨ starts w' = starts w ++ [Some l]).

Lemma dispatch_then {B} pid tid plan kind (k : ToolAttemptRecord → io B) w :
  (∀ att w1, one_start_for (ForAttempt att.(at_tool_call_id) att.(at_attempt_id)) w1 (k att w1).2) →
  fresh_starts w (mbind k (dispatch pid tid plan kind) w).2.
Proof.
  intros Hk. rewrite io_bind_eq.
  assert (io_rel no_starts (dispatch pid tid plan kind)) as Hq by (unfold dispatch; rel_tac).
  specialize (Hq w). destruct (dispatch pid tid plan kind w) as [[att|e] w1] eqn:Hd;
    [|by apply no_starts_fresh].
  apply dispatch_drawn in Hd as (Ha & Hh & Ht). destruct (Hk att w1) as (Ht' & Hs).
  assert (starts w1 = starts w) as Hw by by rewrite Hh. rewrite Hw in Hs. cbn.
  destruct Hs as [Hs|Hs]; [apply no_starts_fresh; split; [lia|done]|].
  split; [lia|]. exists [(w_tick w, att.(at_tool_call_id))]. split_and!.
  - by rewrite Hs, Ha.
  - apply Forall_singleton. cbn. lia.
  - apply NoDup_singleton.
Qed.

Lemma quiet_start_for l w w' : no_starts w w' → one_start_for l w w'.
Proof. intros [? ?]. split; [done|by left]. Qed.

Lemma start_for_after l w w1 w' : no_starts w w1 → one_start_for l w1 w' → one_start_for l w w'.
Proof. intros [? E] [? Hs]. split; [lia|]. by rewrite <- E. Qed.

Lemma start_for_before l w w1 w' : one_start_for l w w1 → no_starts w1 w' → one_start_for l w w'.
Proof. intros [? Hs] [? E]. split; [lia|]. by rewrite E. Qed.

Lemma start_for_bind {A B} l (m : io A) (k : A → io B) w :
  one_start_for l w (m w).2 → (∀ a, io_rel no_starts (k a)) → one_start_for l w (mbind k m w).2.
Proof.
  intros Hm Hk. rewrite io_bind_eq. destruct (m w) as [[a|e] w1]; [|done].
  eapply start_for_before; [done|apply Hk].
Qed.

Lemma start_for_try {A} l (m : io A) h w :
  one_start_for l w (m w).2 → (∀ e k, h e = Some k → io_rel no_starts k) →
  one_start_for l w (try m h w).2.
Proof.
  intros Hm Hh. unfold try. destruct (m w) as [[a|e] w1]; [done|]. cbn in Hm.
  assert (one_start_for l w (match h e with Some k => k w1 | None => (Err e, w1) end).2).
  { destruct (h e) as [k|] eqn:He; [|done]. eapply start_for_before; [done|by eapply Hh]. }
  by destruct e.
Qed.

Lemma supervise_start_for sx l argv timeout dir w :
  one_start_for l w (on_behalf l (supervise sx argv timeout dir) w).2.
Proof.
  unfold on_behalf. pose proof (supervise_one sx argv timeout dir (w <| w_label := Some l |>)) as Hs.
  by destruct (supervise _ _ _ _ _) as [r w'].
Qed.

Lemma shell_execute_starts sx tid : io_rel fresh_starts (shell_execute limits sx tid).
Proof.
  unfold shell_execute, shell_cwd. do 5 (apply rel_bind; [apply _|rel_tac|intros ?]).
  intros w. apply dispatch_then. clear w. intros att w. set (l := ForAttempt _ _).
  rewrite io_bind_eq.
  assert (∀ stage, io_rel no_starts (run_hook (sx_hook sx) stage (at_attempt_id att)))
    as Hhook by (intros; unfold run_hook; rel_tac).
  pose proof (Hhook "after_dispatch_before_process_start" w) as H1.
  destruct (run_hook _ _ _ w) as [[?|e] w1]; [|by apply quiet_start_for].
  eapply start_for_after; [exact H1|]. apply start_for_try.
  - apply start_for_bind; [apply supervise_start_for|intros r; unfold finish; rel_tac].
  - intros e k [= <-]. apply finish_failed_starts.
Qed.

(** ** The agent *)

(** A port that starts nothing when its observer does not. *)
Class QuietModelPort (port : ModelPort) : Prop :=
  complete_starts : ∀ ob text n,
    (∀ k, io_rel no_starts (ob.(started) k)) → (∀ k e b, io_rel no_starts (ob.(failed) k e b)) →
    io_rel no_starts (port.(complete) text n ob).

#[global] Instance scripted_quiet : QuietModelPort ScriptedModel.
Proof. intros ob text n Hs Hf. cbn. unfold scripted_complete. rel_tac. Qed.

Lemma attempt_loop_starts ob max payload read :
  (∀ k, io_rel no_starts (ob.(started) k)) → (∀ k e b, io_rel no_starts (ob.(failed) k e b)) →
  ∀ remaining attempt, io_rel no_starts (attempt_loop remaining max attempt payload read ob).
Proof.
  intros Hs Hf remaining. induction remaining as [|remaining IH]; intros attempt;
    cbn [attempt_loop]; unfold generate; rel_tac.
Qed.

#[global] Instance ollama_quiet m : QuietModelPort (ollama_port m).
Proof. intros ob text n Hs Hf. by apply attempt_loop_starts. Qed.

#[global] Instance openai_quiet m : QuietModelPort (openai_port m).
Proof. intros ob text n Hs Hf. by apply attempt_loop_starts. Qed.

Lemma reuse_starts cs es : io_rel no_starts (reuse_or_hydrate sqlite_prompt_store cs es).
Proof.
  induction es as [|e es IH]; cbn [reuse_or_hydrate];
    unfold reuse_or_hydrate_entry, hydrate_entry, entry_text, blob_bytes; cbn; rel_tac.
Qed.
Hint Resolve reuse_starts : io_rel.

Lemma build_prompt_starts run n c a b :
  io_rel no_starts (build_authoritative_prompt_working_set sqlite_prompt_store run n c a b).
Proof. unfold build_authoritative_prompt_working_set. cbn. rel_tac. Qed.
Hint Resolve build_prompt_starts : io_rel.

Variable rt : DurableAgentRuntime.
Context `{!QuietModelPort rt.(model)}.
Hypothesis reader_starts : ∀ load, rt.(prompt_working_set_reader) = Some load →
  ∀ run n, io_rel no_starts (load run n).

Lemma renew_lease_starts : io_rel no_starts renew_lease.
Proof. unfold renew_lease. rel_tac. Qed.

Lemma maybe_checkpoint_starts run : io_rel no_starts (maybe_checkpoint rt run).
Proof. unfold maybe_checkpoint, stream_version. rel_tac. Qed.

Lemma terminate_starts run st reason : io_rel no_starts (terminate rt run st reason).
Proof. unfold terminate. rel_tac. Qed.

Lemma settle_starts b rid n : io_rel no_starts (settle_if rt b rid n).
Proof. unfold settle_if, settle. rel_tac. Qed.

Lemma append_starts run p c payload : io_rel no_starts (append_run_event rt run p c payload).
Proof. unfold append_run_event. rel_tac. Qed.
Hint Resolve renew_lease_starts maybe_checkpoint_starts terminate_starts settle_starts
  append_starts : io_rel.

Lemma observer_started_starts run call step off k :
  io_rel no_starts ((observer rt run call step off).(started) k).
Proof. cbn. unfold observer_started, observed. rel_tac. Qed.

Lemma observer_failed_starts run call step off k e b :
  io_rel no_starts ((observer rt run call step off).(failed) k e b).
Proof. cbn. unfold observer_failed, observed. rel_tac. Qed.
Hint Resolve observer_started_starts observer_failed_starts : io_rel.

Lemma prompt_starts run step n : io_rel no_starts (prompt rt run step n).
Proof.
  unfold prompt. destruct (prompt_working_set_reader rt) as [load|] eqn:Hload; rel_tac.
Qed.
Hint Resolve prompt_starts : io_rel.

Lemma provider_failed_starts {A} run call rid b step prev e :
  io_rel no_starts (provider_failed rt run call rid b step prev e : io A).
Proof. unfold provider_failed. rel_tac. Qed.
Hint Resolve provider_failed_starts : io_rel.

Lemma invoke_model_starts run call rid b step prev :
  io_rel no_starts (invoke_model rt run call rid b step prev).
Proof.
  unfold invoke_model, stream_version. apply rel_try; [apply _| |intros [] ? [= <-]; rel_tac].
  rel_tac.
Qed.
Hint Resolve invoke_model_starts : io_rel.

Lemma call_model_starts run step : io_rel no_starts (call_model limits rt run step).
Proof. unfold call_model, sb_of_put. rel_tac. Qed.
Hint Resolve call_model_starts : io_rel.

Lemma next_response_starts run : io_rel no_starts (next_response limits rt run).
Proof. unfold next_response, latest_unconsumed_model_response, settle_model_budget. rel_tac. Qed.

Lemma after_attempt_starts run tool reason detail r :
  io_rel no_starts (after_attempt rt run tool reason detail r).
Proof. unfold after_attempt. rel_tac. Qed.
Hint Resolve after_attempt_starts shell_execute_starts rel_fresh : io_rel.
Hint Resolve file_execute_starts file_recover_starts shell_recover_starts next_response_starts : io_rel.

Lemma execute_ready_starts run tool c : io_rel fresh_starts (execute_ready limits rt run tool c).
Proof. unfold execute_ready. rel_tac. Qed.

Lemma recover_dispatched_starts run tool c :
  io_rel fresh_starts (recover_dispatched limits rt run tool c).
Proof. apply rel_fresh. unfold recover_dispatched. rel_tac. Qed.

Lemma request_approval_starts tool c : io_rel fresh_starts (request_approval rt tool c).
Proof. apply rel_fresh. unfold request_approval. rel_tac. Qed.
Hint Resolve execute_ready_starts recover_dispatched_starts request_approval_starts : io_rel.

Lemma continue_tool_starts run tool : io_rel fresh_starts (continue_tool limits rt run tool).
Proof. unfold continue_tool. rel_tac. Qed.
Hint Resolve continue_tool_starts : io_rel.

Lemma consume_starts run e raw : io_rel fresh_starts (consume_response limits rt run e raw).
Proof. unfold consume_response, reject_output, propose, sb_of_put. rel_tac. Qed.
Hint Resolve consume_starts : io_rel.

Lemma agent_step_starts run : io_rel fresh_starts (agent_step limits rt run).
Proof. unfold agent_step. rel_tac. Qed.
Hint Resolve agent_step_starts : io_rel.

Lemma agent_loop_starts n run : io_rel fresh_starts (agent_loop limits rt n run).
Proof. induction n as [|n IH]; cbn [agent_loop]; rel_tac. Qed.
Hint Resolve agent_loop_starts : io_rel.

Lemma run_handled_starts run : io_rel fresh_starts (run_handled limits rt run).
Proof. unfold run_handled, run_with_lease. rel_tac. Qed.
Hint Resolve run_handled_starts : io_rel.

Lemma run_starts run ctx : io_rel fresh_starts (Agent.run limits rt run ctx).
Proof. unfold Agent.run, release_owned. rel_tac. Qed.
End starts.

(** ** Sequences of runs *)

Section service.
Context `{PlatformLaws} `{Environment} (limits : BlobLimits) `{!EnvironmentLaws limits}.

(** A runtime whose port and prompt reader report, and act on nothing else. *)
Record safe_runtime (rt : DurableAgentRuntime) : Prop := {
  sr_port : SafeModelPort limits rt.(model);
  sr_quiet : QuietModelPort rt.(model);
  sr_reader : ∀ load, rt.(prompt_working_set_reader) = Some load → ∀ run n,
    io_rel no_starts (load run n)
    ∧ ∀ J, Stable limits (intended limits) J → safe limits (intended limits) J (load run n);
}.

(** What a worker does: it runs a run, or it is restarted and loses its variables. *)
Inductive job : relation world :=
| job_run rt run ctx w : safe_runtime rt → job w (Agent.run limits rt run ctx w).2
| job_restart w w' : owned w w' → w_label w' = w_label w → job w w'.

Lemma job_extends w w' :
  fine limits (intended limits) w → job w w' →
  fine limits (intended limits) w' ∧ extends limits w w' ∧ fresh_starts w w'.
Proof.
  intros Hw Hj. destruct Hj as [rt run ctx w0 [Hp Hq Hr]|w0 w1 [E1 E2 E3 E4] El].
  - assert (∀ load, rt.(prompt_working_set_reader) = Some load →
      ∀ J, Stable limits (intended limits) J → ∀ r n, safe limits (intended limits) J (load r n)) as Hs.
    { intros load Hl J HJ r n. by apply (Hr load Hl r n). }
    destruct (Agent.run limits rt run ctx w0) as [r w1] eqn:Hrun.
    destruct (run_safe limits rt Hs (λ _, True) run ctx w0 I Hw _ _ Hrun) as (Hf & Hx & _).
    split_and!; [done|done|]. change w1 with (r, w1).2. rewrite <- Hrun. apply run_starts; [done|].
    intros load Hl r' n. by apply (Hr load Hl r' n).
  - split_and!; [split; [rewrite E1|rewrite E3]; apply Hw| |].
    + apply extends_same; [rewrite E1; apply rtc_refl|done|by rewrite E4|done].
    + by apply fresh_starts_owned.
Qed.

Lemma jobs_extend w w' :
  rtc job w w' → fine limits (intended limits) w →
  fine limits (intended limits) w' ∧ extends limits w w' ∧ fresh_starts w w'.
Proof.
  induction 1 as [w|w1 w2 w3 Hj _ IH]; intros Hw; [by split_and!|].
  destruct (job_extends _ _ Hw Hj) as (Hf & Hx & Hs). destruct (IH Hf) as (Hf' & Hx' & Hs').
  split_and!; [done|by etrans|by etrans].
Qed.

Lemma start_entry l hs :
  l ∈ process_starts hs → ∃ h, h ∈ hs ∧ h.(h_label) = l ∧ ∃ c d, h.(h_action) = StartProcess c d.
Proof.
  induction hs as [|h hs IH]; cbn; [by intros ?%not_elem_of_nil|].
  destruct (h_action h) eqn:Ha; rewrite ?elem_of_cons;
    try (intros (h' & Hin & ?)%IH; exists h'; rewrite elem_of_cons; tauto).
  intros [->|(h' & Hin & ?)%IH]; [|exists h'; rewrite elem_of_cons; tauto].
  exists h. rewrite elem_of_cons. split_and!; [by left|done|eauto].
Qed.

Lemma NoDup_snd {A B} (l : list (A * B)) :
  NoDup l.*1 → (∀ x y, x ∈ l → y ∈ l → x.2 = y.2 → x.1 = y.1) → NoDup l.*2.
Proof.
  induction l as [|x l IH]; cbn; [intros; apply NoDup_nil_2|]. intros [Hx Hl]%NoDup_cons Hu. apply NoDup_cons. split.
  - intros (y & Hxy & Hy)%list_elem_of_fmap. apply Hx. apply list_elem_of_fmap. exists y.
    split; [|done]. apply Hu; [by left|by right|done].
  - apply IH; [done|]. intros y z Hy Hz. apply Hu; by right.
Qed.

(** C10. No process is started twice: along any sequence of runs of a worker, finished, failed or
    killed at any step and started again, with other workers and processes in between, every
    process start belongs to an attempt of a tool call, and no two to the same tool call. *)
Theorem no_process_started_twice w w' :
  (∀ n m, drawn n = drawn m → n = m) →
  reachable limits w.(w_db) → w.(w_history) = [] → rtc job w w' →
  ∃ calls : list (string * string),
    process_starts w'.(w_history) = (λ c, Some (ForAttempt c.1 c.2)) <$> calls ∧ NoDup calls.*1.
Proof.
  intros Hinj Hs Hh Hj. assert (fine limits (intended limits) w) as Hw by (split; [done|by rewrite Hh]).
  destruct (jobs_extend _ _ Hj Hw) as (Hf & Hx & _ & ns & Hst & _ & Hnd).
  rewrite Hh in Hst. cbn in Hst. exists ((λ nt, (nt.2, drawn nt.1)) <$> ns). split.
  { rewrite Hst, <- list_fmap_compose. done. }
  rewrite <- list_fmap_compose. apply NoDup_snd; [done|].
  assert (∀ nt, nt ∈ ns → attempt_recorded (w_db w') nt.2 (drawn nt.1)) as Hrec.
  { intros nt Hnt. assert (start_label nt ∈ process_starts (w_history w')) as Hin
      by (rewrite Hst; by apply list_elem_of_fmap_2).
    apply start_entry in Hin as (h & Hin & Hl & c & d & Ha).
    destruct (ext_history _ _ _ Hx) as (new & Hnew & Hp). rewrite Hh in Hnew. cbn in Hnew.
    rewrite Forall_forall in Hp. rewrite Hnew in Hin.
    destruct Hf as [_ Hg]. rewrite Forall_forall, Hnew in Hg. destruct (Hg _ Hin) as [Hr Hd].
    unfold durable_intent in Hd. rewrite Hl, Ha in Hd.
    by apply (attempt_stable limits h.(h_db)); [|apply Hp|]. }
  intros x y Hx' Hy Hxy. destruct (Hrec x Hx') as (r1 & R1 & T1). destruct (Hrec y Hy) as (r2 & R2 & T2).
  apply Hinj. eapply (pi_unique _ (reachable_protocol limits _ (fine_db _ _ _ Hf))); [done..|congruence].
Qed.
End service.

(** ** Witness *)

Lemma scripted_runtime_safe : safe_runtime demo_limits scripted_runtime.
Proof. split; [apply _|apply _|done]. Qed.

(** Witness of [no_process_started_twice]: a run that starts a process, and its worker again. *)
Lemma no_process_started_twice_witness :
  let again := (Agent.run demo_limits scripted_runtime "run" None acting_run.2).2 in
  ∃ calls : list (string * string),
    process_starts again.(w_history) = (λ c, Some (ForAttempt c.1 c.2)) <$> calls ∧ NoDup calls.*1.
Proof.
  apply (@no_process_started_twice toy_platform toy_platform_laws quiet demo_limits _ acting_world).
  - exact drawn_by_tick.
  - apply provisioned_reachable.
  - reflexivity.
  - eapply rtc_l; [|apply rtc_once]; apply (job_run demo_limits), scripted_runtime_safe.
Defined.
