(* ===== verification/RunBound.v ===== *)
(** * RunBound: the agent makes boundedly many steps

    Whatever the providers answer and whatever others do, a run ends after a number of steps
    known in advance: store calls, file operations and external actions together. *)

From S2P Require Import Prelude Text Domain Platform Json Events Projection ToolIdentity Tables.
From S2P Require Import Ledger ModelCalls Leases Checkpoints Runs Tools Budget Store Scenario.
From S2P Require Import FileSystem World ProgramRel FileTools Process Executors.
From S2P Require Import PromptSet ModelClient MiniAgent Agent AgentScenario.

Section bounds.
Context `{Platform} `{Environment} (limits : BlobLimits).

(** ** Model ports *)

(** A port that makes at most [a] attempts, each of which reports its start, sends a request
    and at worst reports a failure and waits. *)
Class BoundedPort (port : ModelPort) (a : nat) : Prop :=
  port_cost : ∀ ob text n s f,
    (∀ k, io_cost (ob.(started) k) s) → (∀ k e b, io_cost (ob.(failed) k e b) f) →
    io_cost (port.(complete) text n ob) (a * (s + f + 2)).

#[global] Instance scripted_bounded : BoundedPort ScriptedModel 1.
Proof.
  intros ob text n s f Hs Hf. cbn [complete ScriptedModel]. unfold scripted_complete.
  eapply cost_bind_within; [apply Hs|lia|intros _].
  eapply cost_bind_within; [apply cost_ask|lia|intros [|t rest]].
  - eapply cost_bind_within; [apply Hf|lia|intros _]. eapply cost_weaken; [apply cost_raise|lia].
  - eapply cost_bind_within; [by apply cost_put|lia|intros _]. eapply cost_weaken; [apply cost_ret|lia].
Qed.

Lemma attempt_loop_cost ob max payload read s f :
  (∀ k, io_cost (ob.(started) k) s) → (∀ k e b, io_cost (ob.(failed) k e b) f) →
  ∀ remaining attempt,
    io_cost (attempt_loop remaining max attempt payload read ob) (remaining * (s + f + 2)).
Proof.
  intros Hs Hf remaining. induction remaining as [|remaining IH]; intros attempt;
    cbn [attempt_loop]; [apply cost_raise|].
  eapply cost_bind_within; [apply Hs|lia|intros _].
  eapply (cost_try_within _ _ 1); [|lia|].
  - unfold generate. eapply cost_bind_within; [apply cost_perform|lia|intros x; apply cost_lift].
  - intros [] k [= <-]. eapply cost_bind_within; [apply Hf|lia|intros _].
    case_decide; [eapply cost_weaken; [apply cost_raise|lia]|].
    eapply cost_bind_within; [apply cost_perform|lia|intros _].
    eapply cost_weaken; [apply IH|lia].
Qed.

#[global] Instance ollama_bounded m : BoundedPort (ollama_port m) (Z.to_nat m.(om_max_attempts)).
Proof. intros ob text n s f Hs Hf. by apply attempt_loop_cost. Qed.

#[global] Instance openai_bounded m : BoundedPort (openai_port m) (Z.to_nat m.(oa_max_attempts)).
Proof. intros ob text n s f Hs Hf. by apply attempt_loop_cost. Qed.

(** ** Prompts *)

Lemma reuse_entry_cost cs e : io_cost (reuse_or_hydrate_entry sqlite_prompt_store cs e) 1.
Proof.
  assert (∀ sha, io_cost (blob_bytes sqlite_prompt_store sha) 1) as Hb
    by (intros; unfold blob_bytes; cbn; cost_tac).
  assert (io_cost (hydrate_entry sqlite_prompt_store e) 1) as Hh.
  { unfold hydrate_entry. eapply (cost_bind_within _ _ 0); [apply cost_lift|lia|intros [[role src] inline]].
    eapply (cost_bind_within _ _ 1); [|lia|intros ?; apply cost_lift]. unfold entry_text.
    destruct (payload e); try (eapply cost_weaken; [apply cost_lift|lia]).
    - eapply cost_bind_within; [apply Hb|lia|intros ?]. cost_tac.
    - repeat case_match; try (eapply cost_weaken; [apply cost_lift|lia]).
      eapply cost_bind_within; [apply Hb|lia|intros ?]. cost_tac. }
  unfold reuse_or_hydrate_entry.
  eapply (cost_bind_within _ _ 0); [apply cost_lift|lia|intros [[role src] inline]].
  repeat case_match; try done. eapply cost_weaken; [apply cost_ret|lia].
Qed.

Lemma reuse_cost cs es : io_cost (reuse_or_hydrate sqlite_prompt_store cs es) (length es).
Proof.
  induction es as [|e es IH]; cbn [reuse_or_hydrate length]; [apply cost_ret|].
  eapply cost_bind_within; [apply reuse_entry_cost|lia|intros en].
  eapply cost_bind_within; [apply IH|lia|intros ens]. eapply cost_weaken; [apply cost_ret|lia].
Qed.

Lemma select_entries_length n events : length (select_entries n events) ≤ Z.to_nat n.
Proof. unfold select_entries. rewrite length_drop. lia. Qed.

Lemma build_prompt_cost run :
  io_cost (build_authoritative_prompt_working_set sqlite_prompt_store run None None
             PROMPT_RECENT_EVENT_LIMIT PROMPT_TRANSCRIPT_ENTRY_LIMIT) 14.
Proof.
  unfold build_authoritative_prompt_working_set. cbn [ps_load_recent_run_events sqlite_prompt_store].
  do 3 (eapply (cost_bind_within _ _ 0); [eauto with io_cost|lia|intros _]).
  eapply cost_bind_within; [apply cost_query|lia|intros events].
  do 2 (eapply (cost_bind_within _ _ 0); [eauto with io_cost|lia|intros _]).
  eapply (cost_bind_within _ _ 12); [|lia|intros entries].
  - eapply cost_weaken; [apply reuse_cost|]. etrans; [apply select_entries_length|done].
  - eapply cost_bind_within; [apply cost_query|lia|intros m]. apply cost_lift.
Qed.

(** ** Tools *)

Lemma read_text_cost tools p : io_cost (read_text tools p) 3.
Proof. unfold read_text, check_size. cost_tac. Qed.

Lemma plan_write_cost tools p c : io_cost (plan_write tools p c) 5.
Proof.
  unfold plan_write, check_size. do 2 (eapply (cost_bind_within _ _ 0); [eauto with io_cost|lia|intros ?]).
  do 2 (eapply cost_bind_within; [apply cost_look|lia|intros ?]). cbn [Nat.sub].
  eapply (cost_bind_within _ _ 3); [|lia|intros ?; cost_tac]. cost_tac.
Qed.
Hint Resolve read_text_cost plan_write_cost : io_cost.

Lemma plan_patch_cost tools p o n : io_cost (plan_patch tools p o n) 8.
Proof. unfold plan_patch. cost_tac. Qed.

Lemma reconcile_cost tools plan : io_cost (reconcile tools plan) 3.
Proof.
  unfold reconcile. eapply cost_bind_within; [apply cost_look|lia|intros g]. cbn [Nat.sub].
  eapply (cost_bind_within _ _ 1); [cost_tac|lia|intros ?]. cbn [Nat.sub].
  case_decide; [cost_tac|]. case_decide; [cost_tac|]. case_match; [|cost_tac].
  eapply (cost_try_within _ _ 1); [cost_tac|lia|intros [] ? [= <-]; cost_tac].
Qed.
Hint Resolve plan_patch_cost reconcile_cost : io_cost.

Lemma execute_plan_cost tools plan : io_cost (execute_plan tools plan) 17.
Proof.
  unfold execute_plan. do 2 (eapply cost_bind_within; [solve [eauto with io_cost]|lia|intros ?]).
  cbn [Nat.sub]. case_match; [cost_tac| |cost_tac].
  do 3 (eapply cost_bind_within; [solve [eauto with io_cost]|lia|intros ?]). cbn [Nat.sub].
  eapply (cost_bind_within _ _ 9); [|lia|intros ?; cost_tac].
  apply (cost_finally _ _ 7 2).
  - unfold prepare_and_replace. cost_tac.
  - unfold remove_temporary. cost_tac.
Qed.

Lemma directory_cost tools p : io_cost (directory tools p) 2.
Proof. unfold directory. cost_tac. Qed.
Hint Resolve execute_plan_cost directory_cost : io_cost.

Lemma list_files_cost tools p : io_cost (list_files tools p) 3.
Proof. unfold list_files. cost_tac. Qed.

Lemma search_cost tools pattern p : io_cost (search tools pattern p) 3.
Proof. unfold search. cost_tac. Qed.
Hint Resolve list_files_cost search_cost : io_cost.

Lemma run_hook_cost hook stage a : io_cost (run_hook hook stage a) 0.
Proof. unfold run_hook. cost_tac. Qed.

Lemma finish_cost pid aid o r out media e : io_cost (finish limits pid aid o r out media e) 1.
Proof. apply cost_call. Qed.
Hint Resolve run_hook_cost finish_cost : io_cost.

Lemma finish_failed_cost pid aid e : io_cost (finish_failed limits pid aid e) 1.
Proof. unfold finish_failed. cost_tac. Qed.

Lemma finish_uncertain_cost pid aid e : io_cost (finish_uncertain limits pid aid e) 1.
Proof. apply finish_cost. Qed.
Hint Resolve finish_failed_cost finish_uncertain_cost : io_cost.

Lemma file_effect_cost fx name args plan : io_cost (file_effect fx name args plan) 17.
Proof. unfold file_effect. cost_tac. Qed.
Hint Resolve file_effect_cost : io_cost.

Lemma execute_dispatched_cost fx tid aid name args plan :
  io_cost (execute_dispatched limits fx tid aid name args plan) 19.
Proof.
  unfold execute_dispatched. eapply (cost_try_within _ _ 18); [|lia|intros [] ? [= <-]; cost_tac].
  eapply (cost_bind_within _ _ 17); [apply cost_on_behalf, file_effect_cost|lia|intros ?]. cost_tac.
Qed.
Hint Resolve execute_dispatched_cost : io_cost.

Lemma plan_tool_cost fx name args : io_cost (plan_tool limits fx name args) 9.
Proof.
  unfold plan_tool. case_decide; [cost_tac|].
  eapply (cost_bind_within _ _ 8); [|lia|intros ?; unfold sb_of_put; cost_tac]. cost_tac.
Qed.

Lemma file_execute_cost fx tid : io_cost (file_execute limits fx tid) 30.
Proof.
  unfold file_execute. do 2 (eapply cost_bind_within; [solve [eauto with io_cost]|lia|intros ?]).
  eapply (cost_bind_within _ _ 9); [|lia|intros planned].
  - unfold outcome_of. eapply (cost_try_within _ _ 9); [|lia|intros [] ? [= <-]; apply cost_ret].
    eapply cost_bind_within; [apply plan_tool_cost|lia|intros ?]. apply cost_ret.
  - unfold dispatch. destruct planned as [[ap mp]|]; cost_tac.
Qed.

Lemma restore_plan_cost j : io_cost (restore_plan j) 1.
Proof. unfold restore_plan. cost_tac. Qed.
Hint Resolve restore_plan_cost : io_cost.

Lemma file_recover_cost fx aid : io_cost (file_recover limits fx aid) 25.
Proof. unfold file_recover, recover_dispatched_file. cost_tac. Qed.

Lemma run_process_cost n command dir t : io_cost (run_process n command dir t) 2.
Proof. unfold run_process. cost_tac. Qed.
Hint Resolve run_process_cost : io_cost.

Lemma supervise_cost sx a t dir : io_cost (supervise sx a t dir) 2.
Proof. unfold supervise. cost_tac. Qed.
Hint Resolve supervise_cost : io_cost.

Lemma shell_execute_cost sx tid : io_cost (shell_execute limits sx tid) 8.
Proof.
  unfold shell_execute, dispatch. do 3 (eapply cost_bind_within; [solve [eauto with io_cost]|lia|intros ?]).
  eapply (cost_bind_within _ _ 2); [unfold shell_cwd; cost_tac|lia|intros ?].
  do 3 (eapply cost_bind_within; [solve [eauto with io_cost]|lia|intros ?]). cbn [Nat.sub].
  eapply (cost_try_within _ _ 3); [|lia|intros [] ? [= <-]; cost_tac].
  eapply (cost_bind_within _ _ 2); [apply cost_on_behalf, supervise_cost|lia|intros ?]. cost_tac.
Qed.

Lemma shell_recover_cost sx aid : io_cost (shell_recover limits sx aid) 2.
Proof. unfold shell_recover. cost_tac. Qed.
Hint Resolve file_execute_cost file_recover_cost shell_execute_cost shell_recover_cost : io_cost.

(** ** The loop *)

Variable rt : DurableAgentRuntime.
Context (a r : nat) `{!BoundedPort rt.(model) a}.
Hypothesis reader_cost : ∀ load, rt.(prompt_working_set_reader) = Some load →
  ∀ run n, io_cost (load run n) r.

Lemma renew_lease_cost : io_cost renew_lease 2.
Proof. unfold renew_lease. cost_tac. Qed.

Lemma stream_version_cost : io_cost stream_version 0.
Proof. unfold stream_version. cost_tac. Qed.
Hint Resolve stream_version_cost : io_cost.

Lemma maybe_checkpoint_cost run : io_cost (maybe_checkpoint rt run) 2.
Proof. unfold maybe_checkpoint. cost_tac. Qed.

Lemma terminate_cost run st reason : io_cost (terminate rt run st reason) 1.
Proof. apply cost_call. Qed.

Lemma settle_if_cost b rid n : io_cost (settle_if rt b rid n) 1.
Proof. unfold settle_if, settle. cost_tac. Qed.

Lemma append_cost run p c payload : io_cost (append_run_event rt run p c payload) 1.
Proof. apply cost_call. Qed.
Hint Resolve renew_lease_cost maybe_checkpoint_cost terminate_cost settle_if_cost append_cost : io_cost.

Lemma observer_started_cost run call step off k :
  io_cost ((observer rt run call step off).(started) k) 2.
Proof.
  cbn. unfold observer_started, observed. eapply cost_bind_within; [apply cost_query|lia|intros ?].
  eapply (cost_bind_within _ _ 1); [|lia|intros ?; cost_tac].
  eapply (cost_try_within _ _ 1); [cost_tac|lia|intros [] ? [= <-]; apply cost_raise].
Qed.

Lemma observer_failed_cost run call step off k e b :
  io_cost ((observer rt run call step off).(failed) k e b) 2.
Proof.
  cbn. unfold observer_failed, observed. do 2 (eapply cost_bind_within; [eauto with io_cost|lia|intros ?]).
  eapply (cost_bind_within _ _ 1); [|lia|intros ?; cost_tac].
  eapply (cost_try_within _ _ 1); [cost_tac|lia|intros [] ? [= <-]; apply cost_raise].
Qed.

Lemma prompt_cost run step n : io_cost (prompt rt run step n) (14 + r).
Proof.
  unfold prompt. eapply (cost_bind_within _ _ (14 + r)); [|lia|intros ?].
  - destruct (prompt_working_set_reader rt) as [load|] eqn:Hl.
    + eapply cost_weaken; [by apply reader_cost|lia].
    + eapply cost_weaken; [apply build_prompt_cost|lia].
  - eapply cost_weaken; [apply cost_lift|lia].
Qed.

Lemma provider_failed_cost {A} run call rid b step prev e :
  io_cost (provider_failed rt run call rid b step prev e : io A) 6.
Proof.
  unfold provider_failed. eapply (cost_bind_within _ _ 5); [|lia|intros ?].
  - eapply (cost_try_within _ _ 4); [|lia|intros [] ? [= <-]; cost_tac].
    eapply cost_bind_within; [apply cost_ask|lia|intros st].
    eapply (cost_bind_within _ _ 2); [|lia|intros ?].
    + case_match; [eapply cost_weaken; [apply cost_ret|lia]|apply observer_started_cost].
    + do 2 (eapply cost_bind_within; [eauto with io_cost|lia|intros ?]).
      case_decide; [eapply cost_weaken; [apply cost_ret|lia]|apply observer_failed_cost].
  - eapply cost_bind_within; [apply settle_if_cost|lia|intros ?]. apply cost_raise.
Qed.

Lemma invoke_model_cost run call rid b step prev :
  io_cost (invoke_model rt run call rid b step prev) (20 + r + 6 * a).
Proof.
  unfold invoke_model.
  eapply (cost_try_within _ _ (14 + r + 6 * a)); [|lia|].
  - eapply cost_bind_within; [apply stream_version_cost|lia|intros v].
    eapply cost_bind_within; [apply prompt_cost|lia|intros text].
    eapply cost_weaken; [eapply (port_cost _ _ _ 2 2)|lia];
      [apply observer_started_cost|apply observer_failed_cost].
  - intros [] k [= <-]; try (eapply cost_weaken; [apply provider_failed_cost|lia]).
    apply (cost_weaken _ 1); [cost_tac|lia].
Qed.

Lemma call_model_cost run step : io_cost (call_model limits rt run step) (28 + r + 6 * a).
Proof.
  unfold call_model, sb_of_put. do 4 (eapply cost_bind_within; [solve [eauto with io_cost]|lia|intros ?]).
  eapply cost_bind_within; [solve [eauto with io_cost]|lia|intros ?].
  eapply (cost_bind_within _ _ 1); [cost_tac|lia|intros ?].
  eapply cost_bind_within; [solve [eauto with io_cost]|lia|intros ?].
  eapply cost_bind_within; [apply cost_on_behalf, invoke_model_cost|lia|intros res].
  apply (cost_weaken _ 3); [cost_tac|lia].
Qed.

Lemma next_response_cost run : io_cost (next_response limits rt run) (31 + r + 6 * a).
Proof.
  unfold next_response. eapply (cost_bind_within _ _ 2); [|lia|intros [[[e raw] step]|]].
  - unfold latest_unconsumed_model_response. cost_tac.
  - apply (cost_weaken _ 2); [|lia]. unfold settle_model_budget.
    eapply (cost_bind_within _ _ 2); [cost_tac|lia|intros ?; apply cost_ret].
  - eapply cost_bind_within; [apply cost_query|lia|intros step].
    case_decide; [eapply cost_weaken; [apply cost_ret|lia]|].
    eapply cost_bind_within; [apply call_model_cost|lia|intros ?].
    eapply cost_weaken; [apply cost_ret|lia].
Qed.

Lemma after_attempt_cost run tool reason detail x :
  io_cost (after_attempt rt run tool reason detail x) 1.
Proof. unfold after_attempt. cost_tac. Qed.
Hint Resolve after_attempt_cost : io_cost.

Lemma execute_ready_cost run tool c : io_cost (execute_ready limits rt run tool c) 31.
Proof. unfold execute_ready. cost_tac. Qed.

Lemma recover_dispatched_cost run tool c : io_cost (recover_dispatched limits rt run tool c) 27.
Proof.
  unfold recover_dispatched. eapply cost_bind_within; [apply cost_query|lia|intros [att|]];
    [|eapply cost_weaken; [apply cost_ret|lia]].
  eapply (cost_bind_within _ _ 25); [cost_tac|lia|intros ?]. cost_tac.
Qed.

Lemma request_approval_cost tool c : io_cost (request_approval rt tool c) 3.
Proof. unfold request_approval. cost_tac. Qed.
Hint Resolve execute_ready_cost recover_dispatched_cost request_approval_cost : io_cost.

Lemma continue_tool_cost run tool : io_cost (continue_tool limits rt run tool) 37.
Proof. unfold continue_tool. cost_tac. Qed.
Hint Resolve continue_tool_cost : io_cost.

Lemma reject_output_cost run e reason : io_cost (reject_output rt run e reason) 2.
Proof. unfold reject_output. cost_tac. Qed.

Lemma propose_cost run e name args effect targets :
  io_cost (propose rt run e name args effect targets) 1.
Proof. unfold propose. cost_tac. Qed.
Hint Resolve reject_output_cost propose_cost : io_cost.

Lemma consume_cost run e raw : io_cost (consume_response limits rt run e raw) 38.
Proof. unfold consume_response, sb_of_put. cost_tac. Qed.

Lemma agent_step_cost run : io_cost (agent_step limits rt run) (75 + r + 6 * a).
Proof.
  unfold agent_step. do 3 (eapply cost_bind_within; [solve [eauto with io_cost]|lia|intros ?]).
  case_match; [apply (cost_weaken _ 1); [cost_tac|lia]|].
  eapply cost_bind_within; [apply cost_query|lia|intros [c|]];
    [eapply cost_weaken; [apply continue_tool_cost|lia]|].
  eapply cost_bind_within; [apply next_response_cost|lia|intros [[e raw]|out]].
  - eapply cost_weaken; [apply consume_cost|lia].
  - eapply cost_weaken; [apply cost_ret|lia].
Qed.

Lemma agent_loop_cost n run : io_cost (agent_loop limits rt n run) (n * (75 + r + 6 * a)).
Proof.
  induction n as [|n IH]; cbn [agent_loop]; [apply cost_ret|].
  eapply cost_bind_within; [apply agent_step_cost|lia|intros [out|]].
  - eapply cost_weaken; [apply cost_ret|lia].
  - eapply cost_weaken; [apply IH|lia].
Qed.

(** What a run costs at most. *)
Definition run_steps : nat := 5 + Z.to_nat (rt.(max_steps) * 2) * (75 + r + 6 * a).

Lemma run_handled_cost run : io_cost (run_handled limits rt run) (run_steps - 3).
Proof.
  unfold run_handled, run_with_lease, run_steps.
  eapply (cost_try_within _ _ (1 + Z.to_nat (max_steps rt * 2) * (75 + r + 6 * a))); [|lia|].
  - eapply cost_bind_within; [apply cost_query|lia|intros p].
    case_decide; [eapply cost_weaken; [apply cost_ret|lia]|].
    case_decide; [eapply cost_weaken; [apply cost_ret|lia]|].
    eapply (cost_bind_within _ _ 0); [apply cost_ensure|lia|intros _].
    eapply cost_weaken; [apply agent_loop_cost|lia].
  - intros [] k [= <-]; (eapply (cost_weaken _ 1); [cost_tac|lia]).
Qed.

(** C13. Every run of the agent ends: whatever the model, the providers, other workers, other
    processes and crashes do, one call of [run] makes at most [run_steps] steps, which depend
    only on the runtime's [max_steps], the attempts [a] of its model port and the steps [r]
    of its prompt reader: the loop, the retries and the recoveries are bounded. *)
Theorem run_is_bounded run ctx w : (Agent.run limits rt run ctx w).2.(w_tick) ≤ w.(w_tick) + run_steps.
Proof.
  revert w. change (io_cost (Agent.run limits rt run ctx) run_steps). unfold Agent.run.
  assert (3 ≤ run_steps) by (unfold run_steps; lia).
  destruct ctx as [c|].
  - do 3 (eapply (cost_bind_within _ _ 0); [solve [eauto with io_cost]|lia|intros ?]).
    eapply cost_bind_within; [apply cost_call|lia|intros ?].
    eapply cost_weaken; [apply run_handled_cost|lia].
  - eapply cost_bind_within; [apply cost_call|lia|intros lease].
    eapply (cost_weaken _ ((1 + (run_steps - 3)) + 1)); [|lia].
    apply cost_finally.
    + eapply cost_bind_within; [apply cost_query|lia|intros p].
      do 2 (eapply (cost_bind_within _ _ 0); [solve [eauto with io_cost]|lia|intros ?]).
      eapply cost_weaken; [apply run_handled_cost|lia].
    + unfold release_owned. eapply (cost_try_within _ _ 1); [apply cost_call|lia|].
      intros [] k [= <-]. apply cost_ret.
Qed.
End bounds.

(** Witness of [run_is_bounded]: twelve model steps, a scripted model. *)
Lemma run_is_bounded_witness :
  run_steps scripted_runtime 1 0 = 1949
  ∧ acting_run.2.(w_tick) ≤ acting_world.(w_tick) + run_steps scripted_runtime 1 0.
Proof.
  split; [reflexivity|]. apply (run_is_bounded demo_limits scripted_runtime 1 0). done.
Defined.
