(* ===== verification/AgentAnomalies.v ===== *)
(** * AgentAnomalies: failures that leave no trace

    Three places where the code raises an exception to the caller of [run] instead of
    recording an outcome, so that the run stays as it is and every later run of it fails in
    the same way. *)

From S2P Require Import Prelude Text Domain Platform Json Events Projection ToolIdentity Tables.
From S2P Require Import Ledger ModelCalls Leases Checkpoints Runs Tools Budget Store Scenario.
From S2P Require Import FileSystem World FileTools Process Executors.
From S2P Require Import PromptSet ModelClient MiniAgent Agent ProgramRel AgentScenario.

Section anomalies.
Context `{Platform} `{Environment} (limits : BlobLimits).

(** *** A refused path in a tool call of the model *)

Lemma propose_refused o rid p pid ctx s :
  (∀ l, normalize_targets p.(pr_target_paths) ≠ Ok l) →
  ∃ e, propose_tool_call o rid p pid ctx s = Err e.
Proof.
  intros Hn. destruct (propose_tool_call o rid p pid ctx s) as [[r s']|e] eqn:Hp; [|by exists e].
  exfalso. unfold propose_tool_call in Hp.
  apply tx_bind_Ok in Hp as (? & s1 & [_ ->]%require_Ok & Hp).
  apply tx_bind_Ok in Hp as (? & s2 & [_ ->]%require_Ok & Hp).
  apply tx_bind_Ok in Hp as (c & s3 & [_ ->]%lift_result_Ok & Hp).
  apply tx_bind_Ok in Hp as (l & s4 & [Hl _]%lift_result_Ok & _). by apply (Hn l).
Qed.

(** C40. A response of the model that calls a tool on a path the normalisation refuses (absolute,
    leaving the workspace, empty) is neither executed nor rejected: working on it raises, in
    every world, and the database is exactly what other workers left, so the response stays
    the next one to work on. *)
Theorem refused_path_is_never_consumed rt run e raw payload name args effect targets paths w r w' :
  parse raw = Tool payload → read_tool_payload rt payload = Ok (name, args, effect, targets) →
  texts targets = Some paths → (∀ l, normalize_targets paths ≠ Ok l) →
  consume_response limits rt run e raw w = (r, w') →
  (∀ out, r ≠ Ok out) ∧ w_db w' = others (w_tick w) (w_db w) ∧ w_history w' = w_history w.
Proof.
  intros Hp Hr Ht Hn. unfold consume_response. rewrite Hp, Hr, io_bind_eq. unfold propose. rewrite Ht.
  unfold call, step. set (w1 := w <| w_db ::= _ |> <| w_fs ::= _ |> <| w_tick := _ |>).
  match goal with |- context [execute ?ctx ?m ?s] => assert (∃ x, m s = Err x) as [x Hx] end.
  { by apply propose_refused. }
  unfold execute. rewrite Hx. cbn [out_result out_db out_context].
  destruct (fate (w_tick w)); intros [= <- <-]; by split_and!.
Qed.

(** *** Quiet steps *)

(** Nobody else writes the database, and this process lives. *)
Hypothesis alone : ∀ n s, others n s = s.
Hypothesis alive : ¬ mortal.

Lemma lives n : fate n = Alive.
Proof. destruct (fate n) eqn:Hf; [done|..]; destruct alive; exists n; by rewrite Hf. Qed.

(** [ends m w e]: [m] raises [e] and leaves the database and the history as they are. *)
Definition ends {A} (m : io A) (w : world) (e : exn) : Prop :=
  ∃ w', m w = (Err e, w') ∧ w_db w' = w_db w ∧ w_history w' = w_history w.

Lemma ends_raise {A} e w : ends (raise e : io A) w e.
Proof. by exists w. Qed.

Lemma ends_bind_query {A B} (m : stx A) (k : A → io B) w e a s :
  m (w_db w) = Ok (a, s) →
  (∀ w1, w_db w1 = w_db w → ends (k a) w1 e) → ends (mbind k (query m)) w e.
Proof.
  intros Hm Hk. unfold ends. rewrite io_bind_eq. unfold query, step. rewrite lives.
  set (w1 := w <| w_db ::= _ |> <| w_fs ::= _ |> <| w_tick := _ |>).
  assert (w_db w1 = w_db w) as Hw by (cbn; apply alone). rewrite Hw, Hm.
  destruct (Hk w1 Hw) as (w' & Hr & Hd & Hh). exists w'. split_and!; [done|congruence|done].
Qed.

Lemma ends_bind_lift {A B} (r : res A) (k : A → io B) w e a :
  r = Ok a → ends (k a) w e → ends (mbind k (lift r)) w e.
Proof. intros -> Hk. exact Hk. Qed.

Lemma ends_bind {A B} (m : io A) (k : A → io B) w e : ends m w e → ends (mbind k m) w e.
Proof. intros (w' & Hm & ?). exists w'. by rewrite io_bind_eq, Hm. Qed.

Lemma ends_bind_raise {A B} (r : res A) (k : A → io B) w e :
  r = Err e → ends (mbind k (lift r)) w e.
Proof. intros ->. by exists w. Qed.

(** A process call without an argument vector is never finished: executing it raises a
    KeyError before anything is dispatched; the call stays ready, no attempt and no outcome is
    recorded (the file executor records such a failure), and every resumption raises again. *)
Theorem process_call_without_argv_is_never_finished sx tid w call s args :
  get_tool_call tid (w_db w) = Ok (call, s) → call.(tr_tool_name) = "run_process" →
  load_args call.(tr_args_json) = Ok args → dict_get "argv" args = None →
  default JNull (dict_get "cwd" args) ∈ [JNull; JStr ""; JStr "."] →
  ends (shell_execute limits sx tid) w KeyError.
Proof.
  intros Hc Hname Hargs Hargv Hcwd. unfold shell_execute. eapply ends_bind_query; [exact Hc|].
  intros w1 Hw1. apply (ends_bind_lift _ _ _ _ tt); [by apply assert_result_Ok|].
  eapply ends_bind_lift; [exact Hargs|]. unfold shell_cwd.
  rewrite !elem_of_cons, elem_of_nil in Hcwd.
  destruct Hcwd as [->|[->|[->|[]]]]; (eapply (ends_bind_lift (Ok _)); [done|]);
    apply ends_bind_raise; unfold item; by rewrite Hargv.
Qed.

(** A crash while a failed planning is recorded cannot be recovered from: when the attempt
    of a file mutation is dispatched with a plan that has no [pre_identity], as the one the
    executor writes for a failed planning, recovering it raises a KeyError and records
    nothing, so the call stays dispatched. *)
Theorem failed_planning_is_never_recovered fx aid w attempt s call s' plan args :
  get_tool_attempt aid (w_db w) = Ok (attempt, s) → attempt.(at_state) = ToolCallState.DISPATCHED →
  get_tool_call attempt.(at_tool_call_id) (w_db w) = Ok (call, s') →
  load_args call.(tr_args_json) = Ok args → call.(tr_tool_name) ∉ READ_TOOLS →
  call.(tr_action_plan) = Some (JObj plan) → dict_get "pre_identity" plan = None →
  ends (file_recover limits fx aid) w KeyError.
Proof.
  intros Ha Hst Hc Hargs Hname Hplan Hpre. unfold file_recover. eapply ends_bind_query; [exact Ha|].
  intros w1 Hw1. eapply ends_bind_query; [by rewrite Hw1|]. intros w2 Hw2.
  unfold recover_dispatched_file. rewrite decide_False by (by intros Hn; apply Hn).
  eapply ends_bind_lift; [exact Hargs|]. rewrite decide_False, Hplan by done.
  apply ends_bind. unfold restore_plan. eapply ends_bind_lift; [done|]. apply ends_bind_raise.
  unfold item. by rewrite Hpre.
Qed.
End anomalies.

(** ** Witnesses *)

Lemma quiet_alone n s : others n s = s.
Proof. done. Qed.

Lemma quiet_alive : ¬ mortal.
Proof. intros [n Hn]. exact (Hn eq_refl). Qed.

Definition sample_response : EventEnvelope :=
  {| event_id := "event"; schema_version := 1; session_id := "session"; turn_id := Some "turn";
     run_id := Some "run"; seq := 9; occurred_at := 0; Events.process_instance_id := "worker";
     boot_id := None; causation_event_id := None; correlation_id := None;
     payload := ModelResponseReceivedPayload "model-call:run:0" "blob" None None |}.

(** Witness of [refused_path_is_never_consumed]: the model asks for an absolute path. *)
Lemma refused_path_is_never_consumed_witness :
  let raw := tool_text "{'name': 'read_file', 'args': {'path': '/etc/passwd'}}" in
  ¬ is_ok (consume_response demo_limits scripted_runtime "run" sample_response raw workspace_world).1.
Proof.
  intros raw.
  destruct (refused_path_is_never_consumed demo_limits scripted_runtime "run" sample_response raw
              [("name", JStr "read_file"); ("args", JObj [("path", JStr "/etc/passwd")])]
              "read_file" [("path", JStr "/etc/passwd")] ToolEffectClass.PURE
              [JStr "/etc/passwd"] ["/etc/passwd"] workspace_world
              (consume_response demo_limits scripted_runtime "run" sample_response raw workspace_world).1
              (consume_response demo_limits scripted_runtime "run" sample_response raw workspace_world).2)
    as (Hn & _).
  - vm_compute. reflexivity.
  - vm_compute. reflexivity.
  - reflexivity.
  - intros l Hl. vm_compute in Hl. discriminate Hl.
  - apply surjective_pairing.
  - intros [out Hout]. exact (Hn out Hout).
Defined.

(** The tool call of a database, as the executors read it. *)
Definition read_call (tid : string) (s : db) : option (string * string * option json) :=
  match get_tool_call tid s with
  | Ok (c, _) => Some (c.(tr_tool_name), c.(tr_args_json), c.(tr_action_plan))
  | Err _ => None
  end.

Lemma read_call_eq tid s name args plan :
  read_call tid s = Some (name, args, plan) →
  ∃ c s', get_tool_call tid s = Ok (c, s') ∧ c.(tr_tool_name) = name ∧ c.(tr_args_json) = args
          ∧ c.(tr_action_plan) = plan.
Proof.
  unfold read_call. destruct (get_tool_call tid s) as [[c s']|e]; [|done]. intros [= <- <- <-].
  by exists c, s'.
Qed.

(** The model asks for a process without arguments. *)
Definition stuck_world : world :=
  (Agent.run demo_limits scripted_runtime "run" None
     (start [tool_text "{'name': 'run_process', 'args': {}}"])).2.

Lemma stuck_call : read_call "id-1220" stuck_world.(w_db) = Some ("run_process", "{}", None).
Proof. vm_compute. reflexivity. Qed.

(** Witness of [process_call_without_argv_is_never_finished]. *)
Lemma process_call_without_argv_is_never_finished_witness :
  ends (shell_execute demo_limits scripted_runtime.(shell_executor) "id-1220") stuck_world KeyError.
Proof.
  destruct (read_call_eq _ _ _ _ _ stuck_call) as (c & s & Hc & Hname & Hargs & _).
  apply (process_call_without_argv_is_never_finished demo_limits quiet_alone quiet_alive
           scripted_runtime.(shell_executor) "id-1220" stuck_world c s []).
  - exact Hc.
  - exact Hname.
  - rewrite Hargs. vm_compute. reflexivity.
  - reflexivity.
  - by left.
Defined.

(** The worker that dies after it dispatched a write without content. *)
Definition crashed_world : world :=
  (@Agent.run toy_platform (dies_after 30) demo_limits scripted_runtime "run" None
     (start [tool_text "{'name': 'write_file', 'args': {'path': 'a.txt'}}"])).2.

Definition failed_plan : list (string * json) :=
  [("error_class", JStr "KeyError"); ("kind", JStr "planning_failed")].

Lemma crashed_call :
  read_call "id-1220" crashed_world.(w_db)
    = Some ("write_file", canonical_json (JObj [("path", JStr "a.txt")]), Some (JObj failed_plan))
  ∧ (match get_tool_attempt "id-1300" crashed_world.(w_db) with
     | Ok (a, _) => Some (a.(at_state), a.(at_tool_call_id))
     | Err _ => None
     end) = Some (ToolCallState.DISPATCHED, "id-1220").
Proof. vm_compute. split; reflexivity. Qed.

(** Witness of [failed_planning_is_never_recovered]. *)
Lemma failed_planning_is_never_recovered_witness :
  ends (file_recover demo_limits scripted_runtime.(file_executor) "id-1300") crashed_world KeyError.
Proof.
  destruct crashed_call as [Hcall Hatt].
  destruct (get_tool_attempt "id-1300" (w_db crashed_world)) as [[a s]|e] eqn:Ha; [|discriminate Hatt].
  injection Hatt as Hst Htid.
  destruct (read_call_eq _ _ _ _ _ Hcall) as (c & s' & Hc & Hname & Hargs & Hplan).
  apply (failed_planning_is_never_recovered demo_limits quiet_alone quiet_alive
           scripted_runtime.(file_executor) "id-1300" crashed_world a s c s' failed_plan
           [("path", JStr "a.txt")]).
  - exact Ha.
  - exact Hst.
  - rewrite Htid. exact Hc.
  - rewrite Hargs. vm_compute. reflexivity.
  - rewrite Hname. vm_compute. intros Hin. repeat (apply elem_of_cons in Hin as [Hin|Hin]; [discriminate Hin|]).
    by apply elem_of_nil in Hin.
  - exact Hplan.
  - reflexivity.
Defined.
