(* ===== verification/Datetime.v ===== *)
(** * Datetime: aware UTC datetimes

    A [datetime] whose offset is zero is the number of its microseconds since
    1970-01-01T00:00:00Z, a [timedelta] a number of microseconds. Python's datetimes lie in
    the years 1 to 9999: an addition that leaves them raises OverflowError. [isoformat_z] is
    [value.isoformat().replace("+00:00", "Z")]; it is injective, so a signed text determines
    its times. *)

From S2P Require Import Prelude Domain.
From Stdlib Require Import Lia.

#[local] Open Scope Z_scope.

Abbreviation datetime := Z (only parsing).
Abbreviation timedelta := Z (only parsing).

Definition seconds (n : Z) : timedelta := n * 1000000.
Definition minutes (n : Z) : timedelta := seconds (60 * n).
Definition hours (n : Z) : timedelta := minutes (60 * n).
Definition days (n : Z) : timedelta := hours (24 * n).

(** [datetime.min] and [datetime.max]. *)
Definition datetime_min : datetime := days (-719162).
Definition datetime_max : datetime := days 2932897 - 1.

Definition datetime_ok (t : datetime) : Prop := datetime_min ≤ t ≤ datetime_max.

(** [t + d]. *)
Definition datetime_plus (t : datetime) (d : timedelta) : res datetime :=
  assert_result (datetime_ok (t + d)) OverflowError;; mret (t + d).

(** ** The Gregorian calendar *)

(** The year, the month and the day of the month of a day counted from 1970-01-01. *)
Definition civil (day : Z) : Z * Z * Z :=
  let z := day + 719468 in
  let era := z `div` 146097 in
  let doe := z `mod` 146097 in
  let yoe := (doe - doe `div` 1460 + doe `div` 36524 - doe `div` 146096) `div` 365 in
  let doy := doe - (365 * yoe + yoe `div` 4 - yoe `div` 100) in
  let mp := (5 * doy + 2) `div` 153 in
  let d := doy - (153 * mp + 2) `div` 5 + 1 in
  let m := if decide (mp < 10) then mp + 3 else mp - 9 in
  let y := yoe + era * 400 + (if decide (m ≤ 2) then 1 else 0) in
  (y, m, d).

(** ** Digits *)

Definition digit (n : Z) : ascii := ascii_of_nat (48 + Z.to_nat (n `mod` 10)).

(** [n] in [w] decimal digits, as the format [0wd] of a number that has at most [w]. *)
Fixpoint pad (w : nat) (n : Z) : string :=
  match w with
  | O => ""
  | S w' => pad w' (n `div` 10) +:+ String (digit n) ""
  end.

(** A time to the second, with [fraction] of its microseconds behind. *)
Definition isoformat_with (fraction : Z → string) (t : datetime) : string :=
  let '(y, m, d) := civil (t `div` days 1) in
  let time := t `mod` days 1 in
  let us := time `mod` seconds 1 in
  let sec := time `div` seconds 1 in
  pad 4 y +:+ "-" +:+ pad 2 m +:+ "-" +:+ pad 2 d +:+ "T"
  +:+ pad 2 (sec `div` 3600) +:+ ":" +:+ pad 2 ((sec `div` 60) `mod` 60)
  +:+ ":" +:+ pad 2 (sec `mod` 60) +:+ fraction us.

(** [isoformat()] leaves the microseconds out if they are zero. *)
Definition isoformat_z (t : datetime) : string :=
  isoformat_with (λ us, (if decide (us = 0) then "" else "." +:+ pad 6 us) +:+ "Z") t.

(** [value.isoformat(timespec="microseconds")] with the replaced offset. *)
Definition isoformat_us_z (t : datetime) : string := isoformat_with (λ us, "." +:+ pad 6 us +:+ "Z") t.

(** ** The text determines the time *)

(** The day of a date. *)
Definition day_of_civil (date : Z * Z * Z) : Z :=
  let '(y0, m, d) := date in
  let y := y0 - (if decide (m ≤ 2) then 1 else 0) in
  let era := y `div` 400 in
  let yoe := y `mod` 400 in
  let mp := if decide (m ≤ 2) then m + 9 else m - 3 in
  let doy := (153 * mp + 2) `div` 5 + d - 1 in
  era * 146097 + (yoe * 365 + yoe `div` 4 - yoe `div` 100 + doy) - 719468.

(** The year of a 400-year era and the day of that year. *)
Lemma year_of_era doe (yoe := (doe - doe `div` 1460 + doe `div` 36524 - doe `div` 146096) `div` 365) :
  0 ≤ doe < 146097 →
  0 ≤ yoe < 400 ∧ 0 ≤ doe - (365 * yoe + yoe `div` 4 - yoe `div` 100) < 366.
Proof. intros Hdoe. subst yoe. Z.div_mod_to_equations. lia. Qed.

Lemma month_of_year doy (mp := (5 * doy + 2) `div` 153) :
  0 ≤ doy < 366 → 0 ≤ mp < 12 ∧ 1 ≤ doy - (153 * mp + 2) `div` 5 + 1 ≤ 31.
Proof. intros Hdoy. subst mp. Z.div_mod_to_equations. lia. Qed.

Lemma day_of_civil_civil day : day_of_civil (civil day) = day.
Proof.
  unfold civil, day_of_civil.
  set (z := day + 719468). set (doe := z `mod` 146097).
  assert (0 ≤ doe < 146097) as Hdoe by (subst doe; apply Z.mod_pos_bound; lia).
  pose proof (year_of_era doe Hdoe) as [Hyoe Hdoy]. cbv zeta in Hyoe, Hdoy.
  set (yoe := (doe - doe `div` 1460 + doe `div` 36524 - doe `div` 146096) `div` 365) in *.
  set (doy := doe - (365 * yoe + yoe `div` 4 - yoe `div` 100)) in *.
  pose proof (month_of_year doy Hdoy) as [Hmp _]. cbv zeta in Hmp.
  set (mp := (5 * doy + 2) `div` 153) in *.
  set (era := z `div` 146097).
  assert (z = 146097 * era + doe) as Hz by (subst era doe; apply Z.div_mod; lia).
  set (m := if decide (mp < 10) then mp + 3 else mp - 9).
  assert ((if decide (m ≤ 2) then m + 9 else m - 3) = mp) as ->
    by (subst m; repeat case_decide; lia).
  set (leap := if decide (m ≤ 2) then 1 else 0).
  replace (yoe + era * 400 + leap - leap) with (yoe + era * 400) by lia.
  rewrite Z.div_add, Z.mod_add, (Z.div_small yoe), (Z.mod_small yoe) by lia.
  subst z. subst doy. lia.
Qed.

Lemma civil_range t :
  datetime_ok t → let '(y, m, d) := civil (t `div` days 1) in 0 ≤ y < 10000 ∧ 0 ≤ m < 100 ∧ 0 ≤ d < 100.
Proof.
  intros [Hmin Hmax]. unfold datetime_min, datetime_max, days, hours, minutes, seconds in *.
  unfold civil. set (day := t `div` _).
  assert (-719162 ≤ day < 2932897) as Hday by (subst day; Z.div_mod_to_equations; lia).
  set (z := day + 719468). set (doe := z `mod` 146097).
  assert (0 ≤ doe < 146097) as Hdoe by (subst doe; apply Z.mod_pos_bound; lia).
  pose proof (year_of_era doe Hdoe) as [Hyoe Hdoy]. cbv zeta in Hyoe, Hdoy.
  set (yoe := (doe - doe `div` 1460 + doe `div` 36524 - doe `div` 146096) `div` 365) in *.
  set (doy := doe - (365 * yoe + yoe `div` 4 - yoe `div` 100)) in *.
  pose proof (month_of_year doy Hdoy) as [Hmp Hd]. cbv zeta in Hmp, Hd.
  set (mp := (5 * doy + 2) `div` 153) in *.
  set (era := z `div` 146097).
  assert (z = 146097 * era + doe) as Hz by (subst era doe; apply Z.div_mod; lia).
  assert (0 ≤ era ≤ 24) as Hera by lia.
  destruct (decide (mp < 10)); case_decide; split_and!; try lia.
  (* the last era ends in February of the year 10000 *)
  all: assert (era < 24 ∨ era = 24) as [|] by lia; [lia|].
  all: subst era; unfold doy in *; Z.div_mod_to_equations; lia.
Qed.

(** Reading digits back. *)
Fixpoint digits_value (acc : Z) (s : string) : Z :=
  match s with
  | EmptyString => acc
  | String a s' => digits_value (10 * acc + (Z.of_nat (nat_of_ascii a) - 48)) s'
  end.

Lemma digits_value_snoc s a acc :
  digits_value acc (s +:+ String a "") = 10 * digits_value acc s + (Z.of_nat (nat_of_ascii a) - 48).
Proof. revert acc. induction s as [|b s IH]; intros acc; simpl; [done|by rewrite IH]. Qed.

Lemma digit_value n : Z.of_nat (nat_of_ascii (digit n)) - 48 = n `mod` 10.
Proof.
  pose proof (Z.mod_pos_bound n 10 ltac:(lia)). unfold digit.
  rewrite nat_ascii_embedding; lia.
Qed.

Lemma pad_length w n : String.length (pad w n) = w.
Proof.
  revert n. induction w as [|w IH]; intros n; simpl; [done|].
  rewrite str_length_app, IH. simpl. lia.
Qed.

Lemma pad_value w n : 0 ≤ n < 10 ^ Z.of_nat w → digits_value 0 (pad w n) = n.
Proof.
  revert n. induction w as [|w IH]; intros n Hn; simpl.
  - change (10 ^ Z.of_nat 0) with 1 in Hn. lia.
  - rewrite digits_value_snoc, digit_value, IH.
    + pose proof (Z.div_mod n 10). lia.
    + rewrite Nat2Z.inj_succ, Z.pow_succ_r in Hn by lia. Z.div_mod_to_equations. lia.
Qed.

Lemma pad_inj w m n :
  0 ≤ m < 10 ^ Z.of_nat w → 0 ≤ n < 10 ^ Z.of_nat w → pad w m = pad w n → m = n.
Proof. intros Hm Hn Heq. by rewrite <- (pad_value w m), <- (pad_value w n), Heq. Qed.

Lemma str_app_inj a b c d :
  String.length a = String.length c → a +:+ b = c +:+ d → a = c ∧ b = d.
Proof.
  revert c. induction a as [|x a IH]; intros [|y c]; simpl; intros Hlen Heq; try done.
  injection Heq as -> Heq. destruct (IH c ltac:(lia) Heq) as [-> ->]. done.
Qed.

(** Two texts whose heads have the same width agree on both parts. *)
Ltac split_widths :=
  repeat match goal with
         | H : pad ?w ?a +:+ ?b = pad ?w ?c +:+ ?d |- _ =>
             apply str_app_inj in H as [? H]; [|by rewrite !pad_length]
         | H : ?c +:+ _ = ?c +:+ _ |- _ => apply (str_app_inj c _ c) in H as [_ H]; [|done]
         end.

(** The fraction of a second. *)
Lemma fraction_inj u v :
  0 ≤ u < seconds 1 → 0 ≤ v < seconds 1 →
  (if decide (u = 0) then "" else "." +:+ pad 6 u) +:+ "Z"
  = (if decide (v = 0) then "" else "." +:+ pad 6 v) +:+ "Z" → u = v.
Proof.
  unfold seconds. intros Hu Hv. repeat case_decide; [congruence|done..|].
  intros Heq. apply str_app_inj in Heq as [Heq _]; [|by rewrite !str_length_app, !pad_length].
  apply (str_app_inj "." _ ".") in Heq as [_ Heq]; [|done].
  by apply (pad_inj 6).
Qed.

(** The clock fields of a second of the day have two digits and determine it. *)
Lemma clock_range sec :
  0 ≤ sec < 86400 →
  0 ≤ sec `div` 3600 < 100 ∧ 0 ≤ (sec `div` 60) `mod` 60 < 100 ∧ 0 ≤ sec `mod` 60 < 100.
Proof. intros Hsec. split_and!; Z.div_mod_to_equations; lia. Qed.

Lemma clock_inj sec sec' :
  sec `div` 3600 = sec' `div` 3600 → (sec `div` 60) `mod` 60 = (sec' `div` 60) `mod` 60 →
  sec `mod` 60 = sec' `mod` 60 → sec = sec'.
Proof.
  intros Hh Hm Hs.
  assert (∀ x, (x `div` 60) `div` 60 = x `div` 3600) as Hdiv by (intros x; by rewrite Z.div_div).
  pose proof (Z.div_mod (sec `div` 60) 60 ltac:(done)).
  pose proof (Z.div_mod (sec' `div` 60) 60 ltac:(done)).
  pose proof (Z.div_mod sec 60 ltac:(done)). pose proof (Z.div_mod sec' 60 ltac:(done)).
  rewrite !Hdiv in *. lia.
Qed.

(** A time is its day, its second of the day and its microsecond. *)
Lemma datetime_split t (a := t `mod` days 1) :
  t = 86400000000 * (t `div` days 1) + 1000000 * (a `div` seconds 1) + a `mod` seconds 1
  ∧ 0 ≤ a `div` seconds 1 < 86400 ∧ 0 ≤ a `mod` seconds 1 < seconds 1.
Proof.
  change (days 1) with 86400000000 in *. change (seconds 1) with 1000000. subst a.
  Z.div_mod_to_equations. lia.
Qed.

Lemma isoformat_with_inj f t u :
  (∀ a b, 0 ≤ a < seconds 1 → 0 ≤ b < seconds 1 → f a = f b → a = b) →
  datetime_ok t → datetime_ok u → isoformat_with f t = isoformat_with f u → t = u.
Proof.
  intros Hf Ht%civil_range Hu%civil_range. unfold isoformat_with.
  pose proof (datetime_split t) as (Hdt & Hsec & Hus). pose proof (datetime_split u) as (Hdu & Hsec' & Hus').
  cbv zeta in *.
  assert (civil (t `div` days 1) = civil (u `div` days 1) → t `div` days 1 = u `div` days 1) as Hday.
  { intros Heq. by rewrite <- (day_of_civil_civil (t `div` days 1)), Heq, day_of_civil_civil. }
  destruct (civil (t `div` days 1)) as [[y m] d]. destruct (civil (u `div` days 1)) as [[y' m'] d'].
  revert Hdt Hsec Hus Hdu Hsec' Hus'.
  generalize ((t `mod` days 1) `mod` seconds 1) ((t `mod` days 1) `div` seconds 1).
  generalize ((u `mod` days 1) `mod` seconds 1) ((u `mod` days 1) `div` seconds 1).
  intros us' sec' us sec -> Hsec%clock_range Hus -> Hsec'%clock_range Hus' Heq.
  split_widths. apply Hf in Heq as ->; [|done..].
  repeat match goal with
         | H : pad ?w _ = pad ?w _ |- _ => apply (pad_inj w) in H; [|simpl; lia..]
         end.
  assert (sec = sec') as -> by (by apply clock_inj). rewrite Hday by congruence. done.
Qed.

Lemma isoformat_z_inj t u :
  datetime_ok t → datetime_ok u → isoformat_z t = isoformat_z u → t = u.
Proof. apply isoformat_with_inj. intros a b Ha Hb. by apply fraction_inj. Qed.

Lemma isoformat_us_z_inj t u :
  datetime_ok t → datetime_ok u → isoformat_us_z t = isoformat_us_z u → t = u.
Proof.
  apply isoformat_with_inj. intros a b Ha Hb Heq.
  apply (str_app_inj "." _ ".") in Heq as [_ Heq]; [|done].
  apply str_app_inj in Heq as [Heq _]; [|by rewrite !pad_length].
  unfold seconds in *. by apply (pad_inj 6).
Qed.
