(* ===== verification/Rollout.v ===== *)
(** * Rollout: the shared vocabulary of the canary release

    The rollout ladder and the release context of production/canary_release.py, the
    capabilities of canary_cohort.py and the selection of a tenant into a percentage with
    its decimal arithmetic, with what the release modules share: field validation, binary64
    comparisons, canonical JSON texts and keyed digests.

    [hmac.new(key, message, sha256).hexdigest()] and [datetime.fromisoformat] are
    parameters. A field that the source annotates as [float] holds a binary64 number; the
    validators' checks of the dynamic type are true of every value of the model. *)

From S2P Require Import Prelude Text Domain Platform Json Datetime.
From Corelib Require Import SpecFloat.

#[local] Open Scope Z_scope.

Class Signing := {
  (** the lowercase hex digest *)
  hmac_sha256 : string → string → string;
  (** the instant of a text and its UTC offset if it has one, [None] for a ValueError *)
  fromisoformat : string → option (datetime * option timedelta);
}.

(** ** Binary64 numbers *)

Abbreviation float := spec_float (only parsing).

Definition fmul : float → float → float := SFmul 53 1024.
Definition fadd : float → float → float := SFadd 53 1024.
Definition fdiv : float → float → float := SFdiv 53 1024.

(** [x < y], [x <= y], [x > y], [x >= y]. *)
Definition flt : float → float → bool := SFltb.
Definition fle : float → float → bool := SFleb.
Definition fgt (x y : float) : bool := SFltb y x.
Definition fge (x y : float) : bool := SFleb y x.
Definition feq : float → float → bool := SFeqb.

(** [float(n)] of an integer, and the quotient of two integers, correctly rounded. *)
Definition f64 (n : Z) : float := binary_normalize 53 1024 n 0 false.
Definition ratio (n d : Z) : float := fdiv (f64 n) (f64 d).

(** [math.isfinite(x)]. *)
Definition isfinite (x : float) : bool :=
  match x with S754_zero _ | S754_finite _ _ _ => true | _ => false end.

(** [except (TypeError, ValueError)]. *)
Definition is_invalid (e : exn) : bool := is_ValueError e || bool_decide (e = TypeError).

Section validation.

(** The validators raise ValueError. *)
Definition finite_non_negative (x : float) : res unit :=
  assert_result (isfinite x = true) ValueError;; assert_result (flt x (f64 0) = false) ValueError.

Definition finite_positive (x : float) : res unit :=
  finite_non_negative x;; assert_result (feq x (f64 0) = false) ValueError.

Definition finite_percent (x : float) : res unit :=
  finite_non_negative x;; assert_result (fgt x (f64 100) = false) ValueError.

Definition non_negative_int (n : Z) : res unit := assert_result (0 ≤ n) ValueError.
Definition positive_int (n : Z) : res unit := assert_result (1 ≤ n) ValueError.

(** ** Formats *)

Fixpoint all_chars (p : ascii → bool) (s : string) : bool :=
  match s with EmptyString => true | String a s' => p a && all_chars p s' end.

Definition one_of (chars : string) (a : ascii) : bool := bool_decide (a ∈ String.list_ascii_of_string chars).

Definition lower_letter : ascii → bool := byte_in 97 122.
Definition upper_letter : ascii → bool := byte_in 65 90.
Definition decimal_digit : ascii → bool := byte_in 48 57.
Definition lower_alnum (a : ascii) : bool := lower_letter a || decimal_digit a.
Definition alnum (a : ascii) : bool := lower_alnum a || upper_letter a.

(** [\[first\]\[rest\]{0,n}] matched in full. *)
Definition name_format (first rest : ascii → bool) (n : nat) (s : string) : bool :=
  match s with
  | EmptyString => false
  | String a s' => first a && all_chars rest s' && bool_decide (String.length s' ≤ n)%nat
  end.

Definition hex_format (n : nat) (s : string) : bool :=
  bool_decide (String.length s = n) && all_chars (λ a, decimal_digit a || byte_in 97 102 a) s.

Definition ENVIRONMENT_RE : string → bool := name_format lower_alnum (λ a, lower_alnum a || one_of "_-" a) 31.
Definition REGION_RE : string → bool := name_format lower_alnum (λ a, lower_alnum a || one_of "-" a) 62.
Definition VERSION_RE : string → bool := name_format lower_alnum (λ a, lower_alnum a || one_of "_.-" a) 63.
Definition KEY_ID_RE : string → bool := name_format alnum (λ a, alnum a || one_of "_.:/-" a) 127.
Definition GIT_SHA_RE : string → bool := hex_format 40.
Definition SHA256_RE : string → bool := hex_format 64.

(** [_fullmatch(value, pattern)]. *)
Definition fullmatch (pattern : string → bool) (s : string) : res unit :=
  assert_result (pattern s = true) ValueError.

(** A field that is not checked when it is None. *)
Definition optional {A} (check : A → res unit) (o : option A) : res unit :=
  match o with None => mret () | Some x => check x end.

Fixpoint check_all {A} (check : A → res unit) (l : list A) : res unit :=
  match l with [] => mret () | x :: l' => check x;; check_all check l' end.

(** [_validate_hmac_key]. *)
Definition hmac_key (key : string) : res unit := assert_result (32 ≤ String.length key)%nat ValueError.

(** [_validate_identity]: 512 bytes at most. *)
Definition validate_identity (s : string) : res unit :=
  assert_result (blank s = false) ValueError;;
  assert_result (all_chars (λ a, negb (bool_decide (a = Ascii.zero))) s = true) ValueError;;
  assert_result (String.length s ≤ 512)%nat ValueError.
End validation.

(** ** Digests *)

Section digests.
Context `{Platform} `{Signing}.

(** No number of the value is infinite or not a number. *)
Fixpoint no_nan (j : json) : bool :=
  match j with
  | JFloat f => isfinite f
  | JArr l => forallb no_nan l
  | JObj l => forallb (λ kv, no_nan kv.2) l
  | _ => true
  end.

(** [_canonical_json(value)], with [allow_nan=False]. *)
Definition dumps (j : json) : res string :=
  assert_result (no_nan j = true) ValueError;; mret (canonical_json j).

(** [hashlib.sha256(_canonical_json(value)).hexdigest()]. *)
Definition digest (j : json) : res string := text ← dumps j; mret (sha256_text text).

(** The keyed digest of a canonical text under a domain. *)
Definition keyed_digest (key domain : string) (j : json) : res string :=
  text ← dumps j; mret (hmac_sha256 key (domain +:+ text)).

(** [hmac.compare_digest] of two texts: only ASCII texts compare. *)
Definition compare_digest (a b : string) : res bool :=
  assert_result (all_chars (byte_in 0 127) a = true ∧ all_chars (byte_in 0 127) b = true) TypeError;;
  mret (bool_decide (a = b)).
End digests.

(** A bytes constant that ends in a NUL byte. *)
Definition domain (s : string) : string := s +:+ String Ascii.zero "".

Definition opt_str (o : option string) : json := match o with None => JNull | Some s => JStr s end.

(** ** Capabilities and stages *)

Module RedisCapability.
Inductive t := UI_STATUS_READ | ACTIVE_INDEX_READ | FANOUT | PROMPT_CACHE_READ
             | API_RATE_LIMIT_ENFORCE | WORKER_WAKE_CONSUME.
#[global] Instance eq_dec : EqDecision t.
Proof. solve_decision. Defined.
#[global] Instance enum : StringEnum t.
Proof.
  refine {|
    value x := match x with
      | UI_STATUS_READ => "ui_status_read" | ACTIVE_INDEX_READ => "active_index_read"
      | FANOUT => "fanout" | PROMPT_CACHE_READ => "prompt_cache_read"
      | API_RATE_LIMIT_ENFORCE => "api_rate_limit_enforce"
      | WORKER_WAKE_CONSUME => "worker_wake_consume" end%string;
    members := [UI_STATUS_READ; ACTIVE_INDEX_READ; FANOUT; PROMPT_CACHE_READ;
                API_RATE_LIMIT_ENFORCE; WORKER_WAKE_CONSUME] |}.
  - intros []; set_solver.
  - abstract (intros [] [] ?; done).
Defined.
End RedisCapability.

Module RolloutStage.
Inductive t := OFF | SHADOW | CANARY_1 | CANARY_5 | CANARY_25 | FULL.
#[global] Instance eq_dec : EqDecision t.
Proof. solve_decision. Defined.
#[global] Instance enum : StringEnum t.
Proof.
  refine {|
    value x := match x with
      | OFF => "off" | SHADOW => "shadow" | CANARY_1 => "1" | CANARY_5 => "5"
      | CANARY_25 => "25" | FULL => "100" end%string;
    members := [OFF; SHADOW; CANARY_1; CANARY_5; CANARY_25; FULL] |}.
  - intros []; set_solver.
  - abstract (intros [] [] ?; done).
Defined.

(** [stage.percent]. *)
Definition percent (stage : t) : float :=
  match stage with
  | OFF | SHADOW => f64 0
  | CANARY_1 => f64 1
  | CANARY_5 => f64 5
  | CANARY_25 => f64 25
  | FULL => f64 100
  end.

(** [_STAGE_ORDER.index(stage)]. *)
Definition index (stage : t) : Z :=
  match stage with
  | OFF => 0 | SHADOW => 1 | CANARY_1 => 2 | CANARY_5 => 3 | CANARY_25 => 4 | FULL => 5
  end.

(** [stage in {OFF, SHADOW}]. *)
Definition dark (stage : t) : bool := match stage with OFF | SHADOW => true | _ => false end.
End RolloutStage.

(** ** The release context *)

Record ReleaseContext := {
  environment : string;
  region : string;
  release_sha : string;
  config_sha256 : string;
  cohort_version : string;
}.

#[global] Instance ReleaseContext_eq_dec : EqDecision ReleaseContext.
Proof. solve_decision. Defined.

(** [ReleaseContext.__post_init__]. *)
Definition context_valid (c : ReleaseContext) : res unit :=
  fullmatch ENVIRONMENT_RE c.(environment);;
  fullmatch REGION_RE c.(region);;
  fullmatch GIT_SHA_RE c.(release_sha);;
  fullmatch SHA256_RE c.(config_sha256);;
  fullmatch VERSION_RE c.(cohort_version).

(** [_context_payload(context)]; [asdict(context)] has the same entries. *)
Definition context_payload (c : ReleaseContext) : json :=
  JObj [("cohort_version", JStr c.(cohort_version)); ("config_sha256", JStr c.(config_sha256));
        ("environment", JStr c.(environment)); ("region", JStr c.(region));
        ("release_sha", JStr c.(release_sha))].

(** ** Cohorts

    The bucket of a tenant is the first 64 bits of a keyed digest; the tenant belongs to a
    percentage when its bucket is below the percentage's share of 2^64, which the code
    computes in decimal arithmetic of 28 digits from the text of the percentage. *)

Definition COHORT_DOMAIN : string := domain "forge-replay:redis-canary:tenant:v1".
Definition DEFAULT_COHORT_VERSION : string := "redis-canary-v1".
Definition ROLLOUT_SPACE : Z := 2 ^ 64.

(** ** Decimal numbers: a coefficient that is not negative and an exponent of ten *)

Record decimal := { coefficient : Z; exponent : Z }.

(** [Decimal(text)] of the text of a float that is not negative:
    [digits\[.digits\]\[e(+|-)digits\]]. *)
Definition decimal_of (s : string) : decimal :=
  let '(whole, rest) := span_digits s in
  let '(frac, rest) := match rest with
                       | String "."%char rest' => span_digits rest'
                       | _ => ("", rest)
                       end in
  let e := match rest with
           | String "e"%char (String "-"%char s') => - digits_value 0 (span_digits s').1
           | String "e"%char (String "+"%char s') => digits_value 0 (span_digits s').1
           | _ => 0
           end in
  {| coefficient := digits_value 0 (whole +:+ frac); exponent := e - Z.of_nat (String.length frac) |}.

(** The precision of the default context. *)
Definition PRECISION : Z := 28.

Definition digit_count (c : Z) : Z := Z.of_nat (String.length (int_str c)).

(** Round to the precision, half to even. *)
Definition decimal_round (d : decimal) : decimal :=
  let excess := digit_count d.(coefficient) - PRECISION in
  if decide (0 < excess) then
    let q := d.(coefficient) `div` 10 ^ excess in
    let r := d.(coefficient) `mod` 10 ^ excess in
    let up := if decide (2 * r = 10 ^ excess) then Z.odd q else bool_decide (10 ^ excess < 2 * r) in
    {| coefficient := if up then q + 1 else q; exponent := d.(exponent) + excess |}
  else d.

Definition decimal_mul (a b : decimal) : decimal :=
  decimal_round {| coefficient := a.(coefficient) * b.(coefficient);
                   exponent := a.(exponent) + b.(exponent) |}.

(** The quotient by [Decimal(100)]: the coefficient stays, so nothing is rounded. *)
Definition decimal_div_100 (a : decimal) : decimal :=
  {| coefficient := a.(coefficient); exponent := a.(exponent) - 2 |}.

(** [int(d.to_integral_value(rounding=ROUND_FLOOR))]. *)
Definition decimal_floor (d : decimal) : Z :=
  if decide (0 ≤ d.(exponent)) then d.(coefficient) * 10 ^ d.(exponent)
  else d.(coefficient) `div` 10 ^ (- d.(exponent)).

(** ** The decision *)

(** [n.to_bytes(2, "big")] of a length below 2^16. *)
Definition two_bytes (n : nat) : string :=
  String (ascii_of_nat (n / 256)) (String (ascii_of_nat (n mod 256)) "").

(** The value of hexadecimal digits. *)
Fixpoint hex_value (acc : Z) (s : string) : Z :=
  match s with
  | EmptyString => acc
  | String a s' => hex_value (16 * acc + match hex_val a with Some n => Z.of_N n | None => 0 end) s'
  end.

Section cohort.
Context `{Platform} `{Signing}.

Definition cohort_material (tenant_id version : string) : string :=
  COHORT_DOMAIN +:+ two_bytes (String.length version) +:+ version
  +:+ two_bytes (String.length tenant_id) +:+ tenant_id.

(** The first eight bytes of the digest, of which the model has the hexadecimal digits. *)
Definition tenant_bucket (secret tenant_id version : string) : Z :=
  hex_value 0 (str_take 16 (hmac_sha256 secret (cohort_material tenant_id version))).

Definition threshold (percent : float) : Z :=
  decimal_floor (decimal_div_100
    (decimal_mul (decimal_of (float_repr percent)) {| coefficient := ROLLOUT_SPACE; exponent := 0 |})).

Definition tenant_in_canary_percent (tenant_id : string) (percent : float)
    (secret cohort_version : string) : res bool :=
  assert_result (tenant_id ≠ "" ∧ all_chars (λ a, negb (bool_decide (a = Ascii.zero))) tenant_id = true
                 ∧ (String.length tenant_id ≤ 512)%nat) ValueError;;
  assert_result (isfinite percent = true ∧ fle (f64 0) percent = true
                 ∧ fle percent (f64 100) = true) ValueError;;
  assert_result (32 ≤ String.length secret)%nat ValueError;;
  assert_result (VERSION_RE cohort_version = true) ValueError;;
  if feq percent (f64 0) then mret false
  else if feq percent (f64 100) then mret true
  else mret (bool_decide (tenant_bucket secret tenant_id cohort_version < threshold percent)).
End cohort.
