(* ===== verification/Capacity.v ===== *)
(** * Capacity: capacity admission and fault drills
    (src/forge_replay/production/capacity_gate.py and fault_drill.py)

    The gate turns aggregated measurements of a live run into a decision with reason codes;
    a report carries the decision and is valid only when the gate decides the same again. A
    fault report holds the outcomes of the drills and whether they qualify. *)

From S2P Require Import Prelude Text Domain Platform Json Datetime Rollout.
From Corelib Require Import SpecFloat.

#[local] Open Scope Z_scope.

Module ServiceEvidenceKind.
Inductive t := LIVE | FAKE | MISSING.
#[global] Instance eq_dec : EqDecision t.
Proof. solve_decision. Defined.
#[global] Instance enum : StringEnum t.
Proof.
  refine {| value x := match x with LIVE => "live" | FAKE => "fake" | MISSING => "missing" end%string;
            members := [LIVE; FAKE; MISSING] |}.
  - intros []; set_solver.
  - abstract (intros [] [] ?; done).
Defined.
End ServiceEvidenceKind.

(** ** Data *)

Record ServiceProvenance := {
  sp_kind : ServiceEvidenceKind.t;
  sp_version : option string;
  sp_endpoint_sha256 : option string;
}.

Definition SERVICE_VERSION_RE : string → bool :=
  name_format alnum (λ a, alnum a || one_of " ._()+-" a) 127.

(** [_service_version(value)]. *)
Definition service_version (v : option string) : res unit :=
  match v with
  | None => Err ValueError
  | Some s => assert_result (s = strip s) ValueError;; fullmatch SERVICE_VERSION_RE s
  end.

Definition required_sha256 (v : option string) : res unit :=
  match v with None => Err ValueError | Some s => fullmatch SHA256_RE s end.

(** [ServiceProvenance.__post_init__]. *)
Definition provenance_valid (p : ServiceProvenance) : res unit :=
  if decide (p.(sp_kind) = ServiceEvidenceKind.LIVE) then
    service_version p.(sp_version);; required_sha256 p.(sp_endpoint_sha256)
  else assert_result (p.(sp_version) = None ∧ p.(sp_endpoint_sha256) = None) ValueError.

Definition is_live (p : ServiceProvenance) : bool :=
  bool_decide (p.(sp_kind) = ServiceEvidenceKind.LIVE).

(** 0.95. *)
Definition f95 : float := ratio 95 100.

Record CapacityPolicy := {
  minimum_load_multiplier : float;
  minimum_queued_commands : Z;
  minimum_active_workers : Z;
  minimum_throughput_ratio : float;
  maximum_redis_wake_p95_ms : float;
  maximum_outbox_lag_p95_ms : float;
  maximum_sql_fallback_recovery_seconds : float;
  streams_demand_claim_p95_ms : float;
  streams_demand_claims_per_second : float;
}.

(** [CapacityPolicy()]. *)
Definition CapacityPolicy_default : CapacityPolicy := {|
  minimum_load_multiplier := f64 2;
  minimum_queued_commands := 1000;
  minimum_active_workers := 20;
  minimum_throughput_ratio := f95;
  maximum_redis_wake_p95_ms := f64 100;
  maximum_outbox_lag_p95_ms := f64 2000;
  maximum_sql_fallback_recovery_seconds := f64 60;
  streams_demand_claim_p95_ms := f64 25;
  streams_demand_claims_per_second := f64 1000;
|}.

(** [CapacityPolicy.__post_init__]: a policy can only be stricter than the baseline. *)
Definition capacity_policy_valid (p : CapacityPolicy) : res unit :=
  finite_positive p.(minimum_load_multiplier);;
  positive_int p.(minimum_queued_commands);;
  positive_int p.(minimum_active_workers);;
  finite_positive p.(minimum_throughput_ratio);;
  assert_result (flt p.(minimum_load_multiplier) (f64 2) = false) ValueError;;
  assert_result (1000 ≤ p.(minimum_queued_commands)) ValueError;;
  assert_result (20 ≤ p.(minimum_active_workers)) ValueError;;
  assert_result (fle f95 p.(minimum_throughput_ratio) = true
                 ∧ fle p.(minimum_throughput_ratio) (f64 1) = true) ValueError;;
  check_all finite_positive
    [p.(maximum_redis_wake_p95_ms); p.(maximum_outbox_lag_p95_ms);
     p.(maximum_sql_fallback_recovery_seconds); p.(streams_demand_claim_p95_ms);
     p.(streams_demand_claims_per_second)];;
  assert_result (fgt p.(maximum_redis_wake_p95_ms) (f64 100) = false) ValueError;;
  assert_result (fgt p.(maximum_outbox_lag_p95_ms) (f64 2000) = false) ValueError;;
  assert_result (fgt p.(maximum_sql_fallback_recovery_seconds) (f64 60) = false) ValueError.

Record CapacityMeasurement := {
  m_postgres : ServiceProvenance;
  m_redis : ServiceProvenance;
  expected_peak_claims_per_second : float;
  load_multiplier : float;
  queued_commands : Z;
  active_workers : Z;
  steady_claims_per_second : float;
  sql_fallback_claims_per_second : float;
  command_claim_p95_ms : float;
  redis_wake_p95_ms : float;
  outbox_lag_p95_ms : float;
  sql_fallback_recovery_seconds : float;
  command_loss : Z;
  m_duplicate_external_effects : Z;
  stale_writes_accepted : Z;
}.

(** [CapacityMeasurement.__post_init__]. *)
Definition measurement_valid (m : CapacityMeasurement) : res unit :=
  provenance_valid m.(m_postgres);;
  provenance_valid m.(m_redis);;
  finite_positive m.(expected_peak_claims_per_second);;
  finite_positive m.(load_multiplier);;
  non_negative_int m.(queued_commands);;
  non_negative_int m.(active_workers);;
  check_all finite_non_negative
    [m.(steady_claims_per_second); m.(sql_fallback_claims_per_second); m.(command_claim_p95_ms);
     m.(redis_wake_p95_ms); m.(outbox_lag_p95_ms); m.(sql_fallback_recovery_seconds)];;
  check_all non_negative_int
    [m.(command_loss); m.(m_duplicate_external_effects); m.(stale_writes_accepted)].

(** The [target_claims_per_second] property. *)
Definition measured_target (m : CapacityMeasurement) : float :=
  fmul m.(expected_peak_claims_per_second) m.(load_multiplier).

Record CapacityDecision := {
  cd_allowed : bool;
  cd_reasons : list string;
  streams_demand_qualifies : bool;
  target_claims_per_second : float;
  minimum_accepted_claims_per_second : float;
}.

(** [CapacityDecision.__post_init__]. *)
Definition capacity_decision_valid (d : CapacityDecision) : res unit :=
  assert_result (Forall (λ r, r ≠ "") d.(cd_reasons)) TypeError;;
  assert_result (NoDup d.(cd_reasons)) ValueError;;
  assert_result (d.(cd_allowed) = bool_decide (d.(cd_reasons) = [])) ValueError;;
  finite_positive d.(target_claims_per_second);;
  finite_positive d.(minimum_accepted_claims_per_second).

(** The comparison [==] of two decisions. *)
Definition decision_eq (a b : CapacityDecision) : bool :=
  bool_decide (a.(cd_allowed) = b.(cd_allowed)) && bool_decide (a.(cd_reasons) = b.(cd_reasons))
  && bool_decide (a.(streams_demand_qualifies) = b.(streams_demand_qualifies))
  && feq a.(target_claims_per_second) b.(target_claims_per_second)
  && feq a.(minimum_accepted_claims_per_second) b.(minimum_accepted_claims_per_second).

(** ** The gate *)

(** A reason code, when its condition holds. *)
Definition flag (condition : bool) (reason : string) : list string :=
  if condition then [reason] else [].

(** The reasons of [CapacityGate.evaluate], in order. *)
Definition capacity_reasons (m : CapacityMeasurement) (p : CapacityPolicy) : list string :=
  let minimum_throughput := fmul (measured_target m) p.(minimum_throughput_ratio) in
  flag (negb (is_live m.(m_postgres))) "postgres_not_live"
  ++ flag (negb (is_live m.(m_redis))) "redis_not_live"
  ++ flag (flt m.(load_multiplier) p.(minimum_load_multiplier)) "load_multiplier_below_2x"
  ++ flag (m.(queued_commands) <? p.(minimum_queued_commands)) "queued_commands_below_1000"
  ++ flag (m.(active_workers) <? p.(minimum_active_workers)) "active_workers_below_20"
  ++ flag (flt m.(steady_claims_per_second) minimum_throughput) "steady_throughput_below_target"
  ++ flag (flt m.(sql_fallback_claims_per_second) minimum_throughput)
       "sql_fallback_throughput_below_target"
  ++ flag (fgt m.(redis_wake_p95_ms) p.(maximum_redis_wake_p95_ms)) "redis_wake_p95_exceeded"
  ++ flag (fge m.(outbox_lag_p95_ms) p.(maximum_outbox_lag_p95_ms)) "outbox_lag_p95_exceeded"
  ++ flag (fge m.(sql_fallback_recovery_seconds) p.(maximum_sql_fallback_recovery_seconds))
       "sql_fallback_recovery_exceeded"
  ++ flag (negb (m.(command_loss) =? 0)) "command_loss_detected"
  ++ flag (negb (m.(m_duplicate_external_effects) =? 0)) "duplicate_external_effect_detected"
  ++ flag (negb (m.(stale_writes_accepted) =? 0)) "stale_write_accepted".

(** [CapacityGate.evaluate]. *)
Definition capacity_evaluate (m : CapacityMeasurement) (p : CapacityPolicy) : res CapacityDecision :=
  measurement_valid m;;
  capacity_policy_valid p;;
  let reasons := capacity_reasons m p in
  let target := measured_target m in
  let decision := {|
    cd_allowed := bool_decide (reasons = []);
    cd_reasons := reasons;
    streams_demand_qualifies :=
      fgt m.(command_claim_p95_ms) p.(streams_demand_claim_p95_ms)
      || fgt m.(redis_wake_p95_ms) p.(maximum_redis_wake_p95_ms)
      || fge m.(steady_claims_per_second) p.(streams_demand_claims_per_second);
    target_claims_per_second := target;
    minimum_accepted_claims_per_second := fmul target p.(minimum_throughput_ratio);
  |} in
  capacity_decision_valid decision;;
  mret decision.

(** ** The report *)

Record CapacityReport := {
  cr_generated_at : string;
  cr_environment : string;
  cr_region : string;
  cr_release_sha : string;
  cr_config_sha256 : string;
  cr_cohort_version : string;
  cr_policy : CapacityPolicy;
  cr_measurement : CapacityMeasurement;
  cr_decision : CapacityDecision;
  cr_schema_version : Z;
  cr_suite : string;
}.

Definition CAPACITY_SUITE : string := "postgres-authority-redis-hot-layer-capacity".

Section report.
Context `{Platform} `{Signing}.

(** [text.replace("Z", "+00:00")] read as a time: every Z is replaced. *)
Definition parse_z (text : string) : option (datetime * option timedelta) :=
  fromisoformat (Text.replace "Z" "+00:00" text).

(** [_timestamp(generated_at)]. *)
Definition timestamp_valid (text : string) : res unit :=
  assert_result (blank text = false) ValueError;;
  match parse_z text with
  | Some (_, Some _) => mret ()
  | _ => Err ValueError
  end.

(** [CapacityReport.__post_init__]. *)
Definition capacity_report_valid (r : CapacityReport) : res unit :=
  assert_result (r.(cr_schema_version) = 1) ValueError;;
  assert_result (r.(cr_suite) = CAPACITY_SUITE) ValueError;;
  timestamp_valid r.(cr_generated_at);;
  fullmatch ENVIRONMENT_RE r.(cr_environment);;
  fullmatch REGION_RE r.(cr_region);;
  fullmatch GIT_SHA_RE r.(cr_release_sha);;
  fullmatch SHA256_RE r.(cr_config_sha256);;
  fullmatch VERSION_RE r.(cr_cohort_version);;
  expected ← capacity_evaluate r.(cr_measurement) r.(cr_policy);
  assert_result (decision_eq r.(cr_decision) expected = true) ValueError.

(** The entries of [asdict] and of [_measurement_mapping]. *)
Definition provenance_json (p : ServiceProvenance) : json :=
  JObj [("kind", JStr (value p.(sp_kind))); ("version", opt_str p.(sp_version));
        ("endpoint_sha256", opt_str p.(sp_endpoint_sha256))].

Definition policy_json (p : CapacityPolicy) : json :=
  JObj [("minimum_load_multiplier", JFloat p.(minimum_load_multiplier));
        ("minimum_queued_commands", JInt p.(minimum_queued_commands));
        ("minimum_active_workers", JInt p.(minimum_active_workers));
        ("minimum_throughput_ratio", JFloat p.(minimum_throughput_ratio));
        ("maximum_redis_wake_p95_ms", JFloat p.(maximum_redis_wake_p95_ms));
        ("maximum_outbox_lag_p95_ms", JFloat p.(maximum_outbox_lag_p95_ms));
        ("maximum_sql_fallback_recovery_seconds", JFloat p.(maximum_sql_fallback_recovery_seconds));
        ("streams_demand_claim_p95_ms", JFloat p.(streams_demand_claim_p95_ms));
        ("streams_demand_claims_per_second", JFloat p.(streams_demand_claims_per_second))].

Definition measurement_json (m : CapacityMeasurement) : json :=
  JObj [("postgres", provenance_json m.(m_postgres)); ("redis", provenance_json m.(m_redis));
        ("expected_peak_claims_per_second", JFloat m.(expected_peak_claims_per_second));
        ("load_multiplier", JFloat m.(load_multiplier));
        ("queued_commands", JInt m.(queued_commands)); ("active_workers", JInt m.(active_workers));
        ("steady_claims_per_second", JFloat m.(steady_claims_per_second));
        ("sql_fallback_claims_per_second", JFloat m.(sql_fallback_claims_per_second));
        ("command_claim_p95_ms", JFloat m.(command_claim_p95_ms));
        ("redis_wake_p95_ms", JFloat m.(redis_wake_p95_ms));
        ("outbox_lag_p95_ms", JFloat m.(outbox_lag_p95_ms));
        ("sql_fallback_recovery_seconds", JFloat m.(sql_fallback_recovery_seconds));
        ("command_loss", JInt m.(command_loss));
        ("duplicate_external_effects", JInt m.(m_duplicate_external_effects));
        ("stale_writes_accepted", JInt m.(stale_writes_accepted))].

Definition decision_json (d : CapacityDecision) : json :=
  JObj [("allowed", JBool d.(cd_allowed)); ("reasons", JArr (map JStr d.(cd_reasons)));
        ("streams_demand_qualifies", JBool d.(streams_demand_qualifies));
        ("target_claims_per_second", JFloat d.(target_claims_per_second));
        ("minimum_accepted_claims_per_second", JFloat d.(minimum_accepted_claims_per_second))].

(** [CapacityReport.canonical_mapping]. *)
Definition capacity_mapping (r : CapacityReport) : res json :=
  capacity_report_valid r;;
  mret (JObj [("schema_version", JInt r.(cr_schema_version)); ("suite", JStr r.(cr_suite));
              ("generated_at", JStr r.(cr_generated_at));
              ("environment", JStr r.(cr_environment)); ("region", JStr r.(cr_region));
              ("release_sha", JStr r.(cr_release_sha)); ("config_sha256", JStr r.(cr_config_sha256));
              ("cohort_version", JStr r.(cr_cohort_version)); ("policy", policy_json r.(cr_policy));
              ("measurement", measurement_json r.(cr_measurement));
              ("decision", decision_json r.(cr_decision))]).

(** The [sha256] property. *)
Definition capacity_sha256 (r : CapacityReport) : res string :=
  mapping ← capacity_mapping r; digest mapping.

(** [CapacityReport.matches_release_context]. *)
Definition capacity_matches_context (r : CapacityReport) (c : ReleaseContext) : res bool :=
  capacity_report_valid r;;
  context_valid c;;
  mret (bool_decide (r.(cr_environment) = c.(environment)) && bool_decide (r.(cr_region) = c.(region))
        && bool_decide (r.(cr_release_sha) = c.(release_sha))
        && bool_decide (r.(cr_config_sha256) = c.(config_sha256))
        && bool_decide (r.(cr_cohort_version) = c.(cohort_version))).

(** [CapacityGate.build_report], its five context arguments as one record. *)
Definition build_report (m : CapacityMeasurement) (generated_at : string) (c : ReleaseContext)
    (policy : option CapacityPolicy) : res CapacityReport :=
  let selected := default CapacityPolicy_default policy in
  decision ← capacity_evaluate m selected;
  let report := {|
    cr_generated_at := generated_at; cr_environment := c.(environment); cr_region := c.(region);
    cr_release_sha := c.(release_sha); cr_config_sha256 := c.(config_sha256);
    cr_cohort_version := c.(cohort_version); cr_policy := selected; cr_measurement := m;
    cr_decision := decision; cr_schema_version := 1; cr_suite := CAPACITY_SUITE |} in
  capacity_report_valid report;;
  mret report.
End report.

(** ** Fault drills (src/forge_replay/production/fault_drill.py)

    A report lists the results of the fault scenarios of one run; it qualifies when the
    services were live, every scenario was triggered and passed, and each result carries the
    invariants its scenario requires. *)

Module FaultScenario.
Inductive t :=
| REDIS_DISCONNECT | REDIS_STREAM_LOSS | REDIS_NOGROUP_RECOVERY | REDIS_FLUSH | REDIS_EVICTION
| REDIS_FAILOVER | REDIS_FULL_REBUILD | WORKER_PROCESS_INTERRUPTION | SQL_FALLBACK
| OUTBOX_DUPLICATE | OUTBOX_OUT_OF_ORDER | STALE_FENCING | POSTGRES_FAILOVER
| POSTGRES_BACKUP_RESTORE | POSTGRES_PITR | TLS_ACL_ROTATION | CROSS_TENANT_POOL_ISOLATION
| KILL_WINDOW_MATRIX.
#[global] Instance eq_dec : EqDecision t.
Proof. solve_decision. Defined.

Definition name (x : t) : string :=
  match x with
  | REDIS_DISCONNECT => "redis_disconnect" | REDIS_STREAM_LOSS => "redis_stream_loss"
  | REDIS_NOGROUP_RECOVERY => "redis_nogroup_recovery" | REDIS_FLUSH => "redis_flush"
  | REDIS_EVICTION => "redis_eviction" | REDIS_FAILOVER => "redis_failover"
  | REDIS_FULL_REBUILD => "redis_full_rebuild"
  | WORKER_PROCESS_INTERRUPTION => "worker_process_interruption" | SQL_FALLBACK => "sql_fallback"
  | OUTBOX_DUPLICATE => "outbox_duplicate" | OUTBOX_OUT_OF_ORDER => "outbox_out_of_order"
  | STALE_FENCING => "stale_fencing" | POSTGRES_FAILOVER => "postgres_failover"
  | POSTGRES_BACKUP_RESTORE => "postgres_backup_restore" | POSTGRES_PITR => "postgres_pitr"
  | TLS_ACL_ROTATION => "tls_acl_rotation"
  | CROSS_TENANT_POOL_ISOLATION => "cross_tenant_pool_isolation"
  | KILL_WINDOW_MATRIX => "kill_window_matrix"
  end.

(** [REQUIRED_FAULT_SCENARIOS]: all of them. *)
Definition required : list t :=
  [REDIS_DISCONNECT; REDIS_STREAM_LOSS; REDIS_NOGROUP_RECOVERY; REDIS_FLUSH; REDIS_EVICTION;
   REDIS_FAILOVER; REDIS_FULL_REBUILD; WORKER_PROCESS_INTERRUPTION; SQL_FALLBACK; OUTBOX_DUPLICATE;
   OUTBOX_OUT_OF_ORDER; STALE_FENCING; POSTGRES_FAILOVER; POSTGRES_BACKUP_RESTORE; POSTGRES_PITR;
   TLS_ACL_ROTATION; CROSS_TENANT_POOL_ISOLATION; KILL_WINDOW_MATRIX].

(** [REQUIRED_SCENARIO_INVARIANTS]. *)
Definition required_invariants (x : t) : list string :=
  match x with
  | REDIS_DISCONNECT => ["redis_unavailable_observed"; "sql_authority_preserved"]
  | REDIS_STREAM_LOSS => ["zero_committed_fact_loss"; "sql_authority_preserved"]
  | REDIS_NOGROUP_RECOVERY => ["consumer_group_recreated"]
  | REDIS_FLUSH => ["zero_committed_fact_loss"; "sql_projection_rebuilt"]
  | REDIS_EVICTION => ["zero_committed_fact_loss"; "sql_fallback_preserved"]
  | REDIS_FAILOVER => ["sql_authority_preserved"; "consumer_reconnected"]
  | REDIS_FULL_REBUILD => ["zero_committed_fact_loss"; "projection_converged"]
  | WORKER_PROCESS_INTERRUPTION => ["abandoned_claim_recovered"; "single_logical_command"]
  | SQL_FALLBACK => ["sql_command_claimed"; "recovery_under_sixty_seconds"]
  | OUTBOX_DUPLICATE => ["single_logical_effect"; "stale_publisher_rejected"]
  | OUTBOX_OUT_OF_ORDER => ["sql_stream_monotonic"]
  | STALE_FENCING => ["stale_write_rejected"; "sql_stream_monotonic"]
  | POSTGRES_FAILOVER => ["committed_fact_preserved"; "connection_recovered"]
  | POSTGRES_BACKUP_RESTORE => ["restore_integrity_verified"]
  | POSTGRES_PITR => ["rpo_verified"; "restored_stream_consistent"]
  | TLS_ACL_ROTATION => ["unauthorized_access_rejected"; "authorized_clients_recovered"]
  | CROSS_TENANT_POOL_ISOLATION => ["cross_tenant_disclosure_zero"; "cross_pool_claim_zero"]
  | KILL_WINDOW_MATRIX => ["no_committed_fact_loss"; "duplicate_effect_zero_or_uncertain"]
  end.
End FaultScenario.

(** ** Data *)

Record FaultScenarioResult := {
  fs_scenario : FaultScenario.t;
  fs_evidence_kind : ServiceEvidenceKind.t;
  fs_triggered : bool;
  fs_passed : bool;
  fs_recovery_seconds : float;
  fs_invariants : list string;
  fs_failure_code : option string;
}.

(** [\[a-z\]\[a-z0-9_\]{0,63}], of [_INVARIANT_RE], [_FAILURE_RE] and [_FAILURE_CODE_RE]. *)
Definition CODE_RE : string → bool := name_format lower_letter (λ a, lower_alnum a || one_of "_" a) 63.

(** [FaultScenarioResult.__post_init__]. *)
Definition scenario_result_valid (r : FaultScenarioResult) : res unit :=
  finite_non_negative r.(fs_recovery_seconds);;
  check_all (fullmatch CODE_RE) r.(fs_invariants);;
  assert_result (NoDup r.(fs_invariants)) ValueError;;
  optional (fullmatch CODE_RE) r.(fs_failure_code);;
  assert_result (¬ (r.(fs_passed) = true ∧ r.(fs_triggered) = false)) ValueError;;
  assert_result (¬ (r.(fs_passed) = true ∧ r.(fs_evidence_kind) ≠ ServiceEvidenceKind.LIVE)) ValueError;;
  assert_result (¬ (r.(fs_passed) = true ∧ r.(fs_failure_code) ≠ None)) ValueError.

Record FaultDrillReport := {
  fd_execution_id : string;
  fd_started_at : string;
  fd_finished_at : string;
  fd_context : ReleaseContext;
  fd_postgres : ServiceProvenance;
  fd_redis : ServiceProvenance;
  fd_raw_results_sha256 : string;
  fd_results : list FaultScenarioResult;
  fd_schema_version : Z;
  fd_suite : string;
}.

Definition FAULT_SUITE : string := "postgres-authority-redis-hot-layer-faults".

Section report.
Context `{Platform} `{Signing}.

(** [_timestamp(value)] of fault_drill.py: a text that ends in Z. *)
Definition fault_timestamp (text : string) : res datetime :=
  assert_result (ends_with "Z" text = true) ValueError;;
  match fromisoformat (str_take (String.length text - 1) text +:+ "+00:00") with
  | Some (t, Some offset) => assert_result (offset = 0) ValueError;; mret t
  | _ => Err ValueError
  end.

(** [FaultDrillReport.__post_init__]. *)
Definition fault_report_valid (r : FaultDrillReport) : res unit :=
  assert_result (uuid_canon r.(fd_execution_id) = Some r.(fd_execution_id)) ValueError;;
  started ← fault_timestamp r.(fd_started_at);
  finished ← fault_timestamp r.(fd_finished_at);
  assert_result (started < finished) ValueError;;
  context_valid r.(fd_context);;
  provenance_valid r.(fd_postgres);;
  provenance_valid r.(fd_redis);;
  fullmatch SHA256_RE r.(fd_raw_results_sha256);;
  check_all scenario_result_valid r.(fd_results);;
  assert_result (NoDup (map fs_scenario r.(fd_results))) ValueError;;
  assert_result (r.(fd_schema_version) = 1) ValueError;;
  assert_result (r.(fd_suite) = FAULT_SUITE) ValueError.

(** The entry of a scenario in [by_scenario]: the last result of it. *)
Definition by_scenario (results : list FaultScenarioResult) (x : FaultScenario.t)
    : option FaultScenarioResult :=
  last (filter (λ r, r.(fs_scenario) = x) results).

(** The result of one scenario passes. *)
Definition scenario_passes (r : FaultScenarioResult) : bool :=
  bool_decide (r.(fs_evidence_kind) = ServiceEvidenceKind.LIVE) && r.(fs_triggered) && r.(fs_passed)
  && bool_decide (r.(fs_failure_code) = None).

(** The [qualifies] property. *)
Definition qualifies (r : FaultDrillReport) : bool :=
  if negb (is_live r.(fd_postgres)) || negb (is_live r.(fd_redis)) then false
  else if negb (forallb (λ x, bool_decide (is_Some (by_scenario r.(fd_results) x))) FaultScenario.required)
  then false
  else if existsb (λ x, match by_scenario r.(fd_results) x with
                        | Some result => negb (scenario_passes result)
                        | None => false
                        end) FaultScenario.required
  then false
  else if match by_scenario r.(fd_results) FaultScenario.SQL_FALLBACK with
          | Some result => fge result.(fs_recovery_seconds) (f64 60)
          | None => false
          end
  then false
  else forallb (λ x, match by_scenario r.(fd_results) x with
                     | Some result => bool_decide (Forall (λ i, i ∈ result.(fs_invariants))
                                                     (FaultScenario.required_invariants x))
                     | None => false
                     end) FaultScenario.required.

(** [matches_release_context]: the contexts are equal. *)
Definition fault_matches_context (r : FaultDrillReport) (c : ReleaseContext) : bool :=
  bool_decide (r.(fd_context) = c).

Definition scenario_result_json (r : FaultScenarioResult) : json :=
  JObj [("scenario", JStr (FaultScenario.name r.(fs_scenario)));
        ("evidence_kind", JStr (value r.(fs_evidence_kind)));
        ("triggered", JBool r.(fs_triggered)); ("passed", JBool r.(fs_passed));
        ("recovery_seconds", JFloat r.(fs_recovery_seconds));
        ("invariants", JArr (map JStr r.(fs_invariants)));
        ("failure_code", opt_str r.(fs_failure_code))].

(** [FaultDrillReport.canonical_mapping]. *)
Definition fault_mapping (r : FaultDrillReport) : res json :=
  fault_report_valid r;;
  mret (JObj [("schema_version", JInt r.(fd_schema_version)); ("suite", JStr r.(fd_suite));
              ("execution_id", JStr r.(fd_execution_id)); ("started_at", JStr r.(fd_started_at));
              ("finished_at", JStr r.(fd_finished_at)); ("context", context_payload r.(fd_context));
              ("postgres", provenance_json r.(fd_postgres)); ("redis", provenance_json r.(fd_redis));
              ("raw_results_sha256", JStr r.(fd_raw_results_sha256));
              ("results", JArr (map scenario_result_json r.(fd_results)));
              ("qualifies", JBool (qualifies r))]).

(** The [sha256] property. *)
Definition fault_sha256 (r : FaultDrillReport) : res string :=
  mapping ← fault_mapping r; digest mapping.
End report.
