(* ===== verification/Canary.v ===== *)
(** * Canary: release evidence, the gate and the manifest
    (src/forge_replay/production/canary_release.py)

    An observation compares a control and a candidate cohort at a stage; an envelope signs
    it; the gate turns a requested stage, or live telemetry, into a decision with reason
    codes; the manifest carries one authorization per capability and a generation. *)

From S2P Require Import Prelude Text Domain Platform Json Datetime Rollout Capacity.
From Corelib Require Import SpecFloat.

#[local] Open Scope Z_scope.

Definition EVIDENCE_DOMAIN : string := domain "forge-replay:redis-canary:evidence:v1".

(** ** Observations *)

Record CohortMetrics := {
  sample_count : Z;
  latency_p95_ms : float;
  error_rate_percent : float;
  redis_fallback_recovery_seconds : float;
  outbox_lag_p95_seconds : float;
}.

(** [CohortMetrics.__post_init__]. *)
Definition metrics_valid (m : CohortMetrics) : res unit :=
  non_negative_int m.(sample_count);;
  finite_non_negative m.(latency_p95_ms);;
  finite_percent m.(error_rate_percent);;
  finite_non_negative m.(redis_fallback_recovery_seconds);;
  finite_non_negative m.(outbox_lag_p95_seconds).

Record HardSafetyCounters := {
  duplicate_external_effects : Z;
  approval_bypasses : Z;
  budget_bypasses : Z;
  authorization_bypasses : Z;
  cross_tenant_or_pool_leaks : Z;
  stale_fence_accepts : Z;
  prompt_integrity_violations : Z;
}.

#[global] Instance HardSafetyCounters_eq_dec : EqDecision HardSafetyCounters.
Proof. solve_decision. Defined.

(** The entries of [asdict(counters)]. *)
Definition counters_dict (h : HardSafetyCounters) : list (string * Z) :=
  [("duplicate_external_effects", h.(duplicate_external_effects));
   ("approval_bypasses", h.(approval_bypasses)); ("budget_bypasses", h.(budget_bypasses));
   ("authorization_bypasses", h.(authorization_bypasses));
   ("cross_tenant_or_pool_leaks", h.(cross_tenant_or_pool_leaks));
   ("stale_fence_accepts", h.(stale_fence_accepts));
   ("prompt_integrity_violations", h.(prompt_integrity_violations))].

Definition counters_json (h : HardSafetyCounters) : json :=
  JObj (map (λ kv, (kv.1, JInt kv.2)) (counters_dict h)).

(** [HardSafetyCounters.__post_init__] and [total]. *)
Definition counters_valid (h : HardSafetyCounters) : res unit :=
  check_all non_negative_int (counters_dict h).*2.
Definition counters_total (h : HardSafetyCounters) : Z := foldr Z.add 0 (counters_dict h).*2.

Record CanaryObservation := {
  co_capability : RedisCapability.t;
  co_context : ReleaseContext;
  co_stage : RolloutStage.t;
  co_observed_from : datetime;
  co_observed_until : datetime;
  control : CohortMetrics;
  candidate : CohortMetrics;
  co_hard_safety : HardSafetyCounters;
  consecutive_breaching_windows : Z;
}.

(** [CanaryObservation.__post_init__]. *)
Definition observation_valid (o : CanaryObservation) : res unit :=
  assert_result (o.(co_observed_from) < o.(co_observed_until)) ValueError;;
  non_negative_int o.(consecutive_breaching_windows).

(** [_revalidate_observation(observation)]. *)
Definition revalidate_observation (o : CanaryObservation) : res unit :=
  context_valid o.(co_context);;
  metrics_valid o.(control);;
  metrics_valid o.(candidate);;
  counters_valid o.(co_hard_safety);;
  observation_valid o.

Definition metrics_json (m : CohortMetrics) : json :=
  JObj [("error_rate_percent", JFloat m.(error_rate_percent));
        ("latency_p95_ms", JFloat m.(latency_p95_ms));
        ("outbox_lag_p95_seconds", JFloat m.(outbox_lag_p95_seconds));
        ("redis_fallback_recovery_seconds", JFloat m.(redis_fallback_recovery_seconds));
        ("sample_count", JInt m.(sample_count))].

Definition observation_json (o : CanaryObservation) : json :=
  JObj [("candidate", metrics_json o.(candidate)); ("capability", JStr (value o.(co_capability)));
        ("context", context_payload o.(co_context)); ("control", metrics_json o.(control));
        ("consecutive_breaching_windows", JInt o.(consecutive_breaching_windows));
        ("hard_safety", counters_json o.(co_hard_safety));
        ("observed_from", JStr (isoformat_z o.(co_observed_from)));
        ("observed_until", JStr (isoformat_z o.(co_observed_until)));
        ("stage", JStr (value o.(co_stage)))].

(** ** Signed evidence *)

Record SignedEvidenceEnvelope := {
  ee_capability : RedisCapability.t;
  ee_context : ReleaseContext;
  artifact_sha256 : string;
  observation_sha256 : string;
  ee_observed_from : datetime;
  ee_observed_until : datetime;
  ee_expires_at : datetime;
  tested_stage : RolloutStage.t;
  ee_sample_count : Z;
  ee_key_id : string;
  ee_signature : string;
  previous_evidence_sha256 : option string;
  ee_schema_version : Z;
}.

#[global] Instance SignedEvidenceEnvelope_eq_dec : EqDecision SignedEvidenceEnvelope.
Proof. solve_decision. Defined.

#[global] Instance SignedEvidenceEnvelope_eta : Eta SignedEvidenceEnvelope := λ e,
  Build_SignedEvidenceEnvelope e.(ee_capability) e.(ee_context) e.(artifact_sha256)
    e.(observation_sha256) e.(ee_observed_from) e.(ee_observed_until) e.(ee_expires_at)
    e.(tested_stage) e.(ee_sample_count) e.(ee_key_id) e.(ee_signature)
    e.(previous_evidence_sha256) e.(ee_schema_version).

(** [SignedEvidenceEnvelope.__post_init__]. *)
Definition envelope_valid (e : SignedEvidenceEnvelope) : res unit :=
  fullmatch SHA256_RE e.(artifact_sha256);;
  fullmatch SHA256_RE e.(observation_sha256);;
  optional (fullmatch SHA256_RE) e.(previous_evidence_sha256);;
  assert_result (e.(ee_observed_from) < e.(ee_observed_until)) ValueError;;
  assert_result (e.(ee_observed_until) < e.(ee_expires_at)) ValueError;;
  non_negative_int e.(ee_sample_count);;
  fullmatch KEY_ID_RE e.(ee_key_id);;
  fullmatch SHA256_RE e.(ee_signature);;
  assert_result (e.(ee_schema_version) = 1) ValueError.

(** The entries of [_signed_payload()]. *)
Definition envelope_payload (e : SignedEvidenceEnvelope) : list (string * json) :=
  [("artifact_sha256", JStr e.(artifact_sha256)); ("capability", JStr (value e.(ee_capability)));
   ("context", context_payload e.(ee_context)); ("expires_at", JStr (isoformat_z e.(ee_expires_at)));
   ("key_id", JStr e.(ee_key_id)); ("observation_sha256", JStr e.(observation_sha256));
   ("observed_from", JStr (isoformat_z e.(ee_observed_from)));
   ("observed_until", JStr (isoformat_z e.(ee_observed_until)));
   ("previous_evidence_sha256", opt_str e.(previous_evidence_sha256));
   ("sample_count", JInt e.(ee_sample_count)); ("schema_version", JInt e.(ee_schema_version));
   ("tested_stage", JStr (value e.(tested_stage)))].

(** The signature before it is computed: 64 zeros. *)
Definition zero_signature : string := pad 64 0.

Section evidence.
Context `{Platform} `{Signing}.

(** The [sha256] property of an observation and of an envelope. *)
Definition observation_digest (o : CanaryObservation) : res string := digest (observation_json o).

Definition envelope_sha256 (e : SignedEvidenceEnvelope) : res string :=
  digest (JObj (envelope_payload e ++ [("signature", JStr e.(ee_signature))])).

(** [envelope.verify(key)]. *)
Definition envelope_verify (e : SignedEvidenceEnvelope) (key : string) : res bool :=
  hmac_key key;;
  expected ← keyed_digest key EVIDENCE_DOMAIN (JObj (envelope_payload e));
  compare_digest expected e.(ee_signature).

(** [SignedEvidenceEnvelope.sign]. *)
Definition envelope_sign (o : CanaryObservation) (artifact : string) (expires_at : datetime)
    (key_id key : string) (previous : option string) : res SignedEvidenceEnvelope :=
  hmac_key key;;
  observed ← observation_digest o;
  let unsigned := {|
    ee_capability := o.(co_capability); ee_context := o.(co_context); artifact_sha256 := artifact;
    observation_sha256 := observed; ee_observed_from := o.(co_observed_from);
    ee_observed_until := o.(co_observed_until); ee_expires_at := expires_at;
    tested_stage := o.(co_stage); ee_sample_count := o.(candidate).(sample_count);
    ee_key_id := key_id; ee_signature := zero_signature; previous_evidence_sha256 := previous;
    ee_schema_version := 1 |} in
  envelope_valid unsigned;;
  signature ← keyed_digest key EVIDENCE_DOMAIN (JObj (envelope_payload unsigned));
  let signed := unsigned <| ee_signature := signature |> in
  envelope_valid signed;;
  mret signed.
End evidence.

(** ** Policy, authorizations and decisions *)

Record CanaryGatePolicy := {
  minimum_observation : timedelta;
  minimum_control_samples : Z;
  minimum_candidate_samples : Z;
  max_latency_regression_percent : float;
  max_error_rate_percent : float;
  max_error_rate_delta_percent : float;
  max_api_rate_limit_latency_ms : float;
  max_worker_wake_latency_ms : float;
  max_redis_fallback_recovery_seconds : float;
  max_outbox_lag_p95_seconds : float;
}.

(** [CanaryGatePolicy()]. *)
Definition CanaryGatePolicy_default : CanaryGatePolicy := {|
  minimum_observation := minutes 30;
  minimum_control_samples := 1000;
  minimum_candidate_samples := 1000;
  max_latency_regression_percent := f64 20;
  max_error_rate_percent := f64 1;
  max_error_rate_delta_percent := ratio 1 10;
  max_api_rate_limit_latency_ms := f64 10;
  max_worker_wake_latency_ms := f64 100;
  max_redis_fallback_recovery_seconds := f64 60;
  max_outbox_lag_p95_seconds := f64 2;
|}.

(** [CanaryGatePolicy.__post_init__]. *)
Definition gate_policy_valid (p : CanaryGatePolicy) : res unit :=
  assert_result (minutes 30 ≤ p.(minimum_observation)) ValueError;;
  positive_int p.(minimum_control_samples);;
  positive_int p.(minimum_candidate_samples);;
  check_all finite_percent
    [p.(max_latency_regression_percent); p.(max_error_rate_percent); p.(max_error_rate_delta_percent)];;
  check_all finite_positive
    [p.(max_api_rate_limit_latency_ms); p.(max_worker_wake_latency_ms);
     p.(max_redis_fallback_recovery_seconds); p.(max_outbox_lag_p95_seconds)].

Record RolloutAuthorization := {
  ra_capability : RedisCapability.t;
  ra_context : ReleaseContext;
  ra_stage : RolloutStage.t;
  ra_issued_at : datetime;
  ra_evidence_sha256 : option string;
}.

#[global] Instance RolloutAuthorization_eq_dec : EqDecision RolloutAuthorization.
Proof. solve_decision. Defined.

(** [RolloutAuthorization.__post_init__]. *)
Definition authorization_valid (a : RolloutAuthorization) : res unit :=
  optional (fullmatch SHA256_RE) a.(ra_evidence_sha256);;
  if RolloutStage.dark a.(ra_stage) then assert_result (a.(ra_evidence_sha256) = None) ValueError
  else assert_result (a.(ra_evidence_sha256) ≠ None) ValueError.

Definition RolloutAuthorization_init (c : RedisCapability.t) (ctx : ReleaseContext)
    (s : RolloutStage.t) (t : datetime) (e : option string) : res RolloutAuthorization :=
  let a := {| ra_capability := c; ra_context := ctx; ra_stage := s; ra_issued_at := t;
              ra_evidence_sha256 := e |} in
  authorization_valid a;; mret a.

(** [_reason_tuple(value)]. *)
Definition reasons_valid (l : list string) : res unit :=
  assert_result (Forall (λ r, r ≠ "") l) TypeError;;
  assert_result (NoDup l) ValueError.

Record CanaryGateDecision := {
  gd_allowed : bool;
  gd_reasons : list string;
  gd_authorization : option RolloutAuthorization;
}.

(** [CanaryGateDecision(allowed, reasons, authorization)]. *)
Definition CanaryGateDecision_init (allowed : bool) (reasons : list string)
    (authorization : option RolloutAuthorization) : res CanaryGateDecision :=
  reasons_valid reasons;;
  assert_result (allowed = bool_decide (reasons = [])) ValueError;;
  assert_result (allowed = bool_decide (is_Some authorization)) ValueError;;
  mret {| gd_allowed := allowed; gd_reasons := reasons; gd_authorization := authorization |}.

Record CanaryHealthDecision := {
  hd_healthy : bool;
  hd_reasons : list string;
  hd_rollback_authorization : option RolloutAuthorization;
}.

(** [CanaryHealthDecision(healthy, reasons, rollback_authorization)]. *)
Definition CanaryHealthDecision_init (healthy : bool) (reasons : list string)
    (rollback : option RolloutAuthorization) : res CanaryHealthDecision :=
  reasons_valid reasons;;
  assert_result (¬ (healthy = true ∧ (reasons ≠ [] ∨ is_Some rollback))) ValueError;;
  assert_result (¬ (healthy = false ∧ reasons = [])) ValueError;;
  mret {| hd_healthy := healthy; hd_reasons := reasons; hd_rollback_authorization := rollback |}.

(** [_denied(reason)]. *)
Definition gate_denied (reason : string) : res CanaryGateDecision :=
  CanaryGateDecision_init false [reason] None.

(** [_deduplicate(values)]: every value where it occurs first. *)
Fixpoint deduplicate (l : list string) : list string :=
  match l with
  | [] => []
  | x :: l' => x :: filter (λ y, y ≠ x) (deduplicate l')
  end.

(** ** The gate *)

Record UnifiedCanaryGate := {
  trusted_evidence_keys : gmap string string;
  gate_policy : CanaryGatePolicy;
}.

(** [UnifiedCanaryGate(trusted_evidence_keys, policy)]. *)
Definition UnifiedCanaryGate_init (keys : gmap string string) (policy : option CanaryGatePolicy)
    : res UnifiedCanaryGate :=
  check_all (λ kv, fullmatch KEY_ID_RE kv.1;; hmac_key kv.2) (map_to_list keys);;
  mret {| trusted_evidence_keys := keys; gate_policy := default CanaryGatePolicy_default policy |}.

Section gate.
Context `{Platform} `{Signing} (gate : UnifiedCanaryGate).

Let policy : CanaryGatePolicy := gate.(gate_policy).

(** The reasons about the metrics, in order. *)
Definition metric_reasons (capability : RedisCapability.t) (o : CanaryObservation) : list string :=
  let candidate := o.(candidate) in
  let control := o.(control) in
  let permitted_latency :=
    fmul control.(latency_p95_ms)
      (fadd (f64 1) (fdiv policy.(max_latency_regression_percent) (f64 100))) in
  flag (fgt candidate.(latency_p95_ms) permitted_latency) "latency_regression"
  ++ flag ((bool_decide (capability = RedisCapability.API_RATE_LIMIT_ENFORCE)
              && fge candidate.(latency_p95_ms) policy.(max_api_rate_limit_latency_ms))
           || (bool_decide (capability = RedisCapability.WORKER_WAKE_CONSUME)
                 && fgt candidate.(latency_p95_ms) policy.(max_worker_wake_latency_ms)))
       "latency_slo_exceeded"
  ++ flag (fgt candidate.(error_rate_percent) policy.(max_error_rate_percent)
           || fgt candidate.(error_rate_percent)
                (fadd control.(error_rate_percent) policy.(max_error_rate_delta_percent)))
       "error_rate_regression"
  ++ flag (fge candidate.(redis_fallback_recovery_seconds)
             policy.(max_redis_fallback_recovery_seconds)) "redis_fallback_slo_exceeded"
  ++ flag (fge candidate.(outbox_lag_p95_seconds) policy.(max_outbox_lag_p95_seconds))
       "outbox_lag_slo_exceeded".

(** The signature of the evidence, checked with the trusted key it names. *)
Definition signature_reasons (e : SignedEvidenceEnvelope) : res (list string) :=
  match gate.(trusted_evidence_keys) !! e.(ee_key_id) with
  | None => mret ["untrusted_evidence_key"]
  | Some key => ok ← envelope_verify e key; mret (flag (negb ok) "evidence_signature_invalid")
  end.

(** [_validate_evidence]. *)
Definition validate_evidence (capability : RedisCapability.t) (context : ReleaseContext)
    (current_stage : RolloutStage.t) (current_evidence_sha256 : option string) (now : datetime)
    (e : SignedEvidenceEnvelope) (o : CanaryObservation) : res (list string) :=
  signature ← signature_reasons e;
  observed ← observation_digest o;
  mret (deduplicate (
    signature
    ++ flag (bool_decide (e.(ee_capability) ≠ capability)) "evidence_capability_mismatch"
    ++ flag (bool_decide (e.(ee_context) ≠ context)) "evidence_context_mismatch"
    ++ flag (bool_decide (e.(tested_stage) ≠ current_stage)) "evidence_stage_mismatch"
    ++ flag (bool_decide (e.(previous_evidence_sha256) ≠ current_evidence_sha256))
         "previous_evidence_mismatch"
    ++ flag (now <? e.(ee_observed_until)) "evidence_observation_in_future"
    ++ flag (e.(ee_expires_at) <=? now) "evidence_expired"
    ++ flag (bool_decide (o.(co_capability) ≠ capability)) "observation_capability_mismatch"
    ++ flag (bool_decide (o.(co_context) ≠ context)) "observation_context_mismatch"
    ++ flag (bool_decide (o.(co_stage) ≠ current_stage)) "observation_stage_mismatch"
    ++ flag (bool_decide (observed ≠ e.(observation_sha256))) "observation_digest_mismatch"
    ++ flag (bool_decide (o.(co_observed_from) ≠ e.(ee_observed_from))
             || bool_decide (o.(co_observed_until) ≠ e.(ee_observed_until)))
         "observation_window_mismatch"
    ++ flag (negb (e.(ee_sample_count) =? o.(candidate).(sample_count)))
         "evidence_sample_count_mismatch"
    ++ flag (o.(co_observed_until) - o.(co_observed_from) <? policy.(minimum_observation))
         "observation_window_too_short"
    ++ flag (o.(control).(sample_count) <? policy.(minimum_control_samples))
         "insufficient_control_samples"
    ++ flag (o.(candidate).(sample_count) <? policy.(minimum_candidate_samples))
         "insufficient_candidate_samples"
    ++ flag (negb (counters_total o.(co_hard_safety) =? 0)) "hard_safety_violation"
    ++ metric_reasons capability o)).

(** [_validate_capacity_report]: a report that raises is invalid. *)
Definition validate_capacity_report (context : ReleaseContext) (e : SignedEvidenceEnvelope)
    (report : option CapacityReport) : res (list string) :=
  match report with
  | None => mret ["capacity_report_required"]
  | Some r =>
      match (sha ← capacity_sha256 r; matches_context ← capacity_matches_context r context;
             mret (sha, matches_context)) with
      | Ok (sha, matches_context) =>
          mret (flag (bool_decide (sha ≠ e.(artifact_sha256))) "capacity_artifact_digest_mismatch"
                ++ flag (negb matches_context) "capacity_context_mismatch"
                ++ flag (negb r.(cr_decision).(cd_allowed)) "capacity_gate_failed")
      | Err x => if is_invalid x then mret ["capacity_report_invalid"] else Err x
      end
  end.

(** The promotion to an adjacent stage that serves traffic. *)
Definition evaluate_promotion (capability : RedisCapability.t) (context : ReleaseContext)
    (current_stage : RolloutStage.t) (current_evidence_sha256 : option string)
    (target : RolloutStage.t) (now : datetime) (evidence : option SignedEvidenceEnvelope)
    (observation : option CanaryObservation) (report : option CapacityReport)
    : res CanaryGateDecision :=
  match evidence, observation with
  | None, _ => gate_denied "evidence_required"
  | Some _, None => gate_denied "observation_required"
  | Some e, Some o =>
      envelope_valid e;;
      revalidate_observation o;;
      evidence_reasons ← validate_evidence capability context current_stage current_evidence_sha256 now e o;
      capacity_reasons ← (if decide (target = RolloutStage.CANARY_1)
                          then validate_capacity_report context e report else mret []);
      let reasons := evidence_reasons ++ capacity_reasons in
      if decide (reasons = []) then
        sha ← envelope_sha256 e;
        authorization ← RolloutAuthorization_init capability context target now (Some sha);
        CanaryGateDecision_init true [] (Some authorization)
      else CanaryGateDecision_init false reasons None
  end.

(** The transition from the current stage, once the current authorization is checked. *)
Definition transition_from (capability : RedisCapability.t) (context : ReleaseContext)
    (current : option RolloutAuthorization) (target : RolloutStage.t) (now : datetime)
    (evidence : option SignedEvidenceEnvelope) (observation : option CanaryObservation)
    (report : option CapacityReport) : res CanaryGateDecision :=
  let current_stage := from_option ra_stage RolloutStage.OFF current in
  let current_evidence := current ≫= ra_evidence_sha256 in
  let current_index := RolloutStage.index current_stage in
  let target_index := RolloutStage.index target in
  if decide (target_index = current_index) then
    authorization ← match current with
                    | Some a => mret a
                    | None => RolloutAuthorization_init capability context target now None
                    end;
    CanaryGateDecision_init true [] (Some authorization)
  else if decide (target_index < current_index) then
    authorization ← RolloutAuthorization_init capability context target now
                      (if RolloutStage.dark target then None else current_evidence);
    CanaryGateDecision_init true [] (Some authorization)
  else if decide (target_index ≠ current_index + 1) then gate_denied "non_adjacent_upgrade"
  else if decide (target = RolloutStage.SHADOW) then
    authorization ← RolloutAuthorization_init capability context target now None;
    CanaryGateDecision_init true [] (Some authorization)
  else evaluate_promotion capability context current_stage current_evidence target now evidence
         observation report.

(** [evaluate_transition]. *)
Definition evaluate_transition (capability : RedisCapability.t) (context : ReleaseContext)
    (current : option RolloutAuthorization) (target : RolloutStage.t) (now : datetime)
    (evidence : option SignedEvidenceEnvelope) (observation : option CanaryObservation)
    (report : option CapacityReport) : res CanaryGateDecision :=
  gate_policy_valid policy;;
  context_valid context;;
  optional authorization_valid current;;
  match current with
  | Some a =>
      if decide (a.(ra_capability) = capability ∧ a.(ra_context) = context)
      then transition_from capability context current target now evidence observation report
      else gate_denied "current_authorization_mismatch"
  | None => transition_from capability context current target now evidence observation report
  end.

Definition SOFT_SLO_REASONS : list string :=
  ["latency_regression"; "latency_slo_exceeded"; "error_rate_regression";
   "redis_fallback_slo_exceeded"; "outbox_lag_slo_exceeded"].

(** [evaluate_runtime_health]. *)
Definition evaluate_runtime_health (current : RolloutAuthorization) (now : datetime)
    (e : SignedEvidenceEnvelope) (o : CanaryObservation) : res CanaryHealthDecision :=
  authorization_valid current;;
  gate_policy_valid policy;;
  envelope_valid e;;
  revalidate_observation o;;
  if RolloutStage.dark current.(ra_stage) then CanaryHealthDecision_init true [] None
  else
    reasons ← validate_evidence current.(ra_capability) current.(ra_context) current.(ra_stage)
                current.(ra_evidence_sha256) now e o;
    if decide (reasons = []) then CanaryHealthDecision_init true [] None
    else
      let hard := bool_decide ("hard_safety_violation" ∈ reasons) in
      let only_soft := bool_decide (Forall (λ r, r ∈ SOFT_SLO_REASONS) reasons) in
      if only_soft && (o.(consecutive_breaching_windows) <? 2)
      then CanaryHealthDecision_init false reasons None
      else
        authorization ← RolloutAuthorization_init current.(ra_capability) current.(ra_context)
                          (if hard then RolloutStage.OFF else RolloutStage.SHADOW) now None;
        CanaryHealthDecision_init false reasons (Some authorization).
End gate.

(** ** The manifest *)

Record RolloutManifest := {
  rm_context : ReleaseContext;
  rm_generation : Z;
  authorizations : list RolloutAuthorization;
}.

(** [RolloutManifest.__post_init__]. *)
Definition manifest_valid (m : RolloutManifest) : res unit :=
  context_valid m.(rm_context);;
  positive_int m.(rm_generation);;
  check_all (λ a, authorization_valid a;;
                  assert_result (a.(ra_context) = m.(rm_context)) ValueError) m.(authorizations);;
  assert_result (NoDup (map ra_capability m.(authorizations))) ValueError.

(** [authorization_for]: the first one of the capability. *)
Definition authorization_for (m : RolloutManifest) (c : RedisCapability.t)
    : option RolloutAuthorization :=
  head (filter (λ a, a.(ra_capability) = c) m.(authorizations)).

(** The loop of [has_converged] over the reports. *)
Fixpoint reports_match (m : RolloutManifest) (applied : list (string * Z)) : res bool :=
  match applied with
  | [] => mret true
  | (instance, generation) :: applied' =>
      validate_identity instance;;
      positive_int generation;;
      if decide (generation ≠ m.(rm_generation)) then mret false else reports_match m applied'
  end.

(** [has_converged]: the reports are a dictionary from an instance to its generation, in
    its order. *)
Definition has_converged (m : RolloutManifest) (applied : list (string * Z)) (expected : list string)
    : res bool :=
  if decide (expected = []) then mret false
  else
    assert_result (NoDup expected) ValueError;;
    check_all validate_identity expected;;
    if decide ((list_to_set applied.*1 : gset string) ≠ list_to_set expected) then mret false
    else reports_match m applied.

(** [manifest.apply(...)]. *)
Definition manifest_apply (m : RolloutManifest) (a : RolloutAuthorization)
    (expected_generation : Z) (expected_instance_ids : list string) (applied : list (string * Z))
    : res RolloutManifest :=
  manifest_valid m;;
  assert_result (expected_generation = m.(rm_generation)) ValueError;;
  authorization_valid a;;
  assert_result (a.(ra_context) = m.(rm_context)) ValueError;;
  let current_stage := from_option ra_stage RolloutStage.OFF (authorization_for m a.(ra_capability)) in
  let current_index := RolloutStage.index current_stage in
  let target_index := RolloutStage.index a.(ra_stage) in
  assert_result (¬ (current_index + 1 < target_index)) ValueError;;
  (if decide (current_index < target_index ∧ a.(ra_stage) ≠ RolloutStage.SHADOW) then
     converged ← has_converged m applied expected_instance_ids;
     assert_result (converged = true) ValueError
   else mret ());;
  let next := {|
    rm_context := m.(rm_context);
    rm_generation := m.(rm_generation) + 1;
    authorizations := filter (λ item, item.(ra_capability) ≠ a.(ra_capability)) m.(authorizations) ++ [a];
  |} in
  manifest_valid next;;
  mret next.

(** ** Serving a tenant *)

Section serving.
Context `{Platform} `{Signing}.

(** [tenant_in_canary_cohort]. *)
Definition tenant_in_canary_cohort (tenant_id : string) (stage : RolloutStage.t)
    (secret version : string) : res bool :=
  tenant_in_canary_percent tenant_id (RolloutStage.percent stage) secret version.

Record ManifestTenantPolicy := {
  tp_manifest : RolloutManifest;
  tp_cohort_secret : string;
  tp_expected_context : ReleaseContext;
}.

(** [ManifestTenantPolicy(manifest, cohort_secret, expected_context)]. *)
Definition ManifestTenantPolicy_init (m : RolloutManifest) (secret : string) (c : ReleaseContext)
    : res ManifestTenantPolicy :=
  manifest_valid m;;
  context_valid c;;
  assert_result (m.(rm_context) = c) ValueError;;
  hmac_key secret;;
  mret {| tp_manifest := m; tp_cohort_secret := secret; tp_expected_context := c |}.

(** [ManifestTenantPolicy.allows]. *)
Definition manifest_allows (p : ManifestTenantPolicy) (c : RedisCapability.t) (tenant_id : string)
    : res bool :=
  validate_identity tenant_id;;
  manifest_valid p.(tp_manifest);;
  context_valid p.(tp_expected_context);;
  if decide (p.(tp_manifest).(rm_context) ≠ p.(tp_expected_context)) then mret false
  else
    match authorization_for p.(tp_manifest) c with
    | None => mret false
    | Some a => tenant_in_canary_cohort tenant_id a.(ra_stage) p.(tp_cohort_secret)
                  p.(tp_manifest).(rm_context).(cohort_version)
    end.
End serving.
