(* ===== verification/EvidenceSigning.v ===== *)
(** * EvidenceSigning: the signing boundary
    (src/forge_replay/production/evidence_signing.py)

    Runners attest a capacity report and a fault-drill report with their own keys; the
    release signer verifies both attestations before it signs the envelope that admits a
    capability to the first canary stage, and a receipt for the package. *)

From S2P Require Import Prelude Text Domain Platform Json Datetime Rollout Capacity Canary.

#[local] Open Scope Z_scope.

Definition EXECUTION_ID_RE : string → bool := name_format alnum (λ a, alnum a || one_of "_.:-" a) 127.
Definition RUNNER_ATTESTATION_DOMAIN : string := domain "forge-replay:live-runner-attestation:v1".
Definition SIGNING_RECEIPT_DOMAIN : string := domain "forge-replay:evidence-signing-receipt:v1".
Definition REQUIRED_SERVICES : list string := ["postgresql"; "redis"].

Module EvidenceArtifactKind.
Inductive t := CAPACITY | FAULT_DRILL.
#[global] Instance eq_dec : EqDecision t.
Proof. solve_decision. Defined.
Definition name (x : t) : string :=
  match x with CAPACITY => "capacity" | FAULT_DRILL => "fault_drill" end.
End EvidenceArtifactKind.

Module EvidenceRunOutcome.
Inductive t := PASSED | FAILED.
#[global] Instance eq_dec : EqDecision t.
Proof. solve_decision. Defined.
Definition name (x : t) : string := match x with PASSED => "passed" | FAILED => "failed" end.
End EvidenceRunOutcome.

(** ** Attestations and receipts *)

Record LiveArtifactAttestation := {
  artifact_kind : EvidenceArtifactKind.t;
  la_context : ReleaseContext;
  execution_id : string;
  la_started_at : datetime;
  la_finished_at : datetime;
  la_report_sha256 : string;
  la_raw_results_sha256 : string;
  isolation_sha256 : string;
  runner_build_sha256 : string;
  services : list string;
  outcome : EvidenceRunOutcome.t;
  failure_codes : list string;
  runner_key_id : string;
  la_signature : string;
  la_schema_version : Z;
  source : string;
}.

#[global] Instance LiveArtifactAttestation_eta : Eta LiveArtifactAttestation := λ a,
  Build_LiveArtifactAttestation a.(artifact_kind) a.(la_context) a.(execution_id) a.(la_started_at)
    a.(la_finished_at) a.(la_report_sha256) a.(la_raw_results_sha256) a.(isolation_sha256)
    a.(runner_build_sha256) a.(services) a.(outcome) a.(failure_codes) a.(runner_key_id)
    a.(la_signature) a.(la_schema_version) a.(source).

(** [LiveArtifactAttestation.__post_init__]. *)
Definition attestation_valid (a : LiveArtifactAttestation) : res unit :=
  context_valid a.(la_context);;
  fullmatch EXECUTION_ID_RE a.(execution_id);;
  assert_result (a.(la_started_at) < a.(la_finished_at)) ValueError;;
  assert_result (a.(la_finished_at) - a.(la_started_at) ≤ hours 6) ValueError;;
  check_all (fullmatch SHA256_RE)
    [a.(la_report_sha256); a.(la_raw_results_sha256); a.(isolation_sha256); a.(runner_build_sha256)];;
  assert_result (a.(services) = REQUIRED_SERVICES) ValueError;;
  check_all (fullmatch CODE_RE) a.(failure_codes);;
  assert_result (NoDup a.(failure_codes)) ValueError;;
  assert_result (bool_decide (a.(outcome) = EvidenceRunOutcome.PASSED)
                 = bool_decide (a.(failure_codes) = [])) ValueError;;
  fullmatch KEY_ID_RE a.(runner_key_id);;
  fullmatch SHA256_RE a.(la_signature);;
  assert_result (a.(la_schema_version) = 1) ValueError;;
  assert_result (a.(source) = "live_external_services") ValueError.

(** The entries of [_signed_payload()]. *)
Definition attestation_payload (a : LiveArtifactAttestation) : list (string * json) :=
  [("artifact_kind", JStr (EvidenceArtifactKind.name a.(artifact_kind)));
   ("context", context_payload a.(la_context)); ("execution_id", JStr a.(execution_id));
   ("failure_codes", JArr (map JStr a.(failure_codes)));
   ("finished_at", JStr (isoformat_z a.(la_finished_at)));
   ("isolation_sha256", JStr a.(isolation_sha256));
   ("outcome", JStr (EvidenceRunOutcome.name a.(outcome)));
   ("raw_results_sha256", JStr a.(la_raw_results_sha256));
   ("report_sha256", JStr a.(la_report_sha256));
   ("runner_build_sha256", JStr a.(runner_build_sha256));
   ("runner_key_id", JStr a.(runner_key_id)); ("schema_version", JInt a.(la_schema_version));
   ("services", JArr (map JStr a.(services))); ("source", JStr a.(source));
   ("started_at", JStr (isoformat_z a.(la_started_at)))].

Record EvidenceSigningReceipt := {
  sr_context : ReleaseContext;
  sr_evidence_sha256 : string;
  capacity_attestation_sha256 : string;
  fault_attestation_sha256 : string;
  signed_at : datetime;
  signing_key_id : string;
  sr_signature : string;
  sr_schema_version : Z;
}.

#[global] Instance EvidenceSigningReceipt_eta : Eta EvidenceSigningReceipt := λ r,
  Build_EvidenceSigningReceipt r.(sr_context) r.(sr_evidence_sha256) r.(capacity_attestation_sha256)
    r.(fault_attestation_sha256) r.(signed_at) r.(signing_key_id) r.(sr_signature) r.(sr_schema_version).

(** [EvidenceSigningReceipt.__post_init__]. *)
Definition receipt_valid (r : EvidenceSigningReceipt) : res unit :=
  context_valid r.(sr_context);;
  check_all (fullmatch SHA256_RE)
    [r.(sr_evidence_sha256); r.(capacity_attestation_sha256); r.(fault_attestation_sha256)];;
  fullmatch KEY_ID_RE r.(signing_key_id);;
  fullmatch SHA256_RE r.(sr_signature);;
  assert_result (r.(sr_schema_version) = 1) ValueError.

Definition receipt_payload (r : EvidenceSigningReceipt) : list (string * json) :=
  [("capacity_attestation_sha256", JStr r.(capacity_attestation_sha256));
   ("context", context_payload r.(sr_context)); ("evidence_sha256", JStr r.(sr_evidence_sha256));
   ("fault_attestation_sha256", JStr r.(fault_attestation_sha256));
   ("schema_version", JInt r.(sr_schema_version)); ("signed_at", JStr (isoformat_z r.(signed_at)));
   ("signing_key_id", JStr r.(signing_key_id))].

Record SignedAdmissionEvidence := {
  envelope : SignedEvidenceEnvelope;
  capacity_attestation : LiveArtifactAttestation;
  fault_attestation : LiveArtifactAttestation;
  receipt : EvidenceSigningReceipt;
}.

Section signing.
Context `{Platform} `{Signing}.

(** [LiveArtifactAttestation.sign], [verify] and [sha256]; [unsigned] holds the arguments
    of [sign], whatever its signature, services, schema version and source. *)
Definition attestation_sign (args : LiveArtifactAttestation) (runner_key : string)
    : res LiveArtifactAttestation :=
  hmac_key runner_key;;
  let unsigned := args <| la_signature := zero_signature |> <| services := REQUIRED_SERVICES |>
                       <| la_schema_version := 1 |> <| source := "live_external_services" |> in
  attestation_valid unsigned;;
  signature ← keyed_digest runner_key RUNNER_ATTESTATION_DOMAIN (JObj (attestation_payload unsigned));
  let signed := unsigned <| la_signature := signature |> in
  attestation_valid signed;;
  mret signed.

Definition attestation_verify (a : LiveArtifactAttestation) (runner_key : string) : res bool :=
  attestation_valid a;;
  hmac_key runner_key;;
  expected ← keyed_digest runner_key RUNNER_ATTESTATION_DOMAIN (JObj (attestation_payload a));
  compare_digest expected a.(la_signature).

Definition attestation_sha256 (a : LiveArtifactAttestation) : res string :=
  attestation_valid a;;
  digest (JObj (attestation_payload a ++ [("signature", JStr a.(la_signature))])).

(** [EvidenceSigningReceipt.sign] and [verify]. *)
Definition receipt_sign (context : ReleaseContext) (evidence capacity fault : string)
    (at_time : datetime) (key_id key : string) : res EvidenceSigningReceipt :=
  hmac_key key;;
  let unsigned := {|
    sr_context := context; sr_evidence_sha256 := evidence; capacity_attestation_sha256 := capacity;
    fault_attestation_sha256 := fault; signed_at := at_time; signing_key_id := key_id;
    sr_signature := zero_signature; sr_schema_version := 1 |} in
  receipt_valid unsigned;;
  signature ← keyed_digest key SIGNING_RECEIPT_DOMAIN (JObj (receipt_payload unsigned));
  let signed := unsigned <| sr_signature := signature |> in
  receipt_valid signed;;
  mret signed.

Definition receipt_verify (r : EvidenceSigningReceipt) (key : string) : res bool :=
  receipt_valid r;;
  hmac_key key;;
  expected ← keyed_digest key SIGNING_RECEIPT_DOMAIN (JObj (receipt_payload r));
  compare_digest expected r.(sr_signature).

(** ** The signer *)

Record ProductionEvidenceSigner := {
  runner_keys : gmap string string;
  ps_signing_key_id : string;
  ps_signing_key : string;
  maximum_attestation_age : timedelta;
  maximum_evidence_ttl : timedelta;
}.

(** The loop of [__init__] over the trusted runner keys, a dictionary in its order. *)
Fixpoint admit_runner_keys (signing_key : string) (keys : list (string * string))
    (known : gmap string string) : res (gmap string string) :=
  match keys with
  | [] => mret known
  | (key_id, key) :: keys' =>
      fullmatch KEY_ID_RE key_id;;
      hmac_key key;;
      assert_result (key ≠ signing_key) ValueError;;
      assert_result (Forall (λ kv, kv.2 ≠ key) (map_to_list known)) ValueError;;
      admit_runner_keys signing_key keys' (<[key_id := key]> known)
  end.

Definition ProductionEvidenceSigner_init (trusted : list (string * string)) (key_id key : string)
    (maximum_age maximum_ttl : timedelta) : res ProductionEvidenceSigner :=
  fullmatch KEY_ID_RE key_id;;
  hmac_key key;;
  known ← admit_runner_keys key trusted ∅;
  assert_result (known ≠ ∅) ValueError;;
  assert_result (0 < maximum_age ∧ maximum_age ≤ days 7) ValueError;;
  assert_result (0 < maximum_ttl ∧ maximum_ttl ≤ days 7) ValueError;;
  mret {| runner_keys := known; ps_signing_key_id := key_id; ps_signing_key := key;
          maximum_attestation_age := maximum_age; maximum_evidence_ttl := maximum_ttl |}.

Section signer.
Context (signer : ProductionEvidenceSigner).

(** [_verify_attestation]. *)
Definition verify_attestation (a : LiveArtifactAttestation) (kind : EvidenceArtifactKind.t)
    (context : ReleaseContext) (now : datetime) (observation : option CanaryObservation) : res unit :=
  attestation_valid a;;
  assert_result (a.(artifact_kind) = kind) ValueError;;
  assert_result (a.(la_context) = context) ValueError;;
  assert_result (a.(outcome) = EvidenceRunOutcome.PASSED) ValueError;;
  trusted ← match signer.(runner_keys) !! a.(runner_key_id) with
            | None => mret false
            | Some key => attestation_verify a key
            end;
  assert_result (trusted = true) ValueError;;
  assert_result (a.(la_finished_at) ≤ now) ValueError;;
  assert_result (now - a.(la_finished_at) ≤ signer.(maximum_attestation_age)) ValueError;;
  match observation with
  | None => mret ()
  | Some o => assert_result (a.(la_finished_at) ≤ o.(co_observed_until)) ValueError
  end.

(** [_verify_reports]. *)
Definition verify_reports (capacity_report : CapacityReport) (fault_report : FaultDrillReport)
    (context : ReleaseContext) (capacity fault : LiveArtifactAttestation) : res unit :=
  capacity_report_valid capacity_report;;
  context_valid fault_report.(fd_context);;
  check_all scenario_result_valid fault_report.(fd_results);;
  fault_report_valid fault_report;;
  matches_context ← capacity_matches_context capacity_report context;
  assert_result (matches_context = true) ValueError;;
  assert_result (fault_matches_context fault_report context = true) ValueError;;
  assert_result (capacity_report.(cr_decision).(cd_allowed) = true) ValueError;;
  assert_result (qualifies fault_report = true) ValueError;;
  capacity_sha ← capacity_sha256 capacity_report;
  assert_result (capacity_sha = capacity.(la_report_sha256)) ValueError;;
  fault_sha ← fault_sha256 fault_report;
  assert_result (fault_sha = fault.(la_report_sha256)) ValueError;;
  assert_result (fault_report.(fd_raw_results_sha256) = fault.(la_raw_results_sha256)) ValueError.

(** [sign_shadow_admission]. *)
Definition sign_shadow_admission (context : ReleaseContext) (observation : CanaryObservation)
    (capacity_report : CapacityReport) (fault_report : FaultDrillReport)
    (capacity fault : LiveArtifactAttestation) (now expires_at : datetime)
    (previous : option string) : res SignedAdmissionEvidence :=
  context_valid context;;
  revalidate_observation observation;;
  verify_reports capacity_report fault_report context capacity fault;;
  assert_result (observation.(co_context) = context) ValueError;;
  assert_result (observation.(co_stage) = RolloutStage.SHADOW) ValueError;;
  assert_result (observation.(co_observed_until) ≤ now) ValueError;;
  assert_result (now < expires_at) ValueError;;
  latest ← datetime_plus now signer.(maximum_evidence_ttl);
  assert_result (expires_at ≤ latest) ValueError;;
  verify_attestation capacity EvidenceArtifactKind.CAPACITY context now (Some observation);;
  verify_attestation fault EvidenceArtifactKind.FAULT_DRILL context now (Some observation);;
  assert_result (capacity.(runner_key_id) ≠ fault.(runner_key_id)) ValueError;;
  artifact ← capacity_sha256 capacity_report;
  e ← envelope_sign observation artifact expires_at signer.(ps_signing_key_id)
        signer.(ps_signing_key) previous;
  evidence ← envelope_sha256 e;
  capacity_sha ← attestation_sha256 capacity;
  fault_sha ← attestation_sha256 fault;
  r ← receipt_sign context evidence capacity_sha fault_sha now signer.(ps_signing_key_id)
        signer.(ps_signing_key);
  mret {| envelope := e; capacity_attestation := capacity; fault_attestation := fault; receipt := r |}.

(** The body of [verify_package] inside its [try]. *)
Definition verify_package_body (p : SignedAdmissionEvidence) (context : ReleaseContext)
    (now : datetime) : res bool :=
  let e := p.(envelope) in
  let r := p.(receipt) in
  context_valid context;;
  envelope_valid e;;
  receipt_valid r;;
  if decide (e.(ee_context) ≠ context ∨ r.(sr_context) ≠ context) then mret false
  else if decide (e.(ee_key_id) ≠ signer.(ps_signing_key_id)) then mret false
  else
    envelope_ok ← envelope_verify e signer.(ps_signing_key);
    if negb envelope_ok then mret false
    else if decide (now < e.(ee_observed_until)) then mret false
    else if decide (e.(ee_expires_at) ≤ now) then mret false
    else if decide (r.(signing_key_id) ≠ signer.(ps_signing_key_id)) then mret false
    else
      receipt_ok ← receipt_verify r signer.(ps_signing_key);
      if negb receipt_ok then mret false
      else if decide (now < r.(signed_at)) then mret false
      else
        evidence ← envelope_sha256 e;
        if decide (r.(sr_evidence_sha256) ≠ evidence) then mret false
        else
          capacity_sha ← attestation_sha256 p.(capacity_attestation);
          if decide (r.(capacity_attestation_sha256) ≠ capacity_sha) then mret false
          else
            fault_sha ← attestation_sha256 p.(fault_attestation);
            if decide (r.(fault_attestation_sha256) ≠ fault_sha) then mret false
            else if decide (e.(artifact_sha256) ≠ p.(capacity_attestation).(la_report_sha256))
            then mret false
            else if decide (p.(capacity_attestation).(runner_key_id)
                            = p.(fault_attestation).(runner_key_id)) then mret false
            else
              verify_attestation p.(capacity_attestation) EvidenceArtifactKind.CAPACITY context
                r.(signed_at) None;;
              verify_attestation p.(fault_attestation) EvidenceArtifactKind.FAULT_DRILL context
                r.(signed_at) None;;
              mret true.

(** [verify_package]: an AttributeError, TypeError or ValueError means False. *)
Definition verify_package (p : SignedAdmissionEvidence) (context : ReleaseContext) (now : datetime)
    : res bool :=
  match verify_package_body p context now with
  | Err e => if is_invalid e || bool_decide (e = AttributeError) then mret false else Err e
  | ok => ok
  end.
End signer.
End signing.
