(* ===== verification/CanaryLifecycle.v ===== *)
(** * CanaryLifecycle: the coordinator of the canary ladder
    (src/forge_replay/production/canary_lifecycle.py)

    The state a control plane keeps for a capability, and the coordinator that advances it
    by one decision: a promotion needs the signed convergence of every instance, fresh
    signed evidence and the retained admission package; live telemetry is a chain of signed
    contiguous windows; a failure rolls back to a stage that serves nobody and starts a
    cooldown. *)

From S2P Require Import Prelude Text Domain Platform Json Datetime Rollout Capacity Canary EvidenceSigning.
From Corelib Require Import SpecFloat.

#[local] Open Scope Z_scope.

Definition INVENTORY_DOMAIN : string := domain "forge-replay:canary-generation-inventory:v1".
Definition INVENTORY_REVISION_RE : string → bool := KEY_ID_RE.

Definition REQUIRED_SAFETY_PROBES : list string :=
  ["committed_fact_loss"; "duplicate_external_effects"; "approval_bypasses"; "budget_bypasses";
   "authorization_bypasses"; "cross_tenant_or_pool_leaks"; "stale_fence_accepts";
   "prompt_integrity_violations"].

(** ** Convergence of the instances *)

Record AppliedInstanceGeneration := { instance_id : string; ai_generation : Z }.

(** [AppliedInstanceGeneration.__post_init__]. *)
Definition applied_instance_valid (i : AppliedInstanceGeneration) : res unit :=
  validate_identity i.(instance_id);; positive_int i.(ai_generation).

Record GenerationConvergence := {
  gc_context : ReleaseContext;
  manifest_generation : Z;
  manifest_sha256 : string;
  inventory_revision : string;
  expected_instance_ids : list string;
  applied_instances : list AppliedInstanceGeneration;
  observed_at : datetime;
  inventory_key_id : string;
  gc_signature : string;
  gc_schema_version : Z;
}.

#[global] Instance GenerationConvergence_eta : Eta GenerationConvergence := λ c,
  Build_GenerationConvergence c.(gc_context) c.(manifest_generation) c.(manifest_sha256)
    c.(inventory_revision) c.(expected_instance_ids) c.(applied_instances) c.(observed_at)
    c.(inventory_key_id) c.(gc_signature) c.(gc_schema_version).

(** [GenerationConvergence.__post_init__]. *)
Definition convergence_valid (c : GenerationConvergence) : res unit :=
  context_valid c.(gc_context);;
  positive_int c.(manifest_generation);;
  fullmatch SHA256_RE c.(manifest_sha256);;
  fullmatch INVENTORY_REVISION_RE c.(inventory_revision);;
  fullmatch KEY_ID_RE c.(inventory_key_id);;
  fullmatch SHA256_RE c.(gc_signature);;
  assert_result (c.(gc_schema_version) = 1) ValueError;;
  assert_result (c.(expected_instance_ids) ≠ []) ValueError;;
  assert_result (NoDup c.(expected_instance_ids)) ValueError;;
  check_all (λ i, applied_instance_valid {| instance_id := i; ai_generation := 1 |})
    c.(expected_instance_ids);;
  check_all applied_instance_valid c.(applied_instances);;
  assert_result (NoDup (map instance_id c.(applied_instances))) ValueError.

Definition applied_instance_json (i : AppliedInstanceGeneration) : json :=
  JObj [("instance_id", JStr i.(instance_id)); ("generation", JInt i.(ai_generation))].

(** [_signed_payload()]. *)
Definition convergence_payload (c : GenerationConvergence) : json :=
  JObj [("applied_instances", JArr (map applied_instance_json c.(applied_instances)));
        ("context", context_payload c.(gc_context));
        ("expected_instance_ids", JArr (map JStr c.(expected_instance_ids)));
        ("inventory_key_id", JStr c.(inventory_key_id));
        ("inventory_revision", JStr c.(inventory_revision));
        ("manifest_generation", JInt c.(manifest_generation));
        ("manifest_sha256", JStr c.(manifest_sha256));
        ("observed_at", JStr (isoformat_z c.(observed_at)));
        ("schema_version", JInt c.(gc_schema_version))].

(** [applied_mapping], a dictionary. *)
Definition applied_mapping (c : GenerationConvergence) : list (string * Z) :=
  dict_of_pairs (map (λ i, (i.(instance_id), i.(ai_generation))) c.(applied_instances)).

(** The authorization as [_manifest_sha256] prints it, with its sort key. *)
Definition manifest_entry (a : RolloutAuthorization) : string * json :=
  (value a.(ra_capability),
   JObj [("capability", JStr (value a.(ra_capability))); ("context", context_payload a.(ra_context));
         ("evidence_sha256", opt_str a.(ra_evidence_sha256));
         ("issued_at", JStr (isoformat_z a.(ra_issued_at))); ("stage", JStr (value a.(ra_stage)))]).

Section convergence.
Context `{Platform} `{Signing}.

(** [_manifest_sha256(manifest)]. *)
Definition manifest_digest (m : RolloutManifest) : res string :=
  manifest_valid m;;
  digest (JObj [("authorizations", JArr (sort_keys (map manifest_entry m.(authorizations))).*2);
                ("context", context_payload m.(rm_context)); ("generation", JInt m.(rm_generation))]).

(** [GenerationConvergence.sign]. *)
Definition convergence_sign (m : RolloutManifest) (revision : string) (expected : list string)
    (applied : list AppliedInstanceGeneration) (at_time : datetime) (key_id key : string)
    : res GenerationConvergence :=
  hmac_key key;;
  manifest_sha ← manifest_digest m;
  let unsigned := {|
    gc_context := m.(rm_context); manifest_generation := m.(rm_generation);
    manifest_sha256 := manifest_sha; inventory_revision := revision;
    expected_instance_ids := expected; applied_instances := applied; observed_at := at_time;
    inventory_key_id := key_id; gc_signature := zero_signature; gc_schema_version := 1 |} in
  convergence_valid unsigned;;
  signature ← keyed_digest key INVENTORY_DOMAIN (convergence_payload unsigned);
  let signed := unsigned <| gc_signature := signature |> in
  convergence_valid signed;;
  mret signed.

(** [convergence.verify(key)]. *)
Definition convergence_verify (c : GenerationConvergence) (key : string) : res bool :=
  convergence_valid c;;
  hmac_key key;;
  expected ← keyed_digest key INVENTORY_DOMAIN (convergence_payload c);
  compare_digest expected c.(gc_signature).

(** [matches]: the conjunction stops at the first false operand. *)
Definition convergence_matches (c : GenerationConvergence) (m : RolloutManifest) (now : datetime)
    (trusted_keys : gmap string string) (maximum_age : timedelta) : res bool :=
  manifest_valid m;;
  convergence_valid c;;
  match trusted_keys !! c.(inventory_key_id) with
  | None => mret false
  | Some key =>
      verified ← convergence_verify c key;
      if negb (verified && bool_decide (c.(gc_context) = m.(rm_context))
               && bool_decide (c.(manifest_generation) = m.(rm_generation))) then mret false
      else
        manifest_sha ← manifest_digest m;
        mret (bool_decide (c.(manifest_sha256) = manifest_sha)
              && bool_decide (c.(observed_at) ≤ now)
              && bool_decide (now - c.(observed_at) ≤ maximum_age)
              && bool_decide ((list_to_set c.(expected_instance_ids) : gset string)
                              = list_to_set (map instance_id c.(applied_instances)))
              && bool_decide (Forall (λ i, i.(ai_generation) = m.(rm_generation)) c.(applied_instances)))
  end.
End convergence.

(** ** The admission package and the safety snapshot *)

Record Phase42AdmissionBundle := {
  signed : SignedAdmissionEvidence;
  capacity_report : CapacityReport;
  fault_report : FaultDrillReport;
}.

Record CanarySafetySnapshot := {
  ss_capability : RedisCapability.t;
  ss_context : ReleaseContext;
  ss_stage : RolloutStage.t;
  ss_observed_from : datetime;
  ss_observed_until : datetime;
  ss_hard_safety : HardSafetyCounters;
  committed_fact_loss : Z;
  completed_probes : list string;
  ss_schema_version : Z;
}.

(** [CanarySafetySnapshot.__post_init__]. *)
Definition snapshot_valid (s : CanarySafetySnapshot) : res unit :=
  context_valid s.(ss_context);;
  assert_result (s.(ss_observed_from) < s.(ss_observed_until)) ValueError;;
  counters_valid s.(ss_hard_safety);;
  non_negative_int s.(committed_fact_loss);;
  assert_result (NoDup s.(completed_probes)) ValueError;;
  assert_result (s.(ss_schema_version) = 1) ValueError.

(** [coverage_complete]. *)
Definition coverage_complete (s : CanarySafetySnapshot) : bool :=
  bool_decide ((list_to_set s.(completed_probes) : gset string) = list_to_set REQUIRED_SAFETY_PROBES).

Definition snapshot_json (s : CanarySafetySnapshot) : json :=
  JObj [("capability", JStr (value s.(ss_capability)));
        ("committed_fact_loss", JInt s.(committed_fact_loss));
        ("completed_probes", JArr (map JStr s.(completed_probes)));
        ("context", context_payload s.(ss_context)); ("hard_safety", counters_json s.(ss_hard_safety));
        ("observed_from", JStr (isoformat_z s.(ss_observed_from)));
        ("observed_until", JStr (isoformat_z s.(ss_observed_until)));
        ("schema_version", JInt s.(ss_schema_version)); ("stage", JStr (value s.(ss_stage)))].

(** The [sha256] property. *)
Definition snapshot_sha256 `{Platform} (s : CanarySafetySnapshot) : res string :=
  snapshot_valid s;; digest (snapshot_json s).

(** ** The state *)

Record VerifiedSoftBreachWindow := {
  bw_evidence_sha256 : string;
  bw_observed_from : datetime;
  bw_observed_until : datetime;
  bw_reasons : list string;
}.

(** [VerifiedSoftBreachWindow.__post_init__]. *)
Definition window_valid (w : VerifiedSoftBreachWindow) : res unit :=
  fullmatch SHA256_RE w.(bw_evidence_sha256);;
  assert_result (w.(bw_observed_from) < w.(bw_observed_until)) ValueError;;
  assert_result (w.(bw_reasons) ≠ []) ValueError;;
  assert_result (NoDup w.(bw_reasons) ∧ Forall (λ r, r ∈ SOFT_SLO_REASONS) w.(bw_reasons)) ValueError.

Record CanaryLifecycleState := {
  manifest : RolloutManifest;
  capability : RedisCapability.t;
  cooldown_until : option datetime;
  soft_breach_windows : list VerifiedSoftBreachWindow;
  state_revision : Z;
  serving_expires_at : option datetime;
  last_health_evidence_sha256 : option string;
  last_health_observed_until : option datetime;
  last_rollback_at : option datetime;
  last_admission_sha256 : option string;
}.

#[global] Instance CanaryLifecycleState_eta : Eta CanaryLifecycleState := λ s,
  Build_CanaryLifecycleState s.(manifest) s.(capability) s.(cooldown_until) s.(soft_breach_windows)
    s.(state_revision) s.(serving_expires_at) s.(last_health_evidence_sha256)
    s.(last_health_observed_until) s.(last_rollback_at) s.(last_admission_sha256).

(** The properties [authorization] and [stage]. *)
Definition authorization (s : CanaryLifecycleState) : option RolloutAuthorization :=
  authorization_for s.(manifest) s.(capability).

Definition stage (s : CanaryLifecycleState) : RolloutStage.t :=
  from_option ra_stage RolloutStage.OFF (authorization s).

(** Every window begins where the one before it ends. *)
Fixpoint contiguous (l : list VerifiedSoftBreachWindow) : bool :=
  match l with
  | v :: (w :: _) as l' =>
      bool_decide (v.(bw_observed_until) = w.(bw_observed_from)) && contiguous l'
  | _ => true
  end.

(** [CanaryLifecycleState.__post_init__]. *)
Definition state_valid (s : CanaryLifecycleState) : res unit :=
  manifest_valid s.(manifest);;
  optional (fullmatch SHA256_RE) s.(last_health_evidence_sha256);;
  optional (fullmatch SHA256_RE) s.(last_admission_sha256);;
  assert_result (bool_decide (s.(last_health_evidence_sha256) = None)
                 = bool_decide (s.(last_health_observed_until) = None)) ValueError;;
  non_negative_int s.(state_revision);;
  check_all window_valid s.(soft_breach_windows);;
  assert_result (contiguous s.(soft_breach_windows) = true) ValueError;;
  match last s.(soft_breach_windows) with
  | None => mret ()
  | Some w => assert_result (s.(last_health_evidence_sha256) = Some w.(bw_evidence_sha256)
                             ∧ s.(last_health_observed_until) = Some w.(bw_observed_until)) ValueError
  end;;
  assert_result (¬ (RolloutStage.dark (stage s) = true ∧ s.(serving_expires_at) ≠ None)) ValueError;;
  assert_result (¬ (RolloutStage.dark (stage s) = true
                    ∧ (s.(soft_breach_windows) ≠ [] ∨ s.(last_health_evidence_sha256) ≠ None
                       ∨ s.(last_health_observed_until) ≠ None))) ValueError;;
  assert_result (bool_decide (s.(cooldown_until) = None) = bool_decide (s.(last_rollback_at) = None))
    ValueError;;
  match s.(cooldown_until), s.(last_rollback_at) with
  | Some until, Some rollback => assert_result (minutes 30 ≤ until - rollback) ValueError
  | _, _ => mret ()
  end.

(** [CanaryLifecycleState(...)]. *)
Definition CanaryLifecycleState_init (s : CanaryLifecycleState) : res CanaryLifecycleState :=
  state_valid s;; mret s.

(** ** Decisions *)

Record CanaryLifecycleDecision := {
  ld_allowed : bool;
  ld_reasons : list string;
  ld_state : CanaryLifecycleState;
  expected_state_revision : Z;
  rollback_stage : option RolloutStage.t;
  expected_inventory_revision : option string;
  state_changed : bool;   (** and [must_persist], which has the same value *)
}.

(** [CanaryLifecycleDecision(...)] with its [__post_init__]. *)
Definition CanaryLifecycleDecision_init (allowed : bool) (reasons : list string)
    (s : CanaryLifecycleState) (expected : Z) (rollback : option RolloutStage.t)
    (inventory : option string) : res CanaryLifecycleDecision :=
  assert_result (Forall (λ r, r ≠ "") reasons) TypeError;;
  assert_result (allowed = bool_decide (reasons = [])) ValueError;;
  state_valid s;;
  non_negative_int expected;;
  assert_result (s.(state_revision) = expected ∨ s.(state_revision) = expected + 1) ValueError;;
  assert_result (from_option RolloutStage.dark true rollback = true) ValueError;;
  optional (fullmatch INVENTORY_REVISION_RE) inventory;;
  mret {| ld_allowed := allowed; ld_reasons := reasons; ld_state := s;
          expected_state_revision := expected; rollback_stage := rollback;
          expected_inventory_revision := inventory;
          state_changed := bool_decide (s.(state_revision) = expected + 1) |}.

(** [_denied(state, reason, expected_inventory_revision)]. *)
Definition lifecycle_denied (s : CanaryLifecycleState) (reason : string) (inventory : option string)
    : res CanaryLifecycleDecision :=
  CanaryLifecycleDecision_init false [reason] s s.(state_revision) None inventory.

(** A decision that leaves the state as it is. *)
Definition unchanged (s : CanaryLifecycleState) : res CanaryLifecycleDecision :=
  CanaryLifecycleDecision_init true [] s s.(state_revision) None None.

(** ** The coordinator *)

Record CanaryLifecycleCoordinator := {
  lc_gate : UnifiedCanaryGate;
  admission_verifier : ProductionEvidenceSigner;
  trusted_inventory_keys : gmap string string;
  cooldown : timedelta;
  maximum_convergence_age : timedelta;
  soft_breach_windows_required : Z;
}.

(** [CanaryLifecycleCoordinator(...)]. *)
Definition CanaryLifecycleCoordinator_init (gate : UnifiedCanaryGate)
    (verifier : ProductionEvidenceSigner) (keys : gmap string string)
    (cooldown_time maximum_age : timedelta) (windows_required : Z) : res CanaryLifecycleCoordinator :=
  check_all (λ kv, fullmatch KEY_ID_RE kv.1;; hmac_key kv.2) (map_to_list keys);;
  assert_result (keys ≠ ∅) ValueError;;
  assert_result (minutes 30 ≤ cooldown_time) ValueError;;
  assert_result (0 < maximum_age ∧ maximum_age ≤ minutes 15) ValueError;;
  assert_result (2 ≤ windows_required) ValueError;;
  mret {| lc_gate := gate; admission_verifier := verifier; trusted_inventory_keys := keys;
          cooldown := cooldown_time; maximum_convergence_age := maximum_age;
          soft_breach_windows_required := windows_required |}.

Section coordinator.
Context `{Platform} `{Signing} (self : CanaryLifecycleCoordinator).

(** [_rollback]. *)
Definition rollback (s : CanaryLifecycleState) (now : datetime) (target : RolloutStage.t)
    (reasons : list string) (inventory : option string) : res CanaryLifecycleDecision :=
  a ← RolloutAuthorization_init s.(capability) s.(manifest).(rm_context) target now None;
  m ← manifest_apply s.(manifest) a s.(manifest).(rm_generation) [] [];
  until ← datetime_plus now self.(cooldown);
  rolled_back ← CanaryLifecycleState_init {|
    manifest := m; capability := s.(capability); cooldown_until := Some until;
    soft_breach_windows := []; state_revision := s.(state_revision) + 1;
    serving_expires_at := None; last_health_evidence_sha256 := None;
    last_health_observed_until := None; last_rollback_at := Some now;
    last_admission_sha256 := s.(last_admission_sha256) |};
  CanaryLifecycleDecision_init false reasons rolled_back s.(state_revision) (Some target) inventory.

(** [_parse_timestamp(value)]. *)
Definition parse_timestamp (text : string) : res datetime :=
  match parse_z text with
  | Some (t, Some offset) => assert_result (offset = 0) ValueError;; mret t
  | _ => Err ValueError
  end.

(** What the [try] of [_validate_admission_package] computes. *)
Definition admission_facts (bundle : Phase42AdmissionBundle) (context : ReleaseContext)
    (now : datetime) : res (bool * string * string * list datetime) :=
  package_valid ← verify_package self.(admission_verifier) bundle.(signed) context now;
  capacity_report_valid bundle.(capacity_report);;
  fault_report_valid bundle.(fault_report);;
  capacity_sha ← capacity_sha256 bundle.(capacity_report);
  fault_sha ← fault_sha256 bundle.(fault_report);
  generated ← parse_timestamp bundle.(capacity_report).(cr_generated_at);
  started ← parse_timestamp bundle.(fault_report).(fd_started_at);
  finished ← parse_timestamp bundle.(fault_report).(fd_finished_at);
  mret (package_valid, capacity_sha, fault_sha, [generated; started; finished]).

(** Some time of the list is at or before the last rollback. *)
Definition predates_rollback (s : CanaryLifecycleState) (times : list datetime) : bool :=
  match s.(last_rollback_at) with
  | None => false
  | Some t => existsb (λ u, u <=? t) times
  end.

(** [_validate_admission_package]. *)
Definition validate_admission_package (s : CanaryLifecycleState) (now : datetime)
    (bundle : option Phase42AdmissionBundle) : res (list string) :=
  match bundle with
  | None => mret ["signed_admission_package_required"]
  | Some bundle =>
      let package := bundle.(signed) in
      let context := s.(manifest).(rm_context) in
      match admission_facts bundle context now with
      | Err e => if is_invalid e || bool_decide (e = AttributeError)
                 then mret ["signed_admission_package_invalid"] else Err e
      | Ok (package_valid, capacity_sha, fault_sha, report_times) =>
          envelope_sha ← envelope_sha256 package.(envelope);
          capacity_matches ← capacity_matches_context bundle.(capacity_report) context;
          mret (deduplicate (
            flag (negb package_valid) "signed_admission_package_invalid"
            ++ flag (bool_decide (s.(last_admission_sha256) = Some envelope_sha))
                 "admission_evidence_replayed"
            ++ flag (predates_rollback s [package.(receipt).(signed_at);
                                          package.(envelope).(ee_observed_from)])
                 "admission_evidence_predates_rollback"
            ++ flag (predates_rollback s
                       ([package.(capacity_attestation).(la_started_at);
                         package.(fault_attestation).(la_started_at);
                         package.(capacity_attestation).(la_finished_at);
                         package.(fault_attestation).(la_finished_at)] ++ report_times))
                 "phase42_artifacts_predate_rollback"
            ++ flag (negb capacity_matches) "capacity_context_mismatch"
            ++ flag (negb bundle.(capacity_report).(cr_decision).(cd_allowed)) "capacity_gate_failed"
            ++ flag (bool_decide (capacity_sha ≠ package.(capacity_attestation).(la_report_sha256)))
                 "capacity_attestation_digest_mismatch"
            ++ flag (bool_decide (package.(envelope).(artifact_sha256) ≠ capacity_sha))
                 "capacity_envelope_digest_mismatch"
            ++ flag (negb (fault_matches_context bundle.(fault_report) context))
                 "fault_context_mismatch"
            ++ flag (negb (qualifies bundle.(fault_report))) "fault_gate_failed"
            ++ flag (bool_decide (fault_sha ≠ package.(fault_attestation).(la_report_sha256)))
                 "fault_attestation_digest_mismatch"
            ++ flag (bool_decide (bundle.(fault_report).(fd_raw_results_sha256)
                                  ≠ package.(fault_attestation).(la_raw_results_sha256)))
                 "fault_raw_results_digest_mismatch"))
      end
  end.

(** [_validate_safety_snapshot]. *)
Definition validate_safety_snapshot (s : CanaryLifecycleState) (o : CanaryObservation)
    (e : SignedEvidenceEnvelope) (snapshot : option CanarySafetySnapshot) : res (list string) :=
  match snapshot with
  | None => mret ["safety_snapshot_required"]
  | Some x =>
      match snapshot_valid x with
      | Err e => if is_invalid e then mret ["safety_snapshot_invalid"] else Err e
      | Ok _ =>
          sha ← snapshot_sha256 x;
          mret (
            flag (bool_decide (x.(ss_capability) ≠ s.(capability))
                  || bool_decide (x.(ss_context) ≠ s.(manifest).(rm_context))
                  || bool_decide (x.(ss_stage) ≠ stage s)
                  || bool_decide (x.(ss_observed_from) ≠ o.(co_observed_from))
                  || bool_decide (x.(ss_observed_until) ≠ o.(co_observed_until))
                  || bool_decide (x.(ss_hard_safety) ≠ o.(co_hard_safety)))
              "safety_snapshot_mismatch"
            ++ flag (bool_decide (e.(artifact_sha256) ≠ sha)) "safety_snapshot_digest_mismatch"
            ++ flag (negb (coverage_complete x)) "safety_coverage_incomplete"
            ++ flag (negb (x.(committed_fact_loss) =? 0)) "committed_fact_loss"
            ++ flag (negb (counters_total x.(ss_hard_safety) =? 0)) "hard_safety_violation")
      end
  end.

(** A reason that turns the capability off. *)
Definition hard_reasons (reasons : list string) : bool :=
  bool_decide ("committed_fact_loss" ∈ reasons ∨ "hard_safety_violation" ∈ reasons).

(** [_append_continuous_window]. *)
Definition append_continuous_window (retained : list VerifiedSoftBreachWindow)
    (e : SignedEvidenceEnvelope) (o : CanaryObservation) (reasons : list string)
    : res (list VerifiedSoftBreachWindow * option string) :=
  sha ← envelope_sha256 e;
  let window := {| bw_evidence_sha256 := sha; bw_observed_from := o.(co_observed_from);
                   bw_observed_until := o.(co_observed_until); bw_reasons := reasons |} in
  window_valid window;;
  match last retained with
  | None => mret ([window], None)
  | Some previous =>
      mret (if decide (previous.(bw_evidence_sha256) = window.(bw_evidence_sha256))
            then (retained, Some "health_window_replayed")
            else if decide (window.(bw_observed_from) < previous.(bw_observed_until))
            then (retained, Some "health_window_overlap_or_out_of_order")
            else if decide (previous.(bw_observed_until) < window.(bw_observed_from))
            then (retained, Some "health_window_gap")
            else (retained ++ [window], None))
  end.

(** The checks of [observe_health] on the chain of windows: the reason to roll back. *)
Definition window_break (s : CanaryLifecycleState) (current : RolloutAuthorization)
    (o : CanaryObservation) (e : SignedEvidenceEnvelope) : option string :=
  let expected_previous := match s.(last_health_evidence_sha256) with
                           | Some sha => Some sha
                           | None => current.(ra_evidence_sha256)
                           end in
  if decide (e.(previous_evidence_sha256) ≠ expected_previous)
  then Some "health_evidence_chain_mismatch"
  else match s.(last_health_observed_until) with
       | None => None
       | Some until =>
           if decide (o.(co_observed_from) < until)
           then Some "health_window_overlap_or_out_of_order"
           else if decide (until < o.(co_observed_from)) then Some "health_window_gap"
           else None
       end.

(** [observe_health] once the window continues the chain. *)
Definition observe_window (s : CanaryLifecycleState) (current : RolloutAuthorization)
    (now : datetime) (o : CanaryObservation) (e : SignedEvidenceEnvelope)
    (snapshot : option CanarySafetySnapshot) : res CanaryLifecycleDecision :=
  validation_current ← RolloutAuthorization_init current.(ra_capability) current.(ra_context)
                         current.(ra_stage) current.(ra_issued_at)
                         (match s.(last_health_evidence_sha256) with
                          | Some sha => Some sha
                          | None => current.(ra_evidence_sha256)
                          end);
  health ← evaluate_runtime_health self.(lc_gate) validation_current now e o;
  safety_reasons ← validate_safety_snapshot s o e snapshot;
  if decide (safety_reasons ≠ []) then
    rollback s now (if hard_reasons safety_reasons then RolloutStage.OFF else RolloutStage.SHADOW)
      safety_reasons None
  else if health.(hd_healthy) then
    sha ← envelope_sha256 e;
    if decide (s.(soft_breach_windows) = [] ∧ s.(serving_expires_at) = Some e.(ee_expires_at)
               ∧ s.(last_health_evidence_sha256) = Some sha)
    then unchanged s
    else
      next ← CanaryLifecycleState_init
        (s <| soft_breach_windows := [] |> <| state_revision := s.(state_revision) + 1 |>
           <| serving_expires_at := Some e.(ee_expires_at) |>
           <| last_health_evidence_sha256 := Some sha |>
           <| last_health_observed_until := Some o.(co_observed_until) |>);
      CanaryLifecycleDecision_init true [] next s.(state_revision) None None
  else
    let reasons := health.(hd_reasons) in
    if decide ("hard_safety_violation" ∈ reasons) then rollback s now RolloutStage.OFF reasons None
    else if decide (Forall (λ r, r ∈ SOFT_SLO_REASONS) reasons) then
      appended ← append_continuous_window s.(soft_breach_windows) e o reasons;
      let '(windows, continuity_failure) := appended in
      match continuity_failure with
      | Some failure => rollback s now RolloutStage.SHADOW [failure] None
      | None =>
          sha ← envelope_sha256 e;
          let retained :=
            s <| soft_breach_windows := windows |> <| last_health_evidence_sha256 := Some sha |>
              <| last_health_observed_until := Some o.(co_observed_until) |> in
          if decide (Z.of_nat (length windows) < self.(soft_breach_windows_required)) then
            next ← CanaryLifecycleState_init
              (retained <| state_revision := s.(state_revision) + 1 |>);
            CanaryLifecycleDecision_init false reasons next s.(state_revision) None None
          else
            checked ← CanaryLifecycleState_init retained;
            rollback checked now RolloutStage.SHADOW reasons None
      end
    else rollback s now RolloutStage.SHADOW reasons None.

(** [observe_health]. *)
Definition observe_health (s : CanaryLifecycleState) (now : datetime) (o : CanaryObservation)
    (e : SignedEvidenceEnvelope) (snapshot : option CanarySafetySnapshot)
    : res CanaryLifecycleDecision :=
  state_valid s;;
  match authorization s with
  | None => unchanged s
  | Some current =>
      if RolloutStage.dark current.(ra_stage) then unchanged s
      else match s.(serving_expires_at) with
           | None => rollback s now RolloutStage.SHADOW ["serving_expiry_missing"] None
           | Some expiry =>
               if decide (expiry ≤ now)
               then rollback s now RolloutStage.SHADOW ["serving_authorization_expired"] None
               else match window_break s current o e with
                    | Some reason => rollback s now RolloutStage.SHADOW [reason] None
                    | None => observe_window s current now o e snapshot
                    end
           end
  end.

(** What [advance] receives besides the state, the target and the time. *)
Record AdvanceInputs := {
  convergence : option GenerationConvergence;
  current_inventory_revision : option string;
  observation : option CanaryObservation;
  evidence : option SignedEvidenceEnvelope;
  admission_bundle : option Phase42AdmissionBundle;
  safety_snapshot : option CanarySafetySnapshot;
}.

Definition serving_upgrade (s : CanaryLifecycleState) (target : RolloutStage.t) : bool :=
  fgt (RolloutStage.percent target) (RolloutStage.percent (stage s)).

Definition serving (x : RolloutStage.t) : bool := fgt (RolloutStage.percent x) (f64 0).

(** The expiry checks: the reason to roll back. *)
Definition expiry_failure (s : CanaryLifecycleState) (target : RolloutStage.t) (now : datetime)
    : option string :=
  if serving (stage s) && fge (RolloutStage.percent target) (RolloutStage.percent (stage s)) then
    match s.(serving_expires_at) with
    | None => Some "serving_expiry_missing"
    | Some expiry => if decide (expiry ≤ now) then Some "serving_authorization_expired" else None
    end
  else None.

(** The checks of a promotion that serves traffic: the reason to refuse it. *)
Definition convergence_refusal (s : CanaryLifecycleState) (now : datetime) (inputs : AdvanceInputs)
    : res (option string) :=
  if match s.(cooldown_until) with Some until => bool_decide (now < until) | None => false end
  then mret (Some "rollback_cooldown_active")
  else
    match inputs.(convergence), inputs.(current_inventory_revision) with
    | None, _ => mret (Some "generation_convergence_required")
    | Some _, None => mret (Some "current_inventory_revision_required")
    | Some c, Some revision =>
        if negb (INVENTORY_REVISION_RE revision) || bool_decide (revision ≠ c.(inventory_revision))
        then mret (Some "inventory_revision_stale")
        else
          converged ← convergence_matches c s.(manifest) now self.(trusted_inventory_keys)
                        self.(maximum_convergence_age);
          mret (if converged : bool then None else Some "generation_not_converged")
    end.

(** The first checks of a promotion from one serving stage to the next. *)
Definition promotion_refusal (s : CanaryLifecycleState) (inputs : AdvanceInputs)
    (selected : option SignedEvidenceEnvelope) : res (option string) :=
  if decide (s.(soft_breach_windows) ≠ []) then mret (Some "unresolved_soft_breach_windows")
  else
    match inputs.(observation), selected with
    | Some _, Some e =>
        match s.(last_health_evidence_sha256) with
        | None => mret (Some "verified_health_evidence_required")
        | Some accepted =>
            sha ← envelope_sha256 e;
            mret (if decide (sha ≠ accepted) then Some "promotion_health_evidence_fork" else None)
        end
    | _, _ => mret (Some "signed_safety_snapshot_required")
    end.

(** The state after an allowed transition. *)
Definition advanced_state (s : CanaryLifecycleState) (target : RolloutStage.t) (now : datetime)
    (m : RolloutManifest) (selected : option SignedEvidenceEnvelope) : res CanaryLifecycleState :=
  let serving_downgrade :=
    serving (stage s) && flt (RolloutStage.percent target) (RolloutStage.percent (stage s)) in
  admission ← (if decide (target = RolloutStage.CANARY_1 ∧ stage s = RolloutStage.SHADOW) then
                 match selected with
                 | Some e => sha ← envelope_sha256 e; mret (Some sha)
                 | None => mret s.(last_admission_sha256)
                 end
               else mret s.(last_admission_sha256));
  next ← CanaryLifecycleState_init {|
    manifest := m; capability := s.(capability); cooldown_until := s.(cooldown_until);
    soft_breach_windows := []; state_revision := s.(state_revision) + 1;
    serving_expires_at :=
      match (if serving_upgrade s target && serving target then selected else None) with
      | Some e => Some e.(ee_expires_at)
      | None => if serving_downgrade || feq (RolloutStage.percent target) (f64 0) then None
                else s.(serving_expires_at)
      end;
    last_health_evidence_sha256 := None; last_health_observed_until := None;
    last_rollback_at := s.(last_rollback_at); last_admission_sha256 := admission |};
  if serving_downgrade then
    until ← datetime_plus now self.(cooldown);
    CanaryLifecycleState_init (next <| cooldown_until := Some until |> <| last_rollback_at := Some now |>)
  else mret next.

(** [advance] from the gate on. *)
Definition advance_gate (s : CanaryLifecycleState) (target : RolloutStage.t) (now : datetime)
    (inputs : AdvanceInputs) (selected : option SignedEvidenceEnvelope) (inventory : option string)
    : res CanaryLifecycleDecision :=
  gate_current ← match authorization s, selected with
                 | Some current, Some e =>
                     if serving_upgrade s target && serving (stage s) then
                       a ← RolloutAuthorization_init current.(ra_capability) current.(ra_context)
                             current.(ra_stage) current.(ra_issued_at) e.(previous_evidence_sha256);
                       mret (Some a)
                     else mret (Some current)
                 | current, _ => mret current
                 end;
  decision ← evaluate_transition self.(lc_gate) s.(capability) s.(manifest).(rm_context) gate_current
               target now selected inputs.(observation) (capacity_report <$> inputs.(admission_bundle));
  match (if decision.(gd_allowed) then decision.(gd_authorization) else None) with
  | Some granted =>
      if decide (target = stage s) then unchanged s
      else
        applied ← match inputs.(convergence) with
                  | Some c => mret (if serving_upgrade s target
                                    then (c.(expected_instance_ids), applied_mapping c) else ([], []))
                  | None => if serving_upgrade s target then Err AssertionError else mret ([], [])
                  end;
        m ← manifest_apply s.(manifest) granted s.(manifest).(rm_generation) applied.1 applied.2;
        next ← advanced_state s target now m selected;
        CanaryLifecycleDecision_init true [] next s.(state_revision) None inventory
  | None =>
      if serving_upgrade s target && serving (stage s) then
        rollback s now
          (if decide ("hard_safety_violation" ∈ decision.(gd_reasons)) then RolloutStage.OFF
           else RolloutStage.SHADOW) decision.(gd_reasons) inventory
      else CanaryLifecycleDecision_init false decision.(gd_reasons) s s.(state_revision) None inventory
  end.

(** [advance] once the evidence is selected. *)
Definition advance_selected (s : CanaryLifecycleState) (target : RolloutStage.t) (now : datetime)
    (inputs : AdvanceInputs) (selected : option SignedEvidenceEnvelope) (inventory : option string)
    : res CanaryLifecycleDecision :=
  if serving_upgrade s target && bool_decide (target ∈ [RolloutStage.CANARY_5; RolloutStage.CANARY_25; RolloutStage.FULL])
  then
    refusal ← promotion_refusal s inputs selected;
    match refusal, inputs.(observation), selected with
    | Some reason, _, _ => lifecycle_denied s reason inventory
    | None, Some o, Some e =>
        safety_reasons ← validate_safety_snapshot s o e inputs.(safety_snapshot);
        if decide (safety_reasons ≠ []) then
          rollback s now
            (if hard_reasons safety_reasons then RolloutStage.OFF else RolloutStage.SHADOW)
            safety_reasons inventory
        else advance_gate s target now inputs selected inventory
    | None, _, _ => Err AssertionError   (* refused before *)
    end
  else advance_gate s target now inputs selected inventory.

(** [advance] once the expiry and the convergence are checked. *)
Definition advance_checked (s : CanaryLifecycleState) (target : RolloutStage.t) (now : datetime)
    (inputs : AdvanceInputs) (inventory : option string) : res CanaryLifecycleDecision :=
  if decide (target = RolloutStage.CANARY_1 ∧ stage s = RolloutStage.SHADOW) then
    reasons ← validate_admission_package s now inputs.(admission_bundle);
    match inputs.(admission_bundle) with
    | Some bundle =>
        if decide (reasons ≠ [])
        then CanaryLifecycleDecision_init false reasons s s.(state_revision) None inventory
        else
          let selected := bundle.(signed).(envelope) in
          if match inputs.(evidence) with Some e => bool_decide (e ≠ selected) | None => false end
          then lifecycle_denied s "admission_envelope_mismatch" None
          else advance_selected s target now inputs (Some selected) inventory
    | None => CanaryLifecycleDecision_init false reasons s s.(state_revision) None inventory
    end
  else advance_selected s target now inputs inputs.(evidence) inventory.

(** [advance]. *)
Definition advance (s : CanaryLifecycleState) (target : RolloutStage.t) (now : datetime)
    (inputs : AdvanceInputs) : res CanaryLifecycleDecision :=
  state_valid s;;
  match expiry_failure s target now with
  | Some reason => rollback s now RolloutStage.SHADOW [reason] None
  | None =>
      if serving_upgrade s target then
        refusal ← convergence_refusal s now inputs;
        match refusal with
        | Some reason => lifecycle_denied s reason None
        | None => advance_checked s target now inputs inputs.(current_inventory_revision)
        end
      else advance_checked s target now inputs None
  end.
End coordinator.

(** ** Serving a tenant *)

Section serving.
Context `{Platform} `{Signing}.

Record LifecycleTenantPolicy := {
  lp_states : list (RedisCapability.t * CanaryLifecycleState);
  lp_expected_context : ReleaseContext;
  lp_cohort_secret : string;
}.

(** [LifecycleTenantPolicy(...)]; the clock is an argument of [allows]. *)
Definition LifecycleTenantPolicy_init (states : list (RedisCapability.t * CanaryLifecycleState))
    (context : ReleaseContext) (secret : string) : res LifecycleTenantPolicy :=
  context_valid context;;
  hmac_key secret;;
  check_all (λ kv, assert_result (kv.2.(capability) = kv.1) ValueError) states;;
  mret {| lp_states := states; lp_expected_context := context; lp_cohort_secret := secret |}.

(** The state of a capability in the dictionary. *)
Definition state_of (p : LifecycleTenantPolicy) (c : RedisCapability.t) : option CanaryLifecycleState :=
  snd <$> head (filter (λ kv, kv.1 = c) p.(lp_states)).

(** [LifecycleTenantPolicy.allows]; [clock] is the reading of the clock, or its exception. *)
Definition lifecycle_allows (p : LifecycleTenantPolicy) (clock : res datetime)
    (c : RedisCapability.t) (tenant_id : string) : res bool :=
  match state_of p c with
  | None => mret false
  | Some s =>
      match (state_valid s;; clock) with
      | Err e => if is_invalid e then mret false else Err e
      | Ok now =>
          if decide (s.(manifest).(rm_context) ≠ p.(lp_expected_context)) then mret false
          else if RolloutStage.dark (stage s) then mret false
          else match s.(serving_expires_at) with
               | None => mret false
               | Some expiry =>
                   if decide (expiry ≤ now) then mret false
                   else tenant_in_canary_percent tenant_id (RolloutStage.percent (stage s))
                          p.(lp_cohort_secret) p.(lp_expected_context).(cohort_version)
               end
      end
  end.
End serving.
