(* ===== verification/EvidenceSafety.v ===== *)
(** * EvidenceSafety: what a signature binds and what the signer guarantees

    Signing then verifying succeeds; two envelopes that verify under one signature are the
    same envelope; a signed admission package verifies until its evidence expires. *)

From S2P Require Import Prelude Text Domain Platform Json Datetime Rollout Capacity Canary EvidenceSigning CanaryLifecycle.

#[local] Open Scope Z_scope.

(** ** Inversion of results that are values *)

Lemma mret_Ok {A} (a b : A) : (mret a : res A) = Ok b → a = b.
Proof. unfold mret, result_ret. naive_solver. Qed.

(** [res_inv H] takes a successful computation apart. *)
Ltac res_inv1 H :=
  lazymatch type of H with
  | mbind _ _ = Ok _ =>
      let a := fresh "a" in let Ha := fresh "Ha" in
      apply result_bind_Ok in H as (a & Ha & H); res_inv1 Ha; res_inv1 H
  | assert_result _ _ = Ok _ => apply assert_result_Ok in H
  | fullmatch _ _ = Ok _ => apply assert_result_Ok in H
  | mret _ = Ok _ => apply mret_Ok in H
  | _ => idtac
  end.

Ltac res_inv H := res_inv1 H; simplify_eq.

(** A successful step, put back. *)
Lemma check_all_Ok {A} (check : A → res unit) l u :
  check_all check l = Ok u ↔ Forall (λ x, check x = Ok ()) l.
Proof.
  destruct u. induction l as [|x l IH]; simpl.
  - split; [by constructor|done].
  - rewrite Forall_cons, result_bind_Ok. split.
    + intros ([] & Hx & Hl). split; [done|by apply IH].
    + intros [Hx Hl]. exists (). split; [done|by apply IH].
Qed.

Section signatures.
Context `{Platform} `{Signing}.

Lemma digest_format_ascii n s : hex_format n s = true → all_chars (byte_in 0 127) s = true.
Proof.
  unfold hex_format. intros [_ Hs]%andb_prop. revert Hs.
  induction s as [|a s IH]; simpl; [done|]. intros [Ha Hs]%andb_prop. rewrite IH by done.
  rewrite andb_true_r. unfold decimal_digit, byte_in in *.
  apply orb_prop in Ha as [Ha|Ha]; apply andb_prop in Ha as [? ?%Nat.leb_le];
    apply andb_true_intro; split; apply Nat.leb_le; lia.
Qed.

Lemma compare_digest_refl s : SHA256_RE s = true → compare_digest s s = Ok true.
Proof.
  intros Hs%digest_format_ascii. unfold compare_digest. rewrite assert_ok by done.
  by rewrite bool_decide_true.
Qed.

Lemma compare_digest_true a b : compare_digest a b = Ok true → a = b.
Proof. unfold compare_digest. intros Hc. res_inv Hc. by apply bool_decide_eq_true in Hc. Qed.

(** *** Envelopes *)

Lemma envelope_sign_spec o artifact expires key_id key previous e :
  envelope_sign o artifact expires key_id key previous = Ok e →
  envelope_valid e = Ok () ∧ hmac_key key = Ok ()
  ∧ keyed_digest key EVIDENCE_DOMAIN (JObj (envelope_payload e)) = Ok e.(ee_signature)
  ∧ observation_digest o = Ok e.(observation_sha256)
  ∧ e.(ee_capability) = o.(co_capability) ∧ e.(ee_context) = o.(co_context)
  ∧ e.(artifact_sha256) = artifact ∧ e.(ee_observed_from) = o.(co_observed_from)
  ∧ e.(ee_observed_until) = o.(co_observed_until) ∧ e.(ee_expires_at) = expires
  ∧ e.(tested_stage) = o.(co_stage) ∧ e.(ee_sample_count) = o.(candidate).(sample_count)
  ∧ e.(ee_key_id) = key_id ∧ e.(previous_evidence_sha256) = previous.
Proof.
  unfold envelope_sign. intros Hs.
  apply result_bind_Ok in Hs as ([] & Hkey & Hs).
  apply result_bind_Ok in Hs as (observed & Hobs & Hs).
  apply result_bind_Ok in Hs as ([] & _ & Hs).
  apply result_bind_Ok in Hs as (signature & Hsig & Hs).
  apply result_bind_Ok in Hs as ([] & Hvalid & Hs).
  apply mret_Ok in Hs as <-. by split_and!.
Qed.

(** The [verify] of a [sign]: it only needs the signature to have a digest's format, which
    the constructor of the envelope checks. *)
Lemma envelope_signed_verifies e key :
  envelope_valid e = Ok () → hmac_key key = Ok () →
  keyed_digest key EVIDENCE_DOMAIN (JObj (envelope_payload e)) = Ok e.(ee_signature) →
  envelope_verify e key = Ok true.
Proof.
  intros Hvalid Hkey Hsig. unfold envelope_verify. rewrite (bind_ok _ _ _ Hkey), (bind_ok _ _ _ Hsig).
  apply compare_digest_refl. unfold envelope_valid in Hvalid. by res_inv Hvalid.
Qed.

Lemma envelope_verify_signature e key :
  envelope_verify e key = Ok true →
  keyed_digest key EVIDENCE_DOMAIN (JObj (envelope_payload e)) = Ok e.(ee_signature).
Proof.
  unfold envelope_verify. intros Hv. apply result_bind_Ok in Hv as ([] & _ & Hv).
  apply result_bind_Ok in Hv as (expected & Hexp & Hv). apply compare_digest_true in Hv. congruence.
Qed.

(** *** Signed documents

    A document that is signed under a domain; its payload, a dictionary without floats,
    determines every field but the signature. *)

Class SignedDocument (A : Type) := {
  doc_domain : string;
  doc_payload : A → json;
  doc_signature : A → string;
  doc_verify : A → string → res bool;
  (** its times are datetimes *)
  doc_ok : A → Prop;
  doc_dict a : dict_value (doc_payload a);
  doc_inj a b : doc_ok a → doc_ok b → normalize_json (doc_payload a) = normalize_json (doc_payload b) →
    doc_signature a = doc_signature b → a = b;
  doc_verified a key : doc_verify a key = Ok true →
    keyed_digest key doc_domain (doc_payload a) = Ok (doc_signature a);
}.

(** The message whose keyed digest is the signature. *)
Definition doc_message `{SignedDocument A} (a : A) : string :=
  doc_domain +:+ canonical_json (doc_payload a).

Lemma str_app_inj_l a b c : a +:+ b = a +:+ c → b = c.
Proof. intros Heq. by apply str_app_inj in Heq as [_ ?]. Qed.

Lemma document_binds `{SignedDocument A} (a b : A) key :
  doc_ok a → doc_ok b → doc_verify a key = Ok true → doc_verify b key = Ok true →
  doc_signature a = doc_signature b →
  (hmac_sha256 key (doc_message a) = hmac_sha256 key (doc_message b) → doc_message a = doc_message b) →
  a = b.
Proof.
  intros Ha Hb Hva%doc_verified Hvb%doc_verified Hsig Hcoll. apply doc_inj; [done..| |done].
  unfold keyed_digest, dumps in Hva, Hvb. res_inv Hva. res_inv Hvb.
  assert (doc_message a = doc_message b) as Hm by (apply Hcoll; unfold doc_message in *; congruence).
  unfold doc_message in Hm. apply str_app_inj_l in Hm.
  by apply canonical_json_inj in Hm; [|apply doc_dict..].
Qed.

(** The entries of two objects with the same normal form. *)
Lemma normalize_entries a b k :
  dict_value (JObj a) → dict_value (JObj b) → normalize_json (JObj a) = normalize_json (JObj b) →
  normalize_json <$> dict_get k a = normalize_json <$> dict_get k b.
Proof.
  intros Ha Hb Heq. cbn [normalize_json] in Heq.
  apply dict_value_JObj in Ha as [Ha _]. apply dict_value_JObj in Hb as [Hb _].
  injection Heq as Heq. apply (f_equal (dict_get k)) in Heq.
  rewrite !(λ l Hl, dict_get_perm k _ _ (sort_keys_perm l) Hl) in Heq.
  - by rewrite !dict_get_map in Heq.
  - by rewrite sort_keys_perm, <- list_fmap_compose.
  - by rewrite sort_keys_perm, <- list_fmap_compose.
Qed.

(** [dict_tac] proves that an object with constant keys is a dictionary. *)
Ltac dict_tac :=
  apply dict_value_JObj; split;
  [apply (bool_decide_unpack _); vm_compute; done
  |repeat first [apply Forall_nil_2 | apply Forall_cons_2]; cbn [snd]].

Lemma JStr_inj a b : JStr a = JStr b → a = b.
Proof. congruence. Qed.

Lemma JInt_inj a b : JInt a = JInt b → a = b.
Proof. congruence. Qed.

(** [entry H k as Hk] is the equality of the entries under the key [k]. *)
Tactic Notation "entry" constr(H) constr(k) "as" ident(He) :=
  lazymatch type of H with
  | normalize_json (JObj ?a) = normalize_json (JObj ?b) =>
      assert (normalize_json <$> dict_get k a = normalize_json <$> dict_get k b) as He
        by (apply normalize_entries; assumption);
      cbn [dict_get normalize_json fmap option_fmap option_map String.eqb Ascii.eqb Bool.eqb] in He;
      apply Some_inj in He; try first [apply JStr_inj in He | apply JInt_inj in He]
  end.

Lemma context_payload_dict c : dict_value (context_payload c).
Proof. unfold context_payload. by dict_tac. Qed.

Lemma context_payload_inj c d :
  normalize_json (context_payload c) = normalize_json (context_payload d) → c = d.
Proof.
  intros Heq. pose proof (context_payload_dict c). pose proof (context_payload_dict d).
  unfold context_payload in *.
  entry Heq "cohort_version" as E1. entry Heq "config_sha256" as E2. entry Heq "environment" as E3.
  entry Heq "region" as E4. entry Heq "release_sha" as E5.
  destruct c, d; simpl in *; congruence.
Qed.

Lemma opt_str_dict o : dict_value (opt_str o).
Proof. by destruct o. Qed.

Lemma opt_str_inj o o' : normalize_json (opt_str o) = normalize_json (opt_str o') → o = o'.
Proof. destruct o, o'; simpl; congruence. Qed.

Lemma list_json_inj {A} (f : A → json) l l' :
  (∀ x y, normalize_json (f x) = normalize_json (f y) → x = y) →
  normalize_json (JArr (map f l)) = normalize_json (JArr (map f l')) → l = l'.
Proof.
  intros Hf Heq. cbn [normalize_json] in Heq. injection Heq as Heq. revert l' Heq.
  induction l as [|x l IH]; intros [|y l']; simpl; intros Heq; try done.
  injection Heq as Hx Heq. f_equal; [by apply Hf|by apply IH].
Qed.

Lemma list_json_dict {A} (f : A → json) l : (∀ x, dict_value (f x)) → dict_value (JArr (map f l)).
Proof. intros Hf. apply dict_value_JArr, Forall_map, Forall_true. done. Qed.

Lemma str_inj x y : normalize_json (JStr x) = normalize_json (JStr y) → x = y.
Proof. simpl. congruence. Qed.

(** The entries of a payload, one by one: [fields H] leaves an equality of every field. *)
Ltac close_fields :=
  repeat match goal with
         | H : dict_value _ |- _ => clear H
         | H : ∀ _, dict_value _ |- _ => clear H
         | H : normalize_json (JObj _) = _ |- _ => clear H
         | H : normalize_json (context_payload _) = normalize_json (context_payload _) |- _ =>
             apply context_payload_inj in H
         | H : normalize_json (opt_str _) = normalize_json (opt_str _) |- _ => apply opt_str_inj in H
         | H : isoformat_z _ = isoformat_z _ |- _ => apply isoformat_z_inj in H; [|assumption..]
         | H : @value ?A _ _ = @value ?A _ _ |- _ => apply (inj _) in H
         end.

#[local] Existing Instance value_inj.

#[export] Program Instance envelope_document : SignedDocument SignedEvidenceEnvelope := {|
  doc_domain := EVIDENCE_DOMAIN;
  doc_payload e := JObj (envelope_payload e);
  doc_signature := ee_signature;
  doc_verify := envelope_verify;
  doc_ok e := datetime_ok e.(ee_observed_from) ∧ datetime_ok e.(ee_observed_until)
              ∧ datetime_ok e.(ee_expires_at);
|}.
Next Obligation.
  intros e. unfold envelope_payload. dict_tac; try exact I; first [apply context_payload_dict | apply opt_str_dict].
Qed.
Next Obligation.
  intros a b (? & ? & ?) (? & ? & ?) Heq Hsig.
  assert (∀ e, dict_value (JObj (envelope_payload e))) as Hd by apply envelope_document_obligation_1.
  pose proof (Hd a). pose proof (Hd b). unfold envelope_payload in *.
  entry Heq "artifact_sha256" as E1. entry Heq "capability" as E2. entry Heq "context" as E3.
  entry Heq "expires_at" as E4. entry Heq "key_id" as E5. entry Heq "observation_sha256" as E6.
  entry Heq "observed_from" as E7. entry Heq "observed_until" as E8.
  entry Heq "previous_evidence_sha256" as E9. entry Heq "sample_count" as E10.
  entry Heq "schema_version" as E11. entry Heq "tested_stage" as E12.
  close_fields. destruct a, b; cbn in *; by subst.
Qed.
Next Obligation. intros a key Hv. by apply envelope_verify_signature. Qed.

#[export] Program Instance attestation_document : SignedDocument LiveArtifactAttestation := {|
  doc_domain := RUNNER_ATTESTATION_DOMAIN;
  doc_payload a := JObj (attestation_payload a);
  doc_signature := la_signature;
  doc_verify := attestation_verify;
  doc_ok a := datetime_ok a.(la_started_at) ∧ datetime_ok a.(la_finished_at);
|}.
Next Obligation.
  intros a. unfold attestation_payload. dict_tac; try exact I;
    first [apply context_payload_dict | by apply list_json_dict].
Qed.
Next Obligation.
  intros a b (? & ?) (? & ?) Heq Hsig.
  assert (∀ e, dict_value (JObj (attestation_payload e))) as Hd by apply attestation_document_obligation_1.
  pose proof (Hd a). pose proof (Hd b). unfold attestation_payload in *.
  entry Heq "artifact_kind" as E1. entry Heq "context" as E2. entry Heq "execution_id" as E3.
  entry Heq "failure_codes" as E4. entry Heq "finished_at" as E5. entry Heq "isolation_sha256" as E6.
  entry Heq "outcome" as E7. entry Heq "raw_results_sha256" as E8. entry Heq "report_sha256" as E9.
  entry Heq "runner_build_sha256" as E10. entry Heq "runner_key_id" as E11.
  entry Heq "schema_version" as E12. entry Heq "services" as E13. entry Heq "source" as E14.
  entry Heq "started_at" as E15. close_fields.
  assert (artifact_kind a = artifact_kind b) as K by (clear -E1; by destruct (artifact_kind a), (artifact_kind b)).
  assert (outcome a = outcome b) as O by (clear -E7; by destruct (outcome a), (outcome b)).
  clear E1 E7.
  apply (list_json_inj JStr) in E4, E13; [|by apply str_inj..].
  destruct a, b; cbn in *; by subst.
Qed.
Next Obligation.
  intros a key Hv. unfold attestation_verify in Hv. apply result_bind_Ok in Hv as ([] & _ & Hv).
  apply result_bind_Ok in Hv as ([] & _ & Hv). apply result_bind_Ok in Hv as (d & Hd & Hv).
  apply compare_digest_true in Hv. congruence.
Qed.

#[export] Program Instance receipt_document : SignedDocument EvidenceSigningReceipt := {|
  doc_domain := SIGNING_RECEIPT_DOMAIN;
  doc_payload r := JObj (receipt_payload r);
  doc_signature := sr_signature;
  doc_verify := receipt_verify;
  doc_ok r := datetime_ok r.(signed_at);
|}.
Next Obligation.
  intros r. unfold receipt_payload. dict_tac; try exact I. apply context_payload_dict.
Qed.
Next Obligation.
  intros a b ? ? Heq Hsig.
  assert (∀ e, dict_value (JObj (receipt_payload e))) as Hd by apply receipt_document_obligation_1.
  pose proof (Hd a). pose proof (Hd b). unfold receipt_payload in *.
  entry Heq "capacity_attestation_sha256" as E1. entry Heq "context" as E2.
  entry Heq "evidence_sha256" as E3. entry Heq "fault_attestation_sha256" as E4.
  entry Heq "schema_version" as E5. entry Heq "signed_at" as E6. entry Heq "signing_key_id" as E7.
  close_fields. destruct a, b; cbn in *; by subst.
Qed.
Next Obligation.
  intros a key Hv. unfold receipt_verify in Hv. apply result_bind_Ok in Hv as ([] & _ & Hv).
  apply result_bind_Ok in Hv as ([] & _ & Hv). apply result_bind_Ok in Hv as (d & Hd & Hv).
  apply compare_digest_true in Hv. congruence.
Qed.

Lemma applied_instance_dict i : dict_value (applied_instance_json i).
Proof. unfold applied_instance_json. by dict_tac. Qed.

Lemma applied_instance_inj i j :
  normalize_json (applied_instance_json i) = normalize_json (applied_instance_json j) → i = j.
Proof.
  intros Heq. pose proof (applied_instance_dict i). pose proof (applied_instance_dict j).
  unfold applied_instance_json in *. entry Heq "instance_id" as E1. entry Heq "generation" as E2.
  destruct i, j; simpl in *; congruence.
Qed.

#[export] Program Instance convergence_document : SignedDocument GenerationConvergence := {|
  doc_domain := INVENTORY_DOMAIN;
  doc_payload := convergence_payload;
  doc_signature := gc_signature;
  doc_verify := convergence_verify;
  doc_ok c := datetime_ok c.(observed_at);
|}.
Next Obligation.
  intros c. unfold convergence_payload. dict_tac; try exact I;
    first [apply context_payload_dict | apply list_json_dict; first [exact applied_instance_dict | done]].
Qed.
Next Obligation.
  intros a b ? ? Heq Hsig.
  assert (∀ e, dict_value (convergence_payload e)) as Hd by apply convergence_document_obligation_1.
  pose proof (Hd a). pose proof (Hd b). unfold convergence_payload in *.
  entry Heq "applied_instances" as E1. entry Heq "context" as E2.
  entry Heq "expected_instance_ids" as E3. entry Heq "inventory_key_id" as E4.
  entry Heq "inventory_revision" as E5. entry Heq "manifest_generation" as E6.
  entry Heq "manifest_sha256" as E7. entry Heq "observed_at" as E8. entry Heq "schema_version" as E9.
  close_fields. apply (list_json_inj _) in E1; [|by apply applied_instance_inj].
  apply (list_json_inj JStr) in E3; [|by apply str_inj].
  destruct a, b; cbn in *; by subst.
Qed.
Next Obligation.
  intros a key Hv. unfold convergence_verify in Hv. apply result_bind_Ok in Hv as ([] & _ & Hv).
  apply result_bind_Ok in Hv as ([] & _ & Hv). apply result_bind_Ok in Hv as (d & Hd & Hv).
  apply compare_digest_true in Hv. congruence.
Qed.

(** *** The admission package *)

Lemma receipt_sign_spec context evidence capacity fault at_time key_id key r :
  receipt_sign context evidence capacity fault at_time key_id key = Ok r →
  receipt_valid r = Ok () ∧ receipt_verify r key = Ok true
  ∧ r.(sr_context) = context ∧ r.(sr_evidence_sha256) = evidence
  ∧ r.(capacity_attestation_sha256) = capacity ∧ r.(fault_attestation_sha256) = fault
  ∧ r.(signed_at) = at_time ∧ r.(signing_key_id) = key_id.
Proof.
  unfold receipt_sign. intros Hs.
  apply result_bind_Ok in Hs as ([] & Hkey & Hs).
  apply result_bind_Ok in Hs as ([] & _ & Hs).
  apply result_bind_Ok in Hs as (signature & Hsig & Hs).
  apply result_bind_Ok in Hs as ([] & Hvalid & Hs).
  apply mret_Ok in Hs as <-. split_and!; try done.
  unfold receipt_verify. rewrite (bind_ok _ _ _ Hvalid), (bind_ok _ _ _ Hkey), (bind_ok _ _ _ Hsig).
  apply compare_digest_refl. unfold receipt_valid in Hvalid. by res_inv Hvalid.
Qed.

(** An attestation that is accepted with an observation is accepted without one. *)
Lemma verify_attestation_retained signer a kind context now o :
  verify_attestation signer a kind context now (Some o) = Ok () →
  verify_attestation signer a kind context now None = Ok ().
Proof.
  unfold verify_attestation. intros Hv.
  apply result_bind_Ok in Hv as ([] & Hvalid & Hv). rewrite (bind_ok _ _ _ Hvalid).
  do 3 (apply result_bind_Ok in Hv as ([] & Ha%assert_result_Ok & Hv); rewrite assert_ok by done; clear Ha).
  apply result_bind_Ok in Hv as (trusted & Ht & Hv). rewrite (bind_ok _ _ _ Ht).
  do 3 (apply result_bind_Ok in Hv as ([] & Ha%assert_result_Ok & Hv); rewrite assert_ok by done; clear Ha).
  done.
Qed.

Lemma verify_attestation_valid signer a kind context now o :
  verify_attestation signer a kind context now o = Ok () → attestation_valid a = Ok ().
Proof. unfold verify_attestation. intros Hv. by apply result_bind_Ok in Hv as ([] & ? & _). Qed.

(** What a signed package consists of. *)
Lemma sign_admission_spec signer context o cr fr ca fa now expires previous p :
  sign_shadow_admission signer context o cr fr ca fa now expires previous = Ok p →
  context_valid context = Ok () ∧ o.(co_context) = context ∧ o.(co_observed_until) ≤ now
  ∧ verify_attestation signer ca EvidenceArtifactKind.CAPACITY context now (Some o) = Ok ()
  ∧ verify_attestation signer fa EvidenceArtifactKind.FAULT_DRILL context now (Some o) = Ok ()
  ∧ ca.(runner_key_id) ≠ fa.(runner_key_id) ∧ now < expires
  ∧ p.(capacity_attestation) = ca ∧ p.(fault_attestation) = fa
  ∧ capacity_sha256 cr = Ok ca.(la_report_sha256)
  ∧ envelope_sign o ca.(la_report_sha256) expires signer.(ps_signing_key_id) signer.(ps_signing_key)
      previous = Ok p.(envelope)
  ∧ ∃ evidence capacity fault, envelope_sha256 p.(envelope) = Ok evidence
      ∧ attestation_sha256 ca = Ok capacity ∧ attestation_sha256 fa = Ok fault
      ∧ receipt_sign context evidence capacity fault now signer.(ps_signing_key_id)
          signer.(ps_signing_key) = Ok p.(receipt).
Proof.
  unfold sign_shadow_admission. intros Hs.
  apply result_bind_Ok in Hs as ([] & Hcontext & Hs).
  apply result_bind_Ok in Hs as ([] & _ & Hs).
  apply result_bind_Ok in Hs as ([] & Hreports & Hs).
  apply result_bind_Ok in Hs as ([] & Hco%assert_result_Ok & Hs).
  apply result_bind_Ok in Hs as ([] & _ & Hs).
  apply result_bind_Ok in Hs as ([] & Huntil%assert_result_Ok & Hs).
  apply result_bind_Ok in Hs as ([] & Hexp%assert_result_Ok & Hs).
  apply result_bind_Ok in Hs as (latest & _ & Hs).
  apply result_bind_Ok in Hs as ([] & _ & Hs).
  apply result_bind_Ok in Hs as ([] & Hca & Hs).
  apply result_bind_Ok in Hs as ([] & Hfa & Hs).
  apply result_bind_Ok in Hs as ([] & Hrunners%assert_result_Ok & Hs).
  apply result_bind_Ok in Hs as (artifact & Hartifact & Hs).
  apply result_bind_Ok in Hs as (e & He & Hs).
  apply result_bind_Ok in Hs as (evidence & Hevidence & Hs).
  apply result_bind_Ok in Hs as (csha & Hcsha & Hs).
  apply result_bind_Ok in Hs as (fsha & Hfsha & Hs).
  apply result_bind_Ok in Hs as (r & Hr & Hs). apply mret_Ok in Hs as <-. simpl.
  assert (artifact = ca.(la_report_sha256)) as <-.
  { unfold verify_reports in Hreports.
    do 4 (apply result_bind_Ok in Hreports as ([] & _ & Hreports)).
    apply result_bind_Ok in Hreports as (m & _ & Hreports).
    do 4 (apply result_bind_Ok in Hreports as ([] & _ & Hreports)).
    apply result_bind_Ok in Hreports as (sha & Hsha & Hreports).
    apply result_bind_Ok in Hreports as ([] & Heq%assert_result_Ok & _). congruence. }
  split_and!; try done. by exists evidence, csha, fsha.
Qed.

(** C18. What the signer signs, it verifies: a package that [sign_shadow_admission] returned
    is accepted by [verify_package] of the same signer at every time from its signature until
    its evidence expires. *)
Theorem signed_package_verifies signer context o cr fr ca fa now expires previous p t :
  sign_shadow_admission signer context o cr fr ca fa now expires previous = Ok p →
  now ≤ t < expires → verify_package signer p context t = Ok true.
Proof.
  intros Hs Ht. apply sign_admission_spec in Hs
    as (Hctx & Hco & Huntil & Hca & Hfa & Hrun & _ & <- & <- & Hart & He & ev & cs & fs & Hev & Hcs & Hfs & Hr).
  apply envelope_sign_spec in He
    as (Hevalid & Hkey & Hesig & _ & _ & Hectx & Heart & _ & Heuntil & Heexp & _ & _ & Heid & _).
  apply receipt_sign_spec in Hr as (Hrvalid & Hrver & Hrctx & Hrev & Hrcs & Hrfs & Hrat & Hrid).
  pose proof (envelope_signed_verifies _ _ Hevalid Hkey Hesig) as Hever.
  unfold verify_package. enough (verify_package_body signer p context t = Ok true) as -> by done.
  unfold verify_package_body.
  rewrite (bind_ok _ _ _ Hctx), (bind_ok _ _ _ Hevalid), (bind_ok _ _ _ Hrvalid).
  rewrite decide_False by (intros [?|?]; congruence).
  rewrite decide_False by (intros Hn; by apply Hn). rewrite (bind_ok _ _ _ Hever). cbn [negb].
  rewrite decide_False by lia. rewrite decide_False by lia.
  rewrite decide_False by (intros Hn; by apply Hn). rewrite (bind_ok _ _ _ Hrver). cbn [negb].
  rewrite decide_False by lia. rewrite (bind_ok _ _ _ Hev).
  rewrite decide_False by (intros Hn; by apply Hn). rewrite (bind_ok _ _ _ Hcs).
  rewrite decide_False by (intros Hn; by apply Hn). rewrite (bind_ok _ _ _ Hfs).
  rewrite decide_False by (intros Hn; by apply Hn).
  rewrite decide_False by (intros Hn; by apply Hn). rewrite decide_False by done. rewrite Hrat.
  by rewrite (bind_ok _ _ _ (verify_attestation_retained _ _ _ _ _ _ Hca)),
    (bind_ok _ _ _ (verify_attestation_retained _ _ _ _ _ _ Hfa)).
Qed.

(** *** Properties *)

(** C19. A signature binds every field of an envelope: if two envelopes verify with a key and
    carry the same signature, and the two signed messages do not collide, they are equal. The
    same holds of runner attestations, signing receipts and inventory observations. *)
Theorem signatures_bind_every_field key :
  (∀ e e' : SignedEvidenceEnvelope, doc_ok e → doc_ok e' →
     envelope_verify e key = Ok true → envelope_verify e' key = Ok true →
     e.(ee_signature) = e'.(ee_signature) →
     (hmac_sha256 key (doc_message e) = hmac_sha256 key (doc_message e') → doc_message e = doc_message e') →
     e = e')
  ∧ (∀ a a' : LiveArtifactAttestation, doc_ok a → doc_ok a' →
     attestation_verify a key = Ok true → attestation_verify a' key = Ok true →
     a.(la_signature) = a'.(la_signature) →
     (hmac_sha256 key (doc_message a) = hmac_sha256 key (doc_message a') → doc_message a = doc_message a') →
     a = a')
  ∧ (∀ r r' : EvidenceSigningReceipt, doc_ok r → doc_ok r' →
     receipt_verify r key = Ok true → receipt_verify r' key = Ok true →
     r.(sr_signature) = r'.(sr_signature) →
     (hmac_sha256 key (doc_message r) = hmac_sha256 key (doc_message r') → doc_message r = doc_message r') →
     r = r')
  ∧ (∀ c c' : GenerationConvergence, doc_ok c → doc_ok c' →
     convergence_verify c key = Ok true → convergence_verify c' key = Ok true →
     c.(gc_signature) = c'.(gc_signature) →
     (hmac_sha256 key (doc_message c) = hmac_sha256 key (doc_message c') → doc_message c = doc_message c') →
     c = c').
Proof.
  split_and!; intros x y Hx Hy Hvx Hvy Hsig Hcoll; by eapply document_binds.
Qed.
End signatures.
