(* ===== verification/CanarySafety.v ===== *)
(** * CanarySafety: when the canary gate authorizes, and what the coordinator keeps

    The gate allows exactly the transitions of its specification. The manifest changes one
    capability at a time, by one stage at most. Every decision of the lifecycle coordinator
    keeps the invariant of its state; a capability that was rolled back serves nobody before
    its cooldown is over, and one whose telemetry breaches its objectives serves only for a
    bounded number of windows. *)

From S2P Require Import Prelude Text Domain Platform Json Datetime Rollout Capacity Canary EvidenceSigning CanaryLifecycle EvidenceSafety.
From Corelib Require Import SpecFloat.

#[local] Open Scope Z_scope.

(** ** Reason lists *)

Lemma deduplicate_nil l : deduplicate l = [] ↔ l = [].
Proof. by destruct l. Qed.

Lemma deduplicate_elem x l : x ∈ deduplicate l ↔ x ∈ l.
Proof.
  induction l as [|y l IH]; simpl; [done|].
  rewrite !elem_of_cons, list_elem_of_filter, IH. destruct (decide (x = y)); naive_solver.
Qed.

Lemma flag_nil b r : flag b r = [] ↔ b = false.
Proof. by destruct b. Qed.

Lemma app_nil_iff {A} (l k : list A) : l ++ k = [] ↔ l = [] ∧ k = [].
Proof. split; [apply app_nil|by intros [-> ->]]. Qed.

Lemma decide_neq_false {A} `{EqDecision A} (a b : A) : bool_decide (a ≠ b) = false ↔ a = b.
Proof. rewrite bool_decide_eq_false. split; [apply dec_stable|by intros -> ?]. Qed.

(** ** The gate *)

Section gate.
Context `{Platform} `{Signing} (gate : UnifiedCanaryGate).

(** The candidate is within the objectives of the policy. *)
Definition within_objectives (c : RedisCapability.t) (o : CanaryObservation) : Prop :=
  metric_reasons gate c o = [].

(** Evidence that supports leaving a stage: signed with the trusted key it names, for this
    capability, context and stage, chained to the current evidence, fresh, bound to the
    observation, long and large enough, without a safety violation and within the
    objectives. *)
Record qualified (c : RedisCapability.t) (ctx : ReleaseContext) (stage : RolloutStage.t)
    (previous : option string) (now : datetime) (e : SignedEvidenceEnvelope)
    (o : CanaryObservation) : Prop := {
  q_signature : ∃ key, gate.(trusted_evidence_keys) !! e.(ee_key_id) = Some key
                       ∧ envelope_verify e key = Ok true;
  q_evidence : e.(ee_capability) = c ∧ e.(ee_context) = ctx ∧ e.(tested_stage) = stage
               ∧ e.(previous_evidence_sha256) = previous;
  q_fresh : e.(ee_observed_until) ≤ now < e.(ee_expires_at);
  q_observation : o.(co_capability) = c ∧ o.(co_context) = ctx ∧ o.(co_stage) = stage;
  q_bound : observation_digest o = Ok e.(observation_sha256)
            ∧ o.(co_observed_from) = e.(ee_observed_from)
            ∧ o.(co_observed_until) = e.(ee_observed_until)
            ∧ e.(ee_sample_count) = o.(candidate).(sample_count);
  q_window : gate.(gate_policy).(minimum_observation) ≤ o.(co_observed_until) - o.(co_observed_from);
  q_samples : gate.(gate_policy).(minimum_control_samples) ≤ o.(control).(sample_count)
              ∧ gate.(gate_policy).(minimum_candidate_samples) ≤ o.(candidate).(sample_count);
  q_safe : counters_total o.(co_hard_safety) = 0;
  q_objectives : within_objectives c o;
}.

Lemma signature_reasons_nil e :
  signature_reasons gate e = Ok [] ↔
  ∃ key, gate.(trusted_evidence_keys) !! e.(ee_key_id) = Some key ∧ envelope_verify e key = Ok true.
Proof.
  unfold signature_reasons. destruct (_ !! _) as [key|]; [|naive_solver].
  rewrite result_bind_Ok. split.
  - intros ([] & Hv & Hr); [|done]. by exists key.
  - intros (k & [= <-] & Hv). by exists true.
Qed.

(** The validation finds no reason exactly for qualified evidence. *)
Lemma validate_evidence_nil c ctx stage previous now e o reasons :
  validate_evidence gate c ctx stage previous now e o = Ok reasons →
  reasons = [] ↔ qualified c ctx stage previous now e o.
Proof.
  unfold validate_evidence. intros Hv.
  apply result_bind_Ok in Hv as (sig & Hsig & Hv). apply result_bind_Ok in Hv as (sha & Hsha & Hv).
  apply mret_Ok in Hv as <-. rewrite deduplicate_nil, !app_nil_iff, !flag_nil.
  rewrite !decide_neq_false, !orb_false_iff, !decide_neq_false, !negb_false_iff, !Z.eqb_eq, !Z.ltb_ge, !Z.leb_gt.
  split.
  - intros (-> & ? & ? & ? & ? & ? & ? & ? & ? & ? & ? & [? ?] & ? & ? & ? & ? & ? & ?).
    constructor; try solve [by split_and! | assumption | lia].
    + by apply signature_reasons_nil.
    + rewrite Hsha. split_and!; congruence.
  - intros [(key & Hk & Hkv) (? & ? & ? & ?) ? (? & ? & ?) (Hb & ? & ? & ?) ? [? ?] ? ?].
    assert (sig = []) as ->.
    { assert (signature_reasons gate e = Ok []) by (apply signature_reasons_nil; eauto). congruence. }
    rewrite Hsha in Hb. injection Hb as Hb. split_and!; try done; lia.
Qed.

(** The capacity report the first canary stage needs. *)
Definition capacity_admits (ctx : ReleaseContext) (e : SignedEvidenceEnvelope)
    (report : option CapacityReport) : Prop :=
  ∃ r, report = Some r ∧ capacity_sha256 r = Ok e.(artifact_sha256)
       ∧ capacity_matches_context r ctx = Ok true ∧ r.(cr_decision).(cd_allowed) = true.

Lemma validate_capacity_nil ctx e report :
  validate_capacity_report ctx e report = Ok [] ↔ capacity_admits ctx e report.
Proof.
  unfold validate_capacity_report, capacity_admits. destruct report as [r|]; [|naive_solver].
  destruct (capacity_sha256 r) as [sha|x] eqn:Hsha; cbn [mbind result_bind].
  - destruct (capacity_matches_context r ctx) as [m|x] eqn:Hm; cbn.
    + split.
      * intros Hr. apply mret_Ok in Hr. rewrite !app_nil_iff, !flag_nil, decide_neq_false, !negb_false_iff in Hr.
        destruct Hr as (-> & -> & ?). by exists r.
      * intros (? & [= <-] & ? & ? & Hallowed).
        assert (sha = e.(artifact_sha256)) as -> by congruence. assert (m = true) as -> by congruence.
        rewrite Hallowed, (proj2 (decide_neq_false _ _)); done.
    + split; [destruct (is_invalid x); intros Hx; discriminate Hx|]. intros (? & [= <-] & ? & ? & ?). congruence.
  - split; [destruct (is_invalid x); intros Hx; discriminate Hx|]. intros (? & [= <-] & ? & ? & ?). congruence.
Qed.

(** The transitions the gate allows: staying, going down, entering SHADOW from OFF, and one
    step up on qualified evidence. *)
Definition transition_allowed (c : RedisCapability.t) (ctx : ReleaseContext)
    (current : option RolloutAuthorization) (target : RolloutStage.t) (now : datetime)
    (evidence : option SignedEvidenceEnvelope) (observation : option CanaryObservation)
    (report : option CapacityReport) : Prop :=
  let stage := from_option ra_stage RolloutStage.OFF current in
  (∀ a, current = Some a → a.(ra_capability) = c ∧ a.(ra_context) = ctx)
  ∧ (RolloutStage.index target ≤ RolloutStage.index stage
     ∨ stage = RolloutStage.OFF ∧ target = RolloutStage.SHADOW
     ∨ RolloutStage.index target = RolloutStage.index stage + 1 ∧ target ≠ RolloutStage.SHADOW
       ∧ ∃ e o, evidence = Some e ∧ observation = Some o
                ∧ qualified c ctx stage (current ≫= ra_evidence_sha256) now e o
                ∧ (target = RolloutStage.CANARY_1 → capacity_admits ctx e report)).

(** What the gate grants. *)
Definition granted (c : RedisCapability.t) (ctx : ReleaseContext) (target : RolloutStage.t)
    (a : RolloutAuthorization) : Prop :=
  a.(ra_capability) = c ∧ a.(ra_context) = ctx ∧ a.(ra_stage) = target ∧ authorization_valid a = Ok ().

Lemma gate_decision_Ok allowed reasons a d :
  CanaryGateDecision_init allowed reasons a = Ok d →
  d = {| gd_allowed := allowed; gd_reasons := reasons; gd_authorization := a |}
  ∧ (allowed = true ↔ reasons = []) ∧ (allowed = true ↔ is_Some a).
Proof.
  unfold CanaryGateDecision_init. intros Hd. apply result_bind_Ok in Hd as (u & _ & Hd).
  apply result_bind_Ok in Hd as (u1 & ->%assert_result_Ok & Hd).
  apply result_bind_Ok in Hd as (u2 & Heq%assert_result_Ok & Hd). apply mret_Ok in Hd as <-.
  split_and!; [done|by rewrite bool_decide_eq_true|]. rewrite Heq. by rewrite bool_decide_eq_true.
Qed.

Lemma authorization_init_Ok c ctx stage t e a :
  RolloutAuthorization_init c ctx stage t e = Ok a →
  a = {| ra_capability := c; ra_context := ctx; ra_stage := stage; ra_issued_at := t;
         ra_evidence_sha256 := e |} ∧ granted c ctx stage a.
Proof.
  unfold RolloutAuthorization_init. intros Ha. apply result_bind_Ok in Ha as ([] & Hv & Ha).
  apply mret_Ok in Ha as <-. by split_and!.
Qed.

Lemma stage_index_inj a b : RolloutStage.index a = RolloutStage.index b → a = b.
Proof. by destruct a, b. Qed.

(** A granting branch. *)
Lemma grant_Ok c ctx target t e d :
  (a ← RolloutAuthorization_init c ctx target t e; CanaryGateDecision_init true [] (Some a)) = Ok d →
  gd_allowed d = true ∧ ∃ a, d.(gd_authorization) = Some a ∧ granted c ctx target a
                             ∧ a.(ra_evidence_sha256) = e.
Proof.
  intros Hd. apply result_bind_Ok in Hd as (a & Ha & Hd).
  apply authorization_init_Ok in Ha as [Ha Hg]. apply gate_decision_Ok in Hd as [-> _].
  split; [done|]. exists a. split_and!; [done..|]. by rewrite Ha.
Qed.

Lemma promotion_Ok c ctx stage previous target now evidence observation report d :
  evaluate_promotion gate c ctx stage previous target now evidence observation report = Ok d →
  (gd_allowed d = true ↔
     ∃ e o, evidence = Some e ∧ observation = Some o ∧ qualified c ctx stage previous now e o
            ∧ (target = RolloutStage.CANARY_1 → capacity_admits ctx e report))
  ∧ (gd_allowed d = true → ∃ a, d.(gd_authorization) = Some a ∧ granted c ctx target a).
Proof.
  unfold evaluate_promotion, gate_denied.
  destruct evidence as [e|], observation as [o|]; intros Hd.
  2-4: apply gate_decision_Ok in Hd as [-> _]; cbn; split; [split; [done|naive_solver]|done].
  apply result_bind_Ok in Hd as ([] & _ & Hd). apply result_bind_Ok in Hd as ([] & _ & Hd).
  apply result_bind_Ok in Hd as (er & Her & Hd). apply result_bind_Ok in Hd as (cr & Hcr & Hd).
  pose proof (validate_evidence_nil _ _ _ _ _ _ _ _ Her) as Hq.
  assert (cr = [] ↔ (target = RolloutStage.CANARY_1 → capacity_admits ctx e report)) as Hc.
  { destruct (decide (target = RolloutStage.CANARY_1)).
    - rewrite <- validate_capacity_nil, Hcr. split; [by intros ->|]. intros Hx. injection (Hx e0). done.
    - apply mret_Ok in Hcr as <-. naive_solver. }
  destruct (decide (er ++ cr = [])) as [Hnil|Hne].
  - apply app_nil_iff in Hnil as [Hen Hcn].
    apply result_bind_Ok in Hd as (sha & _ & Hd). apply grant_Ok in Hd as [-> (a & Ha & Hg & _)].
    split; [|by eauto]. split; [|done]. intros _. exists e, o. naive_solver.
  - apply gate_decision_Ok in Hd as [-> _]. cbn. split; [|done]. split; [done|].
    intros (? & ? & [= <-] & [= <-] & Hqe & Hce). destruct Hne. apply app_nil_iff. naive_solver.
Qed.

(** The transition, once the current authorization is known to match. *)
Lemma transition_from_Ok c ctx current target now evidence observation report d :
  (∀ a, current = Some a → granted c ctx a.(ra_stage) a) →
  transition_from gate c ctx current target now evidence observation report = Ok d →
  (gd_allowed d = true ↔ transition_allowed c ctx current target now evidence observation report)
  ∧ (gd_allowed d = true → ∃ a, d.(gd_authorization) = Some a ∧ granted c ctx target a).
Proof.
  intros Hcur. unfold transition_from, transition_allowed. cbv zeta.
  set (stage := from_option ra_stage RolloutStage.OFF current).
  assert (∀ a, current = Some a → a.(ra_capability) = c ∧ a.(ra_context) = ctx) as Hmatch.
  { intros a Ha. by destruct (Hcur a Ha) as (? & ? & _). }
  case_decide as Hsame; [|case_decide as Hdown; [|case_decide as Hfar; [|case_decide as Hshadow]]].
  - intros Hd. apply stage_index_inj in Hsame as ->.
    assert (gd_allowed d = true ∧ ∃ a, gd_authorization d = Some a ∧ granted c ctx stage a) as [-> Ha].
    { destruct current as [a|]; [|apply grant_Ok in Hd as [? (a & ? & ? & _)]; by eauto].
      apply result_bind_Ok in Hd as (a' & Ha' & Hd). apply mret_Ok in Ha' as <-.
      apply gate_decision_Ok in Hd as [-> _]. split; [done|]. exists a. split; [done|by apply Hcur]. }
    split; [|done]. split; [|done]. intros _. split; [done|]. left. lia.
  - intros Hd. apply grant_Ok in Hd as [-> (a & Ha & Hg & _)]. split; [|by eauto].
    split; [|done]. intros _. split; [done|]. left. lia.
  - unfold gate_denied. intros Hd. apply gate_decision_Ok in Hd as [-> _]. cbn. split; [|done].
    split; [done|]. intros (_ & [?|[[Ho ->]|(? & _)]]); [lia| |lia]. rewrite Ho in *. cbn in *. lia.
  - intros Hd. apply grant_Ok in Hd as [-> (a & Ha & Hg & _)]. split; [|by eauto].
    split; [|done]. intros _. split; [done|]. right. left. split; [|done].
    subst target. cbn in *. apply stage_index_inj. cbn. lia.
  - intros Hd. apply promotion_Ok in Hd as [Hiff Hg]. split; [|done]. rewrite Hiff. split.
    + intros Hq. split; [done|]. right. right. split_and!; [lia|done|done].
    + intros (_ & [?|[[_ ->]|(_ & _ & Hq)]]); [lia|done|done].
Qed.

Lemma evaluate_transition_Ok c ctx current target now evidence observation report d :
  evaluate_transition gate c ctx current target now evidence observation report = Ok d →
  (gd_allowed d = true ↔ transition_allowed c ctx current target now evidence observation report)
  ∧ (gd_allowed d = true → ∃ a, d.(gd_authorization) = Some a ∧ granted c ctx target a).
Proof.
  unfold evaluate_transition. intros Hd. apply result_bind_Ok in Hd as ([] & _ & Hd).
  apply result_bind_Ok in Hd as ([] & _ & Hd). apply result_bind_Ok in Hd as ([] & Hcur & Hd).
  destruct current as [a|]; [|by apply transition_from_Ok in Hd].
  case_decide as Hm.
  - apply transition_from_Ok in Hd; [done|]. intros ? [= <-]. by destruct Hm.
  - unfold gate_denied in Hd. apply gate_decision_Ok in Hd as [-> _]. cbn. split; [|done].
    split; [done|]. intros [Hx _]. destruct Hm. by apply Hx.
Qed.

(** C17. The gate allows exactly the transitions of its specification (staying, any step down,
    OFF to SHADOW without evidence, and one step up on qualified evidence, with an admitting
    capacity report for the first canary stage), and then grants an authorization that is
    valid and for the requested capability, context and stage. *)
Theorem gate_allows_exactly c ctx current target now evidence observation report d :
  evaluate_transition gate c ctx current target now evidence observation report = Ok d →
  (gd_allowed d = true ↔ transition_allowed c ctx current target now evidence observation report)
  ∧ (gd_allowed d = true → ∃ a, d.(gd_authorization) = Some a ∧ granted c ctx target a).
Proof. apply evaluate_transition_Ok. Qed.
End gate.

(** ** The manifest *)

Lemma authorization_for_snoc m l a c :
  authorization_for {| rm_context := m.(rm_context); rm_generation := m.(rm_generation) + 1;
                       authorizations := filter (λ i, i.(ra_capability) ≠ a.(ra_capability)) l ++ [a] |} c
  = if decide (a.(ra_capability) = c) then Some a
    else head (filter (λ i, i.(ra_capability) = c) l).
Proof.
  unfold authorization_for. cbn [authorizations]. rewrite filter_snoc. case_decide as Hc.
  - rewrite filter_none; [done|]. apply Forall_forall. intros x Hx%list_elem_of_filter. naive_solver.
  - rewrite app_nil_r, list_filter_filter. f_equal. apply filter_ext_in. naive_solver.
Qed.

(** What [apply] does to the manifest. *)
Lemma manifest_apply_spec m a expected ids applied m' :
  manifest_apply m a expected ids applied = Ok m' →
  manifest_valid m = Ok () ∧ manifest_valid m' = Ok () ∧ expected = m.(rm_generation)
  ∧ m'.(rm_context) = m.(rm_context) ∧ m'.(rm_generation) = m.(rm_generation) + 1
  ∧ (∀ c, authorization_for m' c
          = if decide (a.(ra_capability) = c) then Some a else authorization_for m c)
  ∧ (let current := from_option ra_stage RolloutStage.OFF (authorization_for m a.(ra_capability)) in
     RolloutStage.index a.(ra_stage) ≤ RolloutStage.index current + 1
     ∧ (RolloutStage.index current < RolloutStage.index a.(ra_stage) → a.(ra_stage) ≠ RolloutStage.SHADOW →
        has_converged m applied ids = Ok true)).
Proof.
  unfold manifest_apply. intros Hm.
  apply result_bind_Ok in Hm as ([] & Hvalid & Hm).
  apply result_bind_Ok in Hm as ([] & ->%assert_result_Ok & Hm).
  apply result_bind_Ok in Hm as ([] & _ & Hm).
  apply result_bind_Ok in Hm as ([] & Hctx%assert_result_Ok & Hm).
  apply result_bind_Ok in Hm as ([] & Hadj%assert_result_Ok & Hm).
  apply result_bind_Ok in Hm as ([] & Hconv & Hm).
  apply result_bind_Ok in Hm as ([] & Hvalid' & Hm). apply mret_Ok in Hm as <-.
  split_and!; [done..| | |].
  - intros c. apply authorization_for_snoc.
  - lia.
  - intros Hup Hs. rewrite decide_True in Hconv by done.
    apply result_bind_Ok in Hconv as (b & Hb & Hconv). by apply assert_result_Ok in Hconv as ->.
Qed.

(** ** The lifecycle coordinator *)

Section lifecycle.
Context `{Platform} `{Signing} (self : CanaryLifecycleCoordinator).
Implicit Types s : CanaryLifecycleState.

(** The manifest with the capability of the state moved to a stage, by one step up at most. *)
Record moved (s : CanaryLifecycleState) (target : RolloutStage.t) (m : RolloutManifest) : Prop := {
  mv_context : m.(rm_context) = s.(manifest).(rm_context);
  mv_generation : m.(rm_generation) = s.(manifest).(rm_generation) + 1;
  mv_stage : from_option ra_stage RolloutStage.OFF (authorization_for m s.(capability)) = target;
  mv_others c : c ≠ s.(capability) → authorization_for m c = authorization_for s.(manifest) c;
  mv_adjacent : RolloutStage.index target ≤ RolloutStage.index (stage s) + 1;
}.

(** The steps of the coordinator: nothing happens; the capability is rolled back to a stage
    that serves nobody; it moves by a decision of the gate; a window of telemetry is
    accepted as healthy, or retained as a breach. *)
Inductive lifecycle_step (s : CanaryLifecycleState) (now : datetime) : CanaryLifecycleState → Prop :=
| step_stay : lifecycle_step s now s
| step_rollback target m :
    RolloutStage.dark target = true → moved s target m →
    lifecycle_step s now {|
      manifest := m; capability := s.(capability); cooldown_until := Some (now + self.(cooldown));
      soft_breach_windows := []; state_revision := s.(state_revision) + 1;
      serving_expires_at := None; last_health_evidence_sha256 := None;
      last_health_observed_until := None; last_rollback_at := Some now;
      last_admission_sha256 := s.(last_admission_sha256) |}
| step_move target m expiry admission :
    moved s target m →
    (RolloutStage.index (stage s) < RolloutStage.index target → serving target = true →
     (∀ until, s.(cooldown_until) = Some until → until ≤ now) ∧ is_Some expiry) →
    target ≠ stage s →
    (¬ (RolloutStage.index (stage s) < RolloutStage.index target ∧ serving target = true) → expiry = None) →
    let down := bool_decide (serving (stage s) = true
                             ∧ RolloutStage.index target < RolloutStage.index (stage s)) in
    lifecycle_step s now {|
      manifest := m; capability := s.(capability);
      cooldown_until := if down then Some (now + self.(cooldown)) else s.(cooldown_until);
      soft_breach_windows := []; state_revision := s.(state_revision) + 1;
      serving_expires_at := expiry; last_health_evidence_sha256 := None;
      last_health_observed_until := None;
      last_rollback_at := if down then Some now else s.(last_rollback_at);
      last_admission_sha256 := admission |}
| step_healthy expiry sha until :
    serving (stage s) = true → is_Some s.(serving_expires_at) → now < expiry →
    lifecycle_step s now
      (s <| soft_breach_windows := [] |> <| state_revision := s.(state_revision) + 1 |>
         <| serving_expires_at := Some expiry |> <| last_health_evidence_sha256 := Some sha |>
         <| last_health_observed_until := Some until |>)
| step_breach w :
    serving (stage s) = true →
    Z.of_nat (length s.(soft_breach_windows)) + 1 < self.(soft_breach_windows_required) →
    lifecycle_step s now
      (s <| soft_breach_windows ::= (λ l, l ++ [w]) |>
         <| last_health_evidence_sha256 := Some w.(bw_evidence_sha256) |>
         <| last_health_observed_until := Some w.(bw_observed_until) |>
         <| state_revision := s.(state_revision) + 1 |>).

(** Stages and percentages. *)
Lemma serving_dark x : serving x = negb (RolloutStage.dark x).
Proof. by destruct x. Qed.

Lemma upgrade_index a b :
  fgt (RolloutStage.percent a) (RolloutStage.percent b) = true →
  RolloutStage.index b < RolloutStage.index a ∧ serving a = true.
Proof. destruct a, b; vm_compute; try done; intros Hc; discriminate Hc. Qed.

Lemma index_upgrade a b :
  RolloutStage.index b < RolloutStage.index a → serving a = true →
  fgt (RolloutStage.percent a) (RolloutStage.percent b) = true.
Proof. destruct a, b; vm_compute; done. Qed.

Lemma downgrade_index a b :
  serving b && flt (RolloutStage.percent a) (RolloutStage.percent b)
  = bool_decide (serving b = true ∧ RolloutStage.index a < RolloutStage.index b).
Proof. by destruct a, b; vm_compute. Qed.

(** *** Decisions *)

Lemma lifecycle_decision_Ok allowed reasons s expected x inventory d :
  CanaryLifecycleDecision_init allowed reasons s expected x inventory = Ok d →
  d.(ld_allowed) = allowed ∧ d.(ld_reasons) = reasons ∧ d.(ld_state) = s
  ∧ d.(rollback_stage) = x ∧ d.(expected_state_revision) = expected
  ∧ (allowed = true ↔ reasons = []) ∧ state_valid s = Ok ()
  ∧ d.(state_changed) = bool_decide (s.(state_revision) = expected + 1).
Proof.
  unfold CanaryLifecycleDecision_init. intros Hd. apply result_bind_Ok in Hd as (u & _ & Hd).
  apply result_bind_Ok in Hd as (u1 & ->%assert_result_Ok & Hd).
  apply result_bind_Ok in Hd as ([] & Hs & Hd). apply result_bind_Ok in Hd as ([] & _ & Hd).
  apply result_bind_Ok in Hd as ([] & _ & Hd). apply result_bind_Ok in Hd as ([] & _ & Hd).
  apply result_bind_Ok in Hd as ([] & _ & Hd). apply mret_Ok in Hd as <-. cbn.
  split_and!; try done. by rewrite bool_decide_eq_true.
Qed.

Lemma state_init_Ok s s' : CanaryLifecycleState_init s = Ok s' → s' = s ∧ state_valid s = Ok ().
Proof.
  unfold CanaryLifecycleState_init. intros Hs. apply result_bind_Ok in Hs as ([] & Hv & Hs).
  by apply mret_Ok in Hs as <-.
Qed.

Lemma datetime_plus_Ok t d u : datetime_plus t d = Ok u → u = t + d ∧ datetime_ok u.
Proof.
  unfold datetime_plus. intros Hu. apply result_bind_Ok in Hu as ([] & Hok%assert_result_Ok & Hu).
  by apply mret_Ok in Hu as <-.
Qed.

(** An authorization for the capability of a state moves its manifest. *)
Lemma apply_moved s target a expected ids applied m :
  granted s.(capability) s.(manifest).(rm_context) target a →
  manifest_apply s.(manifest) a expected ids applied = Ok m → moved s target m.
Proof.
  intros (Hc & _ & <- & _) (_ & _ & _ & Hctx & Hgen & Hfor & Hadj & _)%manifest_apply_spec.
  rewrite Hc in *. constructor; [done|done| | |done].
  - rewrite Hfor. by rewrite decide_True.
  - intros c Hne. rewrite Hfor. by rewrite decide_False.
Qed.

(** What every decision of the coordinator satisfies. *)
Record decision_ok (s : CanaryLifecycleState) (now : datetime) (d : CanaryLifecycleDecision) : Prop := {
  dk_step : lifecycle_step s now d.(ld_state);
  dk_valid : state_valid d.(ld_state) = Ok ();
  dk_reasons : d.(ld_allowed) = true ↔ d.(ld_reasons) = [];
  dk_changed : if d.(state_changed) then d.(ld_state).(state_revision) = s.(state_revision) + 1
               else d.(ld_state) = s;
  dk_rollback x : d.(rollback_stage) = Some x →
    stage d.(ld_state) = x ∧ RolloutStage.dark x = true
    ∧ d.(ld_state).(last_rollback_at) = Some now
    ∧ d.(ld_state).(cooldown_until) = Some (now + self.(cooldown));
}.

Lemma kept_ok s now allowed reasons inventory d :
  CanaryLifecycleDecision_init allowed reasons s s.(state_revision) None inventory = Ok d →
  decision_ok s now d.
Proof.
  intros (<- & <- & Hs & Hx & _ & Hr & Hv & Hc)%lifecycle_decision_Ok.
  constructor; rewrite ?Hs, ?Hx; try done; [apply step_stay|].
  rewrite Hc, bool_decide_false by lia. done.
Qed.

Lemma changed_ok s now s' allowed reasons inventory d :
  CanaryLifecycleDecision_init allowed reasons s' s.(state_revision) None inventory = Ok d →
  lifecycle_step s now s' → s'.(state_revision) = s.(state_revision) + 1 → decision_ok s now d.
Proof.
  intros (<- & <- & Hs & Hx & _ & Hr & Hv & Hc)%lifecycle_decision_Ok Hstep Hrev.
  constructor; rewrite ?Hs, ?Hx; try done. by rewrite Hc, bool_decide_true.
Qed.

Lemma rollback_ok s now target reasons inventory d :
  RolloutStage.dark target = true →
  rollback self s now target reasons inventory = Ok d → decision_ok s now d.
Proof.
  intros Hdark Hd. unfold rollback in Hd.
  apply result_bind_Ok in Hd as (a & [_ Ha]%authorization_init_Ok & Hd).
  apply result_bind_Ok in Hd as (m & Hm & Hd). pose proof (apply_moved _ _ _ _ _ _ _ Ha Hm) as Hmv.
  apply result_bind_Ok in Hd as (until & [-> _]%datetime_plus_Ok & Hd).
  apply result_bind_Ok in Hd as (s' & [-> _]%state_init_Ok & Hd).
  apply lifecycle_decision_Ok in Hd as (Hal & Hre & Hs & Hx & _ & Hr & Hv & Hc).
  constructor; rewrite ?Hs.
  - by apply step_rollback with target.
  - done.
  - by rewrite Hal, Hre.
  - rewrite Hc. cbn. by rewrite bool_decide_true.
  - intros x. rewrite Hx. intros [= <-]. cbn. split_and!; try done.
    unfold stage, authorization. cbn. apply Hmv.
Qed.

(** *** Moves *)

Lemma advanced_state_Ok s target now m selected s' :
  moved s target m → target ≠ stage s →
  (serving_upgrade s target = true → (∀ until, s.(cooldown_until) = Some until → until ≤ now)
                                     ∧ is_Some selected) →
  advanced_state self s target now m selected = Ok s' →
  lifecycle_step s now s' ∧ s'.(state_revision) = s.(state_revision) + 1.
Proof.
  intros Hmv Hne Hup Hs. unfold advanced_state in Hs. rewrite downgrade_index in Hs.
  set (down := bool_decide _) in Hs. set (expiry := match _ with Some _ => _ | None => _ end) in Hs.
  apply result_bind_Ok in Hs as (admission & _ & Hs).
  apply result_bind_Ok in Hs as (next & [-> _]%state_init_Ok & Hs).
  assert (RolloutStage.index (stage s) < RolloutStage.index target → serving target = true →
          (∀ until, s.(cooldown_until) = Some until → until ≤ now) ∧ is_Some expiry) as Hcool.
  { intros Hi Hserv. pose proof (index_upgrade _ _ Hi Hserv) as Hu.
    destruct (Hup Hu) as [Hc [e ->]]. split; [done|]. subst expiry. unfold serving_upgrade.
    rewrite Hu, Hserv. by exists e.(ee_expires_at). }
  assert (¬ (RolloutStage.index (stage s) < RolloutStage.index target ∧ serving target = true) →
          expiry = None) as Hnone.
  { subst expiry down. unfold serving_upgrade. clear -Hne. intros Hn.
    destruct (stage s), target; try done; cbn in Hn; destruct Hn; split; done. }
  pose proof (step_move s now target m expiry admission Hmv Hcool Hne Hnone) as Hstep. cbv zeta in Hstep.
  fold down in Hstep. destruct down.
  - apply result_bind_Ok in Hs as (until & [-> _]%datetime_plus_Ok & Hs).
    apply state_init_Ok in Hs as [-> _]. by split.
  - apply mret_Ok in Hs as <-. by split.
Qed.

(** The gate's authorization of [advance] is for the capability and the context of the state. *)
Lemma authorization_context s a :
  state_valid s = Ok () → authorization s = Some a →
  a.(ra_capability) = s.(capability) ∧ a.(ra_context) = s.(manifest).(rm_context).
Proof.
  unfold state_valid, authorization, authorization_for. intros Hs Ha.
  apply result_bind_Ok in Hs as ([] & Hm & _). unfold manifest_valid in Hm.
  apply result_bind_Ok in Hm as ([] & _ & Hm). apply result_bind_Ok in Hm as ([] & _ & Hm).
  apply result_bind_Ok in Hm as ([] & Hall%check_all_Ok & _).
  apply head_Some_elem_of, list_elem_of_filter in Ha as [Hc Hin]. split; [done|].
  rewrite Forall_forall in Hall. specialize (Hall a Hin). cbn beta in Hall.
  apply result_bind_Ok in Hall as ([] & _ & Hall). by apply assert_result_Ok in Hall.
Qed.

Lemma from_option_stage s a : authorization s = Some a → a.(ra_stage) = stage s.
Proof. unfold stage. by intros ->. Qed.

Lemma advance_gate_ok s target now inputs selected inventory d :
  state_valid s = Ok () →
  (serving_upgrade s target = true → ∀ until, s.(cooldown_until) = Some until → until ≤ now) →
  advance_gate self s target now inputs selected inventory = Ok d → decision_ok s now d.
Proof.
  intros Hvalid Hcool Hd. unfold advance_gate in Hd.
  apply result_bind_Ok in Hd as (gate_current & Hgc & Hd).
  assert (from_option ra_stage RolloutStage.OFF gate_current = stage s) as Hstage.
  { unfold stage. destruct (authorization s) as [a|], selected as [e|]; try by apply mret_Ok in Hgc as <-.
    destruct (_ && _); [|by apply mret_Ok in Hgc as <-].
    apply result_bind_Ok in Hgc as (a' & [-> _]%authorization_init_Ok & Hgc). by apply mret_Ok in Hgc as <-. }
  apply result_bind_Ok in Hd as (decision & [Hallow Hgrant]%evaluate_transition_Ok & Hd).
  destruct (gd_allowed decision) eqn:Hal; cbn [negb] in Hd.
  - destruct (Hgrant eq_refl) as (a & Ha & Hg). rewrite Ha in Hd.
    case_decide as Hsame; [by eapply kept_ok|].
    apply result_bind_Ok in Hd as (applied & _ & Hd). apply result_bind_Ok in Hd as (m & Hm & Hd).
    pose proof (apply_moved _ _ _ _ _ _ _ Hg Hm) as Hmv.
    apply result_bind_Ok in Hd as (next & Hnext & Hd).
    apply advanced_state_Ok in Hnext as [Hstep Hrev]; [|done|done|].
    + by apply (changed_ok s now next) in Hd.
    + intros Hup. split; [by apply Hcool|].
      apply upgrade_index in Hup as [Hi Hserv]. destruct (proj1 Hallow eq_refl) as [_ Hcase].
      cbv zeta in Hcase. rewrite Hstage in Hcase.
      destruct Hcase as [?|[[_ ->]|(_ & _ & e & o & -> & _)]]; [lia|done|by eexists].
  - destruct (_ && _).
    + apply rollback_ok in Hd; [done|]. by case_decide.
    + by eapply kept_ok.
Qed.

Lemma advance_selected_ok s target now inputs selected inventory d :
  state_valid s = Ok () →
  (serving_upgrade s target = true → ∀ until, s.(cooldown_until) = Some until → until ≤ now) →
  advance_selected self s target now inputs selected inventory = Ok d → decision_ok s now d.
Proof.
  intros Hvalid Hcool. unfold advance_selected. destruct (_ && _); [|by apply advance_gate_ok].
  intros Hd. apply result_bind_Ok in Hd as (refusal & _ & Hd).
  destruct refusal as [reason|]; [by eapply kept_ok|].
  destruct (observation inputs) as [o|], selected as [e|]; try done.
  apply result_bind_Ok in Hd as (reasons & _ & Hd). case_decide.
  - apply rollback_ok in Hd; [done|]. by destruct (hard_reasons reasons).
  - by apply advance_gate_ok in Hd.
Qed.

Lemma advance_ok s target now inputs d :
  advance self s target now inputs = Ok d → decision_ok s now d.
Proof.
  intros Hd. unfold advance in Hd. apply result_bind_Ok in Hd as ([] & Hvalid & Hd).
  destruct (expiry_failure s target now) as [reason|]; [by apply rollback_ok in Hd|].
  assert (∀ inventory,
    (serving_upgrade s target = true → ∀ until, s.(cooldown_until) = Some until → until ≤ now) →
    advance_checked self s target now inputs inventory = Ok d → decision_ok s now d) as Hchecked.
  { intros inventory Hcool Hc. unfold advance_checked in Hc.
    case_decide; [|by apply advance_selected_ok in Hc].
    apply result_bind_Ok in Hc as (reasons & _ & Hc).
    destruct (admission_bundle inputs) as [bundle|]; [|by eapply kept_ok].
    case_decide; [by eapply kept_ok|].
    destruct (evidence inputs) as [e|]; [destruct (bool_decide _); [by eapply kept_ok|]|];
      by apply advance_selected_ok in Hc. }
  destruct (serving_upgrade s target) eqn:Hup; [|by apply Hchecked in Hd].
  apply result_bind_Ok in Hd as (refusal & Hr & Hd).
  destruct refusal as [reason|]; [by eapply kept_ok|].
  apply Hchecked in Hd; [done|]. intros _ until Huntil. unfold convergence_refusal in Hr.
  rewrite Huntil in Hr. destruct (bool_decide (now < until)) eqn:Hnow; [done|].
  apply bool_decide_eq_false in Hnow. lia.
Qed.

(** *** Telemetry *)

Lemma health_decision_Ok healthy reasons x d :
  CanaryHealthDecision_init healthy reasons x = Ok d →
  d.(hd_healthy) = healthy ∧ d.(hd_reasons) = reasons ∧ (healthy = false → reasons ≠ []).
Proof.
  unfold CanaryHealthDecision_init. intros Hd. apply result_bind_Ok in Hd as (u & _ & Hd).
  apply result_bind_Ok in Hd as (u1 & _ & Hd).
  apply result_bind_Ok in Hd as (u2 & Hr%assert_result_Ok & Hd). apply mret_Ok in Hd as <-.
  cbn. split_and!; [done..|]. naive_solver.
Qed.

(** Telemetry of a serving stage is healthy exactly when it is qualified. *)
Lemma runtime_health_Ok current now e o d :
  serving current.(ra_stage) = true →
  evaluate_runtime_health self.(lc_gate) current now e o = Ok d →
  (d.(hd_healthy) = true ↔ qualified self.(lc_gate) current.(ra_capability) current.(ra_context)
                             current.(ra_stage) current.(ra_evidence_sha256) now e o)
  ∧ (d.(hd_healthy) = false → d.(hd_reasons) ≠ []).
Proof.
  rewrite serving_dark, negb_true_iff. intros Hserv. unfold evaluate_runtime_health. intros Hd.
  do 4 (apply result_bind_Ok in Hd as ([] & _ & Hd)). rewrite Hserv in Hd.
  apply result_bind_Ok in Hd as (reasons & Hr & Hd). pose proof (validate_evidence_nil _ _ _ _ _ _ _ _ _ Hr) as Hq.
  case_decide as Hnil; [|destruct (_ && _)].
  - apply health_decision_Ok in Hd as (-> & -> & Hne). naive_solver.
  - apply health_decision_Ok in Hd as (-> & -> & Hne). naive_solver.
  - apply result_bind_Ok in Hd as (a & _ & Hd). apply health_decision_Ok in Hd as (-> & -> & Hne). naive_solver.
Qed.

Lemma append_window_Ok retained e o reasons windows failure :
  append_continuous_window retained e o reasons = Ok (windows, failure) →
  failure = None →
  ∃ w, windows = retained ++ [w] ∧ envelope_sha256 e = Ok w.(bw_evidence_sha256)
       ∧ w.(bw_observed_until) = o.(co_observed_until) ∧ w.(bw_reasons) = reasons.
Proof.
  intros Hw ->. unfold append_continuous_window in Hw.
  apply result_bind_Ok in Hw as (sha & Hsha & Hw). apply result_bind_Ok in Hw as ([] & _ & Hw).
  eexists. destruct (last retained) eqn:Hlast.
  - apply mret_Ok in Hw. repeat case_decide; simplify_eq. by split_and!.
  - apply mret_Ok in Hw. apply last_None in Hlast as ->. simplify_eq. by split_and!.
Qed.

(** The ends of an observation of a serving capability: accepted on qualified telemetry and a
    clean snapshot, rolled back, or retained as one more breach of soft objectives. *)
Inductive observed (s : CanaryLifecycleState) (now : datetime) (o : CanaryObservation)
    (e : SignedEvidenceEnvelope) (snapshot : option CanarySafetySnapshot)
    (d : CanaryLifecycleDecision) : Prop :=
| observed_healthy :
    d.(ld_allowed) = true → decision_ok s now d →
    validate_safety_snapshot s o e snapshot = Ok [] →
    (∃ current previous, authorization s = Some current ∧
       qualified self.(lc_gate) current.(ra_capability) current.(ra_context) current.(ra_stage)
         previous now e o) → observed s now o e snapshot d
| observed_rollback target reasons :
    RolloutStage.dark target = true →
    rollback self s now target reasons None = Ok d → observed s now o e snapshot d
| observed_breach w :
    d.(ld_allowed) = false → decision_ok s now d →
    validate_safety_snapshot s o e snapshot = Ok [] →
    "hard_safety_violation" ∉ w.(bw_reasons) →
    d.(ld_reasons) = w.(bw_reasons) →
    d.(ld_state).(soft_breach_windows) = s.(soft_breach_windows) ++ [w] →
    stage d.(ld_state) = stage s →
    Z.of_nat (length s.(soft_breach_windows)) + 1 < self.(soft_breach_windows_required) →
    observed s now o e snapshot d.

Lemma observe_window_cases s current now o e snapshot d :
  authorization s = Some current → serving (stage s) = true → is_Some s.(serving_expires_at) →
  observe_window self s current now o e snapshot = Ok d → observed s now o e snapshot d.
Proof.
  intros Hcur Hserv Hexp Hd. unfold observe_window in Hd.
  apply result_bind_Ok in Hd as (vc & [-> _]%authorization_init_Ok & Hd).
  apply result_bind_Ok in Hd as (health & Hh & Hd).
  apply runtime_health_Ok in Hh as [Hq _]; [|cbn; by rewrite (from_option_stage _ _ Hcur)].
  apply result_bind_Ok in Hd as (safety & Hsafety & Hd).
  case_decide as Hsafe; [eapply observed_rollback; [|exact Hd]; by destruct (hard_reasons safety)|].
  subst safety.
  destruct (hd_healthy health) eqn:Hhealthy.
  { pose proof (proj1 Hq eq_refl) as Hqual. cbn in Hqual.
    apply result_bind_Ok in Hd as (sha & _ & Hd). case_decide.
    - apply observed_healthy; [|by eapply kept_ok|done|by eauto].
      pose proof (lifecycle_decision_Ok _ _ _ _ _ _ _ Hd) as (-> & _). done.
    - apply result_bind_Ok in Hd as (next & [-> _]%state_init_Ok & Hd).
      apply observed_healthy; [pose proof (lifecycle_decision_Ok _ _ _ _ _ _ _ Hd) as (-> & _); done| |done|by eauto].
      eapply changed_ok; [exact Hd| |done]. apply step_healthy; [done..|].
      by destruct Hqual as [_ _ [_ ?] _ _ _ _ _ _]. }
  case_decide as Hhard; [eapply observed_rollback; [|exact Hd]; done|].
  case_decide; [|eapply observed_rollback; [|exact Hd]; done].
  apply result_bind_Ok in Hd as ([windows failure] & Hw & Hd).
  destruct failure as [reason|]; [eapply observed_rollback; [|exact Hd]; done|].
  apply append_window_Ok in Hw as (w & -> & Hsha & Huntil & Hwr); [|done].
  apply result_bind_Ok in Hd as (sha & Hsha' & Hd). rewrite Hsha in Hsha'. injection Hsha' as <-.
  case_decide as Hlen.
  - rewrite length_app in Hlen. cbn [length] in Hlen.
    apply result_bind_Ok in Hd as (next & [-> _]%state_init_Ok & Hd).
    pose proof (lifecycle_decision_Ok _ _ _ _ _ _ _ Hd) as (Hal & Hre & Hst & _).
    apply observed_breach with w; rewrite ?Hst, ?Hre, ?Hwr; try done; [|lia].
    eapply changed_ok; [exact Hd| |done]. rewrite <- Huntil. apply step_breach; [done|lia].
  - apply result_bind_Ok in Hd as (checked & [-> _]%state_init_Ok & Hd).
    change (rollback self s now RolloutStage.SHADOW (hd_reasons health) None = Ok d) in Hd.
    eapply observed_rollback; [|exact Hd]; done.
Qed.

Lemma observe_serving_cases s now o e snapshot d :
  serving (stage s) = true → observe_health self s now o e snapshot = Ok d →
  observed s now o e snapshot d.
Proof.
  intros Hserv. unfold observe_health. intros Hd. apply result_bind_Ok in Hd as ([] & _ & Hd).
  unfold stage in Hserv. destruct (authorization s) as [current|] eqn:Hcur; [|done].
  cbn in Hserv. rewrite serving_dark, negb_true_iff in Hserv. rewrite Hserv in Hd.
  destruct (serving_expires_at s) as [expiry|] eqn:Hexp; [|eapply observed_rollback; [|exact Hd]; done].
  case_decide; [eapply observed_rollback; [|exact Hd]; done|].
  destruct (window_break s current o e) as [reason|]; [eapply observed_rollback; [|exact Hd]; done|].
  eapply observe_window_cases; [done| | |exact Hd].
  - by rewrite serving_dark, <- (from_option_stage _ _ Hcur), Hserv.
  - by rewrite Hexp.
Qed.

Lemma observe_dark s now o e snapshot d :
  serving (stage s) = false → observe_health self s now o e snapshot = Ok d →
  d.(ld_allowed) = true ∧ decision_ok s now d.
Proof.
  rewrite serving_dark, negb_false_iff. unfold observe_health, unchanged. intros Hdark Hd.
  apply result_bind_Ok in Hd as ([] & _ & Hd). unfold stage in Hdark.
  destruct (authorization s) as [current|]; cbn in Hdark; [rewrite Hdark in Hd|];
    (split; [by apply lifecycle_decision_Ok in Hd as (-> & _)|by eapply kept_ok]).
Qed.

Lemma observe_health_ok s now o e snapshot d :
  observe_health self s now o e snapshot = Ok d → decision_ok s now d.
Proof.
  intros Hd. destruct (serving (stage s)) eqn:Hserv; [|by apply observe_dark in Hd as [_ ?]].
  apply observe_serving_cases in Hd as [| target reasons Hdark Hr|]; [done| |done|done].
  by apply rollback_ok in Hr.
Qed.

(** *** Runs of the coordinator *)

Inductive lifecycle_call :=
| Advance (target : RolloutStage.t) (inputs : AdvanceInputs)
| Observe (o : CanaryObservation) (e : SignedEvidenceEnvelope) (snapshot : option CanarySafetySnapshot).

Definition perform_call (c : lifecycle_call) (s : CanaryLifecycleState) (now : datetime)
    : res CanaryLifecycleDecision :=
  match c with
  | Advance target inputs => advance self s target now inputs
  | Observe o e snapshot => observe_health self s now o e snapshot
  end.

(** A state from which a capability starts: it serves nobody and was never rolled back. *)
Definition fresh (s : CanaryLifecycleState) : Prop :=
  serving (stage s) = false ∧ s.(last_rollback_at) = None ∧ s.(soft_breach_windows) = [].

(** The states a control plane reaches by persisting decisions, with the time of the last
    one; the clock does not go back. *)
Inductive lifecycle_reachable : CanaryLifecycleState → datetime → Prop :=
| reach_start s t : fresh s → lifecycle_reachable s t
| reach_decision s t now c d :
    lifecycle_reachable s t → t ≤ now → perform_call c s now = Ok d →
    lifecycle_reachable d.(ld_state) now.

Lemma perform_call_ok s now c d : perform_call c s now = Ok d → decision_ok s now d.
Proof. destruct c; [apply advance_ok|apply observe_health_ok]. Qed.

(** The cooldown of a state, relative to its time. *)
Record cooldown_inv (s : CanaryLifecycleState) (t : datetime) : Prop := {
  ci_past r : s.(last_rollback_at) = Some r → r ≤ t;
  ci_until r : s.(last_rollback_at) = Some r → s.(cooldown_until) = Some (r + self.(cooldown));
  ci_serving r : serving (stage s) = true → is_Some s.(serving_expires_at) →
    s.(last_rollback_at) = Some r → r + self.(cooldown) ≤ t;
}.

Lemma cooldown_step s now s' :
  0 ≤ self.(cooldown) → cooldown_inv s now → lifecycle_step s now s' → cooldown_inv s' now.
Proof.
  intros Hcd [Hpast Huntil Hserving] Hstep.
  destruct Hstep as [|target m Hdark Hmv|target m expiry admission Hmv Hup Hne Hnone down|expiry sha until Hs He Hn|w Hs Hlen].
  - done.
  - constructor; cbn; [by intros r [= <-]|by intros r [= <-]|].
    intros r Hs. unfold stage, authorization in Hs. cbn in Hs. rewrite (mv_stage _ _ _ Hmv) in Hs.
    by rewrite serving_dark, Hdark in Hs.
  - assert (stage {| manifest := m; capability := capability s;
        cooldown_until := if down then Some (now + cooldown self) else cooldown_until s;
        soft_breach_windows := []; state_revision := state_revision s + 1; serving_expires_at := expiry;
        last_health_evidence_sha256 := None; last_health_observed_until := None;
        last_rollback_at := if down then Some now else last_rollback_at s;
        last_admission_sha256 := admission |} = target) as Hstage by apply (mv_stage _ _ _ Hmv).
    destruct down eqn:Hdown; constructor; cbn [last_rollback_at cooldown_until serving_expires_at];
      try rewrite Hstage.
    + by intros r [= <-].
    + by intros r [= <-].
    + intros r Hserv [x Hx]. apply bool_decide_eq_true in Hdown as [_ Hlt].
      rewrite Hnone in Hx; [done|]. intros [? _]. lia.
    + apply Hpast.
    + apply Huntil.
    + intros r Hserv [x Hx] Hr.
      destruct (decide (RolloutStage.index (stage s) < RolloutStage.index target)) as [Hlt|Hge].
      * destruct (Hup Hlt Hserv) as [Hcool _]. apply Hcool. by apply Huntil.
      * rewrite Hnone in Hx; [done|]. by intros [? _].
  - constructor; cbn; [apply Hpast|apply Huntil|]. intros r _ _ Hr. by apply Hserving.
  - constructor; cbn; [apply Hpast|apply Huntil|apply Hserving].
Qed.

Lemma cooldown_later s t now : t ≤ now → cooldown_inv s t → cooldown_inv s now.
Proof.
  intros Hle [Hp Hu Hs]. constructor; [|done|].
  - intros r Hr. specialize (Hp r Hr). lia.
  - intros r H1 H2 H3. specialize (Hs r H1 H2 H3). lia.
Qed.

Lemma reachable_cooldown s t :
  0 ≤ self.(cooldown) → lifecycle_reachable s t → cooldown_inv s t.
Proof.
  intros Hcd. induction 1 as [s t (Hs & Hr & _)|s t now c d _ IH Hle Hd].
  - constructor; by rewrite ?Hr.
  - apply perform_call_ok in Hd as [Hstep _ _ _ _]. eapply cooldown_step; [done| |exact Hstep].
    by apply cooldown_later with t.
Qed.

(** *** Breaches *)

(** Consecutive observations that were all unhealthy. *)
Inductive unhealthy_run : CanaryLifecycleState → nat → CanaryLifecycleState → Prop :=
| unhealthy_none s : unhealthy_run s 0 s
| unhealthy_more s now o e snapshot d n s' :
    observe_health self s now o e snapshot = Ok d → d.(ld_allowed) = false →
    unhealthy_run d.(ld_state) n s' → unhealthy_run s (S n) s'.

Lemma rollback_stage_Ok s now target reasons inventory d :
  RolloutStage.dark target = true → rollback self s now target reasons inventory = Ok d →
  d.(ld_allowed) = false ∧ d.(ld_reasons) = reasons ∧ d.(rollback_stage) = Some target
  ∧ stage d.(ld_state) = target.
Proof.
  intros Hdark Hd. pose proof (rollback_ok _ _ _ _ _ _ Hdark Hd) as [_ _ _ _ Hx]. unfold rollback in Hd.
  apply result_bind_Ok in Hd as (a & _ & Hd). apply result_bind_Ok in Hd as (m & _ & Hd).
  apply result_bind_Ok in Hd as (until & _ & Hd). apply result_bind_Ok in Hd as (s' & _ & Hd).
  apply lifecycle_decision_Ok in Hd as (-> & -> & _ & Hr & _). split_and!; [done..|].
  by destruct (Hx target Hr) as [? _].
Qed.

(** An unhealthy run that does not end the serving adds a window every time. *)
Lemma unhealthy_windows s n s' :
  unhealthy_run s n s' → serving (stage s) = true →
  Z.of_nat (length s.(soft_breach_windows)) < self.(soft_breach_windows_required) →
  Z.of_nat (length s.(soft_breach_windows) + n) ≤ self.(soft_breach_windows_required)
  ∧ (serving (stage s') = true →
     Z.of_nat (length s.(soft_breach_windows) + n) < self.(soft_breach_windows_required)).
Proof.
  induction 1 as [s|s now o e snapshot d n s' Hd Hal Hrun IH]; intros Hserv Hlen.
  { rewrite Nat.add_0_r. split; [lia|done]. }
  apply observe_serving_cases in Hd as [Hal'|target reasons Hdark Hr|w _ _ _ _ _ Hw Hstage Hlt]; [congruence| | |done].
  - apply rollback_stage_Ok in Hr as (_ & _ & _ & Hst); [|done].
    assert (serving (stage d.(ld_state)) = false) as Hoff by (by rewrite Hst, serving_dark, Hdark).
    destruct Hrun as [s1|s1 now1 o1 e1 snapshot1 d1 n1 s1' Hd1 Hal1 _].
    + split; [lia|]. congruence.
    + apply observe_dark in Hd1 as [? _]; [congruence|done].
  - rewrite Hw, length_app, Hstage in IH. cbn [length] in IH.
    destruct IH as [IH1 IH2]; [done|lia|]. split; [lia|]. intros Hs. specialize (IH2 Hs). lia.
Qed.

(** A safety snapshot without reasons. *)
Lemma clean_snapshot s o e snapshot :
  validate_safety_snapshot s o e snapshot = Ok [] →
  ∃ x, snapshot = Some x ∧ x.(ss_hard_safety) = o.(co_hard_safety)
       ∧ coverage_complete x = true ∧ x.(committed_fact_loss) = 0
       ∧ counters_total o.(co_hard_safety) = 0 ∧ snapshot_sha256 x = Ok e.(artifact_sha256).
Proof.
  unfold validate_safety_snapshot. destruct snapshot as [x|]; [|done].
  destruct (snapshot_valid x) as [u|ex]; [|by destruct (is_invalid ex)].
  intros Hv. apply result_bind_Ok in Hv as (sha & Hsha & Hv). apply mret_Ok in Hv.
  rewrite !app_nil_iff, !flag_nil, !orb_false_iff, !decide_neq_false, !negb_false_iff, !Z.eqb_eq in Hv.
  destruct Hv as ([[[[[_ _] _] _] _] Hh] & Ha & Hc & Hl & Ht). exists x. split_and!; congruence.
Qed.

(** *** Properties *)

(** C16. Every decision of the coordinator, to advance or on telemetry, is a step of the
    lifecycle: the state it returns is valid, its revision grows by one exactly when the
    state changed, other capabilities keep their authorization, the stage goes up by one at
    most, and a decision that names a rollback stage leaves the capability there, serving
    nobody, with the cooldown running from now. *)
Theorem every_decision_is_a_lifecycle_step c s now d :
  perform_call c s now = Ok d → decision_ok s now d.
Proof. apply perform_call_ok. Qed.

(** C15. No tenant is served during a cooldown: in every state the coordinator can reach, a
    tenant that the runtime policy allows at a later time is allowed at a time after the end
    of the cooldown of the last rollback or downgrade, at a stage that serves, before the
    signed evidence of that stage expires, and within the percentage of the stage. *)
Theorem no_tenant_is_served_in_cooldown s t now p c tenant :
  0 ≤ self.(cooldown) → lifecycle_reachable s t → t ≤ now → state_of p c = Some s →
  lifecycle_allows p (Ok now) c tenant = Ok true →
  (∀ r, s.(last_rollback_at) = Some r → r + self.(cooldown) ≤ now)
  ∧ serving (stage s) = true
  ∧ (∃ expiry, s.(serving_expires_at) = Some expiry ∧ now < expiry)
  ∧ tenant_in_canary_percent tenant (RolloutStage.percent (stage s)) p.(lp_cohort_secret)
      p.(lp_expected_context).(cohort_version) = Ok true.
Proof.
  intros Hcd Hreach Hle Hs Hallow. unfold lifecycle_allows in Hallow. rewrite Hs in Hallow.
  destruct (state_valid s) as [u|ex]; cbn [mbind result_bind] in Hallow;
    [|by destruct (is_invalid ex)].
  case_decide; [done|]. destruct (RolloutStage.dark (stage s)) eqn:Hdark; [done|].
  destruct (serving_expires_at s) as [expiry|] eqn:Hexp; [|done]. case_decide; [done|].
  assert (serving (stage s) = true) as Hserv by (by rewrite serving_dark, Hdark).
  split_and!; [|done| |done].
  - intros r Hr. pose proof (cooldown_later _ _ _ Hle (reachable_cooldown _ _ Hcd Hreach)) as Hinv.
    apply (ci_serving _ _ Hinv); [done|by rewrite Hexp|done].
  - exists expiry. split; [done|lia].
Qed.

(** C20. Telemetry that breaches soft objectives serves for a bounded number of windows:
    consecutive unhealthy observations of a serving capability without retained breaches are
    at most as many as the coordinator requires, and that many end its serving. *)
Theorem unhealthy_serving_is_bounded s n s' :
  unhealthy_run s n s' → serving (stage s) = true → s.(soft_breach_windows) = [] →
  0 < self.(soft_breach_windows_required) →
  Z.of_nat n ≤ self.(soft_breach_windows_required)
  ∧ (Z.of_nat n = self.(soft_breach_windows_required) → serving (stage s') = false).
Proof.
  intros Hrun Hserv Hnil Hreq. apply unhealthy_windows in Hrun as [Hle Hlt]; [|done|by rewrite Hnil].
  rewrite Hnil in Hle, Hlt. cbn [length Nat.add] in *. split; [done|].
  intros Heq. destruct (serving (stage s')); [|done]. specialize (Hlt eq_refl). lia.
Qed.

(** Unsafe telemetry stops serving at once: an observation of a serving capability that
    counts a hard safety violation, or comes with a snapshot that counts a lost fact or with
    no complete snapshot, is refused and leaves the capability at a stage that serves
    nobody. *)
Theorem unsafe_telemetry_stops_serving s now o e snapshot d :
  serving (stage s) = true → observe_health self s now o e snapshot = Ok d →
  (counters_total o.(co_hard_safety) ≠ 0
   ∨ (∀ x, snapshot = Some x → x.(committed_fact_loss) ≠ 0 ∨ coverage_complete x = false)) →
  d.(ld_allowed) = false ∧ serving (stage d.(ld_state)) = false.
Proof.
  intros Hserv Hd Hunsafe.
  assert (validate_safety_snapshot s o e snapshot ≠ Ok []) as Hsafe.
  { intros (x & -> & _ & Hcov & Hloss & Htot & _)%clean_snapshot.
    destruct Hunsafe as [?|Hx]; [congruence|]. destruct (Hx x eq_refl); congruence. }
  apply observe_serving_cases in Hd as [|target reasons Hdark Hr|]; [done| |done|done].
  apply rollback_stage_Ok in Hr as (-> & _ & _ & ->); [|done]. by rewrite serving_dark, Hdark.
Qed.
End lifecycle.
