(* ===== verification/ReleaseSafety.v ===== *)
(** * ReleaseSafety: cohorts, capacity reports and fault drills

    The decimal arithmetic of the cohort selection is the exact share of 2^64, so the stages
    are nested; an allowed capacity report meets every threshold, whatever it claims; a fault
    report qualifies exactly when every scenario has a live passing result. *)

From S2P Require Import Prelude Text Domain Platform Json Datetime Rollout Capacity Canary EvidenceSigning CanaryLifecycle EvidenceSafety CanarySafety.
From Corelib Require Import SpecFloat.

#[local] Open Scope Z_scope.

(** ** Cohorts *)

Section cohorts.
Context `{Platform} `{Signing}.

(** [str] of the percentages of the ladder. *)
Hypothesis repr_1 : float_repr (f64 1) = "1.0".
Hypothesis repr_5 : float_repr (f64 5) = "5.0".
Hypothesis repr_25 : float_repr (f64 25) = "25.0".

(** The percentage of a stage as an integer. *)
Definition whole_percent (x : RolloutStage.t) : Z :=
  match x with
  | RolloutStage.OFF | RolloutStage.SHADOW => 0
  | RolloutStage.CANARY_1 => 1
  | RolloutStage.CANARY_5 => 5
  | RolloutStage.CANARY_25 => 25
  | RolloutStage.FULL => 100
  end.

Lemma hex_val_range a n : hex_val a = Some n → (n < 16)%N.
Proof.
  unfold hex_val. repeat case_match; try done; intros [= <-];
    repeat match goal with H : (_ && _)%bool = true |- _ => apply andb_prop in H as [?%N.leb_le ?%N.leb_le] end; lia.
Qed.

Lemma hex_value_range acc s n :
  0 ≤ acc → (String.length s ≤ n)%nat → 0 ≤ hex_value acc s < (acc + 1) * 16 ^ Z.of_nat n.
Proof.
  revert acc n. induction s as [|a s IH]; intros acc n Hacc Hlen; simpl.
  - pose proof (Z.pow_pos_nonneg 16 (Z.of_nat n)). nia.
  - destruct n as [|n]; simpl in Hlen; [lia|].
    set (d := match hex_val a with Some m => Z.of_N m | None => 0 end).
    assert (0 ≤ d < 16) as Hd.
    { subst d. destruct (hex_val a) as [m|] eqn:Hm; [|lia]. apply hex_val_range in Hm. lia. }
    destruct (IH (16 * acc + d) n ltac:(lia) ltac:(lia)) as [Hlo Hhi]. split; [lia|].
    rewrite Nat2Z.inj_succ, Z.pow_succ_r by lia.
    pose proof (Z.pow_pos_nonneg 16 (Z.of_nat n)). nia.
Qed.

Lemma bucket_range secret tenant version :
  0 ≤ tenant_bucket secret tenant version < 2 ^ 64.
Proof.
  unfold tenant_bucket. pose proof (hex_value_range 0 (str_take 16
    (hmac_sha256 secret (cohort_material tenant version))) 16 ltac:(done)
    ltac:(rewrite str_take_length; lia)) as Hr.
  change ((0 + 1) * 16 ^ Z.of_nat 16) with (2 ^ 64) in Hr. exact Hr.
Qed.

(** The thresholds of the ladder are exact. *)
Lemma ladder_thresholds x :
  serving x = true → x ≠ RolloutStage.FULL →
  threshold (RolloutStage.percent x) = (whole_percent x * 2 ^ 64) `div` 100.
Proof.
  unfold threshold. destruct x; try done; intros _ _; cbn [RolloutStage.percent];
    rewrite ?repr_1, ?repr_5, ?repr_25; vm_compute; reflexivity.
Qed.

(** What the selection checks of its arguments. *)
Definition cohort_inputs_valid (tenant secret version : string) : Prop :=
  tenant ≠ "" ∧ all_chars (λ a, negb (bool_decide (a = Ascii.zero))) tenant = true
  ∧ (String.length tenant ≤ 512)%nat ∧ (32 ≤ String.length secret)%nat ∧ VERSION_RE version = true.

(** C31. The cohort of a stage is the exact share of the bucket space: for valid arguments the
    selection, with its early returns and its 28-digit decimal arithmetic, decides whether
    the tenant's bucket is below percent * 2^64 / 100; so a tenant selected at a stage is
    selected at every later one, nobody is at OFF and SHADOW, and everybody is at FULL. *)
Theorem cohort_is_exact_share tenant secret version x :
  cohort_inputs_valid tenant secret version →
  tenant_in_canary_cohort tenant x secret version
    = Ok (bool_decide (tenant_bucket secret tenant version < (whole_percent x * 2 ^ 64) `div` 100))
  ∧ (∀ y, RolloutStage.index x ≤ RolloutStage.index y →
     tenant_in_canary_cohort tenant x secret version = Ok true →
     tenant_in_canary_cohort tenant y secret version = Ok true).
Proof.
  intros (Hne & Hnul & Hlen & Hkey & Hversion).
  assert (∀ z, tenant_in_canary_cohort tenant z secret version
    = Ok (bool_decide (tenant_bucket secret tenant version < (whole_percent z * 2 ^ 64) `div` 100))) as Heq.
  { intros z. unfold tenant_in_canary_cohort, tenant_in_canary_percent.
    rewrite assert_ok by (split_and!; [exact Hne|exact Hnul|exact Hlen]).
    rewrite assert_ok by (by destruct z; vm_compute).
    rewrite assert_ok by exact Hkey. rewrite assert_ok by exact Hversion.
    pose proof (bucket_range secret tenant version) as Hb.
    destruct (serving z) eqn:Hz.
    - destruct (decide (z = RolloutStage.FULL)) as [->|Hfull].
      + change (feq (RolloutStage.percent RolloutStage.FULL) (f64 0)) with false.
        change (feq (RolloutStage.percent RolloutStage.FULL) (f64 100)) with true. cbv iota.
        rewrite bool_decide_true; [done|]. change (whole_percent RolloutStage.FULL) with 100.
        rewrite Z.mul_comm, Z.div_mul by done. lia.
      + rewrite ladder_thresholds by done. by destruct z.
    - assert (feq (RolloutStage.percent z) (f64 0) = true) as -> by (by destruct z).
      rewrite bool_decide_false; [done|]. assert (whole_percent z = 0) as -> by (by destruct z).
      change ((0 * 2 ^ 64) `div` 100) with 0. lia. }
  split; [done|]. intros y Hxy. rewrite !Heq. intros [= Hx%bool_decide_eq_true]. f_equal.
  apply bool_decide_eq_true. eapply Z.lt_le_trans; [exact Hx|].
  apply Z.div_le_mono; [done|]. apply Z.mul_le_mono_nonneg_r; [done|]. by destruct x, y; cbn in *; lia.
Qed.
End cohorts.

(** ** Capacity reports *)

Section capacity.
Context `{Platform} `{Signing}.

(** The measurements meet a policy. *)
Record meets (m : CapacityMeasurement) (p : CapacityPolicy) : Prop := {
  mt_live : is_live m.(m_postgres) = true ∧ is_live m.(m_redis) = true;
  mt_load : flt m.(load_multiplier) p.(minimum_load_multiplier) = false;
  mt_queue : p.(minimum_queued_commands) ≤ m.(queued_commands);
  mt_workers : p.(minimum_active_workers) ≤ m.(active_workers);
  mt_steady : flt m.(steady_claims_per_second)
                (fmul (measured_target m) p.(minimum_throughput_ratio)) = false;
  mt_fallback : flt m.(sql_fallback_claims_per_second)
                  (fmul (measured_target m) p.(minimum_throughput_ratio)) = false;
  mt_wake : fgt m.(redis_wake_p95_ms) p.(maximum_redis_wake_p95_ms) = false;
  mt_lag : fge m.(outbox_lag_p95_ms) p.(maximum_outbox_lag_p95_ms) = false;
  mt_recovery : fge m.(Capacity.sql_fallback_recovery_seconds)
                  p.(maximum_sql_fallback_recovery_seconds) = false;
  mt_safe : m.(command_loss) = 0 ∧ m.(m_duplicate_external_effects) = 0 ∧ m.(stale_writes_accepted) = 0;
}.

Lemma capacity_reasons_nil m p : capacity_reasons m p = [] ↔ meets m p.
Proof.
  unfold capacity_reasons. rewrite !app_nil_iff, !flag_nil, !negb_false_iff, !Z.eqb_eq, !Z.ltb_ge.
  split.
  - intros (? & ? & ? & ? & ? & ? & ? & ? & ? & ? & ? & ? & ?). by constructor.
  - intros [[? ?] ? ? ? ? ? ? ? ? (? & ? & ?)]. by split_and!.
Qed.

Lemma evaluate_allowed m p d :
  capacity_evaluate m p = Ok d → d.(cd_allowed) = bool_decide (capacity_reasons m p = []).
Proof.
  unfold capacity_evaluate. intros Hd. apply result_bind_Ok in Hd as ([] & _ & Hd).
  apply result_bind_Ok in Hd as ([] & _ & Hd). apply result_bind_Ok in Hd as ([] & _ & Hd).
  by apply mret_Ok in Hd as <-.
Qed.

(** A capacity report cannot claim more than it measured: whenever a report is accepted
    as valid, whatever decision it carries, the decision allows exactly when the measurements
    meet the policy, and the policy asks at least for 1000 commands and 20 workers. *)
Theorem capacity_report_is_not_forged r :
  capacity_report_valid r = Ok () →
  (r.(cr_decision).(cd_allowed) = true ↔ meets r.(cr_measurement) r.(cr_policy))
  ∧ 1000 ≤ r.(cr_policy).(minimum_queued_commands) ∧ 20 ≤ r.(cr_policy).(minimum_active_workers).
Proof.
  unfold capacity_report_valid. intros Hr.
  do 8 (apply result_bind_Ok in Hr as ([] & _ & Hr)).
  apply result_bind_Ok in Hr as (expected & He & Hr). apply assert_result_Ok in Hr.
  unfold decision_eq in Hr. rewrite !andb_true_iff, !bool_decide_eq_true in Hr.
  destruct Hr as [[[[Hal _] _] _] _]. rewrite Hal, (evaluate_allowed _ _ _ He), bool_decide_eq_true.
  split; [apply capacity_reasons_nil|].
  unfold capacity_evaluate in He. apply result_bind_Ok in He as ([] & _ & He).
  apply result_bind_Ok in He as ([] & Hp & _). unfold capacity_policy_valid in Hp.
  do 5 (apply result_bind_Ok in Hp as ([] & _ & Hp)).
  apply result_bind_Ok in Hp as ([] & Hq%assert_result_Ok & Hp).
  by apply result_bind_Ok in Hp as ([] & Hw%assert_result_Ok & _).
Qed.

(** ** Fault drills *)

(** A scenario has a live passing result with the invariants it requires. *)
Definition demonstrated (results : list FaultScenarioResult) (x : FaultScenario.t) : Prop :=
  ∃ r, r ∈ results ∧ r.(fs_scenario) = x ∧ r.(fs_evidence_kind) = ServiceEvidenceKind.LIVE
       ∧ r.(fs_triggered) = true ∧ r.(fs_passed) = true ∧ r.(fs_failure_code) = None
       ∧ (∀ i, i ∈ FaultScenario.required_invariants x → i ∈ r.(fs_invariants))
       ∧ (x = FaultScenario.SQL_FALLBACK → fge r.(fs_recovery_seconds) (f64 60) = false).

Lemma by_scenario_Some results x r :
  NoDup (map fs_scenario results) → r ∈ results → r.(fs_scenario) = x →
  by_scenario results x = Some r.
Proof.
  intros Hnd Hin Hx. unfold by_scenario. induction results as [|y l IH]; [by apply not_elem_of_nil in Hin|].
  cbn [map] in Hnd. apply NoDup_cons in Hnd as [Hy Hnd]. rewrite filter_cons.
  apply elem_of_cons in Hin as [->|Hin].
  - rewrite decide_True by done. rewrite filter_none; [done|]. apply Forall_forall. intros z Hz Heq.
    destruct Hy. apply list_elem_of_fmap. exists z. split; [congruence|done].
  - rewrite decide_False; [by apply IH|]. intros Heq. destruct Hy. apply list_elem_of_fmap.
    exists r. split; [congruence|done].
Qed.

Lemma by_scenario_in results x r : by_scenario results x = Some r → r ∈ results ∧ r.(fs_scenario) = x.
Proof.
  unfold by_scenario. intros Hl%last_Some_elem_of. apply list_elem_of_filter in Hl. naive_solver.
Qed.

Lemma required_all x : x ∈ FaultScenario.required.
Proof. destruct x; apply (bool_decide_unpack _); vm_compute; done. Qed.

Lemma required_forall f : forallb f FaultScenario.required = true ↔ ∀ x, f x = true.
Proof.
  rewrite forallb_forall. split; [|auto]. intros Hf x. apply Hf, list_elem_of_In, required_all.
Qed.

Lemma required_exists f : existsb f FaultScenario.required = false ↔ ∀ x, f x = false.
Proof.
  rewrite <- not_true_iff_false, existsb_exists. split.
  - intros Hn x. destruct (f x) eqn:Hf; [|done]. destruct Hn. exists x.
    split; [apply list_elem_of_In, required_all|done].
  - intros Hf (x & _ & Hx). by rewrite Hf in Hx.
Qed.

(** The result a dictionary of results holds for a scenario passes. *)
Definition passing_entry (results : list FaultScenarioResult) (x : FaultScenario.t) : Prop :=
  ∃ r, by_scenario results x = Some r ∧ scenario_passes r = true
       ∧ Forall (λ i, i ∈ r.(fs_invariants)) (FaultScenario.required_invariants x)
       ∧ (x = FaultScenario.SQL_FALLBACK → fge r.(fs_recovery_seconds) (f64 60) = false).

Lemma qualifies_entries r :
  qualifies r = true ↔
    is_live r.(fd_postgres) = true ∧ is_live r.(fd_redis) = true ∧ ∀ x, passing_entry r.(fd_results) x.
Proof.
  unfold qualifies, passing_entry.
  destruct (is_live (fd_postgres r)); [|naive_solver]. destruct (is_live (fd_redis r)); [|naive_solver].
  cbn [negb orb]. split.
  - destruct (forallb _ FaultScenario.required) eqn:Hall; [|done]. cbn [negb].
    destruct (existsb _ _) eqn:Hpass; [done|].
    destruct (match by_scenario _ FaultScenario.SQL_FALLBACK with Some _ => _ | None => _ end) eqn:Hsql; [done|].
    rewrite required_forall in Hall. rewrite required_exists in Hpass. rewrite required_forall.
    intros Hinv. split_and!; [done..|]. intros x. specialize (Hall x). specialize (Hpass x). specialize (Hinv x).
    apply bool_decide_eq_true in Hall as [res Hres]. rewrite Hres in Hinv, Hpass.
    apply bool_decide_eq_true in Hinv. apply negb_false_iff in Hpass. exists res.
    split_and!; try done. intros ->. by rewrite Hres in Hsql.
  - intros (_ & _ & Hp). rewrite (proj2 (required_forall _)) by
      (intros x; destruct (Hp x) as (res & -> & _); done). cbn [negb].
    rewrite (proj2 (required_exists _)) by (intros x; by destruct (Hp x) as (res & -> & -> & _)).
    destruct (Hp FaultScenario.SQL_FALLBACK) as (res & -> & _ & _ & ->); [|done].
    apply required_forall. intros x. destruct (Hp x) as (res' & -> & _ & Hf & _). by apply bool_decide_eq_true.
Qed.

Lemma passing_entry_demonstrated results x :
  NoDup (map fs_scenario results) → passing_entry results x ↔ demonstrated results x.
Proof.
  intros Hnd. unfold passing_entry, demonstrated. split.
  - intros (res & Hres & Hp & Hinv & Hsql). unfold scenario_passes in Hp.
    rewrite !andb_true_iff, !bool_decide_eq_true in Hp. destruct Hp as [[[? ?] ?] ?].
    apply by_scenario_in in Hres as [Hin Hsc]. exists res. rewrite Forall_forall in Hinv. by split_and!.
  - intros (res & Hin & Hsc & Hk & Ht & Hp & Hf & Hi & Hs). exists res.
    split_and!; [by apply by_scenario_Some| |by apply Forall_forall|done].
    unfold scenario_passes. by rewrite Hk, Ht, Hp, Hf.
Qed.

(** A fault-drill report qualifies exactly when it demonstrates every scenario: for a
    report that is valid, [qualifies] holds if and only if both services were live and every
    required scenario has a result that ran live, was triggered, passed, failed in nothing,
    and carries the invariants of the scenario, the fallback within 60 seconds. *)
Theorem fault_report_qualifies_exactly r :
  fault_report_valid r = Ok () →
  qualifies r = true ↔
    is_live r.(fd_postgres) = true ∧ is_live r.(fd_redis) = true
    ∧ ∀ x, demonstrated r.(fd_results) x.
Proof.
  intros Hvalid.
  assert (NoDup (map fs_scenario r.(fd_results))) as Hnd.
  { unfold fault_report_valid in Hvalid. apply result_bind_Ok in Hvalid as ([] & _ & Hvalid).
    apply result_bind_Ok in Hvalid as (st & _ & Hvalid). apply result_bind_Ok in Hvalid as (fi & _ & Hvalid).
    do 6 (apply result_bind_Ok in Hvalid as ([] & _ & Hvalid)).
    by apply result_bind_Ok in Hvalid as ([] & ?%assert_result_Ok & _). }
  rewrite qualifies_entries. by setoid_rewrite (λ x, passing_entry_demonstrated _ x Hnd).
Qed.
End capacity.
