(* ===== verification/CanaryScenario.v ===== *)
(** * CanaryScenario: one capability climbs the ladder and is rolled back

    A concrete platform (polynomial digests, a reader of whole-second UTC texts) and a run of
    the signer and the coordinator on it: admission to the first canary stage, healthy
    telemetry, a promotion, two breaching windows. The release theorems are applied to it. *)

From S2P Require Import Prelude Text Domain Platform Json Datetime Rollout Capacity.
From S2P Require Import Capacity Canary EvidenceSigning CanaryLifecycle EvidenceSafety.
From S2P Require Import CanarySafety ReleaseSafety.
From Corelib Require Import SpecFloat.

#[local] Open Scope Z_scope.

(** ** The platform *)

Fixpoint poly (acc : Z) (s : string) : Z :=
  match s with
  | EmptyString => acc
  | String a s' => poly (Z.land (acc * 257 + Z.of_N (N_of_ascii a)) 1099511627775) s'
  end.

Definition toy_hex (s : string) : string := pad 64 (poly 1 s).

(** The text of a float with an integral value; another text for the others. *)
Definition toy_repr (f : spec_float) : string :=
  match f with
  | S754_finite false m e =>
      let d := 2 ^ (- e) in
      if decide (0 ≤ e) then int_str (Zpos m * 2 ^ e) +:+ ".0"
      else if decide (Zpos m `mod` d = 0) then int_str (Zpos m `div` d) +:+ ".0"
      else int_str (Zpos m) +:+ "p" +:+ int_str e
  | _ => "0.0"
  end.

#[local] Instance ladder_platform : Platform := {|
  sha256_text := toy_hex;
  uuid_canon s := if decide (s = "") then None else Some s;
  nfc s := s;
  path_resolve s := s;
  path_resolve_strict s := Some s;
  float_repr := toy_repr;
  float_of _ := None;
|}.

(** [YYYY-MM-DDTHH:MM:SS+00:00]. *)
Definition toy_iso (s : string) : option (datetime * option timedelta) :=
  let field i n := digits_value 0 (str_take n (str_drop i s)) in
  if decide (String.length s = 25%nat ∧ str_drop 19 s = "+00:00") then
    Some (days (day_of_civil (field 0%nat 4%nat, field 5%nat 2%nat, field 8%nat 2%nat))
          + seconds (3600 * field 11%nat 2%nat + 60 * field 14%nat 2%nat + field 17%nat 2%nat), Some 0)
  else None.

#[local] Instance ladder_signing : Signing := {|
  hmac_sha256 key message := toy_hex (key +:+ "|" +:+ message);
  fromisoformat := toy_iso;
|}.

(** ** The parties *)

Definition t0 : datetime := seconds 1767225600.   (* 2026-01-01T00:00:00Z *)
Definition hour (n : Z) : datetime := t0 + hours n.

Definition key_a : string := "runner-a-key-0123456789abcdef0123".
Definition key_b : string := "runner-b-key-0123456789abcdef0123".
Definition key_s : string := "release-signing-key-0123456789abc".
Definition key_i : string := "inventory-key-0123456789abcdef012".
Definition hex_of (n : Z) : string := pad 64 n.

Definition demo_context : ReleaseContext := {|
  environment := "prod"; region := "eu-west-1"; release_sha := pad 40 7;
  config_sha256 := hex_of 8; cohort_version := "redis-canary-v1" |}.

Definition demo_gate : UnifiedCanaryGate := {|
  trusted_evidence_keys := {[ "release" := key_s ]}; gate_policy := CanaryGatePolicy_default |}.

Definition demo_signer : ProductionEvidenceSigner := {|
  runner_keys := {[ "runner-a" := key_a; "runner-b" := key_b ]};
  ps_signing_key_id := "release"; ps_signing_key := key_s;
  maximum_attestation_age := hours 24; maximum_evidence_ttl := hours 24 |}.

Definition demo_coordinator : CanaryLifecycleCoordinator := {|
  lc_gate := demo_gate; admission_verifier := demo_signer;
  trusted_inventory_keys := {[ "inventory" := key_i ]}; cooldown := minutes 30;
  maximum_convergence_age := minutes 5; soft_breach_windows_required := 2 |}.

(** ** Evidence *)

Definition live : ServiceProvenance := {|
  sp_kind := ServiceEvidenceKind.LIVE; sp_version := Some "16.2"; sp_endpoint_sha256 := Some (hex_of 9) |}.

Definition demo_measurement : CapacityMeasurement := {|
  m_postgres := live; m_redis := live; expected_peak_claims_per_second := f64 10;
  load_multiplier := f64 2; queued_commands := 1000; active_workers := 20;
  steady_claims_per_second := f64 20; sql_fallback_claims_per_second := f64 20;
  command_claim_p95_ms := f64 5; redis_wake_p95_ms := f64 5; outbox_lag_p95_ms := f64 5;
  sql_fallback_recovery_seconds := f64 5; command_loss := 0; m_duplicate_external_effects := 0;
  stale_writes_accepted := 0 |}.

Definition demo_result (x : FaultScenario.t) : FaultScenarioResult := {|
  fs_scenario := x; fs_evidence_kind := ServiceEvidenceKind.LIVE; fs_triggered := true;
  fs_passed := true; fs_recovery_seconds := f64 1;
  fs_invariants := FaultScenario.required_invariants x; fs_failure_code := None |}.

Definition demo_faults : FaultDrillReport := {|
  fd_execution_id := "drill"; fd_started_at := "2026-01-01T00:00:00Z";
  fd_finished_at := "2026-01-01T00:10:00Z"; fd_context := demo_context; fd_postgres := live;
  fd_redis := live; fd_raw_results_sha256 := hex_of 10;
  fd_results := map demo_result FaultScenario.required; fd_schema_version := 1;
  fd_suite := FAULT_SUITE |}.

Definition metrics (latency : Z) : CohortMetrics := {|
  sample_count := 2000; latency_p95_ms := f64 latency; error_rate_percent := f64 0;
  redis_fallback_recovery_seconds := f64 1; outbox_lag_p95_seconds := f64 1 |}.

Definition no_violations : HardSafetyCounters := {|
  duplicate_external_effects := 0; approval_bypasses := 0; budget_bypasses := 0;
  authorization_bypasses := 0; cross_tenant_or_pool_leaks := 0; stale_fence_accepts := 0;
  prompt_integrity_violations := 0 |}.

(** A window of one hour; the candidate's latency decides whether it breaches. *)
Definition window (x : RolloutStage.t) (from : Z) (latency : Z) : CanaryObservation := {|
  co_capability := RedisCapability.UI_STATUS_READ; co_context := demo_context; co_stage := x;
  co_observed_from := hour from; co_observed_until := hour (from + 1); control := metrics 10;
  candidate := metrics latency; co_hard_safety := no_violations; consecutive_breaching_windows := 0 |}.

Definition attestation (kind : EvidenceArtifactKind.t) (runner key report raw : string)
    : res LiveArtifactAttestation :=
  attestation_sign {|
    artifact_kind := kind; la_context := demo_context; execution_id := "run-1";
    la_started_at := t0; la_finished_at := t0 + minutes 30; la_report_sha256 := report;
    la_raw_results_sha256 := raw; isolation_sha256 := hex_of 11; runner_build_sha256 := hex_of 12;
    services := []; outcome := EvidenceRunOutcome.PASSED; failure_codes := [];
    runner_key_id := runner; la_signature := ""; la_schema_version := 0; source := "" |} key.

(** The complete admission package. *)
Definition demo_bundle : res Phase42AdmissionBundle :=
  capacity ← build_report demo_measurement "2026-01-01T00:20:00Z" demo_context None;
  capacity_sha ← capacity_sha256 capacity;
  fault_sha ← fault_sha256 demo_faults;
  a ← attestation EvidenceArtifactKind.CAPACITY "runner-a" key_a capacity_sha (hex_of 13);
  b ← attestation EvidenceArtifactKind.FAULT_DRILL "runner-b" key_b fault_sha (hex_of 10);
  package ← sign_shadow_admission demo_signer demo_context (window RolloutStage.SHADOW 0 10) capacity
              demo_faults a b (hour 2) (hour 20) None;
  mret {| signed := package; capacity_report := capacity; fault_report := demo_faults |}.

Definition no_inputs : AdvanceInputs := {|
  convergence := None; current_inventory_revision := None; observation := None; evidence := None;
  admission_bundle := None; safety_snapshot := None |}.

Definition converged (m : RolloutManifest) (t : datetime) : res GenerationConvergence :=
  convergence_sign m "inv-1" ["api-1"; "api-2"]
    [{| instance_id := "api-1"; ai_generation := m.(rm_generation) |};
     {| instance_id := "api-2"; ai_generation := m.(rm_generation) |}] t "inventory" key_i.

Definition snapshot_of (o : CanaryObservation) : CanarySafetySnapshot := {|
  ss_capability := o.(co_capability); ss_context := o.(co_context); ss_stage := o.(co_stage);
  ss_observed_from := o.(co_observed_from); ss_observed_until := o.(co_observed_until);
  ss_hard_safety := o.(co_hard_safety); committed_fact_loss := 0;
  completed_probes := REQUIRED_SAFETY_PROBES; ss_schema_version := 1 |}.

(** Signed telemetry: the envelope names the snapshot and the evidence before it. *)
Definition telemetry (o : CanaryObservation) (expires : datetime) (previous : option string)
    : res SignedEvidenceEnvelope :=
  sha ← snapshot_sha256 (snapshot_of o);
  envelope_sign o sha expires "release" key_s previous.

(** ** The run *)

Definition off_state : CanaryLifecycleState := {|
  manifest := {| rm_context := demo_context; rm_generation := 1; authorizations := [] |};
  capability := RedisCapability.UI_STATUS_READ; cooldown_until := None; soft_breach_windows := [];
  state_revision := 0; serving_expires_at := None; last_health_evidence_sha256 := None;
  last_health_observed_until := None; last_rollback_at := None; last_admission_sha256 := None |}.

(** The inputs of the admission to the first stage. *)
Definition admission_inputs (c : GenerationConvergence) (b : Phase42AdmissionBundle) : AdvanceInputs := {|
  convergence := Some c; current_inventory_revision := Some "inv-1";
  observation := Some (window RolloutStage.SHADOW 0 10); evidence := None;
  admission_bundle := Some b; safety_snapshot := None |}.

Definition promotion_inputs (c : GenerationConvergence) (o : CanaryObservation)
    (e : SignedEvidenceEnvelope) : AdvanceInputs := {|
  convergence := Some c; current_inventory_revision := Some "inv-1"; observation := Some o;
  evidence := Some e; admission_bundle := None; safety_snapshot := Some (snapshot_of o) |}.

Record ladder_run := {
  lr_bundle : Phase42AdmissionBundle;
  lr_shadow : CanaryLifecycleDecision;
  lr_convergence : GenerationConvergence;
  lr_gate : CanaryGateDecision;
  lr_first : CanaryLifecycleDecision;
  lr_healthy_evidence : SignedEvidenceEnvelope;
  lr_healthy : CanaryLifecycleDecision;
  lr_unsafe : CanaryLifecycleDecision;
  lr_convergence' : GenerationConvergence;
  lr_second : CanaryLifecycleDecision;
  lr_breach_evidence : SignedEvidenceEnvelope;
  lr_breach : CanaryLifecycleDecision;
  lr_breach_evidence' : SignedEvidenceEnvelope;
  lr_rollback : CanaryLifecycleDecision;
}.

Definition healthy_window : CanaryObservation := window RolloutStage.CANARY_1 3 10.
Definition breach_window (from : Z) : CanaryObservation := window RolloutStage.CANARY_5 from 100.

Definition ladder : res ladder_run :=
  bundle ← demo_bundle;
  shadow ← advance demo_coordinator off_state RolloutStage.SHADOW (hour 2) no_inputs;
  c ← converged shadow.(ld_state).(manifest) (hour 2);
  granted ← evaluate_transition demo_gate RedisCapability.UI_STATUS_READ demo_context
              (authorization shadow.(ld_state)) RolloutStage.CANARY_1 (hour 2)
              (Some bundle.(signed).(envelope)) (Some (window RolloutStage.SHADOW 0 10))
              (Some bundle.(capacity_report));
  first ← advance demo_coordinator shadow.(ld_state) RolloutStage.CANARY_1 (hour 2) (admission_inputs c bundle);
  sha ← envelope_sha256 bundle.(signed).(envelope);
  e ← telemetry healthy_window (hour 20) (Some sha);
  healthy ← observe_health demo_coordinator first.(ld_state) (hour 4) healthy_window e
              (Some (snapshot_of healthy_window));
  unsafe ← observe_health demo_coordinator first.(ld_state) (hour 4) healthy_window e None;
  c' ← converged healthy.(ld_state).(manifest) (hour 4);
  second ← advance demo_coordinator healthy.(ld_state) RolloutStage.CANARY_5 (hour 4)
             (promotion_inputs c' healthy_window e);
  sha' ← envelope_sha256 e;
  e1 ← telemetry (breach_window 5) (hour 20) (Some sha');
  breach ← observe_health demo_coordinator second.(ld_state) (hour 6) (breach_window 5) e1
             (Some (snapshot_of (breach_window 5)));
  sha1 ← envelope_sha256 e1;
  e2 ← telemetry (breach_window 6) (hour 20) (Some sha1);
  back ← observe_health demo_coordinator breach.(ld_state) (hour 7) (breach_window 6) e2
           (Some (snapshot_of (breach_window 6)));
  mret {| lr_bundle := bundle; lr_shadow := shadow; lr_convergence := c; lr_gate := granted; lr_first := first;
          lr_healthy_evidence := e; lr_healthy := healthy; lr_unsafe := unsafe; lr_convergence' := c';
          lr_second := second; lr_breach_evidence := e1; lr_breach := breach;
          lr_breach_evidence' := e2; lr_rollback := back |}.

(** The runtime policy of a deployment that holds one state. *)
Definition demo_policy (s : CanaryLifecycleState) : LifecycleTenantPolicy := {|
  lp_states := [(RedisCapability.UI_STATUS_READ, s)]; lp_expected_context := demo_context;
  lp_cohort_secret := key_s |}.

(** What the run shows. *)
Definition ladder_checks (r : ladder_run) : bool :=
  bool_decide (r.(lr_gate).(gd_allowed) = true
    ∧ stage r.(lr_first).(ld_state) = RolloutStage.CANARY_1
    ∧ lifecycle_allows (demo_policy r.(lr_first).(ld_state)) (Ok (hour 5))
        RedisCapability.UI_STATUS_READ "tenant" = Ok true
    ∧ r.(lr_second).(ld_state).(soft_breach_windows) = []
    ∧ stage r.(lr_second).(ld_state) = RolloutStage.CANARY_5
    ∧ r.(lr_breach).(ld_allowed) = false ∧ r.(lr_rollback).(ld_allowed) = false).

(** ** The release properties on the run
    the release properties on the run of the scenario *)

#[local] Existing Instance ladder_platform.
#[local] Existing Instance ladder_signing.

(** The calls of the run. *)
Record ladder_calls (r : ladder_run) : Prop := {
  lk_bundle : demo_bundle = Ok r.(lr_bundle);
  lk_shadow : advance demo_coordinator off_state RolloutStage.SHADOW (hour 2) no_inputs = Ok r.(lr_shadow);
  lk_gate : evaluate_transition demo_gate RedisCapability.UI_STATUS_READ demo_context
              (authorization r.(lr_shadow).(ld_state)) RolloutStage.CANARY_1 (hour 2)
              (Some r.(lr_bundle).(signed).(envelope)) (Some (window RolloutStage.SHADOW 0 10))
              (Some r.(lr_bundle).(capacity_report)) = Ok r.(lr_gate);
  lk_first : advance demo_coordinator r.(lr_shadow).(ld_state) RolloutStage.CANARY_1 (hour 2)
               (admission_inputs r.(lr_convergence) r.(lr_bundle)) = Ok r.(lr_first);
  lk_unsafe : observe_health demo_coordinator r.(lr_first).(ld_state) (hour 4) healthy_window
                r.(lr_healthy_evidence) None = Ok r.(lr_unsafe);
  lk_breach : observe_health demo_coordinator r.(lr_second).(ld_state) (hour 6) (breach_window 5)
                r.(lr_breach_evidence) (Some (snapshot_of (breach_window 5))) = Ok r.(lr_breach);
  lk_rollback : observe_health demo_coordinator r.(lr_breach).(ld_state) (hour 7) (breach_window 6)
                  r.(lr_breach_evidence') (Some (snapshot_of (breach_window 6))) = Ok r.(lr_rollback);
}.

Lemma ladder_inv r : ladder = Ok r → ladder_calls r.
Proof.
  unfold ladder. intros Hr.
  repeat match goal with
         | H : mbind _ _ = Ok r |- _ =>
             let a := fresh "a" in let Ha := fresh "Ha" in
             apply result_bind_Ok in H as (a & Ha & H)
         end.
  apply mret_Ok in Hr as <-. by constructor.
Qed.

Lemma ladder_runs : match ladder with Ok r => ladder_checks r | Err _ => false end = true.
Proof. vm_compute. reflexivity. Qed.

Lemma ladder_run_ok : ∃ r, ladder_calls r ∧ ladder_checks r = true.
Proof.
  pose proof ladder_runs as Hr. destruct ladder as [r|] eqn:Hl; [|discriminate Hr].
  exists r. split; [by apply ladder_inv|done].
Qed.

(** Witness of [gate_allows_exactly]: the admission to the first stage. *)
Lemma gate_allows_exactly_witness :
  ∃ r, gd_allowed r.(lr_gate) = true
       ∧ transition_allowed demo_gate RedisCapability.UI_STATUS_READ demo_context
           (authorization r.(lr_shadow).(ld_state)) RolloutStage.CANARY_1 (hour 2)
           (Some r.(lr_bundle).(signed).(envelope)) (Some (window RolloutStage.SHADOW 0 10))
           (Some r.(lr_bundle).(capacity_report)).
Proof.
  destruct ladder_run_ok as (r & Hr & (Hal & _)%bool_decide_eq_true). exists r. split; [exact Hal|].
  apply (gate_allows_exactly _ _ _ _ _ _ _ _ _ _ (lk_gate _ Hr)). exact Hal.
Defined.

(** Witness of [every_decision_is_a_lifecycle_step]. *)
Lemma every_decision_is_a_lifecycle_step_witness :
  ∃ r, decision_ok demo_coordinator r.(lr_shadow).(ld_state) (hour 2) r.(lr_first).
Proof.
  destruct ladder_run_ok as (r & Hr & _). exists r.
  apply (every_decision_is_a_lifecycle_step demo_coordinator
           (Advance RolloutStage.CANARY_1 (admission_inputs r.(lr_convergence) r.(lr_bundle)))).
  exact (lk_first _ Hr).
Defined.

Lemma off_state_fresh : fresh off_state.
Proof. by vm_compute. Qed.

Lemma first_reachable r :
  ladder_calls r → lifecycle_reachable demo_coordinator r.(lr_first).(ld_state) (hour 2).
Proof.
  intros Hr. eapply (reach_decision _ _ (hour 2) _ (Advance _ _)); [|done|exact (lk_first _ Hr)].
  eapply (reach_decision _ _ (hour 2) _ (Advance _ _)); [|done|exact (lk_shadow _ Hr)].
  apply reach_start, off_state_fresh.
Qed.

(** Witness of [no_tenant_is_served_in_cooldown]: the tenant of the first stage. *)
Lemma no_tenant_is_served_in_cooldown_witness :
  ∃ r, lifecycle_allows (demo_policy r.(lr_first).(ld_state)) (Ok (hour 5))
         RedisCapability.UI_STATUS_READ "tenant" = Ok true
       ∧ ∃ expiry, r.(lr_first).(ld_state).(serving_expires_at) = Some expiry ∧ hour 5 < expiry.
Proof.
  destruct ladder_run_ok as (r & Hr & (_ & _ & Hallow & _)%bool_decide_eq_true).
  exists r. split; [exact Hallow|].
  destruct (no_tenant_is_served_in_cooldown demo_coordinator r.(lr_first).(ld_state) (hour 2) (hour 5)
              (demo_policy r.(lr_first).(ld_state)) RedisCapability.UI_STATUS_READ "tenant")
    as (_ & _ & Hexp & _).
  - vm_compute. discriminate.
  - by apply first_reachable.
  - vm_compute. discriminate.
  - reflexivity.
  - exact Hallow.
  - exact Hexp.
Defined.

(** Witness of [unhealthy_serving_is_bounded]: two breaching windows at five percent. *)
Lemma unhealthy_serving_is_bounded_witness :
  ∃ r, unhealthy_run demo_coordinator r.(lr_second).(ld_state) 2 r.(lr_rollback).(ld_state)
       ∧ serving (stage r.(lr_rollback).(ld_state)) = false.
Proof.
  destruct ladder_run_ok as (r & Hr & (_ & _ & _ & Hnil & Hstage & Hb1 & Hb2)%bool_decide_eq_true).
  assert (unhealthy_run demo_coordinator r.(lr_second).(ld_state) 2 r.(lr_rollback).(ld_state)) as Hrun.
  { eapply unhealthy_more; [exact (lk_breach _ Hr)|exact Hb1|].
    eapply unhealthy_more; [exact (lk_rollback _ Hr)|exact Hb2|apply unhealthy_none]. }
  exists r. split; [exact Hrun|].
  apply (unhealthy_serving_is_bounded demo_coordinator _ 2 _ Hrun).
  - rewrite Hstage. reflexivity.
  - exact Hnil.
  - reflexivity.
  - reflexivity.
Defined.

(** Witness of [unsafe_telemetry_stops_serving]: telemetry without a snapshot. *)
Lemma unsafe_telemetry_stops_serving_witness :
  ∃ r, ld_allowed r.(lr_unsafe) = false ∧ serving (stage r.(lr_unsafe).(ld_state)) = false.
Proof.
  destruct ladder_run_ok as (r & Hr & (_ & Hstage & _)%bool_decide_eq_true). exists r.
  apply (unsafe_telemetry_stops_serving demo_coordinator _ _ _ _ _ _) with (2 := lk_unsafe _ Hr).
  - rewrite Hstage. reflexivity.
  - right. intros x Hx. discriminate Hx.
Defined.

Lemma bundle_signed b :
  demo_bundle = Ok b →
  ∃ c x y, sign_shadow_admission demo_signer demo_context (window RolloutStage.SHADOW 0 10) c demo_faults
             x y (hour 2) (hour 20) None = Ok b.(signed).
Proof.
  unfold demo_bundle. intros Hb.
  apply result_bind_Ok in Hb as (c & _ & Hb). apply result_bind_Ok in Hb as (csha & _ & Hb).
  apply result_bind_Ok in Hb as (fsha & _ & Hb). apply result_bind_Ok in Hb as (x & _ & Hb).
  apply result_bind_Ok in Hb as (y & _ & Hb). apply result_bind_Ok in Hb as (p & Hp & Hb).
  apply mret_Ok in Hb as <-. by exists c, x, y.
Qed.

(** Witness of [signed_package_verifies]: the package of the run, eight hours later. *)
Lemma signed_package_verifies_witness :
  ∃ b, demo_bundle = Ok b ∧ verify_package demo_signer b.(signed) demo_context (hour 10) = Ok true.
Proof.
  destruct ladder_run_ok as (r & Hr & _). pose proof (lk_bundle _ Hr) as Hb. exists r.(lr_bundle).
  split; [exact Hb|]. destruct (bundle_signed _ Hb) as (c & x & y & Hs).
  apply (signed_package_verifies _ _ _ _ _ _ _ _ _ _ _ (hour 10) Hs). split; [discriminate|reflexivity].
Defined.

(** An envelope of the scenario, and the same one with a later expiry. *)
Definition demo_envelope : SignedEvidenceEnvelope :=
  let unsigned := {|
    ee_capability := RedisCapability.UI_STATUS_READ; ee_context := demo_context;
    artifact_sha256 := hex_of 1; observation_sha256 := hex_of 2; ee_observed_from := hour 0;
    ee_observed_until := hour 1; ee_expires_at := hour 20; tested_stage := RolloutStage.SHADOW;
    ee_sample_count := 2000; ee_key_id := "release"; ee_signature := "";
    previous_evidence_sha256 := None; ee_schema_version := 1 |} in
  unsigned <| ee_signature :=
    hmac_sha256 key_s (EVIDENCE_DOMAIN +:+ canonical_json (JObj (envelope_payload unsigned))) |>.

Lemma extended_signature e t : e.(ee_signature) = (e <| ee_expires_at := t |>).(ee_signature).
Proof. done. Qed.

(** Witness of [signatures_bind_every_field]: nobody can extend the expiry of the envelope. *)
Lemma signatures_bind_every_field_witness :
  envelope_verify demo_envelope key_s = Ok true
  ∧ envelope_verify (demo_envelope <| ee_expires_at := hour 21 |>) key_s ≠ Ok true.
Proof.
  assert (envelope_verify demo_envelope key_s = Ok true) as Hv by (vm_compute; reflexivity).
  split; [exact Hv|]. intros Hv'.
  destruct (signatures_bind_every_field key_s) as [Hbind _].
  specialize (Hbind demo_envelope (demo_envelope <| ee_expires_at := hour 21 |>)).
  assert (demo_envelope = demo_envelope <| ee_expires_at := hour 21 |>) as Hsame;
    [|apply (f_equal ee_expires_at) in Hsame; vm_compute in Hsame; discriminate Hsame].
  apply Hbind; [| |exact Hv|exact Hv'|exact (extended_signature demo_envelope (hour 21))|].
  - cbn. repeat split; vm_compute; discriminate.
  - cbn. repeat split; vm_compute; discriminate.
  - intros Heq. exfalso. vm_compute in Heq. discriminate Heq.
Defined.

(** Witness of [cohort_is_exact_share]: a tenant of the first stage is in the second. *)
Lemma cohort_is_exact_share_witness :
  tenant_in_canary_cohort "tenant" RolloutStage.CANARY_5 key_s "redis-canary-v1" = Ok true.
Proof.
  destruct (@cohort_is_exact_share ladder_platform ladder_signing eq_refl eq_refl eq_refl "tenant" key_s "redis-canary-v1"
              RolloutStage.CANARY_1) as [Hx Hy].
  - repeat split; try (vm_compute; reflexivity); try discriminate; vm_compute; lia.
  - apply Hy; [vm_compute; discriminate|]. rewrite Hx. vm_compute. reflexivity.
Defined.

Lemma build_report_valid m generated_at c policy r :
  build_report m generated_at c policy = Ok r → capacity_report_valid r = Ok ().
Proof.
  unfold build_report. intros Hr. apply result_bind_Ok in Hr as (d & _ & Hr).
  apply result_bind_Ok in Hr as ([] & Hvalid & Hr). by apply mret_Ok in Hr as <-.
Qed.

Lemma bundle_report b :
  demo_bundle = Ok b → ∃ r, build_report demo_measurement "2026-01-01T00:20:00Z" demo_context None = Ok r.
Proof. unfold demo_bundle. intros Hb. apply result_bind_Ok in Hb as (r & Hr & _). by exists r. Qed.

(** Witness of [capacity_report_is_not_forged]: the report of the run. *)
Lemma capacity_report_is_not_forged_witness :
  ∃ r, build_report demo_measurement "2026-01-01T00:20:00Z" demo_context None = Ok r
       ∧ (r.(cr_decision).(cd_allowed) = true ↔ meets r.(cr_measurement) r.(cr_policy)).
Proof.
  destruct ladder_run_ok as (run & Hr & _). destruct (bundle_report _ (lk_bundle _ Hr)) as [r Hrep].
  exists r. split; [exact Hrep|].
  apply (capacity_report_is_not_forged r (build_report_valid _ _ _ _ _ Hrep)).
Defined.

(** Witness of [fault_report_qualifies_exactly]: the drill of the run. *)
Lemma fault_report_qualifies_exactly_witness :
  demonstrated demo_faults.(fd_results) FaultScenario.SQL_FALLBACK.
Proof.
  apply (fault_report_qualifies_exactly demo_faults).
  - vm_compute. reflexivity.
  - vm_compute. reflexivity.
Defined.
