(* ===== verification/Effects.v ===== *)
(** * Effects: stateful computations whose failures keep the state

    Services call other services: what was done before an exception stays done.
    [eff E W A] threads a state of type [W] and returns a value or an error of type [E].
    [attempt m] is [try: m except Exception as e: ...], the error as a value.
    [ensures m P Q]: from every state that satisfies [P], [m] ends as [Q] says, whatever
    the outcome; the rules below follow the shape of a program. *)

From S2P Require Import Prelude Domain.

Definition eff (E W A : Type) : Type := W → result E A * W.

Section eff.
Context {E W : Type}.
Implicit Types w : W.

#[global] Instance eff_ret : MRet (eff E W) := λ A a w, (Ok a, w).
#[global] Instance eff_bind : MBind (eff E W) := λ A B k m w,
  match m w with
  | (Ok a, w') => k a w'
  | (Err e, w') => (Err e, w')
  end.

Definition fail {A} (e : E) : eff E W A := λ w, (Err e, w).
Definition from_result {A} (r : result E A) : eff E W A := λ w, (r, w).
Definition attempt {A} (m : eff E W A) : eff E W (result E A) := λ w, let '(r, w') := m w in (Ok r, w').
Definition read_state {A} (f : W → A) : eff E W A := λ w, (Ok (f w), w).

(** ** Outcomes *)

Definition ensures {A} (m : eff E W A) (P : W → Prop) (Q : result E A → W → W → Prop) : Prop :=
  ∀ w, P w → Q (m w).1 w (m w).2.

Lemma ensures_weaken {A} (m : eff E W A) (P P' : W → Prop) (Q Q' : result E A → W → W → Prop) :
  ensures m P' Q' → (∀ w, P w → P' w) → (∀ r w w', Q' r w w' → Q r w w') → ensures m P Q.
Proof. intros Hm HP HQ w Hw. by apply HQ, Hm, HP. Qed.

Lemma eff_bind_Ok {A B} (m : eff E W A) (k : A → eff E W B) w b w' :
  (m ≫= k) w = (Ok b, w') ↔ ∃ a w1, m w = (Ok a, w1) ∧ k a w1 = (Ok b, w').
Proof.
  unfold mbind, eff_bind. destruct (m w) as [[a|e] w1]; split.
  - intros ?. by exists a, w1.
  - by intros (? & ? & [= <- <-] & ?).
  - done.
  - by intros (? & ? & ? & ?).
Qed.

(** A relation between the states before and after that every step respects. *)
Definition respects (R : relation W) {A} (m : eff E W A) : Prop := ∀ w, R w (m w).2.

Context (R : relation W) `{!PreOrder R}.

Lemma respects_bind {A B} (m : eff E W A) (k : A → eff E W B) :
  respects R m → (∀ a, respects R (k a)) → respects R (m ≫= k).
Proof.
  intros Hm Hk w. unfold mbind, eff_bind. specialize (Hm w).
  destruct (m w) as [[a|e] w1]; [|done]. etrans; [exact Hm|apply Hk].
Qed.

Lemma respects_ret {A} (a : A) : respects R (mret a : eff E W A).
Proof. by intros w. Qed.
Lemma respects_fail {A} (e : E) : respects R (fail e : eff E W A).
Proof. by intros w. Qed.
Lemma respects_from_result {A} (r : result E A) : respects R (from_result r).
Proof. by intros w. Qed.
Lemma respects_read {A} (f : W → A) : respects R (read_state f).
Proof. by intros w. Qed.
Lemma respects_attempt {A} (m : eff E W A) : respects R m → respects R (attempt m).
Proof. intros Hm w. specialize (Hm w). unfold attempt. by destruct (m w). Qed.
End eff.

Arguments eff_ret {E W} A a /.

(** Python code: errors are exceptions. *)
Abbreviation pyeff := (eff exn).

Create HintDb eff_db.
#[export] Hint Resolve respects_bind respects_ret respects_fail respects_from_result
  respects_read respects_attempt : eff_db.
