(* ===== verification/Decimal.v ===== *)
(** * Decimal: versions as decimal texts

    Versions travel to Redis as canonical decimal texts, because Lua numbers are binary64:
    texts are compared by length and then byte by byte. [canonical_decimal] is the check
    that production/shadow_projection.py, production/redis_shadow.py,
    production/redis_active_index.py and the Lua scripts share; [compare_decimal] the
    comparison. The comparison of two canonical texts is the comparison of their values. *)

From S2P Require Import Prelude Text Domain Json Datetime Rollout.
From Stdlib Require Import Lia DecimalString Decimal DecimalZ DecimalPos DecimalFacts.

#[local] Open Scope Z_scope.

(** [value.isascii() and value.isdecimal()], and the leading zero. *)
Definition is_canonical_decimal (s : string) : bool :=
  negb (bool_decide (s = "")) && all_chars decimal_digit s
  && negb (bool_decide (1 < String.length s)%nat && head_is 48 s).

Definition canonical_decimal (s : string) : option Z :=
  if is_canonical_decimal s then Some (digits_value 0 s) else None.

(** [compare_decimal] of the Lua scripts and the end of [compare_decimal_versions]. *)
Definition compare_decimal (left right : string) : comparison :=
  match (String.length left ?= String.length right)%nat with
  | Eq => String.compare left right
  | c => c
  end.

(** [compare_decimal_versions(left, right)]. *)
Definition compare_decimal_versions (left right : string) : res Z :=
  assert_result (is_canonical_decimal left = true) ValueError;;
  assert_result (is_canonical_decimal right = true) ValueError;;
  mret (match compare_decimal left right with Lt => -1 | Eq => 0 | Gt => 1 end).

(** ** The text of a number *)

Lemma digits_value_uint d p :
  digits_value (Z.pos p) (NilEmpty.string_of_uint d) = Z.pos (Pos.of_uint_acc d p).
Proof.
  revert p. induction d as [|d IH|d IH|d IH|d IH|d IH|d IH|d IH|d IH|d IH|d IH]; intros p;
    cbn [NilEmpty.string_of_uint digits_value Pos.of_uint_acc]; [done|..];
    rewrite <- IH; f_equal; vm_compute Z.of_nat; lia.
Qed.

Lemma digits_value_zero d : digits_value 0 (NilEmpty.string_of_uint d) = Z.of_uint d.
Proof.
  unfold Z.of_uint. induction d as [|d IH|d IH|d IH|d IH|d IH|d IH|d IH|d IH|d IH|d IH];
    cbn [NilEmpty.string_of_uint digits_value Pos.of_uint]; [done|exact IH|..];
    simpl; apply digits_value_uint.
Qed.

Lemma uint_digits d : all_chars decimal_digit (NilEmpty.string_of_uint d) = true.
Proof. by induction d. Qed.

Lemma int_str_canonical n : 0 ≤ n → is_canonical_decimal (int_str n) = true.
Proof.
  intros Hn. unfold is_canonical_decimal, int_str. destruct n as [|p|p]; [done| |lia].
  unfold Z.to_int, NilEmpty.string_of_int. rewrite uint_digits.
  pose proof (head_is_pos p "") as (Hh & _ & Hne). rewrite str_app_nil_r in Hh.
  rewrite bool_decide_eq_false_2 by done. rewrite Hh. by rewrite andb_false_r.
Qed.

Lemma canonical_decimal_int n : 0 ≤ n → canonical_decimal (int_str n) = Some n.
Proof.
  intros Hn. unfold canonical_decimal. rewrite int_str_canonical by done. f_equal.
  unfold int_str. destruct n as [|p|p]; [done| |lia].
  unfold Z.to_int, NilEmpty.string_of_int. rewrite digits_value_zero.
  change (Z.of_int (Z.to_int (Z.pos p)) = Z.pos p). apply DecimalZ.of_to.
Qed.

Lemma int_str_inj m n : 0 ≤ m → 0 ≤ n → int_str m = int_str n → m = n.
Proof.
  intros Hm Hn Heq. pose proof (canonical_decimal_int m Hm) as Hm'.
  rewrite Heq, canonical_decimal_int in Hm' by done. by injection Hm'.
Qed.

(** ** The comparison *)

Lemma digit_range a : decimal_digit a = true → 0 ≤ Z.of_nat (nat_of_ascii a) - 48 ≤ 9.
Proof. unfold decimal_digit, byte_in. rewrite andb_true_iff, !Nat.leb_le. lia. Qed.

Lemma digits_value_range s acc :
  all_chars decimal_digit s = true →
  acc * 10 ^ Z.of_nat (String.length s) ≤ digits_value acc s
  < (acc + 1) * 10 ^ Z.of_nat (String.length s).
Proof.
  revert acc. induction s as [|a s IH]; intros acc; cbn [digits_value String.length all_chars];
    [simpl; lia|].
  rewrite andb_true_iff. intros [Ha Hs]. pose proof (digit_range a Ha).
  specialize (IH (10 * acc + (Z.of_nat (nat_of_ascii a) - 48)) Hs).
  rewrite Nat2Z.inj_succ, Z.pow_succ_r by lia.
  pose proof (Z.pow_pos_nonneg 10 (Z.of_nat (String.length s)) ltac:(lia) ltac:(lia)). nia.
Qed.

Lemma ascii_compare_nat a b : Ascii.compare a b = (nat_of_ascii a ?= nat_of_ascii b)%nat.
Proof. unfold Ascii.compare, nat_of_ascii. by rewrite N2Nat.inj_compare. Qed.

Lemma compare_same_length s t acc acc' :
  all_chars decimal_digit s = true → all_chars decimal_digit t = true →
  String.length s = String.length t → acc = acc' →
  (digits_value acc s ?= digits_value acc' t) = String.compare s t.
Proof.
  intros Hs Ht Hlen <-. revert t acc Hs Ht Hlen.
  induction s as [|a s IH]; intros [|b t] acc Hs Ht Hlen; try done; [apply Z.compare_refl|].
  cbn [all_chars] in Hs, Ht. apply andb_true_iff in Hs as [Ha Hs]. apply andb_true_iff in Ht as [Hb Ht].
  injection Hlen as Hlen. cbn [digits_value String.compare].
  pose proof (digit_range a Ha). pose proof (digit_range b Hb).
  pose proof (digits_value_range s (10 * acc + (Z.of_nat (nat_of_ascii a) - 48)) Hs) as Hrs.
  pose proof (digits_value_range t (10 * acc + (Z.of_nat (nat_of_ascii b) - 48)) Ht) as Hrt.
  rewrite <- Hlen in Hrt.
  pose proof (Z.pow_pos_nonneg 10 (Z.of_nat (String.length s)) ltac:(lia) ltac:(lia)).
  rewrite ascii_compare_nat. destruct (Nat.compare_spec (nat_of_ascii a) (nat_of_ascii b)) as [Heq|Hlt|Hgt].
  - rewrite Heq. by apply IH.
  - apply Z.compare_lt_iff. nia.
  - apply Z.compare_gt_iff. nia.
Qed.

(** A longer canonical text is a larger number. *)
Lemma canonical_lower_bound s :
  is_canonical_decimal s = true → (1 < String.length s)%nat →
  10 ^ (Z.of_nat (String.length s) - 1) ≤ digits_value 0 s.
Proof.
  unfold is_canonical_decimal. rewrite !andb_true_iff, !negb_true_iff.
  intros [[_ Hd] Hz] Hlen. rewrite bool_decide_eq_true_2 in Hz by done. cbn [andb] in Hz.
  destruct s as [|a s]; [done|]. cbn [digits_value all_chars head_is String.length] in *.
  apply andb_true_iff in Hd as [Ha Hs]. apply Nat.eqb_neq in Hz.
  pose proof (digit_range a Ha).
  pose proof (digits_value_range s (10 * 0 + (Z.of_nat (nat_of_ascii a) - 48)) Hs) as Hr.
  replace (Z.of_nat (S (String.length s)) - 1) with (Z.of_nat (String.length s)) by lia.
  pose proof (Z.pow_pos_nonneg 10 (Z.of_nat (String.length s)) ltac:(lia) ltac:(lia)).
  assert (1 ≤ Z.of_nat (nat_of_ascii a) - 48) by lia. nia.
Qed.

Lemma canonical_shorter s t :
  is_canonical_decimal s = true → is_canonical_decimal t = true →
  (String.length s < String.length t)%nat → digits_value 0 s < digits_value 0 t.
Proof.
  intros Hs Ht Hlen.
  assert (String.length s ≠ 0%nat) as Hne.
  { intros H0. destruct s; [|done]. done. }
  pose proof (canonical_lower_bound t Ht ltac:(lia)) as Hlow.
  assert (all_chars decimal_digit s = true) as Hd.
  { unfold is_canonical_decimal in Hs. by rewrite !andb_true_iff in Hs; destruct Hs as [[_ ?] _]. }
  pose proof (digits_value_range s 0 Hd) as [_ Hup].
  assert (10 ^ Z.of_nat (String.length s) ≤ 10 ^ (Z.of_nat (String.length t) - 1))
    by (apply Z.pow_le_mono_r; lia).
  lia.
Qed.

Lemma compare_decimal_value s t m n :
  canonical_decimal s = Some m → canonical_decimal t = Some n → compare_decimal s t = (m ?= n).
Proof.
  unfold canonical_decimal. intros Hs Ht. repeat case_match; simplify_eq.
  unfold compare_decimal. destruct (Nat.compare_spec (String.length s) (String.length t)) as [Heq|Hlt|Hgt].
  - symmetry. apply compare_same_length; [..|done]; try done;
      unfold is_canonical_decimal in *; by repeat (rewrite !andb_true_iff in *; destruct_and!).
  - symmetry. by apply Z.compare_lt_iff, canonical_shorter.
  - symmetry. by apply Z.compare_gt_iff, canonical_shorter.
Qed.

Lemma compare_decimal_int m n :
  0 ≤ m → 0 ≤ n → compare_decimal (int_str m) (int_str n) = (m ?= n).
Proof. intros Hm Hn. by apply compare_decimal_value; apply canonical_decimal_int. Qed.
