(* ===== verification/Redis.v ===== *)
(** * Redis: the server the production services talk to

    The server is a parameter: a state in which keys have values and deadlines, and one
    operation [command] that executes a command and answers. [RedisLaws] states the
    documented behaviour of the commands that the Lua scripts and the clients use, on keys
    of the right type; a command on a key of another type answers an error and does nothing.
    Keys may disappear between commands: when their deadline has passed ([passes]), or at
    any time when the server evicts or loses them ([loses]).

    [lua] is the language of the scripts: [redis_call] stops the script on an error reply,
    as [redis.call] does, and what was written before stays. A script runs atomically.
    [plain_redis] is a concrete server that obeys the laws, to evaluate scripts on. *)

From S2P Require Import Prelude Domain Json Datetime Effects Decimal.
From Stdlib Require Import Lia.

#[local] Open Scope Z_scope.

(** ** Values, replies, states *)

Inductive rvalue :=
| RText (s : string)
| RHash (h : gmap string string)
| RZset (members : gmap string Z).

Inductive reply :=
| RStatus (s : string)
| RInt (n : Z)
| RBulk (s : string)
| RNil
| RArray (l : list reply)
| RError (message : string).

Class Redis := {
  server : Type;
  value_at : server → string → option rvalue;
  (** the time at which a key expires, in milliseconds *)
  deadline : server → string → option Z;
  (** the server's clock, in microseconds *)
  server_time : server → Z;
  command : list string → server → reply * server;
}.

(** What a missing key stands for. *)
Definition hash_of (v : option rvalue) : option (gmap string string) :=
  match v with None => Some ∅ | Some (RHash h) => Some h | _ => None end.

Definition zset_of (v : option rvalue) : option (gmap string Z) :=
  match v with None => Some ∅ | Some (RZset z) => Some z | _ => None end.

Definition text_of (v : option rvalue) : option (option string) :=
  match v with None => Some None | Some (RText s) => Some (Some s) | _ => None end.

Definition type_name (v : option rvalue) : string :=
  match v with
  | None => "none" | Some (RText _) => "string" | Some (RHash _) => "hash" | Some (RZset _) => "zset"
  end.

Definition bulk (o : option string) : reply := match o with None => RNil | Some s => RBulk s end.

(** The text of a bulk reply, [None] for nil. *)
Definition reply_text (r : reply) : option string :=
  match r with RBulk s => Some s | _ => None end.

(** An empty sorted set does not exist. *)
Definition some_zset (z : gmap string Z) : option rvalue :=
  if decide (z = ∅) then None else Some (RZset z).

(** The fields of HSET. *)
Fixpoint flatten (pairs : list (string * string)) : list string :=
  match pairs with [] => [] | (f, v) :: pairs' => f :: v :: flatten pairs' end.

Definition set_fields (pairs : list (string * string)) (h : gmap string string) : gmap string string :=
  foldl (λ h p, <[p.1 := p.2]> h) h pairs.

(** The members of a sorted set whose scores are equal, in descending byte order, that lie
    below the bound: [+] is no bound, [(m] excludes what is not below [m]. *)
Definition below (bound member : string) : bool :=
  match bound with
  | String a m => if bool_decide (a = "("%char) then bool_decide (String.compare member m = Lt) else true
  | EmptyString => false
  end.

Definition byte_ge (x y : string) : Prop := String.le y x.
#[global] Instance byte_ge_dec : RelDecision byte_ge.
Proof. intros x y. unfold byte_ge. apply _. Defined.

Definition descending (z : gmap string Z) : list string := merge_sort byte_ge (elements (dom z)).

Definition range_below (z : gmap string Z) (bound : string) (limit : nat) : list string :=
  take limit (filter (λ m, below bound m = true) (descending z)).

Section laws.
Context `{Redis}.
Implicit Types s : server.

(** The key [k] now has the value [v] and the deadline [d]; nothing else has changed. *)
Definition wrote (s : server) (k : string) (v : option rvalue) (d : option Z) (s' : server) : Prop :=
  server_time s' = server_time s
  ∧ ∀ k', value_at s' k' = (if decide (k' = k) then v else value_at s k')
          ∧ deadline s' k' = (if decide (k' = k) then d else deadline s k').

(** The type of value that a command wants at its key. *)
Definition wants (c : list string) : option (string * string) :=
  match c with
  | "GET" :: k :: _ => Some (k, "string")
  | "HGET" :: k :: _ | "HSET" :: k :: _ | "HLEN" :: k :: _ | "HGETALL" :: k :: _ => Some (k, "hash")
  | "ZADD" :: k :: _ | "ZREM" :: k :: _ | "ZSCORE" :: k :: _ | "ZREVRANGEBYLEX" :: k :: _ =>
      Some (k, "zset")
  | _ => None
  end%string.

Class RedisLaws : Prop := {
  time_nonneg s : 0 ≤ server_time s;
  wrong_type s c k ty :
    wants c = Some (k, ty) → type_name (value_at s k) ≠ "none" → type_name (value_at s k) ≠ ty →
    ∃ m, command c s = (RError m, s);
  (** commands that read *)
  exists_law s k :
    command ["EXISTS"; k] s = (RInt (if decide (value_at s k = None) then 0 else 1), s);
  type_law s k : command ["TYPE"; k] s = (RStatus (type_name (value_at s k)), s);
  time_law s :
    command ["TIME"] s = (RArray [RBulk (int_str (server_time s `div` 1000000));
                                  RBulk (int_str (server_time s `mod` 1000000))], s);
  get_law s k t : text_of (value_at s k) = Some t → command ["GET"; k] s = (bulk t, s);
  hget_law s k f h : hash_of (value_at s k) = Some h → command ["HGET"; k; f] s = (bulk (h !! f), s);
  hlen_law s k h : hash_of (value_at s k) = Some h → command ["HLEN"; k] s = (RInt (Z.of_nat (size h)), s);
  hgetall_law s k h :
    hash_of (value_at s k) = Some h →
    command ["HGETALL"; k] s = (RArray (flat_map (λ p, [RBulk p.1; RBulk p.2]) (map_to_list h)), s);
  zscore_law s k m z :
    zset_of (value_at s k) = Some z →
    command ["ZSCORE"; k; m] s = (bulk (int_str <$> z !! m), s);
  zrange_law s k bound n z :
    zset_of (value_at s k) = Some z → (∀ m x, z !! m = Some x → x = 0) → 0 ≤ n →
    command ["ZREVRANGEBYLEX"; k; bound; "-"; "LIMIT"; "0"; int_str n] s
    = (RArray (map RBulk (range_below z bound (Z.to_nat n))), s);
  mget_law s ks :
    command ("MGET" :: ks) s
    = (RArray (map (λ k, bulk (from_option id None (text_of (value_at s k)))) ks), s);
  (** a message to subscribers, which are not part of the state *)
  publish_law s channel message :
    ∃ n, 0 ≤ n ∧ command ["PUBLISH"; channel; message] s = (RInt n, s);
  (** commands that write *)
  hset_law s k p pairs h :
    hash_of (value_at s k) = Some h →
    ∃ n s', command ("HSET" :: k :: flatten (p :: pairs)) s = (RInt n, s')
            ∧ wrote s k (Some (RHash (set_fields (p :: pairs) h))) (deadline s k) s';
  expire_law s k n :
    value_at s k ≠ None → 0 < n →
    ∃ s', command ["EXPIRE"; k; int_str n] s = (RInt 1, s')
          ∧ wrote s k (value_at s k) (Some (server_time s `div` 1000 + 1000 * n)) s';
  pexpire_law s k n :
    value_at s k ≠ None → 0 < n →
    ∃ s', command ["PEXPIRE"; k; int_str n] s = (RInt 1, s')
          ∧ wrote s k (value_at s k) (Some (server_time s `div` 1000 + n)) s';
  set_law s k t :
    ∃ s', command ["SET"; k; t] s = (RStatus "OK", s') ∧ wrote s k (Some (RText t)) None s';
  set_ex_law s k t n :
    0 < n →
    ∃ s', command ["SET"; k; t; "EX"; int_str n] s = (RStatus "OK", s')
          ∧ wrote s k (Some (RText t)) (Some (server_time s `div` 1000 + 1000 * n)) s';
  zadd_law s k m z :
    zset_of (value_at s k) = Some z →
    ∃ s', command ["ZADD"; k; "0"; m] s = (RInt (if decide (z !! m = None) then 1 else 0), s')
          ∧ wrote s k (Some (RZset (<[m := 0]> z))) (deadline s k) s';
  zrem_law s k m z :
    zset_of (value_at s k) = Some z →
    ∃ s', command ["ZREM"; k; m] s = (RInt (if decide (z !! m = None) then 0 else 1), s')
          ∧ wrote s k (some_zset (delete m z))
              (if decide (delete m z = ∅) then None else deadline s k) s';
  del_law s k :
    ∃ s', command ["DEL"; k] s = (RInt (if decide (value_at s k = None) then 0 else 1), s')
          ∧ wrote s k None None s';
}.

(** Time goes on and keys expire. *)
Definition passes (s s' : server) : Prop :=
  server_time s ≤ server_time s'
  ∧ ∀ k, (value_at s' k = value_at s k ∧ deadline s' k = deadline s k)
         ∨ (value_at s' k = None ∧ ∃ d, deadline s k = Some d ∧ 1000 * d ≤ server_time s').

(** Keys are evicted, expire or are flushed. *)
Definition loses (s s' : server) : Prop :=
  ∀ k, value_at s' k = value_at s k ∨ value_at s' k = None.

(** ** Scripts *)

Definition redis_call (c : list string) : eff string server reply := λ s,
  match command c s with
  | (RError m, s') => (Err m, s')
  | (r, s') => (Ok r, s')
  end.

(** What the client sees: an error reply is a ResponseError, which is a RedisError. *)
Definition script_reply (script : eff string server reply) (s : server) : res reply * server :=
  match script s with
  | (Ok (RError _), s') | (Err _, s') => (Err RedisError, s')
  | (Ok r, s') => (Ok r, s')
  end.
End laws.

Arguments wrote : simpl never.
Abbreviation lua := (eff string server).

(** ** Reasoning about scripts *)

Section reasoning.
Context `{Redis}.
Implicit Types s : server.

Lemma wrote_same s k v d s' : wrote s k v d s' → value_at s' k = v ∧ deadline s' k = d.
Proof. intros [_ Hw]. specialize (Hw k). by rewrite !decide_True in Hw. Qed.

Lemma wrote_other s k v d s' k' :
  wrote s k v d s' → k' ≠ k → value_at s' k' = value_at s k' ∧ deadline s' k' = deadline s k'.
Proof. intros [_ Hw] Hk. specialize (Hw k'). by rewrite !decide_False in Hw. Qed.

Lemma wrote_twice s k v d s1 v' d' s2 :
  wrote s k v d s1 → wrote s1 k v' d' s2 → wrote s k v' d' s2.
Proof.
  intros [Ht1 H1] [Ht2 H2]. split; [congruence|]. intros k'. specialize (H1 k'). specialize (H2 k').
  by case_decide; destruct H1 as [Hv1 Hd1], H2 as [Hv2 Hd2]; rewrite ?Hv2, ?Hd2.
Qed.

Lemma redis_call_Ok c s r s' :
  command c s = (r, s') → (∀ m, r ≠ RError m) → redis_call c s = (Ok r, s').
Proof. intros Hc Hr. unfold redis_call. rewrite Hc. destruct r; try done. by destruct (Hr message). Qed.

Lemma redis_call_bind {A} c s r s' (k : reply → lua A) :
  command c s = (r, s') → (∀ m, r ≠ RError m) → (redis_call c ≫= k) s = k r s'.
Proof. intros Hc Hr. unfold mbind, eff_bind. by rewrite (redis_call_Ok c s r s'). Qed.

Lemma reply_text_bulk o : reply_text (bulk o) = o.
Proof. by destruct o. Qed.

End reasoning.

(** ** The network *)

(** What happens to a request: it is answered, it does not arrive, or its answer is lost. *)
Inductive delivery := Answered | RequestLost | ReplyLost.

(** [client.eval(script, ...)]: [surroundings] is what other clients, time and eviction do to
    the server before the script runs. *)
Definition eval `{Redis} (surroundings : server → server) (d : delivery) (script : lua reply)
    : pyeff server reply := λ s,
  let s0 := surroundings s in
  match d with
  | Answered => script_reply script s0
  | RequestLost => (Err RedisError, s0)
  | ReplyLost => (Err RedisError, (script_reply script s0).2)
  end.

Lemma eval_cases `{Redis} surroundings d (script : lua reply) s r s' :
  eval surroundings d script s = (r, s') →
  (r = Err RedisError ∧ s' = surroundings s)
  ∨ ∃ r0, script (surroundings s) = (r0, s') ∧ (∀ answer, r = Ok answer → r0 = Ok answer)
          ∧ (∀ e, r = Err e → e = RedisError).
Proof.
  unfold eval, script_reply. destruct (script (surroundings s)) as [r0 s0] eqn:Hs.
  destruct d; [| |]; intros Hr; simplify_eq.
  - right. exists r0. destruct r0 as [[]|]; simplify_eq; (split_and!; [done|..]); naive_solver.
  - by left.
  - right. exists r0. destruct r0 as [[]|]; simplify_eq; (split_and!; [done|..]); naive_solver.
Qed.

(** ** A concrete server

    A finite map of values with their deadlines, and a clock. It executes the commands the
    scripts use as the laws of [Redis] say, so those laws are consistent and scripts can be
    evaluated on examples. *)

Record plain_server := {
  entries : gmap string (rvalue * option Z);
  plain_time : N;
}.

Definition plain_value (s : plain_server) (k : string) : option rvalue := fst <$> s.(entries) !! k.
Definition plain_deadline (s : plain_server) (k : string) : option Z := s.(entries) !! k ≫= snd.

Definition plain_put (s : plain_server) (k : string) (v : option rvalue) (d : option Z) : plain_server :=
  {| entries := match v with None => delete k s.(entries) | Some v => <[k := (v, d)]> s.(entries) end;
     plain_time := s.(plain_time) |}.

Fixpoint unflatten (l : list string) : list (string * string) :=
  match l with f :: v :: l' => (f, v) :: unflatten l' | _ => [] end.

Definition number_of (t : string) : Z := default 0 (canonical_decimal t).

(** The deadline of a time to live in milliseconds. *)
Definition deadline_in (s : plain_server) (ms : Z) : option Z :=
  Some (Z.of_N s.(plain_time) `div` 1000 + ms).

Definition expire (s : plain_server) (k : string) (ms : Z) : reply * plain_server :=
  match plain_value s k with
  | None => (RInt 0, s)
  | v => (RInt 1, plain_put s k v (deadline_in s ms))
  end.

(** Commands on a key of the right type. *)
Definition plain_execute (c : list string) (s : plain_server) : reply * plain_server :=
  match c with
  | ["EXISTS"; k] => (RInt (if decide (plain_value s k = None) then 0 else 1), s)
  | ["TYPE"; k] => (RStatus (type_name (plain_value s k)), s)
  | ["TIME"] => let t := Z.of_N s.(plain_time) in
      (RArray [RBulk (int_str (t `div` 1000000)); RBulk (int_str (t `mod` 1000000))], s)
  | ["GET"; k] => (bulk (from_option id None (text_of (plain_value s k))), s)
  | ["HGET"; k; f] => (bulk (hash_of (plain_value s k) ≫= lookup f), s)
  | ["HLEN"; k] => (RInt (from_option (λ h, Z.of_nat (size h)) 0 (hash_of (plain_value s k))), s)
  | ["HGETALL"; k] =>
      (RArray (flat_map (λ p, [RBulk p.1; RBulk p.2])
                 (map_to_list (default ∅ (hash_of (plain_value s k))))), s)
  | ["ZSCORE"; k; m] => (bulk (zset_of (plain_value s k) ≫= λ z, int_str <$> z !! m), s)
  | ["ZREVRANGEBYLEX"; k; bound; _; _; _; n] =>
      (RArray (map RBulk (range_below (default ∅ (zset_of (plain_value s k))) bound
                            (Z.to_nat (number_of n)))), s)
  | "MGET" :: ks => (RArray (map (λ k, bulk (from_option id None (text_of (plain_value s k)))) ks), s)
  | ["PUBLISH"; _; _] => (RInt 0, s)
  | "HSET" :: k :: fields =>
      (RInt 0, plain_put s k
                 (Some (RHash (set_fields (unflatten fields) (default ∅ (hash_of (plain_value s k))))))
                 (plain_deadline s k))
  | ["EXPIRE"; k; n] => expire s k (1000 * number_of n)
  | ["PEXPIRE"; k; n] => expire s k (number_of n)
  | ["SET"; k; t] => (RStatus "OK", plain_put s k (Some (RText t)) None)
  | ["SET"; k; t; _; n] =>
      (RStatus "OK", plain_put s k (Some (RText t)) (deadline_in s (1000 * number_of n)))
  | ["ZADD"; k; _; m] => let z := default ∅ (zset_of (plain_value s k)) in
      (RInt (if decide (z !! m = None) then 1 else 0),
       plain_put s k (Some (RZset (<[m := 0]> z))) (plain_deadline s k))
  | ["ZREM"; k; m] => let z := default ∅ (zset_of (plain_value s k)) in
      (RInt (if decide (z !! m = None) then 0 else 1),
       plain_put s k (some_zset (delete m z)) (plain_deadline s k))
  | ["DEL"; k] => (RInt (if decide (plain_value s k = None) then 0 else 1), plain_put s k None None)
  | _ => (RError "ERR", s)
  end%string.

Definition plain_command (c : list string) (s : plain_server) : reply * plain_server :=
  match wants c with
  | Some (k, ty) =>
      let t := type_name (plain_value s k) in
      if decide (t = "none" ∨ t = ty) then plain_execute c s else (RError "WRONGTYPE", s)
  | None => plain_execute c s
  end.

Definition plain_redis : Redis := {|
  server := plain_server;
  value_at := plain_value;
  deadline := plain_deadline;
  server_time s := Z.of_N s.(plain_time);
  command := plain_command;
|}.

Lemma plain_put_wrote s k v d :
  (v = None → d = None) → @wrote plain_redis s k v d (plain_put s k v d).
Proof.
  intros Hd. split; [done|]. intros k'. cbn. unfold plain_value, plain_deadline, plain_put. cbn.
  destruct v as [v|]; case_decide as Hk; subst; simplify_map_eq; try done. by rewrite Hd.
Qed.

(** A key of the right type passes the check of its type. *)
Lemma plain_right_type c k ty s :
  wants c = Some (k, ty) → type_name (plain_value s k) = "none" ∨ type_name (plain_value s k) = ty →
  plain_command c s = plain_execute c s.
Proof. intros Hc Ht. unfold plain_command. rewrite Hc. by rewrite decide_True. Qed.

Lemma hash_type v h : hash_of v = Some h → type_name v = "none" ∨ type_name v = "hash".
Proof. destruct v as [[]|]; simpl; intros; simplify_eq; tauto. Qed.
Lemma zset_type v z : zset_of v = Some z → type_name v = "none" ∨ type_name v = "zset".
Proof. destruct v as [[]|]; simpl; intros; simplify_eq; tauto. Qed.
Lemma text_type v t : text_of v = Some t → type_name v = "none" ∨ type_name v = "string".
Proof. destruct v as [[]|]; simpl; intros; simplify_eq; tauto. Qed.

Lemma unflatten_flatten l : unflatten (flatten l) = l.
Proof. induction l as [|[f v] l IH]; simpl; [done|]. by rewrite IH. Qed.

Lemma number_of_int n : 0 ≤ n → number_of (int_str n) = n.
Proof. intros Hn. unfold number_of. by rewrite canonical_decimal_int. Qed.

Lemma plain_expire s k n :
  plain_value s k ≠ None →
  ∃ s', expire s k n = (RInt 1, s')
        ∧ @wrote plain_redis s k (plain_value s k) (Some (Z.of_N s.(plain_time) `div` 1000 + n)) s'.
Proof.
  intros Hk. unfold expire. destruct (plain_value s k) as [v|] eqn:Hv; [|done].
  eexists. split; [done|]. by apply plain_put_wrote.
Qed.

(** The effect of a command on a key of the right type. *)
Ltac plain_write lem :=
  change (@command plain_redis) with plain_command;
  erewrite plain_right_type; [|reflexivity|by eapply lem]; cbn -[plain_put decide];
  match goal with H : _ = Some _ |- _ => rewrite H; cbn -[plain_put decide] end;
  try (eexists _, _; split; [reflexivity|]); try (eexists; split; [reflexivity|]).

#[global] Instance plain_redis_laws : @RedisLaws plain_redis.
Proof.
  split; cbn [server value_at deadline server_time command plain_redis]; try done; intros.
  - lia.
  - eexists. unfold plain_command.
    match goal with H : wants _ = _ |- _ => rewrite H end. rewrite decide_False by tauto. reflexivity.
  - plain_write text_type. done.
  - plain_write hash_type. done.
  - plain_write hash_type. done.
  - plain_write hash_type. done.
  - plain_write zset_type. done.
  - plain_write zset_type. by rewrite number_of_int.
  - by exists 0.
  - plain_write hash_type. destruct p as [f v]. cbn [unflatten]. rewrite unflatten_flatten.
    by apply plain_put_wrote.
  - cbn. rewrite number_of_int by lia. by apply plain_expire.
  - cbn. rewrite number_of_int by lia. by apply plain_expire.
  - eexists. split; [reflexivity|]. by apply plain_put_wrote.
  - eexists. split; [reflexivity|]. cbn. rewrite number_of_int by lia. by apply plain_put_wrote.
  - plain_write zset_type. by apply plain_put_wrote.
  - plain_write zset_type. unfold some_zset. case_decide as Hz.
    + split; [done|]. intros k'. cbn. unfold plain_value, plain_deadline, plain_put. cbn.
      case_decide; subst; by simplify_map_eq.
    + by apply plain_put_wrote.
  - eexists. split; [reflexivity|]. by apply plain_put_wrote.
Qed.
