(* ===== verification/RateLimit.v ===== *)
(** * RateLimit: admission of API requests

    control_plane/rate_limit.py: the fixed route groups and their policies, the evidence and
    the feature configuration that enforcement needs, the decisions of a backend and
    [ApiRateLimitService], which applies the rollout and the failure policy around one
    decision of a shared backend. The backend, the observer and the tenant policy are
    arguments of the service; a call of a backend may change its state [W]. *)

From S2P Require Import Prelude Text Domain Platform Json Datetime Rollout Effects.

#[local] Open Scope Z_scope.

Definition MAX_IDENTITY_LENGTH : nat := 512.
Definition MAX_WINDOW_SECONDS : Z := 3600.
Definition MAX_REQUESTS_PER_WINDOW : Z := 10000000.

Module RouteGroup.
Inductive t := RUN_CREATE | ACTIVE_LIST | UI_STATUS | AUTHORITY_READ | EVENT_READ | FORCE_SQL
             | STREAM_CONNECT.
#[global] Instance eq_dec : EqDecision t.
Proof. solve_decision. Defined.
#[global] Instance enum : StringEnum t.
Proof.
  refine {|
    value x := match x with
      | RUN_CREATE => "run_create" | ACTIVE_LIST => "active_list" | UI_STATUS => "ui_status"
      | AUTHORITY_READ => "run_read" | EVENT_READ => "event_read" | FORCE_SQL => "force_sql"
      | STREAM_CONNECT => "stream_connect" end%string;
    members := [RUN_CREATE; ACTIVE_LIST; UI_STATUS; AUTHORITY_READ; EVENT_READ; FORCE_SQL;
                STREAM_CONNECT] |}.
  - intros []; set_solver.
  - abstract (intros [] [] ?; done).
Defined.
End RouteGroup.

Module RateLimitMode.
Inductive t := OFF | SHADOW | ENFORCE.
#[global] Instance eq_dec : EqDecision t.
Proof. solve_decision. Defined.
End RateLimitMode.

Module RedisFailurePolicy.
Inductive t := FAIL_OPEN | FAIL_CLOSED.
#[global] Instance eq_dec : EqDecision t.
Proof. solve_decision. Defined.
End RedisFailurePolicy.

Module ApiRateLimitDisposition.
Inductive t := ALLOWED | RATE_LIMITED | UNAVAILABLE.
#[global] Instance eq_dec : EqDecision t.
Proof. solve_decision. Defined.
End ApiRateLimitDisposition.

Module ApiRateLimitOutcome.
Inductive t := DISABLED | ALLOWED | RATE_LIMITED | SHADOW_ALLOWED | SHADOW_WOULD_LIMIT
             | REDIS_ERROR_FAIL_OPEN | REDIS_ERROR_FAIL_CLOSED.
End ApiRateLimitOutcome.

(** [_bounded_positive_int(value, field, maximum)]. *)
Definition bounded_positive_int (n maximum : Z) : res unit := assert_result (1 ≤ n ≤ maximum) ValueError.

(** ** Policies *)

Record DualBucketRateLimitPolicy := {
  window_seconds : Z;
  tenant_limit : Z;
  user_limit : Z;
}.

(** [DualBucketRateLimitPolicy.__post_init__]. *)
Definition policy_valid (p : DualBucketRateLimitPolicy) : res unit :=
  bounded_positive_int p.(window_seconds) MAX_WINDOW_SECONDS;;
  bounded_positive_int p.(tenant_limit) MAX_REQUESTS_PER_WINDOW;;
  bounded_positive_int p.(user_limit) MAX_REQUESTS_PER_WINDOW;;
  assert_result (p.(user_limit) ≤ p.(tenant_limit)) ValueError.

(** A mapping of the policies is complete: one policy for every route group. *)
Definition ApiRateLimitPolicies : Type := RouteGroup.t → DualBucketRateLimitPolicy.

(** [ApiRateLimitPolicies(by_route).for_route(route_group)] of a mapping as an association
    list; [ApiRateLimitPolicies.__post_init__] rejects an incomplete one. *)
Definition ApiRateLimitPolicies_init (by_route : list (RouteGroup.t * DualBucketRateLimitPolicy))
    : res ApiRateLimitPolicies :=
  let find r := snd <$> list_find (λ kv : RouteGroup.t * DualBucketRateLimitPolicy, kv.1 = r) by_route in
  match find RouteGroup.RUN_CREATE with
  | None => Err ValueError
  | Some (_, p0) =>
      assert_result (Forall (λ r, is_Some (find r)) members) ValueError;;
      mret (λ r, from_option snd p0 (find r))
  end.

(** ** Evidence and features *)

Record ApiRateLimitAdmissionEvidence := {
  rl_load_multiplier : float;
  decision_p95_ms : float;
  sustained_decisions_per_second : float;
  redis_error_percent : float;
  concurrent_boundary_tested : bool;
  cluster_failover_tested : bool;
  script_reload_tested : bool;
  redis_flush_tested : bool;
  redis_eviction_tested : bool;
  fail_open_tested : bool;
  fail_closed_tested : bool;
  retry_after_tested : bool;
  sql_safety_boundary_tested : bool;
  ingress_rate_limit_tested : bool;
  shadow_observation_tested : bool;
  redis_server_time_tested : bool;
  ttl_recovery_tested : bool;
  hot_tenant_tested : bool;
  fairness_tested : bool;
  protocol_corruption_tested : bool;
  cross_tenant_isolation_tested : bool;
  same_slot_tested : bool;
  rl_canary_percent : float;
}.

(** [ApiRateLimitAdmissionEvidence.__post_init__]. *)
Definition rate_evidence_valid (e : ApiRateLimitAdmissionEvidence) : res unit :=
  finite_non_negative e.(rl_load_multiplier);;
  finite_non_negative e.(decision_p95_ms);;
  finite_non_negative e.(sustained_decisions_per_second);;
  finite_percent e.(redis_error_percent);;
  finite_percent e.(rl_canary_percent);;
  assert_result (feq e.(rl_load_multiplier) (f64 0) = false) ValueError;;
  assert_result (feq e.(rl_canary_percent) (f64 0) = false) ValueError.

(** The drills of [qualifies]. *)
Definition rate_drills (e : ApiRateLimitAdmissionEvidence) : list bool :=
  [e.(concurrent_boundary_tested); e.(cluster_failover_tested); e.(script_reload_tested);
   e.(redis_flush_tested); e.(redis_eviction_tested); e.(fail_open_tested); e.(fail_closed_tested);
   e.(retry_after_tested); e.(sql_safety_boundary_tested); e.(ingress_rate_limit_tested);
   e.(shadow_observation_tested); e.(redis_server_time_tested); e.(ttl_recovery_tested);
   e.(hot_tenant_tested); e.(fairness_tested); e.(protocol_corruption_tested);
   e.(cross_tenant_isolation_tested); e.(same_slot_tested)].

(** [ApiRateLimitAdmissionEvidence.qualifies]; 0.1 is the binary64 number of that text. *)
Definition rate_qualifies (e : ApiRateLimitAdmissionEvidence) : bool :=
  fge e.(rl_load_multiplier) (f64 2) && flt e.(decision_p95_ms) (f64 10)
  && fge e.(sustained_decisions_per_second) (f64 500)
  && fle e.(redis_error_percent) (ratio 1 10) && forallb id (rate_drills e).

Record ApiRateLimitFeatureConfig := {
  mode : RateLimitMode.t;
  rollout_percent : float;
  admission_evidence : option ApiRateLimitAdmissionEvidence;
}.

(** [ApiRateLimitFeatureConfig.__post_init__]. *)
Definition rate_features_valid (c : ApiRateLimitFeatureConfig) : res unit :=
  finite_percent c.(rollout_percent);;
  match c.(mode) with
  | RateLimitMode.OFF =>
      assert_result (¬ (feq c.(rollout_percent) (f64 0) = false ∨ is_Some c.(admission_evidence)))
        ValueError
  | RateLimitMode.SHADOW => assert_result (feq c.(rollout_percent) (f64 0) = true) ValueError
  | RateLimitMode.ENFORCE =>
      match c.(admission_evidence) with
      | None => Err ValueError
      | Some e =>
          assert_result (rate_qualifies e = true) ValueError;;
          assert_result (feq c.(rollout_percent) (f64 0) = false) ValueError;;
          assert_result (fgt c.(rollout_percent) e.(rl_canary_percent) = false) ValueError
      end
  end.

(** ** Checks and decisions *)

Record ApiRateLimitCheck := {
  ck_tenant_id : string;
  ck_user_id : string;
  ck_route_group : RouteGroup.t;
  ck_policy : DualBucketRateLimitPolicy;
  request_nonce : string;
}.

(** [ApiRateLimitCheck(...)] with its [__post_init__]. *)
Definition ApiRateLimitCheck_init (tenant_id user_id : string) (route_group : RouteGroup.t)
    (policy : DualBucketRateLimitPolicy) (nonce : string) : res ApiRateLimitCheck :=
  validate_identity tenant_id;;
  validate_identity user_id;;
  fullmatch (hex_format 32) nonce;;
  mret {| ck_tenant_id := tenant_id; ck_user_id := user_id; ck_route_group := route_group;
          ck_policy := policy; request_nonce := nonce |}.

Record ApiRateLimitBackendDecision := {
  bd_allowed : bool;
  bd_limit : Z;
  bd_remaining : Z;
  bd_reset_after_ms : Z;
  bd_retry_after_ms : option Z;
}.

(** [ApiRateLimitBackendDecision.__post_init__]. *)
Definition decision_valid (d : ApiRateLimitBackendDecision) : res unit :=
  bounded_positive_int d.(bd_limit) MAX_REQUESTS_PER_WINDOW;;
  assert_result (0 ≤ d.(bd_remaining) ≤ d.(bd_limit)) ValueError;;
  assert_result (0 ≤ d.(bd_reset_after_ms) ≤ MAX_WINDOW_SECONDS * 1000) ValueError;;
  if d.(bd_allowed) then assert_result (d.(bd_retry_after_ms) = None) ValueError
  else match d.(bd_retry_after_ms) with
       | None => Err ValueError
       | Some r => assert_result (1 ≤ r ≤ MAX_WINDOW_SECONDS * 1000) ValueError
       end.

(** [ApiRateLimitBackendDecision(...)]. *)
Definition ApiRateLimitBackendDecision_init (d : ApiRateLimitBackendDecision)
    : res ApiRateLimitBackendDecision := decision_valid d;; mret d.

Record ApiRateLimitResult := {
  disposition : ApiRateLimitDisposition.t;
  enforced : bool;
  ar_limit : option Z;
  ar_remaining : option Z;
  ar_reset_after_ms : option Z;
  ar_retry_after_ms : option Z;
}.

(** [ApiRateLimitResult.__post_init__]. *)
Definition result_valid (r : ApiRateLimitResult) : res unit :=
  match r.(ar_limit), r.(ar_remaining), r.(ar_reset_after_ms) with
  | None, None, None => assert_result (r.(ar_retry_after_ms) = None) ValueError
  | Some limit, Some remaining, Some reset =>
      decision_valid {|
        bd_allowed := bool_decide (r.(disposition) ≠ ApiRateLimitDisposition.RATE_LIMITED);
        bd_limit := limit; bd_remaining := remaining; bd_reset_after_ms := reset;
        bd_retry_after_ms := r.(ar_retry_after_ms) |}
  | _, _, _ => Err ValueError
  end;;
  match r.(disposition) with
  | ApiRateLimitDisposition.RATE_LIMITED =>
      assert_result (r.(enforced) = true ∧ is_Some r.(ar_retry_after_ms)) ValueError
  | ApiRateLimitDisposition.UNAVAILABLE =>
      assert_result (r.(enforced) = true ∧ r.(ar_limit) = None ∧ r.(ar_remaining) = None
                     ∧ r.(ar_reset_after_ms) = None ∧ r.(ar_retry_after_ms) = None) ValueError
  | ApiRateLimitDisposition.ALLOWED => mret ()
  end.

(** [ApiRateLimitResult(...)]. *)
Definition ApiRateLimitResult_init (r : ApiRateLimitResult) : res ApiRateLimitResult :=
  result_valid r;; mret r.

(** A result without metadata. *)
Definition bare_result (d : ApiRateLimitDisposition.t) (enforced : bool) : res ApiRateLimitResult :=
  ApiRateLimitResult_init {| disposition := d; enforced := enforced; ar_limit := None;
    ar_remaining := None; ar_reset_after_ms := None; ar_retry_after_ms := None |}.

(** [_allowed_result(decision, enforced)]. *)
Definition allowed_result (d : ApiRateLimitBackendDecision) (enforced : bool) : res ApiRateLimitResult :=
  ApiRateLimitResult_init {|
    disposition := ApiRateLimitDisposition.ALLOWED; enforced := enforced;
    ar_limit := Some d.(bd_limit); ar_remaining := Some d.(bd_remaining);
    ar_reset_after_ms := Some d.(bd_reset_after_ms); ar_retry_after_ms := None |}.

(** [redis_failure_policy(route_group)]. *)
Definition redis_failure_policy (r : RouteGroup.t) : RedisFailurePolicy.t :=
  match r with
  | RouteGroup.ACTIVE_LIST | RouteGroup.UI_STATUS | RouteGroup.AUTHORITY_READ | RouteGroup.EVENT_READ =>
      RedisFailurePolicy.FAIL_OPEN
  | _ => RedisFailurePolicy.FAIL_CLOSED
  end.

(** [tenant_in_rate_limit_canary]. *)
Definition tenant_in_rate_limit_canary `{Platform} `{Signing} (tenant_id : string) (percent : float)
    (secret : string) : res bool :=
  tenant_in_canary_percent tenant_id percent secret DEFAULT_COHORT_VERSION.

(** ** The service *)

Section service.
Context {W : Type}.

Record ApiRateLimitService := {
  backend : option (ApiRateLimitCheck → pyeff W ApiRateLimitBackendDecision);
  policies : ApiRateLimitPolicies;
  rl_features : ApiRateLimitFeatureConfig;
  observer : option (ApiRateLimitOutcome.t → RouteGroup.t → pyeff W unit);
  (** [policy.allows(capability, tenant_id)] *)
  tenant_policy : option (RedisCapability.t → string → res bool);
}.

(** [ApiRateLimitService(...)]. *)
Definition ApiRateLimitService_init (backend : option (ApiRateLimitCheck → pyeff W ApiRateLimitBackendDecision))
    (policies : ApiRateLimitPolicies) (features : ApiRateLimitFeatureConfig)
    (rollout_hmac_secret : option string)
    (observer : option (ApiRateLimitOutcome.t → RouteGroup.t → pyeff W unit))
    (tenant_policy : option (RedisCapability.t → string → res bool)) : res ApiRateLimitService :=
  assert_result (¬ (features.(mode) ≠ RateLimitMode.OFF ∧ ¬ is_Some backend)) ValueError;;
  optional hmac_key rollout_hmac_secret;;
  assert_result (¬ (features.(mode) = RateLimitMode.ENFORCE ∧ ¬ is_Some tenant_policy)) ValueError;;
  mret {| backend := backend; policies := policies; rl_features := features; observer := observer;
          tenant_policy := tenant_policy |}.

Context (self : ApiRateLimitService).

(** [_observe]: telemetry cannot fail a request. *)
Definition observe (outcome : ApiRateLimitOutcome.t) (r : RouteGroup.t) : pyeff W unit :=
  match self.(observer) with
  | None => mret ()
  | Some notify => _ ← attempt (notify outcome r); mret ()
  end.

(** [_tenant_can_enforce]: a policy that fails disables enforcement. *)
Definition tenant_can_enforce (tenant_id : string) : bool :=
  match self.(tenant_policy) with
  | None => false
  | Some allows => match allows RedisCapability.API_RATE_LIMIT_ENFORCE tenant_id with
                   | Ok b => b
                   | Err _ => false
                   end
  end.

(** What [evaluate] makes of the backend's answer. *)
Definition respond (enforce : bool) (r : RouteGroup.t) (answer : res ApiRateLimitBackendDecision)
    : pyeff W ApiRateLimitResult :=
  match answer with
  | Err _ =>
      if decide (enforce = false ∨ redis_failure_policy r = RedisFailurePolicy.FAIL_OPEN) then
        observe ApiRateLimitOutcome.REDIS_ERROR_FAIL_OPEN r;;
        from_result (bare_result ApiRateLimitDisposition.ALLOWED false)
      else
        observe ApiRateLimitOutcome.REDIS_ERROR_FAIL_CLOSED r;;
        from_result (bare_result ApiRateLimitDisposition.UNAVAILABLE true)
  | Ok decision =>
      if negb enforce then
        observe (if decision.(bd_allowed) then ApiRateLimitOutcome.SHADOW_ALLOWED
                 else ApiRateLimitOutcome.SHADOW_WOULD_LIMIT) r;;
        from_result (allowed_result decision false)
      else if decision.(bd_allowed) then
        observe ApiRateLimitOutcome.ALLOWED r;;
        from_result (allowed_result decision true)
      else
        observe ApiRateLimitOutcome.RATE_LIMITED r;;
        from_result (ApiRateLimitResult_init {|
          disposition := ApiRateLimitDisposition.RATE_LIMITED; enforced := true;
          ar_limit := Some decision.(bd_limit); ar_remaining := Some decision.(bd_remaining);
          ar_reset_after_ms := Some decision.(bd_reset_after_ms);
          ar_retry_after_ms := decision.(bd_retry_after_ms) |})
  end.

(** [evaluate]; [nonce] is [secrets.token_hex(16)]. *)
Definition evaluate_request (tenant_id user_id : string) (r : RouteGroup.t) (nonce : string)
    : pyeff W ApiRateLimitResult :=
  from_result (validate_identity tenant_id);;
  from_result (validate_identity user_id);;
  let mode := self.(rl_features).(mode) in
  if decide (mode = RateLimitMode.OFF) then
    observe ApiRateLimitOutcome.DISABLED r;;
    from_result (bare_result ApiRateLimitDisposition.ALLOWED false)
  else
    let enforce := bool_decide (mode = RateLimitMode.ENFORCE) && tenant_can_enforce tenant_id in
    check ← from_result (ApiRateLimitCheck_init tenant_id user_id r (self.(policies) r) nonce);
    match self.(backend) with
    | None => fail AssertionError
    | Some evaluate =>
        answer ← attempt (evaluate check);
        respond enforce r answer
    end.
End service.

Arguments ApiRateLimitService W : clear implicits.
