(* ===== verification/RedisRateLimit.v ===== *)
(** * RedisRateLimit: token buckets in Redis

    production/redis_api_rate_limit.py: one Lua script reads and charges the bucket of a
    tenant and the bucket of a user of that tenant, or neither; the backend names the keys,
    runs the script and checks its answer.

    The script computes with binary64 numbers. All of them are integers below 2^53 apart
    from the two quotients: [math.floor(x / y)] of such integers with [x + y] below 2^53 is
    the integer quotient, because the correctly rounded quotient cannot reach the next
    integer; [math.ceil(d / c * w)] of [bounded_wait] is computed in binary64. *)

From S2P Require Import Prelude Text Domain Json Datetime Rollout Effects Decimal Redis RateLimit.
From Corelib Require Import SpecFloat.

#[local] Open Scope Z_scope.

Definition MILLITOKENS_PER_TOKEN : Z := 1000.
Definition MAX_LIMIT : Z := 10000000.
Definition TTL_GRACE_MILLISECONDS : Z := 1000.

(** [[a-z0-9_-]{1,32}\Z]. *)
Definition RATE_ENVIRONMENT_RE (s : string) : bool :=
  let allowed a := lower_alnum a || one_of "_-" a in name_format allowed allowed 31 s.

(** ** The script: arithmetic *)

Definition MAX_WINDOW_MS : Z := 3600000.
Definition MAX_TTL_MS : Z := 3601000.
Definition MAX_SAFE_INTEGER : Z := 9007199254740991.
Definition MAX_TIME_SECONDS : Z := 9007199254740.

(** [is_canonical_decimal(value)] of this script: 16 digits at most. *)
Definition short_decimal (s : string) : bool :=
  is_canonical_decimal s && bool_decide (String.length s ≤ 16)%nat.

(** [parse_bounded(value, minimum, maximum)], [None] for nil. *)
Definition parse_bounded (s : string) (minimum maximum : Z) : option Z :=
  if short_decimal s then
    let parsed := digits_value 0 s in
    if decide (minimum ≤ parsed ≤ maximum) then Some parsed else None
  else None.

(** [scaled_refill(elapsed, capacity, window_ms)]. *)
Definition scaled_refill (elapsed capacity window_ms : Z) : Z :=
  let quotient := capacity `div` window_ms in
  let remainder := capacity - quotient * window_ms in
  elapsed * quotient + (elapsed * remainder) `div` window_ms.

(** [math.ceil(x)]. *)
Definition float_ceil (x : float) : Z :=
  match x with
  | S754_finite sign m e =>
      let v := if sign then Z.neg m else Z.pos m in
      if decide (0 ≤ e) then v * 2 ^ e else - ((- v) `div` 2 ^ (- e))
  | _ => 0
  end.

(** [bounded_wait(deficit, capacity, window_ms)]. *)
Definition bounded_wait (deficit capacity window_ms : Z) : Z :=
  if decide (deficit ≤ 0) then 0
  else Z.max 1 (float_ceil (fmul (ratio deficit capacity) (f64 window_ms))).

(** ** The script: buckets *)

Section script.
Context `{Redis}.

Definition protocol_reply : reply := RArray (map RBulk ["protocol"; "0"; "0"; "0"; "0"]).

(** [now_ms], from TIME. *)
Definition now_ms_of (time_parts : reply) : option Z :=
  match time_parts with
  | RArray [seconds_part; microseconds_part] =>
      seconds_text ← reply_text seconds_part;
      microseconds_text ← reply_text microseconds_part;
      time_seconds ← parse_bounded seconds_text 0 MAX_TIME_SECONDS;
      time_microseconds ← parse_bounded microseconds_text 0 999999;
      Some (time_seconds * 1000 + time_microseconds `div` 1000)
  | _ => None
  end.

(** What [read_bucket] makes of the two stored fields. *)
Definition refilled (tokens_raw last_raw : option string) (capacity_units window_ms now_ms : Z) : option Z :=
  tokens_text ← tokens_raw;
  last_text ← last_raw;
  stored_tokens ← parse_bounded tokens_text 0 capacity_units;
  stored_last ← parse_bounded last_text 0 MAX_SAFE_INTEGER;
  if decide (now_ms < stored_last) then None
  else
    let elapsed := now_ms - stored_last in
    if decide (window_ms ≤ elapsed) then Some capacity_units
    else Some (Z.min capacity_units (stored_tokens + scaled_refill elapsed capacity_units window_ms)).

(** [read_bucket(key, capacity_units)]: the tokens, [None] for nil. *)
Definition read_bucket (key : string) (capacity_units window_ms now_ms : Z) : lua (option Z) :=
  type_reply ← redis_call ["TYPE"; key];
  match type_reply with
  | RStatus "none" => mret (Some capacity_units)
  | RStatus "hash" =>
      fields ← redis_call ["HLEN"; key];
      match fields with
      | RInt 2 =>
          tokens_raw ← redis_call ["HGET"; key; "tokens"];
          last_raw ← redis_call ["HGET"; key; "last_ms"];
          mret (refilled (reply_text tokens_raw) (reply_text last_raw) capacity_units window_ms now_ms)
      | _ => mret None
      end
  | _ => mret None
  end.

(** The answer to a denied request. *)
Definition denied_reply (tenant user tenant_capacity user_capacity window_ms cost_units : Z) : reply :=
  let tenant_retry := bounded_wait (Z.max 0 (cost_units - tenant)) tenant_capacity window_ms in
  let user_retry := bounded_wait (Z.max 0 (cost_units - user)) user_capacity window_ms in
  let retry_ms := Z.max 1 (Z.max tenant_retry user_retry) in
  let tenant_reset := bounded_wait (tenant_capacity - tenant) tenant_capacity window_ms in
  let user_reset := bounded_wait (user_capacity - user) user_capacity window_ms in
  RArray (map RBulk ["denied"; int_str retry_ms; int_str tenant; int_str user;
                     int_str (Z.max tenant_reset user_reset)]).

(** HSET and PEXPIRE of one bucket. *)
Definition write_bucket (key : string) (tokens now_ms ttl_ms : Z) : lua unit :=
  redis_call ["HSET"; key; "tokens"; int_str tokens; "last_ms"; int_str now_ms];;
  redis_call ["PEXPIRE"; key; int_str ttl_ms];;
  mret ().

(** The body of the script once its arguments and the time are known. *)
Definition charge_buckets (tenant_key user_key : string)
    (tenant_limit user_limit window_ms cost ttl_ms now_ms : Z) : lua reply :=
  let cost_units := cost * MILLITOKENS_PER_TOKEN in
  let tenant_capacity := tenant_limit * MILLITOKENS_PER_TOKEN in
  let user_capacity := user_limit * MILLITOKENS_PER_TOKEN in
  tenant_read ← read_bucket tenant_key tenant_capacity window_ms now_ms;
  user_read ← read_bucket user_key user_capacity window_ms now_ms;
  match tenant_read, user_read with
  | Some tenant, Some user =>
      if decide (tenant < cost_units ∨ user < cost_units) then
        mret (denied_reply tenant user tenant_capacity user_capacity window_ms cost_units)
      else
        let tenant_after := tenant - cost_units in
        let user_after := user - cost_units in
        let tenant_reset := bounded_wait (tenant_capacity - tenant_after) tenant_capacity window_ms in
        let user_reset := bounded_wait (user_capacity - user_after) user_capacity window_ms in
        write_bucket tenant_key tenant_after now_ms ttl_ms;;
        write_bucket user_key user_after now_ms ttl_ms;;
        mret (RArray (map RBulk ["allowed"; "0"; int_str tenant_after; int_str user_after;
                                 int_str (Z.max tenant_reset user_reset)]))
  | _, _ => mret protocol_reply
  end.

(** [REDIS_HIERARCHICAL_TOKEN_BUCKET_LUA], with KEYS and ARGV. *)
Definition token_bucket_script (tenant_key user_key : string) (argv : list string) : lua reply :=
  match argv with
  | [a1; a2; a3; a4; a5] =>
      match parse_bounded a1 1 MAX_LIMIT, parse_bounded a2 1 MAX_LIMIT,
            parse_bounded a3 1000 MAX_WINDOW_MS, parse_bounded a4 1 MAX_LIMIT,
            parse_bounded a5 2000 MAX_TTL_MS with
      | Some tenant_limit, Some user_limit, Some window_ms, Some cost, Some ttl_ms =>
          if decide (tenant_limit < cost ∨ user_limit < cost ∨ ttl_ms ≠ window_ms + 1000)
          then mret protocol_reply
          else
            time_parts ← redis_call ["TIME"];
            match now_ms_of time_parts with
            | None => mret protocol_reply
            | Some now_ms =>
                charge_buckets tenant_key user_key tenant_limit user_limit window_ms cost ttl_ms now_ms
            end
      | _, _, _, _, _ => mret protocol_reply
      end
  | _ => mret protocol_reply
  end.
End script.

(** ** The answer *)

(** [_decode_ascii(value)]: ASCII text or an error. *)
Definition decode_ascii (r : reply) : res string :=
  match r with
  | RBulk s | RStatus s =>
      assert_result (all_chars (byte_in 0 127) s = true) ApiRateLimitBackendProtocolError;; mret s
  | _ => Err ApiRateLimitBackendProtocolError
  end.

(** [_parse_canonical_decimal(value)]. *)
Definition parse_canonical_decimal (r : reply) : res Z :=
  text ← decode_ascii r;
  assert_result (short_decimal text = true) ApiRateLimitBackendProtocolError;;
  mret (digits_value 0 text).

(** [_parse_decision]. *)
Definition parse_decision (response : reply) (tenant_limit user_limit window_milliseconds cost : Z)
    : res ApiRateLimitBackendDecision :=
  match response with
  | RArray [r0; r1; r2; r3; r4] =>
      status ← decode_ascii r0;
      assert_result (status ≠ "protocol") ApiRateLimitBackendProtocolError;;
      assert_result (status = "allowed" ∨ status = "denied") ApiRateLimitBackendProtocolError;;
      retry_ms ← parse_canonical_decimal r1;
      tenant_units ← parse_canonical_decimal r2;
      user_units ← parse_canonical_decimal r3;
      reset_ms ← parse_canonical_decimal r4;
      let tenant_capacity := tenant_limit * MILLITOKENS_PER_TOKEN in
      let user_capacity := user_limit * MILLITOKENS_PER_TOKEN in
      let cost_units := cost * MILLITOKENS_PER_TOKEN in
      assert_result (¬ (tenant_capacity < tenant_units ∨ user_capacity < user_units))
        ApiRateLimitBackendProtocolError;;
      assert_result (1 ≤ reset_ms ≤ window_milliseconds) ApiRateLimitBackendProtocolError;;
      let allowed := bool_decide (status = "allowed") in
      (if allowed
       then assert_result (¬ (retry_ms ≠ 0 ∨ tenant_capacity - cost_units < tenant_units
                              ∨ user_capacity - cost_units < user_units))
              ApiRateLimitBackendProtocolError
       else assert_result (¬ (retry_ms < 1 ∨ window_milliseconds < retry_ms
                              ∨ (cost_units ≤ tenant_units ∧ cost_units ≤ user_units)))
              ApiRateLimitBackendProtocolError);;
      ApiRateLimitBackendDecision_init {|
        bd_allowed := allowed; bd_limit := Z.min tenant_limit user_limit;
        bd_remaining := Z.min tenant_units user_units `div` MILLITOKENS_PER_TOKEN;
        bd_reset_after_ms := reset_ms;
        bd_retry_after_ms := if allowed then None else Some retry_ms |}
  | _ => Err ApiRateLimitBackendProtocolError
  end.

(** ** The backend *)

Record RedisHierarchicalRateLimitBackend := {
  rb_environment : string;
  namespace_hmac_key : string;
}.

(** [RedisHierarchicalRateLimitBackend(...)]. *)
Definition RedisHierarchicalRateLimitBackend_init (environment key : string)
    : res RedisHierarchicalRateLimitBackend :=
  fullmatch RATE_ENVIRONMENT_RE environment;;
  assert_result (32 ≤ String.length key)%nat ValueError;;
  mret {| rb_environment := environment; namespace_hmac_key := key |}.

Definition nul : string := String Ascii.zero "".

Section backend.
Context `{Redis} `{Signing} (self : RedisHierarchicalRateLimitBackend).

(** [_keys]. *)
Definition rate_keys (tenant_id user_id : string) (r : RouteGroup.t) (p : DualBucketRateLimitPolicy)
    : string * string :=
  let token := hmac_sha256 self.(namespace_hmac_key) in
  let tenant_token := token ("api-rate-limit/tenant/v1" +:+ nul +:+ tenant_id) in
  let user_token := token ("api-rate-limit/user/v1" +:+ nul +:+ tenant_id +:+ nul +:+ user_id) in
  let policy_bytes := "api-rate-limit/policy/v1" +:+ nul +:+ value r +:+ nul
                      +:+ int_str p.(window_seconds) +:+ nul +:+ int_str p.(tenant_limit)
                      +:+ nul +:+ int_str p.(user_limit) in
  let slot := "{rl:" +:+ tenant_token +:+ "}" in
  let prefix := "fr:" +:+ self.(rb_environment) +:+ ":v1:" +:+ slot +:+ ":rate:" +:+ value r
                +:+ ":p:" +:+ token policy_bytes in
  (prefix +:+ ":tenant", prefix +:+ ":user:" +:+ user_token).

(** [_evaluate(check, cost)]; the network and the surroundings of the script are arguments. *)
Definition evaluate_cost (surroundings : server → server) (d : delivery) (check : ApiRateLimitCheck)
    (cost : Z) : pyeff server ApiRateLimitBackendDecision :=
  let p := check.(ck_policy) in
  let '(tenant_key, user_key) :=
    rate_keys check.(ck_tenant_id) check.(ck_user_id) check.(ck_route_group) p in
  let window_ms := p.(window_seconds) * 1000 in
  let ttl_ms := window_ms + TTL_GRACE_MILLISECONDS in
  answer ← attempt (eval surroundings d (token_bucket_script tenant_key user_key
             [int_str p.(tenant_limit); int_str p.(user_limit); int_str window_ms; int_str cost;
              int_str ttl_ms]));
  match answer with
  | Err _ => fail ApiRateLimitBackendUnavailableError
  | Ok response =>
      from_result (parse_decision response p.(tenant_limit) p.(user_limit) window_ms cost)
  end.

(** [evaluate(check)]. *)
Definition evaluate (surroundings : server → server) (d : delivery) (check : ApiRateLimitCheck)
    : pyeff server ApiRateLimitBackendDecision := evaluate_cost surroundings d check 1.

(** [check(tenant_id, user_id, route_group, tenant_limit, user_limit, window_seconds, cost)]. *)
Definition check (surroundings : server → server) (d : delivery) (tenant_id user_id : string)
    (r : RouteGroup.t) (p : DualBucketRateLimitPolicy) (cost : Z) (nonce : string)
    : pyeff server ApiRateLimitBackendDecision :=
  from_result (policy_valid p);;
  from_result (bounded_positive_int cost MAX_LIMIT);;
  from_result (assert_result (¬ (p.(tenant_limit) < cost ∨ p.(user_limit) < cost)) ValueError);;
  request ← from_result (ApiRateLimitCheck_init tenant_id user_id r p nonce);
  evaluate_cost surroundings d request cost.
End backend.
