(* ===== verification/RateLimitSafety.v ===== *)
(** * RateLimitSafety: what the token buckets admit

    [admissions_are_bounded]: whatever the requests, the network, the passage of time
    and the expiry of keys do, the requests admitted under one policy in any period are at
    most the limit plus what is refilled in that period. The proof keeps an exact account:
    the level of a bucket, in units of one millitoken-millisecond, never gains more than
    time allows and loses what is admitted.
    [requests_are_refused_exactly]: the service always answers, and refuses as configured.
    The last part evaluates a tenant that meets its limit. *)

From S2P Require Import Prelude Text Domain Json Datetime Rollout Effects Decimal Redis.
From S2P Require Import RateLimit RedisRateLimit.
From Stdlib Require Import Lia.

#[local] Open Scope Z_scope.

(** ** Numbers *)

Lemma canonical_digits n : 0 ≤ n → digits_value 0 (int_str n) = n.
Proof.
  intros Hn. pose proof (canonical_decimal_int n Hn) as Hc. unfold canonical_decimal in Hc.
  rewrite int_str_canonical in Hc by done. by injection Hc.
Qed.

Lemma parse_bounded_int n lo hi m :
  0 ≤ n → parse_bounded (int_str n) lo hi = Some m → m = n ∧ lo ≤ n ≤ hi.
Proof.
  intros Hn. unfold parse_bounded. rewrite canonical_digits by done.
  repeat case_match; intros; simplify_eq; lia.
Qed.

Lemma scaled_refill_bound e cap w :
  0 ≤ e → 0 ≤ cap → 0 < w → 0 ≤ scaled_refill e cap w ∧ scaled_refill e cap w * w ≤ e * cap.
Proof.
  intros He Hcap Hw. unfold scaled_refill. set (q := cap `div` w).
  pose proof (Z.div_mod cap w ltac:(lia)) as Hdm. pose proof (Z.mod_pos_bound cap w Hw).
  pose proof (Z.div_pos cap w Hcap Hw).
  replace (cap - q * w) with (cap `mod` w) by (subst q; lia).
  set (r := cap `mod` w) in *.
  assert (0 ≤ e * r) by nia.
  pose proof (Z.div_pos (e * r) w ltac:(done) Hw). pose proof (Z.mul_div_le (e * r) w Hw).
  subst q. nia.
Qed.

(** ** Buckets *)

Section buckets.
Context `{Redis} `{!RedisLaws}.
Implicit Types s : server.

(** The server's clock in milliseconds. *)
Definition ms (s : server) : Z := server_time s `div` 1000.

Lemma wrote_ms s k v d s' : wrote s k v d s' → ms s' = ms s.
Proof. intros [Ht _]. unfold ms. by rewrite Ht. Qed.

(** What [read_bucket] makes of a value. *)
Definition bucket_view (v : option rvalue) (cap w now : Z) : option Z :=
  match v with
  | None => Some cap
  | Some (RHash h) =>
      if decide (size h = 2%nat) then refilled (h !! "tokens") (h !! "last_ms") cap w now else None
  | _ => None
  end.

Lemma read_bucket_spec key cap w now s :
  read_bucket key cap w now s = (Ok (bucket_view (value_at s key) cap w now), s).
Proof.
  unfold read_bucket. erewrite redis_call_bind; [|apply type_law|done].
  unfold bucket_view. destruct (value_at s key) as [[t|h|z]|] eqn:Hv; cbn [type_name]; try done.
  erewrite redis_call_bind; [|by apply hlen_law; rewrite Hv|done].
  case_decide as Hs.
  - rewrite Hs. change (Z.of_nat 2) with 2. cbv iota.
    erewrite redis_call_bind; [|by apply hget_law; rewrite Hv|by destruct (h !! _)].
    erewrite redis_call_bind; [|by apply hget_law; rewrite Hv|by destruct (h !! _)].
    by rewrite !reply_text_bulk.
  - destruct (Z.of_nat (size h)) as [|[?|[?|?|]|]|] eqn:Hz; try done. lia.
Qed.

(** The value of a bucket as the script writes it. *)
Definition bucket (tokens last : Z) : gmap string string :=
  {["tokens" := int_str tokens; "last_ms" := int_str last]}.

Lemma write_bucket_spec key tokens now ttl s h :
  hash_of (value_at s key) = Some h → 0 < ttl →
  ∃ s', write_bucket key tokens now ttl s = (Ok (), s')
        ∧ wrote s key (Some (RHash (set_fields [("tokens", int_str tokens); ("last_ms", int_str now)] h)))
            (Some (ms s + ttl)) s'.
Proof.
  intros Hh Httl. unfold write_bucket.
  destruct (hset_law s key ("tokens", int_str tokens) [("last_ms", int_str now)] h Hh) as (n & s1 & Hc & Hw).
  cbn [flatten] in Hc. erewrite redis_call_bind; [|exact Hc|done].
  pose proof (wrote_same _ _ _ _ _ Hw) as [Hv1 Hd1].
  destruct (pexpire_law s1 key ttl) as (s2 & Hc2 & Hw2); [by rewrite Hv1|done|].
  erewrite redis_call_bind; [|exact Hc2|done]. exists s2. split; [done|].
  rewrite Hv1 in Hw2. fold (ms s1) in Hw2. rewrite (wrote_ms _ _ _ _ _ Hw) in Hw2.
  by eapply wrote_twice.
Qed.

(** A bucket that only this script has written, or none. *)
Inductive bucket_kept (cap w : Z) (s : server) (k : string) : Z → Prop :=
| bucket_absent : value_at s k = None → bucket_kept cap w s k (cap * w)
| bucket_stored a b :
    value_at s k = Some (RHash (bucket a b)) → 0 ≤ a ≤ cap → 0 ≤ b ≤ ms s →
    deadline s k = Some (b + w + 1000) →
    bucket_kept cap w s k (Z.min (cap * w) (a * w + (ms s - b) * cap)).

Lemma bucket_fields a b : bucket a b !! "tokens" = Some (int_str a) ∧ bucket a b !! "last_ms" = Some (int_str b).
Proof. unfold bucket. split; by simplify_map_eq. Qed.

Lemma bucket_size a b : size (bucket a b) = 2%nat.
Proof.
  unfold bucket. rewrite map_size_insert_None by by simplify_map_eq. by rewrite map_size_singleton.
Qed.

(** The tokens that the script reads are covered by the level. *)
Lemma bucket_view_covered cap w s k L t :
  bucket_kept cap w s k L → 0 ≤ cap → 0 < w → bucket_view (value_at s k) cap w (ms s) = Some t →
  0 ≤ t ≤ cap ∧ t * w ≤ L.
Proof.
  intros Hk Hcap Hw. destruct Hk as [Hv|a b Hv Ha Hb Hd]; rewrite Hv; cbn [bucket_view].
  - intros [= <-]. lia.
  - rewrite decide_True by apply bucket_size. destruct (bucket_fields a b) as [-> ->].
    unfold refilled. simpl. intros Ht.
    destruct (parse_bounded (int_str a) 0 cap) as [a'|] eqn:Ha'; [|done].
    destruct (parse_bounded (int_str b) 0 MAX_SAFE_INTEGER) as [b'|] eqn:Hb'; [|done].
    apply parse_bounded_int in Ha' as [-> _]; [|lia]. apply parse_bounded_int in Hb' as [-> _]; [|lia].
    simpl in Ht. case_decide; [lia|]. case_decide; simplify_eq.
    + nia.
    + destruct (scaled_refill_bound (ms s - b) cap w) as [? ?]; nia.
Qed.

(** Writing what is left after a charge. *)
Lemma bucket_charged cap w s k L t cost ttl s' :
  bucket_kept cap w s k L → 0 ≤ cap → 0 < w →
  bucket_view (value_at s k) cap w (ms s) = Some t → 0 ≤ cost ≤ t → ttl = w + 1000 →
  (∀ h, hash_of (value_at s k) = Some h →
     wrote s k (Some (RHash (set_fields [("tokens", int_str (t - cost)); ("last_ms", int_str (ms s))] h)))
       (Some (ms s + ttl)) s') →
  ∃ L', bucket_kept cap w s' k L' ∧ L' + cost * w ≤ L.
Proof.
  intros Hk Hcap Hw Hview Hcost -> Hwrote.
  pose proof (bucket_view_covered _ _ _ _ _ _ Hk Hcap Hw Hview) as [Ht HL].
  assert (∃ h, hash_of (value_at s k) = Some h
               ∧ set_fields [("tokens", int_str (t - cost)); ("last_ms", int_str (ms s))] h
                 = bucket (t - cost) (ms s)) as (h & Hh & Hset).
  { destruct Hk as [Hv|a b Hv ? ? ?]; rewrite Hv; eexists; (split; [reflexivity|]);
      unfold set_fields, bucket; simpl; apply map_eq; intros f;
      destruct (decide (f = "tokens")), (decide (f = "last_ms")); by simplify_map_eq. }
  specialize (Hwrote h Hh). rewrite Hset in Hwrote.
  pose proof (wrote_same _ _ _ _ _ Hwrote) as [Hv' Hd'].
  pose proof (wrote_ms _ _ _ _ _ Hwrote) as Hms.
  eexists. split.
  - apply (bucket_stored cap w s' k (t - cost) (ms s)); [done|lia| |by rewrite Hd'; f_equal; lia].
    rewrite Hms. split; [|done]. unfold ms. apply Z.div_pos; [apply time_nonneg|lia].
  - rewrite Hms. nia.
Qed.

(** A bucket that is left alone while time goes on. *)
Lemma bucket_elapsed cap w s k L s' :
  bucket_kept cap w s k L → 0 ≤ cap → 0 < w → server_time s ≤ server_time s' →
  (value_at s' k = value_at s k ∧ deadline s' k = deadline s k)
  ∨ (value_at s' k = None ∧ ∃ d, deadline s k = Some d ∧ 1000 * d ≤ server_time s') →
  ∃ L', bucket_kept cap w s' k L' ∧ L' ≤ L + (ms s' - ms s) * cap.
Proof.
  intros Hk Hcap Hw Htime Hor.
  assert (ms s ≤ ms s') as Hms by (unfold ms; apply Z.div_le_mono; lia).
  destruct Hk as [Hv|a b Hv Ha Hb Hd].
  - exists (cap * w). split; [|nia]. constructor. destruct Hor as [[-> _]|[-> _]]; done.
  - destruct Hor as [[Hv' Hd']|[Hv' (d & Hd' & Hle)]].
    + eexists. split; [by apply (bucket_stored cap w s' k a b); rewrite ?Hv', ?Hd'; [..|lia|done]|]. nia.
    + exists (cap * w). split; [by constructor|]. rewrite Hd in Hd'. simplify_eq.
      assert (b + w + 1000 ≤ ms s') by (unfold ms; apply Z.div_le_lower_bound; lia). nia.
Qed.

(** ** The script *)

Definition reply_allows (r : reply) : bool :=
  match r with RArray (status :: _) => bool_decide (decode_ascii status = Ok "allowed") | _ => false end.

Definition script_allows (r : result string reply) : bool :=
  match r with Ok r => reply_allows r | Err _ => false end.

(** The units a request is charged. *)
Definition charged (allowed : bool) (cost w : Z) : Z :=
  if allowed then cost * MILLITOKENS_PER_TOKEN * w else 0.

Lemma bucket_view_hash v cap w now t : bucket_view v cap w now = Some t → ∃ h, hash_of v = Some h.
Proof. destruct v as [[]|]; try done; by eexists. Qed.

(** A script that is denied or answers a protocol error changes nothing; one that is allowed
    has charged both buckets. *)
Lemma charge_buckets_cases tk uk tl ul w cost ttl s r s' :
  tk ≠ uk → 0 < ttl →
  charge_buckets tk uk tl ul w cost ttl (ms s) s = (r, s') →
  (script_allows r = false ∧ s' = s)
  ∨ ∃ t u s1,
      bucket_view (value_at s tk) (tl * MILLITOKENS_PER_TOKEN) w (ms s) = Some t
      ∧ bucket_view (value_at s uk) (ul * MILLITOKENS_PER_TOKEN) w (ms s) = Some u
      ∧ cost * MILLITOKENS_PER_TOKEN ≤ t ∧ cost * MILLITOKENS_PER_TOKEN ≤ u
      ∧ script_allows r = true
      ∧ (∀ h, hash_of (value_at s tk) = Some h →
           wrote s tk (Some (RHash (set_fields [("tokens", int_str (t - cost * MILLITOKENS_PER_TOKEN));
                                                ("last_ms", int_str (ms s))] h))) (Some (ms s + ttl)) s1)
      ∧ (∀ h, hash_of (value_at s1 uk) = Some h →
           wrote s1 uk (Some (RHash (set_fields [("tokens", int_str (u - cost * MILLITOKENS_PER_TOKEN));
                                                 ("last_ms", int_str (ms s1))] h))) (Some (ms s1 + ttl)) s')
      ∧ ms s1 = ms s.
Proof.
  intros Hne Httl. unfold charge_buckets.
  unfold mbind at 1, eff_bind at 1. rewrite read_bucket_spec.
  unfold mbind at 1, eff_bind at 1. rewrite read_bucket_spec.
  destruct (bucket_view (value_at s tk) _ w (ms s)) as [t|] eqn:Ht;
    [|by intros [= <- <-]; left].
  destruct (bucket_view (value_at s uk) _ w (ms s)) as [u|] eqn:Hu; [|by intros [= <- <-]; left].
  case_decide as Hd; [by intros [= <- <-]; left|].
  destruct (bucket_view_hash _ _ _ _ _ Ht) as [h Hh].
  destruct (write_bucket_spec tk (t - cost * MILLITOKENS_PER_TOKEN) (ms s) ttl s h Hh Httl) as (s1 & Hc1 & Hw1).
  destruct (wrote_other _ _ _ _ _ uk Hw1 ltac:(done)) as [Hv1 Hd1].
  destruct (bucket_view_hash _ _ _ _ _ Hu) as [h2 Hh2].
  rewrite <- Hv1 in Hh2. pose proof (wrote_ms _ _ _ _ _ Hw1) as Hms1.
  destruct (write_bucket_spec uk (u - cost * MILLITOKENS_PER_TOKEN) (ms s) ttl s1 h2 Hh2 Httl)
    as (s2 & Hc2 & Hw2).
  unfold mbind at 1, eff_bind at 1. rewrite Hc1. unfold mbind at 1, eff_bind at 1. rewrite Hc2.
  intros [= <- <-]. right. exists t, u, s1. rewrite Hms1 in *.
  split_and!; try done; try lia; intros h' Hh'; by simplify_eq.
Qed.

(** The account of either bucket over one run of the script. *)
Lemma charge_buckets_kept k cap tk uk tl ul w cost ttl s r s' L :
  tk ≠ uk → (k = tk ∧ cap = tl * MILLITOKENS_PER_TOKEN) ∨ (k = uk ∧ cap = ul * MILLITOKENS_PER_TOKEN) →
  0 ≤ cap → 0 < w → 0 ≤ cost → ttl = w + 1000 →
  charge_buckets tk uk tl ul w cost ttl (ms s) s = (r, s') → bucket_kept cap w s k L →
  ms s' = ms s ∧ ∃ L', bucket_kept cap w s' k L' ∧ L' + charged (script_allows r) cost w ≤ L.
Proof.
  intros Hne Hk Hcap Hw Hcost Httl Hrun Hkept. unfold charged, MILLITOKENS_PER_TOKEN in *.
  assert (0 < ttl) as Httl0 by lia.
  destruct (charge_buckets_cases _ _ _ _ _ _ _ _ _ _ Hne Httl0 Hrun)
    as [[-> ->]|(t & u & s1 & Ht & Hu & Hct & Hcu & -> & Hw1 & Hw2 & Hms1)].
  { split; [done|]. exists L. split; [done|lia]. }
  unfold MILLITOKENS_PER_TOKEN in *.
  destruct (bucket_view_hash _ _ _ _ _ Ht) as [h1 Hh1].
  destruct (wrote_other _ _ _ _ _ uk (Hw1 _ Hh1) ltac:(done)) as [Hv1 Hd1].
  destruct (bucket_view_hash _ _ _ _ _ Hu) as [h2 Hh2]. rewrite <- Hv1 in Hh2, Hu.
  pose proof (wrote_ms _ _ _ _ _ (Hw2 _ Hh2)) as Hms2. split; [congruence|].
  destruct Hk as [[-> ->]|[-> ->]].
  - destruct (bucket_charged (tl * 1000) w s tk L t (cost * 1000) ttl s1) as (L' & Hk' & HL'); try done; [lia|].
    destruct (wrote_other _ _ _ _ _ tk (Hw2 _ Hh2) Hne) as [Hv2 Hd2].
    destruct (bucket_elapsed (tl * 1000) w s1 tk L' s' Hk') as (L2 & Hk2 & HL2); try done.
    + apply Z.eq_le_incl. symmetry. apply (proj1 (Hw2 _ Hh2)).
    + by left.
    + exists L2. split; [done|]. rewrite Hms2, Z.sub_diag in HL2. lia.
  - destruct (bucket_elapsed (ul * 1000) w s uk L s1 Hkept) as (L' & Hk' & HL'); try done.
    + apply Z.eq_le_incl. symmetry. apply (proj1 (Hw1 _ Hh1)).
    + by left.
    + rewrite <- Hms1 in Hu. rewrite Hms1, Z.sub_diag in HL'.
      destruct (bucket_charged (ul * 1000) w s1 uk L' u (cost * 1000) ttl s') as (L2 & Hk2 & HL2); try done; [lia|].
      exists L2. split; [done|]. lia.
Qed.

(** [now_ms] of the script is the server's time in milliseconds. *)
Lemma now_ms_time s now :
  now_ms_of (RArray [RBulk (int_str (server_time s `div` 1000000));
                     RBulk (int_str (server_time s `mod` 1000000))]) = Some now → now = ms s.
Proof.
  pose proof (time_nonneg s) as Ht. unfold now_ms_of. simpl.
  destruct (parse_bounded (int_str (server_time s `div` 1000000)) _ _) as [a|] eqn:Ha; [|done].
  destruct (parse_bounded (int_str (server_time s `mod` 1000000)) _ _) as [b|] eqn:Hb; [|done].
  apply parse_bounded_int in Ha as [-> _]; [|apply Z.div_pos; lia].
  apply parse_bounded_int in Hb as [-> _]; [|apply Z.mod_pos_bound; lia].
  intros [= <-]. unfold ms. Z.div_mod_to_equations. lia.
Qed.

Lemma token_bucket_script_kept k cap tk uk tl ul w cost s r s' L :
  tk ≠ uk → (k = tk ∧ cap = tl * MILLITOKENS_PER_TOKEN) ∨ (k = uk ∧ cap = ul * MILLITOKENS_PER_TOKEN) →
  0 ≤ tl → 0 ≤ ul → 0 < w → 0 ≤ cost →
  token_bucket_script tk uk [int_str tl; int_str ul; int_str w; int_str cost; int_str (w + 1000)] s = (r, s') →
  bucket_kept cap w s k L →
  ms s' = ms s ∧ ∃ L', bucket_kept cap w s' k L' ∧ L' + charged (script_allows r) cost w ≤ L.
Proof.
  intros Hne Hk Htl Hul Hw Hcost. unfold token_bucket_script.
  assert ((Ok protocol_reply, s) = (r, s') → bucket_kept cap w s k L →
    ms s' = ms s ∧ ∃ L', bucket_kept cap w s' k L' ∧ L' + charged (script_allows r) cost w ≤ L) as Hproto.
  { intros [= <- <-] Hkept. split; [done|]. exists L. split; [done|]. unfold charged. simpl. lia. }
  repeat match goal with
         | |- context [parse_bounded (int_str ?n) ?lo ?hi] =>
             let H := fresh in destruct (parse_bounded (int_str n) lo hi) as [?|] eqn:H; [|exact Hproto];
             apply parse_bounded_int in H as [-> ?]; [|lia]
         end.
  case_decide; [exact Hproto|].
  erewrite redis_call_bind; [|apply time_law|done].
  destruct (now_ms_of _) as [now|] eqn:Hnow; [|exact Hproto].
  apply now_ms_time in Hnow as ->. intros Hrun Hkept.
  apply (charge_buckets_kept k cap tk uk tl ul w cost (w + 1000)); try done.
  unfold MILLITOKENS_PER_TOKEN in *. destruct Hk as [[_ ->]|[_ ->]]; lia.
Qed.
End buckets.

(** ** The backend *)

Section backend.
Context `{Redis} `{!RedisLaws} `{Signing} (self : RedisHierarchicalRateLimitBackend).
Implicit Types s : server.

Lemma rate_keys_differ tenant user r p : (rate_keys self tenant user r p).1 ≠ (rate_keys self tenant user r p).2.
Proof.
  unfold rate_keys. cbn [fst snd]. intros Heq. by apply str_app_inj in Heq as [_ Heq].
Qed.

Definition admits (r : res ApiRateLimitBackendDecision) : bool :=
  match r with Ok d => d.(bd_allowed) | Err _ => false end.

Lemma parse_decision_allows response tl ul w cost d :
  parse_decision response tl ul w cost = Ok d → d.(bd_allowed) = true → reply_allows response = true.
Proof.
  unfold parse_decision. destruct response as [| | | |[|r0 [|r1 [|r2 [|r3 [|r4 [|]]]]]]|]; try done.
  intros Hp Hd. apply result_bind_Ok in Hp as (status & Hs & Hp).
  cbn [reply_allows]. apply bool_decide_eq_true. rewrite Hs.
  repeat (apply result_bind_Ok in Hp as (? & _ & Hp)). injection Hp as <-. cbn in Hd.
  by apply bool_decide_eq_true in Hd as ->.
Qed.

(** The account of either bucket over one request. *)
Lemma evaluate_kept k cap d c cost s r s' L :
  let p := c.(ck_policy) in let w := p.(window_seconds) * 1000 in
  let keys := rate_keys self c.(ck_tenant_id) c.(ck_user_id) c.(ck_route_group) p in
  (k = keys.1 ∧ cap = p.(tenant_limit) * MILLITOKENS_PER_TOKEN)
  ∨ (k = keys.2 ∧ cap = p.(user_limit) * MILLITOKENS_PER_TOKEN) →
  policy_valid p = Ok () → 0 ≤ cost → evaluate_cost self id d c cost s = (r, s') →
  bucket_kept cap w s k L →
  ms s' = ms s ∧ ∃ L', bucket_kept cap w s' k L' ∧ L' + charged (admits r) cost w ≤ L.
Proof.
  intros p w keys Hk Hp Hcost Hrun Hkept.
  pose proof (rate_keys_differ c.(ck_tenant_id) c.(ck_user_id) c.(ck_route_group) p) as Hne.
  fold keys in Hne. unfold evaluate_cost in Hrun. fold p in Hrun. fold keys in Hrun. fold w in Hrun.
  destruct keys as [tk uk]. cbn [fst snd] in *.
  assert (1 ≤ p.(window_seconds) ∧ 1 ≤ p.(tenant_limit) ∧ 1 ≤ p.(user_limit)) as (Hw & Htl & Hul).
  { unfold policy_valid, bounded_positive_int in Hp.
    do 3 (apply result_bind_Ok in Hp as (? & ?%assert_result_Ok & Hp)). lia. }
  set (script := token_bucket_script _ _ _) in Hrun.
  assert (∀ r0 s0, script s = (r0, s0) →
    ms s0 = ms s ∧ ∃ L', bucket_kept cap w s0 k L' ∧ L' + charged (script_allows r0) cost w ≤ L) as Hscript.
  { intros r0 s0 Hs. by eapply (token_bucket_script_kept k cap tk uk); [..|exact Hs|exact Hkept]; try lia. }
  assert (∀ b, 0 ≤ charged b cost w) as Hpos by (intros []; unfold charged, MILLITOKENS_PER_TOKEN; lia).
  unfold mbind, eff_bind, attempt in Hrun.
  destruct (eval id d script s) as [answer s1] eqn:Heval.
  apply eval_cases in Heval as [[-> ->]|(r0 & Hs & Hans & _)].
  { injection Hrun as <- <-. split; [done|]. exists L. split; [done|]. unfold charged. simpl. lia. }
  destruct (Hscript _ _ Hs) as (Hms & L' & Hk' & HL').
  destruct answer as [response|e]; injection Hrun as <- <-; (split; [done|]); exists L'; (split; [done|]).
  - rewrite (Hans response) in HL' by done. cbn [script_allows] in HL'.
    destruct (parse_decision response _ _ _ cost) as [dec|] eqn:Hdec.
    + cbn [admits]. destruct (bd_allowed dec) eqn:Hallowed.
      * by rewrite (parse_decision_allows _ _ _ _ _ _ Hdec Hallowed) in HL'.
      * specialize (Hpos (reply_allows response)). unfold charged at 1. lia.
    + specialize (Hpos (reply_allows response)). unfold charged at 1. simpl. lia.
  - specialize (Hpos (script_allows r0)). unfold charged at 1. simpl. lia.
Qed.

(** ** Periods *)

(** The bucket whose admissions are counted: the tenant's, or one user's. *)
Inductive scope := TenantScope | UserScope (user_id : string).

Definition scope_key (tenant : string) (r : RouteGroup.t) (p : DualBucketRateLimitPolicy) (sc : scope) : string :=
  match sc with
  | TenantScope => (rate_keys self tenant "" r p).1
  | UserScope user => (rate_keys self tenant user r p).2
  end.

Definition scope_limit (p : DualBucketRateLimitPolicy) (sc : scope) : Z :=
  match sc with TenantScope => p.(tenant_limit) | UserScope _ => p.(user_limit) end.

(** One step of a period, with the cost it admits: time goes on and keys expire, a request of
    the scope is decided, or the server is used for something else. *)
Inductive rate_step (tenant : string) (r : RouteGroup.t) (p : DualBucketRateLimitPolicy) (sc : scope)
    : server → Z → server → Prop :=
| rate_elapses s s' : passes s s' → rate_step tenant r p sc s 0 s'
| rate_request s user nonce cost d answer s' :
    sc = TenantScope ∨ sc = UserScope user → 1 ≤ cost →
    evaluate_cost self id d {| ck_tenant_id := tenant; ck_user_id := user; ck_route_group := r;
                               ck_policy := p; request_nonce := nonce |} cost s = (answer, s') →
    rate_step tenant r p sc s (if admits answer then cost else 0) s'
| rate_elsewhere s s' :
    server_time s ≤ server_time s' →
    value_at s' (scope_key tenant r p sc) = value_at s (scope_key tenant r p sc) →
    deadline s' (scope_key tenant r p sc) = deadline s (scope_key tenant r p sc) →
    rate_step tenant r p sc s 0 s'.

(** A period and everything it admits. *)
Inductive rate_period (tenant : string) (r : RouteGroup.t) (p : DualBucketRateLimitPolicy) (sc : scope)
    : server → Z → server → Prop :=
| period_empty s : rate_period tenant r p sc s 0 s
| period_step s n s1 m s2 :
    rate_step tenant r p sc s n s1 → rate_period tenant r p sc s1 m s2 →
    rate_period tenant r p sc s (n + m) s2.

Lemma rate_step_kept tenant r p sc s n s' L (k := scope_key tenant r p sc)
    (cap := scope_limit p sc * MILLITOKENS_PER_TOKEN) (w := p.(window_seconds) * 1000) :
  policy_valid p = Ok () → rate_step tenant r p sc s n s' → bucket_kept cap w s k L →
  ∃ L', bucket_kept cap w s' k L' ∧ L' + n * MILLITOKENS_PER_TOKEN * w ≤ L + (ms s' - ms s) * cap.
Proof.
  intros Hp Hstep Hk.
  assert (0 ≤ cap ∧ 0 < w) as [Hcap Hw].
  { unfold policy_valid, bounded_positive_int in Hp.
    do 3 (apply result_bind_Ok in Hp as (? & ?%assert_result_Ok & Hp)).
    subst cap w. unfold MILLITOKENS_PER_TOKEN. destruct sc; simpl; lia. }
  destruct Hstep as [s s' [Ht Hkeys]|s user nonce cost d answer s' Hsc Hcost Hrun|s s' Ht Hv Hd].
  - destruct (bucket_elapsed cap w s k L s') as (L' & ? & ?); try done.
    exists L'. split; [done|]. lia.
  - set (c := {| ck_tenant_id := tenant; ck_user_id := user; ck_route_group := r; ck_policy := p;
                 request_nonce := nonce |}) in Hrun.
    destruct (evaluate_kept k cap d c cost s answer s' L) as (Hms & L' & Hk' & HL'); try done; [|lia|].
    { subst k cap. destruct Hsc as [-> | ->]; [by left|by right]. }
    exists L'. split; [done|]. change (c.(ck_policy).(window_seconds) * 1000) with w in *.
    rewrite Hms, Z.sub_diag. unfold charged in HL'. destruct (admits answer); lia.
  - destruct (bucket_elapsed cap w s k L s') as (L' & ? & ?); try done; [by left|].
    exists L'. split; [done|]. lia.
Qed.

Lemma rate_period_kept tenant r p sc s n s' L (k := scope_key tenant r p sc)
    (cap := scope_limit p sc * MILLITOKENS_PER_TOKEN) (w := p.(window_seconds) * 1000) :
  policy_valid p = Ok () → rate_period tenant r p sc s n s' → bucket_kept cap w s k L →
  ∃ L', bucket_kept cap w s' k L' ∧ L' + n * MILLITOKENS_PER_TOKEN * w ≤ L + (ms s' - ms s) * cap.
Proof.
  intros Hp Hperiod. revert L. induction Hperiod as [s|s n s1 m s2 Hstep _ IH]; intros L Hk.
  - exists L. split; [done|]. lia.
  - destruct (rate_step_kept _ _ _ _ _ _ _ _ Hp Hstep Hk) as (L1 & Hk1 & HL1).
    destruct (IH L1 Hk1) as (L2 & Hk2 & HL2). exists L2. split; [done|].
    fold cap w in HL1, HL2. lia.
Qed.

(** A level is never negative and never above the capacity. *)
Lemma bucket_level_range cap w s k L :
  bucket_kept cap w s k L → 0 ≤ cap → 0 < w → 0 ≤ L ≤ cap * w.
Proof. intros [?|a b ? ? ? ?] ? ?; nia. Qed.

(** C27. The requests of a tenant, or of one of its users, that are admitted in a period of
    any length cost at most the limit plus what the limit refills in that period: with [n]
    admitted and [T] milliseconds gone by, n * window <= limit * (window + T). The bucket is
    absent at the start or as the script left it; the period has any requests (of any cost,
    answered or lost), any other use of the server, and keys expire at their deadline. *)
Theorem admissions_are_bounded tenant r p sc s n s' L :
  policy_valid p = Ok () →
  bucket_kept (scope_limit p sc * MILLITOKENS_PER_TOKEN) (p.(window_seconds) * 1000) s
    (scope_key tenant r p sc) L →
  rate_period tenant r p sc s n s' →
  n * (p.(window_seconds) * 1000) ≤ scope_limit p sc * (p.(window_seconds) * 1000 + (ms s' - ms s)).
Proof.
  intros Hp Hk Hperiod.
  destruct (rate_period_kept _ _ _ _ _ _ _ _ Hp Hperiod Hk) as (L' & Hk' & HL').
  unfold policy_valid, bounded_positive_int in Hp.
  do 3 (apply result_bind_Ok in Hp as (? & ?%assert_result_Ok & Hp)).
  assert (0 ≤ scope_limit p sc) by (destruct sc; simpl; lia).
  pose proof (bucket_level_range _ _ _ _ _ Hk ltac:(unfold MILLITOKENS_PER_TOKEN; lia) ltac:(lia)).
  pose proof (bucket_level_range _ _ _ _ _ Hk' ltac:(unfold MILLITOKENS_PER_TOKEN; lia) ltac:(lia)).
  unfold MILLITOKENS_PER_TOKEN in *. nia.
Qed.
End backend.

(** ** The service *)

(** What the service relies on: a backend only answers with valid decisions. *)
Class ValidBackend {W} (b : ApiRateLimitCheck → pyeff W ApiRateLimitBackendDecision) : Prop :=
  backend_decision c w d w' : b c w = (Ok d, w') → decision_valid d = Ok ().

Lemma parse_decision_valid response tl ul w cost d :
  parse_decision response tl ul w cost = Ok d → decision_valid d = Ok ().
Proof.
  unfold parse_decision. destruct response as [| | | |[|r0 [|r1 [|r2 [|r3 [|r4 [|]]]]]]|]; try done.
  intros Hp. apply result_bind_Ok in Hp as (status & _ & Hp).
  do 9 (apply result_bind_Ok in Hp as (? & _ & Hp)).
  set (d' := {| bd_allowed := _ |}) in Hp.
  apply result_bind_Ok in Hp as ([] & Hv & Hp). injection Hp as <-. exact Hv.
Qed.

#[global] Instance redis_backend_valid `{Redis} `{Signing} self surroundings delivery :
  ValidBackend (evaluate self surroundings delivery).
Proof.
  intros c w d w'. unfold evaluate, evaluate_cost. destruct (rate_keys _ _ _ _ _) as [tk uk].
  unfold mbind, eff_bind, attempt. destruct (eval _ _ _ w) as [[response|e] w1]; [|done].
  intros [= Hp _]. by eapply parse_decision_valid.
Qed.

Section service.
Context {W : Type} (self : ApiRateLimitService W) (b : ApiRateLimitCheck → pyeff W ApiRateLimitBackendDecision)
  `{!ValidBackend b}.

(** Limits are enforced for the tenant. *)
Definition enforces (tenant_id : string) : Prop :=
  self.(rl_features).(mode) = RateLimitMode.ENFORCE ∧ tenant_can_enforce self tenant_id = true.

Lemma rate_observe_Ok outcome r w : ∃ w', observe self outcome r w = (Ok (), w').
Proof.
  unfold observe. destruct (observer self) as [notify|]; [|by eexists].
  unfold mbind, eff_bind, attempt. destruct (notify outcome r w) as [a w']. by exists w'.
Qed.

Lemma observe_bind {A} outcome r (k : unit → pyeff W A) w :
  ∃ w', (observe self outcome r ≫= k) w = k () w'.
Proof. destruct (rate_observe_Ok outcome r w) as [w' Ho]. exists w'. unfold mbind, eff_bind. by rewrite Ho. Qed.

(** A decision can always be turned into a result. *)
Lemma decision_result d (disp : ApiRateLimitDisposition.t) enforced retry :
  decision_valid d = Ok () →
  disp = ApiRateLimitDisposition.ALLOWED ∧ retry = None
  ∨ disp = ApiRateLimitDisposition.RATE_LIMITED ∧ enforced = true ∧ d.(bd_allowed) = false
    ∧ retry = d.(bd_retry_after_ms) →
  result_valid {| disposition := disp; enforced := enforced; ar_limit := Some d.(bd_limit);
                  ar_remaining := Some d.(bd_remaining); ar_reset_after_ms := Some d.(bd_reset_after_ms);
                  ar_retry_after_ms := retry |} = Ok ().
Proof.
  unfold decision_valid. intros Hd Hor.
  apply result_bind_Ok in Hd as ([] & H1 & Hd). apply result_bind_Ok in Hd as ([] & H2 & Hd).
  apply result_bind_Ok in Hd as ([] & H3 & Hd).
  unfold result_valid, decision_valid. cbn. rewrite H1, H2, H3. cbn.
  destruct Hor as [[-> ->] | (-> & -> & Ha & ->)]; [done|]. cbn. rewrite Ha in Hd.
  destruct (bd_retry_after_ms d) as [n|]; [|done]. rewrite Hd. cbn. done.
Qed.

Lemma bare_result_Ok disp enforced :
  disp = ApiRateLimitDisposition.ALLOWED ∨ disp = ApiRateLimitDisposition.UNAVAILABLE ∧ enforced = true →
  ∃ out, bare_result disp enforced = Ok out ∧ out.(disposition) = disp ∧ result_valid out = Ok ().
Proof. intros [-> | [-> ->]]; [destruct enforced|]; by eexists. Qed.

(** The answer of the service, once the backend has answered. *)
Lemma respond_spec enforce r answer w :
  (∀ d, answer = Ok d → decision_valid d = Ok ()) →
  ∃ out w', respond self enforce r answer w = (Ok out, w') ∧ result_valid out = Ok ()
    ∧ (out.(disposition) = ApiRateLimitDisposition.RATE_LIMITED
       ↔ enforce = true ∧ ∃ d, answer = Ok d ∧ d.(bd_allowed) = false)
    ∧ (out.(disposition) = ApiRateLimitDisposition.UNAVAILABLE
       ↔ enforce = true ∧ redis_failure_policy r = RedisFailurePolicy.FAIL_CLOSED ∧ ∃ e, answer = Err e).
Proof.
  intros Hvalid. unfold respond.
  destruct answer as [d|e]; [specialize (Hvalid d eq_refl)|clear Hvalid].
  - destruct enforce; [destruct (bd_allowed d) eqn:Ha|]; cbn [negb];
      match goal with |- context [(observe self ?o r ≫= ?k) w] =>
        destruct (observe_bind o r k w) as [w' ->] end;
      unfold from_result, allowed_result, ApiRateLimitResult_init;
      rewrite decision_result by naive_solver;
      do 2 eexists; (split; [reflexivity|]); (split; [by apply decision_result; naive_solver|]);
      cbn [disposition]; naive_solver congruence.
  - case_decide as Hd;
      match goal with |- context [(observe self ?o r ≫= ?k) w] =>
        destruct (observe_bind o r k w) as [w' ->] end;
      do 2 eexists; (split; [reflexivity|]); (split; [done|]); cbn [disposition].
    + destruct Hd as [-> | ->]; naive_solver.
    + destruct enforce; [|naive_solver]. destruct (redis_failure_policy r); naive_solver.
Qed.

(** C28. A request always gets a well-formed answer: the service never raises, whatever the
    backend, the observer and the tenant policy do. It is refused as rate limited exactly if
    limits are enforced for the tenant and the backend denies it, and as unavailable exactly
    if limits are enforced, the backend fails and the route must not go on without it. *)
Theorem requests_are_refused_exactly tenant_id user_id r nonce w :
  self.(backend) = Some b ∨ self.(rl_features).(mode) = RateLimitMode.OFF →
  validate_identity tenant_id = Ok () → validate_identity user_id = Ok () → hex_format 32 nonce = true →
  let check := {| ck_tenant_id := tenant_id; ck_user_id := user_id; ck_route_group := r;
                  ck_policy := self.(policies) r; request_nonce := nonce |} in
  ∃ out w', evaluate_request self tenant_id user_id r nonce w = (Ok out, w')
    ∧ result_valid out = Ok ()
    ∧ (out.(disposition) = ApiRateLimitDisposition.RATE_LIMITED
       ↔ enforces tenant_id ∧ ∃ d w1, b check w = (Ok d, w1) ∧ d.(bd_allowed) = false)
    ∧ (out.(disposition) = ApiRateLimitDisposition.UNAVAILABLE
       ↔ enforces tenant_id ∧ redis_failure_policy r = RedisFailurePolicy.FAIL_CLOSED
         ∧ ∃ e w1, b check w = (Err e, w1)).
Proof.
  intros Hb Ht Hu Hn check. unfold evaluate_request, enforces.
  unfold mbind at 1, eff_bind at 1, from_result at 1. rewrite Ht.
  unfold mbind at 1, eff_bind at 1, from_result at 1. rewrite Hu. cbn zeta.
  case_decide as Hmode.
  { destruct (observe_bind ApiRateLimitOutcome.DISABLED r
      (λ _, from_result (bare_result ApiRateLimitDisposition.ALLOWED false)) w) as [w' ->].
    do 2 eexists. split; [reflexivity|]. split; [done|]. rewrite Hmode. naive_solver. }
  destruct Hb as [Hb|]; [|done].
  assert (ApiRateLimitCheck_init tenant_id user_id r (self.(policies) r) nonce = Ok check) as Hc.
  { unfold ApiRateLimitCheck_init, fullmatch. rewrite Ht, Hu, Hn. done. }
  unfold mbind at 1, eff_bind at 1, from_result at 1. rewrite Hc, Hb.
  unfold mbind at 1, eff_bind at 1, attempt at 1.
  destruct (b check w) as [answer w1] eqn:Hanswer.
  destruct (respond_spec (bool_decide (self.(rl_features).(mode) = RateLimitMode.ENFORCE)
    && tenant_can_enforce self tenant_id) r answer w1) as (out & w' & Hrun & Hvalid & Hlimited & Hclosed).
  { intros d ->. by eapply backend_decision. }
  exists out, w'. split; [exact Hrun|]. split; [done|].
  rewrite Hlimited, Hclosed, andb_true_iff, bool_decide_eq_true. naive_solver.
Qed.
End service.

(** ** A tenant meets its limit

    Two requests of two users of one tenant are admitted under a limit of two requests per
    second, the third is denied; the service answers it with a 429. *)

#[local] Instance toy_signing : Signing := {|
  hmac_sha256 key message := key +:+ message;
  fromisoformat _ := None;
|}.
#[local] Existing Instance plain_redis.

Definition toy_backend : RedisHierarchicalRateLimitBackend :=
  {| rb_environment := "test"; namespace_hmac_key := "k" |}.
Definition toy_policy : DualBucketRateLimitPolicy :=
  {| window_seconds := 1; tenant_limit := 2; user_limit := 1 |}.
Definition toy_nonce : string := "00000000000000000000000000000000".
Definition toy_check (user : string) : ApiRateLimitCheck :=
  {| ck_tenant_id := "acme"; ck_user_id := user; ck_route_group := RouteGroup.RUN_CREATE;
     ck_policy := toy_policy; request_nonce := toy_nonce |}.

(** The server at one second past the epoch, and after each request. *)
Definition server0 : server := {| entries := ∅; plain_time := 1000000 |} : plain_server.
Definition request (user : string) (s : server) := evaluate_cost toy_backend id Answered (toy_check user) 1 s.
Definition server1 : server := (request "ann" server0).2.
Definition server2 : server := (request "bob" server1).2.
Definition server3 : server := (request "cat" server2).2.

Lemma first_admitted : admits (request "ann" server0).1 = true.
Proof. vm_compute. reflexivity. Qed.
Lemma second_admitted : admits (request "bob" server1).1 = true.
Proof. vm_compute. reflexivity. Qed.
Lemma third_denied :
  ∃ d, request "cat" server2 = (Ok d, server3) ∧ d.(bd_allowed) = false ∧ d.(bd_retry_after_ms) = Some 500.
Proof.
  assert (match (request "cat" server2).1 with
          | Ok d => bool_decide (d.(bd_allowed) = false ∧ d.(bd_retry_after_ms) = Some 500)
          | Err _ => false
          end = true) as Hd by (vm_compute; reflexivity).
  unfold server3. destruct (request "cat" server2) as [[d|e] s3]; [|done].
  apply bool_decide_eq_true in Hd as [Ha Hr]. by exists d.
Qed.

Lemma toy_step user s :
  rate_step toy_backend "acme" RouteGroup.RUN_CREATE toy_policy TenantScope s
    (if admits (request user s).1 then 1 else 0) (request user s).2.
Proof.
  unfold request, toy_check.
  eapply (rate_request toy_backend "acme" RouteGroup.RUN_CREATE toy_policy TenantScope s user toy_nonce 1 Answered);
    [by left|done|]. apply surjective_pairing.
Qed.

Lemma toy_period :
  rate_period toy_backend "acme" RouteGroup.RUN_CREATE toy_policy TenantScope server0 2 server2.
Proof.
  pose proof (toy_step "ann" server0) as H1. rewrite first_admitted in H1.
  pose proof (toy_step "bob" server1) as H2. rewrite second_admitted in H2.
  change 2 with (1 + (1 + 0)).
  eapply period_step; [exact H1|]. eapply period_step; [exact H2|]. constructor.
Qed.

Lemma fresh_bucket :
  bucket_kept (scope_limit toy_policy TenantScope * MILLITOKENS_PER_TOKEN) (toy_policy.(window_seconds) * 1000)
    server0 (scope_key toy_backend "acme" RouteGroup.RUN_CREATE toy_policy TenantScope)
    (scope_limit toy_policy TenantScope * MILLITOKENS_PER_TOKEN * (toy_policy.(window_seconds) * 1000)).
Proof. apply bucket_absent. vm_compute. reflexivity. Qed.

(** Witness of [admissions_are_bounded]: two requests in no time meet the limit of two. *)
Lemma admissions_are_bounded_witness :
  rate_period toy_backend "acme" RouteGroup.RUN_CREATE toy_policy TenantScope server0 2 server2
  ∧ 2 * (1 * 1000) ≤ 2 * (1 * 1000 + (ms server2 - ms server0)).
Proof.
  split; [exact toy_period|].
  exact (admissions_are_bounded toy_backend "acme" RouteGroup.RUN_CREATE toy_policy TenantScope server0 2
    server2 _ eq_refl fresh_bucket toy_period).
Defined.

(** A service that enforces the limits for every tenant. *)
Definition toy_service : ApiRateLimitService server := {|
  backend := Some (evaluate toy_backend id Answered);
  policies _ := toy_policy;
  rl_features := {| mode := RateLimitMode.ENFORCE; rollout_percent := f64 5; admission_evidence := None |};
  observer := None;
  tenant_policy := Some (λ _ _, Ok true);
|}.

Lemma third_refused :
  enforces toy_service "acme"
  ∧ ∃ d w1, evaluate toy_backend id Answered (toy_check "cat") server2 = (Ok d, w1) ∧ d.(bd_allowed) = false.
Proof.
  split; [done|]. destruct third_denied as (d & Hd & Ha & _). exists d, server3. split; [exact Hd|exact Ha].
Qed.

(** Witness of [requests_are_refused_exactly]: the third request is rate limited. *)
Lemma requests_are_refused_exactly_witness :
  ∃ out w', evaluate_request toy_service "acme" "cat" RouteGroup.RUN_CREATE toy_nonce server2 = (Ok out, w')
            ∧ out.(disposition) = ApiRateLimitDisposition.RATE_LIMITED.
Proof.
  destruct (requests_are_refused_exactly toy_service (evaluate toy_backend id Answered) "acme" "cat"
    RouteGroup.RUN_CREATE toy_nonce server2) as (out & w' & Hrun & _ & Hlimited & _);
    [by left|reflexivity|reflexivity|reflexivity|].
  exists out, w'. split; [exact Hrun|]. apply Hlimited, third_refused.
Defined.
