(* ===== verification/ShadowProjection.v ===== *)
(** * ShadowProjection: what the Redis shadow holds

    production/shadow_projection.py: the snapshot of a run that SQL exports, its canonical
    wire form and digest, the key it is stored under and the results of a write. The key
    determines the run and the wire form the snapshot ([projection_key_inj],
    [canonical_mapping_inj]), so runs never share a key and a stored hash is never
    ambiguous. Identities and versions are typed; [updated_at] is an instant. *)

From S2P Require Import Prelude Text Domain Platform Json Datetime Rollout Decimal.
From Stdlib Require Import Lia.

#[local] Open Scope Z_scope.

Definition SHADOW_PROJECTION_SCHEMA_VERSION : Z := 1.

Module ProjectionWriteStatus.
Inductive t := APPLIED | STALE | DUPLICATE | CONFLICT.
#[global] Instance eq_dec : EqDecision t.
Proof. solve_decision. Defined.
#[global] Instance enum : StringEnum t.
Proof.
  refine {|
    value x := match x with
      | APPLIED => "applied" | STALE => "stale" | DUPLICATE => "duplicate"
      | CONFLICT => "conflict" end%string;
    members := [APPLIED; STALE; DUPLICATE; CONFLICT] |}.
  - intros []; set_solver.
  - abstract (intros [] [] ?; done).
Defined.
End ProjectionWriteStatus.

(** [_validate_identity] of this module: 512 characters at most. *)
Definition shadow_identity (s : string) : res unit :=
  assert_result (s ≠ "" ∧ char_length s ≤ 512
                 ∧ all_chars (λ a, negb (bool_decide (a = Ascii.zero))) s = true) ValueError.

Record ProjectionWriteResult := {
  pw_status : ProjectionWriteStatus.t;
  incoming_version : Z;
  stored_version : Z;
}.

(** [ProjectionWriteResult(...)]. *)
Definition ProjectionWriteResult_init (r : ProjectionWriteResult) : res ProjectionWriteResult :=
  non_negative_int r.(incoming_version);;
  non_negative_int r.(stored_version);;
  mret r.

(** ** Snapshots *)

Record ShadowProjectionSnapshot := {
  sn_tenant_id : string;
  sn_run_id : string;
  sn_stream_version : Z;
  sn_execution_status : ExecutionStatus.t;
  sn_phase : option string;
  sn_last_event_seq : Z;
  sn_updated_at : datetime;
}.

#[global] Instance ShadowProjectionSnapshot_eq_dec : EqDecision ShadowProjectionSnapshot.
Proof. solve_decision. Defined.

(** [ShadowProjectionSnapshot.__post_init__]. *)
Definition snapshot_valid (s : ShadowProjectionSnapshot) : res unit :=
  shadow_identity s.(sn_tenant_id);;
  shadow_identity s.(sn_run_id);;
  non_negative_int s.(sn_stream_version);;
  non_negative_int s.(sn_last_event_seq);;
  assert_result (s.(sn_stream_version) = s.(sn_last_event_seq)) ValueError;;
  assert_result (s.(sn_phase) ≠ Some "") ValueError.

(** [ShadowProjectionSnapshot(...)]. *)
Definition ShadowProjectionSnapshot_init (s : ShadowProjectionSnapshot) : res ShadowProjectionSnapshot :=
  snapshot_valid s;; mret s.

(** What a frozen instance satisfies: its checks, Python's range of datetimes, and texts that
    are encoded strings. *)
Definition snapshot_ok (s : ShadowProjectionSnapshot) : Prop :=
  snapshot_valid s = Ok () ∧ datetime_ok s.(sn_updated_at)
  ∧ Forall (λ t, utf8_valid t = true) [s.(sn_tenant_id); s.(sn_run_id); default "" s.(sn_phase)].

(** [is_terminal]. *)
Definition is_terminal (s : ShadowProjectionSnapshot) : bool :=
  bool_decide (s.(sn_execution_status) ∈ TERMINAL_EXECUTION_STATUSES).

(** [canonical_mapping()], in its order. *)
Definition canonical_mapping (s : ShadowProjectionSnapshot) : list (string * option string) :=
  [("execution_status", Some (value s.(sn_execution_status)));
   ("last_event_seq", Some (int_str s.(sn_last_event_seq)));
   ("phase", s.(sn_phase));
   ("run_id", Some s.(sn_run_id));
   ("schema_version", Some (int_str SHADOW_PROJECTION_SCHEMA_VERSION));
   ("stream_version", Some (int_str s.(sn_stream_version)));
   ("tenant_id", Some s.(sn_tenant_id));
   ("updated_at", Some (isoformat_us_z s.(sn_updated_at)))].

(** The mapping as Redis stores it: None is the empty text. *)
Definition wire_mapping (s : ShadowProjectionSnapshot) : list (string * string) :=
  map (λ kv, (kv.1, default "" kv.2)) (canonical_mapping s).

Section digest.
Context `{Platform}.

(** [canonical_bytes()] and [canonical_sha256()]. *)
Definition canonical_bytes (s : ShadowProjectionSnapshot) : string :=
  canonical_json (JObj (map (λ kv, (kv.1, opt_str kv.2)) (canonical_mapping s))).

Definition canonical_sha256 (s : ShadowProjectionSnapshot) : string := sha256_text (canonical_bytes s).
End digest.

(** ** Keys *)

Definition base64url_alphabet : string :=
  "ABCDEFGHIJKLMNOPQRSTUVWXYZabcdefghijklmnopqrstuvwxyz0123456789-_".

Definition base64url_char (n : nat) : ascii := default Ascii.zero (String.get n base64url_alphabet).

(** [base64.urlsafe_b64encode(value).rstrip("=")]. *)
Fixpoint base64url (s : string) : string :=
  match s with
  | EmptyString => ""
  | String a EmptyString =>
      let x := nat_of_ascii a in
      String (base64url_char (x / 4)) (String (base64url_char (x mod 4 * 16)) "")
  | String a (String b EmptyString) =>
      let x := nat_of_ascii a in let y := nat_of_ascii b in
      String (base64url_char (x / 4)) (String (base64url_char (x mod 4 * 16 + y / 16))
        (String (base64url_char (y mod 16 * 4)) ""))
  | String a (String b (String c s')) =>
      let x := nat_of_ascii a in let y := nat_of_ascii b in let z := nat_of_ascii c in
      String (base64url_char (x / 4)) (String (base64url_char (x mod 4 * 16 + y / 16))
        (String (base64url_char (y mod 16 * 4 + z / 64)) (String (base64url_char (z mod 64))
          (base64url s'))))
  end%nat.

(** [_base64url_identity(value)]. *)
Definition base64url_identity (s : string) : res string := shadow_identity s;; mret (base64url s).

(** [projection_key(environment, tenant_id, run_id)]. *)
Definition projection_key (environment tenant_id run_id : string) : res string :=
  fullmatch ENVIRONMENT_RE environment;;
  tenant_token ← base64url_identity tenant_id;
  run_token ← base64url_identity run_id;
  mret ("fr:" +:+ environment +:+ ":v" +:+ int_str SHADOW_PROJECTION_SCHEMA_VERSION +:+ ":{t:"
        +:+ tenant_token +:+ ":r:" +:+ run_token +:+ "}:projection").

(** [canonical_projection_hash(fields)]; the values of a mapping are texts or None. *)
Definition canonical_projection_hash `{Platform} (fields : list (string * option string)) : res string :=
  check_all (λ kv, assert_result (kv.1 ≠ "") ValueError;;
                   match kv.2 with
                   | Some v => if decide (kv.1 ∈ ["last_event_seq"; "schema_version"; "stream_version"])
                               then assert_result (is_canonical_decimal v = true) ValueError else mret ()
                   | None => mret ()
                   end) fields;;
  mret (sha256_text (canonical_json (JObj (map (λ kv, (kv.1, opt_str kv.2)) fields)))).

(** ** Keys determine identities *)

Lemma nat_of_ascii_bound a : (nat_of_ascii a < 256)%nat.
Proof. apply nat_ascii_bounded. Qed.

(** The position of a character in the alphabet. *)
Definition base64url_value (a : ascii) : nat :=
  default 64%nat (fst <$> list_find (λ n, base64url_char n = a) (seq 0 64)).

Lemma base64url_char_value n : (n < 64)%nat → base64url_value (base64url_char n) = n.
Proof.
  intros Hn. assert (Forall (λ n, base64url_value (base64url_char n) = n) (seq 0 64)) as Hall
    by (apply (bool_decide_eq_true (Forall _ _)); vm_compute; reflexivity).
  rewrite Forall_forall in Hall. apply Hall, elem_of_seq. lia.
Qed.

Lemma base64url_char_inj m n :
  (m < 64)%nat → (n < 64)%nat → base64url_char m = base64url_char n → m = n.
Proof. intros Hm Hn Heq. by rewrite <- (base64url_char_value m), Heq, base64url_char_value. Qed.

(** No character of the alphabet is a separator of the key. *)
Definition token_char (a : ascii) : bool := negb (bool_decide (a = ":"%char)) && negb (bool_decide (a = "}"%char)).

Lemma base64url_char_token n : (n < 64)%nat → token_char (base64url_char n) = true.
Proof.
  intros Hn. assert (Forall (λ n, token_char (base64url_char n) = true) (seq 0 64)) as Hall
    by (apply (bool_decide_eq_true (Forall _ _)); vm_compute; reflexivity).
  rewrite Forall_forall in Hall. apply Hall, elem_of_seq. lia.
Qed.

(** The digits of a group of three bytes determine them. *)
Lemma sextets_inj x y z x' y' z' :
  (x < 256 → y < 256 → z < 256 → x' < 256 → y' < 256 → z' < 256 →
   x / 4 = x' / 4 → x mod 4 * 16 + y / 16 = x' mod 4 * 16 + y' / 16 →
   y mod 16 * 4 + z / 64 = y' mod 16 * 4 + z' / 64 → z mod 64 = z' mod 64 →
   x = x' ∧ y = y' ∧ z = z')%nat.
Proof.
  intros. pose proof (Nat.div_mod_eq x 4). pose proof (Nat.div_mod_eq x' 4).
  pose proof (Nat.div_mod_eq y 16). pose proof (Nat.div_mod_eq y' 16).
  pose proof (Nat.div_mod_eq z 64). pose proof (Nat.div_mod_eq z' 64).
  assert (y / 16 < 16 ∧ y' / 16 < 16 ∧ z / 64 < 4 ∧ z' / 64 < 4)%nat as (? & ? & ? & ?)
    by (split_and!; apply Nat.Div0.div_lt_upper_bound; lia).
  pose proof (Nat.mod_upper_bound x 4 ltac:(lia)). pose proof (Nat.mod_upper_bound x' 4 ltac:(lia)).
  pose proof (Nat.mod_upper_bound y 16 ltac:(lia)). pose proof (Nat.mod_upper_bound y' 16 ltac:(lia)). lia.
Qed.

(** The indexes of a group lie in the alphabet. *)
Lemma sextets_range x y z :
  (x < 256 → y < 256 → z < 256 →
   x / 4 < 64 ∧ x mod 4 * 16 + y / 16 < 64 ∧ y mod 16 * 4 + z / 64 < 64 ∧ z mod 64 < 64)%nat.
Proof.
  intros. assert (x / 4 < 64 ∧ y / 16 < 16 ∧ z / 64 < 4)%nat as (? & ? & ?)
    by (split_and!; apply Nat.Div0.div_lt_upper_bound; lia).
  pose proof (Nat.mod_upper_bound x 4 ltac:(lia)). pose proof (Nat.mod_upper_bound y 16 ltac:(lia)).
  pose proof (Nat.mod_upper_bound z 64 ltac:(lia)). lia.
Qed.

Lemma nat_of_ascii_inj a b : nat_of_ascii a = nat_of_ascii b → a = b.
Proof. intros Heq. by rewrite <- (ascii_nat_embedding a), Heq, ascii_nat_embedding. Qed.

(** Induction on groups of three bytes. *)
Lemma group_ind (P : string → Prop) :
  P "" → (∀ a, P (String a "")) → (∀ a b, P (String a (String b ""))) →
  (∀ a b c s, P s → P (String a (String b (String c s)))) → ∀ s, P s.
Proof.
  intros H0 H1 H2 H3 s. remember (String.length s) as n eqn:Hn. revert s Hn.
  induction (lt_wf n) as [n _ IH]. intros [|a [|b [|c s]]] Hn; [done|done|done|].
  apply H3. apply (IH (String.length s)); [simpl in Hn; lia|done].
Qed.

Ltac sextet_bounds :=
  repeat match goal with
         | a : ascii |- _ =>
             lazymatch goal with
             | _ : (nat_of_ascii a < 256)%nat |- _ => fail
             | _ => pose proof (nat_of_ascii_bound a)
             end
         end.

#[local] Arguments Nat.div : simpl never.
#[local] Arguments Nat.modulo : simpl never.

Ltac sextets x y z :=
  pose proof (sextets_range x y z ltac:(lia) ltac:(lia) ltac:(lia)) as (? & ? & ? & ?);
  change (0 / 16)%nat with 0%nat in *; change (0 / 64)%nat with 0%nat in *;
  change (0 mod 16)%nat with 0%nat in *; change (0 mod 64)%nat with 0%nat in *.

Lemma base64url_inj s t : base64url s = base64url t → s = t.
Proof.
  revert t. induction s as [|a|a b|a b c s IH] using group_ind;
    intros [|a' [|b' [|c' t]]]; try done; cbn [base64url]; intros Heq; sextet_bounds.
  - injection Heq as E1 E2.
    sextets (nat_of_ascii a) 0%nat 0%nat. sextets (nat_of_ascii a') 0%nat 0%nat.
    apply base64url_char_inj in E1; [|lia..]. apply base64url_char_inj in E2; [|lia..].
    destruct (sextets_inj (nat_of_ascii a) 0%nat 0%nat (nat_of_ascii a') 0%nat 0%nat) as (Ha & _); try lia.
    by apply nat_of_ascii_inj in Ha as ->.
  - injection Heq as E1 E2 E3.
    sextets (nat_of_ascii a) (nat_of_ascii b) 0%nat.
    sextets (nat_of_ascii a') (nat_of_ascii b') 0%nat.
    apply base64url_char_inj in E1; [|lia..]. apply base64url_char_inj in E2; [|lia..].
    apply base64url_char_inj in E3; [|lia..].
    destruct (sextets_inj (nat_of_ascii a) (nat_of_ascii b) 0%nat (nat_of_ascii a') (nat_of_ascii b') 0%nat)
      as (Ha & Hb & _); try lia.
    by apply nat_of_ascii_inj in Ha as ->; apply nat_of_ascii_inj in Hb as ->.
  - injection Heq as E1 E2 E3 E4 E5.
    sextets (nat_of_ascii a) (nat_of_ascii b) (nat_of_ascii c).
    sextets (nat_of_ascii a') (nat_of_ascii b') (nat_of_ascii c').
    apply base64url_char_inj in E1; [|lia..]. apply base64url_char_inj in E2; [|lia..].
    apply base64url_char_inj in E3; [|lia..]. apply base64url_char_inj in E4; [|lia..].
    destruct (sextets_inj (nat_of_ascii a) (nat_of_ascii b) (nat_of_ascii c)
      (nat_of_ascii a') (nat_of_ascii b') (nat_of_ascii c')) as (Ha & Hb & Hc); try lia.
    apply nat_of_ascii_inj in Ha as ->. apply nat_of_ascii_inj in Hb as ->.
    apply nat_of_ascii_inj in Hc as ->. by rewrite (IH t).
Qed.

Lemma base64url_token s : all_chars token_char (base64url s) = true.
Proof.
  induction s as [|a|a b|a b c s IH] using group_ind; cbn [base64url all_chars]; [done|..]; sextet_bounds.
  - sextets (nat_of_ascii a) 0%nat 0%nat. rewrite !base64url_char_token; [done|simpl in *; lia..].
  - sextets (nat_of_ascii a) (nat_of_ascii b) 0%nat.
    rewrite !base64url_char_token; [done|simpl in *; lia..].
  - sextets (nat_of_ascii a) (nat_of_ascii b) (nat_of_ascii c).
    rewrite !base64url_char_token, IH; [done|lia..].
Qed.

(** A token ends at the first separator. *)
Lemma token_split a b x y c d :
  all_chars token_char a = true → all_chars token_char b = true →
  token_char c = false → token_char d = false →
  a +:+ String c x = b +:+ String d y → a = b ∧ String c x = String d y.
Proof.
  intros Ha Hb Hc Hd. revert b Hb. induction a as [|e a IH]; intros [|f b] Hb Heq; simpl in *.
  - done.
  - injection Heq as <- _. apply andb_true_iff in Hb as [? _]. congruence.
  - injection Heq as -> _. apply andb_true_iff in Ha as [? _]. congruence.
  - injection Heq as -> Heq. apply andb_true_iff in Ha as [_ Ha]. apply andb_true_iff in Hb as [_ Hb].
    destruct (IH Ha b Hb Heq) as [-> ->]. done.
Qed.

(** The text of the key of valid identities. *)
Definition key_text (environment tenant_id run_id : string) : string :=
  "fr:" +:+ environment +:+ ":v" +:+ int_str SHADOW_PROJECTION_SCHEMA_VERSION +:+ ":{t:"
  +:+ base64url tenant_id +:+ ":r:" +:+ base64url run_id +:+ "}:projection".

Lemma projection_key_Ok environment tenant_id run_id k :
  projection_key environment tenant_id run_id = Ok k →
  k = key_text environment tenant_id run_id ∧ ENVIRONMENT_RE environment = true
  ∧ shadow_identity tenant_id = Ok () ∧ shadow_identity run_id = Ok ().
Proof.
  unfold projection_key, base64url_identity. intros Hk.
  apply result_bind_Ok in Hk as (? & Henv%assert_result_Ok & Hk).
  apply result_bind_Ok in Hk as (? & Ht & Hk). apply result_bind_Ok in Ht as ([] & ? & Ht).
  apply result_bind_Ok in Hk as (? & Hr & Hk). apply result_bind_Ok in Hr as ([] & ? & Hr).
  injection Ht as <-. injection Hr as <-. injection Hk as <-. done.
Qed.

Lemma projection_key_eq environment tenant_id run_id :
  ENVIRONMENT_RE environment = true → shadow_identity tenant_id = Ok () → shadow_identity run_id = Ok () →
  projection_key environment tenant_id run_id = Ok (key_text environment tenant_id run_id).
Proof.
  intros He Ht Hr. unfold projection_key, base64url_identity, fullmatch. by rewrite He, Ht, Hr.
Qed.

Lemma key_text_inj environment tenant_id run_id tenant_id' run_id' :
  key_text environment tenant_id run_id = key_text environment tenant_id' run_id' →
  tenant_id = tenant_id' ∧ run_id = run_id'.
Proof.
  unfold key_text. intros Heq.
  apply str_app_inj in Heq as [_ Heq]; [|done]. apply str_app_inj in Heq as [_ Heq]; [|done].
  apply str_app_inj in Heq as [_ Heq]; [|done]. apply str_app_inj in Heq as [_ Heq]; [|done].
  apply str_app_inj in Heq as [_ Heq]; [|done].
  apply token_split in Heq as [Ht Heq]; [|apply base64url_token..|done|done].
  apply (str_app_inj ":r:" _ ":r:") in Heq as [_ Heq]; [|done].
  apply token_split in Heq as [Hr _]; [|apply base64url_token..|done|done].
  by apply base64url_inj in Ht; apply base64url_inj in Hr.
Qed.

(** ** The wire form determines the snapshot *)

Lemma snapshot_ok_inv s :
  snapshot_ok s → 0 ≤ s.(sn_stream_version) ∧ s.(sn_last_event_seq) = s.(sn_stream_version)
    ∧ s.(sn_phase) ≠ Some "" ∧ datetime_ok s.(sn_updated_at)
    ∧ shadow_identity s.(sn_tenant_id) = Ok () ∧ shadow_identity s.(sn_run_id) = Ok ().
Proof.
  intros (Hv & Hd & _). unfold snapshot_valid, non_negative_int in Hv.
  apply result_bind_Ok in Hv as ([] & ? & Hv). apply result_bind_Ok in Hv as ([] & ? & Hv).
  do 3 (apply result_bind_Ok in Hv as ([] & ?%assert_result_Ok & Hv)).
  apply assert_result_Ok in Hv. done.
Qed.

Lemma phase_wire_inj (p q : option string) :
  p ≠ Some "" → q ≠ Some "" → default "" p = default "" q → p = q.
Proof. destruct p, q; simpl; congruence. Qed.

Lemma entry_inj {A} (k : string) (a b : A) l l' : (k, a) :: l = (k, b) :: l' → a = b ∧ l = l'.
Proof. intros Heq. by simplify_eq. Qed.

Lemma wire_mapping_inj s t : snapshot_ok s → snapshot_ok t → wire_mapping s = wire_mapping t → s = t.
Proof.
  intros (Hs & Hls & Hps & Hds & _)%snapshot_ok_inv (Ht & Hlt & Hpt & Hdt & _)%snapshot_ok_inv.
  unfold wire_mapping, canonical_mapping. cbn [map fst snd from_option id]. intros Heq.
  apply entry_inj in Heq as [He Heq]. apply entry_inj in Heq as [_ Heq]. apply entry_inj in Heq as [Hp Heq].
  apply entry_inj in Heq as [Hr Heq]. apply entry_inj in Heq as [_ Heq]. apply entry_inj in Heq as [Hv Heq].
  apply entry_inj in Heq as [Htn Heq]. apply entry_inj in Heq as [Hu _].
  assert (s.(sn_execution_status) = t.(sn_execution_status)) as He' by (apply value_inj, He).
  apply phase_wire_inj in Hp; [|done..]. apply int_str_inj in Hv; [|done..].
  apply isoformat_us_z_inj in Hu; [|done..].
  destruct s, t; simpl in *; congruence.
Qed.
