(* ===== verification/RedisShadow.v ===== *)
(** * RedisShadow: the shadow projection in Redis

    production/redis_shadow.py: the Lua script that writes a snapshot only if it is not older
    than what is stored, and the sink that runs it and checks the answer;
    production/redis_shadow_reader.py: the reader, which accepts nothing but the exact wire
    form of a snapshot of the run it was asked for; production/redis_fanout.py: the hints
    that tell subscribers of a new snapshot, and their publisher. *)

From S2P Require Import Prelude Text Domain Platform Json Datetime Rollout Effects Decimal Redis.
From S2P Require Import ShadowProjection.
From Stdlib Require Import Lia.

#[local] Open Scope Z_scope.

(** ** The script *)

Section script.
Context `{Redis}.

(** [string.match(hash, '^[0-9a-f]+$')] and its length. *)
Definition is_hex_hash : string → bool := hex_format 64.

Fixpoint pairs_of (l : list string) : option (list (string * string)) :=
  match l with
  | [] => Some []
  | f :: v :: l' => cons (f, v) <$> pairs_of l'
  | [_] => None
  end.

(** [apply_projection()]. *)
Fixpoint hset_each (key : string) (fields : list (string * string)) : lua unit :=
  match fields with
  | [] => mret ()
  | (f, v) :: fields' => redis_call ["HSET"; key; f; v];; hset_each key fields'
  end.

Definition apply_projection (key : string) (fields : list (string * string)) (ttl : string) : lua unit :=
  hset_each key fields;;
  redis_call ["EXPIRE"; key; ttl];;
  mret ().

Definition status_reply (status : ProjectionWriteStatus.t) (version : string) : reply :=
  RArray [RBulk (value status); RBulk version].

(** [REDIS_PROJECTION_CAS_LUA], with KEYS and ARGV. *)
Definition projection_cas (key : string) (argv : list string) : lua reply :=
  match argv with
  | incoming_version :: incoming_hash :: ttl :: rest =>
      if negb (is_canonical_decimal incoming_version)
      then mret (RError "incoming stream_version is not canonical decimal")
      else if negb (is_hex_hash incoming_hash)
      then mret (RError "incoming canonical_sha256 is invalid")
      else match pairs_of rest with
      | None => mret (RError "projection fields must be name/value pairs")
      | Some fields =>
          let applied :=
            apply_projection key fields ttl;;
            mret (status_reply ProjectionWriteStatus.APPLIED incoming_version) in
          present ← redis_call ["EXISTS"; key];
          match present with
          | RInt 0 => applied
          | _ =>
            stored ← redis_call ["HGET"; key; "stream_version"];
            match reply_text stored with
            | None => mret (RError "stored stream_version is not canonical decimal")
            | Some stored_version =>
                if negb (is_canonical_decimal stored_version)
                then mret (RError "stored stream_version is not canonical decimal")
                else match compare_decimal incoming_version stored_version with
                | Gt => applied
                | Lt => mret (status_reply ProjectionWriteStatus.STALE stored_version)
                | Eq =>
                    stored_hash ← redis_call ["HGET"; key; "canonical_sha256"];
                    mret (status_reply
                      (if decide (reply_text stored_hash = Some incoming_hash)
                       then ProjectionWriteStatus.DUPLICATE else ProjectionWriteStatus.CONFLICT)
                      stored_version)
                end
            end
          end
      end
  | _ => mret (RError "incoming stream_version is not canonical decimal")
  end.
End script.

(** ** The sink *)

(** [_decode_response_text(value)]. *)
Definition decode_response_text (r : reply) : res string :=
  match r with
  | RBulk s | RStatus s =>
      assert_result (all_chars (byte_in 0 127) s = true) ShadowProjectionProtocolError;; mret s
  | _ => Err ShadowProjectionProtocolError
  end.

(** The consistency of a status with the two versions. *)
Definition consistent (status : ProjectionWriteStatus.t) (incoming stored : Z) : Prop :=
  match status with
  | ProjectionWriteStatus.STALE => incoming < stored
  | _ => stored = incoming
  end.

#[global] Instance consistent_dec status incoming stored : Decision (consistent status incoming stored).
Proof. destruct status; simpl; apply _. Defined.

(** [_parse_write_response]. *)
Definition parse_write_response (response : reply) (incoming : Z) : res ProjectionWriteResult :=
  match response with
  | RArray [r0; r1] =>
      status_text ← decode_response_text r0;
      version_text ← decode_response_text r1;
      status ← result_of_option ShadowProjectionProtocolError
                 (of_value (A := ProjectionWriteStatus.t) status_text);
      stored ← result_of_option ShadowProjectionProtocolError (canonical_decimal version_text);
      assert_result (consistent status incoming stored) ShadowProjectionProtocolError;;
      ProjectionWriteResult_init {| pw_status := status; incoming_version := incoming;
                                    stored_version := stored |}
  | _ => Err ShadowProjectionProtocolError
  end.

(** What the sink sends: the entries of the hash, then their digest. *)
Definition stored_fields `{Platform} (s : ShadowProjectionSnapshot) : list (string * string) :=
  wire_mapping s ++ [("canonical_sha256", canonical_sha256 s)].

Section client.
Context `{Redis} `{Platform}.

(** [RedisShadowProjectionSink.write_projection]. *)
Definition write_projection (environment : string) (surroundings : server → server) (d : delivery)
    (s : ShadowProjectionSnapshot) (ttl_seconds : Z) : pyeff server ProjectionWriteResult :=
  from_result (assert_result (0 < ttl_seconds) ValueError);;
  key ← from_result (projection_key environment s.(sn_tenant_id) s.(sn_run_id));
  let arguments := [int_str s.(sn_stream_version); canonical_sha256 s; int_str ttl_seconds]
                   ++ flatten (stored_fields s) in
  answer ← attempt (eval surroundings d (projection_cas key arguments));
  match answer with
  | Err _ => fail ShadowProjectionUnavailableError
  | Ok response => from_result (parse_write_response response s.(sn_stream_version))
  end.

(** [RedisShadowProjectionSink(client, environment)]. *)
Definition RedisShadowProjectionSink_init (environment : string) : res string :=
  projection_key environment "validation" "validation";; mret environment.

(** ** The reader *)

Definition PROJECTION_FIELDS : gset string :=
  {["canonical_sha256"; "execution_status"; "last_event_seq"; "phase"; "run_id"; "schema_version";
    "stream_version"; "tenant_id"; "updated_at"]}.

(** The mapping that the client makes of the answer to HGETALL. *)
Fixpoint mapping_of (l : list reply) : option (list (string * string)) :=
  match l with
  | [] => Some []
  | RBulk f :: RBulk v :: l' => cons (f, v) <$> mapping_of l'
  | _ => None
  end.

(** [_decode_hash(raw_fields)]. *)
Definition decode_hash (raw : reply) : res (gmap string string) :=
  match raw with
  | RArray l =>
      match mapping_of l with
      | None => Err ShadowProjectionProtocolError
      | Some pairs =>
          assert_result (Forall (λ kv, utf8_valid kv.1 = true ∧ utf8_valid kv.2 = true) pairs)
            ShadowProjectionProtocolError;;
          mret (list_to_map pairs)
      end
  | _ => Err ShadowProjectionProtocolError
  end.

Definition field (fields : gmap string string) (name : string) : string := default "" (fields !! name).

Context `{Signing}.

(** [_parse_utc_timestamp(value)]. *)
Definition parse_utc_timestamp (e : exn) (text : string) : res datetime :=
  assert_result (ends_with "Z" text = true) e;;
  match fromisoformat (str_take (String.length text - 1) text +:+ "+00:00") with
  | Some (t, Some offset) => assert_result (offset = 0) e;; mret t
  | _ => Err e
  end.

(** [_parse_snapshot]. *)
Definition parse_snapshot (fields : gmap string string) (tenant_id run_id : string)
    : res ShadowProjectionSnapshot :=
  let protocol := ShadowProjectionProtocolError in
  assert_result (dom fields = PROJECTION_FIELDS) protocol;;
  assert_result (field fields "schema_version" = int_str SHADOW_PROJECTION_SCHEMA_VERSION) protocol;;
  assert_result (field fields "tenant_id" = tenant_id ∧ field fields "run_id" = run_id) protocol;;
  stream_version ← result_of_option protocol (canonical_decimal (field fields "stream_version"));
  last_event_seq ← result_of_option protocol (canonical_decimal (field fields "last_event_seq"));
  assert_result (stream_version = last_event_seq) protocol;;
  status ← result_of_option protocol
             (of_value (A := ExecutionStatus.t) (field fields "execution_status"));
  let phase := if decide (field fields "phase" = "") then None else Some (field fields "phase") in
  updated_at ← parse_utc_timestamp protocol (field fields "updated_at");
  snapshot ← ShadowProjectionSnapshot_init {|
    sn_tenant_id := tenant_id; sn_run_id := run_id; sn_stream_version := stream_version;
    sn_execution_status := status; sn_phase := phase; sn_last_event_seq := last_event_seq;
    sn_updated_at := updated_at |};
  assert_result (map (λ kv, (kv.1, field fields kv.1)) (wire_mapping snapshot)
                 = wire_mapping snapshot) protocol;;
  assert_result (field fields "canonical_sha256" = canonical_sha256 snapshot) protocol;;
  mret snapshot.

(** [RedisShadowProjectionReader.read_projection]. *)
Definition read_projection (environment : string) (surroundings : server → server) (d : delivery)
    (tenant_id run_id : string) : pyeff server (option ShadowProjectionSnapshot) :=
  key ← from_result (projection_key environment tenant_id run_id);
  answer ← attempt (eval surroundings d (redis_call ["HGETALL"; key]));
  match answer with
  | Err _ => fail ShadowProjectionUnavailableError
  | Ok raw_fields =>
      from_result (
        match (fields ← decode_hash raw_fields;
               if decide (fields = ∅) then mret None
               else Some <$> parse_snapshot fields tenant_id run_id) with
        | Ok s => Ok s
        | Err e => if is_invalid e || bool_decide (e = OverflowError)
                   then Err ShadowProjectionProtocolError else Err e
        end)
  end.
End client.

(** ** Wake-up hints

    production/redis_fanout.py: the hint about a run's newest event, derived from a validated
    snapshot, its wire form and channel, and the publisher. A hint announces a sequence
    number and carries nothing else; subscribers read the events from PostgreSQL. *)

Record RunEventHint := {
  hint_tenant_id : string;
  hint_run_id : string;
  latest_seq : Z;
  hint_updated_at : datetime;
  hint_schema_version : Z;
}.

(** [RunEventHint.from_snapshot(snapshot)]. *)
Definition from_snapshot (s : ShadowProjectionSnapshot) : RunEventHint := {|
  hint_tenant_id := s.(sn_tenant_id); hint_run_id := s.(sn_run_id);
  latest_seq := s.(sn_last_event_seq); hint_updated_at := s.(sn_updated_at);
  hint_schema_version := SHADOW_PROJECTION_SCHEMA_VERSION |}.

(** [_HINT_VALIDATION_STATUS] and [_validated_source_snapshot]. *)
Definition HINT_VALIDATION_STATUS : ExecutionStatus.t := ExecutionStatus.ACTIVE.

Definition validated_source_snapshot (h : RunEventHint) : res ShadowProjectionSnapshot :=
  ShadowProjectionSnapshot_init {|
    sn_tenant_id := h.(hint_tenant_id); sn_run_id := h.(hint_run_id);
    sn_stream_version := h.(latest_seq); sn_execution_status := HINT_VALIDATION_STATUS;
    sn_phase := None; sn_last_event_seq := h.(latest_seq); sn_updated_at := h.(hint_updated_at) |}.

(** [RunEventHint.canonical_mapping()], in its order. *)
Definition hint_mapping (h : RunEventHint) : res (list (string * string)) :=
  snapshot ← validated_source_snapshot h;
  mret [("latest_seq", int_str h.(latest_seq)); ("run_id", h.(hint_run_id));
        ("schema_version", int_str h.(hint_schema_version)); ("tenant_id", h.(hint_tenant_id));
        ("updated_at", isoformat_us_z snapshot.(sn_updated_at))].

(** [fanout_channel]: the key of the projection with another suffix. *)
Definition fanout_channel (environment tenant_id run_id : string) : res string :=
  projection ← projection_key environment tenant_id run_id;
  if ends_with ":projection" projection
  then mret (str_take (String.length projection - String.length ":projection") projection +:+ ":fanout")
  else Err RuntimeError.

Section publisher.
Context `{Platform} `{Redis}.

(** [canonical_bytes()] and [canonical_sha256()]. *)
Definition hint_bytes (h : RunEventHint) : res string :=
  mapping ← hint_mapping h; mret (canonical_json (JObj (map (λ kv, (kv.1, JStr kv.2)) mapping))).
Definition hint_sha256 (h : RunEventHint) : res string := bytes ← hint_bytes h; mret (sha256_text bytes).

(** [RedisRunEventHintPublisher(client, environment)]. *)
Definition RedisRunEventHintPublisher_init (environment : string) : res string :=
  fanout_channel environment "validation" "validation";; mret environment.

(** [RedisRunEventHintPublisher.publish(snapshot)]: the number of subscribers. *)
Definition publish (environment : string) (surroundings : server → server) (d : delivery)
    (s : ShadowProjectionSnapshot) : pyeff server Z :=
  let hint := from_snapshot s in
  channel ← from_result (fanout_channel environment hint.(hint_tenant_id) hint.(hint_run_id));
  message ← from_result (hint_bytes hint);
  answer ← attempt (eval surroundings d (redis_call ["PUBLISH"; channel; message]));
  match answer with
  | Err _ => fail RunFanoutUnavailableError
  | Ok (RInt n) => from_result (assert_result (0 ≤ n) RunFanoutProtocolError;; mret n)
  | Ok _ => fail RunFanoutProtocolError
  end.

(** ** Publishing changes nothing in the server *)

Lemma publish_state `{!RedisLaws} environment d s srv : (publish environment id d s srv).2 = srv.
Proof.
  unfold publish, from_result, mbind, eff_bind. destruct (fanout_channel _ _ _) as [channel|]; [|done].
  destruct (hint_bytes _) as [message|]; [|done]. unfold attempt, eval, script_reply, redis_call, id.
  destruct (publish_law srv channel message) as (n & Hn & ->).
  destruct d; [|done|done]. unfold assert_result. by rewrite decide_True.
Qed.

Lemma hint_valid s : snapshot_ok s → ∃ mapping, hint_mapping (from_snapshot s) = Ok mapping.
Proof.
  intros Hok. pose proof (snapshot_ok_inv s Hok) as (Hv & Hseq & _ & _ & Ht & Hr).
  unfold hint_mapping, validated_source_snapshot, ShadowProjectionSnapshot_init, snapshot_valid, from_snapshot,
    non_negative_int. cbn [hint_tenant_id hint_run_id latest_seq hint_updated_at hint_schema_version
      sn_tenant_id sn_run_id sn_stream_version sn_last_event_seq sn_phase sn_updated_at].
  rewrite Ht, Hr, !assert_ok by (done || lia). unfold assert_result. rewrite !decide_True by (done || lia).
  by eexists.
Qed.
End publisher.
