(* ===== verification/ShadowSafety.v ===== *)
(** * ShadowSafety: the shadow is a versioned register

    [shadow_is_a_versioned_register]: the sink and the reader, through the Lua script and a
    network that may lose requests and answers, implement a map from runs to their newest
    snapshots. A snapshot is stored if and only if nothing newer or equal is there, so
    deliveries in any order never take a run back, and a read returns the stored snapshot or
    a miss and nothing else. *)

From S2P Require Import Prelude Text Domain Platform Json Datetime Rollout Effects Decimal Redis ShadowProjection RedisShadow.
From Stdlib Require Import Lia.

#[local] Open Scope Z_scope.

(** What is documented of the parameters: digests are 64 hexadecimal digits, and a printed
    time is read back. *)
Class ShadowLaws `{Platform} `{Signing} : Prop := {
  sha256_hex s : hex_format 64 (sha256_text s) = true;
  fromisoformat_us t :
    datetime_ok t →
    fromisoformat (isoformat_with (λ us, "." +:+ pad 6 us) t +:+ "+00:00") = Some (t, Some 0);
}.

(** ** Texts *)

Lemma all_chars_weaken (p q : ascii → bool) s :
  (∀ a, p a = true → q a = true) → all_chars p s = true → all_chars q s = true.
Proof.
  intros Hpq. induction s as [|a s IH]; simpl; [done|]. rewrite !andb_true_iff. intros [Ha Hs].
  auto.
Qed.

Lemma all_chars_app p s t : all_chars p (s +:+ t) = all_chars p s && all_chars p t.
Proof. induction s as [|a s IH]; [done|]. rewrite str_app_cons. simpl. by rewrite IH, andb_assoc. Qed.

Definition is_ascii (s : string) : bool := all_chars (byte_in 0 127) s.

Lemma digits_ascii s : all_chars decimal_digit s = true → is_ascii s = true.
Proof.
  apply all_chars_weaken. intros a. unfold decimal_digit, byte_in. rewrite !andb_true_iff, !Nat.leb_le. lia.
Qed.

Lemma int_str_ascii n : 0 ≤ n → is_ascii (int_str n) = true.
Proof.
  intros Hn. apply digits_ascii. pose proof (int_str_canonical n Hn) as Hc.
  unfold is_canonical_decimal in Hc. by rewrite !andb_true_iff in Hc; destruct Hc as [[_ ?] _].
Qed.

Lemma hex_ascii s : hex_format 64 s = true → is_ascii s = true.
Proof.
  unfold hex_format. rewrite andb_true_iff. intros [_ Hs]. revert Hs. apply all_chars_weaken.
  intros a. unfold decimal_digit, byte_in. rewrite orb_true_iff, !andb_true_iff, !Nat.leb_le. lia.
Qed.

Lemma pad_digits w n : all_chars decimal_digit (pad w n) = true.
Proof.
  revert n. induction w as [|w IH]; intros n; cbn [pad]; [done|]. rewrite all_chars_app, IH. cbn [all_chars andb].
  pose proof (digit_value n) as Hd. pose proof (Z.mod_pos_bound n 10 ltac:(lia)).
  unfold decimal_digit, byte_in. rewrite andb_true_r, !andb_true_iff, !Nat.leb_le. lia.
Qed.

Lemma pad_ascii w n : is_ascii (pad w n) = true.
Proof. apply digits_ascii, pad_digits. Qed.

Lemma isoformat_ascii f t : (∀ us, is_ascii (f us) = true) → is_ascii (isoformat_with f t) = true.
Proof.
  intros Hf. unfold isoformat_with. destruct (civil _) as [[y m] d]. unfold is_ascii in *.
  rewrite !all_chars_app, Hf. pose proof pad_ascii as Hp. unfold is_ascii in Hp. by rewrite !Hp.
Qed.

Lemma isoformat_us_z_app t :
  isoformat_us_z t = isoformat_with (λ us, "." +:+ pad 6 us) t +:+ "Z".
Proof.
  unfold isoformat_us_z, isoformat_with. destruct (civil _) as [[y m] d]. by rewrite !str_app_assoc.
Qed.

Lemma str_take_app_length s t : str_take (String.length s) (s +:+ t) = s.
Proof. induction s as [|a s IH]; simpl; [by destruct t|]. by rewrite IH. Qed.

Lemma ends_with_app suffix s : ends_with suffix (s +:+ suffix) = true.
Proof.
  induction s as [|a s IH].
  - change ("" +:+ suffix) with suffix.
    destruct suffix as [|b t]; [done|]. cbn [ends_with]. by rewrite bool_decide_eq_true_2.
  - rewrite str_app_cons. cbn [ends_with]. by rewrite IH, orb_true_r.
Qed.

Lemma ascii_utf8 s : is_ascii s = true → utf8_valid s = true.
Proof.
  unfold utf8_valid, is_ascii. induction s as [|a s IH]; [done|].
  cbn [all_chars String.length utf8_valid_fuel utf8_head]. rewrite andb_true_iff. intros [-> Hs].
  cbn [andb str_drop]. by apply IH.
Qed.

(** ** Hashes *)

Lemma set_fields_other (pairs : list (string * string)) h f :
  f ∉ pairs.*1 → set_fields pairs h !! f = h !! f.
Proof.
  unfold set_fields. revert h. induction pairs as [|[g v] pairs IH]; intros h Hf; [done|].
  cbn in Hf |- *. apply not_elem_of_cons in Hf as [Hne Hf]. rewrite IH by done. by rewrite lookup_insert_ne.
Qed.

Lemma set_fields_in (pairs : list (string * string)) h f v :
  NoDup pairs.*1 → (f, v) ∈ pairs → set_fields pairs h !! f = Some v.
Proof.
  revert h. induction pairs as [|[g w] pairs IH]; intros h Hnd Hin; [by apply elem_of_nil in Hin|].
  cbn in Hnd. apply NoDup_cons in Hnd as [Hg Hnd]. cbn.
  apply elem_of_cons in Hin as [[= -> ->]|Hin]; [|by apply IH].
  change (set_fields pairs (<[g:=w]> h) !! g = Some w).
  rewrite set_fields_other by done. by rewrite lookup_insert_eq.
Qed.

(** Overwriting every field leaves nothing of the old hash. *)
Lemma set_fields_all (pairs : list (string * string)) (h : gmap string string) :
  NoDup pairs.*1 → (∀ f, f ∈ dom h → f ∈ pairs.*1) → set_fields pairs h = list_to_map pairs.
Proof.
  intros Hnd Hdom. apply map_eq. intros f. destruct (decide (f ∈ pairs.*1)) as [Hf|Hf].
  - apply list_elem_of_fmap in Hf as ([g v] & -> & Hin). cbn [fst].
    by rewrite (set_fields_in _ _ g v), (elem_of_list_to_map_1 _ g v).
  - rewrite set_fields_other, not_elem_of_list_to_map_1 by done. apply not_elem_of_dom. auto.
Qed.

Lemma stored_fields_keys `{Platform} s :
  (stored_fields s).*1 = ["execution_status"; "last_event_seq"; "phase"; "run_id"; "schema_version";
                          "stream_version"; "tenant_id"; "updated_at"; "canonical_sha256"].
Proof. done. Qed.

Lemma stored_fields_NoDup `{Platform} s : NoDup (stored_fields s).*1.
Proof. rewrite stored_fields_keys. apply (bool_decide_eq_true (NoDup _)). vm_compute. reflexivity. Qed.

(** The hash that holds a snapshot. *)
Definition snapshot_hash `{Platform} (s : ShadowProjectionSnapshot) : gmap string string :=
  list_to_map (stored_fields s).

Lemma snapshot_hash_over `{Platform} s t :
  set_fields (stored_fields s) (snapshot_hash t) = snapshot_hash s
  ∧ set_fields (stored_fields s) ∅ = snapshot_hash s.
Proof.
  split; apply set_fields_all; try apply stored_fields_NoDup.
  - intros f Hf. unfold snapshot_hash in Hf. rewrite dom_list_to_map, elem_of_list_to_set in Hf.
    by rewrite stored_fields_keys in *.
  - intros f Hf. by rewrite dom_empty in Hf; apply not_elem_of_empty in Hf.
Qed.

Lemma snapshot_hash_field `{Platform} s f v :
  (f, v) ∈ stored_fields s → snapshot_hash s !! f = Some v.
Proof. intros Hin. apply elem_of_list_to_map_1; [apply stored_fields_NoDup|done]. Qed.

(** An entry of a literal list. *)
Ltac in_entries := repeat first [apply list_elem_of_here | apply list_elem_of_further].

(** ** The script *)

Section script.
Context `{Redis} `{!RedisLaws} `{Platform} `{Signing} `{!ShadowLaws}.
Implicit Types srv : server.

Lemma hset_each_spec key p pairs srv h :
  hash_of (value_at srv key) = Some h →
  ∃ srv', hset_each key (p :: pairs) srv = (Ok (), srv')
          ∧ wrote srv key (Some (RHash (set_fields (p :: pairs) h))) (deadline srv key) srv'.
Proof.
  revert p srv h. induction pairs as [|q pairs IH]; intros [f v] srv h Hh;
    destruct (hset_law srv key (f, v) [] h Hh) as (n & s1 & Hc & Hw); cbn [flatten] in Hc;
    cbn [hset_each]; (erewrite redis_call_bind; [|exact Hc|done]).
  - by exists s1.
  - destruct (wrote_same _ _ _ _ _ Hw) as [Hv1 Hd1].
    destruct (IH q s1 (set_fields [(f, v)] h)) as (s2 & Hrun & Hw2); [by rewrite Hv1|].
    exists s2. split; [exact Hrun|]. rewrite Hd1 in Hw2. by eapply wrote_twice.
Qed.

Lemma apply_projection_spec key s ttl srv h :
  hash_of (value_at srv key) = Some h → set_fields (stored_fields s) h = snapshot_hash s → 0 < ttl →
  ∃ srv', apply_projection key (stored_fields s) (int_str ttl) srv = (Ok (), srv')
          ∧ wrote srv key (Some (RHash (snapshot_hash s)))
              (Some (server_time srv `div` 1000 + 1000 * ttl)) srv'.
Proof.
  intros Hh Hset Httl. unfold apply_projection.
  destruct (stored_fields s) as [|p pairs] eqn:Hpairs; [done|].
  destruct (hset_each_spec key p pairs srv h Hh) as (s1 & Hrun & Hw1). rewrite Hset in Hw1.
  unfold mbind at 1, eff_bind at 1. rewrite Hrun. destruct (wrote_same _ _ _ _ _ Hw1) as [Hv1 Hd1].
  destruct (expire_law s1 key ttl) as (s2 & Hc2 & Hw2); [by rewrite Hv1|done|].
  erewrite redis_call_bind; [|exact Hc2|done]. exists s2. split; [done|].
  rewrite Hv1, (proj1 Hw1) in Hw2. by eapply wrote_twice.
Qed.

Lemma pairs_of_flatten l : pairs_of (flatten l) = Some l.
Proof. induction l as [|[f v] l IH]; simpl; [done|]. by rewrite IH. Qed.

Lemma snapshot_hash_version s : snapshot_hash s !! "stream_version" = Some (int_str s.(sn_stream_version)).
Proof. apply snapshot_hash_field. in_entries. Qed.

Lemma snapshot_hash_digest s : snapshot_hash s !! "canonical_sha256" = Some (canonical_sha256 s).
Proof. apply snapshot_hash_field. in_entries. Qed.

(** ** The register *)

(** One run's newest snapshot: what a write answers, and what is stored afterwards. *)
Definition register_write (old : option ShadowProjectionSnapshot) (s : ShadowProjectionSnapshot)
    : ProjectionWriteStatus.t * Z * ShadowProjectionSnapshot :=
  match old with
  | None => (ProjectionWriteStatus.APPLIED, s.(sn_stream_version), s)
  | Some s0 =>
      match s.(sn_stream_version) ?= s0.(sn_stream_version) with
      | Gt => (ProjectionWriteStatus.APPLIED, s.(sn_stream_version), s)
      | Lt => (ProjectionWriteStatus.STALE, s0.(sn_stream_version), s0)
      | Eq => (if decide (canonical_sha256 s = canonical_sha256 s0)
               then ProjectionWriteStatus.DUPLICATE else ProjectionWriteStatus.CONFLICT,
               s0.(sn_stream_version), s0)
      end
  end.

Definition stored_value (o : option ShadowProjectionSnapshot) : option rvalue :=
  (λ s, RHash (snapshot_hash s)) <$> o.

(** The key is rewritten with the new snapshot, or nothing changes. *)
Definition register_effect (srv : server) (key : string) (old : option ShadowProjectionSnapshot)
    (s : ShadowProjectionSnapshot) (ttl : Z) (srv' : server) : Prop :=
  if decide ((register_write old s).1.1 = ProjectionWriteStatus.APPLIED)
  then wrote srv key (stored_value (Some s)) (Some (server_time srv `div` 1000 + 1000 * ttl)) srv'
  else srv' = srv.

Lemma projection_cas_spec key old s ttl srv :
  0 ≤ s.(sn_stream_version) → (∀ s0, old = Some s0 → 0 ≤ s0.(sn_stream_version)) → 0 < ttl →
  value_at srv key = stored_value old →
  let '(status, stored, _) := register_write old s in
  ∃ srv', projection_cas key ([int_str s.(sn_stream_version); canonical_sha256 s; int_str ttl]
                              ++ flatten (stored_fields s)) srv
          = (Ok (status_reply status (int_str stored)), srv')
          ∧ register_effect srv key old s ttl srv'.
Proof.
  intros Hs Hold Httl Hv. unfold register_effect. cbn [app projection_cas].
  rewrite int_str_canonical by done. unfold is_hex_hash, canonical_sha256 at 1. rewrite sha256_hex.
  cbn [negb]. rewrite pairs_of_flatten.
  erewrite redis_call_bind; [|apply exists_law|done]. rewrite Hv.
  assert (∀ h, hash_of (value_at srv key) = Some h → set_fields (stored_fields s) h = snapshot_hash s →
    ∃ srv', (apply_projection key (stored_fields s) (int_str ttl) ≫=
               λ _, mret (status_reply ProjectionWriteStatus.APPLIED (int_str s.(sn_stream_version)))) srv
            = (Ok (status_reply ProjectionWriteStatus.APPLIED (int_str s.(sn_stream_version))), srv')
            ∧ wrote srv key (stored_value (Some s)) (Some (server_time srv `div` 1000 + 1000 * ttl)) srv')
    as Happlied.
  { intros h Hh Hset. destruct (apply_projection_spec key s ttl srv h Hh Hset Httl) as (srv' & Hrun & Hw).
    exists srv'. split; [|done]. unfold mbind, eff_bind. by rewrite Hrun. }
  destruct old as [s0|]; cbn [stored_value fmap option_fmap option_map] in *.
  - rewrite decide_False by done. specialize (Hold s0 eq_refl).
    erewrite redis_call_bind; [|by apply hget_law; rewrite Hv|by rewrite snapshot_hash_version].
    rewrite reply_text_bulk, snapshot_hash_version, int_str_canonical, compare_decimal_int by done.
    cbn [negb]. unfold register_write.
    destruct (s.(sn_stream_version) ?= s0.(sn_stream_version)) eqn:Hcmp.
    + erewrite redis_call_bind; [|by apply hget_law; rewrite Hv|by rewrite snapshot_hash_digest].
      rewrite reply_text_bulk, snapshot_hash_digest.
      exists srv. split.
      * repeat case_decide; first [done|congruence].
      * by repeat case_decide.
    + exists srv. split; [done|]. by case_decide.
    + destruct (Happlied (snapshot_hash s0)) as (srv' & Hrun & Hw);
        [by rewrite Hv|apply (proj1 (snapshot_hash_over s s0))|]. by exists srv'.
  - rewrite decide_True by done. cbn [register_write].
    destruct (Happlied ∅) as (srv' & Hrun & Hw); [by rewrite Hv|apply (proj2 (snapshot_hash_over s s))|].
    by exists srv'.
Qed.
End script.

(** ** The client *)

Lemma parse_status_reply status incoming stored :
  0 ≤ incoming → 0 ≤ stored → consistent status incoming stored →
  parse_write_response (status_reply status (int_str stored)) incoming
  = Ok {| pw_status := status; incoming_version := incoming; stored_version := stored |}.
Proof.
  intros Hi Hs Hc. unfold parse_write_response, status_reply, decode_response_text.
  assert (all_chars (byte_in 0 127) (value status) = true) as -> by (by destruct status).
  pose proof (int_str_ascii stored Hs) as Ha. unfold is_ascii in Ha. rewrite Ha.
  cbn [assert_result mbind result_bind mret result_ret]. unfold assert_result.
  rewrite !decide_True by done. cbn [mbind result_bind mret result_ret].
  rewrite (of_value_value (A := ProjectionWriteStatus.t)), canonical_decimal_int by done.
  cbn [result_of_option mbind result_bind]. rewrite decide_True by done.
  unfold ProjectionWriteResult_init, non_negative_int, assert_result. cbn [mbind result_bind mret result_ret incoming_version stored_version].
  by rewrite !decide_True.
Qed.

Section register.
Context `{Redis} `{!RedisLaws} `{Platform} `{Signing} `{!ShadowLaws} (environment : string).
Implicit Types srv : server.

(** The server holds [o] for a run: a snapshot of it, or nothing. *)
Definition holds (srv : server) (t r : string) (o : option ShadowProjectionSnapshot) : Prop :=
  value_at srv (key_text environment t r) = stored_value o
  ∧ ∀ s, o = Some s → snapshot_ok s ∧ s.(sn_tenant_id) = t ∧ s.(sn_run_id) = r.

(** The server holds the newest snapshots [m]. *)
Definition represents (srv : server) (m : gmap (string * string) ShadowProjectionSnapshot) : Prop :=
  ∀ t r, shadow_identity t = Ok () → shadow_identity r = Ok () → holds srv t r (m !! (t, r)).

Definition run_key (s : ShadowProjectionSnapshot) : string * string := (s.(sn_tenant_id), s.(sn_run_id)).

Lemma register_consistent old s status stored newest :
  register_write old s = (status, stored, newest) →
  consistent status s.(sn_stream_version) stored ∧ stored = newest.(sn_stream_version)
  ∧ s.(sn_stream_version) ≤ newest.(sn_stream_version)
  ∧ (newest = s ∧ status = ProjectionWriteStatus.APPLIED
     ∨ old = Some newest ∧ status ≠ ProjectionWriteStatus.APPLIED).
Proof.
  unfold register_write. destruct old as [s0|]; [|intros [= <- <- <-]; simpl; naive_solver lia].
  destruct (Z.compare_spec s.(sn_stream_version) s0.(sn_stream_version)); intros Heq; simplify_eq; simpl.
  - split_and!; [by case_decide|done|lia|]. right. by case_decide.
  - split_and!; [done..|lia|by right].
  - split_and!; [done..|lia|by left].
Qed.

(** What a write leaves of its own run, and of the others. *)
Lemma register_effect_same srv old s ttl srv' :
  holds srv s.(sn_tenant_id) s.(sn_run_id) old → snapshot_ok s →
  register_effect srv (key_text environment s.(sn_tenant_id) s.(sn_run_id)) old s ttl srv' →
  holds srv' s.(sn_tenant_id) s.(sn_run_id) (Some (register_write old s).2).
Proof.
  intros [Hv Hm] Hok Heff. destruct (register_write old s) as [[status stored] newest] eqn:Hw.
  pose proof (register_consistent _ _ _ _ _ Hw) as (_ & _ & _ & Hnew).
  unfold register_effect in Heff. rewrite Hw in Heff. cbn [fst snd] in *.
  destruct Hnew as [[-> ->]|[-> Hne]].
  - rewrite decide_True in Heff by done. destruct (wrote_same _ _ _ _ _ Heff) as [Hv' _].
    split; [done|]. by intros ? [= <-].
  - rewrite decide_False in Heff by done. by subst srv'.
Qed.

Lemma register_effect_other srv old s ttl srv' t r :
  run_key s ≠ (t, r) →
  register_effect srv (key_text environment s.(sn_tenant_id) s.(sn_run_id)) old s ttl srv' →
  value_at srv' (key_text environment t r) = value_at srv (key_text environment t r).
Proof.
  intros Hk Heff. unfold register_effect in Heff. case_decide; [|by subst].
  assert (key_text environment t r ≠ key_text environment s.(sn_tenant_id) s.(sn_run_id)) as Hne.
  { intros Heq%key_text_inj. apply Hk. unfold run_key. naive_solver. }
  by destruct (wrote_other _ _ _ _ _ _ Heff Hne) as [-> _].
Qed.

(** The map after a write. *)
Lemma represents_effect srv m s ttl srv' (old := m !! run_key s) :
  represents srv m → snapshot_ok s →
  register_effect srv (key_text environment s.(sn_tenant_id) s.(sn_run_id)) old s ttl srv' →
  represents srv' (<[run_key s := (register_write old s).2]> m).
Proof.
  intros Hrep Hok Heff t r Ht Hr.
  destruct (decide (run_key s = (t, r))) as [Hk|Hk].
  - rewrite Hk, lookup_insert_eq. unfold run_key in Hk. injection Hk as <- <-.
    eapply register_effect_same; [|done|exact Heff]. by apply Hrep.
  - rewrite lookup_insert_ne by done. destruct (Hrep t r Ht Hr) as [Hv Hm]. split; [|done].
    by rewrite <- Hv, (register_effect_other _ _ _ _ _ _ _ Hk Heff).
Qed.

(** Eviction and expiry only forget. *)
Lemma represents_loses srv m srv' :
  represents srv m → loses srv srv' → ∃ m', m' ⊆ m ∧ represents srv' m'.
Proof.
  intros Hrep Hlose.
  exists (filter (λ kv, value_at srv' (key_text environment kv.1.1 kv.1.2) ≠ None) m).
  split; [apply map_filter_subseteq|]. intros t r Ht Hr. destruct (Hrep t r Ht Hr) as [Hv Hm].
  destruct (Hlose (key_text environment t r)) as [Hs|Hs].
  - assert (filter (λ kv, value_at srv' (key_text environment kv.1.1 kv.1.2) ≠ None) m !! (t, r) = m !! (t, r)) as ->.
    { destruct (m !! (t, r)) as [s|] eqn:Hl.
      - apply map_lookup_filter_Some. split; [done|]. cbn [fst snd]. by rewrite Hs, Hv.
      - apply map_lookup_filter_None. by left. }
    unfold holds. by rewrite Hs, Hv.
  - assert (filter (λ kv, value_at srv' (key_text environment kv.1.1 kv.1.2) ≠ None) m !! (t, r) = None) as ->.
    { apply map_lookup_filter_None. right. intros x _. cbn [fst snd]. rewrite Hs. naive_solver. }
    done.
Qed.

Lemma write_projection_spec surroundings d s ttl srv old :
  ENVIRONMENT_RE environment = true → snapshot_ok s → 0 < ttl →
  holds (surroundings srv) s.(sn_tenant_id) s.(sn_run_id) old →
  let '(status, stored, _) := register_write old s in
  ∃ srv', register_effect (surroundings srv) (key_text environment s.(sn_tenant_id) s.(sn_run_id)) old s ttl srv'
    ∧ write_projection environment surroundings d s ttl srv
      = match d with
        | Answered => (Ok {| pw_status := status; incoming_version := s.(sn_stream_version);
                             stored_version := stored |}, srv')
        | RequestLost => (Err ShadowProjectionUnavailableError, surroundings srv)
        | ReplyLost => (Err ShadowProjectionUnavailableError, srv')
        end.
Proof.
  intros Henv Hok Httl [Hval Hm]. pose proof (snapshot_ok_inv s Hok) as (Hv & _ & _ & _ & Ht & Hr).
  assert (∀ s0, old = Some s0 → 0 ≤ s0.(sn_stream_version)) as Hold.
  { intros s0 Hs0. destruct (Hm s0 Hs0) as [Hok0 _]. by apply snapshot_ok_inv in Hok0 as [? _]. }
  pose proof (projection_cas_spec _ old s ttl (surroundings srv) Hv Hold Httl Hval) as Hcas.
  destruct (register_write old s) as [[status stored] newest] eqn:Hw.
  destruct (register_consistent _ _ _ _ _ Hw) as (Hc & -> & Hle & _).
  destruct Hcas as (srv' & Hrun & Heff). exists srv'. split; [done|].
  unfold write_projection, from_result, mbind, eff_bind, attempt, eval, script_reply, assert_result.
  rewrite decide_True by done. cbn [mret result_ret]. rewrite projection_key_eq by done. rewrite Hrun.
  cbn [app status_reply]. destruct d; [|done..].
  change (RArray [RBulk (value status); RBulk (int_str (sn_stream_version newest))])
    with (status_reply status (int_str (sn_stream_version newest))).
  rewrite parse_status_reply; [done|done|lia|done].
Qed.

(** ** Reading back *)

Lemma field_snapshot s f v : (f, v) ∈ stored_fields s → field (snapshot_hash s) f = v.
Proof. intros Hin. unfold field. by rewrite (snapshot_hash_field s f v). Qed.

Lemma snapshot_hash_dom s : dom (snapshot_hash s) = PROJECTION_FIELDS.
Proof.
  unfold snapshot_hash. rewrite dom_list_to_map_L, stored_fields_keys.
  apply (bool_decide_eq_true (_ = _)). vm_compute. reflexivity.
Qed.

Lemma parse_timestamp_us e t : datetime_ok t → parse_utc_timestamp e (isoformat_us_z t) = Ok t.
Proof.
  intros Ht. unfold parse_utc_timestamp. rewrite isoformat_us_z_app, ends_with_app, assert_ok by done.
  rewrite str_length_app. replace (_ + _ - 1)%nat with
    (String.length (isoformat_with (λ us, "." +:+ pad 6 us) t)) by (simpl; lia).
  rewrite str_take_app_length, fromisoformat_us by done. by rewrite assert_ok.
Qed.

(** The entries of a stored snapshot, one by one. *)
Lemma stored_entries (P : string * string → Prop) s :
  Forall P (stored_fields s) →
  P ("execution_status", value s.(sn_execution_status))
  ∧ P ("last_event_seq", int_str s.(sn_last_event_seq)) ∧ P ("phase", default "" s.(sn_phase))
  ∧ P ("run_id", s.(sn_run_id)) ∧ P ("schema_version", int_str SHADOW_PROJECTION_SCHEMA_VERSION)
  ∧ P ("stream_version", int_str s.(sn_stream_version)) ∧ P ("tenant_id", s.(sn_tenant_id))
  ∧ P ("updated_at", isoformat_us_z s.(sn_updated_at)) ∧ P ("canonical_sha256", canonical_sha256 s).
Proof.
  intros HP. do 8 (apply Forall_cons_1 in HP as [? HP]; split; [done|]). by apply Forall_cons_1 in HP as [? _].
Qed.

(** The phase that is read. *)
Lemma phase_read (p : option string) :
  p ≠ Some "" → (if decide (default "" p = "") then None else Some (default "" p)) = p.
Proof. intros Hp. destruct p as [p|]; cbn [from_option id]; case_decide; congruence. Qed.

Lemma snapshot_eta s :
  {| sn_tenant_id := s.(sn_tenant_id); sn_run_id := s.(sn_run_id);
     sn_stream_version := s.(sn_stream_version); sn_execution_status := s.(sn_execution_status);
     sn_phase := s.(sn_phase); sn_last_event_seq := s.(sn_last_event_seq);
     sn_updated_at := s.(sn_updated_at) |} = s.
Proof. by destruct s. Qed.

(** The texts of a hash, whatever they are, parse to the snapshot they print. *)
Lemma parse_texts fields s status version seq schema phase updated :
  dom fields = PROJECTION_FIELDS →
  field fields "schema_version" = schema → schema = int_str SHADOW_PROJECTION_SCHEMA_VERSION →
  field fields "tenant_id" = s.(sn_tenant_id) → field fields "run_id" = s.(sn_run_id) →
  field fields "stream_version" = version → canonical_decimal version = Some s.(sn_stream_version) →
  field fields "last_event_seq" = seq → canonical_decimal seq = Some s.(sn_last_event_seq) →
  s.(sn_stream_version) = s.(sn_last_event_seq) →
  field fields "execution_status" = status →
  of_value (A := ExecutionStatus.t) status = Some s.(sn_execution_status) →
  field fields "phase" = phase → (if decide (phase = "") then None else Some phase) = s.(sn_phase) →
  field fields "updated_at" = updated →
  parse_utc_timestamp ShadowProjectionProtocolError updated = Ok s.(sn_updated_at) →
  snapshot_valid s = Ok () →
  map (λ kv, (kv.1, field fields kv.1)) (wire_mapping s) = wire_mapping s →
  field fields "canonical_sha256" = canonical_sha256 s →
  parse_snapshot fields s.(sn_tenant_id) s.(sn_run_id) = Ok s.
Proof.
  intros Hdom Hsc Hsc' Ht Hr Hsv Hsv' Hle Hle' Heq Hst Hst' Hph Hph' Hu Hu' Hval Hwire Hsha.
  unfold parse_snapshot. rewrite Hsc, Ht, Hr, Hsv, Hle, Hst, Hph, Hu. do 3 rewrite assert_ok by done.
  rewrite Hsv', Hle'. cbn [mbind result_bind result_of_option]. rewrite assert_ok by done.
  rewrite Hst'. cbn [mbind result_bind result_of_option]. rewrite Hu', Hph'. cbn [mbind result_bind].
  rewrite snapshot_eta. unfold ShadowProjectionSnapshot_init. rewrite Hval.
  cbn [mbind result_bind mret result_ret]. by rewrite assert_ok, assert_ok.
Qed.

Lemma wire_read fields s :
  Forall (λ kv, field fields kv.1 = kv.2) (wire_mapping s) →
  map (λ kv, (kv.1, field fields kv.1)) (wire_mapping s) = wire_mapping s.
Proof. induction 1 as [|[f v] l Hf _ IH]; [done|]. cbn [map fst] in *. by rewrite IH, Hf. Qed.

Lemma parse_entries fields s :
  snapshot_ok s → dom fields = PROJECTION_FIELDS →
  Forall (λ kv, field fields kv.1 = kv.2) (stored_fields s) →
  parse_snapshot fields s.(sn_tenant_id) s.(sn_run_id) = Ok s.
Proof.
  intros Hok Hdom Hall. pose proof (snapshot_ok_inv s Hok) as (Hv & Hseq & Hphase & Hd & _ & _).
  assert (map (λ kv, (kv.1, field fields kv.1)) (wire_mapping s) = wire_mapping s) as Hwire
    by (apply wire_read; apply Forall_app in Hall; tauto).
  apply stored_entries in Hall as (Hst & Hle & Hph & Hr & Hsc & Hsv & Ht & Hu & Hsha).
  eapply parse_texts; [exact Hdom|exact Hsc|done|exact Ht|exact Hr|exact Hsv| |exact Hle| |done|exact Hst|
    |exact Hph| |exact Hu| |apply Hok|exact Hwire|exact Hsha].
  - by apply canonical_decimal_int.
  - apply canonical_decimal_int. lia.
  - by apply (of_value_value (A := ExecutionStatus.t)).
  - by apply phase_read.
  - by apply parse_timestamp_us.
Qed.

Lemma parse_stored s :
  snapshot_ok s → parse_snapshot (snapshot_hash s) s.(sn_tenant_id) s.(sn_run_id) = Ok s.
Proof.
  intros Hok. apply parse_entries; [done|apply snapshot_hash_dom|].
  apply Forall_forall. intros [f v] Hin. by apply field_snapshot.
Qed.

Lemma snapshot_hash_pairs s : map_to_list (snapshot_hash s) ≡ₚ stored_fields s.
Proof. apply map_to_list_to_map, stored_fields_NoDup. Qed.

Lemma mapping_of_bulk l : mapping_of (flat_map (λ p : string * string, [RBulk p.1; RBulk p.2]) l) = Some l.
Proof. induction l as [|[f v] l IH]; cbn; [done|]. by rewrite IH. Qed.

(** Everything that is stored is encoded text. *)
Lemma stored_fields_text s :
  snapshot_ok s → Forall (λ kv, utf8_valid kv.1 = true ∧ utf8_valid kv.2 = true) (stored_fields s).
Proof.
  intros Hok. pose proof (snapshot_ok_inv s Hok) as (Hv & Hseq & _ & _ & _ & _).
  destruct Hok as (_ & _ & Htext). rewrite !Forall_cons in Htext. destruct Htext as (Ht & Hr & Hp & _).
  assert (∀ n, 0 ≤ n → utf8_valid (int_str n) = true) as Hn by (intros; by apply ascii_utf8, int_str_ascii).
  unfold stored_fields, wire_mapping, canonical_mapping. cbn [map app fst snd from_option id].
  repeat apply Forall_cons_2; try apply Forall_nil_2; (split; [done|]); cbn [snd]; try apply Hn; try done; try lia.
  - by destruct (sn_execution_status s).
  - apply ascii_utf8, isoformat_ascii. intros us. unfold is_ascii.
    rewrite !all_chars_app. pose proof (pad_ascii 6 us) as Hpad. unfold is_ascii in Hpad. by rewrite Hpad.
  - apply ascii_utf8, hex_ascii, sha256_hex.
Qed.

Lemma decode_stored s :
  snapshot_ok s →
  decode_hash (RArray (flat_map (λ p, [RBulk p.1; RBulk p.2]) (map_to_list (snapshot_hash s))))
  = Ok (snapshot_hash s).
Proof.
  intros Hok. unfold decode_hash. rewrite mapping_of_bulk, assert_ok.
  - by rewrite list_to_map_to_list.
  - rewrite snapshot_hash_pairs. by apply stored_fields_text.
Qed.

Lemma read_projection_spec surroundings d t r srv o :
  ENVIRONMENT_RE environment = true → shadow_identity t = Ok () → shadow_identity r = Ok () →
  holds (surroundings srv) t r o →
  read_projection environment surroundings d t r srv
  = (match d with Answered => Ok o | _ => Err ShadowProjectionUnavailableError end, surroundings srv).
Proof.
  intros Henv Ht Hr [Hval Hm].
  unfold read_projection, from_result, mbind, eff_bind, attempt, eval, script_reply.
  rewrite projection_key_eq by done.
  assert (hash_of (value_at (surroundings srv) (key_text environment t r))
          = Some (from_option snapshot_hash ∅ o)) as Hh by (rewrite Hval; by destruct o).
  erewrite redis_call_Ok; [|by apply hgetall_law|done]. cbn [fst snd].
  destruct d; [|done..].
  destruct o as [s|]; cbn [from_option].
  - destruct (Hm s eq_refl) as (Hok & <- & <-). rewrite decode_stored by done. cbn [mbind result_bind].
    rewrite decide_False; [by rewrite parse_stored|]. intros He.
    pose proof (snapshot_hash_version s) as Hl. rewrite He, lookup_empty in Hl. done.
  - rewrite map_to_list_empty. cbn. done.
Qed.

(** C21. The sink and the reader implement a map from runs to their newest snapshots. Before an
    operation the server may forget runs. A read then answers what is kept, or a miss, and
    changes nothing. A write stores its snapshot if and only if nothing as new is kept, and
    answers which: applied, stale, a duplicate, or a conflict of two snapshots of one version.
    If the request is lost nothing is stored, if its answer is lost the effect is the same, and
    both are reported as unavailable. So no order, repetition or loss of deliveries takes a
    run back to an older version. *)
Theorem shadow_is_a_versioned_register surroundings d srv m :
  ENVIRONMENT_RE environment = true → represents srv m → loses srv (surroundings srv) →
  ∃ kept, kept ⊆ m ∧ represents (surroundings srv) kept
  ∧ (∀ t r, shadow_identity t = Ok () → shadow_identity r = Ok () →
       read_projection environment surroundings d t r srv
       = (match d with Answered => Ok (kept !! (t, r)) | _ => Err ShadowProjectionUnavailableError end,
          surroundings srv))
  ∧ (∀ s ttl, snapshot_ok s → 0 < ttl →
       let '(status, stored, newest) := register_write (kept !! run_key s) s in
       ∃ srv', represents srv' (match d with RequestLost => kept | _ => <[run_key s := newest]> kept end)
         ∧ write_projection environment surroundings d s ttl srv
           = (match d with
              | Answered => Ok {| pw_status := status; incoming_version := s.(sn_stream_version);
                                  stored_version := stored |}
              | _ => Err ShadowProjectionUnavailableError
              end, srv')).
Proof.
  intros Henv Hrep Hlose. destruct (represents_loses _ _ _ Hrep Hlose) as (kept & Hsub & Hkept).
  exists kept. split_and!; [done|done| |].
  - intros t r Ht Hr. apply read_projection_spec; [done..|by apply Hkept].
  - intros s ttl Hok Httl.
    pose proof (snapshot_ok_inv s Hok) as (_ & _ & _ & _ & Ht & Hr).
    pose proof (write_projection_spec surroundings d s ttl srv _ Henv Hok Httl (Hkept _ _ Ht Hr)) as Hwrite.
    fold (run_key s) in Hwrite.
    pose proof (represents_effect (surroundings srv) kept s ttl) as Hafter.
    destruct (register_write (kept !! run_key s) s) as [[status stored] newest] eqn:Hw.
    destruct Hwrite as (srv' & Heff & ->). specialize (Hafter srv' Hkept Hok Heff). rewrite Hw in Hafter.
    destruct d; (eexists; split; [|reflexivity]); first [exact Hafter|exact Hkept].
Qed.
End register.
