(* ===== verification/ShadowConfig.v ===== *)
(** * ShadowConfig: what the Redis layer may serve

    production/shadow_config.py: retention, the Phase 2 flags (shadow writes only), the
    evidence records of Phase 3 with their thresholds, the Phase 3 flags and the whole
    configuration. [features_valid_iff] says exactly which flags are accepted: a capability
    that serves anything from Redis needs its own qualifying evidence, the writes that feed
    it and every PostgreSQL fallback. The checks of Python types hold of every value here. *)

From S2P Require Import Prelude Text Domain Platform Json Datetime Rollout ShadowProjection.

#[local] Open Scope Z_scope.

(** [_positive_seconds] and [_positive_bounded_int]. *)
Definition positive_seconds (n : Z) : res unit := assert_result (0 < n) ValueError.
Definition positive_bounded_int (n maximum : Z) : res unit := assert_result (1 ≤ n ≤ maximum) ValueError.

(** ** Retention *)

Record ShadowProjectionTtlConfig := {
  active_seconds : Z;
  terminal_seconds : Z;
}.

Definition ShadowProjectionTtlConfig_default : ShadowProjectionTtlConfig :=
  {| active_seconds := 3600; terminal_seconds := 86400 |}.

(** [ShadowProjectionTtlConfig.__post_init__]. *)
Definition ttl_config_valid (c : ShadowProjectionTtlConfig) : res unit :=
  positive_seconds c.(active_seconds);;
  positive_seconds c.(terminal_seconds);;
  assert_result (¬ c.(terminal_seconds) < c.(active_seconds)) ValueError.

(** [for_snapshot(snapshot)]. *)
Definition for_snapshot (c : ShadowProjectionTtlConfig) (s : ShadowProjectionSnapshot) : Z :=
  if is_terminal s then c.(terminal_seconds) else c.(active_seconds).

(** ** Phase 2 *)

Record Phase2RedisFeatureFlags := {
  p2_redis_cache_write : bool;
  p2_redis_cache_read : bool;
  p2_redis_fanout : bool;
  p2_redis_queue_publish : bool;
  p2_redis_queue_consume : bool;
  p2_postgres_queue_fallback : bool;
}.

Definition Phase2RedisFeatureFlags_default : Phase2RedisFeatureFlags := {|
  p2_redis_cache_write := false; p2_redis_cache_read := false; p2_redis_fanout := false;
  p2_redis_queue_publish := false; p2_redis_queue_consume := false; p2_postgres_queue_fallback := true |}.

(** [Phase2RedisFeatureFlags.__post_init__]. *)
Definition phase2_valid (f : Phase2RedisFeatureFlags) : res unit :=
  assert_result (forallb negb [f.(p2_redis_cache_read); f.(p2_redis_fanout); f.(p2_redis_queue_publish);
                               f.(p2_redis_queue_consume)] = true) ValueError;;
  assert_result (f.(p2_postgres_queue_fallback) = true) ValueError.

(** [Phase2RedisFeatureFlags.shadow_writes()]. *)
Definition shadow_writes : res Phase2RedisFeatureFlags :=
  let f := {| p2_redis_cache_write := true; p2_redis_cache_read := false; p2_redis_fanout := false;
              p2_redis_queue_publish := false; p2_redis_queue_consume := false;
              p2_postgres_queue_fallback := true |} in
  phase2_valid f;; mret f.

(** ** Evidence *)

Record RedisReadAdmissionEvidence := {
  re_load_multiplier : float;
  re_sql_query_p95_ms : float;
  re_database_cpu_percent : float;
  re_hot_read_write_ratio : float;
  re_expected_cache_hit_percent : float;
}.

(** [RedisReadAdmissionEvidence.__post_init__]. *)
Definition read_evidence_valid (e : RedisReadAdmissionEvidence) : res unit :=
  finite_non_negative e.(re_load_multiplier);;
  finite_non_negative e.(re_sql_query_p95_ms);;
  finite_percent e.(re_database_cpu_percent);;
  finite_non_negative e.(re_hot_read_write_ratio);;
  finite_percent e.(re_expected_cache_hit_percent);;
  assert_result (feq e.(re_load_multiplier) (f64 0) = false) ValueError.

(** [RedisReadAdmissionEvidence.qualifies]. *)
Definition read_qualifies (e : RedisReadAdmissionEvidence) : bool :=
  let database_pressure :=
    fgt e.(re_sql_query_p95_ms) (f64 20) || fgt e.(re_database_cpu_percent) (f64 65) in
  fge e.(re_load_multiplier) (f64 2) && database_pressure && fge e.(re_hot_read_write_ratio) (f64 10)
  && fge e.(re_expected_cache_hit_percent) (f64 80).

Record RedisFanoutAdmissionEvidence := {
  sql_gap_fill_tested : bool;
  redis_disconnect_tested : bool;
  duplicate_hint_tested : bool;
  fe_canary_percent : float;
}.

(** The canary scope of an evidence record. *)
Definition canary_scope (percent : float) : res unit :=
  finite_percent percent;; assert_result (feq percent (f64 0) = false) ValueError.

(** [RedisFanoutAdmissionEvidence.__post_init__] and [qualifies]. *)
Definition fanout_evidence_valid (e : RedisFanoutAdmissionEvidence) : res unit :=
  canary_scope e.(fe_canary_percent).
Definition fanout_qualifies (e : RedisFanoutAdmissionEvidence) : bool :=
  e.(sql_gap_fill_tested) && e.(redis_disconnect_tested) && e.(duplicate_hint_tested).

Record RedisActiveIndexAdmissionEvidence := {
  ie_redis_flush_rebuild_tested : bool;
  out_of_order_tested : bool;
  duplicate_tested : bool;
  terminal_removal_tested : bool;
  redis_disconnect_fallback_tested : bool;
  pagination_fallback_tested : bool;
  ie_canary_percent : float;
}.

(** [RedisActiveIndexAdmissionEvidence.__post_init__] and [qualifies]. *)
Definition index_evidence_valid (e : RedisActiveIndexAdmissionEvidence) : res unit :=
  canary_scope e.(ie_canary_percent).
Definition index_qualifies (e : RedisActiveIndexAdmissionEvidence) : bool :=
  e.(ie_redis_flush_rebuild_tested) && e.(out_of_order_tested) && e.(duplicate_tested)
  && e.(terminal_removal_tested) && e.(redis_disconnect_fallback_tested)
  && e.(pagination_fallback_tested).

Record RedisPromptCacheAdmissionEvidence := {
  pe_performance : RedisReadAdmissionEvidence;
  aead_encryption_tested : bool;
  key_provider_configured : bool;
  redis_tls_tested : bool;
  redis_acl_tested : bool;
  pe_redis_flush_rebuild_tested : bool;
  redis_eviction_fallback_tested : bool;
  ciphertext_tamper_rejection_tested : bool;
  pe_cross_tenant_isolation_tested : bool;
  kms_outage_fallback_tested : bool;
  semantic_shadow_compare_tested : bool;
  pe_canary_percent : float;
}.

(** [RedisPromptCacheAdmissionEvidence.__post_init__]: the first five fields are those of the
    read evidence, with the same checks. *)
Definition prompt_evidence_valid (e : RedisPromptCacheAdmissionEvidence) : res unit :=
  read_evidence_valid e.(pe_performance);;
  canary_scope e.(pe_canary_percent).

(** The safety drills of [qualifies]. *)
Definition prompt_drills (e : RedisPromptCacheAdmissionEvidence) : list bool :=
  [e.(aead_encryption_tested); e.(key_provider_configured); e.(redis_tls_tested); e.(redis_acl_tested);
   e.(pe_redis_flush_rebuild_tested); e.(redis_eviction_fallback_tested);
   e.(ciphertext_tamper_rejection_tested); e.(pe_cross_tenant_isolation_tested);
   e.(kms_outage_fallback_tested); e.(semantic_shadow_compare_tested)].

(** [RedisPromptCacheAdmissionEvidence.qualifies]. *)
Definition prompt_qualifies (e : RedisPromptCacheAdmissionEvidence) : bool :=
  read_qualifies e.(pe_performance) && forallb id (prompt_drills e).

(** ** Prompt working sets *)

Record PromptWorkingSetConfig := {
  pw_ttl_seconds : Z;
  pw_max_plaintext_bytes : Z;
  pw_event_limit : Z;
  pw_transcript_limit : Z;
}.

Definition PromptWorkingSetConfig_default : PromptWorkingSetConfig := {|
  pw_ttl_seconds := 900; pw_max_plaintext_bytes := 262144; pw_event_limit := 64; pw_transcript_limit := 12 |}.

(** [PromptWorkingSetConfig.__post_init__]. *)
Definition prompt_config_valid (c : PromptWorkingSetConfig) : res unit :=
  positive_bounded_int c.(pw_ttl_seconds) 3600;;
  positive_bounded_int c.(pw_max_plaintext_bytes) 262144;;
  positive_bounded_int c.(pw_event_limit) 10000;;
  positive_bounded_int c.(pw_transcript_limit) 10000;;
  assert_result (¬ c.(pw_transcript_limit) > c.(pw_event_limit)) ValueError;;
  assert_result (c.(pw_event_limit) = 64) ValueError;;
  assert_result (c.(pw_transcript_limit) = 12) ValueError.

(** ** Phase 3 *)

Record Phase3RedisFeatureFlags := {
  p3_redis_cache_write : bool;
  p3_redis_cache_read : bool;
  p3_redis_fanout : bool;
  p3_redis_active_index_write : bool;
  p3_redis_active_index_read : bool;
  p3_redis_queue_publish : bool;
  p3_redis_queue_consume : bool;
  p3_postgres_read_fallback : bool;
  p3_postgres_queue_fallback : bool;
  read_admission_evidence : option RedisReadAdmissionEvidence;
  fanout_admission_evidence : option RedisFanoutAdmissionEvidence;
  active_index_admission_evidence : option RedisActiveIndexAdmissionEvidence;
  redis_prompt_cache_write : bool;
  redis_prompt_cache_read : bool;
  redis_prompt_cache_shadow_compare : bool;
  postgres_prompt_fallback : bool;
  blob_store_prompt_fallback : bool;
  prompt_cache_rollout_percent : float;
  prompt_cache_admission_evidence : option RedisPromptCacheAdmissionEvidence;
}.
#[global] Instance Phase3RedisFeatureFlags_eta : Eta Phase3RedisFeatureFlags := λ r,
  Build_Phase3RedisFeatureFlags r.(p3_redis_cache_write) r.(p3_redis_cache_read) r.(p3_redis_fanout)
    r.(p3_redis_active_index_write) r.(p3_redis_active_index_read) r.(p3_redis_queue_publish)
    r.(p3_redis_queue_consume) r.(p3_postgres_read_fallback) r.(p3_postgres_queue_fallback)
    r.(read_admission_evidence) r.(fanout_admission_evidence) r.(active_index_admission_evidence)
    r.(redis_prompt_cache_write) r.(redis_prompt_cache_read) r.(redis_prompt_cache_shadow_compare)
    r.(postgres_prompt_fallback) r.(blob_store_prompt_fallback) r.(prompt_cache_rollout_percent)
    r.(prompt_cache_admission_evidence).

Definition Phase3RedisFeatureFlags_default : Phase3RedisFeatureFlags := {|
  p3_redis_cache_write := false; p3_redis_cache_read := false; p3_redis_fanout := false;
  p3_redis_active_index_write := false; p3_redis_active_index_read := false;
  p3_redis_queue_publish := false; p3_redis_queue_consume := false;
  p3_postgres_read_fallback := true; p3_postgres_queue_fallback := true;
  read_admission_evidence := None; fanout_admission_evidence := None;
  active_index_admission_evidence := None;
  redis_prompt_cache_write := false; redis_prompt_cache_read := false;
  redis_prompt_cache_shadow_compare := false; postgres_prompt_fallback := true;
  blob_store_prompt_fallback := true; prompt_cache_rollout_percent := f64 0;
  prompt_cache_admission_evidence := None |}.

(** An admission gate: evidence is there and qualifies. *)
Definition admitted {E} (qualifies : E → bool) (evidence : option E) : res unit :=
  match evidence with
  | None => Err ValueError
  | Some e => assert_result (qualifies e = true) ValueError
  end.

(** [if enabled: check]. *)
Definition guard_feature (enabled : bool) (check : res unit) : res unit := if enabled then check else mret ().

(** The rollout of prompt-cache reads. *)
Definition prompt_rollout_valid (f : Phase3RedisFeatureFlags) : res unit :=
  if f.(redis_prompt_cache_read) then
    assert_result (f.(redis_prompt_cache_write) = true) ValueError;;
    assert_result (f.(redis_prompt_cache_shadow_compare) = true) ValueError;;
    assert_result (f.(postgres_prompt_fallback) = true ∧ f.(blob_store_prompt_fallback) = true) ValueError;;
    match f.(prompt_cache_admission_evidence) with
    | None => Err ValueError
    | Some e =>
        assert_result (prompt_qualifies e = true) ValueError;;
        finite_percent f.(prompt_cache_rollout_percent);;
        assert_result (feq f.(prompt_cache_rollout_percent) (f64 0) = false) ValueError;;
        assert_result (fgt f.(prompt_cache_rollout_percent) e.(pe_canary_percent) = false) ValueError
    end
  else assert_result (feq f.(prompt_cache_rollout_percent) (f64 0) = true) ValueError.

(** [Phase3RedisFeatureFlags.__post_init__]. *)
Definition phase3_valid (f : Phase3RedisFeatureFlags) : res unit :=
  assert_result (forallb negb [f.(p3_redis_queue_publish); f.(p3_redis_queue_consume)] = true) ValueError;;
  assert_result (f.(p3_postgres_read_fallback) = true ∧ f.(p3_postgres_queue_fallback) = true) ValueError;;
  assert_result (¬ (f.(p3_redis_active_index_write) = true ∧ f.(p3_redis_cache_write) = false)) ValueError;;
  guard_feature f.(p3_redis_fanout)
    (assert_result (f.(p3_redis_cache_write) = true ∧ f.(p3_redis_cache_read) = true) ValueError;;
     admitted fanout_qualifies f.(fanout_admission_evidence));;
  guard_feature f.(p3_redis_cache_read)
    (assert_result (f.(p3_redis_cache_write) = true) ValueError;;
     admitted read_qualifies f.(read_admission_evidence));;
  guard_feature f.(p3_redis_active_index_read)
    (assert_result (f.(p3_redis_active_index_write) = true) ValueError;;
     admitted read_qualifies f.(read_admission_evidence);;
     admitted index_qualifies f.(active_index_admission_evidence));;
  guard_feature f.(redis_prompt_cache_shadow_compare)
    (assert_result (f.(redis_prompt_cache_write) = true) ValueError;;
     assert_result (f.(postgres_prompt_fallback) = true ∧ f.(blob_store_prompt_fallback) = true) ValueError);;
  prompt_rollout_valid f.

(** The constructors of flag sets. *)
Definition Phase3RedisFeatureFlags_init (f : Phase3RedisFeatureFlags) : res Phase3RedisFeatureFlags :=
  phase3_valid f;; mret f.

Definition ui_status_reads (e : RedisReadAdmissionEvidence) : res Phase3RedisFeatureFlags :=
  Phase3RedisFeatureFlags_init (Phase3RedisFeatureFlags_default
    <| p3_redis_cache_write := true |> <| p3_redis_cache_read := true |>
    <| read_admission_evidence := Some e |>).

Definition ui_status_with_fanout (e : RedisReadAdmissionEvidence) (fanout : RedisFanoutAdmissionEvidence)
    : res Phase3RedisFeatureFlags :=
  Phase3RedisFeatureFlags_init (Phase3RedisFeatureFlags_default
    <| p3_redis_cache_write := true |> <| p3_redis_cache_read := true |> <| p3_redis_fanout := true |>
    <| read_admission_evidence := Some e |> <| fanout_admission_evidence := Some fanout |>).

Definition active_run_index_reads (e : RedisReadAdmissionEvidence) (index : RedisActiveIndexAdmissionEvidence)
    : res Phase3RedisFeatureFlags :=
  Phase3RedisFeatureFlags_init (Phase3RedisFeatureFlags_default
    <| p3_redis_cache_write := true |> <| p3_redis_active_index_write := true |>
    <| p3_redis_active_index_read := true |> <| read_admission_evidence := Some e |>
    <| active_index_admission_evidence := Some index |>).

Definition active_run_index_shadow_writes : res Phase3RedisFeatureFlags :=
  Phase3RedisFeatureFlags_init (Phase3RedisFeatureFlags_default
    <| p3_redis_cache_write := true |> <| p3_redis_active_index_write := true |>).

Definition prompt_cache_shadow_writes : res Phase3RedisFeatureFlags :=
  Phase3RedisFeatureFlags_init (Phase3RedisFeatureFlags_default
    <| redis_prompt_cache_write := true |> <| redis_prompt_cache_shadow_compare := true |>).

Definition prompt_cache_gated_reads (e : RedisPromptCacheAdmissionEvidence) : res Phase3RedisFeatureFlags :=
  Phase3RedisFeatureFlags_init (Phase3RedisFeatureFlags_default
    <| redis_prompt_cache_write := true |> <| redis_prompt_cache_read := true |>
    <| redis_prompt_cache_shadow_compare := true |>
    <| prompt_cache_rollout_percent := e.(pe_canary_percent) |>
    <| prompt_cache_admission_evidence := Some e |>).

(** ** The configuration *)

Inductive RedisFeatureFlags :=
| Phase2 (f : Phase2RedisFeatureFlags)
| Phase3 (f : Phase3RedisFeatureFlags).

Definition features_valid (f : RedisFeatureFlags) : res unit :=
  match f with Phase2 f => phase2_valid f | Phase3 f => phase3_valid f end.

Definition redis_cache_write (f : RedisFeatureFlags) : bool :=
  match f with Phase2 f => f.(p2_redis_cache_write) | Phase3 f => f.(p3_redis_cache_write) end.
Definition redis_cache_read (f : RedisFeatureFlags) : bool :=
  match f with Phase2 f => f.(p2_redis_cache_read) | Phase3 f => f.(p3_redis_cache_read) end.
Definition redis_fanout (f : RedisFeatureFlags) : bool :=
  match f with Phase2 f => f.(p2_redis_fanout) | Phase3 f => f.(p3_redis_fanout) end.

(** [getattr(features, name, False)] of a flag that only Phase 3 has. *)
Definition redis_active_index_write (f : RedisFeatureFlags) : bool :=
  match f with Phase2 _ => false | Phase3 f => f.(p3_redis_active_index_write) end.
Definition redis_active_index_read (f : RedisFeatureFlags) : bool :=
  match f with Phase2 _ => false | Phase3 f => f.(p3_redis_active_index_read) end.

Record ShadowProjectionConfig := {
  sc_environment : string;
  sc_ttl : ShadowProjectionTtlConfig;
  sc_features : RedisFeatureFlags;
  sc_prompt_working_set : PromptWorkingSetConfig;
}.

(** [ShadowProjectionConfig.__post_init__]. *)
Definition shadow_config_valid (c : ShadowProjectionConfig) : res unit :=
  projection_key c.(sc_environment) "validation" "validation";; mret ().

(** What a frozen configuration satisfies. *)
Definition shadow_config_ok (c : ShadowProjectionConfig) : Prop :=
  shadow_config_valid c = Ok () ∧ ttl_config_valid c.(sc_ttl) = Ok ()
  ∧ features_valid c.(sc_features) = Ok () ∧ prompt_config_valid c.(sc_prompt_working_set) = Ok ().

(** ** Which flags are accepted *)

Lemma guard_feature_Ok enabled check : guard_feature enabled check = Ok () ↔ (enabled = true → check = Ok ()).
Proof. destruct enabled; simpl; naive_solver. Qed.

Lemma bind_unit_Ok {E} (m k : result E unit) : (m;; k) = Ok () ↔ m = Ok () ∧ k = Ok ().
Proof. destruct m as [[]|]; simpl; naive_solver. Qed.

Lemma assert_unit_Ok {E} (P : Prop) `{Decision P} (e : E) : assert_result P e = Ok () ↔ P.
Proof. by rewrite assert_result_Ok. Qed.

Lemma admitted_Ok {E} (qualifies : E → bool) evidence :
  admitted qualifies evidence = Ok () ↔ ∃ e, evidence = Some e ∧ qualifies e = true.
Proof.
  destruct evidence as [e|]; simpl; [|naive_solver]. rewrite assert_unit_Ok. naive_solver.
Qed.

(** Every capability that serves from Redis, with what it rests on. *)
Record phase3_spec (f : Phase3RedisFeatureFlags) : Prop := {
  no_queue : f.(p3_redis_queue_publish) = false ∧ f.(p3_redis_queue_consume) = false;
  sql_fallbacks : f.(p3_postgres_read_fallback) = true ∧ f.(p3_postgres_queue_fallback) = true;
  index_write_fed : f.(p3_redis_active_index_write) = true → f.(p3_redis_cache_write) = true;
  cache_read_spec : f.(p3_redis_cache_read) = true → f.(p3_redis_cache_write) = true
    ∧ ∃ e, f.(read_admission_evidence) = Some e ∧ read_qualifies e = true;
  fanout_spec : f.(p3_redis_fanout) = true → f.(p3_redis_cache_read) = true
    ∧ ∃ e, f.(fanout_admission_evidence) = Some e ∧ fanout_qualifies e = true;
  index_read_spec : f.(p3_redis_active_index_read) = true → f.(p3_redis_active_index_write) = true
    ∧ (∃ e, f.(read_admission_evidence) = Some e ∧ read_qualifies e = true)
    ∧ ∃ e, f.(active_index_admission_evidence) = Some e ∧ index_qualifies e = true;
  compare_spec : f.(redis_prompt_cache_shadow_compare) = true → f.(redis_prompt_cache_write) = true
    ∧ f.(postgres_prompt_fallback) = true ∧ f.(blob_store_prompt_fallback) = true;
  prompt_read_spec : f.(redis_prompt_cache_read) = true → f.(redis_prompt_cache_shadow_compare) = true
    ∧ ∃ e, f.(prompt_cache_admission_evidence) = Some e ∧ prompt_qualifies e = true
           ∧ finite_percent f.(prompt_cache_rollout_percent) = Ok ()
           ∧ feq f.(prompt_cache_rollout_percent) (f64 0) = false
           ∧ fgt f.(prompt_cache_rollout_percent) e.(pe_canary_percent) = false;
  no_prompt_read : f.(redis_prompt_cache_read) = false →
    feq f.(prompt_cache_rollout_percent) (f64 0) = true;
}.

Lemma prompt_rollout_Ok f :
  prompt_rollout_valid f = Ok () ↔
  (f.(redis_prompt_cache_read) = true →
     f.(redis_prompt_cache_write) = true ∧ f.(redis_prompt_cache_shadow_compare) = true
     ∧ (f.(postgres_prompt_fallback) = true ∧ f.(blob_store_prompt_fallback) = true)
     ∧ ∃ e, f.(prompt_cache_admission_evidence) = Some e ∧ prompt_qualifies e = true
            ∧ finite_percent f.(prompt_cache_rollout_percent) = Ok ()
            ∧ feq f.(prompt_cache_rollout_percent) (f64 0) = false
            ∧ fgt f.(prompt_cache_rollout_percent) e.(pe_canary_percent) = false)
  ∧ (f.(redis_prompt_cache_read) = false → feq f.(prompt_cache_rollout_percent) (f64 0) = true).
Proof.
  unfold prompt_rollout_valid. destruct (redis_prompt_cache_read f).
  - rewrite !bind_unit_Ok, !assert_unit_Ok.
    destruct (prompt_cache_admission_evidence f) as [e|].
    + rewrite !bind_unit_Ok, !assert_unit_Ok. split; [|by intros [H _]; destruct (H eq_refl) as (? & ? & ? & ? & [= <-] & ?)].
      intros (? & ? & ? & ?). split; [|done]. intros _. split_and!; [tauto..|]. by exists e.
    + split; [by intros (? & ? & ? & ?)|]. intros [H _]. by destruct (H eq_refl) as (? & ? & ? & ? & ? & ?).
  - rewrite assert_unit_Ok. split; [done|]. by intros [_ H]; apply H.
Qed.

(** Phase 3 flags are accepted exactly if what is served from Redis is evidenced. *)
Lemma phase3_valid_iff f : phase3_valid f = Ok () ↔ phase3_spec f.
Proof.
  unfold phase3_valid. rewrite !bind_unit_Ok, !guard_feature_Ok, !bind_unit_Ok, !assert_unit_Ok,
    !admitted_Ok, prompt_rollout_Ok. cbn [forallb]. rewrite !andb_true_iff, !negb_true_iff. split.
  - intros ((? & ? & _) & ? & Hidx & Hfan & Hread & Hindex & Hcmp & Hprompt & Hno).
    split; [done|done|..|done].
    + intros Hw. by destruct (p3_redis_cache_write f) eqn:Hc; [|destruct Hidx].
    + done.
    + intros Hf. destruct (Hfan Hf) as ([_ ?] & ?). done.
    + done.
    + intros Hc. destruct (Hcmp Hc) as (? & ? & ?). done.
    + intros Hp. destruct (Hprompt Hp) as (? & ? & ? & ?). done.
  - intros [[? ?] [? ?] Hidx Hread Hfan Hindex Hcmp Hprompt Hno]. split_and!; try done.
    + intros [Hw Hc]. rewrite Hidx in Hc; done.
    + intros Hf. destruct (Hfan Hf) as (Hr & ?). destruct (Hread Hr) as (? & ?). done.
    + intros Hp. destruct (Hprompt Hp) as (Hc & ?). destruct (Hcmp Hc) as (? & ? & ?). done.
Qed.
