(* ===== verification/OutboxRelay.v ===== *)
(** * OutboxRelay: from the SQL outbox to the shadow

    production/outbox_relay.py: [run_once] claims a batch of outbox rows, loads the current
    projection of each run from SQL, writes it to the shadow (and to the active index, and
    publishes a hint, where these are enabled) and only then acknowledges the row; [run]
    rebuilds the shadow of a tenant from a keyset scan. Every failure is caught, counted and
    recorded without its message, and the row stays claimable.

    The store, the source, the sinks, the publisher and the policy are the ports of the
    relay; a call of a port changes their common state [W]. A claimed row is a mapping whose
    fields may be missing or of another type ([None]). A relay returns its counters. *)

From S2P Require Import Prelude Text Domain Platform Json Datetime Rollout Effects ShadowProjection RedisShadow ShadowConfig.

#[local] Open Scope Z_scope.

Definition RUN_PROJECTION_DESTINATION : string := "run-projection-v1".

(** [_validate_identity(value, field_name, maximum)]. *)
Definition relay_identity (s : string) (maximum : Z) : res unit :=
  assert_result (s ≠ "" ∧ char_length s ≤ maximum
                 ∧ all_chars (λ a, negb (bool_decide (a = Ascii.zero))) s = true) ValueError.

Record ShadowRelayConfig := {
  rc_tenant_id : string;
  publisher_id : string;
  rc_limit : Z;
  visibility_timeout_seconds : Z;
}.

(** [ShadowRelayConfig.__post_init__]. *)
Definition relay_config_valid (c : ShadowRelayConfig) : res unit :=
  relay_identity c.(rc_tenant_id) 512;;
  relay_identity c.(publisher_id) 128;;
  assert_result (1 ≤ c.(rc_limit) ≤ 100) ValueError;;
  assert_result (5 ≤ c.(visibility_timeout_seconds) ≤ 3600) ValueError.

Record ShadowRelayError := {
  re_stage : string;
  re_error_type : string;
  re_tenant_id : option string;
  re_run_id : option string;
  re_outbox_id : option string;
}.

(** ** Counters *)

Record RelayCounters := {
  claimed : Z; snapshots_loaded : Z; applied : Z; stale : Z; duplicate : Z; conflicts : Z;
  marked_published : Z; missing_projections : Z; malformed_claims : Z; claim_errors : Z;
  source_errors : Z; sink_errors : Z; protocol_errors : Z; active_index_applied : Z;
  active_index_stale : Z; active_index_duplicate : Z; active_index_conflicts : Z;
  active_index_errors : Z; fanout_published : Z; fanout_outside_canary : Z; fanout_errors : Z;
  fanout_subscriber_deliveries : Z; mark_lost : Z; errors : list ShadowRelayError;
}.
#[global] Instance RelayCounters_eta : Eta RelayCounters := λ c,
  Build_RelayCounters c.(claimed) c.(snapshots_loaded) c.(applied) c.(stale) c.(duplicate) c.(conflicts)
    c.(marked_published) c.(missing_projections) c.(malformed_claims) c.(claim_errors)
    c.(source_errors) c.(sink_errors) c.(protocol_errors) c.(active_index_applied)
    c.(active_index_stale) c.(active_index_duplicate) c.(active_index_conflicts)
    c.(active_index_errors) c.(fanout_published) c.(fanout_outside_canary) c.(fanout_errors)
    c.(fanout_subscriber_deliveries) c.(mark_lost) c.(errors).

Definition RelayCounters_default : RelayCounters :=
  Build_RelayCounters 0 0 0 0 0 0 0 0 0 0 0 0 0 0 0 0 0 0 0 0 0 0 0 [].

(** [ShadowRelayResult]: whether the relay is disabled, and its counters. *)
Record ShadowRelayResult := {
  rr_disabled : bool;
  rr_counters : RelayCounters;
}.

Record RebuildCounters := {
  pages : Z; scanned : Z; rb_applied : Z; rb_stale : Z; rb_duplicate : Z; rb_conflicts : Z;
  rb_source_errors : Z; rb_sink_errors : Z; rb_protocol_errors : Z; pagination_errors : Z;
  active_index_reset : Z; active_index_ready : Z; rb_active_index_applied : Z;
  rb_active_index_stale : Z; rb_active_index_duplicate : Z; rb_active_index_conflicts : Z;
  rb_active_index_errors : Z; rb_errors : list ShadowRelayError;
}.
#[global] Instance RebuildCounters_eta : Eta RebuildCounters := λ c,
  Build_RebuildCounters c.(pages) c.(scanned) c.(rb_applied) c.(rb_stale) c.(rb_duplicate) c.(rb_conflicts)
    c.(rb_source_errors) c.(rb_sink_errors) c.(rb_protocol_errors) c.(pagination_errors)
    c.(active_index_reset) c.(active_index_ready) c.(rb_active_index_applied)
    c.(rb_active_index_stale) c.(rb_active_index_duplicate) c.(rb_active_index_conflicts)
    c.(rb_active_index_errors) c.(rb_errors).

Definition RebuildCounters_default : RebuildCounters :=
  Build_RebuildCounters 0 0 0 0 0 0 0 0 0 0 0 0 0 0 0 0 0 [].

Record ShadowRebuildResult := {
  rb_disabled : bool;
  rb_counters : RebuildCounters;
}.

Definition incr (n : Z) : Z := n + 1.

(** [_increment_status] and [_increment_active_index_status], of either kind of counters. *)
Definition increment_status (s : ProjectionWriteStatus.t) (c : RelayCounters) : RelayCounters :=
  match s with
  | ProjectionWriteStatus.APPLIED => c <| applied ::= incr |>
  | ProjectionWriteStatus.STALE => c <| stale ::= incr |>
  | ProjectionWriteStatus.DUPLICATE => c <| duplicate ::= incr |>
  | ProjectionWriteStatus.CONFLICT => c <| conflicts ::= incr |>
  end.

Definition increment_active_index_status (s : ProjectionWriteStatus.t) (c : RelayCounters) : RelayCounters :=
  match s with
  | ProjectionWriteStatus.APPLIED => c <| active_index_applied ::= incr |>
  | ProjectionWriteStatus.STALE => c <| active_index_stale ::= incr |>
  | ProjectionWriteStatus.DUPLICATE => c <| active_index_duplicate ::= incr |>
  | ProjectionWriteStatus.CONFLICT => c <| active_index_conflicts ::= incr |>
  end.

Definition rebuild_status (s : ProjectionWriteStatus.t) (c : RebuildCounters) : RebuildCounters :=
  match s with
  | ProjectionWriteStatus.APPLIED => c <| rb_applied ::= incr |>
  | ProjectionWriteStatus.STALE => c <| rb_stale ::= incr |>
  | ProjectionWriteStatus.DUPLICATE => c <| rb_duplicate ::= incr |>
  | ProjectionWriteStatus.CONFLICT => c <| rb_conflicts ::= incr |>
  end.

Definition rebuild_index_status (s : ProjectionWriteStatus.t) (c : RebuildCounters) : RebuildCounters :=
  match s with
  | ProjectionWriteStatus.APPLIED => c <| rb_active_index_applied ::= incr |>
  | ProjectionWriteStatus.STALE => c <| rb_active_index_stale ::= incr |>
  | ProjectionWriteStatus.DUPLICATE => c <| rb_active_index_duplicate ::= incr |>
  | ProjectionWriteStatus.CONFLICT => c <| rb_active_index_conflicts ::= incr |>
  end.

(** ** Ports *)

(** A claimed outbox row, as the mapping that the store returns. *)
Record ClaimedRow := {
  cr_tenant_id : option string;
  cr_run_id : option string;
  cr_outbox_id : option string;
  cr_stream_version : option Z;
  cr_destination : option string;
  cr_claimed_by : option string;
}.

(** What a claimed row is about. *)
Record Claim := {
  cl_tenant_id : string;
  cl_run_id : string;
  cl_outbox_id : string;
  cl_version : Z;
}.

Definition field_identity (v : option string) (maximum : Z) : res string :=
  s ← result_of_option ValueError v; relay_identity s maximum;; mret s.

(** [_claimed_identity(row, tenant_id, publisher_id)]. *)
Definition claimed_identity (row : ClaimedRow) (tenant_id publisher_id : string) : res Claim :=
  row_tenant_id ← field_identity row.(cr_tenant_id) 512;
  run_id ← field_identity row.(cr_run_id) 512;
  outbox_id ← field_identity row.(cr_outbox_id) 512;
  stream_version ← result_of_option ValueError row.(cr_stream_version);
  assert_result (0 ≤ stream_version) ValueError;;
  assert_result (row_tenant_id = tenant_id) ValueError;;
  assert_result (row.(cr_destination) = Some RUN_PROJECTION_DESTINATION) ValueError;;
  assert_result (row.(cr_claimed_by) = Some publisher_id) ValueError;;
  mret {| cl_tenant_id := row_tenant_id; cl_run_id := run_id; cl_outbox_id := outbox_id;
          cl_version := stream_version |}.

Section relay.
Context {W : Type}.

(** [ActiveRunIndexSink]. *)
Record ActiveRunIndexSink := {
  write_snapshot : ShadowProjectionSnapshot → Z → pyeff W ProjectionWriteResult;
  reset_index : string → pyeff W unit;
  mark_ready : string → pyeff W unit;
}.

(** [ShadowOutboxStore], [ShadowProjectionSource], [ShadowProjectionSink] and the optional
    collaborators of the constructor. *)
Record RelayPorts := {
  claim_outbox : (* tenant, publisher, destination, limit, timeout *)
    string → string → string → Z → Z → pyeff W (list ClaimedRow);
  mark_outbox_published : (* tenant, outbox id, publisher *) string → string → string → pyeff W bool;
  load_projection : string → string → pyeff W (option ShadowProjectionSnapshot);
  scan_projections : option (string * string) → Z → pyeff W (list ShadowProjectionSnapshot);
  sink : ShadowProjectionSnapshot → Z → pyeff W ProjectionWriteResult;
  active_index_sink : option ActiveRunIndexSink;
  (** [publisher.publish(snapshot).subscriber_count] *)
  fanout_publisher : option (ShadowProjectionSnapshot → pyeff W Z);
  (** [policy.allows(RedisCapability.FANOUT, tenant_id)] *)
  relay_policy : option (RedisCapability.t → string → pyeff W bool);
}.

Context (ports : RelayPorts) (projection_config : ShadowProjectionConfig).

(** [_validate_write_result(result, snapshot)]. *)
Definition validate_write_result (r : ProjectionWriteResult) (s : ShadowProjectionSnapshot)
    : res ProjectionWriteResult :=
  assert_result (r.(incoming_version) = s.(sn_stream_version)) RelayProtocolError;;
  assert_result (consistent r.(pw_status) r.(incoming_version) r.(stored_version)) RelayProtocolError;;
  mret r.

(** [_write_projection]. *)
Definition relay_write_projection (s : ShadowProjectionSnapshot) : pyeff W ProjectionWriteResult :=
  result ← ports.(sink) s (for_snapshot projection_config.(sc_ttl) s);
  from_result (validate_write_result result s).

(** [_write_active_index]. *)
Definition write_active_index (index : ActiveRunIndexSink) (s : ShadowProjectionSnapshot)
    : pyeff W ProjectionWriteResult :=
  result ← index.(write_snapshot) s projection_config.(sc_ttl).(terminal_seconds);
  from_result (validate_write_result result s).

Definition is_relay_protocol (e : exn) : bool :=
  bool_decide (e = RelayProtocolError ∨ e = ProjectionSourceConsistencyError).

(** ** One row *)

(** The statements of the loop's body: [Err ()] is [continue]. *)
Abbreviation row := (eff unit (RelayCounters * W)).

Definition count (f : RelayCounters → RelayCounters) : row unit := λ cw, (Ok (), (f cw.1, cw.2)).

(** [try: m except Exception as exc: <record exc>; continue]. *)
Definition try_or {A} (m : pyeff W A) (handler : exn → RelayCounters → RelayCounters) : row A := λ cw,
  match m cw.2 with
  | (Ok a, w') => (Ok a, (cw.1, w'))
  | (Err e, w') => (Err (), (handler e cw.1, w'))
  end.

(** [counters.errors.append(_diagnostic(stage, error_type, ...)); continue]. *)
Definition diagnostic (stage error_type : string) (claim : Claim) (c : RelayCounters) : RelayCounters :=
  c <| errors ::= λ l, l ++ [{| re_stage := stage; re_error_type := error_type;
                                re_tenant_id := Some claim.(cl_tenant_id);
                                re_run_id := Some claim.(cl_run_id);
                                re_outbox_id := Some claim.(cl_outbox_id) |}] |>.

Definition give_up_row {A} (f : RelayCounters → RelayCounters) : row A := count f;; fail ().

(** The projection of the claimed run, at least as new as the claim. *)
Definition load_claimed (claim : Claim) : row ShadowProjectionSnapshot :=
  loaded ← try_or
    (o ← ports.(load_projection) claim.(cl_tenant_id) claim.(cl_run_id);
     match o with
     | None => mret None
     | Some s =>
         from_result (
           assert_result (s.(sn_tenant_id) = claim.(cl_tenant_id) ∧ s.(sn_run_id) = claim.(cl_run_id))
             RelayProtocolError;;
           assert_result (claim.(cl_version) ≤ s.(sn_stream_version)) ProjectionSourceConsistencyError;;
           mret (Some s))
     end)
    (λ e c,
       if decide (e = ProjectionSourceConsistencyError)
       then diagnostic "source_consistency" (exn_name e) claim (c <| protocol_errors ::= incr |>)
       else if decide (e = RelayProtocolError)
       then diagnostic "source_protocol" (exn_name e) claim (c <| protocol_errors ::= incr |>)
       else diagnostic "source" (exn_name e) claim (c <| source_errors ::= incr |>));
  match loaded with
  | None => give_up_row (λ c, diagnostic "source" "ProjectionMissing" claim (c <| missing_projections ::= incr |>))
  | Some s => count (λ c, c <| snapshots_loaded ::= incr |>);; mret s
  end.

(** The write to the shadow. *)
Definition shadow_stage (claim : Claim) (s : ShadowProjectionSnapshot) : row unit :=
  result ← try_or (relay_write_projection s) (λ e c,
    if decide (e = ShadowProjectionProtocolError ∨ is_relay_protocol e = true)
    then diagnostic "sink_protocol" (exn_name e) claim (c <| protocol_errors ::= incr |>)
    else diagnostic "sink" (exn_name e) claim (c <| sink_errors ::= incr |>));
  count (increment_status result.(pw_status));;
  if decide (result.(pw_status) = ProjectionWriteStatus.CONFLICT)
  then give_up_row (diagnostic "sink_conflict" "ProjectionConflict" claim) else mret ().

(** The write to the active index, if enabled. *)
Definition index_stage (claim : Claim) (s : ShadowProjectionSnapshot) : row unit :=
  if redis_active_index_write projection_config.(sc_features) then
    match ports.(active_index_sink) with
    | None => give_up_row (λ c, diagnostic "active_index_protocol" "MissingActiveRunIndexSink" claim
                (c <| active_index_errors ::= incr |> <| protocol_errors ::= incr |>))
    | Some index =>
        result ← try_or (write_active_index index s) (λ e c,
          if decide (e = ActiveRunIndexProtocolError ∨ is_relay_protocol e = true)
          then diagnostic "active_index_protocol" (exn_name e) claim
                 (c <| active_index_errors ::= incr |> <| protocol_errors ::= incr |>)
          else diagnostic "active_index" (exn_name e) claim (c <| active_index_errors ::= incr |>));
        count (increment_active_index_status result.(pw_status));;
        if decide (result.(pw_status) = ProjectionWriteStatus.CONFLICT)
        then give_up_row (λ c, diagnostic "active_index_conflict" "ActiveRunIndexConflict" claim
               (c <| active_index_errors ::= incr |>))
        else mret ()
    end
  else mret ().

(** Whether the canary policy exposes the tenant to hints; a failing policy denies. *)
Definition fanout_allowed (claim : Claim) : row bool :=
  if redis_fanout projection_config.(sc_features) then
    match ports.(relay_policy) with
    | None => count (λ c, c <| fanout_outside_canary ::= incr |>);; mret false
    | Some allows => λ cw,
        match allows RedisCapability.FANOUT claim.(cl_tenant_id) cw.2 with
        | (Err e, w') =>
            let c := cw.1 <| fanout_outside_canary ::= incr |> <| fanout_errors ::= incr |> in
            let c := if is_relay_protocol e then c <| protocol_errors ::= incr |> else c in
            (Ok false, (diagnostic "fanout_policy" (exn_name e) claim c, w'))
        | (Ok true, w') => (Ok true, (cw.1, w'))
        | (Ok false, w') => (Ok false, (cw.1 <| fanout_outside_canary ::= incr |>, w'))
        end
    end
  else mret false.

(** The hint to subscribers. *)
Definition fanout_stage (claim : Claim) (s : ShadowProjectionSnapshot) : row unit :=
  allowed ← fanout_allowed claim;
  if allowed : bool then
    match ports.(fanout_publisher) with
    | None => give_up_row (λ c, diagnostic "fanout_protocol" "MissingFanoutPublisher" claim
                (c <| fanout_errors ::= incr |> <| protocol_errors ::= incr |>))
    | Some publish =>
        subscribers ← try_or (n ← publish s;
                              from_result (assert_result (0 ≤ n) RelayProtocolError;; mret n))
          (λ e c,
             if is_relay_protocol e
             then diagnostic "fanout_protocol" (exn_name e) claim
                    (c <| fanout_errors ::= incr |> <| protocol_errors ::= incr |>)
             else diagnostic "fanout" (exn_name e) claim (c <| fanout_errors ::= incr |>));
        count (λ c, c <| fanout_published ::= incr |> <| fanout_subscriber_deliveries ::= Z.add subscribers |>)
    end
  else mret ().

(** The acknowledgement of the row. *)
Definition mark_stage (publisher : string) (claim : Claim) : row unit :=
  marked ← try_or (ports.(mark_outbox_published) claim.(cl_tenant_id) claim.(cl_outbox_id) publisher)
    (λ e c,
       let c := if is_relay_protocol e then c <| protocol_errors ::= incr |> else c in
       diagnostic "mark" (exn_name e) claim (c <| mark_lost ::= incr |>));
  if marked : bool then count (λ c, c <| marked_published ::= incr |>)
  else count (λ c, diagnostic "mark" "ClaimOwnershipLost" claim (c <| mark_lost ::= incr |>)).

(** The body of the loop over the claimed rows. *)
Definition process_row (relay_config : ShadowRelayConfig) (claimed_row : ClaimedRow) : row unit :=
  match claimed_identity claimed_row relay_config.(rc_tenant_id) relay_config.(publisher_id) with
  | Err e => give_up_row (λ c, c <| malformed_claims ::= incr |>
      <| errors ::= λ l, l ++ [{| re_stage := "claim_row"; re_error_type := exn_name e;
                                  re_tenant_id := None; re_run_id := None; re_outbox_id := None |}] |>)
  | Ok claim =>
      s ← load_claimed claim;
      shadow_stage claim s;;
      index_stage claim s;;
      fanout_stage claim s;;
      mark_stage relay_config.(publisher_id) claim
  end.

(** ** One batch *)

Fixpoint process_rows (relay_config : ShadowRelayConfig) (rows : list ClaimedRow) (cw : RelayCounters * W)
    : RelayCounters * W :=
  match rows with
  | [] => cw
  | r :: rows' => process_rows relay_config rows' (process_row relay_config r cw).2
  end.

(** The diagnostic of a failed claim. *)
Definition claim_failed (e : exn) : RelayCounters :=
  let c := RelayCounters_default <| claim_errors ::= incr |> in
  let c := if is_relay_protocol e then c <| protocol_errors ::= incr |> else c in
  c <| errors ::= λ l, l ++ [{| re_stage := "claim"; re_error_type := exn_name e;
                                re_tenant_id := None; re_run_id := None; re_outbox_id := None |}] |>.

(** [ShadowProjectionRelay.run_once]. *)
Definition run_once (relay_config : ShadowRelayConfig) (w : W) : ShadowRelayResult * W :=
  if negb (redis_cache_write projection_config.(sc_features))
  then ({| rr_disabled := true; rr_counters := RelayCounters_default |}, w)
  else
    let claim :=
      rows ← ports.(claim_outbox) relay_config.(rc_tenant_id) relay_config.(publisher_id)
               RUN_PROJECTION_DESTINATION relay_config.(rc_limit)
               relay_config.(visibility_timeout_seconds);
      from_result (assert_result (Z.of_nat (length rows) ≤ relay_config.(rc_limit)) RelayProtocolError;;
                   mret rows) in
    match claim w with
    | (Err e, w') => ({| rr_disabled := false; rr_counters := claim_failed e |}, w')
    | (Ok rows, w') =>
        let '(c, w') := process_rows relay_config rows
          (RelayCounters_default <| claimed := Z.of_nat (length rows) |>, w') in
        ({| rr_disabled := false; rr_counters := c |}, w')
    end.

(** [ShadowProjectionRelay(...)]: the collaborators that enabled features need. *)
Definition ShadowProjectionRelay_init : res unit :=
  assert_result (¬ (redis_fanout projection_config.(sc_features) = true
                    ∧ ¬ is_Some ports.(fanout_publisher))) ValueError;;
  assert_result (¬ (redis_active_index_write projection_config.(sc_features) = true
                    ∧ ¬ is_Some ports.(active_index_sink))) ValueError.

(** ** Rebuilding *)

Abbreviation rebuild := (eff unit (RebuildCounters * W)).

Definition rcount (f : RebuildCounters → RebuildCounters) : rebuild unit := λ cw, (Ok (), (f cw.1, cw.2)).

Definition rtry {A} (m : pyeff W A) (handler : exn → RebuildCounters → RebuildCounters) : rebuild A := λ cw,
  match m cw.2 with
  | (Ok a, w') => (Ok a, (cw.1, w'))
  | (Err e, w') => (Err (), (handler e cw.1, w'))
  end.

Definition rdiagnostic (stage error_type : string) (tenant_id run_id : option string) (c : RebuildCounters)
    : RebuildCounters :=
  c <| rb_errors ::= λ l, l ++ [{| re_stage := stage; re_error_type := error_type;
                                   re_tenant_id := tenant_id; re_run_id := run_id; re_outbox_id := None |}] |>.

Definition rgive_up {A} (f : RebuildCounters → RebuildCounters) : rebuild A := rcount f;; fail ().

(** A diagnostic about one snapshot. *)
Definition sdiagnostic (stage error_type : string) (s : ShadowProjectionSnapshot) : RebuildCounters → RebuildCounters :=
  rdiagnostic stage error_type (Some s.(sn_tenant_id)) (Some s.(sn_run_id)).

(** One snapshot of a page. *)
Definition rebuild_snapshot (s : ShadowProjectionSnapshot) : rebuild unit :=
  rcount (λ c, c <| scanned ::= incr |>);;
  result ← rtry (relay_write_projection s) (λ e c,
    if decide (e = ShadowProjectionProtocolError ∨ is_relay_protocol e = true)
    then sdiagnostic "sink_protocol" (exn_name e) s (c <| rb_protocol_errors ::= incr |>)
    else sdiagnostic "sink" (exn_name e) s (c <| rb_sink_errors ::= incr |>));
  rcount (rebuild_status result.(pw_status));;
  if decide (result.(pw_status) = ProjectionWriteStatus.CONFLICT)
  then rgive_up (sdiagnostic "sink_conflict" "ProjectionConflict" s)
  else if redis_active_index_write projection_config.(sc_features) then
    match ports.(active_index_sink) with
    | None => rgive_up (λ c, sdiagnostic "active_index_protocol" "MissingActiveRunIndexSink" s
                (c <| rb_active_index_errors ::= incr |> <| rb_protocol_errors ::= incr |>))
    | Some index =>
        indexed ← rtry (write_active_index index s) (λ e c,
          if decide (e = ActiveRunIndexProtocolError ∨ is_relay_protocol e = true)
          then sdiagnostic "active_index_protocol" (exn_name e) s
                 (c <| rb_active_index_errors ::= incr |> <| rb_protocol_errors ::= incr |>)
          else sdiagnostic "active_index" (exn_name e) s (c <| rb_active_index_errors ::= incr |>));
        rcount (rebuild_index_status indexed.(pw_status));;
        if decide (indexed.(pw_status) = ProjectionWriteStatus.CONFLICT)
        then rcount (λ c, sdiagnostic "active_index_conflict" "ActiveRunIndexConflict" s
               (c <| rb_active_index_errors ::= incr |>))
        else mret ()
    end
  else mret ().

(** The snapshots of a page; a failure skips the rest of one snapshot. *)
Fixpoint rebuild_page (page : list ShadowProjectionSnapshot) (cw : RebuildCounters * W) : RebuildCounters * W :=
  match page with
  | [] => cw
  | s :: page' => rebuild_page page' (rebuild_snapshot s cw).2
  end.

(** Python compares strings by code points, as the bytes of UTF-8 compare, and tuples
    lexicographically. *)
Definition str_lt (a b : string) : Prop := String.compare a b = Lt.
#[global] Instance str_lt_dec a b : Decision (str_lt a b).
Proof. unfold str_lt. apply _. Defined.

Definition key_lt (a b : string * string) : Prop := str_lt a.1 b.1 ∨ a.1 = b.1 ∧ str_lt a.2 b.2.
#[global] Instance key_lt_dec a b : Decision (key_lt a b).
Proof. unfold key_lt. apply _. Defined.

(** [_validate_page(page, after, tenant_id)]: the next cursor. *)
Fixpoint validate_page (page : list ShadowProjectionSnapshot) (previous : option (string * string))
    (tenant_id : string) : res (string * string) :=
  match page with
  | [] => match previous with None => Err RelayProtocolError | Some key => Ok key end
  | s :: page' =>
      assert_result (s.(sn_tenant_id) = tenant_id) RelayProtocolError;;
      let key := (s.(sn_tenant_id), s.(sn_run_id)) in
      match previous with
      | Some p => assert_result (key_lt p key) ValueError
      | None => mret ()
      end;;
      validate_page page' (Some key) tenant_id
  end.

(** One round of the scan: [None] ends it, otherwise the next cursor. *)
Definition rebuild_round (tenant_id : string) (page_size : Z) (after : option (string * string))
    : rebuild (option (string * string)) :=
  page ← rtry
    (raw ← ports.(scan_projections) after page_size;
     from_result (assert_result (Z.of_nat (length raw) ≤ page_size) RelayProtocolError;; mret raw))
    (λ e c,
       if is_relay_protocol e
       then rdiagnostic "scan_protocol" (exn_name e) None None (c <| rb_protocol_errors ::= incr |>)
       else rdiagnostic "scan" (exn_name e) None None (c <| rb_source_errors ::= incr |>));
  if decide (length page = 0%nat) then mret None
  else match validate_page page after tenant_id with
  | Err e => rgive_up (λ c,
      if is_relay_protocol e
      then rdiagnostic "scan_protocol" (exn_name e) None None (c <| rb_protocol_errors ::= incr |>)
      else rdiagnostic "pagination" (exn_name e) None None (c <| pagination_errors ::= incr |>))
  | Ok next_after =>
      rcount (λ c, c <| pages ::= incr |>);;
      ((λ cw, (Ok (), rebuild_page page cw)) : rebuild unit);;
      mret (if decide (Z.of_nat (length page) < page_size) then None else Some next_after)
  end.

(** The loop, for at most [fuel] pages; [None] if it needs more. *)
Fixpoint rebuild_loop (fuel : nat) (tenant_id : string) (page_size : Z) (after : option (string * string))
    (cw : RebuildCounters * W) : option (RebuildCounters * W) :=
  match fuel with
  | O => None
  | S fuel' =>
      match rebuild_round tenant_id page_size after cw with
      | (Err _, cw') | (Ok None, cw') => Some cw'
      | (Ok (Some next), cw') => rebuild_loop fuel' tenant_id page_size (Some next) cw'
      end
  end.

(** The active index misses while it is rebuilt. *)
Definition reset_stage (tenant_id : string) : rebuild unit :=
  if redis_active_index_write projection_config.(sc_features) then
    match ports.(active_index_sink) with
    | None => rgive_up (λ c, rdiagnostic "active_index_reset_protocol" "MissingActiveRunIndexSink" (Some tenant_id) None
                (c <| rb_active_index_errors ::= incr |> <| rb_protocol_errors ::= incr |>))
    | Some index =>
        rtry (index.(reset_index) tenant_id) (λ e c,
          if decide (e = ActiveRunIndexProtocolError)
          then rdiagnostic "active_index_reset_protocol" (exn_name e) (Some tenant_id) None
                 (c <| rb_active_index_errors ::= incr |> <| rb_protocol_errors ::= incr |>)
          else rdiagnostic "active_index_reset" (exn_name e) (Some tenant_id) None
                 (c <| rb_active_index_errors ::= incr |>));;
        rcount (λ c, c <| active_index_reset ::= incr |>)
    end
  else mret ().

(** The index is ready only if nothing failed. *)
Definition ready_stage (tenant_id : string) : rebuild unit := λ cw,
  if decide (redis_active_index_write projection_config.(sc_features) = true ∧ cw.1.(rb_errors) = []) then
    match ports.(active_index_sink) with
    | None => rgive_up (λ c, rdiagnostic "active_index_ready_protocol" "MissingActiveRunIndexSink" (Some tenant_id) None
                (c <| rb_active_index_errors ::= incr |> <| rb_protocol_errors ::= incr |>)) cw
    | Some index =>
        (rtry (index.(mark_ready) tenant_id) (λ e c,
           if decide (e = ActiveRunIndexProtocolError)
           then rdiagnostic "active_index_ready_protocol" (exn_name e) (Some tenant_id) None
                  (c <| rb_active_index_errors ::= incr |> <| rb_protocol_errors ::= incr |>)
           else rdiagnostic "active_index_ready" (exn_name e) (Some tenant_id) None
                  (c <| rb_active_index_errors ::= incr |>));;
         rcount (λ c, c <| active_index_ready ::= incr |>)) cw
    end
  else (Ok (), cw).

(** [ShadowProjectionRebuilder.run]. *)
Definition rebuild_run (fuel : nat) (tenant_id : string) (page_size : Z) (w : W)
    : option (ShadowRebuildResult * W) :=
  if negb (redis_cache_write projection_config.(sc_features))
  then Some ({| rb_disabled := true; rb_counters := RebuildCounters_default |}, w)
  else
    match reset_stage tenant_id (RebuildCounters_default, w) with
    | (Err _, (c, w')) => Some ({| rb_disabled := false; rb_counters := c |}, w')
    | (Ok _, cw) =>
        match rebuild_loop fuel tenant_id page_size None cw with
        | None => None
        | Some cw' =>
            let '(_, (c, w')) := ready_stage tenant_id cw' in
            Some ({| rb_disabled := false; rb_counters := c |}, w')
        end
    end.

(** [ShadowProjectionRebuilder(...)]. *)
Definition ShadowProjectionRebuilder_init (tenant_id : string) (page_size : Z) : res unit :=
  relay_identity tenant_id 512;;
  assert_result (1 ≤ page_size ≤ 1000) ValueError;;
  assert_result (¬ (redis_active_index_write projection_config.(sc_features) = true
                    ∧ ¬ is_Some ports.(active_index_sink))) ValueError.
End relay.

Arguments ActiveRunIndexSink : clear implicits.
Arguments RelayPorts : clear implicits.
