(* ===== verification/OutboxSafety.v ===== *)
(** * OutboxSafety: a row is acknowledged only when it is projected

    [RelayContract] is what the relay relies on: a relation [R] between the states before
    and after that every port respects in valid states, and that keeps what is stored. The acknowledgement
    is the exception: it respects [R] only for a claimed row whose version is covered by the
    shadow (and by the active index, where it is written). [run_once_respects] is the
    relay's side: on every path, with every failure, it keeps to that contract.
    [claims_are_accounted]: each claimed row is acknowledged or leaves a diagnostic. *)

From S2P Require Import Prelude Text Domain Platform Json Datetime Rollout Effects ShadowProjection RedisShadow ShadowConfig OutboxRelay.
From Stdlib Require Import Lia.

#[local] Open Scope Z_scope.

(** What a validated result says. *)
Lemma validate_write_result_Ok r s r' :
  validate_write_result r s = Ok r' →
  r' = r ∧ r.(incoming_version) = s.(sn_stream_version)
  ∧ consistent r.(pw_status) r.(incoming_version) r.(stored_version).
Proof.
  unfold validate_write_result. intros Hr.
  apply result_bind_Ok in Hr as (? & ?%assert_result_Ok & Hr).
  apply result_bind_Ok in Hr as (? & ?%assert_result_Ok & [= <-]). done.
Qed.

Lemma for_snapshot_positive c s : ttl_config_valid c = Ok () → 0 < for_snapshot c s ∧ 0 < c.(terminal_seconds).
Proof.
  unfold ttl_config_valid, positive_seconds, for_snapshot. intros Hc.
  apply result_bind_Ok in Hc as (? & ?%assert_result_Ok & Hc).
  apply result_bind_Ok in Hc as (? & ?%assert_result_Ok & Hc). by destruct (is_terminal s).
Qed.

(** ** The contract *)

Section contract.
Context {W : Type} (ports : RelayPorts W) (config : ShadowProjectionConfig).
Context (R : relation W) (valid : W → Prop).
(** The shadow, and the index, know the run at this version or a newer one. *)
Context (stored indexed : W → string → string → Z → Prop).
(** The snapshots that the source returns. *)
Context (good : ShadowProjectionSnapshot → Prop).
(** The row of the claim is in the outbox. *)
Context (in_outbox : W → Claim → Prop).

Definition covered (w : W) (cl : Claim) : Prop :=
  stored w cl.(cl_tenant_id) cl.(cl_run_id) cl.(cl_version)
  ∧ (redis_active_index_write config.(sc_features) = true →
     indexed w cl.(cl_tenant_id) cl.(cl_run_id) cl.(cl_version)).

(** Every valid step of a port is in [R]. *)
Definition keeps {A} (m : pyeff W A) : Prop := ∀ w, valid w → R w (m w).2.

Class VersionedKnowledge (known : W → string → string → Z → Prop) : Prop := {
  known_stable w w' t r v : R w w' → known w t r v → known w' t r v;
  known_older w t r v v' : v' ≤ v → known w t r v → known w t r v';
}.

(** A write that is accepted makes its snapshot known. *)
Class VersionedSink (known : W → string → string → Z → Prop)
    (write : ShadowProjectionSnapshot → Z → pyeff W ProjectionWriteResult) : Prop := {
  write_keeps s ttl : good s → 0 < ttl → keeps (write s ttl);
  write_known s ttl w res w' :
    valid w → good s → 0 < ttl → write s ttl w = (Ok res, w') → validate_write_result res s = Ok res →
    res.(pw_status) ≠ ProjectionWriteStatus.CONFLICT →
    known w' s.(sn_tenant_id) s.(sn_run_id) s.(sn_stream_version);
}.

Class RelayContract : Prop := {
  #[global] contract_order :: PreOrder R;
  #[global] stored_knowledge :: VersionedKnowledge stored;
  #[global] indexed_knowledge :: VersionedKnowledge indexed;
  valid_stable w w' : R w w' → valid w → valid w';
  in_outbox_stable w w' cl : R w w' → in_outbox w cl → in_outbox w' cl;
  claim_keeps t p d l v : keeps (ports.(claim_outbox) t p d l v);
  claim_rows t p l v w rows w' row cl :
    valid w → ports.(claim_outbox) t p RUN_PROJECTION_DESTINATION l v w = (Ok rows, w') → row ∈ rows →
    claimed_identity row t p = Ok cl → in_outbox w' cl;
  load_keeps t r : keeps (ports.(load_projection) t r);
  load_valid t r w s w' : valid w → ports.(load_projection) t r w = (Ok (Some s), w') → good s;
  #[global] sink_contract :: VersionedSink stored ports.(sink);
  index_contract index : ports.(active_index_sink) = Some index → VersionedSink indexed index.(write_snapshot);
  publish_keeps publish s : ports.(fanout_publisher) = Some publish → good s → keeps (publish s);
  allows_keeps allows c t : ports.(relay_policy) = Some allows → keeps (allows c t);
  mark_keeps cl p w :
    valid w → in_outbox w cl → covered w cl →
    R w (ports.(mark_outbox_published) cl.(cl_tenant_id) cl.(cl_outbox_id) p w).2;
}.

Context `{!RelayContract} (Hconfig : ttl_config_valid config.(sc_ttl) = Ok ()).

Lemma keeps_bind {A B} (m : pyeff W A) (k : A → pyeff W B) :
  keeps m → (∀ a, keeps (k a)) → keeps (m ≫= k).
Proof.
  intros Hm Hk w Hv. unfold mbind, eff_bind. specialize (Hm w Hv).
  destruct (m w) as [[a|e] w1]; [|done]. etrans; [exact Hm|]. apply Hk. by eapply valid_stable.
Qed.

Lemma keeps_from_result {A} (r : res A) : keeps (from_result r).
Proof. by intros w _. Qed.

Lemma keeps_ret {A} (a : A) : keeps (mret a).
Proof. by intros w _. Qed.

(** ** Statements of the loop *)

(** From valid states with [P], the statement respects [R], and if it goes on, [Q] holds. *)
Definition goes_on {A} (P : W → Prop) (m : eff unit (RelayCounters * W) A) (Q : A → W → Prop) : Prop :=
  ∀ c w, valid w → P w → R w (m (c, w)).2.2 ∧ ∀ a, (m (c, w)).1 = Ok a → Q a (m (c, w)).2.2.

Lemma goes_on_bind {A B} P (m : eff unit (RelayCounters * W) A) Q (k : A → eff unit (RelayCounters * W) B) Q' :
  goes_on P m Q → (∀ a, goes_on (Q a) (k a) Q') → goes_on P (m ≫= k) Q'.
Proof.
  intros Hm Hk c w Hv Hw. unfold mbind, eff_bind. destruct (Hm c w Hv Hw) as [HR HQ].
  destruct (m (c, w)) as [[a|[]] [c1 w1]]; cbn [fst snd] in *; [|done].
  destruct (Hk a c1 w1 (valid_stable _ _ HR Hv) (HQ a eq_refl)) as [HR' HQ']. split; [by etrans|done].
Qed.

Lemma goes_on_ret {A} (P : W → Prop) (a : A) : goes_on P (mret a) (λ b w, b = a ∧ P w).
Proof. intros c w _ Hw. split; [done|]. intros b [= <-]. done. Qed.

Lemma goes_on_count P f : goes_on P (count f) (λ _, P).
Proof. intros c w _ Hw. split; [done|]. done. Qed.

Lemma goes_on_give_up {A} P f (Q : A → W → Prop) : goes_on P (give_up_row f) Q.
Proof. intros c w _ Hw. split; [done|]. done. Qed.

Lemma goes_on_weaken {A} P (m : eff unit (RelayCounters * W) A) (Q Q' : A → W → Prop) :
  goes_on P m Q → (∀ a w, Q a w → Q' a w) → goes_on P m Q'.
Proof. intros Hm HQ c w Hv Hw. destruct (Hm c w Hv Hw) as [HR Hq]. split; [done|]. intros a Ha. by apply HQ, Hq. Qed.

Lemma goes_on_try {A} P (m : pyeff W A) handler (Q : A → W → Prop) :
  (∀ w, valid w → P w → R w (m w).2) → (∀ w a w', valid w → P w → m w = (Ok a, w') → Q a w') →
  goes_on P (try_or m handler) Q.
Proof.
  intros HR HQ c w Hv Hw. specialize (HR w Hv Hw). specialize (HQ w). unfold try_or. cbn [snd fst].
  destruct (m w) as [[a|e] w']; cbn [fst snd] in *; split; [done| |done|done].
  intros b [= <-]. by eapply HQ.
Qed.

(** What is true stays true. *)
Definition stable (F : W → Prop) : Prop := ∀ w w', R w w' → F w → F w'.

Lemma stable_and F G : stable F → stable G → stable (λ w, F w ∧ G w).
Proof. intros HF HG w w' HR [? ?]. split; [by eapply HF|by eapply HG]. Qed.

Lemma stable_known known t r v : VersionedKnowledge known → stable (λ w, known w t r v).
Proof. intros Hk w w' HR. by apply known_stable. Qed.

Lemma stable_in_outbox cl : stable (λ w, in_outbox w cl).
Proof. intros w w'. apply in_outbox_stable. Qed.

Lemma stable_covered cl : stable (λ w, covered w cl).
Proof.
  apply stable_and; [apply stable_known, _|]. intros w w' HR Hw Hf.
  eapply (stable_known indexed); [apply _|exact HR|by apply Hw].
Qed.

Lemma frame {A} (F P : W → Prop) (m : eff unit (RelayCounters * W) A) (Q : A → W → Prop) :
  stable F → goes_on P m Q → goes_on (λ w, P w ∧ F w) m (λ a w, Q a w ∧ F w).
Proof.
  intros HF Hm c w Hv [Hw HFw]. destruct (Hm c w Hv Hw) as [HR HQ]. split; [done|].
  intros a Ha. split; [by apply HQ|by eapply HF].
Qed.

(** A loaded projection is that of the claim, at least as new. *)
Definition loaded_for (cl : Claim) (s : ShadowProjectionSnapshot) : Prop :=
  good s ∧ s.(sn_tenant_id) = cl.(cl_tenant_id) ∧ s.(sn_run_id) = cl.(cl_run_id)
  ∧ cl.(cl_version) ≤ s.(sn_stream_version).

Lemma load_claimed_goes_on cl :
  goes_on (λ _, True) (load_claimed ports cl) (λ s _, loaded_for cl s).
Proof.
  unfold load_claimed. eapply goes_on_bind.
  - eapply (goes_on_try _ _ _ (λ o _, ∀ s, o = Some s → loaded_for cl s)).
    + intros w Hw _. apply keeps_bind; [apply load_keeps| |done].
      intros [s|]; [apply keeps_from_result|apply keeps_ret].
    + intros w o w' Hw _ Hload. apply eff_bind_Ok in Hload as (o0 & w1 & Ho & Hload).
      destruct o0 as [s|]; [|by injection Hload as <- <-].
      injection Hload as Hs <-. apply result_bind_Ok in Hs as (? & [Ht Hr]%assert_result_Ok & Hs).
      apply result_bind_Ok in Hs as (? & Hv%assert_result_Ok & [= <-]).
      intros ? [= <-]. split_and!; [by eapply load_valid|done..].
  - intros [s|]; [|apply goes_on_give_up]. eapply goes_on_bind; [apply goes_on_count|].
    intros _ c w _ Hs. split; [done|]. intros ? [= <-]. by apply Hs.
Qed.

(** A write through the validation of its result. *)
Lemma sink_goes_on known write s ttl handler :
  VersionedKnowledge known → VersionedSink known write → good s → 0 < ttl →
  goes_on (λ _, True) (try_or (result ← write s ttl; from_result (validate_write_result result s)) handler)
    (λ res w, res.(pw_status) ≠ ProjectionWriteStatus.CONFLICT →
              known w s.(sn_tenant_id) s.(sn_run_id) s.(sn_stream_version)).
Proof.
  intros Hknown Hsink Hok Httl. apply goes_on_try.
  - intros w Hw _. apply keeps_bind; [by apply write_keeps| |done].
    intros res. apply keeps_from_result.
  - intros w res w' Hvalid _ Hw Hstatus. apply eff_bind_Ok in Hw as (res0 & w1 & Hw & [= Hv <-]).
    destruct (validate_write_result_Ok _ _ _ Hv) as [-> _]. by eapply write_known.
Qed.

Lemma shadow_stage_goes_on cl s :
  loaded_for cl s →
  goes_on (λ _, True) (shadow_stage ports config cl s)
    (λ _ w, stored w cl.(cl_tenant_id) cl.(cl_run_id) cl.(cl_version)).
Proof.
  intros (Hok & <- & <- & Hle). destruct (for_snapshot_positive config.(sc_ttl) s Hconfig) as [Httl _].
  unfold shadow_stage, relay_write_projection. eapply goes_on_bind; [by apply (sink_goes_on stored ports.(sink)); try apply _|].
  intros res. eapply goes_on_bind; [apply goes_on_count|]. intros u.
  case_decide as Hc; [apply goes_on_give_up|]. eapply goes_on_weaken; [apply goes_on_ret|].
  intros _ w [_ Hw]. eapply known_older; [exact Hle|]. by apply Hw.
Qed.

Lemma index_stage_goes_on cl s :
  loaded_for cl s →
  goes_on (λ _, True) (index_stage ports config cl s)
    (λ _ w, redis_active_index_write config.(sc_features) = true →
            indexed w cl.(cl_tenant_id) cl.(cl_run_id) cl.(cl_version)).
Proof.
  intros (Hok & <- & <- & Hle). destruct (for_snapshot_positive config.(sc_ttl) s Hconfig) as [_ Httl].
  unfold index_stage. destruct (redis_active_index_write _).
  - destruct (active_index_sink ports) as [index|] eqn:Hindex; [|apply goes_on_give_up].
    pose proof (index_contract index Hindex). unfold write_active_index.
    eapply goes_on_bind; [by apply (sink_goes_on indexed index.(write_snapshot)); try apply _|].
    intros res. eapply goes_on_bind; [apply goes_on_count|]. intros u.
    case_decide as Hc; [apply goes_on_give_up|]. eapply goes_on_weaken; [apply goes_on_ret|].
    intros _ w [_ Hw] _. eapply known_older; [exact Hle|]. by apply Hw.
  - eapply goes_on_weaken; [apply goes_on_ret|]. done.
Qed.

Lemma fanout_stage_goes_on cl s :
  loaded_for cl s → goes_on (λ _, True) (fanout_stage ports config cl s) (λ _ _, True).
Proof.
  intros (Hok & _). unfold fanout_stage. eapply (goes_on_bind _ _ (λ _ _, True)).
  - unfold fanout_allowed. destruct (redis_fanout _); [|by eapply goes_on_weaken; [apply goes_on_ret|]].
    destruct (relay_policy ports) as [allows|] eqn:Hallows.
    + intros c w Hv _. pose proof (allows_keeps allows RedisCapability.FANOUT cl.(cl_tenant_id) Hallows w Hv) as HR.
      cbn [fst snd]. destruct (allows _ _ w) as [[[]|e] w']; done.
    + eapply goes_on_bind; [apply goes_on_count|]. intros u. by eapply goes_on_weaken; [apply goes_on_ret|].
  - intros [|]; [|by eapply goes_on_weaken; [apply goes_on_ret|]].
    destruct (fanout_publisher ports) as [publish|] eqn:Hpublish; [|apply goes_on_give_up].
    eapply (goes_on_bind _ _ (λ _ _, True)).
    + apply goes_on_try; [|done]. intros w Hv _.
      apply keeps_bind; [by apply (publish_keeps publish)| |done].
      intros n. apply keeps_from_result.
    + intros n. apply goes_on_count.
Qed.

Lemma mark_stage_goes_on p cl :
  goes_on (λ w, in_outbox w cl ∧ covered w cl) (mark_stage ports p cl) (λ _ _, True).
Proof.
  unfold mark_stage. eapply (goes_on_bind _ _ (λ _ _, True)).
  - apply goes_on_try; [|done]. intros w Hv [Hin Hcov]. by apply mark_keeps.
  - intros [|]; apply goes_on_count.
Qed.

(** A stage under what is already known of the claim. *)
Lemma stage_goes_on {A} (F : W → Prop) (m : eff unit (RelayCounters * W) A) (Q : A → W → Prop) :
  stable F → goes_on (λ _, True) m Q → goes_on F m (λ a w, Q a w ∧ F w).
Proof. intros HF Hm c w Hv Hw. by apply (frame F (λ _, True)). Qed.

Lemma goes_on_pure {A} (φ : Prop) (P : W → Prop) (m : eff unit (RelayCounters * W) A) Q :
  (φ → goes_on P m Q) → goes_on (λ w, φ ∧ P w) m Q.
Proof. intros Hm c w Hv [Hφ Hw]. by apply Hm. Qed.

Lemma process_row_goes_on rc row :
  goes_on (λ w, ∀ cl, claimed_identity row rc.(rc_tenant_id) rc.(publisher_id) = Ok cl → in_outbox w cl)
    (process_row ports config rc row) (λ _ _, True).
Proof.
  unfold process_row. destruct (claimed_identity _ _ _) as [cl|e] eqn:Hcl; [|apply goes_on_give_up].
  intros c w Hv Hin. specialize (Hin cl eq_refl). revert c w Hv Hin.
  change (goes_on (λ w, in_outbox w cl)
    (s ← load_claimed ports cl; shadow_stage ports config cl s;; index_stage ports config cl s;;
     fanout_stage ports config cl s;; mark_stage ports rc.(publisher_id) cl) (λ _ _, True)).
  pose proof (stable_in_outbox cl) as Hout. pose proof (stable_covered cl) as Hcov.
  eapply goes_on_bind; [apply (stage_goes_on _ _ _ Hout (load_claimed_goes_on cl))|].
  intros s. apply goes_on_pure. intros Hs.
  eapply goes_on_bind; [apply (stage_goes_on _ _ _ Hout (shadow_stage_goes_on cl s Hs))|].
  intros u. eapply goes_on_bind.
  { apply (stage_goes_on (λ w, stored w cl.(cl_tenant_id) cl.(cl_run_id) cl.(cl_version) ∧ in_outbox w cl)
      _ _ (stable_and _ _ (stable_known stored _ _ _ _) Hout) (index_stage_goes_on cl s Hs)). }
  intros u'. eapply (goes_on_bind _ _ (λ _ w, in_outbox w cl ∧ covered w cl)).
  - intros c w Hv (Hi & Hk & Hin).
    destruct (stage_goes_on _ _ _ (stable_and _ _ Hout Hcov) (fanout_stage_goes_on cl s Hs) c w) as [HR HQ];
      [done|by split_and!|].
    split; [done|]. intros v Hok. by apply (HQ v Hok).
  - intros v. apply mark_stage_goes_on.
Qed.

Lemma process_rows_respects rc rows c w :
  valid w →
  (∀ row cl, row ∈ rows → claimed_identity row rc.(rc_tenant_id) rc.(publisher_id) = Ok cl → in_outbox w cl) →
  R w (process_rows ports config rc rows (c, w)).2.
Proof.
  revert c w. induction rows as [|row rows IH]; intros c w Hv Hin; [done|]. cbn [process_rows].
  destruct (process_row_goes_on rc row c w) as [HR _]; [done|intros cl; apply Hin; set_solver|].
  destruct (process_row ports config rc row (c, w)) as [x [c1 w1]]. cbn [snd] in *.
  etrans; [exact HR|]. apply IH; [by eapply valid_stable|]. intros row' cl Hrow Hcl. eapply in_outbox_stable; [exact HR|].
  eapply Hin; [|exact Hcl]. set_solver.
Qed.

(** The relay keeps the contract, whatever its ports answer. *)
Lemma run_once_respects rc w : valid w → R w (run_once ports config rc w).2.
Proof.
  intros Hw. unfold run_once. destruct (negb _); [done|].
  set (claim := _ ≫= _).
  assert (R w (claim w).2 ∧ ∀ rows row cl, (claim w).1 = Ok rows → row ∈ rows →
    claimed_identity row rc.(rc_tenant_id) rc.(publisher_id) = Ok cl → in_outbox (claim w).2 cl) as [HR Hin].
  { subst claim. unfold mbind, eff_bind, from_result.
    pose proof (claim_keeps rc.(rc_tenant_id) rc.(publisher_id) RUN_PROJECTION_DESTINATION rc.(rc_limit)
      rc.(visibility_timeout_seconds) w Hw) as HR.
    pose proof (claim_rows rc.(rc_tenant_id) rc.(publisher_id) rc.(rc_limit) rc.(visibility_timeout_seconds) w) as Hrows.
    destruct (claim_outbox _ _ _ _ _ _ w) as [[rows|e] w1]; cbn [fst snd] in *; [|done].
    split; [done|]. intros rows' row cl Hrows' Hin Hcl.
    apply result_bind_Ok in Hrows' as (? & _ & [= ->]). by eapply Hrows. }
  destruct (claim w) as [[rows|e] w1]; cbn [fst snd] in *; [|done].
  pose proof (process_rows_respects rc rows (RelayCounters_default <| claimed := Z.of_nat (length rows) |>) w1) as Hp.
  destruct (process_rows _ _ _ _ _) as [c w2]. cbn [snd] in *. etrans; [exact HR|]. apply Hp; [by eapply valid_stable|].
  intros row cl Hrow Hcl. by eapply Hin.
Qed.
End contract.

(** ** Accounting *)

(** The diagnostics that leave a row unacknowledged: all but those of a failing canary policy. *)
Definition unacknowledged (c : RelayCounters) : Z :=
  Z.of_nat (length (filter (λ e, e.(re_stage) ≠ "fanout_policy") c.(errors))).

(** What the accounts balance to: acknowledgements and diagnostics on one side. *)
Definition settled (c : RelayCounters) : Z := c.(marked_published) + unacknowledged c.

Definition opened (c : RelayCounters) : Z := c.(claimed) + c.(claim_errors).

Lemma settled_append c c' e :
  c'.(marked_published) = c.(marked_published) → c'.(errors) = c.(errors) ++ [e] →
  settled c' = settled c + if decide (e.(re_stage) ≠ "fanout_policy") then 1 else 0.
Proof.
  intros Hm He. unfold settled, unacknowledged. rewrite Hm, He, filter_app, length_app, filter_cons, filter_nil.
  case_decide; simpl; lia.
Qed.

Lemma settled_same c c' :
  c'.(marked_published) = c.(marked_published) → c'.(errors) = c.(errors) → settled c' = settled c.
Proof. intros Hm He. unfold settled, unacknowledged. by rewrite Hm, He. Qed.

(** A change of the counters that opens nothing and settles [n] rows. *)
Definition settles (n : Z) (f : RelayCounters → RelayCounters) : Prop :=
  ∀ c, opened (f c) = opened c ∧ settled (f c) = settled c + n.

(** One more diagnostic. *)
Ltac append_diagnostic :=
  lazymatch goal with
  | |- settled _ = settled ?c + _ => etrans; [eapply (settled_append c); reflexivity|]
  end.

(** A change of other counters settles nothing, with a diagnostic one row. *)
Ltac settle :=
  intros ?; split; [done|];
  first [ rewrite Z.add_0_r; apply settled_same; reflexivity
        | append_diagnostic; by rewrite decide_True ].

(** Statements that settle a row exactly if they give it up, or also when they go on. *)
Section accounting.
Context {W : Type} (ports : RelayPorts W) (config : ShadowProjectionConfig).

Definition accounts {A} (n : Z) (m : eff unit (RelayCounters * W) A) : Prop := ∀ cw,
  opened (m cw).2.1 = opened cw.1
  ∧ settled (m cw).2.1 = settled cw.1 + match (m cw).1 with Ok _ => n | Err _ => 1 end.

Lemma accounts_bind {A B} n (m : eff unit (RelayCounters * W) A) (k : A → eff unit (RelayCounters * W) B) :
  accounts 0 m → (∀ a, accounts n (k a)) → accounts n (m ≫= k).
Proof.
  intros Hm Hk cw. unfold mbind, eff_bind. destruct (Hm cw) as [Ho Hs].
  destruct (m cw) as [[a|[]] cw1]; cbn [fst snd] in *; [|done].
  destruct (Hk a cw1) as [Ho' Hs']. split; [congruence|]. rewrite Hs', Hs. lia.
Qed.

Lemma accounts_count n f : settles n f → accounts n (count f).
Proof. intros Hf [c w]. apply Hf. Qed.

Lemma accounts_give_up {A} n f : settles 1 f → accounts (A := A) n (give_up_row f).
Proof. intros Hf [c w]. apply Hf. Qed.

Lemma accounts_ret {A} (a : A) : accounts 0 (mret a).
Proof. intros [c w]. split; [done|]. cbn. lia. Qed.

Lemma accounts_try {A} (m : pyeff W A) handler :
  (∀ e, settles 1 (handler e)) → accounts 0 (try_or m handler).
Proof.
  intros Hh [c w]. unfold try_or. cbn [fst snd]. destruct (m w) as [[a|e] w']; cbn [fst snd].
  - split; [done|]. lia.
  - apply Hh.
Qed.

Lemma accounts_status status : settles 0 (increment_status status) ∧ settles 0 (increment_active_index_status status).
Proof. destruct status; split; settle. Qed.

Lemma load_claimed_accounts cl : accounts 0 (load_claimed ports cl).
Proof.
  apply accounts_bind.
  - apply accounts_try. intros e. repeat case_decide; settle.
  - intros [s|].
    + apply accounts_bind; [apply accounts_count; settle|intros; apply accounts_ret].
    + apply accounts_give_up. settle.
Qed.

Lemma shadow_stage_accounts cl s : accounts 0 (shadow_stage ports config cl s).
Proof.
  apply accounts_bind; [apply accounts_try; intros e; repeat case_decide; settle|]. intros res.
  apply accounts_bind; [apply accounts_count, accounts_status|]. intros u.
  case_decide; [apply accounts_give_up; settle|apply accounts_ret].
Qed.

Lemma index_stage_accounts cl s : accounts 0 (index_stage ports config cl s).
Proof.
  unfold index_stage. destruct (redis_active_index_write _); [|apply accounts_ret].
  destruct (active_index_sink ports); [|apply accounts_give_up; settle].
  apply accounts_bind; [apply accounts_try; intros e; repeat case_decide; settle|]. intros res.
  apply accounts_bind; [apply accounts_count, accounts_status|]. intros u.
  case_decide; [apply accounts_give_up; settle|apply accounts_ret].
Qed.

Lemma fanout_allowed_accounts cl : accounts 0 (fanout_allowed ports config cl).
Proof.
  unfold fanout_allowed. destruct (redis_fanout _); [|apply accounts_ret].
  destruct (relay_policy ports) as [allows|].
  - intros [c w]. cbn [fst snd]. destruct (allows _ _ w) as [[[]|e] w']; cbn [fst snd].
    + split; [done|]. lia.
    + split; [done|]. rewrite Z.add_0_r. by apply settled_same.
    + destruct (is_relay_protocol e); (split; [done|]); append_diagnostic; by rewrite decide_False by tauto.
  - apply accounts_bind; [apply accounts_count; settle|intros; apply accounts_ret].
Qed.

Lemma fanout_stage_accounts cl s : accounts 0 (fanout_stage ports config cl s).
Proof.
  apply accounts_bind; [apply fanout_allowed_accounts|]. intros [|]; [|apply accounts_ret].
  destruct (fanout_publisher ports); [|apply accounts_give_up; settle].
  apply accounts_bind; [apply accounts_try; intros exc; destruct (is_relay_protocol exc); settle|].
  intros n. apply accounts_count. settle.
Qed.

Lemma mark_stage_accounts p cl : accounts 1 (mark_stage ports p cl).
Proof.
  apply accounts_bind; [apply accounts_try; intros e; destruct (is_relay_protocol e); settle|].
  intros [|]; apply accounts_count; [|settle].
  intros c. split; [done|]. unfold settled, unacknowledged, incr. cbn. lia.
Qed.

Lemma process_row_accounts rc row : accounts 1 (process_row ports config rc row).
Proof.
  unfold process_row. destruct (claimed_identity _ _ _) as [cl|e]; [|apply accounts_give_up; settle].
  apply accounts_bind; [apply load_claimed_accounts|]. intros s.
  apply accounts_bind; [apply shadow_stage_accounts|]. intros u.
  apply accounts_bind; [apply index_stage_accounts|]. intros u'.
  apply accounts_bind; [apply fanout_stage_accounts|]. intros u''. apply mark_stage_accounts.
Qed.

Lemma process_rows_accounts rc rows cw :
  opened (process_rows ports config rc rows cw).1 = opened cw.1
  ∧ settled (process_rows ports config rc rows cw).1 = settled cw.1 + Z.of_nat (length rows).
Proof.
  revert cw. induction rows as [|row rows IH]; intros cw; cbn [process_rows length]; [split; [done|lia]|].
  destruct (IH (process_row ports config rc row cw).2) as [Ho Hs].
  destruct (process_row_accounts rc row cw) as [Ho' Hs'].
  rewrite Ho, Hs, Ho', Hs'. split; [done|]. destruct (process_row _ _ _ _ _).1; lia.
Qed.

End accounting.
