(* ===== verification/RunOutbox.v ===== *)
(** * RunOutbox: the PostgreSQL side of the projection pipeline

    The table [run_outbox] with the owner-fenced operations of control_plane/postgres.py
    (claim, reclaim, acknowledge one or a batch) and the projection source of
    production/postgres_shadow.py, which reads the authoritative rows of [runs] in one
    tenant's scope. A statement runs at one time of the database clock; rows that another
    transaction has locked are skipped by FOR UPDATE SKIP LOCKED and are a parameter of the
    statement, as is the collation that orders texts. *)

From S2P Require Import Prelude Text Domain Platform Json Datetime Rollout Effects ShadowProjection OutboxRelay.

#[local] Open Scope Z_scope.

(** ** Tables *)

(** The columns of [runs] that a projection is made of; the key is (tenant_id, run_id). *)
Record ProjectionRow := {
  pr_execution_status : string;
  pr_phase : option string;
  pr_stream_version : Z;
  pr_last_event_seq : Z;
  pr_updated_at : datetime;
}.

(** A row of [run_outbox]; the key is (tenant_id, outbox_id). *)
Record OutboxRow := {
  ob_run_id : string;
  ob_destination : string;
  ob_dedupe_key : option string;
  ob_stream_version : Z;
  ob_source_event_id : option string;
  ob_payload_json : string;
  ob_created_at : datetime;
  ob_published_at : option datetime;
  ob_claimed_by : option string;
  ob_claimed_at : option datetime;
  ob_claim_expires_at : option datetime;
  ob_publish_attempts : Z;
  ob_last_error_json : option string;
}.
#[global] Instance OutboxRow_eta : Eta OutboxRow := λ r,
  Build_OutboxRow r.(ob_run_id) r.(ob_destination) r.(ob_dedupe_key) r.(ob_stream_version)
    r.(ob_source_event_id) r.(ob_payload_json) r.(ob_created_at) r.(ob_published_at)
    r.(ob_claimed_by) r.(ob_claimed_at) r.(ob_claim_expires_at) r.(ob_publish_attempts)
    r.(ob_last_error_json).

Record pg := {
  pg_runs : gmap (string * string) ProjectionRow;
  pg_outbox : gmap (string * string) OutboxRow;
  pg_clock : datetime;
}.
#[global] Instance pg_eta : Eta pg := λ s, Build_pg s.(pg_runs) s.(pg_outbox) s.(pg_clock).

(** ** The outbox *)

(** [jsonb_build_object('reason', 'visibility_timeout')]. *)
Definition VISIBILITY_TIMEOUT : string := "{" +:+ json_str "reason" +:+ ":" +:+ json_str "visibility_timeout" +:+ "}".

(** [_tenant], [_validate_limit], [_validate_visibility_timeout]. *)
Definition tenant_scope (tenant_id : string) : res unit :=
  assert_result (tenant_id ≠ "" ∧ char_length tenant_id ≤ 128) ValueError.
Definition outbox_limit (limit : Z) : res unit := assert_result (1 ≤ limit ≤ 100) ValueError.
Definition visibility_timeout (seconds : Z) : res unit := assert_result (5 ≤ seconds ≤ 3600) ValueError.

(** [claimed_by IS NULL OR claim_expires_at IS NULL OR claim_expires_at <= clock_timestamp()]. *)
Definition claimable (now : datetime) (r : OutboxRow) : Prop :=
  r.(ob_claimed_by) = None ∨ match r.(ob_claim_expires_at) with None => True | Some t => t ≤ now end.
#[global] Instance claimable_dec now r : Decision (claimable now r).
Proof. unfold claimable. destruct (ob_claim_expires_at r); apply _. Defined.

(** Rows of a tenant in the order of a column. *)
Definition created_le (a b : (string * string) * OutboxRow) : Prop := a.2.(ob_created_at) ≤ b.2.(ob_created_at).
#[global] Instance created_le_dec : RelDecision created_le.
Proof. intros a b. unfold created_le. apply _. Defined.

(** The unpublished rows of a tenant that can be claimed, oldest first. *)
Definition pending (s : pg) (tenant_id : string) (destination : option string)
    : list ((string * string) * OutboxRow) :=
  merge_sort created_le (map_to_list (filter (λ kr : (string * string) * OutboxRow,
    kr.1.1 = tenant_id ∧ (destination = None ∨ destination = Some kr.2.(ob_destination))
    ∧ kr.2.(ob_published_at) = None ∧ claimable s.(pg_clock) kr.2) s.(pg_outbox))).

(** [RETURNING] of a claim, as a mapping. *)
Definition claimed_mapping (k : string * string) (r : OutboxRow) : ClaimedRow := {|
  cr_tenant_id := Some k.1; cr_run_id := Some r.(ob_run_id); cr_outbox_id := Some k.2;
  cr_stream_version := Some r.(ob_stream_version); cr_destination := Some r.(ob_destination);
  cr_claimed_by := r.(ob_claimed_by) |}.

(** [UPDATE run_outbox o SET claimed_by = ...] of one pending row. *)
Definition claim_row (now : datetime) (publisher_id : string) (timeout : Z) (r : OutboxRow) : OutboxRow :=
  r <| ob_claimed_by := Some publisher_id |> <| ob_claimed_at := Some now |>
    <| ob_claim_expires_at := Some (now + seconds timeout) |>
    <| ob_last_error_json := if decide (r.(ob_claimed_by) = None) then r.(ob_last_error_json)
                             else Some VISIBILITY_TIMEOUT |>
    <| ob_publish_attempts ::= Z.add 1 |>.

(** [claim_outbox]: [locked] are the rows other transactions hold. *)
Definition claim_outbox_rows (locked : gset (string * string)) (tenant_id publisher_id : string)
    (destination : option string) (limit timeout : Z) : pyeff pg (list ClaimedRow) := λ s,
  match (outbox_limit limit;; visibility_timeout timeout;;
         (match destination with
          | Some d => assert_result (blank d = false) ValueError
          | None => mret ()
          end);;
         tenant_scope tenant_id) with
  | Err e => (Err e, s)
  | Ok _ =>
      let batch := take (Z.to_nat limit)
        (filter (λ kr, kr.1 ∉ locked) (pending s tenant_id destination)) in
      let updated := map (λ kr, (kr.1, claim_row s.(pg_clock) publisher_id timeout kr.2)) batch in
      (Ok (map (λ kr, claimed_mapping kr.1 kr.2) updated),
       s <| pg_outbox ::= λ t, foldr (λ kr t, <[kr.1 := kr.2]> t) t updated |>)
  end.

(** [SET published_at = clock_timestamp(), claimed_by = NULL, ...]. *)
Definition publish_row (now : datetime) (r : OutboxRow) : OutboxRow :=
  r <| ob_published_at := Some now |> <| ob_claimed_by := None |> <| ob_claimed_at := None |>
    <| ob_claim_expires_at := None |>.

(** The fence of an acknowledgement. *)
Definition owns (publisher_id : option string) (r : OutboxRow) : Prop :=
  r.(ob_published_at) = None ∧ r.(ob_claimed_by) = publisher_id.
#[global] Instance owns_dec p r : Decision (owns p r).
Proof. unfold owns. apply _. Defined.

(** [mark_outbox_published]. *)
Definition mark_published (tenant_id outbox_id : string) (publisher_id : option string) : pyeff pg bool := λ s,
  match tenant_scope tenant_id with
  | Err e => (Err e, s)
  | Ok _ =>
      match s.(pg_outbox) !! (tenant_id, outbox_id) with
      | Some r => if decide (owns publisher_id r)
                  then (Ok true, s <| pg_outbox ::= <[(tenant_id, outbox_id) := publish_row s.(pg_clock) r]> |>)
                  else (Ok false, s)
      | None => (Ok false, s)
      end
  end.

(** [_validate_outbox_ack_batch]. *)
Definition validate_outbox_ack_batch (outbox_ids : list string) (publisher_id : string) : res (list string) :=
  assert_result (Z.of_nat (length outbox_ids) ≤ 100) ValueError;;
  assert_result (Forall (λ v, blank v = false) outbox_ids) ValueError;;
  assert_result (NoDup outbox_ids) ValueError;;
  assert_result (blank publisher_id = false) ValueError;;
  mret outbox_ids.

(** [mark_outbox_published_batch]: the identifiers that were acknowledged, in their order. *)
Definition mark_published_batch (tenant_id : string) (outbox_ids : list string) (publisher_id : string)
    : pyeff pg (list string) := λ s,
  match validate_outbox_ack_batch outbox_ids publisher_id with
  | Err e => (Err e, s)
  | Ok [] => (Ok [], s)
  | Ok ids =>
      match tenant_scope tenant_id with
      | Err e => (Err e, s)
      | Ok _ =>
          let mine o := from_option (λ r, bool_decide (owns (Some publisher_id) r)) false
                          (s.(pg_outbox) !! (tenant_id, o)) in
          (Ok (filter (λ o, mine o = true) ids),
           s <| pg_outbox ::= map_imap (λ k r, Some (
             if decide (k.1 = tenant_id ∧ k.2 ∈ ids ∧ owns (Some publisher_id) r)
             then publish_row s.(pg_clock) r else r)) |>)
      end
  end.

(** [reclaim_outbox]: expired claims are given back; NULLS FIRST. *)
Definition expired_le (a b : (string * string) * OutboxRow) : Prop :=
  match a.2.(ob_claim_expires_at), b.2.(ob_claim_expires_at) with
  | None, _ => True
  | Some _, None => False
  | Some t, Some u => t ≤ u
  end.
#[global] Instance expired_le_dec : RelDecision expired_le.
Proof.
  intros a b. unfold expired_le. destruct (ob_claim_expires_at a.2), (ob_claim_expires_at b.2); apply _.
Defined.

Definition reclaim_outbox (locked : gset (string * string)) (tenant_id : string) (limit : Z)
    : pyeff pg Z := λ s,
  match (outbox_limit limit;; tenant_scope tenant_id) with
  | Err e => (Err e, s)
  | Ok _ =>
      let expired := merge_sort expired_le (map_to_list (filter (λ kr : (string * string) * OutboxRow,
        kr.1.1 = tenant_id ∧ kr.2.(ob_published_at) = None ∧ kr.2.(ob_claimed_by) ≠ None
        ∧ claimable s.(pg_clock) kr.2) s.(pg_outbox))) in
      let batch := take (Z.to_nat limit) (filter (λ kr, kr.1 ∉ locked) expired) in
      (Ok (Z.of_nat (length batch)),
       s <| pg_outbox ::= λ t, foldr (λ kr t,
         <[kr.1 := kr.2 <| ob_claimed_by := None |> <| ob_claimed_at := None |>
                        <| ob_claim_expires_at := None |>
                        <| ob_last_error_json := Some VISIBILITY_TIMEOUT |>]> t) t batch |>)
  end.

(** ** The projection source *)

(** [PostgresShadowProjectionSource._snapshot_from_row] of a row of the tenant [self]; every
    failure is a LedgerIntegrityError. *)
Definition snapshot_from_row (run_id : string) (r : ProjectionRow) (tenant_id : string)
    : res ShadowProjectionSnapshot :=
  match (shadow_identity run_id;;
         assert_result (0 ≤ r.(pr_stream_version)) ValueError;;
         assert_result (0 ≤ r.(pr_last_event_seq)) ValueError;;
         assert_result (r.(pr_stream_version) = r.(pr_last_event_seq)) ValueError;;
         assert_result (r.(pr_phase) ≠ Some "") ValueError;;
         status ← result_of_option ValueError (of_value (A := ExecutionStatus.t) r.(pr_execution_status));
         ShadowProjectionSnapshot_init {|
           sn_tenant_id := tenant_id; sn_run_id := run_id; sn_stream_version := r.(pr_stream_version);
           sn_execution_status := status; sn_phase := r.(pr_phase);
           sn_last_event_seq := r.(pr_last_event_seq); sn_updated_at := r.(pr_updated_at) |}) with
  | Ok s => Ok s
  | Err _ => Err LedgerIntegrityError
  end.

(** [_require_configured_tenant(tenant_id)]. *)
Definition require_configured_tenant (self tenant_id : string) : res unit :=
  shadow_identity tenant_id;; assert_result (tenant_id = self) ValueError.

(** [PostgresShadowProjectionSource(dsn, tenant_id=self).load_projection(...)]. *)
Definition source_load (self tenant_id run_id : string) (s : pg) : res (option ShadowProjectionSnapshot) :=
  require_configured_tenant self tenant_id;;
  shadow_identity run_id;;
  match s.(pg_runs) !! (self, run_id) with
  | None => mret None
  | Some r => Some <$> snapshot_from_row run_id r self
  end.

(** The order of texts in the database. *)
Class Collation := {
  text_le : string → string → Prop;
  text_le_dec :: RelDecision text_le;
}.

(** PostgreSQL's collation C: bytes. *)
Definition c_collation : Collation := {| text_le := String.le; text_le_dec := _ |}.

Section scan.
Context `{Collation}.

Definition run_le (a b : string * ProjectionRow) : Prop := text_le a.1 b.1.
#[global] Instance run_le_dec : RelDecision run_le.
Proof. intros a b. unfold run_le. apply _. Defined.

(** [run_id > after]. *)
Definition run_after (after : option string) (run_id : string) : Prop :=
  match after with None => True | Some a => ¬ text_le run_id a end.
#[global] Instance run_after_dec after run_id : Decision (run_after after run_id).
Proof. unfold run_after. destruct after; apply _. Defined.

(** The rows of a tenant after a run, in the order of their identifiers. *)
Definition runs_after (self : string) (after : option string) (s : pg) : list (string * ProjectionRow) :=
  merge_sort run_le (map (λ kr : (string * string) * ProjectionRow, (kr.1.2, kr.2))
    (map_to_list (filter (λ kr : (string * string) * ProjectionRow,
       kr.1.1 = self ∧ run_after after kr.1.2) s.(pg_runs)))).

(** The checks of [all] in order. *)
Fixpoint mapM_res {A B} (f : A → res B) (l : list A) : res (list B) :=
  match l with
  | [] => Ok []
  | a :: l' => b ← f a; bs ← mapM_res f l'; mret (b :: bs)
  end.

(** [scan_projections(after, limit)]. *)
Definition source_scan (self : string) (after : option (string * string)) (limit : Z) (s : pg)
    : res (list ShadowProjectionSnapshot) :=
  assert_result (1 ≤ limit ≤ 1000) ValueError;;
  (match after with
   | None => mret ()
   | Some (cursor_tenant_id, after_run_id) =>
       require_configured_tenant self cursor_tenant_id;; shadow_identity after_run_id
   end);;
  mapM_res (λ kr, snapshot_from_row kr.1 kr.2 self)
    (take (Z.to_nat limit) (runs_after self (snd <$> after) s)).
End scan.
