(* ===== verification/RunCommands.v ===== *)
(** * RunCommands: the durable command queue and the leases of workers

    control_plane/postgres.py: the table [run_commands] with its operations (claim, renew,
    reclaim, acknowledge one or a batch, fail), the lease columns of [runs] and the registry
    of workers. As in RunOutbox.v a statement runs at one time of the database clock, and
    the rows that other transactions have locked are a parameter of the statements that
    skip them. A tenant's scope is part of every key. *)

From S2P Require Import Prelude Text Domain Platform Json Datetime Rollout Effects ShadowProjection OutboxRelay.
From S2P Require Import RunOutbox.

#[local] Open Scope Z_scope.

(** ** Tables *)

(** The CHECK constraint of [run_commands.status]. *)
Inductive command_status := Queued | Claimed | Done | Failed | Cancelled.
#[global] Instance command_status_eq_dec : EqDecision command_status.
Proof. solve_decision. Defined.

(** A row of [run_commands]; the key is (tenant_id, command_id). *)
Record RunCommandRow := {
  cm_run_id : string;
  cm_worker_pool : string;
  cm_command_type : string;
  cm_idempotency_key : option string;
  cm_expected_stream_version : Z;
  cm_payload_json : string;
  cm_available_at : datetime;
  cm_status : command_status;
  cm_claimed_by : option string;
  cm_claimed_at : option datetime;
  cm_claim_expires_at : option datetime;
  cm_attempt_count : Z;
  cm_last_error_json : option string;
  cm_completed_at : option datetime;
  cm_created_at : datetime;
  cm_updated_at : datetime;
}.
#[global] Instance RunCommandRow_eta : Eta RunCommandRow := λ r,
  Build_RunCommandRow r.(cm_run_id) r.(cm_worker_pool) r.(cm_command_type) r.(cm_idempotency_key)
    r.(cm_expected_stream_version) r.(cm_payload_json) r.(cm_available_at) r.(cm_status)
    r.(cm_claimed_by) r.(cm_claimed_at) r.(cm_claim_expires_at) r.(cm_attempt_count)
    r.(cm_last_error_json) r.(cm_completed_at) r.(cm_created_at) r.(cm_updated_at).

(** The columns of [runs] that a worker lease consists of, and the version it reports. *)
Record RunLeaseRow := {
  rl_owner : option string;
  rl_epoch : Z;
  rl_expires_at : option datetime;
  rl_stream_version : Z;
  rl_updated_at : datetime;
}.
#[global] Instance RunLeaseRow_eta : Eta RunLeaseRow := λ r,
  Build_RunLeaseRow r.(rl_owner) r.(rl_epoch) r.(rl_expires_at) r.(rl_stream_version) r.(rl_updated_at).

(** A row of [worker_registry]; the key is (tenant_id, worker_id). *)
Record WorkerRow := {
  wk_capabilities_json : string;
  wk_last_heartbeat_at : datetime;
  wk_draining : bool;
}.
#[global] Instance WorkerRow_eta : Eta WorkerRow := λ r,
  Build_WorkerRow r.(wk_capabilities_json) r.(wk_last_heartbeat_at) r.(wk_draining).

Record control := {
  ct_commands : gmap (string * string) RunCommandRow;
  ct_leases : gmap (string * string) RunLeaseRow;
  ct_workers : gmap (string * string) WorkerRow;
  ct_clock : datetime;
}.
#[global] Instance control_eta : Eta control := λ s,
  Build_control s.(ct_commands) s.(ct_leases) s.(ct_workers) s.(ct_clock).

(** ** Checks of arguments *)

Definition worker_pool_valid (pool : string) : res unit :=
  assert_result (blank pool = false ∧ char_length pool ≤ 64) ValueError.
Definition worker_id_valid (worker : string) : res unit :=
  assert_result (worker ≠ "" ∧ char_length worker ≤ 128) ValueError.
Definition retry_delay_valid (delay : Z) : res unit := assert_result (0 ≤ delay ≤ 86400) ValueError.
Definition lease_ttl_valid (ttl : Z) : res unit := assert_result (5 ≤ ttl ≤ 300) ValueError.

(** A method that checks its arguments and then runs one statement. *)
Definition statement {A} (checks : res unit) (body : control → A * control) : pyeff control A := λ s,
  match checks with
  | Err e => (Err e, s)
  | Ok _ => let '(a, s') := body s in (Ok a, s')
  end.

(** [UPDATE ... WHERE key AND p RETURNING]: the new row, if there is one. *)
Definition update_row {V} (p : V → Prop) `{!∀ r, Decision (p r)} (f : V → V) (k : string * string)
    (t : gmap (string * string) V) : option V * gmap (string * string) V :=
  match t !! k with
  | Some r => if decide (p r) then (Some (f r), <[k := f r]> t) else (None, t)
  | None => (None, t)
  end.

(** [UPDATE ... FROM batch]. *)
Definition update_batch {V} (f : V → V) (batch : list ((string * string) * V)) (t : gmap (string * string) V)
    : gmap (string * string) V :=
  foldr (λ kr t, <[kr.1 := f kr.2]> t) t batch.

(** ** Commands *)

(** [claim_expires_at IS NULL OR claim_expires_at <= clock_timestamp()]. *)
Definition claim_expired (now : datetime) (r : RunCommandRow) : Prop :=
  match r.(cm_claim_expires_at) with None => True | Some t => t ≤ now end.
#[global] Instance claim_expired_dec now r : Decision (claim_expired now r).
Proof. unfold claim_expired. destruct (cm_claim_expires_at r); apply _. Defined.

(** [status = 'claimed' AND claimed_by = worker AND claim_expires_at > clock_timestamp()]. *)
Definition live_claim (worker : string) (now : datetime) (r : RunCommandRow) : Prop :=
  r.(cm_status) = Claimed ∧ r.(cm_claimed_by) = Some worker
  ∧ match r.(cm_claim_expires_at) with None => False | Some t => now < t end.
#[global] Instance live_claim_dec worker now r : Decision (live_claim worker now r).
Proof. unfold live_claim. destruct (cm_claim_expires_at r); apply _. Defined.

(** The condition of [claim_commands]. *)
Definition ready (now : datetime) (r : RunCommandRow) : Prop :=
  (r.(cm_status) = Queued ∨ r.(cm_status) = Claimed ∧ claim_expired now r) ∧ r.(cm_available_at) ≤ now.
#[global] Instance ready_dec now r : Decision (ready now r).
Proof. unfold ready. apply _. Defined.

Definition available_le (a b : (string * string) * RunCommandRow) : Prop := a.2.(cm_available_at) ≤ b.2.(cm_available_at).
#[global] Instance available_le_dec : RelDecision available_le.
Proof. intros a b. unfold available_le. apply _. Defined.

(** The rows of the CTE [ready]. *)
Definition ready_commands (locked : gset (string * string)) (tenant_id pool : string) (limit : Z) (s : control)
    : list ((string * string) * RunCommandRow) :=
  take (Z.to_nat limit) (filter (λ kr, kr.1 ∉ locked)
    (merge_sort available_le (map_to_list (filter (λ kr : (string * string) * RunCommandRow,
       kr.1.1 = tenant_id ∧ kr.2.(cm_worker_pool) = pool ∧ ready s.(ct_clock) kr.2) s.(ct_commands))))).

Definition claim_command (now : datetime) (worker : string) (timeout : Z) (r : RunCommandRow) : RunCommandRow :=
  r <| cm_status := Claimed |> <| cm_claimed_by := Some worker |> <| cm_claimed_at := Some now |>
    <| cm_claim_expires_at := Some (now + seconds timeout) |>
    <| cm_last_error_json := if decide (r.(cm_status) = Claimed) then Some VISIBILITY_TIMEOUT
                             else r.(cm_last_error_json) |>
    <| cm_attempt_count ::= Z.add 1 |> <| cm_updated_at := now |>.

(** [claim_commands]: the keys and rows that are claimed. *)
Definition claim_commands (locked : gset (string * string)) (tenant_id worker : string) (limit : Z) (pool : string)
    (timeout : Z) : pyeff control (list ((string * string) * RunCommandRow)) :=
  statement (outbox_limit limit;; worker_pool_valid pool;; visibility_timeout timeout;; tenant_scope tenant_id)
    (λ s, let batch := ready_commands locked tenant_id pool limit s in
          let claim := claim_command s.(ct_clock) worker timeout in
          (map (λ kr, (kr.1, claim kr.2)) batch, s <| ct_commands ::= update_batch claim batch |>)).

(** An update of one command by the owner of a live claim. *)
Definition owner_update (tenant_id command_id worker : string) (f : datetime → RunCommandRow → RunCommandRow) (s : control)
    : option RunCommandRow * control :=
  let '(r, t) := update_row (live_claim worker s.(ct_clock)) (f s.(ct_clock)) (tenant_id, command_id) s.(ct_commands) in
  (r, s <| ct_commands := t |>).

(** A statement that has to find its row. *)
Definition or_conflict {A} (m : pyeff control (option A)) : pyeff control A :=
  o ← m; match o with Some a => mret a | None => fail RunVersionConflictError end.

(** [renew_command_claim]. *)
Definition renew_command_claim (tenant_id command_id worker : string) (timeout : Z) : pyeff control RunCommandRow :=
  or_conflict (statement (visibility_timeout timeout;; tenant_scope tenant_id)
    (owner_update tenant_id command_id worker (λ now r,
       r <| cm_claim_expires_at := Some (now + seconds timeout) |> <| cm_updated_at := now |>))).

(** [NULLS FIRST]. *)
Definition expires_le (a b : (string * string) * RunCommandRow) : Prop :=
  match a.2.(cm_claim_expires_at), b.2.(cm_claim_expires_at) with
  | None, _ => True
  | Some _, None => False
  | Some t, Some u => t ≤ u
  end.
#[global] Instance expires_le_dec : RelDecision expires_le.
Proof.
  intros a b. unfold expires_le. destruct (cm_claim_expires_at a.2), (cm_claim_expires_at b.2); apply _.
Defined.

(** A claim that is given back. *)
Definition unclaim (r : RunCommandRow) : RunCommandRow :=
  r <| cm_claimed_by := None |> <| cm_claimed_at := None |> <| cm_claim_expires_at := None |>.

Definition requeue (now : datetime) (r : RunCommandRow) : RunCommandRow :=
  unclaim r <| cm_status := Queued |> <| cm_last_error_json := Some VISIBILITY_TIMEOUT |> <| cm_updated_at := now |>.

(** [reclaim_commands]: how many expired claims went back to the queue. *)
Definition reclaim_commands (locked : gset (string * string)) (tenant_id : string) (limit : Z) : pyeff control Z :=
  statement (outbox_limit limit;; tenant_scope tenant_id)
    (λ s, let batch := take (Z.to_nat limit) (filter (λ kr, kr.1 ∉ locked)
            (merge_sort expires_le (map_to_list (filter (λ kr : (string * string) * RunCommandRow,
               kr.1.1 = tenant_id ∧ kr.2.(cm_status) = Claimed ∧ claim_expired s.(ct_clock) kr.2)
               s.(ct_commands))))) in
          (Z.of_nat (length batch), s <| ct_commands ::= update_batch (requeue s.(ct_clock)) batch |>)).

Definition complete (now : datetime) (r : RunCommandRow) : RunCommandRow :=
  unclaim r <| cm_status := Done |> <| cm_completed_at := Some now |> <| cm_updated_at := now |>.

(** [acknowledge_command]. *)
Definition acknowledge_command (tenant_id command_id worker : string) : pyeff control bool :=
  statement (tenant_scope tenant_id) (λ s,
    let '(r, s') := owner_update tenant_id command_id worker complete s in (bool_decide (is_Some r), s')).

(** [acknowledge_commands_batch]: the identifiers that were acknowledged, in their order. *)
Definition acknowledge_commands_batch (tenant_id : string) (command_ids : list string) (worker : string)
    : pyeff control (list string) :=
  match command_ids with
  | [] => mret []
  | _ =>
      statement
        (assert_result (Z.of_nat (length command_ids) ≤ 100) ValueError;;
         assert_result (Forall (λ v, blank v = false) command_ids) ValueError;;
         assert_result (NoDup command_ids) ValueError;;
         worker_id_valid worker;; tenant_scope tenant_id)
        (λ s,
          let mine c := from_option (λ r, bool_decide (live_claim worker s.(ct_clock) r)) false
                          (s.(ct_commands) !! (tenant_id, c)) in
          (filter (λ c, mine c = true) command_ids,
           s <| ct_commands ::= map_imap (λ k r, Some (
             if decide (k.1 = tenant_id ∧ k.2 ∈ command_ids ∧ live_claim worker s.(ct_clock) r)
             then complete s.(ct_clock) r else r)) |>))
  end.

(** [fail_command]: a permanent failure, or a retry after a delay. *)
Definition fail_command `{Platform} (tenant_id command_id worker : string) (error : list (string * json)) (retryable : bool)
    (retry_delay : Z) : pyeff control bool :=
  statement (retry_delay_valid retry_delay;;
             assert_result (¬ (retryable = false ∧ retry_delay ≠ 0)) ValueError;;
             tenant_scope tenant_id)
    (λ s,
      let error_json := canonical_json (JObj error) in
      let '(r, s') := owner_update tenant_id command_id worker (λ now r,
        if retryable
        then unclaim r <| cm_status := Queued |> <| cm_available_at := now + seconds retry_delay |>
                       <| cm_last_error_json := Some error_json |> <| cm_completed_at := None |>
                       <| cm_updated_at := now |>
        else unclaim r <| cm_status := Failed |> <| cm_last_error_json := Some error_json |>
                       <| cm_completed_at := Some now |> <| cm_updated_at := now |>) s in
      (bool_decide (is_Some r), s')).

(** ** Leases of runs *)

(** [lease_owner = worker AND lease_expires_at > clock_timestamp()]. *)
Definition lease_held (worker : string) (now : datetime) (r : RunLeaseRow) : Prop :=
  r.(rl_owner) = Some worker ∧ match r.(rl_expires_at) with None => False | Some t => now < t end.
#[global] Instance lease_held_dec worker now r : Decision (lease_held worker now r).
Proof. unfold lease_held. destruct (rl_expires_at r); apply _. Defined.

(** The lease is free, the worker's own, or expired. *)
Definition lease_free (worker : string) (now : datetime) (r : RunLeaseRow) : Prop :=
  r.(rl_owner) = None ∨ r.(rl_owner) = Some worker
  ∨ match r.(rl_expires_at) with None => False | Some t => t ≤ now end.
#[global] Instance lease_free_dec worker now r : Decision (lease_free worker now r).
Proof. unfold lease_free. destruct (rl_expires_at r); apply _. Defined.

Definition lease_update (tenant_id run_id : string) (p : datetime → RunLeaseRow → Prop) `{!∀ now r, Decision (p now r)}
    (f : datetime → RunLeaseRow → RunLeaseRow) (s : control) : option RunLeaseRow * control :=
  let '(r, t) := update_row (p s.(ct_clock)) (f s.(ct_clock)) (tenant_id, run_id) s.(ct_leases) in
  (r, s <| ct_leases := t |>).

(** [acquire_worker_lease]: only the holder of a live lease keeps its epoch. *)
Definition acquire_worker_lease (tenant_id run_id worker : string) (ttl : Z) : pyeff control RunLeaseRow :=
  or_conflict (statement (lease_ttl_valid ttl;; tenant_scope tenant_id)
    (lease_update tenant_id run_id (lease_free worker) (λ now r,
       r <| rl_epoch := if decide (lease_held worker now r) then r.(rl_epoch) else r.(rl_epoch) + 1 |>
         <| rl_owner := Some worker |> <| rl_expires_at := Some (now + seconds ttl) |> <| rl_updated_at := now |>))).

(** [renew_worker_lease]. *)
Definition renew_worker_lease (tenant_id run_id worker : string) (epoch ttl : Z) : pyeff control RunLeaseRow :=
  or_conflict (statement (lease_ttl_valid ttl;; tenant_scope tenant_id)
    (lease_update tenant_id run_id (λ now r, lease_held worker now r ∧ r.(rl_epoch) = epoch) (λ now r,
       r <| rl_expires_at := Some (now + seconds ttl) |> <| rl_updated_at := now |>))).

(** [release_worker_lease]. *)
Definition release_worker_lease (tenant_id run_id worker : string) (epoch : Z) : pyeff control bool :=
  statement (tenant_scope tenant_id) (λ s,
    let '(r, s') := lease_update tenant_id run_id (λ _ r, r.(rl_owner) = Some worker ∧ r.(rl_epoch) = epoch)
      (λ now r, r <| rl_owner := None |> <| rl_expires_at := None |> <| rl_updated_at := now |>) s in
    (bool_decide (is_Some r), s')).

(** ** The registry *)

(** [heartbeat_worker]: INSERT ... ON CONFLICT DO UPDATE. *)
Definition heartbeat_worker `{Platform} (tenant_id worker : string) (capabilities : list (string * json)) (draining : option bool)
    : pyeff control WorkerRow :=
  statement (worker_id_valid worker;; tenant_scope tenant_id) (λ s,
    let old := from_option wk_draining false (s.(ct_workers) !! (tenant_id, worker)) in
    let r := {| wk_capabilities_json := canonical_json (JObj capabilities);
                wk_last_heartbeat_at := s.(ct_clock); wk_draining := default old draining |} in
    (r, s <| ct_workers ::= <[(tenant_id, worker) := r]> |>)).

(** [set_worker_draining]. *)
Definition set_worker_draining (tenant_id worker : string) (draining : bool) : pyeff control bool :=
  statement (worker_id_valid worker;; tenant_scope tenant_id) (λ s,
    let '(r, t) := update_row (λ _, True) (λ r, r <| wk_draining := draining |> <| wk_last_heartbeat_at := s.(ct_clock) |>)
                     (tenant_id, worker) s.(ct_workers) in
    (bool_decide (is_Some r), s <| ct_workers := t |>)).
