(* ===== verification/CommandSafety.v ===== *)
(** * CommandSafety: a command has one owner and one outcome

    [commands_have_one_owner]: while a claim is live, only its owner can act on the command;
    a settled command never changes. [run_leases_are_fenced]: the same for the lease of a
    run, and a worker whose lease was released or taken over never writes through it again. *)

From S2P Require Import Prelude Text Domain Platform Json Datetime Rollout Effects ShadowProjection OutboxRelay.
From S2P Require Import RunOutbox RunCommands.
From Stdlib Require Import Lia.

#[local] Open Scope Z_scope.

(** ** Histories *)

(** The calls of the control plane with their arguments, the INSERT of a new command and of
    a new run, an event that raises a run's version, and the passage of time. *)
Inductive control_call :=
| ClaimCommands (locked : gset (string * string)) (tenant worker : string) (limit : Z) (pool : string) (timeout : Z)
| RenewClaim (tenant command worker : string) (timeout : Z)
| ReclaimCommands (locked : gset (string * string)) (tenant : string) (limit : Z)
| Acknowledge (tenant command worker : string)
| AcknowledgeBatch (tenant : string) (commands : list string) (worker : string)
| FailCommand (tenant command worker : string) (error : list (string * json)) (retryable : bool) (delay : Z)
| AcquireLease (tenant run worker : string) (ttl : Z)
| RenewLease (tenant run worker : string) (epoch ttl : Z)
| ReleaseLease (tenant run worker : string) (epoch : Z)
| Heartbeat (tenant worker : string) (capabilities : list (string * json)) (draining : option bool)
| SetDraining (tenant worker : string) (draining : bool)
| InsertCommand (k : string * string) (row : RunCommandRow)
| InsertRun (k : string * string)
| AppendEvent (k : string * string)
| Tick (microseconds : nat).

Definition insert_new {V} (k : string * string) (v : V) (t : gmap (string * string) V) : gmap (string * string) V :=
  match t !! k with None => <[k := v]> t | Some _ => t end.

Definition control_step `{Platform} (c : control_call) (s : control) : control :=
  match c with
  | ClaimCommands locked t w limit pool timeout => (claim_commands locked t w limit pool timeout s).2
  | RenewClaim t c w timeout => (renew_command_claim t c w timeout s).2
  | ReclaimCommands locked t limit => (reclaim_commands locked t limit s).2
  | Acknowledge t c w => (acknowledge_command t c w s).2
  | AcknowledgeBatch t cs w => (acknowledge_commands_batch t cs w s).2
  | FailCommand t c w e r d => (fail_command t c w e r d s).2
  | AcquireLease t r w ttl => (acquire_worker_lease t r w ttl s).2
  | RenewLease t r w e ttl => (renew_worker_lease t r w e ttl s).2
  | ReleaseLease t r w e => (release_worker_lease t r w e s).2
  | Heartbeat t w cs d => (heartbeat_worker t w cs d s).2
  | SetDraining t w d => (set_worker_draining t w d s).2
  | InsertCommand k row => s <| ct_commands ::= insert_new k row |>
  | InsertRun k => s <| ct_leases ::= insert_new k {| rl_owner := None; rl_epoch := 0; rl_expires_at := None;
                                                     rl_stream_version := 0; rl_updated_at := s.(ct_clock) |} |>
  | AppendEvent k => s <| ct_leases ::= alter (λ r, r <| rl_stream_version ::= Z.add 1 |>
                                                     <| rl_updated_at := s.(ct_clock) |>) k |>
  | Tick us => s <| ct_clock ::= Z.add (Z.of_nat us) |>
  end.

Definition control_run `{Platform} (calls : list control_call) (s : control) : control := foldl (λ s c, control_step c s) s calls.

(** ** What single statements change *)

Lemma statement_state {A} checks (body : control → A * control) s :
  (statement checks body s).2 = s ∨ (statement checks body s).2 = (body s).2.
Proof. unfold statement. destruct checks; [right|by left]. by destruct (body s). Qed.

Lemma or_conflict_state {A} (m : pyeff control (option A)) s : (or_conflict m s).2 = (m s).2.
Proof.
  unfold or_conflict, mbind, eff_bind. destruct (m s) as [[o|e] s1]; [|done]. by destruct o.
Qed.

Lemma update_row_lookup {V} (p : V → Prop) `{!∀ r, Decision (p r)} (f : V → V) (k : string * string)
    (t : gmap (string * string) V) (k' : string * string) :
  (update_row p f k t).2 !! k' = t !! k' ∨ k' = k ∧ ∃ r, t !! k = Some r ∧ p r ∧ (update_row p f k t).2 !! k' = Some (f r).
Proof.
  unfold update_row. destruct (t !! k) as [r|] eqn:Hr; [|by left]. case_decide as Hp; [|by left]. cbn [snd].
  destruct (decide (k' = k)) as [->|Hne]; [right|by left; rewrite lookup_insert_ne].
  split; [done|]. exists r. by rewrite lookup_insert_eq.
Qed.

Lemma update_batch_lookup {V} (f : V → V) (batch : list ((string * string) * V)) (t : gmap (string * string) V)
    (k : string * string) :
  (∀ k r, (k, r) ∈ batch → t !! k = Some r) →
  update_batch f batch t !! k = t !! k ∨ ∃ r, (k, r) ∈ batch ∧ t !! k = Some r ∧ update_batch f batch t !! k = Some (f r).
Proof.
  induction batch as [|[k0 r0] batch IH]; intros Hb; [by left|]. cbn [update_batch foldr fst snd].
  destruct (decide (k = k0)) as [->|Hne].
  - right. exists r0. rewrite lookup_insert_eq. split; [by left|]. split; [apply Hb; by left|done].
  - rewrite lookup_insert_ne by done.
    destruct IH as [Heq|(r & Hr & Ht & Heq)]; [intros k1 r1 H1; apply Hb; by right|by left|right].
    exists r. split; [by right|done].
Qed.

(** A batch that a statement selects holds rows of the table. *)
Lemma selected_rows {V} (P : (string * string) * V → Prop) `{!∀ kr, Decision (P kr)}
    (R : relation ((string * string) * V)) `{!RelDecision R} (locked : gset (string * string))
    (n : nat) (t : gmap (string * string) V) (k : string * string) (r : V) :
  (k, r) ∈ take n (filter (λ kr, kr.1 ∉ locked) (merge_sort R (map_to_list (filter P t)))) →
  t !! k = Some r ∧ P (k, r).
Proof.
  intros (i & Hi & _)%elem_of_take. apply list_elem_of_lookup_2, list_elem_of_filter in Hi as [_ Hi].
  by rewrite merge_sort_Permutation, elem_of_map_to_list, map_lookup_filter_Some in Hi.
Qed.

Lemma insert_new_lookup {V} (k : string * string) (v : V) (t : gmap (string * string) V) (k' : string * string) r : t !! k' = Some r → insert_new k v t !! k' = Some r.
Proof.
  intros Hr. unfold insert_new. destruct (t !! k) eqn:Hk; [done|]. rewrite lookup_insert_ne; [done|]. congruence.
Qed.

(** ** Commands *)

(** The calls that act on a command through a claim of the worker. *)
Definition acts_on_claim (w : string) (k : string * string) (c : control_call) : Prop :=
  match c with
  | RenewClaim t c w' _ | Acknowledge t c w' | FailCommand t c w' _ _ _ => w' = w ∧ (t, c) = k
  | AcknowledgeBatch t cs w' => w' = w ∧ k.1 = t ∧ k.2 ∈ cs
  | _ => False
  end.

Lemma owner_update_commands t c w f s k r :
  s.(ct_commands) !! k = Some r →
  (owner_update t c w f s).2.(ct_commands) !! k = Some r
  ∨ k = (t, c) ∧ live_claim w s.(ct_clock) r
    ∧ (owner_update t c w f s).2.(ct_commands) !! k = Some (f s.(ct_clock) r).
Proof.
  intros Hr. unfold owner_update.
  destruct (update_row_lookup (live_claim w s.(ct_clock)) (f s.(ct_clock)) (t, c) s.(ct_commands) k)
    as [Heq|(-> & r' & Hr' & Hp & Heq)];
    destruct (update_row _ _ _ _) as [o tab]; cbn [snd ct_commands set_field] in *; [left; by rewrite Heq|right].
  rewrite Hr in Hr'. by injection Hr' as <-.
Qed.

(** What the owner's calls make of a row. *)
Definition owner_result (c : control_call) (r r' : RunCommandRow) : Prop :=
  r'.(cm_attempt_count) = r.(cm_attempt_count)
  ∧ match c with
    | RenewClaim _ _ _ _ => r'.(cm_status) = r.(cm_status) ∧ r'.(cm_claimed_by) = r.(cm_claimed_by)
    | FailCommand _ _ _ _ retryable _ => r'.(cm_status) = if retryable then Queued else Failed
    | _ => r'.(cm_status) = Done
    end.

(** What a call does to one command: nothing, or a transition of its row. *)
Inductive command_transition (now : datetime) (c : control_call) (k : string * string) (r : RunCommandRow)
    : RunCommandRow → Prop :=
| claimed_again w timeout : ready now r → command_transition now c k r (claim_command now w timeout r)
| requeued : r.(cm_status) = Claimed → claim_expired now r → command_transition now c k r (requeue now r)
| by_owner w r' : live_claim w now r → acts_on_claim w k c → owner_result c r r' → command_transition now c k r r'.

(** The row of a command after a call. *)
Definition row_moves (c : control_call) (s : control) (k : string * string) (r : RunCommandRow) (s' : control) : Prop :=
  ∃ r', s'.(ct_commands) !! k = Some r' ∧ (r' = r ∨ command_transition s.(ct_clock) c k r r').

Ltac by_statement :=
  match goal with |- context [(statement ?checks ?body ?s).2] =>
    destruct (statement_state checks body s) as [-> | ->] end.

Section moves.
Context `{Platform} (c : control_call) (s : control) (k : string * string) (r : RunCommandRow).
Context (Hr : s.(ct_commands) !! k = Some r).

Lemma moves_frame s' : s'.(ct_commands) = s.(ct_commands) → row_moves c s k r s'.
Proof. intros Heq. exists r. rewrite Heq. by split; [|left]. Qed.

Lemma moves_owner t id w f :
  acts_on_claim w (t, id) c → owner_result c r (f s.(ct_clock) r) → row_moves c s k r (owner_update t id w f s).2.
Proof.
  intros Hacts Hres. destruct (owner_update_commands t id w f s k r Hr) as [Heq|(-> & Hlive & Heq)].
  - exists r. by split; [|left].
  - eexists. split; [exact Heq|right]. by eapply by_owner.
Qed.

Lemma moves_batch f batch :
  (∀ k' r', (k', r') ∈ batch → s.(ct_commands) !! k' = Some r' ∧ command_transition s.(ct_clock) c k' r' (f r')) →
  row_moves c s k r (s <| ct_commands ::= update_batch f batch |>).
Proof.
  intros Hb. unfold row_moves. cbn [ct_commands set_field].
  destruct (update_batch_lookup f batch s.(ct_commands) k) as [->|(r' & Hin & Hr' & ->)].
  - intros k' r' Hin. by apply Hb.
  - exists r. by split; [|left].
  - rewrite Hr in Hr'. injection Hr' as <-. eexists. split; [done|right]. by apply Hb.
Qed.

Lemma moves_claim locked t w limit pool timeout :
  row_moves c s k r (claim_commands locked t w limit pool timeout s).2.
Proof.
  unfold claim_commands. by_statement; [by apply moves_frame|]. cbv zeta. cbn [snd]. apply moves_batch.
  intros k' r' Hin. apply selected_rows in Hin as (Hr' & _ & _ & Hready). split; [done|]. by constructor.
Qed.

Lemma moves_reclaim locked t limit : row_moves c s k r (reclaim_commands locked t limit s).2.
Proof.
  unfold reclaim_commands. by_statement; [by apply moves_frame|]. cbv zeta. cbn [snd]. apply moves_batch.
  intros k' r' Hin. apply selected_rows in Hin as (Hr' & _ & Hst & Hexp). split; [done|]. by apply requeued.
Qed.

Lemma moves_acknowledge_batch t ids w :
  (∀ id, id ∈ ids → acts_on_claim w (t, id) c) → owner_result c r (complete s.(ct_clock) r) → row_moves c s k r (acknowledge_commands_batch t ids w s).2.
Proof.
  intros Hacts Hres. unfold acknowledge_commands_batch. destruct ids as [|id ids]; [by apply moves_frame|].
  by_statement; [by apply moves_frame|]. unfold row_moves. cbn [snd ct_commands set_field].
  rewrite map_lookup_imap, Hr. cbn [mbind option_bind]. eexists. split; [done|].
  case_decide as Hown; [right|by left]. destruct Hown as (Ht & Hid & Hlive).
  eapply by_owner; [exact Hlive| |done]. destruct k as [kt kid]. cbn [fst snd] in *. subst kt. by apply Hacts.
Qed.

Lemma moves_leases t id p `{!∀ now r, Decision (p now r)} f : row_moves c s k r (lease_update t id p f s).2.
Proof. apply moves_frame. unfold lease_update. by destruct (update_row _ _ _ _). Qed.
End moves.

Lemma control_step_command `{Platform} c s k r :
  s.(ct_commands) !! k = Some r → row_moves c s k r (control_step c s).
Proof.
  intros Hr. destruct c; cbn [control_step].
  - by apply moves_claim.
  - unfold renew_command_claim. rewrite or_conflict_state. by_statement; [by apply moves_frame|]. by apply moves_owner.
  - by apply moves_reclaim.
  - unfold acknowledge_command. by_statement; [by apply moves_frame|].
    pose proof (moves_owner (Acknowledge tenant command worker) s k r Hr tenant command worker complete) as Ho.
    destruct (owner_update _ _ _ _ s). by apply Ho.
  - apply moves_acknowledge_batch; [done|by intros id Hid|done].
  - unfold fail_command. by_statement; [by apply moves_frame|]. cbv zeta.
    match goal with |- context [owner_update ?t ?id ?w ?f s] =>
      pose proof (moves_owner (FailCommand tenant command worker error retryable delay) s k r Hr t id w f) as Ho;
      destruct (owner_update t id w f s) end. apply Ho; [done|]. by destruct retryable.
  - unfold acquire_worker_lease. rewrite or_conflict_state. by_statement; [by apply moves_frame|by apply moves_leases].
  - unfold renew_worker_lease. rewrite or_conflict_state. by_statement; [by apply moves_frame|by apply moves_leases].
  - unfold release_worker_lease. by_statement; [by apply moves_frame|].
    match goal with |- context [lease_update ?t ?id ?p ?f s] =>
      pose proof (moves_leases (ReleaseLease tenant run worker epoch) s k r Hr t id p f) as Ho;
      destruct (lease_update t id p f s) end. by apply Ho.
  - apply moves_frame; [done|]. unfold heartbeat_worker. by by_statement.
  - apply moves_frame; [done|]. unfold set_worker_draining. by_statement; [done|]. by destruct (update_row _ _ _ _).
  - exists r. split; [by apply insert_new_lookup|by left].
  - by apply moves_frame.
  - by apply moves_frame.
  - by apply moves_frame.
Qed.

(** Time goes on. *)
Lemma control_step_clock `{Platform} c s : s.(ct_clock) ≤ (control_step c s).(ct_clock).
Proof.
  assert (∀ s', s'.(ct_clock) = s.(ct_clock) → s.(ct_clock) ≤ s'.(ct_clock)) as Hsame by (intros ? ->; lia).
  assert (∀ t id w f, (owner_update t id w f s).2.(ct_clock) = s.(ct_clock)) as Ho
    by (intros; unfold owner_update; by destruct (update_row _ _ _ _)).
  destruct c; cbn [control_step]; try (apply Hsame; done);
    [apply Hsame..|cbn [ct_clock set_field]; lia].
  - unfold claim_commands. by by_statement.
  - unfold renew_command_claim. rewrite or_conflict_state. by_statement; [done|apply Ho].
  - unfold reclaim_commands. by by_statement.
  - unfold acknowledge_command. by_statement; [done|]. specialize (Ho tenant command worker complete).
    by destruct (owner_update _ _ _ _ s).
  - unfold acknowledge_commands_batch. destruct commands; [done|]. by by_statement.
  - unfold fail_command. by_statement; [done|]. cbv zeta.
    match goal with |- context [owner_update ?t ?id ?w ?f s] => specialize (Ho t id w f); by destruct (owner_update t id w f s) end.
  - unfold acquire_worker_lease. rewrite or_conflict_state. by_statement; [done|]. unfold lease_update. by destruct (update_row _ _ _ _).
  - unfold renew_worker_lease. rewrite or_conflict_state. by_statement; [done|]. unfold lease_update. by destruct (update_row _ _ _ _).
  - unfold release_worker_lease. by_statement; [done|]. unfold lease_update. by destruct (update_row _ _ _ _).
  - unfold heartbeat_worker. by by_statement.
  - unfold set_worker_draining. by_statement; [done|]. by destruct (update_row _ _ _ _).
Qed.

Lemma control_run_clock `{Platform} calls s : s.(ct_clock) ≤ (control_run calls s).(ct_clock).
Proof.
  revert s. induction calls as [|c calls IH]; intros s; [cbn; lia|].
  etrans; [apply (control_step_clock c)|apply IH].
Qed.

(** ** One owner, one outcome *)

Section commands.
Context `{Platform}.

(** A claim of the worker that is live until [e]. *)
Definition claimed_until (w : string) (e : datetime) (r : RunCommandRow) : Prop :=
  r.(cm_status) = Claimed ∧ r.(cm_claimed_by) = Some w ∧ r.(cm_claim_expires_at) = Some e.

Definition settled (r : RunCommandRow) : Prop := r.(cm_status) ≠ Queued ∧ r.(cm_status) ≠ Claimed.

Lemma transition_settled now c k r r' : settled r → ¬ command_transition now c k r r'.
Proof. intros [Hq Hc] []; [|done|]; [by destruct H0 as [[?|[? _]] _]|by destruct H0]. Qed.

(** Only the owner moves a claimed command while the claim is live. *)
Lemma transition_owner now c k r r' w e :
  claimed_until w e r → now < e → command_transition now c k r r' → acts_on_claim w k c.
Proof.
  intros (Hst & Hby & He) Hnow Ht. destruct Ht as [w' timeout [Hready _]|_ Hexp|w' r' (_ & Hw' & _) Hacts _].
  - destruct Hready as [?|[_ Hexp]]; [congruence|]. unfold claim_expired in Hexp. rewrite He in Hexp. lia.
  - unfold claim_expired in Hexp. rewrite He in Hexp. lia.
  - rewrite Hby in Hw'. by injection Hw' as <-.
Qed.

Lemma settled_stays calls s k r :
  s.(ct_commands) !! k = Some r → settled r → (control_run calls s).(ct_commands) !! k = Some r.
Proof.
  revert s. induction calls as [|c calls IH]; intros s Hr Hs; [done|].
  destruct (control_step_command c s k r Hr) as (r' & Hr' & [->|Ht]); [by apply IH|].
  by apply transition_settled in Ht.
Qed.

Lemma claim_stays calls s k r w e :
  s.(ct_commands) !! k = Some r → claimed_until w e r → Forall (λ c, ¬ acts_on_claim w k c) calls →
  (control_run calls s).(ct_clock) < e → (control_run calls s).(ct_commands) !! k = Some r.
Proof.
  revert s. induction calls as [|c calls IH]; intros s Hr Hc Hothers He; [done|].
  apply Forall_cons_1 in Hothers as [Hc0 Hothers]. change (control_run (c :: calls) s) with (control_run calls (control_step c s)) in *.
  destruct (control_step_command c s k r Hr) as (r' & Hr' & [->|Ht]); [by apply IH|].
  destruct Hc0. eapply transition_owner; [exact Hc| |exact Ht].
  pose proof (control_step_clock c s). pose proof (control_run_clock calls (control_step c s)). lia.
Qed.

(** Acknowledging a live claim. *)
Lemma acknowledge_live t id w r s :
  tenant_scope t = Ok () → s.(ct_commands) !! (t, id) = Some r → live_claim w s.(ct_clock) r →
  acknowledge_command t id w s
  = (Ok true, s <| ct_commands ::= <[(t, id) := complete s.(ct_clock) r]> |>).
Proof.
  intros Ht Hr Hlive. unfold acknowledge_command, statement. rewrite Ht. unfold owner_update, update_row.
  rewrite Hr, decide_True by done. done.
Qed.

(** C5. A command has one owner and one outcome. While a worker's claim of a command is live,
    its row does not change, whatever other workers, reclaimers and the worker's own further
    claims do; so nobody else can obtain, renew, finish or requeue it. An acknowledgement
    before the claim expires then succeeds, and from then on the row is final: no call of
    anyone ever changes it again, and no acknowledgement of it succeeds a second time. *)
Theorem commands_have_one_owner calls s t id r w e (s1 := control_run calls s) (s2 := (acknowledge_command t id w s1).2) :
  tenant_scope t = Ok () → s.(ct_commands) !! (t, id) = Some r → claimed_until w e r →
  Forall (λ c, ¬ acts_on_claim w (t, id) c) calls → s1.(ct_clock) < e →
  s1.(ct_commands) !! (t, id) = Some r
  ∧ (acknowledge_command t id w s1).1 = Ok true
  ∧ ∀ later (s3 := control_run later s2),
      s3.(ct_commands) !! (t, id) = Some (complete s1.(ct_clock) r)
      ∧ ∀ w', (acknowledge_command t id w' s3).1 = Ok false.
Proof.
  intros Ht Hr Hc Hothers He. assert (s1.(ct_commands) !! (t, id) = Some r) as Hr1 by (by eapply claim_stays).
  assert (live_claim w s1.(ct_clock) r) as Hlive.
  { destruct Hc as (? & ? & Hexp). unfold live_claim. by rewrite Hexp. }
  subst s2. rewrite (acknowledge_live t id w r s1) by done. split_and!; [done|done|]. intros later s3.
  assert (s3.(ct_commands) !! (t, id) = Some (complete s1.(ct_clock) r)) as Hr3
    by (apply settled_stays; [by cbn; rewrite lookup_insert_eq|done]).
  split; [done|]. intros w'. unfold acknowledge_command, statement. rewrite Ht. unfold owner_update, update_row.
  rewrite Hr3, decide_False; [done|]. by intros [? _].
Qed.
End commands.

(** ** Leases of runs *)

(** The calls that act on a lease as the worker. *)
Definition acts_on_lease (w : string) (k : string * string) (c : control_call) : Prop :=
  match c with
  | AcquireLease t r w' _ | RenewLease t r w' _ _ | ReleaseLease t r w' _ => w' = w ∧ (t, r) = k
  | _ => False
  end.

(** The worker's lease of this epoch is gone. *)
Definition stale (w : string) (n : Z) (r : RunLeaseRow) : Prop :=
  n < r.(rl_epoch) ∨ n = r.(rl_epoch) ∧ r.(rl_owner) ≠ Some w.

Inductive lease_transition (now : datetime) (c : control_call) (k : string * string) (r : RunLeaseRow)
    : RunLeaseRow → Prop :=
| lease_acquired w r' : acts_on_lease w k c → lease_free w now r → r'.(rl_owner) = Some w →
    r'.(rl_epoch) = (if decide (lease_held w now r) then r.(rl_epoch) else r.(rl_epoch) + 1) →
    lease_transition now c k r r'
| lease_by_owner w r' : acts_on_lease w k c → r.(rl_owner) = Some w → r'.(rl_epoch) = r.(rl_epoch) →
    (r'.(rl_owner) = Some w ∨ r'.(rl_owner) = None) → lease_transition now c k r r'
| lease_kept r' : r'.(rl_owner) = r.(rl_owner) → r'.(rl_epoch) = r.(rl_epoch) → r'.(rl_expires_at) = r.(rl_expires_at) →
    lease_transition now c k r r'.

Definition lease_moves (c : control_call) (s : control) (k : string * string) (r : RunLeaseRow) (s' : control) : Prop :=
  ∃ r', s'.(ct_leases) !! k = Some r' ∧ lease_transition s.(ct_clock) c k r r'.

Section leases.
Context `{Platform}.

Section moves.
Context (c : control_call) (s : control) (k : string * string) (r : RunLeaseRow).
Context (Hr : s.(ct_leases) !! k = Some r).

Lemma lease_frame s' : s'.(ct_leases) = s.(ct_leases) → lease_moves c s k r s'.
Proof. intros Heq. exists r. rewrite Heq. split; [done|]. by apply lease_kept. Qed.

Lemma lease_update_moves t id p `{!∀ now r, Decision (p now r)} f :
  (p s.(ct_clock) r → lease_transition s.(ct_clock) c (t, id) r (f s.(ct_clock) r)) →
  lease_moves c s k r (lease_update t id p f s).2.
Proof.
  intros Hf. unfold lease_update.
  destruct (update_row_lookup (p s.(ct_clock)) (f s.(ct_clock)) (t, id) s.(ct_leases) k)
    as [Heq|(-> & r' & Hr' & Hp & Heq)];
    destruct (update_row _ _ _ _) as [o tab]; unfold lease_moves; cbn [snd ct_leases set_field] in *; rewrite Heq.
  - exists r. split; [done|]. by apply lease_kept.
  - rewrite Hr in Hr'. injection Hr' as <-. eexists. split; [done|]. by apply Hf.
Qed.

Lemma owner_update_leases t id w f : (owner_update t id w f s).2.(ct_leases) = s.(ct_leases).
Proof. unfold owner_update. by destruct (update_row _ _ _ _). Qed.
End moves.

Lemma control_step_lease c s k r : s.(ct_leases) !! k = Some r → lease_moves c s k r (control_step c s).
Proof.
  intros Hr. destruct c; cbn [control_step].
  - apply lease_frame; [done|]. unfold claim_commands. by by_statement.
  - apply lease_frame; [done|]. unfold renew_command_claim. rewrite or_conflict_state. by_statement; [done|apply owner_update_leases].
  - apply lease_frame; [done|]. unfold reclaim_commands. by by_statement.
  - apply lease_frame; [done|]. unfold acknowledge_command. by_statement; [done|].
    pose proof (owner_update_leases s tenant command worker complete) as Ho. by destruct (owner_update _ _ _ _ s).
  - apply lease_frame; [done|]. unfold acknowledge_commands_batch. destruct commands; [done|]. by by_statement.
  - apply lease_frame; [done|]. unfold fail_command. by_statement; [done|]. cbv zeta.
    match goal with |- context [owner_update ?t ?id ?w ?f s] =>
      pose proof (owner_update_leases s t id w f) as Ho; by destruct (owner_update t id w f s) end.
  - unfold acquire_worker_lease. rewrite or_conflict_state. by_statement; [by apply lease_frame|].
    apply lease_update_moves; [done|]. intros Hfree. by eapply lease_acquired.
  - unfold renew_worker_lease. rewrite or_conflict_state. by_statement; [by apply lease_frame|].
    apply lease_update_moves; [done|]. intros [[Hown _] _]. eapply lease_by_owner; [done|exact Hown|done|by left].
  - unfold release_worker_lease. by_statement; [by apply lease_frame|].
    match goal with |- context [lease_update ?t ?id ?p ?f s] =>
      pose proof (lease_update_moves (ReleaseLease tenant run worker epoch) s k r Hr t id p f) as Ho;
      destruct (lease_update t id p f s) end.
    apply Ho. intros [Hown _]. eapply lease_by_owner; [done|exact Hown|done|by right].
  - apply lease_frame; [done|]. unfold heartbeat_worker. by by_statement.
  - apply lease_frame; [done|]. unfold set_worker_draining. by_statement; [done|]. by destruct (update_row _ _ _ _).
  - by apply lease_frame.
  - exists r. split; [by apply insert_new_lookup|by apply lease_kept].
  - unfold lease_moves. cbn [ct_leases set_field]. destruct (decide (k0 = k)) as [->|Hne].
    + rewrite lookup_alter_eq, Hr. eexists. split; [done|]. by apply lease_kept.
    + rewrite lookup_alter_ne by done. exists r. split; [done|]. by apply lease_kept.
  - by apply lease_frame.
Qed.

Lemma transition_epoch now c k r r' : lease_transition now c k r r' → r.(rl_epoch) ≤ r'.(rl_epoch).
Proof. intros [w r1 _ _ _ ->|w r1 _ _ -> _|r1 _ -> _]; [case_decide; lia|lia|lia]. Qed.

Lemma transition_stale now c k r r' w n : stale w n r → lease_transition now c k r r' → stale w n r'.
Proof.
  unfold stale. intros Hs [w' r1 _ _ Hown Hep|w' r1 _ Hown Hep Hown'|r1 Hown Hep _].
  - rewrite Hep, Hown. case_decide as Hheld; [|destruct Hs as [?|[-> _]]; left; lia].
    destruct Hs as [?|[-> Hne]]; [by left|right]. split; [done|]. by destruct Hheld as [<- _].
  - rewrite Hep. destruct Hs as [?|[-> Hne]]; [by left|right]. split; [done|]. destruct Hown' as [->| ->]; congruence.
  - rewrite Hep, Hown. done.
Qed.

(** A live lease is moved by its owner only. *)
Lemma transition_lease_owner now c k r r' w e :
  r.(rl_owner) = Some w → r.(rl_expires_at) = Some e → now < e → lease_transition now c k r r' →
  acts_on_lease w k c
  ∨ r'.(rl_owner) = Some w ∧ r'.(rl_epoch) = r.(rl_epoch) ∧ r'.(rl_expires_at) = Some e.
Proof.
  intros Hown He Hnow [w' r1 Hacts Hfree _ _|w' r1 Hacts Hw' _ _|r1 Ho Hep Hexp].
  - left. destruct Hfree as [?|[Hw'|Hexp]]; [congruence|congruence|]. rewrite He in Hexp. lia.
  - left. congruence.
  - right. split_and!; congruence.
Qed.

Lemma lease_stays calls s k r w e :
  s.(ct_leases) !! k = Some r → r.(rl_owner) = Some w → r.(rl_expires_at) = Some e →
  Forall (λ c, ¬ acts_on_lease w k c) calls → (control_run calls s).(ct_clock) < e →
  ∃ r', (control_run calls s).(ct_leases) !! k = Some r' ∧ r'.(rl_owner) = Some w
        ∧ r'.(rl_epoch) = r.(rl_epoch) ∧ r'.(rl_expires_at) = Some e.
Proof.
  revert s r. induction calls as [|c calls IH]; intros s r Hr Hown He Hothers Hlt; [by exists r|].
  apply Forall_cons_1 in Hothers as [Hc Hothers].
  change (control_run (c :: calls) s) with (control_run calls (control_step c s)) in *.
  destruct (control_step_lease c s k r Hr) as (r1 & Hr1 & Ht).
  assert (s.(ct_clock) < e) as Hnow.
  { pose proof (control_step_clock c s). pose proof (control_run_clock calls (control_step c s)). lia. }
  destruct (transition_lease_owner _ _ _ _ _ w e Hown He Hnow Ht) as [?|(Hown1 & Hep1 & He1)].
  - done.
  - destruct (IH _ _ Hr1 Hown1 He1 Hothers Hlt) as (r' & ? & ? & Hep & ?). exists r'. split_and!; [done..|congruence|done].
Qed.

Lemma run_lease calls s k r :
  s.(ct_leases) !! k = Some r →
  ∃ r', (control_run calls s).(ct_leases) !! k = Some r' ∧ r.(rl_epoch) ≤ r'.(rl_epoch)
        ∧ ∀ w n, stale w n r → stale w n r'.
Proof.
  revert s r. induction calls as [|c calls IH]; intros s r Hr; [by exists r|].
  destruct (control_step_lease c s k r Hr) as (r1 & Hr1 & Ht).
  destruct (IH _ _ Hr1) as (r' & Hr' & Hep & Hst). exists r'. split; [done|].
  split; [by etrans; [eapply transition_epoch|]|]. intros w n Hs. by eapply Hst, transition_stale.
Qed.

Lemma stale_calls t id w n r s :
  tenant_scope t = Ok () → s.(ct_leases) !! (t, id) = Some r → stale w n r →
  (∀ ttl, lease_ttl_valid ttl = Ok () → (renew_worker_lease t id w n ttl s).1 = Err RunVersionConflictError)
  ∧ (release_worker_lease t id w n s).1 = Ok false.
Proof.
  intros Ht Hr Hs. split.
  - intros ttl Httl. unfold renew_worker_lease, or_conflict, mbind, eff_bind, statement. rewrite Httl, Ht.
    cbn [mbind result_bind]. unfold lease_update, update_row. rewrite Hr, decide_False; [done|].
    intros [[Hown _] Hep]. destruct Hs as [?|[_ ?]]; [lia|done].
  - unfold release_worker_lease, statement. rewrite Ht. unfold lease_update, update_row. rewrite Hr, decide_False; [done|].
    intros [Hown Hep]. destruct Hs as [?|[_ ?]]; [lia|done].
Qed.

(** C6. The lease of a run is exclusive, and fenced by its epoch. While the lease of a worker
    is live, nobody else changes its owner, epoch or expiry. Once the run was seen with
    another owner or with none, whether by a takeover after the expiry or by a release, every
    later attempt of the worker to renew its lease of that epoch is a conflict, and a release
    of it does nothing, whatever happens in between, acquisitions by the worker included. *)
Theorem run_leases_are_fenced s t id r w e :
  tenant_scope t = Ok () → s.(ct_leases) !! (t, id) = Some r →
  r.(rl_owner) = Some w → r.(rl_expires_at) = Some e →
  (∀ calls, Forall (λ c, ¬ acts_on_lease w (t, id) c) calls → (control_run calls s).(ct_clock) < e →
     ∃ r', (control_run calls s).(ct_leases) !! (t, id) = Some r' ∧ r'.(rl_owner) = Some w
           ∧ r'.(rl_epoch) = r.(rl_epoch) ∧ r'.(rl_expires_at) = Some e)
  ∧ ∀ calls r1 (s1 := control_run calls s), s1.(ct_leases) !! (t, id) = Some r1 → r1.(rl_owner) ≠ Some w →
      ∀ later (s2 := control_run later s1),
        (∀ ttl, lease_ttl_valid ttl = Ok () →
           (renew_worker_lease t id w r.(rl_epoch) ttl s2).1 = Err RunVersionConflictError)
        ∧ (release_worker_lease t id w r.(rl_epoch) s2).1 = Ok false.
Proof.
  intros Ht Hr Hown He. split; [intros calls; by apply lease_stays|].
  intros calls r1 s1 Hr1 Hne later s2. destruct (run_lease calls s (t, id) r Hr) as (r1' & Hr1' & Hep & _).
  fold s1 in Hr1'. rewrite Hr1 in Hr1'. injection Hr1' as <-.
  destruct (run_lease later s1 (t, id) r1 Hr1) as (r2 & Hr2 & _ & Hst).
  apply (stale_calls t id w r.(rl_epoch) r2 s2 Ht Hr2), Hst. unfold stale.
  destruct (decide (r.(rl_epoch) = r1.(rl_epoch))); [by right|left; lia].
Qed.
End leases.

(** ** Witnesses *)

#[local] Existing Instance plain_platform.

(** A command that worker A holds until the time 100, and its run's lease. *)
Definition demo_command : RunCommandRow := {|
  cm_run_id := "run"; cm_worker_pool := "default"; cm_command_type := "start"; cm_idempotency_key := None;
  cm_expected_stream_version := 0; cm_payload_json := "{}"; cm_available_at := 0; cm_status := Claimed;
  cm_claimed_by := Some "A"; cm_claimed_at := Some 5; cm_claim_expires_at := Some 100; cm_attempt_count := 1;
  cm_last_error_json := None; cm_completed_at := None; cm_created_at := 0; cm_updated_at := 5 |}.
Definition demo_lease : RunLeaseRow :=
  {| rl_owner := Some "A"; rl_epoch := 3; rl_expires_at := Some 100; rl_stream_version := 0; rl_updated_at := 5 |}.
Definition demo_control : control := {|
  ct_commands := {[("acme", "start-1") := demo_command]}; ct_leases := {[("acme", "run") := demo_lease]};
  ct_workers := ∅; ct_clock := 10 |}.
(** Worker B asks for commands, for the lease and for A's claims back, in vain. *)
Definition demo_rivals : list control_call :=
  [ClaimCommands ∅ "acme" "B" 5 "default" 30; Tick 20; ReclaimCommands ∅ "acme" 10; AcquireLease "acme" "run" "B" 30].
(** Later B has the lease, and gives it back. *)
Definition demo_takeover : list control_call :=
  [Tick 1000; AcquireLease "acme" "run" "B" 30; ReleaseLease "acme" "run" "B" 4].

(** Witness of [commands_have_one_owner]: B's attempts before and after the acknowledgement. *)
Lemma commands_have_one_owner_witness :
  let s1 := control_run demo_rivals demo_control in
  let s2 := (acknowledge_command "acme" "start-1" "A" s1).2 in
  let s3 := control_run (Tick 1000 :: demo_rivals) s2 in
  s1.(ct_commands) !! ("acme", "start-1") = Some demo_command
  ∧ (acknowledge_command "acme" "start-1" "A" s1).1 = Ok true
  ∧ s3.(ct_commands) !! ("acme", "start-1") = Some (complete 30 demo_command)
  ∧ (acknowledge_command "acme" "start-1" "A" s3).1 = Ok false.
Proof.
  intros s1 s2 s3.
  destruct (commands_have_one_owner demo_rivals demo_control "acme" "start-1" demo_command "A" 100)
    as (Hrow & Hack & Hlater);
    [by vm_compute|by vm_compute|done|repeat constructor; by intros []|by vm_compute|].
  split; [exact Hrow|]. split; [exact Hack|]. destruct (Hlater (Tick 1000 :: demo_rivals)) as [Hfinal Hw].
  split; [exact Hfinal|apply Hw].
Defined.

(** Witness of [run_leases_are_fenced]: A keeps its lease against B, loses it when it has
    expired, takes the run again, and cannot renew or release the lease of the epoch 3. *)
Lemma run_leases_are_fenced_witness :
  let s1 := control_run demo_takeover demo_control in
  let s2 := control_run [AcquireLease "acme" "run" "A" 30] s1 in
  from_option rl_owner None ((control_run demo_rivals demo_control).(ct_leases) !! ("acme", "run")) = Some "A"
  ∧ from_option rl_owner None (s2.(ct_leases) !! ("acme", "run")) = Some "A"
  ∧ (renew_worker_lease "acme" "run" "A" 3 30 s2).1 = Err RunVersionConflictError
  ∧ (release_worker_lease "acme" "run" "A" 3 s2).1 = Ok false.
Proof.
  intros s1 s2.
  destruct (run_leases_are_fenced demo_control "acme" "run" demo_lease "A" 100) as [Hkeep Hfence];
    [by vm_compute|by vm_compute|done|done|].
  split.
  - destruct (Hkeep demo_rivals) as (r & Hr & Hown & _); [repeat constructor; by intros []|by vm_compute|].
    rewrite Hr. exact Hown.
  - split; [by vm_compute|].
    destruct (s1.(ct_leases) !! ("acme", "run")) as [r|] eqn:Hr; [|vm_compute in Hr; discriminate].
    destruct (Hfence demo_takeover r Hr) with (later := [AcquireLease "acme" "run" "A" 30]) as [Hrenew Hrelease];
      [vm_compute in Hr; by injection Hr as <-|].
    split; [apply Hrenew; by vm_compute|exact Hrelease].
Defined.
