(* ===== verification/ManagedWorker.v ===== *)
(** * ManagedWorker: the worker behind the command queue

    production/managed.py: a worker claims one command of its tenant and pool, takes the lease
    of the run, executes the command under a guard that keeps claim and lease alive, and
    records the outcome; production/worker_wake.py: the loop that may wait for a wake hint
    before it polls SQL again. A claimed command is the mapping that the store returns; its
    values are JSON values. The control store, the executor and the guard's thread are ports:
    a call of a port changes the common state [W]. [isinstance] checks of configuration
    fields hold of every value here.

    The second half puts the worker into an office: the ports are the operations of
    RunCommands.v, others act before every request, and requests may be lost.
    [recorded_outcomes_are_true]: the worker records a command as done only if its execution
    succeeded, and as failed only if it failed for good. *)

From S2P Require Import Prelude Text Domain Platform Json Datetime Rollout Effects Decimal Redis ShadowProjection OutboxRelay.
From S2P Require Import RunOutbox RunCommands CommandSafety.
From Corelib Require Import SpecFloat.
From Stdlib Require Import Lia.

#[local] Open Scope Z_scope.

(** ** Configuration *)

Record ManagedWorkerConfig := {
  wc_tenant_id : string;
  wc_worker_id : string;
  wc_worker_pool : string;
  claim_limit : Z;
  command_visibility_timeout_seconds : Z;
  run_lease_ttl_seconds : Z;
  heartbeat_interval_seconds : float;
  retry_delay_seconds : Z;
  capabilities : list (string * json);
}.

(** [ManagedWorkerConfig.__post_init__]. *)
Definition worker_config_valid (c : ManagedWorkerConfig) : res unit :=
  assert_result (blank c.(wc_tenant_id) = false) ValueError;;
  assert_result (blank c.(wc_worker_id) = false) ValueError;;
  assert_result (blank c.(wc_worker_pool) = false ∧ char_length c.(wc_worker_pool) ≤ 64) ValueError;;
  assert_result (c.(claim_limit) = 1) ValueError;;
  assert_result (5 ≤ c.(command_visibility_timeout_seconds) ≤ 3600) ValueError;;
  assert_result (5 ≤ c.(run_lease_ttl_seconds) ≤ 300) ValueError;;
  assert_result (fle c.(heartbeat_interval_seconds) (f64 0) = false
                 ∧ fge c.(heartbeat_interval_seconds)
                     (f64 (Z.min c.(command_visibility_timeout_seconds) c.(run_lease_ttl_seconds))) = false) ValueError;;
  assert_result (0 ≤ c.(retry_delay_seconds) ≤ 86400) ValueError.

(** ** Reading a claimed command *)

Abbreviation mapping := (list (string * json)).

(** [_required_text], [_required_non_negative_int], [_aware_datetime] of a lease column. *)
Definition required_text (m : mapping) (field : string) : res string :=
  match dict_get field m with
  | Some (JStr s) => assert_result (blank s = false) PermanentManagedRunError;; mret s
  | _ => Err PermanentManagedRunError
  end.

Definition required_non_negative (n : Z) : res Z :=
  assert_result (0 ≤ n) PermanentManagedRunError;; mret n.

Definition required_non_negative_int (m : mapping) (field : string) : res Z :=
  match dict_get field m with
  | Some (JInt n) => required_non_negative n
  | _ => Err PermanentManagedRunError
  end.

Definition aware_datetime (t : option datetime) : res datetime := result_of_option PermanentManagedRunError t.

Section worker.
Context `{Platform}.
Context (config : ManagedWorkerConfig).

(** The payload of a command: an object, or the text of one. *)
Definition payload_object (m : mapping) : res mapping :=
  payload ← match dict_get "payload_json" m with
            | Some (JStr text) => result_of_option PermanentManagedRunError (json_loads text)
            | Some j => mret j
            | None => mret JNull
            end;
  match payload with JObj fields => mret fields | _ => Err PermanentManagedRunError end.

(** [_validate_start_command]: the run, the command and the expected version. *)
Definition validate_start_command (command : mapping) : res (string * string * Z) :=
  let permanent := PermanentManagedRunError in
  assert_result (dict_get "tenant_id" command = Some (JStr config.(wc_tenant_id))) permanent;;
  assert_result (default (JStr "default") (dict_get "worker_pool" command) = JStr config.(wc_worker_pool)) permanent;;
  assert_result (dict_get "command_type" command = Some (JStr "start")) permanent;;
  command_id ← required_text command "command_id";
  run_id ← required_text command "run_id";
  expected_version ← required_non_negative_int command "expected_stream_version";
  payload ← payload_object command;
  assert_result (dict_get "run_id" payload = Some (JStr run_id)) permanent;;
  required_text payload "session_id";;
  required_text payload "turn_id";;
  required_text payload "actor_user_id";;
  mret (run_id, command_id, expected_version).

(** ** Ports *)

Section ports.
Context {W : Type}.

Record WorkerPorts := {
  (** [control.heartbeat_worker(..., draining=...)] *)
  wp_heartbeat : option bool → pyeff W unit;
  wp_claim : pyeff W (list mapping);
  wp_acquire : (* run *) string → pyeff W RunLeaseRow;
  wp_acknowledge : (* command *) string → pyeff W bool;
  (** [control.fail_command(command, error, retryable, delay)] *)
  wp_fail : string → mapping → bool → Z → pyeff W bool;
  wp_release : (* run, epoch *) string → Z → pyeff W bool;
  wp_set_draining : pyeff W unit;
  wp_stopped : W → bool;
  wp_stop : W → W;
  (** The executor while the guard's thread renews the claim and the lease, until the
      guard's [__exit__] returned. *)
  wp_execute : mapping → ExecutionContext → (* recovery *) bool → pyeff W unit;
  (** [guard.lost_error is not None] *)
  wp_guard_lost : W → bool;
}.

Context (ports : WorkerPorts) (message_of : exn → string).

(** [raise_if_lost]. *)
Definition raise_if_lost : pyeff W unit := λ w,
  if ports.(wp_guard_lost) w then (Err ManagedLeaseLostError, w) else (Ok (), w).

(** The [try] of [_handle_command]; the first component of its state is the lease that the
    [finally] has to release. *)
Abbreviation handling := (eff exn (option (string * Z) * W)).

Definition on_port {A} (m : pyeff W A) : handling A := λ lw, let '(r, w') := m lw.2 in (r, (lw.1, w')).
Definition holding (run_id : string) (epoch : Z) : handling unit := λ lw, (Ok (), (Some (run_id, epoch), lw.2)).

Definition handle_body (command : mapping) : handling unit :=
  ids ← from_result (validate_start_command command);
  let '(run_id, command_id, expected_version) := ids in
  raw_lease ← on_port (ports.(wp_acquire) run_id);
  lease_epoch ← from_result (required_non_negative raw_lease.(rl_epoch));
  holding run_id lease_epoch;;
  actual_version ← from_result (required_non_negative raw_lease.(rl_stream_version));
  from_result (assert_result (expected_version ≤ actual_version) PermanentManagedRunError);;
  expires_at ← from_result (aware_datetime raw_lease.(rl_expires_at));
  execution_context ← from_result
    (ExecutionContext_init run_id config.(wc_worker_id) lease_epoch expires_at actual_version);
  on_port (ports.(wp_execute) command execution_context (bool_decide (expected_version < actual_version)));;
  on_port raise_if_lost;;
  acknowledged ← on_port (ports.(wp_acknowledge) command_id);
  if acknowledged : bool then mret () else fail ManagedLeaseLostError.

Definition is_lease_lost (e : exn) : bool := bool_decide (e = ManagedLeaseLostError).

(** [_fail_command]. *)
Definition handle_failure (command : mapping) (error : exn) : pyeff W unit :=
  if is_lease_lost error then mret ()
  else match dict_get "command_id" command with
  | Some (JStr command_id) =>
      if decide (command_id = "") then fail error
      else
        let retryable := negb (bool_decide (error = PermanentManagedRunError)) in
        ports.(wp_fail) command_id
          [("class", JStr (exn_name error)); ("message", JStr (char_take 2000 (message_of error)))]
          retryable (if retryable then config.(retry_delay_seconds) else 0);;
        mret ()
  | _ => fail error
  end.

(** [_handle_command]. *)
Definition handle_command (command : mapping) : pyeff W unit := λ w,
  let '(r, (lease, w1)) := handle_body command (None, w) in
  let '(r', w2) := match r with Ok _ => (Ok (), w1) | Err e => handle_failure command e w1 end in
  match lease with
  | None => (r', w2)
  | Some (run_id, epoch) =>
      match ports.(wp_release) run_id epoch w2 with
      | (Ok _, w3) => (r', w3)
      | (Err e, w3) => (Err e, w3)
      end
  end.

Fixpoint handle_commands (commands : list mapping) : pyeff W unit :=
  match commands with
  | [] => mret ()
  | c :: commands' => handle_command c;; handle_commands commands'
  end.

(** [ManagedWorker.run_once] and [stop]. *)
Definition worker_run_once : pyeff W bool := λ w,
  if ports.(wp_stopped) w then (Ok false, w)
  else (ports.(wp_heartbeat) (Some false);;
        commands ← ports.(wp_claim);
        handle_commands commands;;
        mret (negb (bool_decide (commands = [])))) w.

Definition worker_stop : pyeff W unit := λ w, ports.(wp_set_draining) (ports.(wp_stop) w).

(** ** The guard's thread *)

(** [LeaseGuard]: the context it renews, whether its loop goes on and the first loss. *)
Record LeaseGuard := {
  guard_context : ExecutionContext;
  guard_stopped : bool;
  guard_error : option exn;
}.

(** [_record_loss]. *)
Definition record_loss (g : LeaseGuard) : LeaseGuard := {|
  guard_context := g.(guard_context); guard_stopped := g.(guard_stopped);
  guard_error := match g.(guard_error) with Some e => Some e | None => Some ManagedLeaseLostError end |}.

Definition guard_stop (g : LeaseGuard) : LeaseGuard :=
  {| guard_context := g.(guard_context); guard_stopped := true; guard_error := g.(guard_error) |}.

(** A round of [_heartbeat_loop]: three transactions, then [execution_context.renew]. *)
Definition heartbeat_round (renew_claim : pyeff W unit) (renew_run_lease : ExecutionContext → pyeff W (datetime * Z))
    (g : LeaseGuard) (w : W) : LeaseGuard * W :=
  match (ports.(wp_heartbeat) None;; renew_claim;;
         renewed ← renew_run_lease g.(guard_context);
         from_result (renew g.(guard_context) renewed.1 renewed.2)) w with
  | (Ok context, w') => ({| guard_context := context; guard_stopped := g.(guard_stopped);
                            guard_error := g.(guard_error) |}, w')
  | (Err _, w') => (guard_stop (record_loss g), w')
  end.

(** [WorkspaceAgentExecutor.execute]; its factories give programs for the command, and for
    whether the run is recovered. *)
Definition workspace_agent_execute (provision agent_run : mapping → bool → string → ExecutionContext → pyeff W unit)
    (command : mapping) (context : ExecutionContext) (recovery : bool) : pyeff W unit :=
  run_id ← from_result (required_text command "run_id");
  from_result (assert_result (run_id = context.(ec_run_id)) PermanentManagedRunError);;
  raise_if_lost;;
  provision command recovery run_id context;;
  raise_if_lost;;
  raise_if_lost;;
  agent_run command recovery run_id context;;
  raise_if_lost;;
  raise_if_lost.
End ports.
End worker.

Arguments WorkerPorts : clear implicits.

(** ** Wake hints *)

(** [_validate_identifier]: not blank, no NUL, at most 512 bytes. *)
Definition wake_identifier (s : string) : res unit :=
  assert_result (blank s = false ∧ all_chars (λ a, negb (bool_decide (a = Ascii.zero))) s = true
                 ∧ Z.of_nat (String.length s) ≤ 512) ValueError.

Record CommandWakeHint := { wh_outbox_id : string; wh_command_id : string; wh_schema_version : Z }.

(** [CommandWakeHint.__post_init__]. *)
Definition wake_hint_valid (h : CommandWakeHint) : res unit :=
  assert_result (h.(wh_schema_version) = 1) ValueError;;
  wake_identifier h.(wh_outbox_id);;
  wake_identifier h.(wh_command_id).

(** [from_mapping] and [as_mapping]. *)
Definition hint_from_mapping (m : mapping) : res CommandWakeHint :=
  assert_result (list_to_set m.*1 = ({["schema_version"; "outbox_id"; "command_id"]} : gset string)) ValueError;;
  match dict_get "schema_version" m, dict_get "outbox_id" m, dict_get "command_id" m with
  | Some (JInt v), Some (JStr o), Some (JStr c) =>
      let h := {| wh_outbox_id := o; wh_command_id := c; wh_schema_version := v |} in
      wake_hint_valid h;; mret h
  | _, _, _ => Err TypeError
  end.
Definition hint_as_mapping (h : CommandWakeHint) : mapping :=
  [("schema_version", JInt h.(wh_schema_version)); ("outbox_id", JStr h.(wh_outbox_id));
   ("command_id", JStr h.(wh_command_id))].

(** [WorkerWakeDelivery]: a hint or a poison marker. *)
Record WorkerWakeDelivery := { message_id : string; wd_hint : option CommandWakeHint; poison : bool }.
Definition wake_delivery_valid (d : WorkerWakeDelivery) : res unit :=
  wake_identifier d.(message_id);;
  assert_result (d.(poison) ≠ bool_decide (is_Some d.(wd_hint))) ValueError.

Record WorkerWakeAdmissionEvidence := {
  command_claim_p95_ms : float;
  wake_latency_p95_ms : float;
  sustained_claims_per_second : float;
  we_transactional_outbox_tested : bool;
  we_duplicate_delivery_tested : bool;
  we_group_recovery_tested : bool;
  we_pending_reclaim_tested : bool;
  we_redis_disconnect_fallback_tested : bool;
  we_redis_flush_fallback_tested : bool;
  we_fencing_kill_windows_tested : bool;
  we_poison_message_tested : bool;
  we_cross_tenant_isolation_tested : bool;
  we_redis_tls_tested : bool;
  we_redis_acl_tested : bool;
  we_real_redis_tested : bool;
  sql_fallback_recovery_seconds : float;
  we_canary_percent : float;
}.

(** [WorkerWakeAdmissionEvidence.__post_init__], [demand_qualifies] and [qualifies]. *)
Definition wake_evidence_valid (e : WorkerWakeAdmissionEvidence) : res unit :=
  finite_non_negative e.(command_claim_p95_ms);;
  finite_non_negative e.(wake_latency_p95_ms);;
  finite_non_negative e.(sustained_claims_per_second);;
  finite_non_negative e.(sql_fallback_recovery_seconds);;
  finite_percent e.(we_canary_percent);;
  assert_result (feq e.(we_canary_percent) (f64 0) = false) ValueError.
Definition demand_qualifies (e : WorkerWakeAdmissionEvidence) : bool :=
  fgt e.(command_claim_p95_ms) (f64 25) || fgt e.(wake_latency_p95_ms) (f64 100)
  || fge e.(sustained_claims_per_second) (f64 1000).
(** The twelve drills. *)
Definition wake_drills (e : WorkerWakeAdmissionEvidence) : bool :=
  e.(we_transactional_outbox_tested) && e.(we_duplicate_delivery_tested) &&
  e.(we_group_recovery_tested) && e.(we_pending_reclaim_tested) &&
  e.(we_redis_disconnect_fallback_tested) && e.(we_redis_flush_fallback_tested) &&
  e.(we_fencing_kill_windows_tested) && e.(we_poison_message_tested) &&
  e.(we_cross_tenant_isolation_tested) && e.(we_redis_tls_tested) && e.(we_redis_acl_tested) &&
  e.(we_real_redis_tested).
Definition wake_qualifies (e : WorkerWakeAdmissionEvidence) : bool :=
  demand_qualifies e && flt e.(sql_fallback_recovery_seconds) (f64 60) && wake_drills e.

Record WorkerWakeConfig := {
  redis_queue_publish : bool;
  redis_queue_consume : bool;
  postgres_queue_fallback : bool;
  consume_rollout_percent : float;
  wake_admission_evidence : option WorkerWakeAdmissionEvidence;
  fallback_poll_interval_ms : Z;
  stream_read_block_ms : Z;
  stream_read_count : Z;
}.

Definition wake_bounded (n maximum : Z) : res unit := assert_result (1 ≤ n ≤ maximum) ValueError.

(** [WorkerWakeConfig.__post_init__]. *)
Definition wake_config_valid (c : WorkerWakeConfig) : res unit :=
  assert_result (c.(postgres_queue_fallback) = true) ValueError;;
  finite_percent c.(consume_rollout_percent);;
  wake_bounded c.(fallback_poll_interval_ms) 60000;;
  wake_bounded c.(stream_read_block_ms) 60000;;
  wake_bounded c.(stream_read_count) 100;;
  if c.(redis_queue_consume) then
    match c.(wake_admission_evidence) with
    | None => Err ValueError
    | Some e =>
        assert_result (wake_qualifies e = true) ValueError;;
        assert_result (feq c.(consume_rollout_percent) (f64 0) = false) ValueError;;
        assert_result (fgt c.(consume_rollout_percent) e.(we_canary_percent) = false) ValueError
    end
  else assert_result (feq c.(consume_rollout_percent) (f64 0) = true) ValueError.

(** [effective_block_ms]. *)
Definition effective_block_ms (c : WorkerWakeConfig) : Z := Z.min c.(stream_read_block_ms) c.(fallback_poll_interval_ms).

(** [tenant_pool_in_worker_wake_canary]: the pool does not widen the cohort. *)
Definition tenant_pool_in_worker_wake_canary `{Platform} `{Signing} (tenant_id worker_pool : string) (percent : float)
    (secret : string) : res bool :=
  wake_identifier tenant_id;;
  wake_identifier worker_pool;;
  tenant_in_canary_percent tenant_id percent secret DEFAULT_COHORT_VERSION.

Section wake.
Context {W : Type}.

Record WorkerWakeSource := {
  ws_read : (* block_ms, count *) Z → Z → pyeff W (list WorkerWakeDelivery);
  ws_ack : string → pyeff W bool;
  ws_close : pyeff W unit;
}.

(** [try: ... except WorkerWakeUnavailableError: continue]. *)
Definition unless_unavailable (m : pyeff W unit) : pyeff W unit := λ w,
  match m w with
  | (Err e, w') => if decide (e = WorkerWakeUnavailableError) then (Ok (), w') else (Err e, w')
  | r => r
  end.

Fixpoint ack_deliveries (source : WorkerWakeSource) (deliveries : list WorkerWakeDelivery) : pyeff W unit :=
  match deliveries with
  | [] => mret ()
  | d :: deliveries' =>
      unless_unavailable (source.(ws_ack) d.(message_id);; mret ());; ack_deliveries source deliveries'
  end.

(** [ManagedWorkerLoop(...)]: whether it consumes hints. *)
Definition wake_loop_init (c : WorkerWakeConfig) (tenant_id worker_pool : string) (source : option WorkerWakeSource)
    (policy : option (RedisCapability.t → string → res bool)) : res bool :=
  wake_identifier tenant_id;;
  wake_identifier worker_pool;;
  if c.(redis_queue_consume) then
    match policy with
    | None => Err ValueError
    | Some allows =>
        let consume := match allows RedisCapability.WORKER_WAKE_CONSUME tenant_id with Ok b => b | Err _ => false end in
        assert_result (¬ (consume = true ∧ source = None)) ValueError;;
        mret consume
    end
  else mret false.

(** [ManagedWorkerLoop.run_once] and [close]; [poll] is the worker's [run_once]. *)
Definition wake_loop_run_once (c : WorkerWakeConfig) (poll : pyeff W bool) (consume : bool)
    (source : option WorkerWakeSource) : pyeff W bool :=
  first ← poll;
  if first : bool then mret true
  else match consume, source with
  | true, Some s =>
      deliveries ← attempt (s.(ws_read) (effective_block_ms c) c.(stream_read_count));
      match deliveries with
      | Ok l => claimed ← poll; ack_deliveries s l;; mret claimed
      | Err e => if decide (e = WorkerWakeUnavailableError) then poll else fail e
      end
  | _, _ => mret false
  end.

Definition wake_loop_close (stop : pyeff W unit) (source : option WorkerWakeSource) : pyeff W unit :=
  match source with Some s => unless_unavailable s.(ws_close) | None => mret () end;; stop.
End wake.

(** ** The worker in its office *)

(** What happens around one request of the worker: the calls of others before it, what
    becomes of the request, and, if the request is the execution of a command, its outcome
    and whether the guard lost the claim or the lease meanwhile. *)
Record office_event := {
  oe_others : list control_call;
  oe_locked : gset (string * string);
  oe_sql : delivery;
  oe_outcome : res unit;
  oe_lost : bool;
}.

Record office := {
  of_control : control;
  of_future : list office_event;
  (** the executions so far, each with its outcome and the guard's loss *)
  of_results : list (res unit * bool);
  of_stopped : bool;
}.

Section office.
Context `{Platform}.
Context (config : ManagedWorkerConfig) (message_of : exn → string).
Abbreviation tenant := config.(wc_tenant_id).
Abbreviation self := config.(wc_worker_id).

Definition calm : office_event :=
  {| oe_others := []; oe_locked := ∅; oe_sql := Answered; oe_outcome := Ok (); oe_lost := false |}.

(** The next event, and the office after the calls of the others. *)
Definition office_next (w : office) : office_event * office :=
  let '(e, future) := match w.(of_future) with [] => (calm, []) | e :: future => (e, future) end in
  (e, {| of_control := control_run e.(oe_others) w.(of_control); of_future := future;
         of_results := w.(of_results); of_stopped := w.(of_stopped) |}).

Definition with_control (w : office) (s : control) : office :=
  {| of_control := s; of_future := w.(of_future); of_results := w.(of_results); of_stopped := w.(of_stopped) |}.

(** A transaction, whose commit or answer may be lost. *)
Definition office_call {A} (m : gset (string * string) → pyeff control A) : pyeff office A := λ w,
  let '(e, w) := office_next w in
  match e.(oe_sql) with
  | RequestLost => (Err OperationalError, w)
  | d =>
      let '(r, s) := m e.(oe_locked) w.(of_control) in
      (match d with Answered => r | _ => Err OperationalError end, with_control w s)
  end.

(** A row of [claim_commands] as a mapping, with the columns that the worker reads; [payload_json] is decoded. *)
Definition command_mapping (k : string * string) (r : RunCommandRow) : mapping :=
  [("tenant_id", JStr k.1); ("worker_pool", JStr r.(cm_worker_pool)); ("command_id", JStr k.2);
   ("run_id", JStr r.(cm_run_id)); ("command_type", JStr r.(cm_command_type));
   ("expected_stream_version", JInt r.(cm_expected_stream_version));
   ("payload_json", default JNull (json_loads r.(cm_payload_json)))].

Definition office_ports : WorkerPorts office := {|
  wp_heartbeat d := office_call (λ _, heartbeat_worker tenant self config.(capabilities) d;; mret ());
  wp_claim := office_call (λ locked, rows ← claim_commands locked tenant self config.(claim_limit) config.(wc_worker_pool)
                                              config.(command_visibility_timeout_seconds);
                           mret (map (λ kr, command_mapping kr.1 kr.2) rows));
  wp_acquire r := office_call (λ _, acquire_worker_lease tenant r self config.(run_lease_ttl_seconds));
  wp_acknowledge c := office_call (λ _, acknowledge_command tenant c self);
  wp_fail c error retryable delay := office_call (λ _, fail_command tenant c self error retryable delay);
  wp_release r epoch := office_call (λ _, release_worker_lease tenant r self epoch);
  wp_set_draining := office_call (λ _, set_worker_draining tenant self true;; mret ());
  wp_stopped := of_stopped;
  wp_stop w := {| of_control := w.(of_control); of_future := w.(of_future); of_results := w.(of_results);
                  of_stopped := true |};
  wp_execute _ _ _ := λ w,
    let '(e, w) := office_next w in
    (e.(oe_outcome), {| of_control := w.(of_control); of_future := w.(of_future);
                        of_results := w.(of_results) ++ [(e.(oe_outcome), e.(oe_lost))];
                        of_stopped := w.(of_stopped) |});
  wp_guard_lost w := match last w.(of_results) with Some (_, lost) => lost | None => false end |}.

(** ** What the row of a handled command says *)

Context (id : string) (n : Z).
Abbreviation key := (tenant, id).

(** Somebody claimed the command again; or it is queued, or claimed by the worker, or done
    if [D], or failed if [F]. *)
Definition record_ok (D F : Prop) (r : RunCommandRow) : Prop :=
  n < r.(cm_attempt_count)
  ∨ r.(cm_attempt_count) = n
    ∧ (r.(cm_status) = Queued ∨ (r.(cm_status) = Claimed ∧ r.(cm_claimed_by) = Some self)
       ∨ (r.(cm_status) = Done ∧ D) ∨ (r.(cm_status) = Failed ∧ F)).

(** The calls that may be made: an outcome only if it is true. *)
Definition allowed (D F : Prop) (c : control_call) : Prop :=
  match c with
  | Acknowledge t c w => (t, c) = key → w = self → D
  | AcknowledgeBatch t cs w => t = tenant → id ∈ cs → w = self → D
  | FailCommand t c w _ retryable _ => (t, c) = key → w = self → retryable = false → F
  | _ => True
  end.

Definition recorded (D F : Prop) (s : control) : Prop :=
  ∃ r, s.(ct_commands) !! key = Some r ∧ record_ok D F r.

Lemma recorded_mono (D D' F F' : Prop) s : (D → D') → (F → F') → recorded D F s → recorded D' F' s.
Proof. intros HD HF (r & Hr & Hok). exists r. split; [done|]. unfold record_ok in *. tauto. Qed.

Lemma transition_recorded (D F : Prop) now c r r' :
  allowed D F c → record_ok D F r → command_transition now c key r r' → record_ok D F r'.
Proof.
  intros Hc Hok Ht. unfold record_ok in *. destruct Ht as [w timeout Hready|Hst Hexp|w r' Hlive Hacts [Hn Hres]].
  - left. cbn. lia.
  - cbn. destruct Hok as [?|[? _]]; [by left|right; by split; [|left]].
  - rewrite Hn. destruct Hok as [?|[Hat Hcase]]; [by left|right]. split; [done|].
    destruct Hlive as (Hst & Hby & _).
    assert (w = self) as -> by (destruct Hcase as [?|[[_ ?]|[[? _]|[? _]]]]; congruence).
    destruct c; cbn in Hacts, Hres, Hc; try done.
    + right. left. destruct Hres as [-> ->]. by split.
    + destruct Hacts as [-> Hk]. rewrite Hres. right. right. left. by split; [|apply Hc].
    + destruct Hacts as (-> & Ht & Hin). rewrite Hres. right. right. left. by split; [|apply Hc].
    + destruct Hacts as [-> Hk]. rewrite Hres. destruct retryable; [by left|]. do 3 right. by split; [|apply Hc].
Qed.

Lemma step_recorded (D F : Prop) c s : allowed D F c → recorded D F s → recorded D F (control_step c s).
Proof.
  intros Hc (r & Hr & Hok). destruct (control_step_command c s key r Hr) as (r' & Hr' & [->|Ht]);
    [by exists r|]. exists r'. split; [done|]. by eapply transition_recorded.
Qed.

Lemma run_recorded (D F : Prop) calls s :
  Forall (allowed False False) calls → recorded D F s → recorded D F (control_run calls s).
Proof.
  intros Hall. revert s. induction Hall as [|c calls Hc _ IH]; intros s Hs; [done|]. apply IH, step_recorded; [|done].
  destruct c; cbn in *; naive_solver.
Qed.

(** Nobody else records an outcome of the command in the worker's name. *)
Definition honest (w : office) : Prop := Forall (λ e, Forall (allowed False False) e.(oe_others)) w.(of_future).

Definition fine (D F : Prop) (w : office) : Prop := honest w ∧ recorded D F w.(of_control).

Lemma next_fine (D F : Prop) w : fine D F w → fine D F (office_next w).2 ∧ (office_next w).2.(of_results) = w.(of_results).
Proof.
  intros [Hh Hr]. unfold office_next, fine, honest in *. destruct (of_future w) as [|e future]; [done|].
  apply Forall_cons_1 in Hh as [He Hh]. split; [|done]. split; [done|]. by apply run_recorded.
Qed.

(** A transaction that amounts to an allowed call. *)
Lemma office_call_fine {A} (D F : Prop) (m : gset (string * string) → pyeff control A) w :
  (∀ locked s, ∃ c, allowed D F c ∧ (m locked s).2 = control_step c s) →
  fine D F w → fine D F (office_call m w).2 ∧ (office_call m w).2.(of_results) = w.(of_results).
Proof.
  intros Hm Hw. destruct (next_fine D F w Hw) as [[Hh1 Hr1] Hres]. unfold office_call.
  destruct (office_next w) as [e w1]. cbn [snd] in *. destruct (Hm e.(oe_locked) w1.(of_control)) as (c & Hc & Heq).
  assert (fine D F (with_control w1 (m (oe_locked e) (of_control w1)).2)) as Hfine.
  { split; [done|]. cbn [with_control of_control]. rewrite Heq. by apply step_recorded. }
  destruct (oe_sql e); [|done|]; by destruct (m _ _).
Qed.

Lemma office_call_error {A} (m : gset (string * string) → pyeff control A) w e :
  (office_call m w).1 = Err e → e = OperationalError ∨ ∃ locked s, (m locked s).1 = Err e.
Proof.
  unfold office_call. destruct (office_next w) as [ev w1]. destruct (oe_sql ev).
  - intros He. right. exists ev.(oe_locked), w1.(of_control). by destruct (m _ _).
  - intros [= <-]. by left.
  - destruct (m _ _). intros [= <-]. by left.
Qed.

(** ** Every recorded outcome is true *)

(** What the executions so far allow to record: done after one that succeeded without a
    loss, failed before any and after one that failed for good. *)
Definition succeeded (w : office) : Prop := w.(of_results) = [(Ok (), false)].
Definition failed_for_good (w : office) : Prop :=
  w.(of_results) = [] ∨ ∃ lost, w.(of_results) = [(Err PermanentManagedRunError, lost)].

Lemma call_bind {W A B} (Q : result exn B * (option (string * Z) * W) → Prop)
    (m : pyeff W A) (k : A → eff exn (option (string * Z) * W) B) l w :
  (∀ a, (m w).1 = Ok a → Q (k a (l, (m w).2))) → (∀ e, (m w).1 = Err e → Q (Err e, (l, (m w).2))) →
  Q ((on_port m ≫= k) (l, w)).
Proof.
  intros Hk He. unfold mbind, eff_bind, on_port. cbn [fst snd]. destruct (m w) as [[a|e] w1]; [by apply Hk|by apply He].
Qed.

Lemma holding_bind {W B} (Q : result exn B * (option (string * Z) * W) → Prop) run_id epoch
    (k : () → eff exn (option (string * Z) * W) B) l w :
  Q (k () (Some (run_id, epoch), w)) → Q ((holding run_id epoch ≫= k) (l, w)).
Proof. done. Qed.

Lemma check_bind {W A B} (Q : result exn B * (option (string * Z) * W) → Prop)
    (r : res A) (k : A → eff exn (option (string * Z) * W) B) lw :
  (∀ a, r = Ok a → Q (k a lw)) → (∀ e, Q (Err e, lw)) → Q ((from_result r ≫= k) lw).
Proof. intros Hk He. unfold mbind, eff_bind, from_result. destruct r; [by apply Hk|by apply He]. Qed.

(** The invariant of the [try]. *)
Definition trying (w : office) : Prop := fine (succeeded w) False w ∧ (length w.(of_results) ≤ 1)%nat.

Definition body_outcome (x : result exn () * (option (string * Z) * office)) : Prop :=
  trying x.2.2 ∧ ∀ e, x.1 = Err e → e = PermanentManagedRunError → failed_for_good x.2.2.

Lemma validated_command row ids :
  validate_start_command config (command_mapping key row) = Ok ids → ids.1.2 = id.
Proof.
  unfold validate_start_command. intros Hv. do 3 (apply result_bind_Ok in Hv as (? & _ & Hv)).
  apply result_bind_Ok in Hv as (command_id & Hid & Hv). do 7 (apply result_bind_Ok in Hv as (? & _ & Hv)).
  injection Hv as <-. unfold required_text in Hid. change (dict_get _ _) with (Some (JStr id)) in Hid.
  apply result_bind_Ok in Hid as (? & _ & Hid). by injection Hid.
Qed.

Lemma acknowledge_error t c w locked s e :
  ((λ _ : gset (string * string), acknowledge_command t c w) locked s).1 = Err e → e = ValueError.
Proof.
  unfold acknowledge_command, statement, tenant_scope, assert_result. repeat case_decide; cbn; try congruence;
    by destruct (owner_update _ _ _ _ _).
Qed.

Lemma step_control {A} (m : pyeff office A) w :
  fine (succeeded w) False (m w).2 ∧ (m w).2.(of_results) = w.(of_results) → (length w.(of_results) ≤ 1)%nat →
  trying (m w).2.
Proof. unfold trying, succeeded. intros [Hf ->] Hl. by split. Qed.

(** A transaction that keeps what is recorded, whatever its arguments. *)
Lemma neutral_fine {A : Type} (D F : Prop) (c : gset (string * string) → control_call)
    (m : gset (string * string) → pyeff control A) w :
  (∀ locked, allowed D F (c locked)) → (∀ locked s, (m locked s).2 = control_step (c locked) s) →
  fine D F w → fine D F (office_call m w).2 ∧ (office_call m w).2.(of_results) = w.(of_results).
Proof. intros Hc Hm. apply office_call_fine. intros locked s. by exists (c locked). Qed.

(** From an execution on. *)
Lemma executed_recorded command context recovery w :
  fine False False w → w.(of_results) = [] →
  let w1 := (office_ports.(wp_execute) command context recovery w).2 in
  trying w1 ∧ fine False False w1
  ∧ ∃ lost, w1.(of_results) = [((office_ports.(wp_execute) command context recovery w).1, lost)]
            ∧ office_ports.(wp_guard_lost) w1 = lost.
Proof.
  intros Hw Hnil. cbn [wp_execute wp_guard_lost office_ports]. destruct (next_fine False False w Hw) as [[Hh1 Hr1] Hres].
  destruct (office_next w) as [e w1]. cbn [fst snd of_results] in *. rewrite Hres, Hnil. cbn [app].
  split_and!; [split; [split; [done|]|done]| |by exists e.(oe_lost)].
  - eapply recorded_mono; [| |exact Hr1]; done.
  - by split.
Qed.

Lemma body_recorded row w :
  fine False False w → w.(of_results) = [] →
  body_outcome (handle_body config office_ports (command_mapping key row) (None, w)).
Proof.
  intros Hw Hnil.
  assert (∀ w1, fine False False w1 → w1.(of_results) = [] → ∀ (r : result exn ()) l, body_outcome (r, (l, w1))) as Hearly.
  { intros w1 [Hh Hr] Hnil1 r l. split; cbn [fst snd]; [|intros; by left]. split; [split; [done|]|by rewrite Hnil1; cbn; lia].
    by eapply recorded_mono; [| |exact Hr]. }
  unfold handle_body. apply check_bind; [|intros e; by apply Hearly].
  intros [[run_id command_id] expected] Hv. apply validated_command in Hv as Hid. cbn [fst snd] in Hid. subst command_id.
  assert (∀ r, fine False False (office_ports.(wp_acquire) r w).2 ∧ (office_ports.(wp_acquire) r w).2.(of_results) = []) as Hacq.
  { intros r. rewrite <- Hnil. by apply (neutral_fine _ _ (λ _, AcquireLease tenant r self config.(run_lease_ttl_seconds))). }
  destruct (Hacq run_id) as [Hw1 Hnil1]. set (w1 := (wp_acquire _ _ _).2) in *.
  apply call_bind; [|intros e _; by apply Hearly]. intros lease _. fold w1.
  apply check_bind; [|intros e; by apply Hearly]. intros epoch _.
  apply holding_bind. apply check_bind; [|intros e; by apply Hearly]. intros version _.
  apply check_bind; [|intros e; by apply Hearly]. intros _ _.
  apply check_bind; [|intros e; by apply Hearly]. intros expires _.
  apply check_bind; [|intros e; by apply Hearly]. intros context _.
  destruct (executed_recorded (command_mapping key row) context (bool_decide (expected < version)) w1 Hw1 Hnil1)
    as (Htry & Hw2 & lost & Hres & Hlost).
  set (w2 := (wp_execute _ _ _ _ w1).2) in *. apply call_bind; fold w2.
  { intros [] Hrun. rewrite Hrun in Hres. unfold raise_if_lost. destruct lost.
    - apply call_bind; rewrite Hlost; [done|]. intros e [= <-]. by split; [|intros ? [= <-]].
    - apply call_bind; rewrite Hlost; [|done]. intros _ _. cbn [snd].
      assert (trying (wp_acknowledge office_ports id w2).2) as Hack.
      { apply step_control; [|by destruct Htry].
        apply (neutral_fine _ _ (λ _, Acknowledge tenant id self)); [by intros _ _ _|done|by destruct Htry]. }
      apply call_bind.
      + intros [] _; cbn; (split; [done|]); [done|by intros ? [= <-]].
      + intros e He. split; [done|]. cbn [fst]. intros e' [= <-] ->.
        apply office_call_error in He as [?|(locked & s & He)]; [done|]. by apply (acknowledge_error _ _ _ locked) in He. }
  intros e He. split; [done|]. cbn [fst snd]. intros e' [= <-] ->. right. exists lost. by rewrite Hres, He.
Qed.

(** The [except] and the [finally]. *)
Lemma failure_recorded row e w :
  id ≠ "" → trying w → (e = PermanentManagedRunError → failed_for_good w) →
  let w1 := (handle_failure config office_ports message_of (command_mapping key row) e w).2 in
  fine (succeeded w1) (failed_for_good w1) w1 ∧ w1.(of_results) = w.(of_results).
Proof.
  intros Hid [[Hh Hr] _] Hgood w1. subst w1.
  assert (fine (succeeded w) (failed_for_good w) w) as Hw by (split; [done|by eapply recorded_mono; [| |exact Hr]]).
  unfold handle_failure. destruct (is_lease_lost e); [done|].
  change (dict_get "command_id" _) with (Some (JStr id)). cbv beta match zeta. rewrite decide_False by done.
  match goal with |- context [wp_fail office_ports id ?err ?retry ?delay] =>
    destruct (neutral_fine (succeeded w) (failed_for_good w) (λ _, FailCommand tenant id self err retry delay)
      (λ _, fail_command tenant id self err retry delay) w) as [Hf Hres]; [|done|done|] end.
  - intros _ _ _ Hperm. apply Hgood. by apply negb_false_iff, bool_decide_eq_true in Hperm.
  - unfold mbind, eff_bind. cbn [wp_fail office_ports]. destruct (office_call _ _) as [[b|e'] w1]; cbn [snd mret eff_ret] in *;
      (split; [|done]); unfold succeeded, failed_for_good; by rewrite Hres.
Qed.

End office.

(** ** Witness *)

#[local] Existing Instance plain_platform.

Definition demo_worker : ManagedWorkerConfig := {|
  wc_tenant_id := "acme"; wc_worker_id := "A"; wc_worker_pool := "default"; claim_limit := 1;
  command_visibility_timeout_seconds := 60; run_lease_ttl_seconds := 30; heartbeat_interval_seconds := f64 10;
  retry_delay_seconds := 5; capabilities := [] |}.
Definition demo_row : RunCommandRow := demo_command <| cm_payload_json := canonical_json (JObj
  [("run_id", JStr "run"); ("session_id", JStr "s"); ("turn_id", JStr "t"); ("actor_user_id", JStr "u")]) |>.
(** The rivals act before the acquisition and before the acknowledgement. *)
Definition demo_event : office_event :=
  {| oe_others := demo_rivals; oe_locked := ∅; oe_sql := Answered; oe_outcome := Ok (); oe_lost := false |}.
Definition demo_office : office := {|
  of_control := demo_control <| ct_commands := {[("acme", "start-1") := demo_row]} |>;
  of_future := [demo_event; calm; demo_event]; of_results := []; of_stopped := false |}.
Definition demo_handled : office :=
  (handle_command demo_worker (office_ports demo_worker) exn_name (command_mapping ("acme", "start-1") demo_row) demo_office).2.

Lemma demo_done :
  from_option (λ r, (cm_status r, cm_attempt_count r)) (Queued, 0) (demo_handled.(of_control).(ct_commands) !! ("acme", "start-1"))
  = (Done, 1).
Proof. by vm_compute. Qed.

