(* ===== verification/RedisActiveIndex.v ===== *)
(** * RedisActiveIndex: the index of non-terminal runs in Redis

    production/redis_active_index.py: a sorted set per tenant whose members order the
    active runs by time, a marker in it that says that the index is complete, and one text
    per run that holds its newest state. The Lua scripts write a state only if it is not
    older than what is stored and keep the set in step; the reader returns a page only if
    every member it selects has exactly its canonical state.

    A datetime is its number of microseconds since the epoch. The JSON decoder of Redis'
    Lua is a parameter. *)

From S2P Require Import Prelude Text Domain Platform Json Datetime Rollout Effects Decimal Redis ShadowProjection RedisShadow.

#[local] Open Scope Z_scope.

Definition ACTIVE_RUN_INDEX_MAX_PAGE_SIZE : Z := 1000.
Definition ACTIVE_INDEX_SHARD : string := "00".
Definition READY_MARKER : string := "!ready:v1".

(** ** Members *)

(** [_index_member(updated_at, run_id)]. *)
Definition index_member (updated_at : datetime) (run_id : string) : res string :=
  projection_key "validation" "validation" run_id;;
  assert_result (0 ≤ updated_at < 10 ^ 20) ValueError;;
  mret (pad 20 updated_at +:+ ":" +:+ run_id).

(** [active_run_cursor]. *)
Definition active_run_cursor : datetime → string → res string := index_member.

(** [parse_active_run_cursor] of a text. *)
Definition parse_active_run_cursor (text : string) : res (datetime * string) :=
  let protocol := ActiveRunIndexProtocolError in
  assert_result (¬ char_length text < 22 ∧ String.get 20 text = Some ":"%char) protocol;;
  let timestamp_text := str_take 20 text in
  assert_result (all_chars decimal_digit timestamp_text = true) protocol;;
  let run_id := str_drop 21 text in
  let updated_at := digits_value 0 timestamp_text in
  assert_result (updated_at ≤ datetime_max) protocol;;
  match index_member updated_at run_id with
  | Err _ => Err protocol
  | Ok expected => assert_result (expected = text) protocol;; mret (updated_at, run_id)
  end.

(** ** Entries and pages *)

Record ActiveRunIndexEntry := {
  ent_tenant_id : string;
  ent_run_id : string;
  ent_stream_version : Z;
  ent_execution_status : ExecutionStatus.t;
  ent_phase : option string;
  ent_last_event_seq : Z;
  ent_updated_at : datetime;
  ent_index_member : string;
}.

(** [ActiveRunIndexEntry.__post_init__]. *)
Definition entry_valid (e : ActiveRunIndexEntry) : res unit :=
  assert_result (e.(ent_execution_status) ∉ TERMINAL_EXECUTION_STATUSES) ValueError;;
  assert_result (0 ≤ e.(ent_stream_version)) ValueError;;
  assert_result (e.(ent_last_event_seq) = e.(ent_stream_version)) ValueError;;
  assert_result (e.(ent_phase) ≠ Some "") ValueError;;
  expected ← index_member e.(ent_updated_at) e.(ent_run_id);
  assert_result (e.(ent_index_member) = expected) ValueError.

Record ActiveRunIndexPage := {
  items : list ActiveRunIndexEntry;
  next_after_member : option string;
}.

(** [ActiveRunIndexPage(...)] with its [__post_init__]. *)
Definition ActiveRunIndexPage_init (items : list ActiveRunIndexEntry) (next_after_member : option string)
    : res ActiveRunIndexPage :=
  match next_after_member with
  | None => mret ()
  | Some m =>
      parse_active_run_cursor m;;
      assert_result (ent_index_member <$> last items = Some m) ValueError
  end;;
  mret {| items := items; next_after_member := next_after_member |}.

(** [run_ids]. *)
Definition run_ids (p : ActiveRunIndexPage) : list string := map ent_run_id p.(items).

(** ** Keys *)

Section keys.
Context `{Platform}.

(** The part of the keys that places them in one slot. *)
Definition index_slot (environment tenant_id : string) : string :=
  "fr:" +:+ environment +:+ ":v" +:+ int_str SHADOW_PROJECTION_SCHEMA_VERSION +:+ ":{active:"
  +:+ sha256_text tenant_id +:+ ":" +:+ ACTIVE_INDEX_SHARD +:+ "}".

(** [active_run_index_key]. *)
Definition active_run_index_key (environment tenant_id : string) : res string :=
  projection_key environment tenant_id "validation";;
  mret (index_slot environment tenant_id +:+ ":runs").

(** [active_run_state_key]: the index key without [:runs], and the digest of the run. *)
Definition active_run_state_key (environment tenant_id run_id : string) : res string :=
  index_key ← active_run_index_key environment tenant_id;
  projection_key environment tenant_id run_id;;
  mret (str_take (String.length index_key - String.length ":runs") index_key
        +:+ ":state:" +:+ sha256_text run_id).

(** ** State records *)

(** The fields of a record but its digest. *)
Definition state_base (s : ShadowProjectionSnapshot) (member : string) : list (string * string) :=
  [("execution_status", value s.(sn_execution_status)); ("index_member", member);
   ("last_event_seq", int_str s.(sn_last_event_seq)); ("phase", default "" s.(sn_phase));
   ("run_id", s.(sn_run_id)); ("schema_version", int_str SHADOW_PROJECTION_SCHEMA_VERSION);
   ("stream_version", int_str s.(sn_stream_version)); ("tenant_id", s.(sn_tenant_id));
   ("updated_at", isoformat_us_z s.(sn_updated_at))].

(** A JSON object of texts. *)
Definition text_object (fields : list (string * string)) : json := JObj (map (λ kv, (kv.1, JStr kv.2)) fields).

(** [_state_record(snapshot, index_member)]: the record and its digest. *)
Definition state_record (s : ShadowProjectionSnapshot) (member : string) : string * string :=
  let base := state_base s member in
  let canonical_hash := sha256_text (canonical_json (text_object base)) in
  (canonical_json (text_object (("canonical_sha256", canonical_hash) :: base)), canonical_hash).
End keys.

(** ** The scripts *)

(** A value of a decoded table; [LuaNumber] carries its text and its integral part. *)
Inductive lua_value :=
| LuaString (s : string)
| LuaNumber (text : string) (truncated : Z)
| LuaFalse
| LuaOther.

(** [cjson.decode]: the fields of the table, [None] if the text is not JSON or no object. *)
Class Cjson := cjson_decode : string → option (gmap string lua_value).

Definition lua_value_eq_dec : EqDecision lua_value.
Proof. solve_decision. Defined.
#[global] Existing Instance lua_value_eq_dec.

Section scripts.
Context `{Redis} `{Cjson}.

(** [is_canonical_decimal] of a field: the string functions read a number as its text, and
    fail on anything else but nil and false. *)
Definition canonical_field (v : option lua_value) : lua bool :=
  match v with
  | None | Some LuaFalse => mret false
  | Some (LuaString s) | Some (LuaNumber s _) => mret (is_canonical_decimal s)
  | Some LuaOther => fail "bad argument to 'match'"
  end.

(** [compare_decimal(incoming, stored)]: a text is not compared with a number. *)
Definition compare_field (incoming : string) (v : lua_value) : lua comparison :=
  match v with
  | LuaString s => mret (compare_decimal incoming s)
  | LuaNumber s _ =>
      if decide (String.length incoming = String.length s)
      then fail "attempt to compare string with number"
      else mret (compare_decimal incoming s)
  | _ => fail "attempt to get length"
  end.

(** A field in a reply: Redis truncates a number. *)
Definition reply_field (v : lua_value) : reply :=
  match v with
  | LuaString s => RBulk s
  | LuaNumber _ n => RInt n
  | LuaFalse | LuaOther => RNil
  end.

Record index_arguments := {
  ia_version : string;
  ia_hash : string;
  ia_record : string;
  ia_member : string;
  ia_indexed : bool;
  ia_ttl : string;
  ia_tenant_id : string;
  ia_run_id : string;
  ia_schema : string;
}.

(** [apply_membership(old_member)]. *)
Definition apply_membership (index_key state_key : string) (a : index_arguments) (old_member : string)
    : lua unit :=
  (if decide (old_member = "") then mret () else redis_call ["ZREM"; index_key; old_member];; mret ());;
  if a.(ia_indexed) then
    redis_call ["ZADD"; index_key; "0"; a.(ia_member)];;
    redis_call ["SET"; state_key; a.(ia_record)];;
    mret ()
  else
    redis_call ["ZREM"; index_key; a.(ia_member)];;
    redis_call ["SET"; state_key; a.(ia_record); "EX"; a.(ia_ttl)];;
    mret ().

(** Put the stored member back into the set, or take the incoming one out. *)
Definition reapply_membership (index_key : string) (a : index_arguments) (stored_member : string) : lua unit :=
  if decide (stored_member = "") then redis_call ["ZREM"; index_key; a.(ia_member)];; mret ()
  else redis_call ["ZADD"; index_key; "0"; stored_member];; mret ().

Definition protocol_status (detail : string) : reply := RArray [RBulk "protocol"; RBulk detail].

(** [REDIS_ACTIVE_INDEX_CAS_LUA]. *)
Definition active_index_cas (index_key state_key : string) (a : index_arguments) : lua reply :=
  if negb (is_canonical_decimal a.(ia_version)) then mret (protocol_status "incoming-version")
  else
    stored_json ← redis_call ["GET"; state_key];
    match reply_text stored_json with
    | None =>
        apply_membership index_key state_key a "";;
        mret (RArray [RBulk (value ProjectionWriteStatus.APPLIED); RBulk a.(ia_version)])
    | Some text =>
        match cjson_decode text with
        | None => mret (protocol_status "stored-state")
        | Some stored =>
            canonical ← canonical_field (stored !! "stream_version");
            match stored !! "stream_version", stored !! "canonical_sha256", stored !! "index_member" with
            | Some version, Some (LuaString digest), Some (LuaString member) =>
                if negb (canonical
                         && bool_decide (stored !! "tenant_id" = Some (LuaString a.(ia_tenant_id)))
                         && bool_decide (stored !! "run_id" = Some (LuaString a.(ia_run_id)))
                         && bool_decide (stored !! "schema_version" = Some (LuaString a.(ia_schema))))
                then mret (protocol_status "stored-state")
                else
                  ordering ← compare_field a.(ia_version) version;
                  match ordering with
                  | Lt =>
                      reapply_membership index_key a member;;
                      mret (RArray [RBulk (value ProjectionWriteStatus.STALE); reply_field version])
                  | Eq =>
                      if decide (digest = a.(ia_hash)) then
                        reapply_membership index_key a member;;
                        mret (RArray [RBulk (value ProjectionWriteStatus.DUPLICATE); reply_field version])
                      else mret (RArray [RBulk (value ProjectionWriteStatus.CONFLICT); reply_field version])
                  | Gt =>
                      apply_membership index_key state_key a member;;
                      mret (RArray [RBulk (value ProjectionWriteStatus.APPLIED); RBulk a.(ia_version)])
                  end
            | _, _, _ => mret (protocol_status "stored-state")
            end
        end
    end.

(** [REDIS_ACTIVE_INDEX_READ_LUA]. *)
Definition active_index_read (index_key marker maximum limit : string) : lua reply :=
  present ← redis_call ["EXISTS"; index_key];
  match present with
  | RInt 0 => mret (RArray [RBulk "missing"])
  | _ =>
      marker_score ← redis_call ["ZSCORE"; index_key; marker];
      match reply_text marker_score with
      | None => mret (RArray [RBulk "missing"])
      | Some score =>
          if decide (score = "0") then
            members ← redis_call ["ZREVRANGEBYLEX"; index_key; maximum; "-"; "LIMIT"; "0"; limit];
            mret (RArray (RBulk "ready" :: match members with
                                          | RArray l => filter (λ r, reply_text r ≠ Some marker) l
                                          | _ => []
                                          end))
          else mret (protocol_status "ready-marker")
      end
  end.

(** [REDIS_ACTIVE_INDEX_READY_LUA] and [REDIS_ACTIVE_INDEX_RESET_LUA]. *)
Definition active_index_ready (index_key marker : string) : lua reply := redis_call ["ZADD"; index_key; "0"; marker].
Definition active_index_reset_script (index_key : string) : lua reply := redis_call ["DEL"; index_key].
End scripts.

(** ** Parsing what comes back *)

(** [_decode_text(value, field)]. *)
Definition decode_text (r : reply) : res string :=
  match r with
  | RBulk s | RStatus s => assert_result (utf8_valid s = true) ActiveRunIndexProtocolError;; mret s
  | _ => Err ActiveRunIndexProtocolError
  end.

(** [_parse_decimal(value)]. *)
Definition parse_decimal (s : string) : res Z := result_of_option ActiveRunIndexProtocolError (canonical_decimal s).

(** [_parse_write_response]. *)
Definition parse_index_response (response : reply) (incoming : Z) : res ProjectionWriteResult :=
  match response with
  | RArray [r0; r1] =>
      status_text ← decode_text r0;
      version_text ← decode_text r1;
      if decide (status_text = "protocol") then Err ActiveRunIndexProtocolError
      else
        status ← result_of_option ActiveRunIndexProtocolError
                   (of_value (A := ProjectionWriteStatus.t) status_text);
        stored ← parse_decimal version_text;
        assert_result (consistent status incoming stored) ActiveRunIndexProtocolError;;
        ProjectionWriteResult_init {| pw_status := status; incoming_version := incoming;
                                      stored_version := stored |}
  | _ => Err ActiveRunIndexProtocolError
  end.

(** [[f(x) for x in l]] of a function that may raise. *)
Fixpoint map_res {A B} (f : A → res B) (l : list A) : res (list B) :=
  match l with
  | [] => Ok []
  | a :: l' => b ← f a; bs ← map_res f l'; mret (b :: bs)
  end.

(** [_parse_read_response]: the members, [None] if the index is missing. *)
Definition parse_read_response (response : reply) : res (option (list string)) :=
  match response with
  | RArray (r0 :: rest) =>
      status ← decode_text r0;
      if decide (status = "missing" ∧ length rest = 0%nat) then mret None
      else if decide (status = "protocol") then Err ActiveRunIndexProtocolError
      else
        assert_result (status = "ready") ActiveRunIndexProtocolError;;
        members ← map_res decode_text rest;
        assert_result (NoDup members) ActiveRunIndexProtocolError;;
        map_res parse_active_run_cursor members;;
        mret (Some members)
  | _ => Err ActiveRunIndexProtocolError
  end.

(** [_validate_state_response]: as many texts as members. *)
Definition validate_state_response (response : reply) (expected : nat) : res (list reply) :=
  match response with
  | RArray l =>
      assert_result (length l = expected) ActiveRunIndexProtocolError;;
      assert_result (forallb (λ r, match r with RNil => false | _ => true end) l = true)
        ActiveRunIndexProtocolError;;
      mret l
  | _ => Err ActiveRunIndexProtocolError
  end.

(** The values of an object whose values are all texts. *)
Fixpoint all_texts (l : list (string * json)) : option (list (string * string)) :=
  match l with
  | [] => Some []
  | (k, JStr v) :: l' => cons (k, v) <$> all_texts l'
  | _ => None
  end.

Definition STATE_FIELDS : gset string :=
  {["canonical_sha256"; "execution_status"; "index_member"; "last_event_seq"; "phase"; "run_id";
    "schema_version"; "stream_version"; "tenant_id"; "updated_at"]}.

Section reader.
Context `{Redis} `{Platform} `{Signing} `{Cjson}.

(** [_parse_utc_timestamp(value)], which also checks the canonical text. *)
Definition parse_index_timestamp (text : string) : res datetime :=
  parsed ← parse_utc_timestamp ActiveRunIndexProtocolError text;
  assert_result (isoformat_us_z parsed = text) ActiveRunIndexProtocolError;;
  mret parsed.

(** [_parse_state(raw_state, tenant_id, expected_member)]. A duplicate field is found by the
    comparison with the canonical encoding, with the same error. *)
Definition parse_state (raw_state : reply) (tenant_id expected_member : string) : res ActiveRunIndexEntry :=
  let protocol := ActiveRunIndexProtocolError in
  encoded ← result_of_option protocol (reply_text raw_state);
  assert_result (utf8_valid encoded = true) protocol;;
  fields ← result_of_option protocol (
    match json_loads encoded with Some (JObj l) => all_texts l | _ => None end);
  let value_of f := default "" (dict_get f fields) in
  assert_result (list_to_set fields.*1 = STATE_FIELDS) protocol;;
  assert_result (value_of "schema_version" = int_str SHADOW_PROJECTION_SCHEMA_VERSION) protocol;;
  assert_result (value_of "tenant_id" = tenant_id) protocol;;
  assert_result (value_of "index_member" = expected_member) protocol;;
  stream_version ← parse_decimal (value_of "stream_version");
  last_event_seq ← parse_decimal (value_of "last_event_seq");
  assert_result (last_event_seq = stream_version) protocol;;
  updated_at ← parse_index_timestamp (value_of "updated_at");
  status ← result_of_option protocol (of_value (A := ExecutionStatus.t) (value_of "execution_status"));
  assert_result (status ∉ TERMINAL_EXECUTION_STATUSES) protocol;;
  let entry := {|
    ent_tenant_id := tenant_id; ent_run_id := value_of "run_id"; ent_stream_version := stream_version;
    ent_execution_status := status;
    ent_phase := if decide (value_of "phase" = "") then None else Some (value_of "phase");
    ent_last_event_seq := last_event_seq; ent_updated_at := updated_at;
    ent_index_member := expected_member |} in
  entry_valid entry;;
  let base := filter (λ kv : string * string, kv.1 ≠ "canonical_sha256") fields in
  assert_result (value_of "canonical_sha256" = sha256_text (canonical_json (text_object base))) protocol;;
  assert_result (encoded = canonical_json (text_object fields)) protocol;;
  mret entry.

(** ** [RedisActiveRunIndex] *)

Context (environment : string) (surroundings : server → server) (d : delivery).

(** A call of the client whose RedisError is an ActiveRunIndexUnavailableError. *)
Definition index_call (script : lua reply) : pyeff server reply :=
  answer ← attempt (eval surroundings d script);
  match answer with
  | Ok r => mret r
  | Err _ => fail ActiveRunIndexUnavailableError
  end.

(** The answers that [mark_ready] and [reset_index] accept. *)
Definition zero_or_one (r : reply) : res unit :=
  match r with
  | RInt n => assert_result (n = 0 ∨ n = 1) ActiveRunIndexProtocolError
  | _ => Err ActiveRunIndexProtocolError
  end.

(** [mark_ready(tenant_id)]. *)
Definition index_mark_ready (tenant_id : string) : pyeff server unit :=
  key ← from_result (active_run_index_key environment tenant_id);
  response ← index_call (active_index_ready key READY_MARKER);
  from_result (zero_or_one response).

(** [reset_index(tenant_id)]. *)
Definition index_reset (tenant_id : string) : pyeff server unit :=
  key ← from_result (active_run_index_key environment tenant_id);
  response ← index_call (active_index_reset_script key);
  from_result (zero_or_one response).

(** [write_snapshot(snapshot, terminal_ttl_seconds)]. *)
Definition index_write_snapshot (s : ShadowProjectionSnapshot) (terminal_ttl_seconds : Z)
    : pyeff server ProjectionWriteResult :=
  from_result (assert_result (0 < terminal_ttl_seconds) ValueError);;
  index_key ← from_result (active_run_index_key environment s.(sn_tenant_id));
  state_key ← from_result (active_run_state_key environment s.(sn_tenant_id) s.(sn_run_id));
  let is_indexed := negb (is_terminal s) in
  member ← from_result (if is_indexed then index_member s.(sn_updated_at) s.(sn_run_id) else mret "");
  let '(record, canonical_hash) := state_record s member in
  response ← index_call (active_index_cas index_key state_key {|
    ia_version := int_str s.(sn_stream_version); ia_hash := canonical_hash; ia_record := record;
    ia_member := member; ia_indexed := is_indexed; ia_ttl := int_str terminal_ttl_seconds;
    ia_tenant_id := s.(sn_tenant_id); ia_run_id := s.(sn_run_id);
    ia_schema := int_str SHADOW_PROJECTION_SCHEMA_VERSION |});
  from_result (parse_index_response response s.(sn_stream_version)).

(** The state keys of the members. *)
Definition state_keys (tenant_id : string) (members : list string) : res (list string) :=
  map_res (λ member,
    cursor ← parse_active_run_cursor member;
    active_run_state_key environment tenant_id cursor.2) members.

(** The states of the selected members: two requests, between which the server may change. *)
Definition read_states (tenant_id : string) (members : list string) : pyeff server (list reply) :=
  keys ← from_result (state_keys tenant_id members);
  match keys with
  | [] => mret []
  | _ =>
      response ← index_call (redis_call ("MGET" :: keys));
      from_result (validate_state_response response (length members))
  end.

(** [[_parse_state(raw_state, ...) for member, raw_state in zip(selected, states)]]. *)
Fixpoint parse_states (tenant_id : string) (members : list string) (states : list reply)
    : res (list ActiveRunIndexEntry) :=
  match members, states with
  | m :: members', r :: states' =>
      entry ← parse_state r tenant_id m;
      entries ← parse_states tenant_id members' states';
      mret (entry :: entries)
  | _, _ => Ok []
  end.

(** The page of the entries that were read, one more than the limit if there are more. *)
Definition page_of (entries : list ActiveRunIndexEntry) (limit : Z) : res ActiveRunIndexPage :=
  let page_entries := take (Z.to_nat limit) entries in
  ActiveRunIndexPage_init page_entries
    (if decide (limit < Z.of_nat (length entries)) then ent_index_member <$> last page_entries else None).

(** [read_page(tenant_id, after_member, limit)]. *)
Definition read_page (tenant_id : string) (after_member : option string) (limit : Z)
    : pyeff server (option ActiveRunIndexPage) :=
  from_result (assert_result (1 ≤ limit ≤ ACTIVE_RUN_INDEX_MAX_PAGE_SIZE) ValueError);;
  index_key ← from_result (active_run_index_key environment tenant_id);
  maximum ← from_result (
    match after_member with
    | None => mret "+"
    | Some m => parse_active_run_cursor m;; mret ("(" +:+ m)
    end);
  response ← index_call (active_index_read index_key READY_MARKER maximum (int_str (limit + 1)));
  parsed ← from_result (parse_read_response response);
  match parsed with
  | None => mret None
  | Some members =>
      from_result (assert_result (Z.of_nat (length members) ≤ limit + 1) ActiveRunIndexProtocolError);;
      states ← read_states tenant_id members;
      entries ← from_result (parse_states tenant_id members states);
      page ← from_result (page_of entries limit);
      mret (Some page)
  end.
End reader.
