(* ===== verification/IndexCodec.v ===== *)
(** * IndexCodec: characters, members and states of the active index

    A text is UTF-8 if it is a sequence of characters ([utf8_valid_chars]); so concatenation,
    JSON's escaping and the canonical text of an object of texts keep it UTF-8. A member of
    the index determines its time and run, and a state record its snapshot. *)

From S2P Require Import Prelude Text Domain Platform Json Datetime Rollout Effects Decimal Redis.
From S2P Require Import ShadowProjection RedisShadow ShadowSafety RedisActiveIndex.
From Stdlib Require Import Lia.

(** One character. *)
Definition utf8_char (c : string) : Prop := c ≠ "" ∧ utf8_head c = (true, String.length c).

Inductive utf8_chars : string → Prop :=
| utf8_nil : utf8_chars ""
| utf8_cons c s : utf8_char c → utf8_chars s → utf8_chars (c +:+ s).

Lemma conts_app n s t : conts n s = n → conts n (s +:+ t) = n.
Proof.
  revert s. induction n as [|n IH]; intros [|a s]; simpl; try done.
  destruct (cont a); [|done]. intros [= Hs]. by rewrite IH.
Qed.

Lemma conts_le n s : (conts n s ≤ n ∧ conts n s ≤ String.length s)%nat.
Proof.
  revert s. induction n as [|n IH]; intros [|a s]; simpl; try lia. destruct (cont a); [|lia].
  specialize (IH s). lia.
Qed.

Lemma conts_take n s : conts n s = n → conts n (str_take n s) = n ∧ String.length (str_take n s) = n.
Proof.
  revert s. induction n as [|n IH]; intros [|a s]; simpl; try done.
  destruct (cont a); [|done]. intros [= Hs]. destruct (IH s Hs) as [-> ->]. done.
Qed.

Lemma utf8_head_app c t : utf8_char c → utf8_head (c +:+ t) = (true, String.length c).
Proof.
  intros [Hne Hc]. destruct c as [|a c]; [done|]. rewrite str_app_cons. cbn [utf8_head] in *.
  destruct (byte_in 0 127 a); [done|]. destruct (utf8_lead a) as [[[n lo] hi]|]; [|done].
  destruct c as [|b c]; [done|]. rewrite str_app_cons. destruct (byte_in _ _ b); [|done].
  injection Hc as Hk Hl. rewrite bool_decide_eq_true in Hk. rewrite conts_app by done.
  by rewrite bool_decide_eq_true_2 by done; rewrite <- Hk, Hl.
Qed.

(** The first character of a text. *)
Lemma utf8_head_char s w :
  utf8_head s = (true, w) → utf8_char (str_take w s) ∧ (0 < w ≤ String.length s)%nat ∧ s = str_take w s +:+ str_drop w s.
Proof.
  intros Hs. assert (∀ n t, (n ≤ String.length t)%nat → t = str_take n t +:+ str_drop n t) as Hsplit.
  { clear. induction n as [|n IH]; intros [|a t]; simpl; intros; try done. by rewrite <- IH by lia. }
  destruct s as [|a s]; [done|]. cbn [utf8_head] in Hs. destruct (byte_in 0 127 a) eqn:Ha.
  - injection Hs as <-. split; [|split; [simpl; lia|apply (Hsplit 1%nat); simpl; lia]].
    split; [done|]. simpl. destruct s; by rewrite Ha.
  - destruct (utf8_lead a) as [[[n lo] hi]|] eqn:Hlead; [|done]. destruct s as [|b s]; [done|].
    destruct (byte_in _ _ b) eqn:Hb; [|done]. injection Hs as Hk <-.
    rewrite bool_decide_eq_true in Hk. pose proof (conts_le (n - 1) s) as Hle.
    rewrite Hk in *. split; [|split; [simpl; lia|apply Hsplit; simpl; lia]].
    split; [done|]. cbn [str_take Nat.add utf8_head]. rewrite Ha, Hlead, Hb.
    destruct (conts_take (n - 1) s Hk) as [-> Hl]. simpl. rewrite Hl. by rewrite bool_decide_eq_true_2.
Qed.

Lemma str_drop_take_length w s : (w ≤ String.length s)%nat → String.length (str_drop w s) = (String.length s - w)%nat.
Proof. revert w. induction s as [|a s IH]; intros [|w]; simpl; intros; try lia. apply IH. lia. Qed.

Lemma utf8_valid_fuel_chars fuel s :
  (String.length s ≤ fuel)%nat → utf8_valid_fuel fuel s = true ↔ utf8_chars s.
Proof.
  revert s. induction fuel as [|fuel IH]; intros s Hs.
  - destruct s; [|simpl in Hs; lia]. simpl. split; [constructor|done].
  - destruct s as [|a s]; [split; [constructor|done]|].
    change (utf8_valid_fuel (S fuel) (String a s))
      with (let '(ok, w) := utf8_head (String a s) in ok && utf8_valid_fuel fuel (str_drop w (String a s))).
    split.
    + destruct (utf8_head (String a s)) as [[] w] eqn:Hh; [|done]. cbn [andb]. intros Hv.
      apply utf8_head_char in Hh as (Hc & Hw & Heq). rewrite Heq. constructor; [done|].
      apply IH; [|done]. rewrite str_drop_take_length; lia.
    + intros Hc. inversion Hc as [|c t Hchar Ht Heq]. rewrite (utf8_head_app c t Hchar). cbn [andb].
      apply IH.
      * assert (String.length c ≤ String.length (c +:+ t))%nat by (rewrite str_length_app; lia).
        rewrite Heq in *. rewrite str_drop_take_length by done. destruct Hchar as [Hne _].
        destruct c; [done|]. simpl in *. lia.
      * assert (∀ u v, str_drop (String.length u) (u +:+ v) = v) as Hdrop
          by (clear; induction u; intros; simpl; [by destruct v|done]).
        by rewrite Hdrop.
Qed.

Lemma utf8_valid_chars s : utf8_valid s = true ↔ utf8_chars s.
Proof. by apply utf8_valid_fuel_chars. Qed.

Lemma utf8_app s t : utf8_valid s = true → utf8_valid t = true → utf8_valid (s +:+ t) = true.
Proof.
  rewrite !utf8_valid_chars. intros Hs Ht. induction Hs as [|c s Hc _ IH]; [done|].
  rewrite str_app_assoc. by constructor.
Qed.

Lemma escape_app s t : escape (s +:+ t) = escape s +:+ escape t.
Proof.
  induction s as [|a s IH]; [done|]. rewrite str_app_cons. cbn [escape]. by rewrite IH, str_app_assoc.
Qed.

Lemma escape_char_ascii a : byte_in 0 127 a = true → is_ascii (escape_char a) = true.
Proof.
  destruct a as [[] [] [] [] [] [] [] []]; vm_compute; done.
Qed.

Lemma escape_char_high a : byte_in 0 127 a = false → escape_char a = String a "".
Proof.
  destruct a as [[] [] [] [] [] [] [] []]; vm_compute; done.
Qed.

Lemma cont_high a : cont a = true → byte_in 0 127 a = false.
Proof. destruct a as [[] [] [] [] [] [] [] []]; vm_compute; done. Qed.

Lemma cont_no_lead a : cont a = true → utf8_lead a = None.
Proof.
  unfold cont, utf8_lead, byte_in. rewrite andb_true_iff, !Nat.leb_le. intros Ha.
  repeat match goal with
  | |- context [if ?b then _ else _] =>
      let Hb := fresh in destruct b eqn:Hb; [rewrite andb_true_iff, !Nat.leb_le in Hb; simpl in *; lia|]
  end. done.
Qed.

Lemma range_high a n lo hi b :
  utf8_lead a = Some (n, lo, hi) → byte_in (nat_of_ascii lo) (nat_of_ascii hi) b = true → byte_in 0 127 b = false.
Proof.
  intros Hl Hb. assert (128 ≤ nat_of_ascii lo)%nat as Hlo.
  { unfold utf8_lead in Hl. repeat (case_match; [injection Hl as _ <- _; vm_compute; lia|]). done. }
  unfold byte_in in *. rewrite andb_true_iff, !Nat.leb_le in Hb. rewrite andb_false_iff, !Nat.leb_gt. lia.
Qed.

Lemma escape_high s : all_chars (λ a, negb (byte_in 0 127 a)) s = true → escape s = s.
Proof.
  induction s as [|a s IH]; [done|]. cbn [all_chars escape]. rewrite andb_true_iff, negb_true_iff.
  intros [Ha Hs]. rewrite escape_char_high, IH by done. done.
Qed.

Lemma conts_all n s : conts n s = n → String.length s = n → all_chars (λ a, negb (byte_in 0 127 a)) s = true.
Proof.
  revert s. induction n as [|n IH]; intros [|a s]; simpl; try done.
  destruct (cont a) eqn:Ha; [|done]. intros [= Hc] [= Hl]. rewrite cont_high by done. by apply IH.
Qed.

Lemma escape_utf8_char c : utf8_char c → utf8_valid (escape c) = true.
Proof.
  intros [Hne Hc]. destruct c as [|a c]; [done|]. cbn [utf8_head] in Hc. destruct (byte_in 0 127 a) eqn:Ha.
  - injection Hc as Hl. destruct c; [|simpl in Hl; lia]. cbn [escape]. rewrite str_app_nil_r.
    by apply ascii_utf8, escape_char_ascii.
  - rewrite escape_high.
    + apply utf8_valid_chars. rewrite <- (str_app_nil_r (String a c)). constructor; [|constructor].
      split; [done|]. cbn [utf8_head]. by rewrite Ha.
    + destruct (utf8_lead a) as [[[n lo] hi]|] eqn:Hlead; [|done]. destruct c as [|b c]; [done|].
      destruct (byte_in (nat_of_ascii lo) (nat_of_ascii hi) b) eqn:Hb; [|done].
      injection Hc as Hk Hl. rewrite bool_decide_eq_true in Hk. cbn [all_chars].
      rewrite Ha, (range_high a n lo hi b) by done. cbn [negb andb].
      apply (conts_all (n - 1)); [done|]. simpl in Hl. lia.
Qed.

Lemma escape_utf8 s : utf8_valid s = true → utf8_valid (escape s) = true.
Proof.
  rewrite utf8_valid_chars. induction 1 as [|c s Hc _ IH]; [done|].
  rewrite escape_app. apply utf8_app; [by apply escape_utf8_char|done].
Qed.

Lemma json_str_utf8 s : utf8_valid s = true → utf8_valid (json_str s) = true.
Proof.
  intros Hs. unfold json_str. change (String quote_char (escape s +:+ String quote_char ""))
    with (String quote_char "" +:+ (escape s +:+ String quote_char "")).
  apply utf8_app; [done|]. apply utf8_app; [by apply escape_utf8|done].
Qed.

Lemma join_utf8 l : Forall (λ s, utf8_valid s = true) l → utf8_valid (join "," l) = true.
Proof.
  induction 1 as [|s l Hs Hl IH]; [done|]. destruct l as [|t l]; [done|].
  change (utf8_valid (s +:+ "," +:+ join "," (t :: l)) = true).
  apply utf8_app; [done|]. by apply utf8_app.
Qed.

(** The canonical text of an object of texts. *)
Lemma text_object_utf8 `{Platform} l :
  Forall (λ kv, utf8_valid kv.1 = true ∧ utf8_valid kv.2 = true) l →
  utf8_valid (canonical_json (text_object l)) = true.
Proof.
  intros Hl. unfold text_object. cbn [canonical_json]. rewrite map_map. cbn [fst snd].
  change (utf8_valid ("{" +:+ join "," (map (λ kv, json_str kv.1 +:+ ":" +:+ kv.2)
    (sort_keys (map (λ kv : string * string, (kv.1, canonical_json (JStr kv.2))) l))) +:+ "}") = true).
  apply utf8_app; [done|]. apply utf8_app; [|done]. apply join_utf8.
  apply Forall_map. rewrite sort_keys_perm. apply Forall_map. eapply Forall_impl; [exact Hl|].
  intros [k v] [Hk Hv]. cbn [fst snd canonical_json] in *.
  apply utf8_app; [by apply json_str_utf8|]. apply utf8_app; [done|]. by apply json_str_utf8.
Qed.

(** ** Members and states of the active index

    A member of the index determines the time and the run of its entry and is read back; the
    order of members is the order of times, then of runs. The record of a snapshot is read
    back by Lua's decoder and by the reader, which accepts it only for its own tenant, its
    own member and a run that is not terminal. *)

#[local] Open Scope Z_scope.

(** ** Members *)

Definition member_text (t : datetime) (r : string) : string := pad 20 t +:+ ":" +:+ r.

(** A snapshot that can be indexed: its time is not before the epoch. *)
Definition index_ok (s : ShadowProjectionSnapshot) : Prop := snapshot_ok s ∧ 0 ≤ s.(sn_updated_at).

(** The member of a snapshot; none if it is terminal. *)
Definition member_of (s : ShadowProjectionSnapshot) : string :=
  if is_terminal s then "" else member_text s.(sn_updated_at) s.(sn_run_id).

Lemma validation_key r :
  shadow_identity r = Ok () →
  projection_key "validation" "validation" r = Ok (key_text "validation" "validation" r).
Proof. intros Hr. by apply projection_key_eq. Qed.

Lemma datetime_max_digits t : 0 ≤ t ≤ datetime_max → 0 ≤ t < 10 ^ 20.
Proof. unfold datetime_max, days, hours, minutes, seconds. intros Ht. change (10 ^ 20) with 100000000000000000000. lia. Qed.

Lemma index_member_eq t r :
  shadow_identity r = Ok () → 0 ≤ t < 10 ^ 20 → index_member t r = Ok (member_text t r).
Proof. intros Hr Ht. unfold index_member. rewrite validation_key by done. cbn [mbind result_bind]. by rewrite assert_ok. Qed.

Lemma index_member_Ok t r m :
  index_member t r = Ok m → m = member_text t r ∧ shadow_identity r = Ok () ∧ 0 ≤ t < 10 ^ 20.
Proof.
  unfold index_member. intros Hm. apply result_bind_Ok in Hm as (k & Hk & Hm).
  apply result_bind_Ok in Hm as (? & ?%assert_result_Ok & [= <-]).
  by apply projection_key_Ok in Hk as (_ & _ & _ & ?).
Qed.

Lemma member_text_inj t r t' r' :
  0 ≤ t < 10 ^ 20 → 0 ≤ t' < 10 ^ 20 → member_text t r = member_text t' r' → t = t' ∧ r = r'.
Proof.
  intros Ht Ht' Heq. apply str_app_inj in Heq as [Hp Heq]; [|by rewrite !pad_length].
  apply (str_app_inj ":" _ ":") in Heq as [_ Heq]; [|done]. split; [by apply (pad_inj 20)|done].
Qed.

Lemma char_length_app s t : char_length (s +:+ t) = char_length s + char_length t.
Proof. induction s as [|a s IH]; [done|]. rewrite str_app_cons. cbn [char_length]. rewrite IH. lia. Qed.

Lemma char_length_nonneg s : 0 ≤ char_length s.
Proof. induction s as [|a s IH]; cbn [char_length]; [lia|]. destruct (cont a); lia. Qed.

Lemma char_length_ascii s : is_ascii s = true → char_length s = Z.of_nat (String.length s).
Proof.
  unfold is_ascii. induction s as [|a s IH]; [done|]. cbn [all_chars char_length String.length].
  rewrite andb_true_iff. intros [Ha Hs]. rewrite IH by done.
  destruct (cont a) eqn:Hc; [|lia]. rewrite cont_high in Ha by done. done.
Qed.

Lemma char_length_pos r : utf8_valid r = true → r ≠ "" → 0 < char_length r.
Proof.
  rewrite utf8_valid_chars. intros Hr Hne. inversion Hr as [|c s Hc Hs Heq]; [by subst|].
  rewrite char_length_app. pose proof (char_length_nonneg s).
  destruct Hc as [Hcne Hc]. destruct c as [|a c]; [done|]. cbn [char_length].
  pose proof (char_length_nonneg c). destruct (cont a) eqn:Ha; [|lia].
  exfalso. cbn [utf8_head] in Hc. by rewrite cont_high, cont_no_lead in Hc.
Qed.

Lemma member_text_head t r :
  String.get 20 (member_text t r) = Some ":"%char ∧ str_take 20 (member_text t r) = pad 20 t
  ∧ str_drop 21 (member_text t r) = r.
Proof.
  unfold member_text. pose proof (pad_length 20 t) as Hl. revert Hl. generalize (pad 20 t). intros p Hl.
  do 20 (destruct p as [|? p]; [done|]). destruct p; [|done]. rewrite !str_app_cons.
  split_and!; [done|done|by cbn; destruct r].
Qed.

Lemma identity_nonempty r : shadow_identity r = Ok () → r ≠ "".
Proof. unfold shadow_identity. rewrite assert_result_Ok. tauto. Qed.

Lemma parse_cursor_member t r :
  shadow_identity r = Ok () → utf8_valid r = true → 0 ≤ t ≤ datetime_max →
  parse_active_run_cursor (member_text t r) = Ok (t, r).
Proof.
  intros Hr Hu Ht. unfold parse_active_run_cursor. destruct (member_text_head t r) as (H1 & H2 & H3).
  rewrite H1, H2, H3. rewrite assert_ok.
  - rewrite assert_ok by apply pad_digits. rewrite pad_value by (apply datetime_max_digits; done).
    rewrite assert_ok by lia. rewrite index_member_eq by (done || by apply datetime_max_digits).
    by rewrite assert_ok.
  - split; [|done]. unfold member_text. rewrite !char_length_app.
    pose proof (char_length_pos r Hu (identity_nonempty r Hr)).
    rewrite (char_length_ascii (pad 20 t)) by apply pad_ascii. rewrite pad_length.
    change (char_length ":") with 1. lia.
Qed.

Lemma parse_cursor_Ok m t r :
  parse_active_run_cursor m = Ok (t, r) →
  m = member_text t r ∧ shadow_identity r = Ok () ∧ 0 ≤ t ≤ datetime_max.
Proof.
  unfold parse_active_run_cursor. intros Hm. apply result_bind_Ok in Hm as (? & _ & Hm).
  apply result_bind_Ok in Hm as (? & Hd%assert_result_Ok & Hm).
  apply result_bind_Ok in Hm as (? & Hmax%assert_result_Ok & Hm).
  destruct (index_member _ _) as [expected|e] eqn:He; [|done].
  apply result_bind_Ok in Hm as (? & Heq%assert_result_Ok & [= <- <-]).
  apply index_member_Ok in He as (-> & Hr & Ht). split; [done|]. split; [done|].
  split; [apply Ht|exact Hmax].
Qed.

Lemma is_terminal_spec s : is_terminal s = true ↔ s.(sn_execution_status) ∈ TERMINAL_EXECUTION_STATUSES.
Proof. unfold is_terminal. apply bool_decide_eq_true. Qed.

Lemma index_ok_range s : index_ok s → 0 ≤ s.(sn_updated_at) ≤ datetime_max.
Proof. intros [Hok Ht]. pose proof (snapshot_ok_inv s Hok) as (_ & _ & _ & Hd & _ & _). unfold datetime_ok in Hd. lia. Qed.

Lemma snapshot_utf8 s :
  snapshot_ok s → utf8_valid s.(sn_tenant_id) = true ∧ utf8_valid s.(sn_run_id) = true
                  ∧ utf8_valid (default "" s.(sn_phase)) = true.
Proof. intros (_ & _ & Ht). rewrite !Forall_cons in Ht. tauto. Qed.

(** The member that is sent for a snapshot. *)
Lemma sent_member s :
  index_ok s →
  (if negb (is_terminal s) then index_member s.(sn_updated_at) s.(sn_run_id) else mret "") = Ok (member_of s).
Proof.
  intros Hs. pose proof (index_ok_range s Hs) as Ht. destruct Hs as [Hok _].
  pose proof (snapshot_ok_inv s Hok) as (_ & _ & _ & _ & _ & Hr). unfold member_of.
  destruct (is_terminal s); cbn [negb]; [done|]. apply index_member_eq; [done|]. by apply datetime_max_digits.
Qed.

Lemma member_of_cursor s :
  index_ok s → is_terminal s = false → parse_active_run_cursor (member_of s) = Ok (s.(sn_updated_at), s.(sn_run_id)).
Proof.
  intros Hs Ha. pose proof (index_ok_range s Hs) as Ht. destruct Hs as [Hok _]. unfold member_of. rewrite Ha.
  pose proof (snapshot_ok_inv s Hok) as (_ & _ & _ & _ & _ & Hr). pose proof (snapshot_utf8 s Hok) as (_ & Hu & _).
  by apply parse_cursor_member.
Qed.

(** Members are neither empty nor the marker. *)
Lemma member_text_not_marker t r : member_text t r ≠ READY_MARKER ∧ member_text t r ≠ "".
Proof.
  assert (String.length (member_text t r) ≥ 21)%nat as Hl
    by (unfold member_text; rewrite !str_length_app, pad_length; simpl; lia).
  split; intros Heq; rewrite Heq in Hl; simpl in Hl; lia.
Qed.

(** ** Records *)

(** [cjson.decode] of a canonical object of texts: a table of the texts. *)
Class CjsonLaws `{Platform} `{Cjson} : Prop := {
  cjson_texts fields :
    NoDup fields.*1 → Forall (λ kv, utf8_valid kv.1 = true ∧ utf8_valid kv.2 = true) fields →
    cjson_decode (canonical_json (text_object fields)) = Some (LuaString <$> list_to_map fields);
}.

(** The entry that a snapshot is read as. *)
Definition entry_of (s : ShadowProjectionSnapshot) : ActiveRunIndexEntry := {|
  ent_tenant_id := s.(sn_tenant_id); ent_run_id := s.(sn_run_id);
  ent_stream_version := s.(sn_stream_version); ent_execution_status := s.(sn_execution_status);
  ent_phase := s.(sn_phase); ent_last_event_seq := s.(sn_last_event_seq);
  ent_updated_at := s.(sn_updated_at); ent_index_member := member_of s |}.

Section records.
Context `{Redis} `{Platform} `{Signing} `{!ShadowLaws} `{Cjson}.

(** The fields of a record, in their order. *)
Definition record_fields (s : ShadowProjectionSnapshot) (member : string) : list (string * string) :=
  ("canonical_sha256", (state_record s member).2) :: state_base s member.

Lemma state_record_text s member :
  (state_record s member).1 = canonical_json (text_object (record_fields s member)).
Proof. done. Qed.

Lemma record_keys s member :
  (record_fields s member).*1
  = ["canonical_sha256"; "execution_status"; "index_member"; "last_event_seq"; "phase"; "run_id";
     "schema_version"; "stream_version"; "tenant_id"; "updated_at"].
Proof. done. Qed.

Lemma record_keys_NoDup s member : NoDup (record_fields s member).*1.
Proof. rewrite record_keys. apply (bool_decide_eq_true (NoDup _)). vm_compute. reflexivity. Qed.

Lemma keys_map {A B} (f : A → B) (l : list (string * A)) : (map (λ kv, (kv.1, f kv.2)) l).*1 = l.*1.
Proof. induction l as [|[k v] l IH]; [done|]. cbn in *. by f_equal. Qed.

Lemma text_object_dict l : NoDup l.*1 → dict_value (text_object l).
Proof.
  intros Hnd. unfold text_object. rewrite dict_value_JObj, keys_map. split; [done|].
  apply Forall_map, Forall_true. by intros [k v].
Qed.

Lemma record_loads s member :
  json_loads (state_record s member).1 = Some (text_object (record_fields s member)).
Proof.
  rewrite state_record_text, loads_canonical by apply text_object_dict, record_keys_NoDup.
  reflexivity.
Qed.

Lemma all_texts_object l : all_texts (map (λ kv : string * string, (kv.1, JStr kv.2)) l) = Some l.
Proof. induction l as [|[k v] l IH]; [done|]. cbn [map all_texts fst snd]. by rewrite IH. Qed.

Lemma member_utf8 s : index_ok s → utf8_valid (member_of s) = true.
Proof.
  intros Hs. unfold member_of. destruct (is_terminal s); [done|]. unfold member_text.
  destruct Hs as [Hok _]. apply utf8_app; [by apply ascii_utf8, pad_ascii|]. apply utf8_app; [done|].
  by apply snapshot_utf8.
Qed.

Lemma record_utf8 s :
  index_ok s → Forall (λ kv, utf8_valid kv.1 = true ∧ utf8_valid kv.2 = true) (record_fields s (member_of s)).
Proof.
  intros Hs. pose proof (member_utf8 s Hs) as Hm. destruct Hs as [Hok Htime].
  pose proof (snapshot_ok_inv s Hok) as (Hv & Hseq & _ & _ & _ & _).
  pose proof (snapshot_utf8 s Hok) as (Ht & Hr & Hp).
  assert (∀ n, 0 ≤ n → utf8_valid (int_str n) = true) as Hn by (intros; by apply ascii_utf8, int_str_ascii).
  unfold record_fields, state_base.
  repeat apply Forall_cons_2; try apply Forall_nil_2; (split; [done|]); cbn [snd]; try apply Hn; try done; try lia.
  - apply ascii_utf8, hex_ascii, sha256_hex.
  - by destruct (sn_execution_status s).
  - apply ascii_utf8, isoformat_ascii. intros us. unfold is_ascii.
    rewrite !all_chars_app. pose proof (pad_ascii 6 us) as Hpad. unfold is_ascii in Hpad. by rewrite Hpad.
Qed.

Lemma entry_valid_of s : index_ok s → is_terminal s = false → entry_valid (entry_of s) = Ok ().
Proof.
  intros Hs Ha. pose proof (index_ok_range s Hs) as Ht. destruct Hs as [Hok _].
  pose proof (snapshot_ok_inv s Hok) as (Hv & Hseq & Hphase & _ & _ & Hr).
  unfold entry_valid, entry_of. cbn [ent_execution_status ent_stream_version ent_last_event_seq ent_phase
    ent_updated_at ent_run_id ent_index_member].
  rewrite assert_ok by (by rewrite <- is_terminal_spec, Ha). do 3 rewrite assert_ok by done.
  rewrite index_member_eq by (done || by apply datetime_max_digits). unfold member_of. rewrite Ha.
  cbn [mbind result_bind]. unfold assert_result. by rewrite decide_True.
Qed.

Lemma parse_index_timestamp_text text t :
  parse_utc_timestamp ActiveRunIndexProtocolError text = Ok t → isoformat_us_z t = text →
  parse_index_timestamp text = Ok t.
Proof.
  intros Hp Ht. unfold parse_index_timestamp. rewrite Hp. cbn [mbind result_bind]. by rewrite assert_ok.
Qed.

Lemma parse_index_timestamp_us t : datetime_ok t → parse_index_timestamp (isoformat_us_z t) = Ok t.
Proof. intros Ht. apply parse_index_timestamp_text; [by apply parse_timestamp_us|reflexivity]. Qed.

(** The reader on a record whose fields are [fields]. *)
Lemma parse_record_fields s fields encoded (get := λ f, default "" (dict_get f fields)) :
  index_ok s → is_terminal s = false → utf8_valid encoded = true →
  json_loads encoded = Some (text_object fields) → encoded = canonical_json (text_object fields) →
  list_to_set fields.*1 = STATE_FIELDS →
  get "schema_version" = int_str SHADOW_PROJECTION_SCHEMA_VERSION → get "tenant_id" = s.(sn_tenant_id) →
  get "index_member" = member_of s → get "stream_version" = int_str s.(sn_stream_version) →
  get "last_event_seq" = int_str s.(sn_last_event_seq) → get "updated_at" = isoformat_us_z s.(sn_updated_at) →
  get "execution_status" = value s.(sn_execution_status) → get "run_id" = s.(sn_run_id) →
  get "phase" = default "" s.(sn_phase) →
  get "canonical_sha256" = sha256_text (canonical_json (text_object
    (filter (λ kv : string * string, kv.1 ≠ "canonical_sha256") fields))) →
  parse_state (RBulk encoded) s.(sn_tenant_id) (member_of s) = Ok (entry_of s).
Proof.
  intros Hs Ha Hutf Hload Henc Hkeys Hsc Ht Hm Hv Hq Hu Hst Hr Hp Hsha. subst get. cbv beta in *.
  pose proof (entry_valid_of s Hs Ha) as Hvalid. destruct Hs as [Hok _].
  pose proof (snapshot_ok_inv s Hok) as (Hv0 & Hseq & Hphase & Hd & _ & _).
  unfold parse_state. cbn [reply_text mbind result_bind result_of_option]. rewrite assert_ok by done.
  rewrite Hload. rewrite (all_texts_object fields : match text_object fields with JObj l => all_texts l | _ => None end = Some fields). cbn [mbind result_bind result_of_option].
  rewrite Hsc, Ht, Hm, Hv, Hq, Hu, Hst, Hr, Hp. do 4 rewrite assert_ok by done.
  unfold parse_decimal. rewrite !canonical_decimal_int by lia. cbn [mbind result_bind result_of_option].
  rewrite assert_ok by done. rewrite parse_index_timestamp_us by done. cbn [mbind result_bind].
  rewrite (of_value_value (A := ExecutionStatus.t)). cbn [mbind result_bind result_of_option].
  rewrite assert_ok by (by rewrite <- is_terminal_spec, Ha). rewrite phase_read by done.
  fold (entry_of s). rewrite Hvalid. cbn [mbind result_bind]. by rewrite assert_ok, assert_ok.
Qed.

(** The reader accepts the record of an active snapshot, and reads its entry. *)
Lemma parse_record s :
  index_ok s → is_terminal s = false →
  parse_state (RBulk (state_record s (member_of s)).1) s.(sn_tenant_id) (member_of s) = Ok (entry_of s).
Proof.
  intros Hs Ha. apply (parse_record_fields s (record_fields s (member_of s)));
    [done|done| |apply record_loads|apply state_record_text| |reflexivity..].
  - rewrite state_record_text. by apply text_object_utf8, record_utf8.
  - rewrite record_keys. apply (bool_decide_eq_true (_ = _)). by vm_compute.
Qed.

(** The table that the script decodes from a record. *)
Lemma decode_record `{!CjsonLaws} s :
  index_ok s →
  cjson_decode (state_record s (member_of s)).1
  = Some (LuaString <$> list_to_map (record_fields s (member_of s))).
Proof. intros Hs. rewrite state_record_text. by apply cjson_texts; [apply record_keys_NoDup|apply record_utf8]. Qed.

Lemma record_field s member f v :
  (f, v) ∈ record_fields s member →
  (LuaString <$> list_to_map (M := gmap string string) (record_fields s member)) !! f = Some (LuaString v).
Proof.
  intros Hin. rewrite lookup_fmap, (elem_of_list_to_map_1 _ f v); [done|apply record_keys_NoDup|done].
Qed.
End records.
