(* ===== verification/IndexSafety.v ===== *)
(** * IndexSafety: the active index is exact

    [index_inv]: what the index of one tenant holds. The state key of a run holds the record
    of its newest snapshot; the set holds the members of the active runs that are listed, and
    the marker if the index is ready. Writes keep it, list their run, and never take a run
    back ([index_write_spec]). *)

From S2P Require Import Prelude Text Domain Platform Json Datetime Rollout Effects Decimal Redis.
From S2P Require Import ShadowProjection RedisShadow ShadowSafety RedisActiveIndex IndexCodec.
From Stdlib Require Import Lia.

#[local] Open Scope Z_scope.

(** ** Versions *)

(** One run's newest state: what a write answers, and what is stored afterwards. *)
Definition index_register `{Platform} (old : option ShadowProjectionSnapshot) (s : ShadowProjectionSnapshot)
    : ProjectionWriteStatus.t * Z * ShadowProjectionSnapshot :=
  match old with
  | None => (ProjectionWriteStatus.APPLIED, s.(sn_stream_version), s)
  | Some s0 =>
      match s.(sn_stream_version) ?= s0.(sn_stream_version) with
      | Gt => (ProjectionWriteStatus.APPLIED, s.(sn_stream_version), s)
      | Lt => (ProjectionWriteStatus.STALE, s0.(sn_stream_version), s0)
      | Eq => (if decide ((state_record s0 (member_of s0)).2 = (state_record s (member_of s)).2)
               then ProjectionWriteStatus.DUPLICATE else ProjectionWriteStatus.CONFLICT,
               s0.(sn_stream_version), s0)
      end
  end.

(** ** Keys *)

Section keys.
Context `{Platform} (environment : string).

Definition index_key (t : string) : string := index_slot environment t +:+ ":runs".
Definition state_key (t r : string) : string := index_slot environment t +:+ ":state:" +:+ sha256_text r.

Lemma active_run_index_key_eq t :
  ENVIRONMENT_RE environment = true → shadow_identity t = Ok () →
  active_run_index_key environment t = Ok (index_key t).
Proof. intros He Ht. unfold active_run_index_key. by rewrite projection_key_eq. Qed.

Lemma active_run_state_key_eq t r :
  ENVIRONMENT_RE environment = true → shadow_identity t = Ok () → shadow_identity r = Ok () →
  active_run_state_key environment t r = Ok (state_key t r).
Proof.
  intros He Ht Hr. unfold active_run_state_key. rewrite active_run_index_key_eq by done. cbn [mbind result_bind].
  rewrite projection_key_eq by done. cbn [mbind result_bind mret result_ret]. f_equal. unfold index_key, state_key.
  generalize (index_slot environment t). intros slot.
  rewrite str_length_app. replace (_ + _ - _)%nat with (String.length slot) by lia. by rewrite str_take_app_length.
Qed.

Lemma state_key_not_index t r t' : sha256_text t = sha256_text t' → state_key t r ≠ index_key t'.
Proof.
  intros Ht Heq. unfold state_key, index_key, index_slot in Heq. rewrite Ht in Heq.
  by apply str_app_inj in Heq as [_ Heq].
Qed.

Lemma state_key_inj t r r' : state_key t r = state_key t r' → sha256_text r = sha256_text r'.
Proof.
  unfold state_key. intros Heq. apply str_app_inj in Heq as [_ Heq]; [|done].
  by apply (str_app_inj ":state:" _ ":state:") in Heq as [_ Heq].
Qed.
End keys.

(** ** Sets *)

Section sets.
Context `{Redis} `{!RedisLaws}.
Implicit Types srv : server.

(** The set at the key is [z]. *)
Definition set_at (srv : server) (k : string) (z : gmap string Z) : Prop := zset_of (value_at srv k) = Some z.

(** Only the key has changed. *)
Definition only (k : string) (srv srv' : server) : Prop := ∀ k', k' ≠ k → value_at srv' k' = value_at srv k'.

#[global] Instance only_preorder k : PreOrder (only k).
Proof. split; [by intros srv k' ?|]. intros a b c Hab Hbc k' Hk. by rewrite Hbc, Hab. Qed.

Lemma wrote_only srv k v d srv' : wrote srv k v d srv' → only k srv srv'.
Proof. intros Hw k' Hk. by destruct (wrote_other _ _ _ _ _ _ Hw Hk). Qed.

Lemma zadd_set srv k m z :
  set_at srv k z → ∃ n srv', redis_call ["ZADD"; k; "0"; m] srv = (Ok (RInt n), srv')
                             ∧ (n = 0 ∨ n = 1) ∧ set_at srv' k (<[m := 0]> z) ∧ only k srv srv'.
Proof.
  intros Hz. destruct (zadd_law srv k m z Hz) as (srv' & Hc & Hw). eexists _, srv'.
  split; [by apply redis_call_Ok|]. split; [case_decide; lia|]. split; [|by eapply wrote_only].
  unfold set_at. by destruct (wrote_same _ _ _ _ _ Hw) as [-> _].
Qed.

Lemma zrem_set srv k m z :
  set_at srv k z → ∃ r srv', redis_call ["ZREM"; k; m] srv = (Ok r, srv')
                             ∧ set_at srv' k (delete m z) ∧ only k srv srv'.
Proof.
  intros Hz. destruct (zrem_law srv k m z Hz) as (srv' & Hc & Hw). eexists _, srv'.
  split; [by apply redis_call_Ok|]. split; [|by eapply wrote_only].
  unfold set_at. destruct (wrote_same _ _ _ _ _ Hw) as [-> _]. unfold some_zset. by case_decide as Hd; [rewrite Hd|].
Qed.

Lemma set_only srv srv' k k' z : only k' srv srv' → k ≠ k' → set_at srv k z → set_at srv' k z.
Proof. intros Ho Hk. unfold set_at. by rewrite Ho. Qed.
End sets.

(** ** The script *)

(** The set after a write of [s] over the member [old]. *)
Definition membership (s : ShadowProjectionSnapshot) (old : string) (z : gmap string Z) : gmap string Z :=
  let z := if decide (old = "") then z else delete old z in
  if is_terminal s then delete (member_of s) z else <[member_of s := 0]> z.

(** The set after [s] is found to be no news: the stored member is put back. *)
Definition restored (s0 s : ShadowProjectionSnapshot) (z : gmap string Z) : gmap string Z :=
  if decide (member_of s0 = "") then delete (member_of s) z else <[member_of s0 := 0]> z.

Definition index_set `{Platform} (old : option ShadowProjectionSnapshot) (s : ShadowProjectionSnapshot)
    (z : gmap string Z) : gmap string Z :=
  match old with
  | None => membership s "" z
  | Some s0 =>
      match (index_register old s).1.1 with
      | ProjectionWriteStatus.APPLIED => membership s (member_of s0) z
      | ProjectionWriteStatus.CONFLICT => z
      | _ => restored s0 s z
      end
  end.

Section script.
Context `{Redis} `{!RedisLaws} `{Platform} `{Signing} `{!ShadowLaws} `{Cjson} `{!CjsonLaws}.
Implicit Types srv : server.

Definition index_state (s : ShadowProjectionSnapshot) : rvalue := RText (state_record s (member_of s)).1.

(** The arguments that [write_snapshot] sends. *)
Definition arguments_of (s : ShadowProjectionSnapshot) (ttl : Z) : index_arguments := {|
  ia_version := int_str s.(sn_stream_version); ia_hash := (state_record s (member_of s)).2;
  ia_record := (state_record s (member_of s)).1; ia_member := member_of s;
  ia_indexed := negb (is_terminal s); ia_ttl := int_str ttl;
  ia_tenant_id := s.(sn_tenant_id); ia_run_id := s.(sn_run_id);
  ia_schema := int_str SHADOW_PROJECTION_SCHEMA_VERSION |}.

(** Only the two keys of a run have changed: the set is [z], the state that of [s]. *)
Definition run_effect (ik sk : string) (z : gmap string Z) (s : ShadowProjectionSnapshot) (srv srv' : server) : Prop :=
  set_at srv' ik z ∧ value_at srv' sk = Some (index_state s)
  ∧ ∀ k', k' ≠ ik → k' ≠ sk → value_at srv' k' = value_at srv k'.

Lemma apply_membership_spec ik sk s ttl old z srv :
  ik ≠ sk → 0 < ttl → set_at srv ik z →
  ∃ srv', apply_membership ik sk (arguments_of s ttl) old srv = (Ok (), srv')
          ∧ run_effect ik sk (membership s old z) s srv srv'.
Proof.
  intros Hk Httl Hz. unfold apply_membership, membership.
  assert (∃ srv1, (if decide (old = "") then mret () else redis_call ["ZREM"; ik; old];; mret ()) srv = (Ok (), srv1)
    ∧ set_at srv1 ik (if decide (old = "") then z else delete old z) ∧ only ik srv srv1) as (srv1 & Hrun & Hz1 & Ho1).
  { case_decide; [by exists srv|]. destruct (zrem_set srv ik old z Hz) as (r & srv1 & Hc & Hz1 & Ho1).
    exists srv1. split; [|done]. unfold mbind, eff_bind. by rewrite Hc. }
  unfold mbind at 1, eff_bind at 1. rewrite Hrun. clear Hrun.
  set (z1 := if decide (old = "") then z else delete old z) in *. clearbody z1.
  unfold arguments_of. cbn [ia_indexed ia_member ia_record ia_ttl].
  destruct (is_terminal s); cbn [negb].
  - destruct (zrem_set srv1 ik (member_of s) z1 Hz1) as (r & srv2 & Hc & Hz2 & Ho2).
    unfold mbind at 1, eff_bind at 1. rewrite Hc.
    destruct (set_ex_law srv2 sk (state_record s (member_of s)).1 ttl Httl) as (srv3 & Hc3 & Hw3).
    exists srv3. split; [unfold mbind, eff_bind; by rewrite (redis_call_Ok _ _ _ _ Hc3)|].
    split; [by apply (set_only srv2 srv3 ik sk); [eapply wrote_only|..]|].
    split; [by destruct (wrote_same _ _ _ _ _ Hw3)|]. intros k' Hi Hst.
    by rewrite (wrote_only _ _ _ _ _ Hw3), Ho2, Ho1.
  - destruct (zadd_set srv1 ik (member_of s) z1 Hz1) as (n & srv2 & Hc & _ & Hz2 & Ho2).
    unfold mbind at 1, eff_bind at 1. rewrite Hc.
    destruct (set_law srv2 sk (state_record s (member_of s)).1) as (srv3 & Hc3 & Hw3).
    exists srv3. split; [unfold mbind, eff_bind; by rewrite (redis_call_Ok _ _ _ _ Hc3)|].
    split; [by apply (set_only srv2 srv3 ik sk); [eapply wrote_only|..]|].
    split; [by destruct (wrote_same _ _ _ _ _ Hw3)|]. intros k' Hi Hst.
    by rewrite (wrote_only _ _ _ _ _ Hw3), Ho2, Ho1.
Qed.

Lemma reapply_membership_spec ik s0 s ttl z srv :
  set_at srv ik z →
  ∃ srv', reapply_membership ik (arguments_of s ttl) (member_of s0) srv = (Ok (), srv')
          ∧ set_at srv' ik (restored s0 s z) ∧ only ik srv srv'.
Proof.
  intros Hz. unfold reapply_membership, restored. case_decide.
  - destruct (zrem_set srv ik (member_of s) z Hz) as (r & srv1 & Hc & Hz1 & Ho1).
    exists srv1. split; [|done]. unfold mbind, eff_bind. cbn [arguments_of ia_member]. by rewrite Hc.
  - destruct (zadd_set srv ik (member_of s0) z Hz) as (n & srv1 & Hc & _ & Hz1 & Ho1).
    exists srv1. split; [|done]. unfold mbind, eff_bind. by rewrite Hc.
Qed.

(** What a stored record decodes to. *)
Definition table_of (s : ShadowProjectionSnapshot) : gmap string lua_value :=
  LuaString <$> list_to_map (record_fields s (member_of s)).

Lemma table_fields s :
  table_of s !! "stream_version" = Some (LuaString (int_str s.(sn_stream_version)))
  ∧ table_of s !! "canonical_sha256" = Some (LuaString (state_record s (member_of s)).2)
  ∧ table_of s !! "index_member" = Some (LuaString (member_of s))
  ∧ table_of s !! "tenant_id" = Some (LuaString s.(sn_tenant_id))
  ∧ table_of s !! "run_id" = Some (LuaString s.(sn_run_id))
  ∧ table_of s !! "schema_version" = Some (LuaString (int_str SHADOW_PROJECTION_SCHEMA_VERSION)).
Proof.
  unfold table_of. split_and!; apply record_field; unfold record_fields, state_base; rewrite !elem_of_cons; tauto.
Qed.

Definition index_reply (status : ProjectionWriteStatus.t) (stored : Z) : reply :=
  RArray [RBulk (value status); RBulk (int_str stored)].

Lemma lua_ret_bind {A B} (a : A) (k : A → lua B) srv : (mret a ≫= k) srv = k a srv.
Proof. done. Qed.

(** The script on the keys of a run that hold [old] and the set [z]. *)
Lemma active_index_cas_spec ik sk old s ttl z srv :
  ik ≠ sk → index_ok s → 0 < ttl → set_at srv ik z → value_at srv sk = index_state <$> old →
  (∀ s0, old = Some s0 → index_ok s0 ∧ s0.(sn_tenant_id) = s.(sn_tenant_id) ∧ s0.(sn_run_id) = s.(sn_run_id)) →
  let '(status, stored, newest) := index_register old s in
  ∃ srv', active_index_cas ik sk (arguments_of s ttl) srv = (Ok (index_reply status stored), srv')
          ∧ run_effect ik sk (index_set old s z) newest srv srv'.
Proof.
  intros Hk Hs Httl Hz Hv Hold. pose proof (snapshot_ok_inv s (proj1 Hs)) as (Hver & _).
  unfold active_index_cas. cbn [arguments_of ia_version]. rewrite int_str_canonical by done. cbn [negb].
  pose proof (get_law srv sk ((λ s0, (state_record s0 (member_of s0)).1) <$> old)) as Hget.
  erewrite redis_call_bind; [|apply Hget; by rewrite Hv; destruct old|by destruct old].
  rewrite reply_text_bulk. destruct old as [s0|]; cbn [fmap option_fmap option_map].
  2: { destruct (apply_membership_spec ik sk s ttl "" z srv Hk Httl Hz) as (srv' & Hrun & He).
       exists srv'. split; [|done]. unfold mbind, eff_bind. by rewrite Hrun. }
  destruct (Hold s0 eq_refl) as (Hs0 & Ht & Hr). pose proof (snapshot_ok_inv s0 (proj1 Hs0)) as (Hver0 & _).
  rewrite decode_record by done. fold (table_of s0).
  destruct (table_fields s0) as (-> & -> & -> & -> & -> & ->). cbn [canonical_field].
  rewrite lua_ret_bind, int_str_canonical by done. rewrite Ht, Hr, !bool_decide_eq_true_2 by done. cbn [andb negb].
  unfold compare_field. rewrite compare_decimal_int, lua_ret_bind by done.
  unfold index_register, index_set, index_register.
  assert (run_effect ik sk z s0 srv srv) as Hsame by done.
  assert (∃ srv', reapply_membership ik (arguments_of s ttl) (member_of s0) srv = (Ok (), srv')
    ∧ run_effect ik sk (restored s0 s z) s0 srv srv') as (srv1 & Hre & He1).
  { destruct (reapply_membership_spec ik s0 s ttl z srv Hz) as (srv1 & Hre & Hz1 & Ho1).
    exists srv1. split; [done|]. split; [done|]. split; [by rewrite Ho1|]. intros k' Hi _. by apply Ho1. }
  destruct (s.(sn_stream_version) ?= s0.(sn_stream_version)).
  - cbn [ia_hash arguments_of]. case_decide; cbn [fst]; [|by exists srv].
    exists srv1. split; [|done]. unfold mbind, eff_bind. by rewrite Hre.
  - exists srv1. split; [|done]. unfold mbind, eff_bind. by rewrite Hre.
  - destruct (apply_membership_spec ik sk s ttl (member_of s0) z srv Hk Httl Hz) as (srv' & Hrun & He).
    exists srv'. split; [|done]. unfold mbind, eff_bind. by rewrite Hrun.
Qed.
End script.

(** ** What the set holds *)

Definition active (s : ShadowProjectionSnapshot) : Prop := is_terminal s = false.

(** The set of an index: the members of the listed active runs of [m], and the marker. *)
Definition indexes (m : gmap string ShadowProjectionSnapshot) (listed : gset string) (ready : bool)
    (z : gmap string Z) : Prop :=
  ∀ x n, z !! x = Some n ↔
    n = 0 ∧ ((x = READY_MARKER ∧ ready = true)
             ∨ ∃ r s, m !! r = Some s ∧ r ∈ listed ∧ active s ∧ x = member_of s).

(** The snapshots of an index are of the runs they stand for. *)
Definition snapshots_ok (m : gmap string ShadowProjectionSnapshot) : Prop :=
  ∀ r s, m !! r = Some s → index_ok s ∧ s.(sn_run_id) = r.

Lemma member_of_active s : active s → member_of s = member_text s.(sn_updated_at) s.(sn_run_id).
Proof. unfold active, member_of. by intros ->. Qed.

Lemma member_of_special s : active s → member_of s ≠ READY_MARKER ∧ member_of s ≠ "".
Proof. intros Hs. rewrite member_of_active by done. apply member_text_not_marker. Qed.

Lemma member_of_run s s' :
  index_ok s → index_ok s' → active s → active s' → member_of s = member_of s' → s.(sn_run_id) = s'.(sn_run_id).
Proof.
  intros Hs Hs' Ha Ha'. rewrite !member_of_active by done. intros Heq.
  by apply member_text_inj in Heq as [_ ?]; [|by apply datetime_max_digits, index_ok_range..].
Qed.

(** What the set holds because of others than the run [r]. *)
Definition elsewhere (m : gmap string ShadowProjectionSnapshot) (listed : gset string) (ready : bool)
    (r x : string) : Prop :=
  (x = READY_MARKER ∧ ready = true)
  ∨ ∃ r' s, r' ≠ r ∧ m !! r' = Some s ∧ r' ∈ listed ∧ active s ∧ x = member_of s.

Lemma indexes_at r m listed ready z :
  indexes m listed ready z ↔
  ∀ x n, z !! x = Some n ↔
    n = 0 ∧ (elsewhere m listed ready r x ∨ ∃ s, m !! r = Some s ∧ r ∈ listed ∧ active s ∧ x = member_of s).
Proof.
  assert (∀ x, (x = READY_MARKER ∧ ready = true
                ∨ ∃ r s, m !! r = Some s ∧ r ∈ listed ∧ active s ∧ x = member_of s)
               ↔ (elsewhere m listed ready r x
                  ∨ ∃ s, m !! r = Some s ∧ r ∈ listed ∧ active s ∧ x = member_of s)) as Hx.
  { intros x. unfold elsewhere. split.
    - intros [?|(r' & s & Hs)]; [by left; left|]. destruct (decide (r' = r)) as [->|Hne]; [right; by exists s|].
      left; right. by exists r', s.
    - intros [[?|(r' & s & _ & Hs)]|(s & Hs)]; [by left|right; by exists r', s|right; by exists r, s]. }
  unfold indexes. split; intros Hz x n; rewrite Hz; specialize (Hx x); tauto.
Qed.

Lemma elsewhere_other m listed ready r x s :
  snapshots_ok m → index_ok s → s.(sn_run_id) = r → elsewhere m listed ready r x → x ≠ member_of s.
Proof.
  intros Hm Hs Hr Hx ->. unfold elsewhere in Hx. destruct (is_terminal s) eqn:Ha.
  - unfold member_of in Hx. rewrite Ha in Hx. destruct Hx as [[? _]|(r' & s' & _ & _ & _ & Ha' & Heq)]; [done|].
    by destruct (member_of_special s' Ha') as [_ []].
  - destruct Hx as [[Heq _]|(r' & s' & Hne & Hs' & _ & Ha' & Heq)]; [by apply (member_of_special s Ha) in Heq|].
    apply Hne. destruct (Hm r' s' Hs') as [Hok' <-]. subst r. symmetry.
    by apply member_of_run.
Qed.

Lemma elsewhere_insert m listed ready r x s listed' :
  listed' = listed ∨ listed' = {[r]} ∪ listed →
  elsewhere (<[r := s]> m) listed' ready r x ↔ elsewhere m listed ready r x.
Proof.
  intros Hl. unfold elsewhere.
  assert (∀ r', r' ≠ r → r' ∈ listed' ↔ r' ∈ listed) as Hin by (destruct Hl as [->| ->]; set_solver).
  split; (intros [?|(r' & s' & Hne & Hs' & Hr' & ?)]; [by left|right; exists r', s'; split; [done|]]).
  - rewrite lookup_insert_ne in Hs' by done. by rewrite <- Hin.
  - rewrite lookup_insert_ne by done. by rewrite Hin.
Qed.

Lemma membership_lookup s old z x n :
  membership s old z !! x = Some n ↔
  (active s ∧ x = member_of s ∧ n = 0) ∨ (x ≠ member_of s ∧ (x ≠ old ∨ old = "") ∧ z !! x = Some n).
Proof.
  unfold membership, active.
  assert ((if decide (old = "") then z else delete old z) !! x = Some n ↔ (x ≠ old ∨ old = "") ∧ z !! x = Some n) as Hz.
  { case_decide; [tauto|]. rewrite lookup_delete_Some. naive_solver. }
  destruct (is_terminal s).
  - rewrite lookup_delete_Some, Hz. naive_solver.
  - rewrite lookup_insert_Some, Hz. naive_solver.
Qed.

Lemma restored_lookup s0 s z x n :
  restored s0 s z !! x = Some n ↔
  (active s0 ∧ x = member_of s0 ∧ n = 0)
  ∨ (x ≠ (if is_terminal s0 then member_of s else member_of s0) ∧ z !! x = Some n).
Proof.
  unfold restored. destruct (is_terminal s0) eqn:H0; unfold active; rewrite H0.
  - rewrite decide_True by (unfold member_of; by rewrite H0). rewrite lookup_delete_Some. naive_solver.
  - rewrite decide_False by (by apply member_of_special). rewrite lookup_insert_Some. naive_solver.
Qed.

(** After a write, the set holds the newest state of the run in place of the older one. *)
Lemma indexes_write `{Platform} m listed ready z s (r := s.(sn_run_id)) :
  snapshots_ok m → index_ok s → indexes m listed ready z →
  indexes (<[r := (index_register (m !! r) s).2]> m)
          (if decide ((index_register (m !! r) s).1.1 = ProjectionWriteStatus.CONFLICT) then listed else {[r]} ∪ listed)
          ready (index_set (m !! r) s z).
Proof.
  intros Hm Hs Hz. rewrite (indexes_at r) in Hz |- *. intros x n.
  rewrite elsewhere_insert by (case_decide; auto). rewrite lookup_insert_eq.
  pose proof (elsewhere_other m listed ready r x s Hm Hs eq_refl) as Hnew.
  assert (∀ s0, m !! r = Some s0 → elsewhere m listed ready r x → x ≠ member_of s0) as Hold.
  { intros s0 H0. destruct (Hm r s0 H0) as [Hok Hr]. by apply elsewhere_other. }
  specialize (Hz x n). unfold index_set. destruct (m !! r) as [s0|] eqn:H0.
  2: { cbn [index_register fst snd]. rewrite membership_lookup, Hz. case_decide; [done|].
       split.
       - intros [(? & ? & ?)|(_ & _ & ? & [?|(s' & ? & _)])]; [|by split; [|left]|done].
         split; [done|]. right. exists s. split_and!; [done|set_solver|done..].
       - intros [? [?|(s' & [= <-] & _ & ?)]]; [|left; tauto].
         right. split; [auto|]. split; [by right|]. split; [done|by left]. }
  specialize (Hold s0 eq_refl).
  assert (z !! x = Some n ↔ n = 0 ∧ (elsewhere m listed ready r x ∨ r ∈ listed ∧ active s0 ∧ x = member_of s0)) as Hz0.
  { rewrite Hz. split; intros [-> [?|Hx]]; (split; [done|]); [by left| |by left|right; by exists s0].
    right. by destruct Hx as (? & [= <-] & ?). }
  assert (restored s0 s z !! x = Some n ↔ n = 0 ∧ (elsewhere m listed ready r x ∨ active s0 ∧ x = member_of s0)) as Hrest.
  { rewrite restored_lookup, Hz0. split; [tauto|]. intros [-> [Hx|?]]; [right|by left; split_and!; tauto].
    split; [destruct (is_terminal s0); auto|]. split; [done|by left]. }
  assert (membership s (member_of s0) z !! x = Some n
          ↔ n = 0 ∧ (elsewhere m listed ready r x ∨ active s ∧ x = member_of s)) as Hmem.
  { rewrite membership_lookup, Hz0. split.
    - intros [?|(_ & Ho & -> & [?|(_ & Ha & Hx)])]; [tauto|by split; [|left]|].
      destruct (member_of_special s0 Ha). by destruct Ho.
    - intros [-> [Hx|?]]; [right|left; tauto]. split; [auto|]. split; [left; auto|]. split; [done|by left]. }
  assert (∀ s1, (∃ s', Some s1 = Some s' ∧ r ∈ {[r]} ∪ listed ∧ active s' ∧ x = member_of s')
                ↔ active s1 ∧ x = member_of s1) as Hnewest.
  { intros s1. split; [by intros (s' & [= <-] & _ & ?)|]. intros ?. exists s1. split; [done|]. split; [set_solver|done]. }
  unfold index_register. destruct (s.(sn_stream_version) ?= s0.(sn_stream_version)); cbn [fst snd].
  - case_decide as Hdig; [|done]. rewrite decide_False by done. by rewrite Hnewest.
  - rewrite decide_False by done. by rewrite Hnewest.
  - rewrite decide_False by done. by rewrite Hnewest.
Qed.

(** ** The index of a tenant *)

Section index.
Context `{Redis} `{!RedisLaws} `{Platform} `{Signing} `{!ShadowLaws} `{Cjson} `{!CjsonLaws}.
Context (environment : string) (Henv : ENVIRONMENT_RE environment = true).
Context (t : string) (Ht : shadow_identity t = Ok ()).
(** The runs of the tenant: their identifiers are accepted, and their digests differ. *)
Context (runs : string → Prop) (Hruns : ∀ r, runs r → shadow_identity r = Ok ()).
Context (digests_differ : ∀ r r', runs r → runs r' → sha256_text r = sha256_text r' → r = r').
Implicit Types srv : server.

Record index_inv srv (m : gmap string ShadowProjectionSnapshot) (listed : gset string) (ready : bool) : Prop := {
  inv_states r : runs r → value_at srv (state_key environment t r) = index_state <$> m !! r;
  inv_snapshots r s : m !! r = Some s → runs r ∧ index_ok s ∧ s.(sn_tenant_id) = t ∧ s.(sn_run_id) = r;
  inv_set : ∃ z, set_at srv (index_key environment t) z ∧ indexes m listed ready z;
}.

Lemma inv_snapshots_ok srv m listed ready : index_inv srv m listed ready → snapshots_ok m.
Proof. intros Hi r s Hs. destruct (inv_snapshots _ _ _ _ Hi r s Hs) as (_ & ? & _ & ?). done. Qed.

Lemma index_register_spec old s status stored newest :
  index_register old s = (status, stored, newest) →
  consistent status s.(sn_stream_version) stored ∧ stored = newest.(sn_stream_version)
  ∧ s.(sn_stream_version) ≤ newest.(sn_stream_version) ∧ (newest = s ∨ old = Some newest)
  ∧ (∀ s0, old = Some s0 → s0.(sn_stream_version) ≤ newest.(sn_stream_version)).
Proof.
  unfold index_register, consistent. destruct old as [s0|].
  - destruct (s.(sn_stream_version) ?= s0.(sn_stream_version)) eqn:Hc.
    + apply Z.compare_eq in Hc. intros Hr.
      case_decide; injection Hr as <- <- <-; (split_and!; [lia|done|lia|by right|intros ? [= <-]; lia]).
    + rewrite Z.compare_lt_iff in Hc. intros [= <- <- <-]. split_and!; [lia|done|lia|by right|intros ? [= <-]; lia].
    + rewrite Z.compare_gt_iff in Hc. intros [= <- <- <-]. split_and!; [lia|done|lia|by left|intros ? [= <-]; lia].
  - intros [= <- <- <-]. split_and!; [done|done|lia|by left|done].
Qed.

(** What an effect on the keys of one run does to the invariant. *)
Lemma run_effect_inv srv srv' m listed ready s z newest :
  index_inv srv m listed ready → runs s.(sn_run_id) → index_ok newest →
  newest.(sn_tenant_id) = t → newest.(sn_run_id) = s.(sn_run_id) →
  run_effect (index_key environment t) (state_key environment t s.(sn_run_id)) z newest srv srv' →
  ∀ listed', indexes (<[s.(sn_run_id) := newest]> m) listed' ready z →
  index_inv srv' (<[s.(sn_run_id) := newest]> m) listed' ready.
Proof.
  intros [Hst Hsn _] Hr Hok Htn Hrn (Hz & Hv & Hother) listed' Hidx. split.
  - intros r' Hr'. destruct (decide (r' = s.(sn_run_id))) as [->|Hne]; [by rewrite lookup_insert_eq|].
    rewrite lookup_insert_ne by done. rewrite Hother; [by apply Hst|by apply state_key_not_index|].
    intros Heq%state_key_inj. by apply Hne, digests_differ.
  - intros r' s'. rewrite lookup_insert_Some. intros [[<- <-]|[_ Hs']]; [done|by apply Hsn].
  - by exists z.
Qed.

(** Parsing the answer of the script. *)
Lemma decode_text_bulk s : utf8_valid s = true → decode_text (RBulk s) = Ok s.
Proof. intros Hs. unfold decode_text. by rewrite assert_ok. Qed.

Lemma parse_index_reply status incoming stored :
  0 ≤ incoming → 0 ≤ stored → consistent status incoming stored →
  parse_index_response (index_reply status stored) incoming
  = Ok {| pw_status := status; incoming_version := incoming; stored_version := stored |}.
Proof.
  intros Hi Hs Hc. unfold parse_index_response, index_reply.
  rewrite (decode_text_bulk (value status)) by (by destruct status). cbn [mbind result_bind].
  rewrite (decode_text_bulk (int_str stored)) by (by apply ascii_utf8, int_str_ascii). cbn [mbind result_bind].
  rewrite decide_False by (by destruct status).
  rewrite (of_value_value (A := ProjectionWriteStatus.t)). cbn [result_of_option mbind result_bind].
  unfold parse_decimal. rewrite canonical_decimal_int by done. cbn [result_of_option mbind result_bind].
  rewrite assert_ok by done. unfold ProjectionWriteResult_init, non_negative_int.
  cbn [incoming_version stored_version]. by rewrite !assert_ok.
Qed.

(** A write keeps the invariant, keeps the newer of the two states, and lists its run. *)
Lemma index_write_spec surroundings d s ttl srv m listed ready :
  index_inv (surroundings srv) m listed ready →
  runs s.(sn_run_id) → s.(sn_tenant_id) = t → index_ok s → 0 < ttl →
  let '(status, stored, newest) := index_register (m !! s.(sn_run_id)) s in
  ∃ srv', index_inv srv' (<[s.(sn_run_id) := newest]> m)
            (if decide (status = ProjectionWriteStatus.CONFLICT) then listed else {[s.(sn_run_id)]} ∪ listed) ready
    ∧ (∀ k, k ≠ index_key environment t → k ≠ state_key environment t s.(sn_run_id) →
            value_at srv' k = value_at (surroundings srv) k)
    ∧ index_write_snapshot environment surroundings d s ttl srv
      = match d with
        | Answered => (Ok {| pw_status := status; incoming_version := s.(sn_stream_version);
                             stored_version := stored |}, srv')
        | RequestLost => (Err ActiveRunIndexUnavailableError, surroundings srv)
        | ReplyLost => (Err ActiveRunIndexUnavailableError, srv')
        end.
Proof.
  intros Hinv Hr Hst Hs Httl. pose proof (inv_set _ _ _ _ Hinv) as (z & Hz & Hidx).
  pose proof (inv_snapshots_ok _ _ _ _ Hinv) as Hm.
  assert (index_key environment t ≠ state_key environment t s.(sn_run_id)) as Hkeys
    by (intros Heq; symmetry in Heq; by apply state_key_not_index in Heq).
  assert (∀ s0, m !! s.(sn_run_id) = Some s0 →
    index_ok s0 ∧ s0.(sn_tenant_id) = s.(sn_tenant_id) ∧ s0.(sn_run_id) = s.(sn_run_id)) as Hold.
  { intros s0 Hs0. destruct (inv_snapshots _ _ _ _ Hinv _ _ Hs0) as (_ & ? & -> & ->). by rewrite Hst. }
  pose proof (active_index_cas_spec _ _ _ s ttl z (surroundings srv) Hkeys Hs Httl Hz
    (inv_states _ _ _ _ Hinv _ Hr) Hold) as Hcas.
  pose proof (indexes_write m listed ready z s Hm Hs Hidx) as Hnew.
  destruct (index_register (m !! s.(sn_run_id)) s) as [[status stored] newest] eqn:Hreg. cbn [fst snd] in Hnew.
  destruct (index_register_spec _ _ _ _ _ Hreg) as (Hc & -> & Hle & Hwhich & _).
  destruct Hcas as (srv' & Hrun & He). exists srv'.
  assert (index_ok newest ∧ newest.(sn_tenant_id) = t ∧ newest.(sn_run_id) = s.(sn_run_id)) as (Hnok & Hnt & Hnr).
  { destruct Hwhich as [->|Hs0]; [done|]. by destruct (inv_snapshots _ _ _ _ Hinv _ _ Hs0) as (_ & ? & ? & ?). }
  pose proof (snapshot_ok_inv s (proj1 Hs)) as (Hv & _).
  split; [by eapply run_effect_inv|]. split; [by destruct He as (_ & _ & ?)|].
  unfold index_write_snapshot, index_call, from_result. unfold mbind, eff_bind, attempt, eval, script_reply, assert_result.
  rewrite decide_True by done. rewrite active_run_index_key_eq, active_run_state_key_eq, sent_member
    by (rewrite ?Hst; try done; by apply Hruns).
  rewrite <- Hst in Hrun. unfold arguments_of in Hrun.
  destruct (state_record s (member_of s)) as [record hash]. cbn [fst snd] in Hrun. rewrite Hrun.
  pose proof (parse_index_reply status s.(sn_stream_version) newest.(sn_stream_version) Hv ltac:(lia) Hc) as Hparse.
  unfold index_reply in *. destruct d; [|done..]. cbn [mret eff_ret]. by rewrite Hparse.
Qed.
End index.
