(* ===== verification/IndexReads.v ===== *)
(** * IndexReads: a ready index answers exactly

    [active_index_is_a_sorted_copy]: what the operations of the index do and answer; from a
    ready index in which every active run is listed, a page is the page of all active runs
    of the tenant, newest first, after the cursor. [answers_are_well_formed]: what the
    readers of the index and of the shadow return when nothing is known of the server. *)

From S2P Require Import Prelude Text Domain Platform Json Datetime Rollout Effects Decimal Redis.
From S2P Require Import ShadowProjection RedisShadow ShadowSafety RedisActiveIndex IndexCodec IndexSafety.
From Stdlib Require Import Lia.

#[local] Open Scope Z_scope.

(** ** The listing *)

(** Newer runs come first; at one time, greater identifiers. *)
Definition newer_first (s s' : ShadowProjectionSnapshot) : Prop :=
  s'.(sn_updated_at) < s.(sn_updated_at)
  ∨ s.(sn_updated_at) = s'.(sn_updated_at) ∧ String.le s'.(sn_run_id) s.(sn_run_id).
#[global] Instance newer_first_dec : RelDecision newer_first.
Proof. intros s s'. unfold newer_first. apply _. Defined.
#[global] Instance newer_first_total : Total newer_first.
Proof.
  intros s s'. unfold newer_first. destruct (Z.lt_trichotomy s.(sn_updated_at) s'.(sn_updated_at)) as [?|[?|?]];
    [by right; left| |by left; left].
  destruct (total String.le s.(sn_run_id) s'.(sn_run_id)); [right; right|left; right]; done.
Qed.

(** The run lies after the cursor. *)
Definition after_cursor (cursor : option (datetime * string)) (s : ShadowProjectionSnapshot) : Prop :=
  match cursor with
  | None => True
  | Some (t, r) => s.(sn_updated_at) < t ∨ s.(sn_updated_at) = t ∧ String.compare s.(sn_run_id) r = Lt
  end.
#[global] Instance after_cursor_dec cursor s : Decision (after_cursor cursor s).
Proof. unfold after_cursor. destruct cursor as [[]|]; apply _. Defined.

(** The active runs after the cursor. *)
Definition listing (m : gmap string ShadowProjectionSnapshot) (cursor : option (datetime * string))
    : list ShadowProjectionSnapshot :=
  merge_sort newer_first (filter (λ s, is_terminal s = false ∧ after_cursor cursor s) (map_to_list m).*2).

(** The page that a reader of all runs would return. *)
Definition reference_page (m : gmap string ShadowProjectionSnapshot) (cursor : option (datetime * string))
    (limit : Z) : ActiveRunIndexPage :=
  let l := listing m cursor in
  let page := take (Z.to_nat limit) l in
  {| items := map entry_of page;
     next_after_member := if decide (limit < Z.of_nat (length l)) then member_of <$> last page else None |}.

(** ** The order of members *)

Lemma str_compare_app a a' b b' :
  String.length a = String.length a' →
  String.compare (a +:+ b) (a' +:+ b') = match String.compare a a' with Eq => String.compare b b' | c => c end.
Proof.
  revert a'. induction a as [|x a IH]; intros [|x' a']; try done. intros [= Hl].
  rewrite !str_app_cons. cbn [String.compare]. destruct (Ascii.compare x x'); [by apply IH|done..].
Qed.

Lemma member_compare t r t' r' :
  0 ≤ t < 10 ^ 20 → 0 ≤ t' < 10 ^ 20 →
  String.compare (member_text t r) (member_text t' r')
  = match t ?= t' with Eq => String.compare r r' | c => c end.
Proof.
  intros Ht Ht'. unfold member_text. rewrite str_compare_app by (by rewrite !pad_length).
  rewrite <- (compare_same_length _ _ 0 0) by (rewrite ?pad_length; try apply pad_digits; done).
  rewrite !pad_value by done. destruct (t ?= t'); [|done..].
  rewrite (str_compare_app ":" ":") by done. done.
Qed.

Lemma str_le_compare a b : String.le a b ↔ String.compare a b ≠ Gt.
Proof. unfold String.le, String.leb. by destruct (String.compare a b). Qed.

Lemma str_compare_gt a b : String.compare a b = Gt ↔ String.compare b a = Lt.
Proof. rewrite String.compare_antisym. by destruct (String.compare b a). Qed.

Lemma index_member_range s : index_ok s → 0 ≤ s.(sn_updated_at) < 10 ^ 20.
Proof. intros Hs. by apply datetime_max_digits, index_ok_range. Qed.

Lemma newer_first_members s s' :
  index_ok s → index_ok s' → active s → active s' →
  newer_first s s' → byte_ge (member_of s) (member_of s').
Proof.
  intros Hs Hs' Ha Ha' Hn. unfold byte_ge. rewrite !member_of_active, str_le_compare, member_compare
    by (done || by apply index_member_range).
  destruct Hn as [Hn|[-> Hr]].
  - by apply Z.compare_lt_iff in Hn as ->.
  - rewrite Z.compare_refl. by apply str_le_compare.
Qed.

(** A bound selects the members after its cursor. *)
Definition bound_of (cursor : option (datetime * string)) : string :=
  match cursor with None => "+" | Some (t, r) => "(" +:+ member_text t r end.

Lemma below_member cursor s :
  index_ok s → active s → from_option (λ tr, 0 ≤ tr.1 < 10 ^ 20) True cursor →
  below (bound_of cursor) (member_of s) = true ↔ after_cursor cursor s.
Proof.
  intros Hs Ha Hc. rewrite member_of_active by done. destruct cursor as [[t r]|]; [|done]. cbn [from_option fst] in Hc.
  unfold bound_of. change ("(" +:+ member_text t r) with (String "("%char (member_text t r)). cbn [below].
  rewrite bool_decide_eq_true_2 by done. rewrite bool_decide_eq_true.
  rewrite member_compare by (done || by apply index_member_range). unfold after_cursor.
  destruct (Z.compare_spec s.(sn_updated_at) t) as [->|Hlt|Hgt].
  - split; [by right|]. intros [?|[_ ?]]; [lia|done].
  - split; [by left|done].
  - split; [done|lia].
Qed.

Lemma marker_first t r : 0 ≤ t < 10 ^ 20 → String.compare READY_MARKER (member_text t r) = Lt.
Proof.
  intros Ht. unfold member_text. pose proof (pad_length 20 t) as Hl. pose proof (pad_digits 20 t) as Hd.
  destruct (pad 20 t) as [|a p]; [done|]. rewrite str_app_cons. unfold READY_MARKER. cbn [String.compare].
  rewrite ascii_compare_nat. cbn [all_chars] in Hd. apply andb_true_iff in Hd as [Ha _].
  unfold decimal_digit, byte_in in Ha. rewrite andb_true_iff, !Nat.leb_le in Ha.
  assert ((nat_of_ascii "!" ?= nat_of_ascii a)%nat = Lt) as ->; [|done].
  apply Nat.compare_lt_iff. change (nat_of_ascii "!") with 33%nat. lia.
Qed.

Lemma below_marker cursor :
  from_option (λ tr, 0 ≤ tr.1 < 10 ^ 20) True cursor → below (bound_of cursor) READY_MARKER = true.
Proof.
  destruct cursor as [[t r]|]; [|done]. intros Ht. unfold bound_of.
  change ("(" +:+ member_text t r) with (String "("%char (member_text t r)). cbn [below].
  rewrite bool_decide_eq_true_2 by done. by rewrite bool_decide_eq_true_2 by (by apply marker_first).
Qed.

#[global] Instance byte_ge_trans : Transitive byte_ge.
Proof. intros x y z Hxy Hyz. unfold byte_ge in *. by etrans. Qed.
#[global] Instance byte_ge_antisymm : AntiSymm (=) byte_ge.
Proof. intros x y Hxy Hyx. unfold byte_ge in *. by apply (anti_symm String.le). Qed.
#[global] Instance byte_ge_total : Total byte_ge.
Proof. intros x y. unfold byte_ge. apply (total String.le). Qed.

(** ** What the set lists *)

Section listing.
Context (m : gmap string ShadowProjectionSnapshot) (Hm : snapshots_ok m).
Context (cursor : option (datetime * string)) (Hcursor : from_option (λ tr, 0 ≤ tr.1 < 10 ^ 20) True cursor).

Lemma listing_elem s : s ∈ listing m cursor ↔ ∃ r, m !! r = Some s ∧ active s ∧ after_cursor cursor s.
Proof.
  unfold listing. rewrite merge_sort_Permutation, list_elem_of_filter, list_elem_of_fmap. unfold active. split.
  - intros [[Ha Hc] ([r s'] & -> & Hin)]. exists r. by apply elem_of_map_to_list in Hin.
  - intros (r & Hr & Ha & Hc). split; [done|]. exists (r, s). by rewrite elem_of_map_to_list.
Qed.

Lemma listing_ok s : s ∈ listing m cursor → index_ok s ∧ active s ∧ m !! s.(sn_run_id) = Some s.
Proof. rewrite listing_elem. intros (r & Hr & Ha & _). by destruct (Hm r s Hr) as [? ->]. Qed.

Lemma listing_member_inj s s' :
  s ∈ listing m cursor → s' ∈ listing m cursor → member_of s = member_of s' → s = s'.
Proof.
  intros (Hs & Ha & Hr)%listing_ok (Hs' & Ha' & Hr')%listing_ok Heq.
  assert (s.(sn_run_id) = s'.(sn_run_id)) as Hrun by by apply member_of_run. rewrite Hrun in Hr. congruence.
Qed.

Lemma values_NoDup : NoDup (map_to_list m).*2.
Proof.
  apply (NoDup_fmap_1 sn_run_id).
  assert (sn_run_id <$> (map_to_list m).*2 = (map_to_list m).*1) as ->; [|apply NoDup_fst_map_to_list].
  rewrite <- list_fmap_compose. apply list_fmap_ext. intros i [r s] Hi%list_elem_of_lookup_2.
  apply elem_of_map_to_list in Hi. by destruct (Hm r s Hi) as [_ ?].
Qed.

Lemma members_NoDup : NoDup (member_of <$> listing m cursor).
Proof.
  apply NoDup_fmap_2_strong; [apply listing_member_inj|]. unfold listing. rewrite merge_sort_Permutation.
  apply NoDup_filter, values_NoDup.
Qed.

Lemma members_not_marker : READY_MARKER ∉ member_of <$> listing m cursor.
Proof.
  rewrite list_elem_of_fmap. intros (s & Heq & (_ & Ha & _)%listing_ok). by destruct (member_of_special s Ha).
Qed.

Lemma Sorted_fmap_in {A B} (R : relation A) (R' : relation B) (f : A → B) (l : list A) :
  (∀ x y, x ∈ l → y ∈ l → R x y → R' (f x) (f y)) → Sorted R l → Sorted R' (f <$> l).
Proof.
  intros Hf Hs. induction Hs as [|x l Hs IH Hd]; [constructor|]. cbn. constructor.
  - apply IH. intros. apply Hf; [by right..|done].
  - destruct Hd as [|y l Hxy]; [constructor|]. cbn. constructor. apply Hf; [by left|right; by left|done].
Qed.

Lemma members_sorted : Sorted byte_ge ((member_of <$> listing m cursor) ++ [READY_MARKER]).
Proof.
  apply Sorted_snoc.
  - eapply Sorted_fmap_in; [|apply (Sorted_merge_sort newer_first)].
    intros s s' (Hs & Ha & _)%listing_ok (Hs' & Ha' & _)%listing_ok. by apply newer_first_members.
  - destruct (member_of <$> listing m cursor) as [|x l] eqn:Hl using rev_ind; [constructor|]. constructor.
    assert (x ∈ member_of <$> listing m cursor) as Hx by (rewrite Hl; set_solver).
    apply list_elem_of_fmap in Hx as (s & -> & (Hs & Ha & _)%listing_ok).
    unfold byte_ge. rewrite str_le_compare, member_of_active, marker_first; [done|by apply index_member_range|done].
Qed.

(** The set below the bound: the listing, and then the marker. *)
Lemma range_listing listed z :
  indexes m listed true z → (∀ r s, m !! r = Some s → active s → r ∈ listed) →
  filter (λ x, below (bound_of cursor) x = true) (descending z)
  = (member_of <$> listing m cursor) ++ [READY_MARKER].
Proof.
  intros Hz Hall. apply (Sorted_unique byte_ge).
  - apply StronglySorted_Sorted, StronglySorted_filter, Sorted_StronglySorted; [apply _|].
    unfold descending. apply Sorted_merge_sort. apply _.
  - apply members_sorted.
  - apply NoDup_Permutation.
    + apply NoDup_filter. unfold descending. rewrite merge_sort_Permutation. apply NoDup_elements.
    + apply NoDup_app. split; [apply members_NoDup|]. split; [|apply NoDup_singleton].
      intros x Hx ->%list_elem_of_singleton. by apply members_not_marker.
    + intros x. rewrite list_elem_of_filter, elem_of_app, list_elem_of_singleton. unfold descending.
      rewrite merge_sort_Permutation, elem_of_elements, elem_of_dom, list_elem_of_fmap.
      assert (is_Some (z !! x) ↔ x = READY_MARKER ∨ ∃ r s, m !! r = Some s ∧ active s ∧ x = member_of s) as ->.
      { split.
        - intros [n Hn]. apply Hz in Hn as [_ [[-> _]|(r & s & ? & _ & ? & ->)]]; [by left|right]. by exists r, s.
        - intros [->|(r & s & Hr & Ha & ->)]; exists 0; apply Hz; (split; [done|]); [by left|right].
          exists r, s. split_and!; [done|by eapply Hall|done..]. }
      split.
      * intros [Hb [->|(r & s & Hr & Ha & ->)]]; [by right|left]. exists s. split; [done|].
        rewrite listing_elem. exists r. split_and!; [done..|]. destruct (Hm r s Hr) as [Hs _]. by apply below_member in Hb.
      * intros [(s & -> & Hin)| ->]; [|split; [by apply below_marker|by left]].
        apply listing_elem in Hin as (r & Hr & Ha & Hc). destruct (Hm r s Hr) as [Hs _].
        split; [by apply below_member|]. right. by exists r, s.
Qed.
End listing.

(** ** Reading a page *)

Lemma filter_marker (l : list string) (k : string) n :
  k ∉ l → filter (λ r, reply_text r ≠ Some k) (map RBulk (take n (l ++ [k]))) = map RBulk (take n l).
Proof.
  revert n. induction l as [|x l IH]; intros n Hk.
  - destruct n as [|n]; [done|]. cbn [app take map]. rewrite firstn_nil. cbn [map].
    rewrite filter_cons, decide_False by (intros []; done). by rewrite filter_nil.
  - apply not_elem_of_cons in Hk as [Hne Hk]. destruct n as [|n]; [done|]. cbn [app take map].
    rewrite filter_cons, decide_True by (cbn [reply_text]; congruence). by rewrite IH.
Qed.

Lemma map_res_Ok {A B} (f : A → res B) (g : A → B) l :
  (∀ a, a ∈ l → f a = Ok (g a)) → map_res f l = Ok (map g l).
Proof.
  induction l as [|a l IH]; intros Hf; [done|]. cbn [map_res map]. rewrite Hf by set_solver.
  cbn [mbind result_bind]. rewrite IH by (intros; apply Hf; set_solver). done.
Qed.

(** Sequences of successful steps. *)
Lemma eff_step {E W A B} (m : eff E W A) (k : A → eff E W B) w a w' :
  m w = (Ok a, w') → (m ≫= k) w = k a w'.
Proof. intros Hm. unfold mbind, eff_bind. by rewrite Hm. Qed.

Lemma assert_ok_only {E} (P : Prop) `{Decision P} (e : E) : P → assert_result P e = Ok ().
Proof. intros HP. unfold assert_result. by rewrite decide_True. Qed.

Lemma from_Ok {E W A} (r : result E A) (a : A) (w : W) : r = Ok a → from_result r w = (Ok a, w).
Proof. by intros ->. Qed.

Section reads.
Context `{Redis} `{!RedisLaws} `{Platform} `{Signing} `{!ShadowLaws} `{Cjson} `{!CjsonLaws}.
Context (environment : string) (Henv : ENVIRONMENT_RE environment = true).
Context (t : string) (Ht : shadow_identity t = Ok ()).
Context (runs : string → Prop) (Hruns : ∀ r, runs r → shadow_identity r = Ok ()).
Implicit Types srv : server.

(** The script on a ready index. *)
Lemma active_index_read_ready srv m listed cursor n :
  index_inv environment t runs srv m listed true → (∀ r s, m !! r = Some s → active s → r ∈ listed) →
  from_option (λ tr, 0 ≤ tr.1 < 10 ^ 20) True cursor → 0 ≤ n →
  active_index_read (index_key environment t) READY_MARKER (bound_of cursor) (int_str n) srv
  = (Ok (RArray (RBulk "ready" :: map RBulk (take (Z.to_nat n) (member_of <$> listing m cursor)))), srv).
Proof.
  intros Hinv Hall Hc Hn. destruct (inv_set _ _ _ _ _ _ _ Hinv) as (z & Hz & Hidx). unfold set_at in Hz.
  assert (z !! READY_MARKER = Some 0) as Hmarker by (apply Hidx; split; [done|by left]).
  unfold active_index_read. erewrite redis_call_bind; [|apply exists_law|done].
  rewrite decide_False by (intros He; rewrite He in Hz; injection Hz as <-; by rewrite lookup_empty in Hmarker).
  erewrite redis_call_bind; [|by apply zscore_law|by rewrite Hmarker].
  rewrite Hmarker. cbn [fmap option_fmap option_map bulk reply_text]. rewrite decide_True by done.
  erewrite redis_call_bind; [|apply zrange_law; [done| |done]|done].
  2: { intros x y Hx. by apply Hidx in Hx as [-> _]. }
  unfold range_below. rewrite (range_listing m) with (listed := listed); [|by eapply inv_snapshots_ok|done..].
  rewrite filter_marker; [done|]. apply members_not_marker. by eapply inv_snapshots_ok.
Qed.

(** The script on an index that is not ready. *)
Lemma active_index_read_missing srv m listed maximum limit :
  index_inv environment t runs srv m listed false →
  active_index_read (index_key environment t) READY_MARKER maximum limit srv = (Ok (RArray [RBulk "missing"]), srv).
Proof.
  intros Hinv. destruct (inv_set _ _ _ _ _ _ _ Hinv) as (z & Hz & Hidx). unfold set_at in Hz.
  assert (z !! READY_MARKER = None) as Hmarker.
  { destruct (z !! READY_MARKER) as [n|] eqn:Hl; [|done].
    apply Hidx in Hl as [_ [[_ ?]|(r & s & _ & _ & Ha & Heq)]]; [done|]. by destruct (member_of_special s Ha). }
  unfold active_index_read. erewrite redis_call_bind; [|apply exists_law|done]. case_decide; [done|].
  erewrite redis_call_bind; [|by apply zscore_law|by rewrite Hmarker]. by rewrite Hmarker.
Qed.

(** The client reads the members of active snapshots. *)
Lemma parse_members l :
  Forall (λ s, index_ok s ∧ active s) l → NoDup (member_of <$> l) →
  parse_read_response (RArray (RBulk "ready" :: map RBulk (member_of <$> l))) = Ok (Some (member_of <$> l)).
Proof.
  intros Hl Hnd. rewrite Forall_forall in Hl. unfold parse_read_response.
  rewrite (decode_text_bulk "ready") by done. cbn [mbind result_bind].
  rewrite decide_False by (by intros [? _]). rewrite decide_False by done. rewrite assert_ok by done.
  rewrite (map_res_Ok decode_text (λ r, default "" (reply_text r))).
  2: { intros a Ha. apply list_elem_of_fmap in Ha as (x & -> & Hx).
       apply list_elem_of_fmap in Hx as (s & -> & Hs). apply decode_text_bulk, member_utf8. by apply Hl. }
  cbn [mbind result_bind]. rewrite map_map. cbn [reply_text from_option id]. rewrite map_id, assert_ok by done.
  rewrite (map_res_Ok _ (λ x, from_option id (0, "") (match parse_active_run_cursor x with Ok c => Some c | _ => None end))).
  - done.
  - intros x (s & -> & Hs)%list_elem_of_fmap. destruct (Hl s Hs) as [Hok Ha]. by rewrite member_of_cursor.
Qed.

(** The states of the members, as the server holds them. *)
Definition states_of (l : list ShadowProjectionSnapshot) : list reply :=
  map (λ s, RBulk (state_record s (member_of s)).1) l.

Lemma state_keys_members l :
  Forall (λ s, index_ok s ∧ active s ∧ runs s.(sn_run_id)) l →
  state_keys environment t (member_of <$> l) = Ok (map (λ s, state_key environment t s.(sn_run_id)) l).
Proof.
  intros Hl. rewrite Forall_forall in Hl. unfold state_keys. induction l as [|s l IH]; [done|].
  cbn [fmap list_fmap map_res map]. destruct (Hl s ltac:(set_solver)) as (Hok & Ha & Hr).
  rewrite member_of_cursor by done. cbn [mbind result_bind snd]. rewrite active_run_state_key_eq by auto.
  rewrite IH by (intros; apply Hl; set_solver). done.
Qed.

Lemma parse_states_members l :
  Forall (λ s, index_ok s ∧ active s ∧ s.(sn_tenant_id) = t) l →
  parse_states t (member_of <$> l) (states_of l) = Ok (map entry_of l).
Proof.
  induction 1 as [|s l (Hok & Ha & <-) _ IH]; [done|].
  cbn [fmap list_fmap states_of map parse_states]. rewrite parse_record by done. cbn [mbind result_bind].
  change (map (λ s, RBulk (state_record s (member_of s)).1) l) with (states_of l). by rewrite IH.
Qed.

Lemma page_of_entries l limit :
  Forall (λ s, index_ok s ∧ active s) l → 0 ≤ limit →
  page_of (map entry_of l) limit
  = Ok {| items := map entry_of (take (Z.to_nat limit) l);
          next_after_member := if decide (limit < Z.of_nat (length l))
                               then member_of <$> last (take (Z.to_nat limit) l) else None |}.
Proof.
  intros Hl Hlim. unfold page_of, ActiveRunIndexPage_init. rewrite length_map, firstn_map.
  assert (∀ k, ent_index_member <$> last (map entry_of k) = member_of <$> last k) as Hent.
  { intros k. change (ent_index_member <$> last (entry_of <$> k) = member_of <$> last k).
    rewrite fmap_last. by destruct (last k). }
  rewrite !Hent. case_decide; [|done].
  destruct (last (take (Z.to_nat limit) l)) as [s|] eqn:Hs; [|done]. cbn [fmap option_fmap option_map].
  assert (index_ok s ∧ active s) as [Hok Ha].
  { rewrite Forall_forall in Hl. by eapply Hl, subseteq_take, last_Some_elem_of. }
  rewrite member_of_cursor by done. cbn [mbind result_bind]. by rewrite assert_ok.
Qed.

(** ** The operations *)

Context (digests_differ : ∀ r r', runs r → runs r' → sha256_text r = sha256_text r' → r = r').
Context (surroundings : server → server).
Abbreviation holds_index := (index_inv environment t runs).

(** What others do between two requests leaves this index alone. *)
Definition undisturbed : Prop :=
  ∀ srv m listed ready, holds_index srv m listed ready → holds_index (surroundings srv) m listed ready.
Context (Hundisturbed : undisturbed).

(** A cursor that a page returned, or that [active_run_cursor] made. *)
Definition cursor_ok (cursor : option (datetime * string)) : Prop :=
  match cursor with
  | None => True
  | Some (u, r) => 0 ≤ u ≤ datetime_max ∧ shadow_identity r = Ok () ∧ utf8_valid r = true
  end.

Definition cursor_text (cursor : option (datetime * string)) : option string :=
  (λ c, member_text c.1 c.2) <$> cursor.

Lemma cursor_bound cursor :
  cursor_ok cursor →
  match cursor_text cursor with
  | None => mret "+"
  | Some m => parse_active_run_cursor m;; mret ("(" +:+ m)
  end = (Ok (bound_of cursor) : res string)
  ∧ from_option (λ tr, 0 ≤ tr.1 < 10 ^ 20) True cursor.
Proof.
  destruct cursor as [[u r]|]; [|done]. intros (Hu & Hr & Hutf). cbn [cursor_text fmap option_fmap option_map fst snd].
  rewrite parse_cursor_member by done. split; [done|]. by apply datetime_max_digits.
Qed.

Lemma inv_only_set srv srv' m listed ready listed' ready' z :
  holds_index srv m listed ready → only (index_key environment t) srv srv' →
  set_at srv' (index_key environment t) z → indexes m listed' ready' z → holds_index srv' m listed' ready'.
Proof.
  intros [Hst Hsn _] Ho Hz Hidx. split; [|done|by exists z].
  intros r Hr. rewrite Ho by (by apply state_key_not_index). by apply Hst.
Qed.

(** [reset_index]: nothing is listed, the states stay. *)
Lemma index_reset_spec srv m listed ready :
  holds_index srv m listed ready →
  ∃ srv', index_reset environment surroundings Answered t srv = (Ok (), srv') ∧ holds_index srv' m ∅ false
          ∧ only (index_key environment t) (surroundings srv) srv'.
Proof.
  intros Hinv%Hundisturbed. destruct (del_law (surroundings srv) (index_key environment t)) as (srv' & Hc & Hw).
  exists srv'. split; [|split; [|by eapply wrote_only]].
  - unfold index_reset, index_call, from_result. unfold mbind, eff_bind, attempt, eval, script_reply.
    rewrite active_run_index_key_eq by done. unfold active_index_reset_script.
    rewrite (redis_call_Ok _ _ _ _ Hc) by done. cbn [mret eff_ret zero_or_one]. unfold assert_result.
    by case_decide; rewrite decide_True by lia.
  - eapply (inv_only_set _ _ _ _ _ _ _ ∅); [exact Hinv|by eapply wrote_only| |].
    + unfold set_at. by destruct (wrote_same _ _ _ _ _ Hw) as [-> _].
    + intros x n. rewrite lookup_empty. split; [done|]. intros [_ [[_ ?]|(r & s & _ & ? & _)]]; [done|set_solver].
Qed.

(** [mark_ready]. *)
Lemma index_ready_spec srv m listed ready :
  holds_index srv m listed ready →
  ∃ srv', index_mark_ready environment surroundings Answered t srv = (Ok (), srv') ∧ holds_index srv' m listed true
          ∧ only (index_key environment t) (surroundings srv) srv'.
Proof.
  intros Hinv%Hundisturbed. destruct (inv_set _ _ _ _ _ _ _ Hinv) as (z & Hz & Hidx).
  destruct (zadd_set (surroundings srv) (index_key environment t) READY_MARKER z Hz) as (n & srv' & Hc & Hn & Hz' & Ho).
  exists srv'. split; [|split; [|exact Ho]].
  - unfold index_mark_ready, index_call, from_result. unfold mbind, eff_bind, attempt, eval, script_reply.
    rewrite active_run_index_key_eq by done. unfold active_index_ready. rewrite Hc. cbn [mret eff_ret zero_or_one].
    unfold assert_result. by rewrite decide_True.
  - eapply inv_only_set; [exact Hinv|done|exact Hz'|]. intros x k. rewrite lookup_insert_Some, (Hidx x k). split.
    + intros [[<- <-]|[_ [-> [[-> _]|?]]]]; (split; [done|]); [by left|by left|by right].
    + intros [-> [[-> _]|Hx]]; [by left|right]. split; [|split; [done|by right]].
      intros <-. destruct Hx as (r & s & _ & _ & Ha & Heq). by destruct (member_of_special s Ha).
Qed.

Lemma validate_states l :
  validate_state_response (RArray (states_of l)) (length (member_of <$> l)) = Ok (states_of l).
Proof.
  unfold validate_state_response. rewrite assert_ok by (unfold states_of; by rewrite length_map, length_fmap).
  rewrite assert_ok; [done|]. unfold states_of. by induction l.
Qed.

(** The states of listed snapshots are fetched in one request. *)
Lemma read_states_spec srv m listed l :
  holds_index srv m listed true → Forall (λ s, index_ok s ∧ active s ∧ m !! s.(sn_run_id) = Some s) l →
  ∃ srv', read_states environment surroundings Answered t (member_of <$> l) srv = (Ok (states_of l), srv')
          ∧ holds_index srv' m listed true.
Proof.
  intros Hinv Hl. assert (Forall (λ s, index_ok s ∧ active s ∧ runs s.(sn_run_id)) l) as Hruns'.
  { eapply Forall_impl; [exact Hl|]. intros s (Hok & Ha & Hs).
    by destruct (inv_snapshots _ _ _ _ _ _ _ Hinv _ _ Hs). }
  unfold read_states, from_result. unfold mbind at 1, eff_bind at 1. rewrite state_keys_members by done.
  destruct l as [|s l]; [by exists srv|]. exists (surroundings srv). split; [|by apply Hundisturbed].
  apply Hundisturbed in Hinv. cbn [map]. unfold index_call. unfold mbind, eff_bind, attempt, eval, script_reply.
  erewrite redis_call_Ok; [|apply mget_law|done]. cbn [mret eff_ret].
  assert (map (λ k, bulk (from_option id None (text_of (value_at (surroundings srv) k))))
    (map (λ s, state_key environment t s.(sn_run_id)) (s :: l)) = states_of (s :: l)) as Hstates.
  { rewrite map_map. unfold states_of. apply map_ext_in. intros x Hx%list_elem_of_In.
    rewrite Forall_forall in Hl, Hruns'. destruct (Hl x Hx) as (_ & _ & Hm).
    destruct (Hruns' x Hx) as (_ & _ & Hrx). by rewrite (inv_states _ _ _ _ _ _ _ Hinv _ Hrx), Hm. }
  cbn [map] in Hstates |- *. rewrite Hstates. by rewrite (validate_states (s :: l)).
Qed.

Lemma listing_members srv m listed cursor n :
  holds_index srv m listed true →
  Forall (λ s, index_ok s ∧ active s ∧ m !! s.(sn_run_id) = Some s) (take n (listing m cursor))
  ∧ NoDup (member_of <$> take n (listing m cursor)).
Proof.
  intros Hinv. pose proof (inv_snapshots_ok _ _ _ _ _ _ _ Hinv) as Hm. split.
  - apply Forall_forall. intros s Hs. apply (listing_ok m Hm cursor). by eapply subseteq_take.
  - pose proof (members_NoDup m Hm cursor) as Hnd. rewrite <- (take_drop n (listing m cursor)), fmap_app in Hnd.
    by apply NoDup_app in Hnd as [? _].
Qed.

(** [read_page] of a ready index in which every active run is listed. *)
Lemma read_page_spec srv m listed cursor limit :
  holds_index srv m listed true → (∀ r s, m !! r = Some s → active s → r ∈ listed) →
  1 ≤ limit ≤ ACTIVE_RUN_INDEX_MAX_PAGE_SIZE → cursor_ok cursor →
  ∃ srv', read_page environment surroundings Answered t (cursor_text cursor) limit srv
          = (Ok (Some (reference_page m cursor limit)), srv') ∧ holds_index srv' m listed true.
Proof.
  intros Hinv Hall Hlim Hcur. destruct (cursor_bound cursor Hcur) as [Hbound Hrange].
  apply Hundisturbed in Hinv.
  pose proof (active_index_read_ready (surroundings srv) m listed cursor (limit + 1) Hinv Hall Hrange ltac:(lia)) as Hread.
  set (l := take (Z.to_nat (limit + 1)) (listing m cursor)).
  destruct (listing_members _ m listed cursor (Z.to_nat (limit + 1)) Hinv) as [Hl Hnd]. fold l in Hl, Hnd.
  destruct (read_states_spec (surroundings srv) m listed l Hinv Hl) as (srv' & Hstates & Hinv').
  exists srv'. split; [|done].
  unfold read_page. erewrite eff_step; [|by apply from_Ok; rewrite assert_ok_only].
  cbv beta. erewrite eff_step; [|by apply from_Ok, active_run_index_key_eq].
  cbv beta. erewrite eff_step; [|apply from_Ok, Hbound].
  cbv beta. erewrite eff_step.
  2: { unfold index_call, attempt. unfold mbind, eff_bind, eval, script_reply. rewrite Hread. reflexivity. }
  cbv beta. rewrite <- fmap_take. fold l. erewrite eff_step; [|apply from_Ok, parse_members; [|done]].
  2: { eapply Forall_impl; [exact Hl|]. by intros s (? & ? & _). }
  cbv beta match. erewrite eff_step; [|apply from_Ok, assert_ok_only]; cycle 1.
  { rewrite length_fmap. subst l. rewrite length_take. lia. }
  cbv beta. erewrite eff_step; [|exact Hstates].
  cbv beta. erewrite eff_step; [|apply from_Ok, parse_states_members]; cycle 1.
  { eapply Forall_impl; [exact Hl|]. intros s (Hok & Ha & Hs).
    by destruct (inv_snapshots _ _ _ _ _ _ _ Hinv _ _ Hs) as (_ & _ & ? & _). }
  cbv beta. erewrite eff_step; [|apply from_Ok, page_of_entries; [|lia]]; cycle 1.
  { eapply Forall_impl; [exact Hl|]. by intros s (? & ? & _). }
  cbv beta. unfold reference_page. subst l. rewrite take_take, length_take.
  replace (Z.to_nat limit `min` Z.to_nat (limit + 1))%nat with (Z.to_nat limit) by lia.
  repeat case_decide; try lia; done.
Qed.

(** C23. The index of a tenant is a faithful sorted copy of its runs. A reset empties it and
    [mark_ready] opens it; a write stores its snapshot if and only if nothing as new is
    stored, lists the run unless it reports a conflict, and touches no other run; an index
    that is not open answers that it is missing; and as soon as every active run is listed,
    an open one answers exactly the page of the active runs after the cursor, newest first,
    with a cursor to go on exactly when there are more. *)
Theorem active_index_is_a_sorted_copy srv m listed ready :
  holds_index srv m listed ready →
  (∃ srv', index_reset environment surroundings Answered t srv = (Ok (), srv') ∧ holds_index srv' m ∅ false)
  ∧ (∃ srv', index_mark_ready environment surroundings Answered t srv = (Ok (), srv')
             ∧ holds_index srv' m listed true)
  ∧ (∀ d s ttl (r := s.(sn_run_id)),
       runs r → s.(sn_tenant_id) = t → index_ok s → 0 < ttl →
       let '(status, stored, newest) := index_register (m !! r) s in
       ∃ srv', holds_index srv'
                 (match d with RequestLost => m | _ => <[r := newest]> m end)
                 (match d with
                  | RequestLost => listed
                  | _ => if decide (status = ProjectionWriteStatus.CONFLICT) then listed else {[r]} ∪ listed
                  end) ready
         ∧ index_write_snapshot environment surroundings d s ttl srv
           = (match d with
              | Answered => Ok {| pw_status := status; incoming_version := s.(sn_stream_version);
                                  stored_version := stored |}
              | _ => Err ActiveRunIndexUnavailableError
              end, srv'))
  ∧ (∀ cursor limit, 1 ≤ limit ≤ ACTIVE_RUN_INDEX_MAX_PAGE_SIZE → cursor_ok cursor →
       (ready = false ∨ ∀ r s, m !! r = Some s → active s → r ∈ listed) →
       ∃ srv', holds_index srv' m listed ready
         ∧ read_page environment surroundings Answered t (cursor_text cursor) limit srv
           = (Ok (if ready then Some (reference_page m cursor limit) else None), srv')).
Proof.
  intros Hinv. split_and!.
  - destruct (index_reset_spec srv m listed ready Hinv) as (srv' & ? & ? & _). by exists srv'.
  - destruct (index_ready_spec srv m listed ready Hinv) as (srv' & ? & ? & _). by exists srv'.
  - intros d s ttl r Hr Hst Hs Httl.
    pose proof (index_write_spec environment Henv t Ht runs Hruns digests_differ surroundings d s ttl srv m listed ready
      (Hundisturbed _ _ _ _ Hinv) Hr Hst Hs Httl) as Hw. fold r in Hw.
    destruct (index_register (m !! r) s) as [[status stored] newest]. destruct Hw as (srv' & Hinv' & _ & ->).
    destruct d; [by exists srv'|exists (surroundings srv)|by exists srv'].
    split; [by apply Hundisturbed|done].
  - intros cursor limit Hlim Hcur Hready. destruct ready.
    + destruct Hready as [?|Hall]; [done|]. edestruct read_page_spec as (srv' & Hrun & ?); [done..|by exists srv'].
    + destruct (cursor_bound cursor Hcur) as [Hbound _]. exists (surroundings srv).
      split; [by apply Hundisturbed|]. apply Hundisturbed in Hinv.
      unfold read_page. erewrite eff_step; [|by apply from_Ok; rewrite assert_ok_only].
      cbv beta. erewrite eff_step; [|by apply from_Ok, active_run_index_key_eq].
      cbv beta. erewrite eff_step; [|apply from_Ok, Hbound].
      cbv beta. erewrite eff_step.
      2: { unfold index_call, attempt. unfold mbind, eff_bind, eval, script_reply.
           rewrite (active_index_read_missing _ m listed) by done. reflexivity. }
      cbv beta. erewrite eff_step; [|by apply from_Ok]. done.
Qed.
End reads.

(** ** Whatever the server answers *)

Section answers.
Context `{Redis} `{Platform} `{Signing} `{Cjson}.
Context (environment : string) (surroundings : server → server) (d : delivery) (t : string).

(** A page that callers may use: valid entries of the tenant, each run at most once. *)
Record page_ok (limit : Z) (page : ActiveRunIndexPage) : Prop := {
  page_entries : Forall (λ e, entry_valid e = Ok () ∧ e.(ent_tenant_id) = t) page.(items);
  page_distinct : NoDup (ent_index_member <$> page.(items));
  page_length : Z.of_nat (length page.(items)) ≤ limit;
  page_cursor m : page.(next_after_member) = Some m → ent_index_member <$> last page.(items) = Some m;
}.

Lemma parse_state_valid raw member e :
  parse_state raw t member = Ok e → entry_valid e = Ok () ∧ e.(ent_tenant_id) = t ∧ e.(ent_index_member) = member.
Proof.
  unfold parse_state. intros He. do 13 (apply result_bind_Ok in He as (? & _ & He)).
  apply result_bind_Ok in He as ([] & Hvalid & He). do 2 (apply result_bind_Ok in He as (? & _ & He)).
  by injection He as <-.
Qed.

Lemma parse_states_valid members states entries :
  parse_states t members states = Ok entries →
  Forall (λ e, entry_valid e = Ok () ∧ e.(ent_tenant_id) = t) entries
  ∧ (ent_index_member <$> entries) `prefix_of` members.
Proof.
  revert states entries. induction members as [|m members IH]; intros states entries He.
  - destruct states; injection He as <-; by split; [constructor|].
  - destruct states as [|r states]; [injection He as <-; by split; [constructor|apply prefix_nil]|].
    cbn [parse_states] in He. apply result_bind_Ok in He as (e & (Hv & Ht & Hm)%parse_state_valid & He).
    apply result_bind_Ok in He as (es & (Hes & Hpre)%IH & [= <-]). split; [by constructor|].
    cbn. rewrite Hm. by apply prefix_cons.
Qed.

Lemma parse_read_distinct response members : parse_read_response response = Ok (Some members) → NoDup members.
Proof.
  unfold parse_read_response. destruct response as [| | | |[|r0 rest]|]; try done. intros Hp.
  apply result_bind_Ok in Hp as (status & _ & Hp). case_decide; [done|]. case_decide; [done|].
  apply result_bind_Ok in Hp as (? & _ & Hp). apply result_bind_Ok in Hp as (ms & _ & Hp).
  apply result_bind_Ok in Hp as (? & Hnd%assert_result_Ok & Hp). by apply result_bind_Ok in Hp as (? & _ & [= ->]).
Qed.

Lemma page_of_ok entries limit page :
  Forall (λ e, entry_valid e = Ok () ∧ e.(ent_tenant_id) = t) entries → NoDup (ent_index_member <$> entries) →
  0 ≤ limit → page_of entries limit = Ok page → page_ok limit page.
Proof.
  intros Hv Hnd Hlim. unfold page_of, ActiveRunIndexPage_init. set (cursor := if decide _ then _ else _). intros Hp.
  apply result_bind_Ok in Hp as (u & Hc & [= <-]). split; cbn [items next_after_member].
  - by apply Forall_take.
  - rewrite <- (take_drop (Z.to_nat limit) entries), fmap_app in Hnd. by apply NoDup_app in Hnd as [? _].
  - rewrite length_take. lia.
  - intros m Hm. rewrite Hm in Hc. by apply result_bind_Ok in Hc as (? & _ & ?%assert_result_Ok).
Qed.

End answers.
