(* ===== verification/Pipeline.v ===== *)
(** * Pipeline: the relay between PostgreSQL and Redis

    The relay of OutboxRelay.v with the components it runs with: the table run_outbox and
    the projection source in PostgreSQL, the shadow and the active index in Redis, and the
    publisher of hints. Before every request the rest of the system acts ([others]); the
    request, or its answer, may be lost. [keeps_promises] is what every party of the system
    promises to the others and relies on: it is the rely and the guarantee of the proof.
    [acknowledged_rows_are_projected]: a row that was acknowledged is projected. *)

From S2P Require Import Prelude Text Domain Platform Json Datetime Rollout Effects Decimal Redis.
From S2P Require Import ShadowProjection RedisShadow ShadowSafety ShadowConfig OutboxRelay OutboxSafety.
From S2P Require Import RunOutbox RedisActiveIndex IndexCodec IndexSafety.
From Stdlib Require Import Lia.

#[local] Open Scope Z_scope.

(** ** The system *)

Section system.
Context `{Redis} `{Platform} `{Signing} `{Cjson} `{Collation}.

(** What happens around one request of the relay. *)
Record happening := {
  others : pg * server → pg * server;
  locked : gset (string * string);
  sql : delivery;
  net : delivery;
}.

Record world := {
  w_pg : pg;
  w_redis : server;
  w_future : list happening;
}.

Definition quiet : happening :=
  {| others := id; locked := ∅; sql := Answered; net := Answered |}.

(** The next happening, and the world in which the request is made. *)
Definition next (w : world) : happening * world :=
  match w.(w_future) with
  | [] => (quiet, w)
  | h :: future =>
      let '(p, s) := h.(others) (w.(w_pg), w.(w_redis)) in
      (h, {| w_pg := p; w_redis := s; w_future := future |})
  end.

(** A transaction: its commit may be lost, or the answer to it. *)
Definition sql_call {A} (m : gset (string * string) → pyeff pg A) : pyeff world A := λ w,
  let '(h, w) := next w in
  match h.(sql) with
  | RequestLost => (Err OperationalError, w)
  | d =>
      let '(r, p) := m h.(locked) w.(w_pg) in
      (match d with Answered => r | _ => Err OperationalError end,
       {| w_pg := p; w_redis := w.(w_redis); w_future := w.(w_future) |})
  end.

Definition redis_request {A} (m : delivery → pyeff server A) : pyeff world A := λ w,
  let '(h, w) := next w in
  let '(r, s) := m h.(net) w.(w_redis) in
  (r, {| w_pg := w.(w_pg); w_redis := s; w_future := w.(w_future) |}).

(** The collaborators of a relay of the tenant [self]. *)
Definition ports (environment self : string) (policy : RedisCapability.t → string → res bool) : RelayPorts world := {|
  claim_outbox t p d l v := sql_call (λ locked, claim_outbox_rows locked t p (Some d) l v);
  mark_outbox_published t o p := sql_call (λ _, mark_published t o (Some p));
  load_projection t r := sql_call (λ _ s, (source_load self t r s, s));
  scan_projections after n := sql_call (λ _ s, (source_scan self after n s, s));
  sink s ttl := redis_request (λ d, write_projection environment id d s ttl);
  active_index_sink := Some {|
    write_snapshot s ttl := redis_request (λ d, index_write_snapshot environment id d s ttl);
    reset_index t := redis_request (λ d, index_reset environment id d t);
    mark_ready t := redis_request (λ d, index_mark_ready environment id d t) |};
  fanout_publisher := Some (λ s, redis_request (λ d, publish environment id d s));
  relay_policy := Some (λ c t w, (policy c t, w)) |}.
End system.

(** ** Promises *)

Section promises.
Context `{Redis} `{!RedisLaws} `{Platform} `{Signing} `{!ShadowLaws} `{Cjson} `{!CjsonLaws} `{Collation}.
Context (environment : string) (Henv : ENVIRONMENT_RE environment = true).
Context (self : string) (Hself : shadow_identity self = Ok ()).
(** The runs of the tenant: their digests differ. *)
Context (runs : string → Prop) (Hruns : ∀ r, runs r → shadow_identity r = Ok ()).
Context (digests_differ : ∀ r r', runs r → runs r' → sha256_text r = sha256_text r' → r = r').
Context (config : ShadowProjectionConfig) (Hconfig : ttl_config_valid config.(sc_ttl) = Ok ()).
Context (policy : RedisCapability.t → string → res bool).
Abbreviation state := (pg * server)%type.
Implicit Types x : state.

(** A snapshot of a run of the tenant that the index can hold. *)
Definition good (s : ShadowProjectionSnapshot) : Prop :=
  index_ok s ∧ s.(sn_tenant_id) = self ∧ runs s.(sn_run_id).

(** The rows of [runs] that belong to the tenant are encoded texts and times since the epoch. *)
Definition rows_ok (p : pg) : Prop :=
  ∀ r row, p.(pg_runs) !! (self, r) = Some row →
    runs r ∧ 0 ≤ row.(pr_updated_at) ∧ datetime_ok row.(pr_updated_at)
    ∧ Forall (λ u, utf8_valid u = true) [self; r; default "" row.(pr_phase)].

(** What the system's state satisfies throughout. *)
Record sane x : Prop := {
  sane_rows : rows_ok x.1;
  sane_shadow r : runs r → ∃ o, holds environment x.2 self r o;
  sane_index : ∃ m listed ready, index_inv environment self runs x.2 m listed ready;
}.

(** The shadow, and the index, hold the run at this version or a newer one. *)
Definition shadow_knows (srv : server) (t r : string) (v : Z) : Prop :=
  ∃ s, holds environment srv t r (Some s) ∧ v ≤ s.(sn_stream_version).
Definition index_knows (srv : server) (t r : string) (v : Z) : Prop :=
  ∃ m listed ready s, index_inv environment self runs srv m listed ready ∧ s.(sn_tenant_id) = t
    ∧ m !! r = Some s ∧ v ≤ s.(sn_stream_version).

(** The row's version is projected. *)
Definition projected (srv : server) (t : string) (row : OutboxRow) : Prop :=
  shadow_knows srv t row.(ob_run_id) row.(ob_stream_version)
  ∧ (redis_active_index_write config.(sc_features) = true →
     index_knows srv t row.(ob_run_id) row.(ob_stream_version)).

(** What identifies the claim of a row never changes. *)
Definition same_claim (row row' : OutboxRow) : Prop :=
  row'.(ob_run_id) = row.(ob_run_id) ∧ row'.(ob_stream_version) = row.(ob_stream_version)
  ∧ row'.(ob_destination) = row.(ob_destination).

(** A step of the system: versions in Redis never go back, rows of the outbox stay, and a row
    of the tenant is acknowledged only when it is projected. *)
Record keeps_promises x x' : Prop := {
  promise_sane : sane x → sane x';
  promise_shadow t r v : shadow_knows x.2 t r v → shadow_knows x'.2 t r v;
  promise_index t r v : index_knows x.2 t r v → index_knows x'.2 t r v;
  promise_rows k row : x.1.(pg_outbox) !! k = Some row →
    ∃ row', x'.1.(pg_outbox) !! k = Some row' ∧ same_claim row row';
  promise_acknowledged k row' :
    x'.1.(pg_outbox) !! k = Some row' → k.1 = self → row'.(ob_destination) = RUN_PROJECTION_DESTINATION →
    row'.(ob_published_at) ≠ None →
    (∃ row, x.1.(pg_outbox) !! k = Some row ∧ row.(ob_published_at) ≠ None) ∨ projected x'.2 self row';
}.

#[global] Instance same_claim_preorder : PreOrder same_claim.
Proof. split; [done|]. intros a b c (? & ? & ?) (? & ? & ?). unfold same_claim. split_and!; congruence. Qed.

Lemma projected_step x x' t row row' :
  keeps_promises x x' → same_claim row row' → projected x.2 t row → projected x'.2 t row'.
Proof.
  intros Hx (Hr & Hv & _) [Hs Hi]. unfold projected. rewrite Hr, Hv.
  split; [by eapply promise_shadow|]. intros Hon. eapply promise_index; [done|]. by apply Hi.
Qed.

#[global] Instance keeps_promises_preorder : PreOrder keeps_promises.
Proof.
  split.
  - intros x. split; [done..| |].
    + intros k row Hrow. by exists row.
    + intros k row' Hrow _ _ Hp. left. by exists row'.
  - intros x y z Hxy Hyz. split.
    + intros Hx. by eapply promise_sane, promise_sane.
    + intros t r v Hv. by eapply promise_shadow, promise_shadow.
    + intros t r v Hv. by eapply promise_index, promise_index.
    + intros k row Hrow. destruct (promise_rows _ _ Hxy k row Hrow) as (row1 & Hrow1 & Hsame).
      destruct (promise_rows _ _ Hyz k row1 Hrow1) as (row2 & Hrow2 & Hsame2). exists row2.
      split; [done|by etrans].
    + intros k row2 Hrow2 Hk Hd Hp.
      destruct (promise_acknowledged _ _ Hyz k row2 Hrow2 Hk Hd Hp) as [(row1 & Hrow1 & Hp1)|]; [|by right].
      destruct (promise_rows _ _ Hyz k row1 Hrow1) as (row2' & Hrow2' & Hsame).
      rewrite Hrow2 in Hrow2'. injection Hrow2' as <-. pose proof Hsame as (_ & _ & Hdest).
      destruct (promise_acknowledged _ _ Hxy k row1 Hrow1 Hk) as [|Hproj]; [congruence|done|by left|].
      right. by eapply projected_step.
Qed.

(** ** Requests *)

Definition relates (w w' : world) : Prop :=
  keeps_promises (w.(w_pg), w.(w_redis)) (w'.(w_pg), w'.(w_redis))
  ∧ ∃ n, w'.(w_future) = drop n w.(w_future).

(** The rest of the system keeps its promises, whenever it acts. *)
Definition trusted (h : happening) : Prop := ∀ x, sane x → keeps_promises x (h.(others) x).

Definition valid (w : world) : Prop := sane (w.(w_pg), w.(w_redis)) ∧ Forall trusted w.(w_future).

#[global] Instance relates_preorder : PreOrder relates.
Proof.
  split.
  - intros w. split; [done|]. by exists 0%nat.
  - intros a b c [Hab [n Hn]] [Hbc [k Hk]]. split; [by etrans|]. exists (n + k)%nat.
    by rewrite Hk, Hn, drop_drop.
Qed.

Lemma relates_valid w w' : relates w w' → valid w → valid w'.
Proof.
  intros [Hp [n Hn]] [Hs Hf]. split; [by eapply promise_sane|]. rewrite Hn. by apply Forall_drop.
Qed.

Lemma next_relates w : valid w → relates w (next w).2.
Proof.
  intros [Hs Hf]. unfold next. destruct (w_future w) as [|h future] eqn:Hfuture; [done|].
  apply Forall_cons_1 in Hf as [Hh _]. specialize (Hh _ Hs).
  destruct (others h (w_pg w, w_redis w)) as [p s] eqn:Ho. split; [done|].
  exists 1%nat. by rewrite Hfuture.
Qed.

Abbreviation keeps := (keeps relates valid).

Lemma sql_call_relates {A} (m : gset (string * string) → pyeff pg A) w :
  valid w →
  (∀ locked w1, relates w w1 → valid w1 →
     keeps_promises (w1.(w_pg), w1.(w_redis)) ((m locked w1.(w_pg)).2, w1.(w_redis))) →
  relates w (sql_call m w).2.
Proof.
  intros Hw Hm. pose proof (next_relates w Hw) as Hnext. unfold sql_call.
  destruct (next w) as [h w1]. cbn [snd] in Hnext. pose proof (relates_valid _ _ Hnext Hw) as Hw1.
  specialize (Hm h.(locked) w1 Hnext Hw1).
  assert (relates w {| w_pg := (m h.(locked) w1.(w_pg)).2; w_redis := w1.(w_redis); w_future := w1.(w_future) |}) as HR.
  { etrans; [exact Hnext|]. split; [done|]. by exists 0%nat. }
  destruct (sql h); [|done|]; by destruct (m _ _).
Qed.

Lemma sql_call_keeps {A} (m : gset (string * string) → pyeff pg A) :
  (∀ locked x, sane x → keeps_promises x ((m locked x.1).2, x.2)) → keeps (sql_call m).
Proof. intros Hm w Hw. apply sql_call_relates; [done|]. intros locked w1 _ [Hs _]. apply (Hm locked _ Hs). Qed.

Lemma redis_request_keeps {A} (m : delivery → pyeff server A) :
  (∀ d x, sane x → keeps_promises x (x.1, (m d x.2).2)) → keeps (redis_request m).
Proof.
  intros Hm w Hw. pose proof (next_relates w Hw) as Hnext. unfold redis_request.
  destruct (next w) as [h w1]. cbn [snd] in Hnext. pose proof (relates_valid _ _ Hnext Hw) as [Hs1 _].
  specialize (Hm h.(net) _ Hs1). cbn [fst snd] in Hm. destruct (m _ _) as [r s]. cbn [snd] in *.
  etrans; [exact Hnext|]. split; [done|]. by exists 0%nat.
Qed.

(** An answered transaction happened after the rest of the system acted. *)
Lemma sql_call_Ok {A} (m : gset (string * string) → pyeff pg A) w a w' :
  valid w → sql_call m w = (Ok a, w') →
  ∃ locked w1, relates w w1 ∧ m locked w1.(w_pg) = (Ok a, w'.(w_pg)) ∧ w'.(w_redis) = w1.(w_redis).
Proof.
  intros Hw. pose proof (next_relates w Hw) as Hnext. unfold sql_call. destruct (next w) as [h w1].
  destruct (sql h); [|done|]; destruct (m (locked h) (w_pg w1)) as [r p] eqn:Hm; [|done].
  intros [= -> <-]. by exists h.(locked), w1.
Qed.

Lemma redis_request_Ok {A} (m : delivery → pyeff server A) w a w' :
  valid w → redis_request m w = (Ok a, w') →
  ∃ d w1, relates w w1 ∧ m d w1.(w_redis) = (Ok a, w'.(w_redis)) ∧ w'.(w_pg) = w1.(w_pg).
Proof.
  intros Hw. pose proof (next_relates w Hw) as Hnext. unfold redis_request. destruct (next w) as [h w1].
  destruct (m (net h) (w_redis w1)) as [r s] eqn:Hm. intros [= -> <-]. by exists h.(net), w1.
Qed.

(** ** Steps of one side *)

Lemma pg_step p p' (s : server) :
  (rows_ok p → rows_ok p') →
  (∀ k row, p.(pg_outbox) !! k = Some row → ∃ row', p'.(pg_outbox) !! k = Some row' ∧ same_claim row row') →
  (∀ k row', p'.(pg_outbox) !! k = Some row' → k.1 = self → row'.(ob_destination) = RUN_PROJECTION_DESTINATION →
     row'.(ob_published_at) ≠ None →
     (∃ row, p.(pg_outbox) !! k = Some row ∧ row.(ob_published_at) ≠ None) ∨ projected s self row') →
  keeps_promises (p, s) (p', s).
Proof. intros Hok Hrows Hack. split; [|done..]. intros [Hr Hs Hi]. split; [by apply Hok|done..]. Qed.

Lemma redis_step (p : pg) s s' :
  (sane (p, s) → sane (p, s')) →
  (∀ t r v, shadow_knows s t r v → shadow_knows s' t r v) →
  (∀ t r v, index_knows s t r v → index_knows s' t r v) →
  keeps_promises (p, s) (p, s').
Proof.
  intros Hs Hshadow Hindex. split; [done..| |].
  - intros k row Hrow. by exists row.
  - intros k row Hrow _ _ Hp. left. by exists row.
Qed.

(** The keys of the shadow and of the index are different. *)
Lemma shadow_key_not_index t r t' k :
  k = index_key environment t' ∨ (∃ r', k = state_key environment t' r') → key_text environment t r ≠ k.
Proof.
  intros Hk Heq. unfold key_text in Heq.
  assert (∃ u, k = "fr:" +:+ environment +:+ ":v" +:+ int_str SHADOW_PROJECTION_SCHEMA_VERSION +:+ ":{active:" +:+ u)
    as [u Hu].
  { destruct Hk as [->|[r' ->]]; unfold index_key, state_key, index_slot; rewrite !str_app_assoc; by eexists. }
  rewrite Hu in Heq.
  apply str_app_inj in Heq as [_ Heq]; [|done]. apply str_app_inj in Heq as [_ Heq]; [|done].
  apply str_app_inj in Heq as [_ Heq]; [|done]. apply str_app_inj in Heq as [_ Heq]; [|done]. done.
Qed.

Lemma holds_frame s s' t r o :
  value_at s' (key_text environment t r) = value_at s (key_text environment t r) →
  holds environment s t r o → holds environment s' t r o.
Proof. intros Hv [Ho Hok]. split; [by rewrite Hv|done]. Qed.

Lemma index_frame s s' m listed ready :
  value_at s' (index_key environment self) = value_at s (index_key environment self) →
  (∀ r, runs r → value_at s' (state_key environment self r) = value_at s (state_key environment self r)) →
  index_inv environment self runs s m listed ready → index_inv environment self runs s' m listed ready.
Proof.
  intros Hi Hs [Hst Hsn (z & Hz & Hidx)]. split.
  - intros r Hr. rewrite Hs by done. by apply Hst.
  - done.
  - exists z. split; [|done]. unfold set_at. by rewrite Hi.
Qed.

(** ** The shadow *)

(** What a write leaves, whatever becomes of the request. *)
Lemma shadow_write_state d s ttl srv o :
  snapshot_ok s → 0 < ttl → holds environment srv s.(sn_tenant_id) s.(sn_run_id) o →
  let srv' := (write_projection environment id d s ttl srv).2 in
  (∀ k, k ≠ key_text environment s.(sn_tenant_id) s.(sn_run_id) → value_at srv' k = value_at srv k)
  ∧ ∃ o', holds environment srv' s.(sn_tenant_id) s.(sn_run_id) o' ∧ (o' = o ∨ o' = Some (register_write o s).2).
Proof.
  intros Hok Httl Ho. pose proof (write_projection_spec environment id d s ttl srv o Henv Hok Httl Ho) as Hw.
  destruct (register_write o s) as [[status stored] newest] eqn:Hreg. destruct Hw as (srv' & Heff & ->).
  assert ((∀ k, k ≠ key_text environment s.(sn_tenant_id) s.(sn_run_id) → value_at srv' k = value_at srv k)
    ∧ holds environment srv' s.(sn_tenant_id) s.(sn_run_id) (Some newest)) as [Hother Hsame].
  { split.
    - intros k Hk. unfold id, register_effect in Heff. case_decide; [|by subst].
      by destruct (wrote_other _ _ _ _ _ _ Heff Hk) as [-> _].
    - pose proof (register_effect_same environment srv o s ttl srv' Ho Hok Heff) as Hn. by rewrite Hreg in Hn. }
  destruct d; cbn [snd]; unfold id; (split; [done|]).
  - exists (Some newest). split; [done|by right].
  - exists o. split; [done|by left].
  - exists (Some newest). split; [done|by right].
Qed.

Lemma newest_of o s :
  ∀ s', o = Some s' → s'.(sn_stream_version) ≤ (register_write o s).2.(sn_stream_version).
Proof.
  intros s' ->. unfold register_write.
  destruct (Z.compare_spec s.(sn_stream_version) s'.(sn_stream_version)); cbn [snd]; lia.
Qed.

Lemma shadow_write_promises d s ttl x :
  good s → 0 < ttl → sane x → keeps_promises x (x.1, (write_projection environment id d s ttl x.2).2).
Proof.
  intros ([Hok _] & Ht & Hr) Httl Hsane. destruct x as [p srv]. cbn [fst snd].
  destruct (sane_shadow _ Hsane s.(sn_run_id) Hr) as [o Ho]. cbn [snd] in Ho. rewrite <- Ht in Ho.
  pose proof (λ o, shadow_write_state d s ttl srv o Hok Httl) as Hstate. cbv zeta in Hstate.
  set (srv' := (write_projection environment id d s ttl srv).2) in *. clearbody srv'.
  destruct (Hstate o Ho) as [Hother (o' & Ho' & _)].
  assert (∀ m listed ready, index_inv environment self runs srv m listed ready →
                            index_inv environment self runs srv' m listed ready) as Hindex.
  { intros m listed ready. apply index_frame.
    - apply Hother. intros Heq. by eapply shadow_key_not_index; [left|symmetry].
    - intros r _. apply Hother. intros Heq. by eapply shadow_key_not_index; [right; exists r|symmetry]. }
  assert (∀ t r, (t, r) ≠ (s.(sn_tenant_id), s.(sn_run_id)) →
    value_at srv' (key_text environment t r) = value_at srv (key_text environment t r)) as Hrest.
  { intros t r Hne. apply Hother. intros Heq%key_text_inj. naive_solver. }
  apply redis_step.
  - intros [Hrows Hsh (m & listed & ready & Hi)]. split; [done| |by exists m, listed, ready; apply Hindex].
    intros r Hrun. cbn [snd] in *. destruct (decide (r = s.(sn_run_id))) as [->|Hne].
    + exists o'. by rewrite <- Ht.
    + destruct (Hsh r Hrun) as [o1 Ho1]. exists o1. eapply holds_frame; [|exact Ho1]. apply Hrest. congruence.
  - intros t r v (s1 & Hs1 & Hv). destruct (decide ((t, r) = (s.(sn_tenant_id), s.(sn_run_id)))) as [[= -> ->]|Hne].
    + destruct (Hstate (Some s1) Hs1) as [_ (o2 & Ho2 & [->| ->])]; [by exists s1|].
      eexists. split; [exact Ho2|]. pose proof (newest_of (Some s1) s s1 eq_refl). lia.
    + exists s1. split; [|done]. eapply holds_frame; [by apply Hrest|done].
  - intros t r v (m & listed & ready & s1 & Hi & Hs1). exists m, listed, ready, s1. split; [by apply Hindex|done].
Qed.

(** An accepted write is known. *)
Lemma shadow_write_known d s ttl x res srv' :
  good s → 0 < ttl → sane x → write_projection environment id d s ttl x.2 = (Ok res, srv') →
  shadow_knows srv' s.(sn_tenant_id) s.(sn_run_id) s.(sn_stream_version).
Proof.
  intros ([Hok _] & Ht & Hr) Httl Hsane Hrun. destruct (sane_shadow _ Hsane s.(sn_run_id) Hr) as [o Ho].
  rewrite <- Ht in Ho. pose proof (write_projection_spec environment id d s ttl x.2 o Henv Hok Httl Ho) as Hw.
  destruct (register_write o s) as [[status stored] newest] eqn:Hreg. destruct Hw as (srv1 & Heff & Heq).
  rewrite Heq in Hrun. destruct d; [|done..]. injection Hrun as _ <-.
  exists newest. pose proof (register_effect_same environment x.2 o s ttl srv1 Ho Hok Heff) as Hn.
  rewrite Hreg in Hn. split; [done|]. by destruct (register_consistent _ _ _ _ _ Hreg) as (_ & _ & ? & _).
Qed.

(** ** The index *)

(** What a write leaves, whatever becomes of the request. *)
Lemma index_write_state d s ttl srv m listed ready :
  good s → 0 < ttl → index_inv environment self runs srv m listed ready →
  let srv' := (index_write_snapshot environment id d s ttl srv).2 in
  let newest := (index_register (m !! s.(sn_run_id)) s).2 in
  (∀ k, k ≠ index_key environment self → k ≠ state_key environment self s.(sn_run_id) →
        value_at srv' k = value_at srv k)
  ∧ ∃ listed', index_inv environment self runs srv' m listed' ready
               ∨ index_inv environment self runs srv' (<[s.(sn_run_id) := newest]> m) listed' ready.
Proof.
  intros (Hok & Ht & Hr) Httl Hi.
  pose proof (index_write_spec environment Henv self Hself runs Hruns digests_differ id d s ttl srv m listed ready
    Hi Hr Ht Hok Httl) as Hw.
  destruct (index_register (m !! s.(sn_run_id)) s) as [[status stored] newest].
  destruct Hw as (srv' & Hi' & Hother & ->). cbv zeta. cbn [snd].
  destruct d; cbn [snd]; (split; [done|]); eexists; [by right|by left|by right].
Qed.

Lemma newest_indexed s m r s' newest :
  newest = (index_register (m !! s.(sn_run_id)) s).2 → m !! r = Some s' → snapshots_ok m →
  s.(sn_tenant_id) = s'.(sn_tenant_id) →
  ∃ s2, <[s.(sn_run_id) := newest]> m !! r = Some s2 ∧ s2.(sn_tenant_id) = s'.(sn_tenant_id)
        ∧ s'.(sn_stream_version) ≤ s2.(sn_stream_version).
Proof.
  intros -> Hr Hm Ht. destruct (decide (r = s.(sn_run_id))) as [->|Hne].
  - rewrite lookup_insert_eq. eexists. split; [done|]. rewrite Hr. unfold index_register.
    destruct (Z.compare_spec s.(sn_stream_version) s'.(sn_stream_version)); cbn [snd]; (split; [done|lia]).
  - rewrite lookup_insert_ne by done. exists s'. split; [done|]. split; [done|lia].
Qed.

Lemma index_write_promises d s ttl x :
  good s → 0 < ttl → sane x → keeps_promises x (x.1, (index_write_snapshot environment id d s ttl x.2).2).
Proof.
  intros Hgood Httl Hsane. destruct x as [p srv]. cbn [fst snd]. pose proof Hgood as (Hok & Ht & Hr).
  pose proof (λ m listed ready, index_write_state d s ttl srv m listed ready Hgood Httl) as Hstate. cbv zeta in Hstate.
  set (srv' := (index_write_snapshot environment id d s ttl srv).2) in *. clearbody srv'.
  destruct (sane_index _ Hsane) as (m0 & listed0 & ready0 & Hi0). cbn [snd] in Hi0.
  destruct (Hstate _ _ _ Hi0) as [Hother (listed0' & Hi0')].
  assert (∀ t r o, holds environment srv t r o → holds environment srv' t r o) as Hshadow.
  { intros t r o. apply holds_frame. apply Hother; eapply shadow_key_not_index; [by left|by right; eexists]. }
  apply redis_step.
  - intros [Hrows Hsh _]. split; [done| |].
    + intros r Hrun. destruct (Hsh r Hrun) as [o Ho]. exists o. by apply Hshadow.
    + destruct Hi0' as [?|?]; by eexists _, _, _.
  - intros t r v (s1 & Hs1 & Hv). exists s1. split; [by apply Hshadow|done].
  - intros t r v (m & listed & ready & s1 & Hi & <- & Hs1 & Hv).
    destruct (Hstate _ _ _ Hi) as [_ (listed' & [Hi'|Hi'])]; [by exists m, listed', ready, s1|].
    destruct (inv_snapshots _ _ _ _ _ _ _ Hi _ _ Hs1) as (_ & _ & Ht1 & _).
    destruct (newest_indexed s m r s1 _ eq_refl Hs1) as (s2 & Hs2 & Ht2 & Hv2);
      [by eapply inv_snapshots_ok|by rewrite Ht1|].
    exists (<[s.(sn_run_id) := (index_register (m !! s.(sn_run_id)) s).2]> m), listed', ready, s2.
    split_and!; [done..|lia].
Qed.

Lemma index_write_known d s ttl x res srv' :
  good s → 0 < ttl → sane x → index_write_snapshot environment id d s ttl x.2 = (Ok res, srv') →
  index_knows srv' s.(sn_tenant_id) s.(sn_run_id) s.(sn_stream_version).
Proof.
  intros (Hok & Ht & Hr) Httl Hsane Hrun. destruct (sane_index _ Hsane) as (m & listed & ready & Hi).
  pose proof (index_write_spec environment Henv self Hself runs Hruns digests_differ id d s ttl x.2 m listed ready
    Hi Hr Ht Hok Httl) as Hw.
  destruct (index_register (m !! s.(sn_run_id)) s) as [[status stored] newest] eqn:Hreg.
  destruct Hw as (srv1 & Hi' & _ & Heq). rewrite Heq in Hrun. destruct d; [|done..]. injection Hrun as _ <-.
  eexists _, _, _, newest. split; [exact Hi'|].
  destruct (inv_snapshots _ _ _ _ _ _ _ Hi' s.(sn_run_id) newest) as (_ & _ & Htn & _); [by rewrite lookup_insert_eq|].
  split; [congruence|]. split; [by rewrite lookup_insert_eq|].
  by destruct (index_register_spec _ _ _ _ _ Hreg) as (_ & _ & ? & _).
Qed.

(** ** PostgreSQL *)

(** Rewriting some rows of a table in place. *)
Lemma rewritten_rows {V} (f : V → V) (batch : list ((string * string) * V)) (table : gmap (string * string) V) k :
  (∀ k r, (k, r) ∈ batch → table !! k = Some r) →
  foldr (λ kr t, <[kr.1 := kr.2]> t) table (map (λ kr, (kr.1, f kr.2)) batch) !! k = table !! k
    ∧ (∀ r, (k, r) ∉ batch)
  ∨ ∃ r, (k, r) ∈ batch
         ∧ foldr (λ kr t, <[kr.1 := kr.2]> t) table (map (λ kr, (kr.1, f kr.2)) batch) !! k = Some (f r).
Proof.
  induction batch as [|[k0 r0] batch IH]; intros Hb; [left; split; [done|]; set_solver|].
  cbn [map foldr fst snd]. destruct (decide (k = k0)) as [->|Hne].
  - right. exists r0. rewrite lookup_insert_eq. split; [by left|done].
  - rewrite lookup_insert_ne by done. destruct IH as [[Heq Hn]|(r & Hr & Heq)]; [|left|right].
    + intros k1 r1 Hin1. apply Hb. by right.
    + split; [done|]. intros r [[= ? _]|?]%elem_of_cons; [done|by eapply Hn].
    + exists r. split; [by right|done].
Qed.

Lemma claim_same now publisher timeout r : same_claim r (claim_row now publisher timeout r).
Proof. done. Qed.

(** The rows that a claim takes, and the table it leaves. *)
Lemma claim_outbox_Ok locked t p d l v s rows s' :
  claim_outbox_rows locked t p d l v s = (Ok rows, s') →
  ∃ batch, (∀ k r, (k, r) ∈ batch → s.(pg_outbox) !! k = Some r ∧ k.1 = t)
    ∧ rows = map (λ kr, claimed_mapping kr.1 kr.2) (map (λ kr, (kr.1, claim_row s.(pg_clock) p v kr.2)) batch)
    ∧ s' = s <| pg_outbox ::= λ t, foldr (λ kr t, <[kr.1 := kr.2]> t) t
                  (map (λ kr, (kr.1, claim_row s.(pg_clock) p v kr.2)) batch) |>.
Proof.
  unfold claim_outbox_rows. destruct (_ ;; _) as [u|e]; [|done]. intros [= <- <-].
  eexists. split; [|done]. intros k r Hin. apply elem_of_take in Hin as (i & Hin & _).
  apply list_elem_of_lookup_2, list_elem_of_filter in Hin as [_ Hin]. unfold pending in Hin.
  rewrite merge_sort_Permutation, elem_of_map_to_list, map_lookup_filter_Some in Hin. by destruct Hin as [? [? _]].
Qed.

Lemma claim_promises locked t p d l v x :
  sane x → keeps_promises x ((claim_outbox_rows locked t p d l v x.1).2, x.2).
Proof.
  intros _. destruct x as [s srv]. cbn [fst snd].
  destruct (claim_outbox_rows locked t p d l v s) as [[rows|e] s'] eqn:Hc.
  2: { unfold claim_outbox_rows in Hc. destruct (_ ;; _); [done|]. by injection Hc as _ <-. }
  apply claim_outbox_Ok in Hc as (batch & Hb & _ & ->). cbn [snd].
  pose proof (rewritten_rows (claim_row s.(pg_clock) p v) batch s.(pg_outbox)) as Hrows.
  apply pg_step; [done| |].
  - intros k row Hrow. cbn [pg_outbox set_field]. destruct (Hrows k) as [[-> _]|(r & Hr & ->)].
    + intros k' r' Hin. by apply Hb.
    + by exists row.
    + destruct (Hb k r Hr) as [Hk _]. rewrite Hrow in Hk. injection Hk as ->. eexists. split; [done|apply claim_same].
  - intros k row' Hrow' _ _ Hp. left. cbn [pg_outbox set_field] in Hrow'.
    destruct (Hrows k) as [[Heq _]|(r & Hr & Heq)].
    + intros k' r' Hin. by apply Hb.
    + rewrite Heq in Hrow'. by exists row'.
    + rewrite Heq in Hrow'. injection Hrow' as <-. destruct (Hb k r Hr) as [Hk _]. by exists r.
Qed.

Definition in_outbox (p : pg) (cl : Claim) : Prop :=
  ∃ row, p.(pg_outbox) !! (cl.(cl_tenant_id), cl.(cl_outbox_id)) = Some row ∧ row.(ob_run_id) = cl.(cl_run_id)
         ∧ row.(ob_stream_version) = cl.(cl_version) ∧ row.(ob_destination) = RUN_PROJECTION_DESTINATION.

Lemma in_outbox_step x x' cl : keeps_promises x x' → in_outbox x.1 cl → in_outbox x'.1 cl.
Proof.
  intros Hx (row & Hrow & Hr & Hv & Hd). destruct (promise_rows _ _ Hx _ _ Hrow) as (row' & Hrow' & (Hr' & Hv' & Hd')).
  exists row'. split_and!; congruence.
Qed.

Lemma field_identity_Ok v maximum s : field_identity v maximum = Ok s → v = Some s.
Proof.
  unfold field_identity. intros Hf. apply result_bind_Ok in Hf as (s' & Hs & Hf).
  apply result_bind_Ok in Hf as (_ & _ & [= <-]). by destruct v; [injection Hs as <-|].
Qed.

Lemma claimed_identity_Ok row t p cl :
  claimed_identity row t p = Ok cl →
  row.(cr_tenant_id) = Some cl.(cl_tenant_id) ∧ row.(cr_run_id) = Some cl.(cl_run_id)
  ∧ row.(cr_outbox_id) = Some cl.(cl_outbox_id) ∧ row.(cr_stream_version) = Some cl.(cl_version)
  ∧ row.(cr_destination) = Some RUN_PROJECTION_DESTINATION ∧ cl.(cl_tenant_id) = t.
Proof.
  unfold claimed_identity. intros Hcl.
  apply result_bind_Ok in Hcl as (t' & Ht%field_identity_Ok & Hcl).
  apply result_bind_Ok in Hcl as (r & Hr%field_identity_Ok & Hcl).
  apply result_bind_Ok in Hcl as (o & Ho%field_identity_Ok & Hcl).
  apply result_bind_Ok in Hcl as (v & Hv & Hcl). apply result_bind_Ok in Hcl as (_ & _ & Hcl).
  apply result_bind_Ok in Hcl as (_ & Htt%assert_result_Ok & Hcl).
  apply result_bind_Ok in Hcl as (_ & Hd%assert_result_Ok & Hcl).
  apply result_bind_Ok in Hcl as (_ & _ & [= <-]). cbn [cl_tenant_id cl_run_id cl_outbox_id cl_version].
  split_and!; [done..| |done|done]. by destruct (cr_stream_version row); [injection Hv as <-|].
Qed.

(** The claimed rows are in the outbox. *)
Lemma claimed_in_outbox locked t p l v s rows s' row cl :
  claim_outbox_rows locked t p (Some RUN_PROJECTION_DESTINATION) l v s = (Ok rows, s') → row ∈ rows →
  claimed_identity row t p = Ok cl → in_outbox s' cl.
Proof.
  intros Hc Hin Hcl. apply claim_outbox_Ok in Hc as (batch & Hb & -> & ->).
  rewrite map_map in Hin. apply list_elem_of_fmap in Hin as ([k r] & -> & Hin). cbn [fst snd] in *.
  destruct (claimed_identity_Ok _ _ _ _ Hcl) as (Ht & Hr & Ho & Hv & Hd & _). unfold claimed_mapping in *.
  cbn [cr_tenant_id cr_run_id cr_outbox_id cr_stream_version cr_destination] in *.
  injection Ht as Ht. injection Hr as Hr. injection Ho as Ho. injection Hv as Hv. injection Hd as Hd.
  unfold in_outbox. rewrite <- Ht, <- Hr, <- Ho, <- Hv. destruct k as [kt ko]. cbn [pg_outbox set_field fst snd].
  destruct (rewritten_rows (claim_row s.(pg_clock) p v) batch s.(pg_outbox) (kt, ko)) as [[_ Hn]|(r' & Hr' & Heq)].
  - intros k' r1 Hk'. by apply Hb.
  - by destruct (Hn r).
  - destruct (Hb _ _ Hin) as [Hk _], (Hb _ _ Hr') as [Hk' _]. rewrite Hk in Hk'. injection Hk' as <-.
    eexists. split; [exact Heq|done].
Qed.

Lemma mark_promises cl p x :
  in_outbox x.1 cl →
  shadow_knows x.2 cl.(cl_tenant_id) cl.(cl_run_id) cl.(cl_version) →
  (redis_active_index_write config.(sc_features) = true →
   index_knows x.2 cl.(cl_tenant_id) cl.(cl_run_id) cl.(cl_version)) →
  keeps_promises x ((mark_published cl.(cl_tenant_id) cl.(cl_outbox_id) (Some p) x.1).2, x.2).
Proof.
  intros (row & Hrow & Hr & Hv & Hd) Hs Hi. destruct x as [s srv]. cbn [fst snd] in *. unfold mark_published.
  destruct (tenant_scope _) as [u|e]; [|done]. rewrite Hrow. case_decide as Hown; [|done]. cbn [snd].
  apply pg_step; [done| |].
  - intros k row0 Hk. cbn [pg_outbox set_field].
    destruct (decide (k = (cl.(cl_tenant_id), cl.(cl_outbox_id)))) as [->|Hne].
    + rewrite lookup_insert_eq. rewrite Hrow in Hk. injection Hk as <-. by eexists.
    + rewrite lookup_insert_ne by done. by exists row0.
  - intros k row' Hk Hkt Hdest Hp. cbn [pg_outbox set_field] in Hk.
    destruct (decide (k = (cl.(cl_tenant_id), cl.(cl_outbox_id)))) as [->|Hne].
    + right. rewrite lookup_insert_eq in Hk. injection Hk as <-. cbn [fst] in Hkt. change (projected srv self row).
      unfold projected. by rewrite <- Hkt, Hr, Hv.
    + rewrite lookup_insert_ne in Hk by done. left. by exists row'.
Qed.

(** The source returns good snapshots. *)
Lemma snapshot_from_row_Ok r row s :
  snapshot_from_row r row self = Ok s →
  snapshot_valid s = Ok () ∧ s.(sn_tenant_id) = self ∧ s.(sn_run_id) = r ∧ s.(sn_phase) = row.(pr_phase)
  ∧ s.(sn_updated_at) = row.(pr_updated_at) ∧ s.(sn_stream_version) = row.(pr_stream_version).
Proof.
  unfold snapshot_from_row. match goal with |- context [match ?m with _ => _ end] => destruct m as [s'|e] eqn:Hm end;
    [|done]. intros [= ->].
  do 6 (apply result_bind_Ok in Hm as (? & _ & Hm)). unfold ShadowProjectionSnapshot_init in Hm.
  apply result_bind_Ok in Hm as ([] & Hvalid & [= <-]). done.
Qed.

Lemma source_load_good t r p s : rows_ok p → source_load self t r p = Ok (Some s) → good s.
Proof.
  intros Hok Hl. unfold source_load in Hl. apply result_bind_Ok in Hl as (? & _ & Hl).
  apply result_bind_Ok in Hl as (? & _ & Hl). destruct (pg_runs p !! (self, r)) as [row|] eqn:Hrow; [|done].
  destruct (snapshot_from_row r row self) as [s'|e] eqn:Hs; [|done]. injection Hl as ->.
  destruct (snapshot_from_row_Ok _ _ _ Hs) as (Hvalid & Ht & Hr & Hp & Hu & _).
  destruct (Hok r row Hrow) as (Hrun & Hu0 & Hd & Htext). unfold good, index_ok, snapshot_ok.
  rewrite Ht, Hr, Hp, Hu. done.
Qed.

(** ** The relay keeps its promises *)

Abbreviation knows knowledge := (λ w t r v, knowledge w.(w_redis) t r v).

#[global] Instance shadow_knowledge : VersionedKnowledge relates (knows shadow_knows).
Proof.
  split.
  - intros w w' t r v [Hp _]. by apply (promise_shadow _ _ Hp).
  - intros w t r v v' Hle (s & Hs & Hv). exists s. split; [done|lia].
Qed.

#[global] Instance index_knowledge : VersionedKnowledge relates (knows index_knows).
Proof.
  split.
  - intros w w' t r v [Hp _]. by apply (promise_index _ _ Hp).
  - intros w t r v v' Hle (m & listed & ready & s & Hi & Ht & Hs & Hv). exists m, listed, ready, s. split_and!; [done..|lia].
Qed.

(** A write through the network. *)
Lemma request_sink (known : server → string → string → Z → Prop)
    (write : delivery → ShadowProjectionSnapshot → Z → pyeff server ProjectionWriteResult) :
  (∀ d s ttl x, good s → 0 < ttl → sane x → keeps_promises x (x.1, (write d s ttl x.2).2)) →
  (∀ d s ttl x res srv', good s → 0 < ttl → sane x → write d s ttl x.2 = (Ok res, srv') →
     known srv' s.(sn_tenant_id) s.(sn_run_id) s.(sn_stream_version)) →
  VersionedSink relates valid good (knows known) (λ s ttl, redis_request (λ d, write d s ttl)).
Proof.
  intros Hkeeps Hknown. split.
  - intros s ttl Hs Httl. apply redis_request_keeps. intros d x. by apply Hkeeps.
  - intros s ttl w res w' Hw Hs Httl Hrun _ _. apply redis_request_Ok in Hrun as (d & w1 & Hw1 & Hrun & _); [|done].
    pose proof (relates_valid _ _ Hw1 Hw) as [Hs1 _].
    exact (Hknown d s ttl (w1.(w_pg), w1.(w_redis)) res _ Hs Httl Hs1 Hrun).
Qed.

#[global] Instance relay_contract :
  RelayContract (ports environment self policy) config relates valid (knows shadow_knows) (knows index_knows)
    good (λ w, in_outbox w.(w_pg)).
Proof.
  split.
  - apply _.
  - apply _.
  - apply _.
  - apply relates_valid.
  - intros w w' cl [Hp _]. apply (in_outbox_step _ _ cl Hp).
  - intros t p d l v. apply sql_call_keeps. intros locked x. apply claim_promises.
  - intros t p l v w rows w' row cl Hw Hrun Hin Hcl. cbn [ports claim_outbox] in Hrun.
    apply sql_call_Ok in Hrun as (locked & w1 & _ & Hrun & _); [|done]. by eapply claimed_in_outbox.
  - intros t r. apply sql_call_keeps. intros locked [p s] _. done.
  - intros t r w s w' Hw Hrun. cbn [ports load_projection] in Hrun.
    apply sql_call_Ok in Hrun as (locked & w1 & Hw1 & Hrun & _); [|done]. injection Hrun as Hl _.
    pose proof (relates_valid _ _ Hw1 Hw) as [Hs1 _]. eapply source_load_good; [by apply (sane_rows _ Hs1)|exact Hl].
  - cbn [ports sink]. apply (request_sink shadow_knows (λ d, write_projection environment id d)).
    + apply shadow_write_promises.
    + intros d s ttl x res srv'. apply shadow_write_known.
  - intros index [= <-]. cbn [write_snapshot].
    apply (request_sink index_knows (λ d, index_write_snapshot environment id d)).
    + apply index_write_promises.
    + intros d s ttl x res srv'. apply index_write_known.
  - intros pub s [= <-] _. apply redis_request_keeps. intros d [p srv] _. cbn [fst snd]. by rewrite publish_state.
  - intros allows c t [= <-] w Hw. done.
  - intros cl p w Hw Hin [Hs Hi]. cbn [ports mark_outbox_published].
    apply sql_call_relates; [done|]. intros locked w1 Hw1 _. pose proof Hw1 as [Hp _].
    apply (mark_promises cl p (w1.(w_pg), w1.(w_redis))).
    + by apply (in_outbox_step _ _ cl Hp).
    + by apply (promise_shadow _ _ Hp).
    + intros Hon. apply (promise_index _ _ Hp). by apply Hi.
Qed.

End promises.
