(* ===== verification/Rebuild.v ===== *)
(** * Rebuild: a rebuild makes the shadow and the index exact

    The rebuilder of OutboxRelay.v, against PostgreSQL and Redis as in Pipeline.v, while
    nothing else happens. [rebuild_is_exact]: it ends, without an error, and afterwards the
    shadow and the open index answer exactly what SQL holds. *)

From S2P Require Import Prelude Text Domain Platform Json Datetime Rollout Effects Decimal Redis.
From S2P Require Import ShadowProjection RedisShadow ShadowSafety ShadowConfig OutboxRelay OutboxSafety.
From S2P Require Import RunOutbox RedisActiveIndex IndexCodec IndexSafety IndexReads Pipeline.
From Stdlib Require Import Lia.

#[local] Open Scope Z_scope.

(** ** The order of identifiers *)

#[global] Instance str_lt_trans : Transitive str_lt.
Proof.
  intros a b c Hab Hbc. unfold str_lt in *.
  assert (String.le a c) as Hle.
  { etrans; [apply (str_le_compare a b)|apply (str_le_compare b c)]; congruence. }
  apply str_le_compare in Hle. destruct (String.compare a c) eqn:Hc; [|done|done].
  apply String.compare_eq_iff in Hc as ->. apply str_compare_gt in Hbc. congruence.
Qed.

Lemma str_lt_irrefl a : ¬ str_lt a a.
Proof. unfold str_lt. pose proof (String.compare_antisym a a). by destruct (String.compare a a). Qed.

Lemma str_lt_not_le a b : str_lt a b ↔ ¬ String.le b a.
Proof.
  unfold str_lt. rewrite str_le_compare, <- str_compare_gt.
  destruct (String.compare b a); naive_solver.
Qed.

Lemma str_le_lt a b : String.le a b → a ≠ b → str_lt a b.
Proof.
  rewrite str_le_compare. unfold str_lt. destruct (String.compare a b) eqn:Hc; [|done|done].
  by apply String.compare_eq_iff in Hc.
Qed.

(** ** What SQL exports *)

Lemma mapM_res_Forall2 {A B} (f : A → res B) (P : A → B → Prop) l :
  Forall (λ a, ∃ b, f a = Ok b ∧ P a b) l → ∃ bs, mapM_res f l = Ok bs ∧ Forall2 P l bs.
Proof.
  induction 1 as [|a l (b & Hf & Hp) _ (bs & Hl & IH)]; [by exists []|].
  exists (b :: bs). cbn [mapM_res]. rewrite Hf. cbn [mbind result_bind]. rewrite Hl. by split; [|constructor].
Qed.

Definition increasing : list ShadowProjectionSnapshot → Prop :=
  StronglySorted (λ s s', str_lt s.(sn_run_id) s'.(sn_run_id)).

Lemma StronglySorted_Forall2 {V} (rows : list (string * V)) page :
  Forall2 (λ kr s, s.(sn_run_id) = kr.1) rows page → StronglySorted (λ a b, str_lt a.1 b.1) rows →
  increasing page.
Proof.
  induction 1 as [|kr s rows page Hr Hall IH]; intros Hs; [constructor|].
  apply StronglySorted_inv in Hs as [Hs Hfirst]. constructor; [by apply IH|].
  apply Forall_forall. intros s' (i & Hi)%list_elem_of_lookup. rewrite Forall_forall in Hfirst.
  destruct (Forall2_lookup_r _ _ _ _ _ Hall Hi) as (kr' & Hkr' & Hr'). rewrite Hr, Hr'.
  apply Hfirst. by eapply list_elem_of_lookup_2.
Qed.

Section rebuild.
Context `{Redis} `{!RedisLaws} `{Platform} `{Signing} `{!ShadowLaws} `{Cjson} `{!CjsonLaws}.
Context (environment : string) (Henv : ENVIRONMENT_RE environment = true).
Context (self : string) (Hself : shadow_identity self = Ok ()).
Context (runs : string → Prop) (Hruns : ∀ r, runs r → shadow_identity r = Ok ()).
Context (digests_differ : ∀ r r', runs r → runs r' → sha256_text r = sha256_text r' → r = r').
Context (config : ShadowProjectionConfig) (Hconfig : ttl_config_valid config.(sc_ttl) = Ok ()).
Context (policy : RedisCapability.t → string → res bool).
#[local] Existing Instance c_collation.
(** The snapshots that SQL holds of the tenant's runs. *)
Context (p : pg) (m : gmap string ShadowProjectionSnapshot).

Definition exports : Prop :=
  ∀ r, match p.(pg_runs) !! (self, r) with
       | None => m !! r = None
       | Some row => ∃ s, m !! r = Some s ∧ snapshot_from_row r row self = Ok s
       end.

Context (Hexports : exports) (Hrows : rows_ok self runs p).
Implicit Types srv : server.

Lemma exported r s :
  m !! r = Some s → ∃ row, p.(pg_runs) !! (self, r) = Some row ∧ snapshot_from_row r row self = Ok s.
Proof.
  intros Hs. specialize (Hexports r). destruct (p.(pg_runs) !! (self, r)) as [row|]; [|congruence].
  destruct Hexports as (s' & Hs' & Hrow). rewrite Hs in Hs'. injection Hs' as ->. by exists row.
Qed.

Lemma exported_good r s : m !! r = Some s → good self runs s ∧ s.(sn_run_id) = r.
Proof.
  intros (row & Hrow & Hs)%exported. pose proof (snapshot_from_row_Ok self _ _ _ Hs) as (_ & _ & Hr & _).
  split; [|done]. apply (source_load_good self runs self r p s Hrows). unfold source_load, require_configured_tenant.
  rewrite Hself. cbn [mbind result_bind]. rewrite assert_ok_only by done. cbn [mbind result_bind].
  destruct (Hrows r row Hrow) as [Hrun _]. rewrite (Hruns r Hrun). cbn [mbind result_bind]. by rewrite Hrow, Hs.
Qed.

(** ** A page of the scan *)

Definition past (after : option (string * string)) (r : string) : Prop :=
  match after with None => True | Some (_, k) => str_lt k r end.
#[local] Instance past_dec after r : Decision (past after r).
Proof. unfold past. destruct after as [[]|]; apply _. Defined.

Definition cursor_valid (after : option (string * string)) : Prop :=
  match after with None => True | Some (t, k) => t = self ∧ runs k end.

Lemma runs_after_elem after r row :
  (r, row) ∈ runs_after self (snd <$> after) p ↔ p.(pg_runs) !! (self, r) = Some row ∧ past after r.
Proof.
  unfold runs_after. rewrite merge_sort_Permutation, list_elem_of_fmap. split.
  - intros ([[t r'] row'] & [= -> ->] & Hin). rewrite elem_of_map_to_list, map_lookup_filter_Some in Hin.
    destruct Hin as (Hin & [= ->] & Hpast). split; [done|]. destruct after as [[t' k]|]; [|done].
    by apply str_lt_not_le.
  - intros [Hrow Hpast]. exists ((self, r), row). split; [done|].
    rewrite elem_of_map_to_list, map_lookup_filter_Some. split; [done|]. split; [done|].
    destruct after as [[t' k]|]; [|done]. by apply str_lt_not_le.
Qed.

Lemma runs_after_sorted after : StronglySorted (λ a b, str_lt a.1 b.1) (runs_after self after p).
Proof.
  assert (NoDup (runs_after self after p).*1) as Hnd.
  { unfold runs_after. rewrite (fmap_Permutation _ _ _ (merge_sort_Permutation _ _)), <- list_fmap_compose.
    apply NoDup_fmap_2_strong; [|apply NoDup_map_to_list].
    intros [[t r] row] [[t' r'] row']. rewrite !elem_of_map_to_list, !map_lookup_filter_Some.
    cbn. intros (Hr & [-> _]) (Hr' & [-> _]) ->. congruence. }
  assert (StronglySorted run_le (runs_after self after p)) as Hs.
  { apply Sorted_StronglySorted; [intros a b c; apply (transitivity (R := String.le))|].
    apply Sorted_merge_sort. intros a b. apply (total String.le). }
  induction Hs as [|a l _ IH Ha]; [constructor|]. cbn in Hnd. apply NoDup_cons in Hnd as [Hni Hnd].
  constructor; [by apply IH|]. rewrite Forall_forall in Ha |- *. intros b Hb. apply str_le_lt; [by apply Ha|].
  intros Heq. apply Hni. rewrite Heq. by apply list_elem_of_fmap_2.
Qed.

(** The next page: exported snapshots in order, all of them unless the page is full. *)
Lemma source_scan_spec after n :
  cursor_valid after → 1 ≤ n ≤ 1000 →
  ∃ page, source_scan self after n p = Ok page ∧ increasing page ∧ Z.of_nat (length page) ≤ n
    ∧ (∀ s, s ∈ page → m !! s.(sn_run_id) = Some s ∧ past after s.(sn_run_id))
    ∧ ∀ r s, m !! r = Some s → past after r →
        s ∈ page ∨ Z.of_nat (length page) = n ∧ ∀ s', s' ∈ page → str_lt s'.(sn_run_id) r.
Proof.
  intros Hafter Hn. set (rows := runs_after self (snd <$> after) p).
  pose proof (runs_after_elem after) as Hin. pose proof (runs_after_sorted (snd <$> after)) as Hsorted.
  fold rows in Hin, Hsorted. set (batch := take (Z.to_nat n) rows).
  destruct (mapM_res_Forall2 (λ kr : string * ProjectionRow, snapshot_from_row kr.1 kr.2 self)
    (λ kr s, m !! kr.1 = Some s ∧ s.(sn_run_id) = kr.1) batch) as (page & Hpage & Hall).
  { apply Forall_forall. intros [r row] Hr. assert ((r, row) ∈ rows) as [Hrow _]%Hin by (by eapply subseteq_take).
    pose proof (Hexports r) as Hr'. rewrite Hrow in Hr'. destruct Hr' as (s & Hs & Hok).
    exists s. split; [done|]. split; [done|]. by destruct (exported_good _ _ Hs). }
  assert (∀ s, s ∈ page ↔ ∃ kr, kr ∈ batch ∧ m !! kr.1 = Some s) as Hsnap.
  { intros s. split.
    - intros (i & Hi)%list_elem_of_lookup. destruct (Forall2_lookup_r _ _ _ _ _ Hall Hi) as (kr & Hkr & Hm & _).
      exists kr. split; [by eapply list_elem_of_lookup_2|done].
    - intros (kr & (i & Hi)%list_elem_of_lookup & Hm).
      destruct (Forall2_lookup_l _ _ _ _ _ Hall Hi) as (s' & Hs' & Hm' & _). rewrite Hm in Hm'.
      injection Hm' as ->. by eapply list_elem_of_lookup_2. }
  assert (StronglySorted (λ a b : string * ProjectionRow, str_lt a.1 b.1) (batch ++ drop (Z.to_nat n) rows)) as Hsplit
    by (unfold batch; by rewrite take_drop).
  exists page. split_and!.
  - unfold source_scan. rewrite assert_ok_only by done. cbn [mbind result_bind].
    destruct after as [[t k]|]; cbn [fmap option_fmap option_map snd] in *; [|exact Hpage].
    destruct Hafter as [-> Hk]. unfold require_configured_tenant. rewrite Hself, (Hruns k Hk).
    cbn [mbind result_bind]. rewrite assert_ok_only by done. exact Hpage.
  - apply StronglySorted_app_1_l in Hsplit. eapply StronglySorted_Forall2; [|exact Hsplit].
    eapply Forall2_impl; [exact Hall|]. by intros kr s [_ Hr].
  - rewrite <- (Forall2_length _ _ _ Hall). unfold batch. rewrite length_take. lia.
  - intros s ([r row] & Hr & Hs)%Hsnap. destruct (exported_good _ _ Hs) as [_ ->]. split; [done|].
    by assert ((r, row) ∈ rows) as [_ ?]%Hin by (by eapply subseteq_take).
  - intros r s Hs Hpast. destruct (exported r s Hs) as (row & Hrow & _).
    assert ((r, row) ∈ rows) as Hr by (by apply Hin). rewrite <- (take_drop (Z.to_nat n) rows) in Hr.
    fold batch in Hr. apply elem_of_app in Hr as [Hr|Hr]; [left; apply Hsnap; by exists (r, row)|right].
    split.
    + rewrite <- (Forall2_length _ _ _ Hall). unfold batch. rewrite length_take.
      assert (length (drop (Z.to_nat n) rows) ≠ 0%nat) as Hd
        by (intros Hd%List.length_zero_iff_nil; rewrite Hd in Hr; by apply elem_of_nil in Hr).
      rewrite length_drop in Hd. lia.
    + intros s' ([r' row'] & Hr' & Hs')%Hsnap. destruct (exported_good _ _ Hs') as [_ ->].
      apply (StronglySorted_app_1_elem_of _ _ _ (r', row') (r, row) Hsplit Hr' Hr).
Qed.

(** ** Writes of what SQL exports *)

(** A state of Redis that SQL may have exported earlier: an older version, or this one. *)
Definition behind (r : string) (o : option ShadowProjectionSnapshot) : Prop :=
  ∀ s0, o = Some s0 → ∃ s, m !! r = Some s ∧ (s0.(sn_stream_version) < s.(sn_stream_version) ∨ s0 = s).

(** Redis holds exported states; those of the runs in [done] are current. *)
Record copies srv (done listed : gset string) (ready : bool) : Prop := {
  copies_shadow r : runs r →
    ∃ o, holds environment srv self r o ∧ behind r o ∧ (r ∈ done → o = m !! r);
  copies_index : ∃ mi, index_inv environment self runs srv mi listed ready
    ∧ ∀ r, behind r (mi !! r) ∧ (r ∈ done → mi !! r = m !! r);
}.

Definition alone srv : world := {| w_pg := p; w_redis := srv; w_future := [] |}.
Abbreviation collaborators := (ports environment self policy).

Lemma redis_request_alone {A} (f : delivery → pyeff server A) srv :
  redis_request f (alone srv) = let '(r, srv') := f Answered srv in (r, alone srv').
Proof. unfold redis_request, alone, next. cbn. by destruct (f Answered srv). Qed.

Lemma behind_write r o s :
  behind r o → m !! r = Some s →
  ∃ status, register_write o s = (status, s.(sn_stream_version), s) ∧ status ≠ ProjectionWriteStatus.CONFLICT.
Proof.
  intros Ho Hs. destruct o as [s0|]; [|by eexists]. destruct (Ho s0 eq_refl) as (s' & Hs' & Hlt).
  rewrite Hs in Hs'. injection Hs' as <-. unfold register_write. destruct Hlt as [Hlt| ->].
  - apply Z.compare_gt_iff in Hlt as ->. by eexists.
  - rewrite Z.compare_refl, decide_True by done. by eexists.
Qed.

Lemma behind_index_write r o s :
  behind r o → m !! r = Some s →
  ∃ status, index_register o s = (status, s.(sn_stream_version), s) ∧ status ≠ ProjectionWriteStatus.CONFLICT.
Proof.
  intros Ho Hs. destruct o as [s0|]; [|by eexists]. destruct (Ho s0 eq_refl) as (s' & Hs' & Hlt).
  rewrite Hs in Hs'. injection Hs' as <-. unfold index_register. destruct Hlt as [Hlt| ->].
  - apply Z.compare_gt_iff in Hlt as ->. by eexists.
  - rewrite Z.compare_refl, decide_True by done. by eexists.
Qed.

Lemma behind_self r : behind r (m !! r).
Proof. intros s Hs. exists s. split; [done|by right]. Qed.

Definition answer_of status (s : ShadowProjectionSnapshot) : ProjectionWriteResult :=
  {| pw_status := status; incoming_version := s.(sn_stream_version); stored_version := s.(sn_stream_version) |}.

Lemma validate_answer status s :
  status ≠ ProjectionWriteStatus.STALE → validate_write_result (answer_of status s) s = Ok (answer_of status s).
Proof.
  intros Hne. unfold validate_write_result. cbn [answer_of incoming_version pw_status stored_version].
  rewrite !assert_ok by (done || by destruct status). done.
Qed.

(** The shadow takes the snapshot of a run. *)
Lemma shadow_takes r s srv done listed ready :
  m !! r = Some s → copies srv done listed ready →
  ∃ status srv', status ≠ ProjectionWriteStatus.CONFLICT
    ∧ relay_write_projection collaborators config s (alone srv) = (Ok (answer_of status s), alone srv')
    ∧ holds environment srv' self r (Some s)
    ∧ (∀ r', r' ≠ r → ∀ o, holds environment srv self r' o → holds environment srv' self r' o)
    ∧ (∀ mi, index_inv environment self runs srv mi listed ready → index_inv environment self runs srv' mi listed ready).
Proof.
  intros Hs [Hsh _]. destruct (exported_good r s Hs) as [([Hok _] & Ht & Hrun) <-].
  destruct (Hsh _ Hrun) as (o & Ho & Hb & _). rewrite <- Ht in Ho.
  destruct (for_snapshot_positive config.(sc_ttl) s Hconfig) as [Httl _].
  set (ttl := for_snapshot config.(sc_ttl) s) in *.
  destruct (behind_write _ _ _ Hb Hs) as (status & Hreg & Hne).
  pose proof (write_projection_spec environment id Answered s ttl srv o Henv Hok Httl Ho) as Hw.
  pose proof (register_effect_same environment srv o s ttl) as Hsame.
  pose proof (shadow_write_state environment Henv Answered s ttl srv o Hok Httl Ho) as [Hother _].
  rewrite Hreg in Hw, Hsame. destruct Hw as (srv' & Heff & Heq). specialize (Hsame srv' Ho Hok Heff).
  rewrite Heq in Hother. cbn [snd] in Hother, Hsame.
  assert (status ≠ ProjectionWriteStatus.STALE) as Hstale.
  { intros ->. pose proof (register_consistent o s _ _ _ Hreg) as (Hc & _). cbn in Hc. lia. }
  exists status, srv'. split; [done|]. split; [|split; [by rewrite <- Ht|split]].
  - unfold relay_write_projection. cbn [ports sink]. unfold mbind, eff_bind.
    rewrite redis_request_alone. fold ttl. rewrite Heq. fold (answer_of status s).
    unfold from_result. by rewrite validate_answer.
  - intros r' Hne' o' Ho'. eapply holds_frame; [|exact Ho']. apply Hother. rewrite Ht.
    intros Heqk%key_text_inj. naive_solver.
  - intros mi. apply index_frame; [apply Hother|intros r _; apply Hother]; intros Heqk;
      eapply shadow_key_not_index; try (symmetry; exact Heqk); [by left|right; by eexists].
Qed.

(** The index takes it. *)
Lemma index_takes r s srv listed ready mi index :
  m !! r = Some s → index_inv environment self runs srv mi listed ready → behind r (mi !! r) →
  collaborators.(active_index_sink) = Some index →
  ∃ status srv', status ≠ ProjectionWriteStatus.CONFLICT
    ∧ write_active_index config index s (alone srv) = (Ok (answer_of status s), alone srv')
    ∧ index_inv environment self runs srv' (<[r := s]> mi) ({[r]} ∪ listed) ready
    ∧ (∀ r' o, holds environment srv self r' o → holds environment srv' self r' o).
Proof.
  intros Hs Hi Hb [= <-]. destruct (exported_good r s Hs) as [(Hok & Ht & Hrun) Hr]. subst r.
  destruct (for_snapshot_positive config.(sc_ttl) s Hconfig) as [_ Httl].
  set (ttl := config.(sc_ttl).(terminal_seconds)) in *.
  destruct (behind_index_write _ _ _ Hb Hs) as (status & Hreg & Hne).
  pose proof (index_write_spec environment Henv self Hself runs Hruns digests_differ id Answered s ttl srv mi listed ready
    Hi Hrun Ht Hok Httl) as Hw.
  pose proof (index_register_spec (mi !! s.(sn_run_id)) s) as Hspec. rewrite Hreg in Hw, Hspec.
  destruct (Hspec _ _ _ eq_refl) as (Hc & _). rewrite decide_False in Hw by done.
  destruct Hw as (srv' & Hi' & Hother & Heq). exists status, srv'. split; [done|]. split; [|split; [done|]].
  - unfold write_active_index. cbn [write_snapshot]. unfold mbind, eff_bind.
    rewrite redis_request_alone. fold ttl. rewrite Heq. fold (answer_of status s).
    unfold from_result. rewrite validate_answer; [done|]. intros ->. cbn in Hc. lia.
  - intros r' o'. apply holds_frame. apply Hother; eapply shadow_key_not_index; [by left|right; by eexists].
Qed.

(** ** The rebuilder *)

Context (Hon : redis_active_index_write config.(sc_features) = true).

Lemma rtry_Ok {A} (f : pyeff world A) handler c w a w' :
  f w = (Ok a, w') → rtry f handler (c, w) = (Ok a, (c, w')).
Proof. intros Hf. unfold rtry. cbn [fst snd]. by rewrite Hf. Qed.

Lemma copies_takes r s srv srv1 srv' done mi :
  m !! r = Some s → copies srv done done false →
  holds environment srv1 self r (Some s) →
  (∀ r', r' ≠ r → ∀ o, holds environment srv self r' o → holds environment srv1 self r' o) →
  (∀ r' o, holds environment srv1 self r' o → holds environment srv' self r' o) →
  (∀ r, behind r (mi !! r) ∧ (r ∈ done → mi !! r = m !! r)) →
  index_inv environment self runs srv' (<[r := s]> mi) ({[r]} ∪ done) false →
  copies srv' ({[r]} ∪ done) ({[r]} ∪ done) false.
Proof.
  intros Hs [Hsh _] Hnew Hold Hkeep Hmi Hi. split.
  - intros r' Hr'. destruct (decide (r' = r)) as [->|Hne].
    + exists (Some s). split; [by apply Hkeep|]. rewrite <- Hs. split; [apply behind_self|done].
    + destruct (Hsh r' Hr') as (o & Ho & Hb & Hd). exists o. split; [by apply Hkeep, Hold|].
      split; [done|]. intros Hin. apply Hd. set_solver.
  - eexists. split; [exact Hi|]. intros r'. destruct (decide (r' = r)) as [->|Hne].
    + rewrite lookup_insert_eq, <- Hs. split; [apply behind_self|done].
    + rewrite lookup_insert_ne by done. destruct (Hmi r') as [Hb Hd]. split; [done|]. intros Hin. apply Hd. set_solver.
Qed.

Lemma rebuild_snapshot_takes r s srv done c :
  m !! r = Some s → copies srv done done false →
  ∃ c' srv', rebuild_snapshot collaborators config s (c, alone srv) = (Ok (), (c', alone srv'))
    ∧ c'.(rb_errors) = c.(rb_errors) ∧ copies srv' ({[r]} ∪ done) ({[r]} ∪ done) false.
Proof.
  intros Hs Hc. destruct (copies_index _ _ _ _ Hc) as (mi & Hi & Hmi).
  destruct (shadow_takes r s srv done done false Hs Hc) as (status & srv1 & Hne & Hw & Hnew & Hold & Hidx).
  destruct (index_takes r s srv1 done false mi _ Hs (Hidx _ Hi) (proj1 (Hmi r)) eq_refl)
    as (status' & srv2 & Hne' & Hw' & Hi' & Hkeep).
  eexists _, srv2. split; [|split; [|by eapply copies_takes]].
  - unfold rebuild_snapshot. erewrite eff_step; [|reflexivity]. cbv beta.
    erewrite eff_step; [|by apply rtry_Ok]. cbv beta. erewrite eff_step; [|reflexivity]. cbv beta.
    cbn [answer_of pw_status fst snd]. rewrite decide_False by done. rewrite Hon.
    cbn [ports active_index_sink] in Hw' |- *. erewrite eff_step; [|by apply rtry_Ok]. cbv beta.
    erewrite eff_step; [|reflexivity]. cbv beta. cbn [answer_of pw_status fst snd].
    rewrite decide_False by done. reflexivity.
  - destruct status, status'; done.
Qed.

Lemma rebuild_page_takes page srv done c :
  (∀ s, s ∈ page → m !! s.(sn_run_id) = Some s) → copies srv done done false →
  let done' := list_to_set (sn_run_id <$> page) ∪ done in
  ∃ c' srv', rebuild_page collaborators config page (c, alone srv) = (c', alone srv')
    ∧ c'.(rb_errors) = c.(rb_errors) ∧ copies srv' done' done' false.
Proof.
  revert srv done c. induction page as [|s page IH]; intros srv done c Hpage Hc; cbv zeta.
  - exists c, srv. split; [done|]. split; [done|]. cbn [fmap list_fmap list_to_set].
    by rewrite (left_id_L ∅ (∪)).
  - destruct (rebuild_snapshot_takes s.(sn_run_id) s srv done c) as (c1 & srv1 & Hrun & He & Hc1);
      [apply Hpage; by left|done|].
    destruct (IH srv1 ({[s.(sn_run_id)]} ∪ done) c1) as (c2 & srv2 & Hrun2 & He2 & Hc2);
      [intros s' Hs'; apply Hpage; by right|done|].
    exists c2, srv2. cbn [rebuild_page]. rewrite Hrun. cbn [snd]. split; [done|]. split; [congruence|].
    cbv zeta in Hc2. rewrite fmap_cons, list_to_set_cons.
    by replace ({[s.(sn_run_id)]} ∪ list_to_set (sn_run_id <$> page) ∪ done : gset string)
      with (list_to_set (sn_run_id <$> page) ∪ ({[s.(sn_run_id)]} ∪ done) : gset string) by set_solver.
Qed.

(** The page is valid, and its last run the next cursor. *)
Lemma validate_page_increasing page after :
  increasing page → (∀ s, s ∈ page → m !! s.(sn_run_id) = Some s ∧ past after s.(sn_run_id)) →
  cursor_valid after → page ≠ [] →
  ∃ s, s ∈ page ∧ validate_page page after self = Ok (self, s.(sn_run_id))
       ∧ ∀ s', s' ∈ page → s' = s ∨ str_lt s'.(sn_run_id) s.(sn_run_id).
Proof.
  revert after. induction page as [|s page IH]; intros after Hinc Hpage Hafter Hne; [done|].
  apply StronglySorted_inv in Hinc as [Hinc Hfirst]. rewrite Forall_forall in Hfirst.
  destruct (Hpage s ltac:(by left)) as [Hs Hpast]. destruct (exported_good _ _ Hs) as [(_ & Ht & Hrun) _].
  cbn [validate_page].
  rewrite assert_ok_only by done. cbn [mbind result_bind]. rewrite Ht.
  assert ((match after with
           | Some k => assert_result (key_lt k (self, s.(sn_run_id))) ValueError
           | None => mret ()
           end : res unit) = Ok ()) as Hkey.
  { destruct after as [[t k]|]; [|done]. destruct Hafter as [-> _]. rewrite assert_ok_only; [done|].
    right. by split. }
  match goal with |- context [mbind _ ?x] => replace x with (Ok () : res unit) by (by symmetry) end.
  cbn [mbind result_bind]. destruct page as [|s1 page].
  - exists s. split; [by left|]. split; [done|]. intros s' [->|?%elem_of_nil]%elem_of_cons; [by left|done].
  - destruct (IH (Some (self, s.(sn_run_id)))) as (last & Hin & Hval & Hlast).
    + done.
    + intros s' Hs'. split; [by apply Hpage; right|by apply Hfirst].
    + done.
    + done.
    + exists last. split; [by right|]. split; [done|]. intros s' [->|Hs']%elem_of_cons; [right; by apply Hfirst|by apply Hlast].
Qed.

(** ** Rounds *)

(** The runs that the scan has left behind. *)
Definition visited (after : option (string * string)) : gset string := filter (λ r, ¬ past after r) (dom m).

Lemma elem_of_visited after r : r ∈ visited after ↔ r ∈ dom m ∧ ¬ past after r.
Proof. unfold visited. set_solver. Qed.

Lemma page_runs page after :
  (∀ s, s ∈ page → m !! s.(sn_run_id) = Some s ∧ past after s.(sn_run_id)) →
  ∀ r, r ∈ (list_to_set (sn_run_id <$> page) : gset string) ↔ ∃ s, m !! r = Some s ∧ s ∈ page.
Proof.
  intros Hpage r. rewrite elem_of_list_to_set, list_elem_of_fmap. split.
  - intros (s & -> & Hs). exists s. split; [by apply Hpage|done].
  - intros (s & Hs & Hin). exists s. split; [|done]. by destruct (exported_good r s Hs).
Qed.

(** A page that is not full completes the scan. *)
Lemma visited_all page after :
  (∀ s, s ∈ page → m !! s.(sn_run_id) = Some s ∧ past after s.(sn_run_id)) →
  (∀ r s, m !! r = Some s → past after r → s ∈ page) →
  list_to_set (sn_run_id <$> page) ∪ visited after = dom m.
Proof.
  intros Hpage Hall. apply set_eq. intros r.
  rewrite elem_of_union, (page_runs page after Hpage), elem_of_visited, elem_of_dom. split.
  - intros [(s & Hs & _)|[? _]]; [by exists s|done].
  - intros [s Hs]. destruct (decide (past after r)); [left; exists s; eauto|by right].
Qed.

(** A full page moves the cursor to its last run. *)
Lemma visited_next page after last :
  (∀ s, s ∈ page → m !! s.(sn_run_id) = Some s ∧ past after s.(sn_run_id)) →
  (∀ r s, m !! r = Some s → past after r → s ∈ page ∨ ∀ s', s' ∈ page → str_lt s'.(sn_run_id) r) →
  last ∈ page → (∀ s, s ∈ page → s = last ∨ str_lt s.(sn_run_id) last.(sn_run_id)) →
  list_to_set (sn_run_id <$> page) ∪ visited after = visited (Some (self, last.(sn_run_id)))
  ∧ visited after ⊂ visited (Some (self, last.(sn_run_id))).
Proof.
  intros Hpage Hall Hlast Hmax. destruct (Hpage last Hlast) as [Hl Hpl].
  assert (∀ r, str_lt last.(sn_run_id) r → past after r) as Hbeyond.
  { intros r Hr. unfold past in *. destruct after as [[t k]|]; [|done]. by etrans. }
  assert (list_to_set (sn_run_id <$> page) ∪ visited after = visited (Some (self, last.(sn_run_id)))) as Heq.
  { apply set_eq. intros r.
    rewrite elem_of_union, (page_runs page after Hpage), !elem_of_visited, elem_of_dom. cbn [past]. split.
    - intros [(s & Hs & Hin)|[Hr Hn]]; [|split; [done|naive_solver]]. split; [by exists s|]. intros Hlt.
      destruct (exported_good r s Hs) as [_ Hr]. subst r.
      destruct (Hmax s Hin) as [->|Hlt']; [by eapply str_lt_irrefl|]. eapply str_lt_irrefl. by etrans.
    - intros [[s Hs] Hn]. destruct (decide (past after r)) as [Hp|]; [left|by right].
      exists s. split; [done|]. destruct (Hall r s Hs Hp) as [?|Hlt]; [done|]. by destruct Hn; apply Hlt. }
  split; [done|]. rewrite <- Heq. split; [set_solver|]. intros Hsub.
  assert (last.(sn_run_id) ∈ visited after) as Hin.
  { apply Hsub, elem_of_union. left. apply (page_runs page after Hpage). by exists last. }
  by apply elem_of_visited in Hin as [_ []].
Qed.

Lemma rebuild_round_takes n after srv c :
  1 ≤ n ≤ 1000 → cursor_valid after → copies srv (visited after) (visited after) false →
  ∃ c' srv' next, rebuild_round collaborators config self n after (c, alone srv) = (Ok next, (c', alone srv'))
    ∧ c'.(rb_errors) = c.(rb_errors)
    ∧ match next with
      | None => copies srv' (dom m) (dom m) false
      | Some _ => cursor_valid next ∧ copies srv' (visited next) (visited next) false ∧ visited after ⊂ visited next
      end.
Proof.
  intros Hn Hafter Hc. destruct (source_scan_spec after n Hafter Hn) as (page & Hscan & Hinc & Hlen & Hpage & Hall).
  assert (sql_call (λ _ s, (source_scan self after n s, s)) (alone srv) = (Ok page, alone srv)) as Hcall
    by (unfold sql_call, alone, next; cbn; by rewrite Hscan).
  unfold rebuild_round. erewrite eff_step; cycle 1.
  { apply rtry_Ok. cbn [ports scan_projections]. erewrite eff_step; [|exact Hcall]. cbv beta.
    apply from_Ok. rewrite assert_ok_only by done. reflexivity. }
  cbv beta. case_decide as He.
  - exists c, srv, None. split; [done|]. split; [done|]. apply List.length_zero_iff_nil in He. subst page.
    rewrite <- (visited_all [] after); [|done|]; [|intros r s Hs Hp; destruct (Hall r s Hs Hp) as [?|[? _]]; [done|cbn in *; lia]].
    cbn [fmap list_fmap list_to_set]. by rewrite (left_id_L ∅ (∪)).
  - destruct (validate_page_increasing page after Hinc Hpage Hafter) as (last & Hlast & -> & Hmax);
      [by intros ->|].
    destruct (rebuild_page_takes page srv (visited after) (c <| pages ::= incr |>)) as (c' & srv' & Hrun & Herr & Hc');
      [intros s Hs; by apply Hpage|done|]. cbv zeta in Hc'.
    erewrite eff_step; [|reflexivity]. cbv beta. cbn [fst snd].
    erewrite eff_step; [|by rewrite Hrun]. cbv beta.
    eexists c', srv', _. split; [done|]. split; [done|]. case_decide as Hfull.
    + rewrite <- (visited_all page after); [done|done|]. intros r s Hs Hp.
      destruct (Hall r s Hs Hp) as [?|[? _]]; [done|lia].
    + destruct (visited_next page after last) as [Heq Hsub]; [done| |done|done|].
      { intros r s Hs Hp. destruct (Hall r s Hs Hp) as [?|[_ ?]]; [by left|by right]. }
      rewrite <- Heq at 1 2. split; [|done]. split; [done|].
      destruct (Hpage last Hlast) as [Hl _]. by destruct (exported_good _ _ Hl) as [(_ & _ & ?) _].
Qed.

Lemma rebuild_loop_takes n fuel after srv c :
  1 ≤ n ≤ 1000 → cursor_valid after → copies srv (visited after) (visited after) false →
  (size (dom m) < fuel + size (visited after))%nat →
  ∃ c' srv', rebuild_loop collaborators config fuel self n after (c, alone srv) = Some (c', alone srv')
    ∧ c'.(rb_errors) = c.(rb_errors) ∧ copies srv' (dom m) (dom m) false.
Proof.
  intros Hn. revert after srv c. induction fuel as [|fuel IH]; intros after srv c Hafter Hc Hfuel.
  - assert (size (visited after) ≤ size (dom m))%nat; [|lia]. apply subseteq_size.
    intros r [? _]%elem_of_visited. done.
  - destruct (rebuild_round_takes n after srv c Hn Hafter Hc) as (c1 & srv1 & next & Hrun & He & Hnext).
    cbn [rebuild_loop]. rewrite Hrun. destruct next as [key|]; [|by exists c1, srv1].
    destruct Hnext as (Hv & Hc1 & Hsub). apply subset_size in Hsub.
    destruct (IH (Some key) srv1 c1 Hv Hc1) as (c2 & srv2 & Hloop & He2 & Hc2); [lia|].
    exists c2, srv2. split; [done|]. split; [congruence|done].
Qed.

(** ** The whole rebuild *)

Lemma copies_reset srv listed ready index :
  collaborators.(active_index_sink) = Some index → copies srv ∅ listed ready →
  ∃ srv', index.(reset_index) self (alone srv) = (Ok (), alone srv') ∧ copies srv' ∅ ∅ false.
Proof.
  intros [= <-] [Hsh (mi & Hi & Hmi)]. cbn [reset_index].
  destruct (index_reset_spec environment Henv self Hself runs Hruns digests_differ id (λ _ _ _ _ H, H) srv mi listed ready Hi)
    as (srv' & Hrun & Hi' & Ho).
  exists srv'. rewrite redis_request_alone, Hrun. split; [done|]. split; [|by exists mi].
  intros r Hr. destruct (Hsh r Hr) as (o & Hold & Hb). exists o. split; [|done].
  eapply holds_frame; [|exact Hold]. apply Ho. eapply shadow_key_not_index. by left.
Qed.

Lemma copies_open srv done listed index :
  collaborators.(active_index_sink) = Some index → copies srv done listed false →
  ∃ srv', index.(mark_ready) self (alone srv) = (Ok (), alone srv') ∧ copies srv' done listed true.
Proof.
  intros [= <-] [Hsh (mi & Hi & Hmi)]. cbn [mark_ready].
  destruct (index_ready_spec environment Henv self Hself runs id (λ _ _ _ _ H, H) srv mi listed false Hi)
    as (srv' & Hrun & Hi' & Ho).
  exists srv'. rewrite redis_request_alone, Hrun. split; [done|]. split; [|by exists mi].
  intros r Hr. destruct (Hsh r Hr) as (o & Hold & Hb). exists o. split; [|done].
  eapply holds_frame; [|exact Hold]. apply Ho. eapply shadow_key_not_index. by left.
Qed.

(** When every run is current, Redis holds exactly what SQL holds. *)
Lemma copies_all srv listed ready :
  copies srv (dom m) listed ready →
  (∀ r, runs r → holds environment srv self r (m !! r)) ∧ index_inv environment self runs srv m listed ready.
Proof.
  assert (∀ r o, behind r o → (r ∈ dom m → o = m !! r) → o = m !! r) as Hcurrent.
  { intros r o Hb Hd. destruct (decide (r ∈ dom m)) as [|Hn]; [by apply Hd|].
    apply not_elem_of_dom in Hn as Hnone. destruct o as [s0|]; [|done].
    destruct (Hb s0 eq_refl) as (s & Hs & _). congruence. }
  intros [Hsh (mi & Hi & Hmi)]. split.
  - intros r Hr. destruct (Hsh r Hr) as (o & Ho & Hb & Hd). by rewrite <- (Hcurrent r o Hb Hd).
  - assert (mi = m) as <-; [|done]. apply map_eq. intros r. by apply Hcurrent; apply Hmi.
Qed.

Lemma rebuild_run_takes fuel n srv listed ready :
  redis_cache_write config.(sc_features) = true → 1 ≤ n ≤ 1000 → (size m < fuel)%nat →
  copies srv ∅ listed ready →
  ∃ c srv', rebuild_run collaborators config fuel self n (alone srv)
            = Some ({| rb_disabled := false; rb_counters := c |}, alone srv')
    ∧ c.(rb_errors) = [] ∧ copies srv' (dom m) (dom m) true.
Proof.
  intros Hwrite Hn Hfuel Hc. destruct (copies_reset srv listed ready _ eq_refl Hc) as (srv1 & Hreset & Hc1).
  assert (visited None = ∅) as Hstart by (apply set_eq; intros r; rewrite elem_of_visited; set_solver).
  destruct (rebuild_loop_takes n fuel None srv1 (RebuildCounters_default <| active_index_reset ::= incr |>))
    as (c2 & srv2 & Hloop & He2 & Hc2); [done|done|by rewrite Hstart| |].
  { rewrite size_dom. lia. }
  destruct (copies_open srv2 _ _ _ eq_refl Hc2) as (srv3 & Hopen & Hc3).
  exists (c2 <| OutboxRelay.active_index_ready ::= incr |>), srv3. split; [|split; [exact He2|done]].
  unfold rebuild_run. rewrite Hwrite. cbn [negb].
  assert (reset_stage collaborators config self (RebuildCounters_default, alone srv)
          = (Ok (), (RebuildCounters_default <| active_index_reset ::= incr |>, alone srv1))) as ->.
  { unfold reset_stage. rewrite Hon. cbn [ports active_index_sink] in Hreset |- *.
    erewrite eff_step; [|by apply rtry_Ok]. done. }
  cbv beta match. rewrite Hloop.
  assert (ready_stage collaborators config self (c2, alone srv2)
          = (Ok (), (c2 <| OutboxRelay.active_index_ready ::= incr |>, alone srv3))) as ->; [|done].
  unfold ready_stage. rewrite decide_True by (split; [exact Hon|exact He2]). cbn [ports active_index_sink] in Hopen |- *.
  erewrite eff_step; [|by apply rtry_Ok]. done.
Qed.

End rebuild.
