(* ===== verification/ActiveReads.v ===== *)
(** * ActiveReads: reads that Redis speeds up and SQL answers

    production/active_index_read.py: the list of a tenant's active runs, where Redis only
    proposes candidates; production/postgres_active_index.py: the SQL page behind it;
    production/shadow_read.py: the status of a run for the user interface, from the shadow
    or from SQL. The index reader, the shadow reader and the sink are ports that may answer
    anything. [active_list_is_authoritative]: what is listed is what SQL holds, in the
    stable order, whatever Redis answers; [status_reads_fall_back]: the same for the status,
    which only a failure of SQL withholds. *)

From S2P Require Import Prelude Text Domain Platform Json Datetime Rollout Effects Decimal Redis.
From S2P Require Import ShadowProjection RedisShadow ShadowSafety ShadowConfig OutboxRelay OutboxSafety.
From S2P Require Import RunOutbox RedisActiveIndex IndexCodec IndexSafety IndexReads Pipeline Rebuild.
From Stdlib Require Import Lia.

#[local] Open Scope Z_scope.

(** [_validate_cursor]. *)
Definition cursor_valid_text (m : string) : res unit :=
  assert_result (m ≠ "" ∧ char_length m ≤ 4096
                 ∧ all_chars (λ a, negb (bool_decide (a = Ascii.zero))) m = true) ValueError;;
  match parse_active_run_cursor m with Ok _ => mret () | Err _ => Err ValueError end.

Definition optional_cursor (m : option string) : res unit :=
  match m with None => mret () | Some m => cursor_valid_text m end.

(** ** Pages and results *)

Record ActiveRunSqlPage := {
  sp_items : list ShadowProjectionSnapshot;
  sp_next_after_member : option string;
}.
Definition ActiveRunSqlPage_init (items : list ShadowProjectionSnapshot) (next : option string) : res ActiveRunSqlPage :=
  optional_cursor next;; mret {| sp_items := items; sp_next_after_member := next |}.

Inductive ActiveRunReadSource := REDIS_CANDIDATES | ACTIVE_POSTGRES.
#[global] Instance ActiveRunReadSource_eq_dec : EqDecision ActiveRunReadSource.
Proof. solve_decision. Defined.
Inductive ActiveRunFallbackReason :=
  INDEX_DISABLED | INDEX_FORCE_SQL | INDEX_MISS | INDEX_UNAVAILABLE | INDEX_INVALID | INDEX_STALE | INDEX_OUTSIDE_CANARY.

Record ActiveRunReadResult := {
  ar_source : ActiveRunReadSource;
  ar_fallback_reason : option ActiveRunFallbackReason;
  ar_items : list ShadowProjectionSnapshot;
  ar_next_after_member : option string;
}.
(** [ActiveRunReadResult(...)] with its [__post_init__]. *)
Definition ActiveRunReadResult_init (r : ActiveRunReadResult) : res ActiveRunReadResult :=
  match r.(ar_source), r.(ar_fallback_reason) with
  | REDIS_CANDIDATES, None | ACTIVE_POSTGRES, Some _ => mret ()
  | _, _ => Err ValueError
  end;;
  optional_cursor r.(ar_next_after_member);;
  mret r.

(** [current >= previous] of pairs fails: the pair is strictly below. Texts compare by code
    points, which is the order of their UTF-8 bytes. *)
Definition pair_lt (a b : datetime * string) : Prop := a.1 < b.1 ∨ a.1 = b.1 ∧ str_lt a.2 b.2.
#[global] Instance pair_lt_dec a b : Decision (pair_lt a b).
Proof. unfold pair_lt. apply _. Defined.
Definition below_cursor (a : datetime * string) (bound : option (datetime * string)) : Prop :=
  match bound with None => True | Some b => pair_lt a b end.
#[global] Instance below_dec a b : Decision (below_cursor a b).
Proof. unfold below_cursor. destruct b; apply _. Defined.

Definition position (s : ShadowProjectionSnapshot) : datetime * string := (s.(sn_updated_at), s.(sn_run_id)).

(** ** The SQL page *)

(** The clauses of the query on a row. *)
Definition active_row (self : string) (after : option (datetime * string)) (candidates : option (list string))
    (kr : (string * string) * ProjectionRow) : Prop :=
  kr.1.1 = self ∧ (kr.2.(pr_execution_status) = "active" ∨ kr.2.(pr_execution_status) = "needs_attention")
  ∧ below_cursor (kr.2.(pr_updated_at), kr.1.2) after
  ∧ match candidates with None => True | Some l => kr.1.2 ∈ l end.
#[global] Instance active_row_dec self after candidates kr : Decision (active_row self after candidates kr).
Proof. unfold active_row. destruct candidates; apply _. Defined.

(** [ORDER BY updated_at DESC, run_id COLLATE C DESC]. *)
Definition row_position (r : string * ProjectionRow) : datetime * string := (r.2.(pr_updated_at), r.1).
Definition row_ge (a b : string * ProjectionRow) : Prop := ¬ pair_lt (row_position a) (row_position b).
#[global] Instance row_ge_dec : RelDecision row_ge.
Proof. intros a b. unfold row_ge. apply _. Defined.

Definition active_rows (self : string) (after : option (datetime * string)) (candidates : option (list string)) (s : pg)
    : list (string * ProjectionRow) :=
  merge_sort row_ge (map (λ kr : (string * string) * ProjectionRow, (kr.1.2, kr.2))
    (map_to_list (filter (active_row self after candidates) s.(pg_runs)))).

(** [_snapshot_from_row] of this module, which also refuses a terminal run. *)
Definition active_snapshot_from_row (self : string) (r : string * ProjectionRow) : res ShadowProjectionSnapshot :=
  snapshot ← snapshot_from_row r.1 r.2 self;
  assert_result (snapshot.(sn_execution_status) ∉ TERMINAL_EXECUTION_STATUSES) LedgerIntegrityError;;
  mret snapshot.

(** [_validate_order]. *)
Fixpoint in_order (error : exn) (previous : option (datetime * string)) (l : list ShadowProjectionSnapshot) : res unit :=
  match l with
  | [] => mret ()
  | s :: l' => assert_result (below_cursor (position s) previous) error;; in_order error (Some (position s)) l'
  end.

(** [_validate_candidates]. *)
Definition candidates_valid (candidates : option (list string)) : res unit :=
  match candidates with
  | None => mret ()
  | Some l =>
      assert_result (Z.of_nat (length l) ≤ ACTIVE_RUN_INDEX_MAX_PAGE_SIZE) ValueError;;
      mapM_res shadow_identity l;;
      assert_result (NoDup l) ValueError
  end.

Definition page_limit (limit : Z) : res unit := assert_result (1 ≤ limit ≤ ACTIVE_RUN_INDEX_MAX_PAGE_SIZE) ValueError.

(** [PostgresActiveRunSource(dsn, tenant_id=self).list_nonterminal_runs(...)]. *)
Definition list_nonterminal_runs (self tenant_id : string) (after_member : option string) (limit : Z)
    (candidate_run_ids : option (list string)) (s : pg) : res ActiveRunSqlPage :=
  require_configured_tenant self tenant_id;;
  page_limit limit;;
  after ← match after_member with
          | None => mret None
          | Some m => match parse_active_run_cursor m with Ok c => mret (Some c) | Err _ => Err ValueError end
          end;
  candidates_valid candidate_run_ids;;
  if decide (candidate_run_ids = Some []) then ActiveRunSqlPage_init [] None
  else
    let rows := take (Z.to_nat (limit + 1)) (active_rows self after candidate_run_ids s) in
    snapshots ← mapM_res (active_snapshot_from_row self) rows;
    in_order LedgerIntegrityError after snapshots;;
    let selected := take (Z.to_nat limit) snapshots in
    next ← match last selected with
           | Some s => if decide (limit < Z.of_nat (length snapshots))
                       then Some <$> active_run_cursor s.(sn_updated_at) s.(sn_run_id) else mret None
           | None => mret None
           end;
    ActiveRunSqlPage_init selected next.

(** ** What the service checks *)

(** [_validate_candidate_entry]; the candidate has the fields of the entry. *)
Definition validate_candidate_entry (tenant_id : string) (e : ActiveRunIndexEntry) : res unit :=
  let protocol := ActiveRunIndexProtocolError in
  shadow_identity e.(ent_tenant_id);;
  shadow_identity e.(ent_run_id);;
  assert_result (e.(ent_tenant_id) = tenant_id) protocol;;
  assert_result (0 ≤ e.(ent_stream_version) ∧ 0 ≤ e.(ent_last_event_seq)) protocol;;
  assert_result (e.(ent_stream_version) = e.(ent_last_event_seq)) protocol;;
  assert_result (e.(ent_execution_status) ∉ TERMINAL_EXECUTION_STATUSES) protocol;;
  assert_result (e.(ent_phase) ≠ Some "") protocol;;
  match parse_active_run_cursor e.(ent_index_member) with
  | Err _ => Err protocol
  | Ok c => assert_result (c = (e.(ent_updated_at), e.(ent_run_id))) protocol
  end.

(** [_validate_index_page]. *)
Definition validate_index_page (p : ActiveRunIndexPage) (tenant_id : string) (limit : Z) : res unit :=
  let protocol := ActiveRunIndexProtocolError in
  assert_result (Z.of_nat (length p.(items)) ≤ limit) protocol;;
  mapM_res (validate_candidate_entry tenant_id) p.(items);;
  assert_result (NoDup (run_ids p)) protocol;;
  match p.(next_after_member) with
  | None => mret ()
  | Some m =>
      match parse_active_run_cursor m, last p.(items) with
      | Ok (_, run_id), Some e => assert_result (run_id = e.(ent_run_id) ∧ m = e.(ent_index_member)) protocol
      | _, _ => Err protocol
      end
  end.

(** [_candidate_matches_snapshot]. *)
Definition candidate_matches_snapshot (c : ActiveRunIndexEntry) (s : ShadowProjectionSnapshot) : bool :=
  match parse_active_run_cursor c.(ent_index_member) with
  | Err _ => false
  | Ok cursor =>
      bool_decide (c.(ent_tenant_id) = s.(sn_tenant_id) ∧ c.(ent_run_id) = s.(sn_run_id)
                   ∧ c.(ent_stream_version) = s.(sn_stream_version)
                   ∧ c.(ent_execution_status) = s.(sn_execution_status) ∧ c.(ent_phase) = s.(sn_phase)
                   ∧ c.(ent_last_event_seq) = s.(sn_last_event_seq) ∧ c.(ent_updated_at) = s.(sn_updated_at)
                   ∧ cursor = position s)
  end.

(** The loop of [_validate_sql_page]. *)
Fixpoint sql_items_valid (tenant_id : string) (previous : option (datetime * string)) (seen : gset string)
    (l : list ShadowProjectionSnapshot) : res unit :=
  let protocol := ActiveRunReadProtocolError in
  match l with
  | [] => mret ()
  | s :: l' =>
      assert_result (s.(sn_tenant_id) = tenant_id) protocol;;
      assert_result (s.(sn_execution_status) ∉ TERMINAL_EXECUTION_STATUSES) protocol;;
      assert_result (s.(sn_run_id) ∉ seen) protocol;;
      assert_result (below_cursor (position s) previous) protocol;;
      sql_items_valid tenant_id (Some (position s)) ({[s.(sn_run_id)]} ∪ seen) l'
  end.

(** [_validate_sql_page]. *)
Definition validate_sql_page (p : ActiveRunSqlPage) (tenant_id : string) (limit : Z) (after_member : option string)
    : res (list ShadowProjectionSnapshot) :=
  let protocol := ActiveRunReadProtocolError in
  assert_result (Z.of_nat (length p.(sp_items)) ≤ limit) protocol;;
  boundary ← match after_member with
             | None => mret None
             | Some m => match parse_active_run_cursor m with Ok c => mret (Some c) | Err _ => Err protocol end
             end;
  sql_items_valid tenant_id boundary ∅ p.(sp_items);;
  match p.(sp_next_after_member) with
  | None => mret ()
  | Some m =>
      match last p.(sp_items), parse_active_run_cursor m with
      | Some s, Ok c => assert_result (c = position s) protocol
      | _, _ => Err protocol
      end
  end;;
  mret p.(sp_items).

(** ** The service *)

Section services.
Context {W : Type}.
Context (config : ShadowProjectionConfig) (policy : option (RedisCapability.t → string → res bool)).

(** [_tenant_can_read]: no policy, or a failing one, denies. *)
Definition tenant_can_read (capability : RedisCapability.t) (tenant_id : string) : bool :=
  match policy with
  | None => false
  | Some allows => match allows capability tenant_id with Ok b => b | Err _ => false end
  end.

Section active_index.
(** [source.list_nonterminal_runs(tenant_id, after_member, limit, candidate_run_ids)] and
    [index_reader.read_page(tenant_id, after_member, limit)]. *)
Context (source_list : string → option string → Z → option (list string) → pyeff W ActiveRunSqlPage).
Context (index_page : string → option string → Z → pyeff W (option ActiveRunIndexPage)).

(** [_read_sql_page]. *)
Definition read_sql_page (tenant_id : string) (after_member : option string) (limit : Z)
    (reason : ActiveRunFallbackReason) : pyeff W ActiveRunReadResult :=
  page ← source_list tenant_id after_member limit None;
  found ← from_result (validate_sql_page page tenant_id limit after_member);
  from_result (ActiveRunReadResult_init {|
    ar_source := ACTIVE_POSTGRES; ar_fallback_reason := Some reason; ar_items := found;
    ar_next_after_member := page.(sp_next_after_member) |}).

(** The page that Redis proposes, or the reason why there is none. *)
Definition propose_candidates (tenant_id : string) (after_member : option string) (limit : Z) (force_sql : bool)
    : pyeff W (ActiveRunFallbackReason + ActiveRunIndexPage) :=
  if force_sql then mret (inl INDEX_FORCE_SQL)
  else if negb (redis_active_index_read config.(sc_features)) then mret (inl INDEX_DISABLED)
  else if negb (tenant_can_read RedisCapability.ACTIVE_INDEX_READ tenant_id) then mret (inl INDEX_OUTSIDE_CANARY)
  else
    raw ← attempt (index_page tenant_id after_member limit);
    match raw with
    | Err ActiveRunIndexProtocolError => mret (inl INDEX_INVALID)
    | Err _ => mret (inl INDEX_UNAVAILABLE)
    | Ok None => mret (inl INDEX_MISS)
    | Ok (Some page) =>
        match validate_index_page page tenant_id limit with
        | Ok _ => mret (inr page)
        | Err e => if decide (e ∈ [TypeError; ValueError; ActiveRunIndexProtocolError])
                   then mret (inl INDEX_INVALID) else fail e
        end
    end.

(** [ActiveRunIndexReadService.list_active_runs]. *)
Definition list_active_runs (tenant_id : string) (after_member : option string) (limit : Z) (force_sql : bool)
    : pyeff W ActiveRunReadResult :=
  from_result (shadow_identity tenant_id);;
  from_result (optional_cursor after_member);;
  from_result (page_limit limit);;
  proposal ← propose_candidates tenant_id after_member limit force_sql;
  match proposal with
  | inl reason => read_sql_page tenant_id after_member limit reason
  | inr page =>
      if decide (page.(items) = []) then
        from_result (ActiveRunReadResult_init {|
          ar_source := REDIS_CANDIDATES; ar_fallback_reason := None; ar_items := []; ar_next_after_member := None |})
      else
        candidate_page ← source_list tenant_id after_member limit (Some (run_ids page));
        found ← from_result (validate_sql_page candidate_page tenant_id limit after_member);
        if bool_decide (map sn_run_id found = run_ids page)
           && forallb (λ cs, candidate_matches_snapshot cs.1 cs.2) (zip page.(items) found)
        then from_result (ActiveRunReadResult_init {|
               ar_source := REDIS_CANDIDATES; ar_fallback_reason := None; ar_items := found;
               ar_next_after_member := page.(next_after_member) |})
        else read_sql_page tenant_id after_member limit INDEX_STALE
  end.
End active_index.

(** ** The status of a run *)

(** [ShadowProjectionReadSource] and [ShadowProjectionFallbackReason]. *)
Inductive ShadowProjectionReadSource := REDIS | STATUS_POSTGRES.
Inductive ShadowProjectionFallbackReason :=
  CACHE_DISABLED | FORCE_SQL | CACHE_MISS | CACHE_STALE | CACHE_UNAVAILABLE | CACHE_INVALID | OUTSIDE_CANARY.
#[global] Instance fallback_reason_eq_dec : EqDecision ShadowProjectionFallbackReason.
Proof. solve_decision. Defined.

Record ShadowProjectionReadResult := {
  rr_source : ShadowProjectionReadSource;
  rr_fallback_reason : option ShadowProjectionFallbackReason;
  rr_snapshot : option ShadowProjectionSnapshot;
}.
(** [ShadowProjectionReadResult(...)] with its [__post_init__]. *)
Definition ShadowProjectionReadResult_init (r : ShadowProjectionReadResult) : res ShadowProjectionReadResult :=
  match r.(rr_source), r.(rr_fallback_reason), r.(rr_snapshot) with
  | REDIS, None, Some _ | STATUS_POSTGRES, Some _, _ => mret r
  | _, _, _ => Err ValueError
  end.

(** [source.load_projection], [cache_reader.read_projection], [sink.write_projection]. *)
Context (load_projection read_projection : string → string → pyeff W (option ShadowProjectionSnapshot)).
Context (write_projection : ShadowProjectionSnapshot → Z → pyeff W ProjectionWriteResult).

(** [_cache_fallback_reason]: the cached snapshot, or why SQL is read. *)
Definition cache_fallback_reason (tenant_id run_id : string) (minimum_version : option Z) (force_sql : bool)
    : pyeff W (ShadowProjectionFallbackReason + ShadowProjectionSnapshot) :=
  if force_sql then mret (inl FORCE_SQL)
  else if negb (redis_cache_read config.(sc_features)) then mret (inl CACHE_DISABLED)
  else if negb (tenant_can_read RedisCapability.UI_STATUS_READ tenant_id) then mret (inl OUTSIDE_CANARY)
  else
    cached ← attempt (read_projection tenant_id run_id);
    mret match cached with
    | Err ShadowProjectionProtocolError => inl CACHE_INVALID
    | Err _ => inl CACHE_UNAVAILABLE
    | Ok None => inl CACHE_MISS
    | Ok (Some s) =>
        if decide (s.(sn_tenant_id) ≠ tenant_id ∨ s.(sn_run_id) ≠ run_id) then inl CACHE_INVALID
        else match minimum_version with
             | Some v => if decide (s.(sn_stream_version) < v) then inl CACHE_STALE else inr s
             | None => inr s
             end
    end.

(** [_best_effort_backfill]. *)
Definition best_effort_backfill (s : ShadowProjectionSnapshot) : pyeff W unit :=
  if redis_cache_write config.(sc_features)
  then attempt (write_projection s (for_snapshot config.(sc_ttl) s));; mret () else mret ().

(** [ShadowProjectionReadService.read_ui_status]. *)
Definition read_ui_status (tenant_id run_id : string) (minimum_version : option Z) (force_sql : bool)
    : pyeff W ShadowProjectionReadResult :=
  from_result (shadow_identity tenant_id);;
  from_result (shadow_identity run_id);;
  from_result (match minimum_version with Some v => non_negative_int v | None => mret () end);;
  cached ← cache_fallback_reason tenant_id run_id minimum_version force_sql;
  match cached with
  | inr s => from_result (ShadowProjectionReadResult_init
               {| rr_source := REDIS; rr_fallback_reason := None; rr_snapshot := Some s |})
  | inl reason =>
      snapshot ← load_projection tenant_id run_id;
      match snapshot with
      | None => mret ()
      | Some s =>
          from_result (assert_result (s.(sn_tenant_id) = tenant_id ∧ s.(sn_run_id) = run_id)
                         ShadowProjectionReadProtocolError);;
          if decide (reason = OUTSIDE_CANARY) then mret () else best_effort_backfill s
      end;;
      from_result (ShadowProjectionReadResult_init
        {| rr_source := STATUS_POSTGRES; rr_fallback_reason := Some reason; rr_snapshot := snapshot |})
  end.
End services.

(** ** The stable order *)

Lemma pair_lt_irrefl a : ¬ pair_lt a a.
Proof. unfold pair_lt. intros [?|[_ ?]]; [lia|by eapply str_lt_irrefl]. Qed.

#[global] Instance pair_lt_trans : Transitive pair_lt.
Proof.
  unfold pair_lt. intros a b c [?|[Hab ?]] [?|[Hbc ?]]; [left; lia..|right].
  split; [lia|by etrans].
Qed.

Lemma pair_lt_total a b : ¬ pair_lt a b → ¬ pair_lt b a → a = b.
Proof.
  unfold pair_lt. destruct a as [t r], b as [t' r']. cbn [fst snd]. intros Hab Hba.
  assert (t = t') as -> by lia. f_equal. destruct (decide (r = r')) as [|Hne]; [done|].
  destruct Hab. right. split; [done|]. apply str_le_lt; [|done].
  destruct (total String.le r r') as [|Hle]; [done|]. destruct Hba. right. split; [done|]. by apply str_le_lt.
Qed.

#[global] Instance row_ge_total : Total row_ge.
Proof.
  intros a b. unfold row_ge. destruct (decide (pair_lt (row_position a) (row_position b))) as [Hab|]; [right|by left].
  intros Hba. by eapply pair_lt_irrefl, transitivity.
Qed.

#[global] Instance row_ge_trans : Transitive row_ge.
Proof.
  intros a b c. unfold row_ge. intros Hab Hbc Hac.
  destruct (decide (pair_lt (row_position b) (row_position a))) as [Hba|Hba].
  - apply Hbc. by etrans.
  - rewrite (pair_lt_total _ _ Hab Hba) in Hac. done.
Qed.

Definition descending : list ShadowProjectionSnapshot → Prop :=
  StronglySorted (λ s s', pair_lt (position s') (position s)).

Lemma descending_below s l :
  Forall (λ s', pair_lt (position s') (position s)) l → Forall (λ s', below_cursor (position s') (Some (position s))) l.
Proof. done. Qed.

Lemma in_order_ok e previous l :
  descending l → Forall (λ s, below_cursor (position s) previous) l → in_order e previous l = Ok ().
Proof.
  intros Hl. revert previous. induction Hl as [|s l _ IH Hs]; intros previous Hb; [done|].
  apply Forall_cons_1 in Hb as [Hb _]. cbn [in_order]. rewrite assert_ok_only by done. by apply IH, descending_below.
Qed.

(** ** What the SQL page holds *)

Section authority.
Context (self : string) (Hself : shadow_identity self = Ok ()).

(** The run of the snapshot is active, and SQL holds this snapshot of it. *)
Definition active_run (p : pg) (s : ShadowProjectionSnapshot) : Prop :=
  (s.(sn_execution_status) ∉ TERMINAL_EXECUTION_STATUSES)
  ∧ ∃ row, p.(pg_runs) !! (self, s.(sn_run_id)) = Some row ∧ snapshot_from_row s.(sn_run_id) row self = Ok s.

(** The active rows of the tenant are valid: encoded texts and times since the epoch. *)
Definition listable (p : pg) : Prop :=
  ∀ r row, p.(pg_runs) !! (self, r) = Some row →
    row.(pr_execution_status) = "active" ∨ row.(pr_execution_status) = "needs_attention" →
    (∃ s, snapshot_from_row r row self = Ok s) ∧ 0 ≤ row.(pr_updated_at) ∧ datetime_ok row.(pr_updated_at)
    ∧ utf8_valid r = true ∧ shadow_identity r = Ok ().

Lemma snapshot_status r row s :
  snapshot_from_row r row self = Ok s → value s.(sn_execution_status) = row.(pr_execution_status).
Proof.
  unfold snapshot_from_row. match goal with |- context [match ?m with _ => _ end] => destruct m as [s'|e] eqn:Hm end;
    [|done]. intros [= ->].
  do 5 (apply result_bind_Ok in Hm as (? & _ & Hm)). apply result_bind_Ok in Hm as (status & Hst & Hm).
  apply result_bind_Ok in Hm as (? & _ & [= <-]). cbn [sn_execution_status].
  destruct (of_value _) as [x5|] eqn:Hx; [|done]. injection Hst as ->. by apply of_value_Some.
Qed.

Lemma active_status (x : ExecutionStatus.t) :
  x ∉ TERMINAL_EXECUTION_STATUSES ↔ value x = "active" ∨ value x = "needs_attention".
Proof.
  split.
  - intros Hx. destruct x; first [by left|by right|exfalso; apply Hx; unfold TERMINAL_EXECUTION_STATUSES; set_solver].
  - intros Hx. unfold TERMINAL_EXECUTION_STATUSES. rewrite !not_elem_of_cons.
    destruct x; cbn in Hx; try (by destruct Hx); by (split_and!; try done; apply not_elem_of_nil).
Qed.

Lemma cursor_text_ok t r :
  shadow_identity r = Ok () → utf8_valid r = true → 0 ≤ t ≤ datetime_max → cursor_valid_text (member_text t r) = Ok ().
Proof.
  intros Hr Hu Ht. unfold cursor_valid_text. rewrite (parse_cursor_member t r Hr Hu Ht), assert_ok_only; [done|].
  apply assert_result_Ok in Hr as (_ & Hlen & Hnul). split_and!.
  - apply member_text_not_marker.
  - unfold member_text. rewrite !char_length_app, (char_length_ascii (pad 20 t)), pad_length by apply pad_ascii.
    change (char_length ":") with 1. lia.
  - unfold member_text. rewrite !all_chars_app, Hnul. apply andb_true_iff. split; [|by cbn; rewrite bool_decide_eq_false_2].
    pose proof (pad_digits 20 t) as Hd. revert Hd. apply all_chars_weaken. intros a Ha. apply negb_true_iff, bool_decide_eq_false. by intros ->.
Qed.

(** The cursor of a request. *)
Definition cursor_of (after_member : option string) : option (datetime * string) :=
  match after_member with
  | Some m => match parse_active_run_cursor m with Ok c => Some c | Err _ => None end
  | None => None
  end.

(** What a page promises: it is in the stable order, not too long, and a continuation
    names its last run. *)
Record page_shape (limit : Z) (l : list ShadowProjectionSnapshot) (next : option string) : Prop := {
  shape_length : Z.of_nat (length l) ≤ limit;
  shape_order : descending l;
  shape_next m : next = Some m → ∃ s, last l = Some s ∧ parse_active_run_cursor m = Ok (position s);
}.

Context (p : pg) (Hp : listable p).
Context (after : option (datetime * string)) (candidates : option (list string)).

Definition wanted (r : string) : Prop := match candidates with None => True | Some l => r ∈ l end.

Lemma active_rows_elem r row :
  (r, row) ∈ active_rows self after candidates p ↔
  p.(pg_runs) !! (self, r) = Some row
  ∧ (row.(pr_execution_status) = "active" ∨ row.(pr_execution_status) = "needs_attention")
  ∧ below_cursor (row.(pr_updated_at), r) after ∧ wanted r.
Proof.
  unfold active_rows. rewrite merge_sort_Permutation, list_elem_of_fmap. split.
  - intros ([[t r'] row'] & [= -> ->] & Hin). rewrite elem_of_map_to_list, map_lookup_filter_Some in Hin.
    destruct Hin as (Hin & Ht & Hst & Hb & Hc). cbn [fst snd] in *. subst t. done.
  - intros (Hrow & Hst & Hb & Hc). exists ((self, r), row). split; [done|].
    by rewrite elem_of_map_to_list, map_lookup_filter_Some.
Qed.

Lemma active_rows_sorted :
  StronglySorted (λ a b, pair_lt (row_position b) (row_position a)) (active_rows self after candidates p).
Proof.
  assert (NoDup (active_rows self after candidates p).*1) as Hnd.
  { unfold active_rows. rewrite (fmap_Permutation _ _ _ (merge_sort_Permutation _ _)), <- list_fmap_compose.
    apply NoDup_fmap_2_strong; [|apply NoDup_map_to_list].
    intros [[t r] row] [[t' r'] row']. rewrite !elem_of_map_to_list, !map_lookup_filter_Some.
    unfold active_row. cbn. intros (Hr & Ht & _) (Hr' & Ht' & _) ->. congruence. }
  assert (StronglySorted row_ge (active_rows self after candidates p)) as Hs
    by (apply Sorted_StronglySorted, Sorted_merge_sort; apply _).
  induction Hs as [|a l _ IH Ha]; [constructor|]. cbn in Hnd. apply NoDup_cons in Hnd as [Hni Hnd].
  constructor; [by apply IH|]. rewrite Forall_forall in Ha |- *. intros b Hb.
  destruct (decide (pair_lt (row_position b) (row_position a))) as [|Hba]; [done|].
  apply (pair_lt_total _ _ (Ha b Hb)) in Hba as [= _ Heq]. destruct Hni. rewrite Heq. by apply list_elem_of_fmap_2.
Qed.

Lemma active_snapshot r row :
  (r, row) ∈ active_rows self after candidates p →
  ∃ s, active_snapshot_from_row self (r, row) = Ok s ∧ s.(sn_run_id) = r ∧ position s = row_position (r, row)
       ∧ active_run p s ∧ snapshot_from_row r row self = Ok s.
Proof.
  intros (Hrow & Hst & _ & _)%active_rows_elem. destruct (Hp r row Hrow Hst) as ((s & Hs) & _).
  pose proof (snapshot_from_row_Ok self _ _ _ Hs) as (_ & _ & Hr & _ & Hu & _).
  assert (s.(sn_execution_status) ∉ TERMINAL_EXECUTION_STATUSES) as Ha
    by (by rewrite active_status, (snapshot_status _ _ _ Hs)).
  exists s. unfold active_snapshot_from_row. cbn [fst snd]. rewrite Hs. cbn [mbind result_bind].
  rewrite assert_ok_only by done. split_and!; [done|done| |split; [done|]|done].
  - unfold position, row_position. cbn [fst snd]. congruence.
  - exists row. by rewrite Hr.
Qed.

(** The first [k] active rows as snapshots. *)
Lemma active_snapshots k :
  ∃ l, mapM_res (active_snapshot_from_row self) (take k (active_rows self after candidates p)) = Ok l
    ∧ length l = min k (length (active_rows self after candidates p))
    ∧ descending l
    ∧ (∀ s, s ∈ l → active_run p s ∧ below_cursor (position s) after ∧ wanted s.(sn_run_id))
    ∧ ∀ s, active_run p s → below_cursor (position s) after → wanted s.(sn_run_id) →
        s ∈ l ∨ length l = k ∧ ∀ s', s' ∈ l → pair_lt (position s) (position s').
Proof.
  set (rows := active_rows self after candidates p). pose proof active_rows_elem as Hin.
  pose proof active_rows_sorted as Hsorted. fold rows in Hin, Hsorted.
  destruct (mapM_res_Forall2 (active_snapshot_from_row self)
    (λ kr s, s.(sn_run_id) = kr.1 ∧ position s = row_position kr ∧ active_run p s ∧ snapshot_from_row kr.1 kr.2 self = Ok s)
    (take k rows)) as (l & Hl & Hall).
  { apply Forall_forall. intros [r row] Hr. apply active_snapshot. by eapply subseteq_take. }
  assert (∀ s, s ∈ l → ∃ kr, kr ∈ take k rows ∧ s.(sn_run_id) = kr.1 ∧ position s = row_position kr ∧ active_run p s) as Hfrom.
  { intros s (i & Hi)%list_elem_of_lookup. destruct (Forall2_lookup_r _ _ _ _ _ Hall Hi) as (kr & Hkr & Hr & Hpos & Ha & _).
    exists kr. split; [by eapply list_elem_of_lookup_2|done]. }
  exists l. split_and!.
  - done.
  - rewrite <- (Forall2_length _ _ _ Hall), length_take. done.
  - rewrite <- (take_drop k rows) in Hsorted. apply StronglySorted_app_1_l in Hsorted.
    clear Hl Hfrom. induction Hall as [|kr s krs l (_ & Hpos & _) Hall IH]; [constructor|].
    apply StronglySorted_inv in Hsorted as [Hsorted Hfirst]. constructor; [by apply IH|].
    apply Forall_forall. intros s' (i & Hi)%list_elem_of_lookup.
    destruct (Forall2_lookup_r _ _ _ _ _ Hall Hi) as (kr' & Hkr' & _ & Hpos' & _). rewrite Hpos, Hpos'.
    rewrite Forall_forall in Hfirst. apply Hfirst. by eapply list_elem_of_lookup_2.
  - intros s Hs. destruct (Hfrom s Hs) as ([r row] & Hr & Hid & Hpos & Ha).
    assert ((r, row) ∈ rows) as (_ & _ & Hb & Hw)%Hin by (by eapply subseteq_take).
    rewrite Hpos, Hid. done.
  - intros s [Hst (row & Hrow & Hs)] Hb Hw. pose proof (snapshot_from_row_Ok self _ _ _ Hs) as (_ & _ & _ & _ & Hu & _).
    assert ((s.(sn_run_id), row) ∈ rows) as Hr.
    { apply Hin. split_and!; [done| |by rewrite <- Hu|done]. by rewrite <- (snapshot_status _ _ _ Hs), <- active_status. }
    assert (position s = row_position (s.(sn_run_id), row)) as Hpos by (unfold position, row_position; cbn; congruence).
    rewrite <- (take_drop k rows) in Hr, Hsorted. apply elem_of_app in Hr as [Hr|Hr].
    + left. apply list_elem_of_lookup in Hr as (i & Hi). destruct (Forall2_lookup_l _ _ _ _ _ Hall Hi) as (s' & Hs' & _ & _ & _ & Hs2).
      cbn [fst snd] in Hs2. rewrite Hs in Hs2. injection Hs2 as ->. by eapply list_elem_of_lookup_2.
    + right. split.
      * rewrite <- (Forall2_length _ _ _ Hall), length_take.
        assert (length (drop k rows) ≠ 0%nat) as Hd
          by (intros Hd%List.length_zero_iff_nil; rewrite Hd in Hr; by apply elem_of_nil in Hr).
        rewrite length_drop in Hd. lia.
      * intros s' Hs'. destruct (Hfrom s' Hs') as (kr' & Hr' & _ & Hpos' & _). rewrite Hpos, Hpos'.
        apply (StronglySorted_app_1_elem_of _ _ _ kr' _ Hsorted Hr' Hr).
Qed.

Lemma cursor_parses m : cursor_valid_text m = Ok () → ∃ c, parse_active_run_cursor m = Ok c.
Proof.
  unfold cursor_valid_text. intros Hm. apply result_bind_Ok in Hm as (? & _ & Hm).
  destruct (parse_active_run_cursor m) as [c|]; [by exists c|done].
Qed.

Lemma active_cursor s :
  active_run p s →
  ∃ m, active_run_cursor s.(sn_updated_at) s.(sn_run_id) = Ok m ∧ cursor_valid_text m = Ok ()
       ∧ parse_active_run_cursor m = Ok (position s).
Proof.
  intros [Hst (row & Hrow & Hs)]. pose proof (snapshot_from_row_Ok self _ _ _ Hs) as (_ & _ & _ & _ & Hu & _).
  rewrite active_status, (snapshot_status _ _ _ Hs) in Hst. destruct (Hp _ row Hrow Hst) as (_ & Hpos & Hd & Htext & Hr).
  rewrite <- Hu in Hpos, Hd. assert (0 ≤ s.(sn_updated_at) ≤ datetime_max) as Hrange by (unfold datetime_ok in Hd; lia).
  exists (member_text s.(sn_updated_at) s.(sn_run_id)). split_and!.
  - apply index_member_eq; [done|by apply datetime_max_digits].
  - by apply cursor_text_ok.
  - by apply parse_cursor_member.
Qed.

(** The continuation after the first [limit] of the snapshots. *)
Lemma continuation limit l (next := match last (take (Z.to_nat limit) l) with
    | Some s => if decide (limit < Z.of_nat (length l)) then Some <$> active_run_cursor s.(sn_updated_at) s.(sn_run_id)
                else mret None
    | None => mret None end) :
  1 ≤ limit → (∀ s, s ∈ l → active_run p s) →
  ∃ o, next = Ok o ∧ optional_cursor o = Ok () ∧ (limit < Z.of_nat (length l) → o ≠ None)
    ∧ ∀ m, o = Some m → ∃ s, last (take (Z.to_nat limit) l) = Some s ∧ parse_active_run_cursor m = Ok (position s).
Proof.
  intros Hlimit Hl. subst next. destruct (last (take (Z.to_nat limit) l)) as [s|] eqn:Hlast.
  - case_decide as Hmore; [|by exists None].
    assert (s ∈ l) as Hs.
    { rewrite last_lookup in Hlast. apply list_elem_of_lookup_2 in Hlast. by eapply subseteq_take. }
    destruct (active_cursor s (Hl s Hs)) as (m & -> & Hm & Hparse). exists (Some m). split_and!; [done|done|done|].
    intros m' [= <-]. by exists s.
  - apply last_None in Hlast. exists None. split_and!; [done|done| |done].
    intros Hmore. apply (f_equal length) in Hlast. rewrite length_take in Hlast. cbn in Hlast. lia.
Qed.

Lemma list_page_ok after_member limit :
  after = cursor_of after_member → optional_cursor after_member = Ok () → 1 ≤ limit ≤ 1000 →
  candidates_valid candidates = Ok () → candidates ≠ Some [] →
  ∃ page, list_nonterminal_runs self self after_member limit candidates p = Ok page
    ∧ page_shape limit page.(sp_items) page.(sp_next_after_member)
    ∧ (∀ s, s ∈ page.(sp_items) → active_run p s ∧ below_cursor (position s) after ∧ wanted s.(sn_run_id))
    ∧ ∀ s, active_run p s → below_cursor (position s) after → wanted s.(sn_run_id) →
        s ∈ page.(sp_items) ∨ page.(sp_next_after_member) ≠ None
                              ∧ ∀ s', s' ∈ page.(sp_items) → pair_lt (position s) (position s').
Proof.
  intros Hafter Hcur Hlimit Hcands Hne.
  destruct (active_snapshots (Z.to_nat (limit + 1))) as (l & Hl & Hlen & Hdesc & Hin & Hall).
  destruct (continuation limit l) as (next & Hnext & Hok & Hmore & Hlast); [lia|by intros s [? _]%Hin|].
  pose proof Hdesc as Hsplit. unfold descending in Hsplit. rewrite <- (take_drop (Z.to_nat limit) l) in Hsplit.
  exists {| sp_items := take (Z.to_nat limit) l; sp_next_after_member := next |}. split_and!.
  - unfold list_nonterminal_runs, require_configured_tenant, page_limit, ACTIVE_RUN_INDEX_MAX_PAGE_SIZE.
    rewrite Hself. cbn [mbind result_bind]. rewrite assert_ok_only by done. cbn [mbind result_bind].
    rewrite assert_ok_only by done. cbn [mbind result_bind].
    assert (match after_member with
            | Some m => match parse_active_run_cursor m with Ok c => mret (Some c) | Err _ => Err ValueError end
            | None => mret None end = Ok after) as ->.
    { subst after. destruct after_member as [m|]; [|done]. apply cursor_parses in Hcur as (c & Hc). cbn. by rewrite Hc. }
    cbn [mbind result_bind]. rewrite Hcands. cbn [mbind result_bind]. rewrite decide_False, Hl by done.
    cbn [mbind result_bind]. rewrite in_order_ok; [|done|apply Forall_forall; by intros s (_ & ? & _)%Hin].
    cbn [mbind result_bind]. rewrite Hnext. cbn [mbind result_bind]. unfold ActiveRunSqlPage_init. by rewrite Hok.
  - cbn [sp_items sp_next_after_member]. split; [rewrite length_take; lia|by apply StronglySorted_app_1_l in Hsplit|exact Hlast].
  - intros s Hs. apply Hin. by eapply subseteq_take.
  - intros s Ha Hb Hw. cbn [sp_items sp_next_after_member]. destruct (Hall s Ha Hb Hw) as [Hs|[Hfull Hbelow]].
    + rewrite <- (take_drop (Z.to_nat limit) l) in Hs. apply elem_of_app in Hs as [Hs|Hs]; [by left|right].
      split; [apply Hmore|intros s' Hs'; apply (StronglySorted_app_1_elem_of _ _ _ s' s Hsplit Hs' Hs)].
      assert (length (drop (Z.to_nat limit) l) ≠ 0%nat) as Hd
        by (intros Hd%List.length_zero_iff_nil; rewrite Hd in Hs; by apply elem_of_nil in Hs).
      rewrite length_drop in Hd. lia.
    + right. split; [apply Hmore; lia|]. intros s' Hs'. apply Hbelow. by eapply subseteq_take.
Qed.

(** Two active snapshots of a run are the same. *)
Lemma active_run_inj s s' : active_run p s → active_run p s' → s.(sn_run_id) = s'.(sn_run_id) → s = s'.
Proof. intros [_ (row & Hrow & Hs)] [_ (row' & Hrow' & Hs')] Hr. rewrite Hr in *. congruence. Qed.

Lemma items_accepted previous seen l :
  descending l → Forall (λ s, below_cursor (position s) previous) l → (∀ s, s ∈ l → active_run p s ∧ s.(sn_run_id) ∉ seen) →
  sql_items_valid self previous seen l = Ok ().
Proof.
  intros Hl. revert previous seen. induction Hl as [|s l _ IH Hs]; intros previous seen Hb Hin; [done|].
  apply Forall_cons_1 in Hb as [Hb _]. destruct (Hin s) as [Ha Hseen]; [by left|].
  destruct Ha as [Hst (row & Hrow & Hsnap)] eqn:HH. clear HH.
  pose proof (snapshot_from_row_Ok self _ _ _ Hsnap) as (_ & Ht & _).
  cbn [sql_items_valid]. do 4 (rewrite assert_ok_only by done; cbn [mbind result_bind]).
  apply IH; [by apply descending_below|]. intros s' Hs'. destruct (Hin s') as [Ha' Hseen']; [by right|].
  split; [done|]. rewrite not_elem_of_union, not_elem_of_singleton. split; [|done]. intros Heq.
  rewrite Forall_forall in Hs. specialize (Hs s' Hs'). rewrite (active_run_inj s' s) in Hs; [|done|done|done].
  by apply pair_lt_irrefl in Hs.
Qed.

Lemma page_accepted page after_member limit :
  after = cursor_of after_member → optional_cursor after_member = Ok () →
  page_shape limit page.(sp_items) page.(sp_next_after_member) →
  (∀ s, s ∈ page.(sp_items) → active_run p s ∧ below_cursor (position s) after) →
  validate_sql_page page self limit after_member = Ok page.(sp_items).
Proof.
  intros Hafter Hcur [Hlen Hdesc Hnext] Hin. unfold validate_sql_page. rewrite assert_ok_only by done.
  cbn [mbind result_bind].
  assert (match after_member with
          | Some m => match parse_active_run_cursor m with Ok c => mret (Some c) | Err _ => Err ActiveRunReadProtocolError end
          | None => mret None end = Ok after) as ->.
  { subst after. destruct after_member as [m|]; [|done]. apply cursor_parses in Hcur as (c & Hc). cbn. by rewrite Hc. }
  cbn [mbind result_bind]. rewrite items_accepted; [|done|apply Forall_forall; by intros s [_ ?]%Hin|].
  - cbn [mbind result_bind]. destruct (sp_next_after_member page) as [m|]; [|done].
    destruct (Hnext m eq_refl) as (s & -> & ->). by rewrite assert_ok_only.
  - intros s [? _]%Hin. split; [done|]. apply not_elem_of_empty.
Qed.
End authority.

(** A proposal that was accepted names valid, different runs. *)
Lemma proposal_candidates page tenant_id limit :
  limit ≤ 1000 → validate_index_page page tenant_id limit = Ok () → candidates_valid (Some (run_ids page)) = Ok ().
Proof.
  intros Hlimit Hv. unfold validate_index_page in Hv. apply result_bind_Ok in Hv as (? & Hlen%assert_result_Ok & Hv).
  apply result_bind_Ok in Hv as (us & Hall & Hv). apply result_bind_Ok in Hv as (? & Hnd%assert_result_Ok & _).
  unfold candidates_valid. rewrite (assert_ok_only (Z.of_nat _ ≤ _)); [|unfold run_ids, ACTIVE_RUN_INDEX_MAX_PAGE_SIZE; rewrite length_map; lia].
  cbn [mbind result_bind]. destruct (mapM_res_Forall2 shadow_identity (λ _ _, True) (run_ids page)) as (vs & -> & _).
  - unfold run_ids. rewrite Forall_map. clear -Hall. revert us Hall. induction (items page) as [|e l IH]; intros us Hall; [constructor|].
    cbn [mapM_res] in Hall. apply result_bind_Ok in Hall as (u & He & Hall). apply result_bind_Ok in Hall as (us' & Hl & _).
    constructor; [|by eapply IH]. unfold validate_candidate_entry in He. apply result_bind_Ok in He as (? & _ & He).
    apply result_bind_Ok in He as ([] & He & _). by exists ().
  - cbn [mbind result_bind]. by apply assert_ok_only.
Qed.

(** ** Reads beside other transactions *)

(** The exceptions of a computation. *)
Definition raises_only {A} (l : list exn) (m : res A) : Prop := ∀ e, m = Err e → e ∈ l.

Lemma raises_bind {A B} l (m : res A) (k : A → res B) :
  raises_only l m → (∀ a, raises_only l (k a)) → raises_only l (m ≫= k).
Proof.
  intros Hm Hk e. unfold mbind, result_bind. destruct m as [a|e'] eqn:Heq; [apply Hk|].
  intros He. injection He as <-. by apply Hm.
Qed.

Lemma raises_assert l (P : Prop) `{Decision P} e : e ∈ l → raises_only l (assert_result P e).
Proof. intros He e'. unfold assert_result. case_decide; [done|]. by intros [= <-]. Qed.

Lemma raises_mapM {A B} l (f : A → res B) xs : (∀ x, raises_only l (f x)) → raises_only l (mapM_res f xs).
Proof.
  intros Hf. induction xs as [|x xs IH]; [done|]. cbn [mapM_res].
  apply raises_bind; [done|intros b]. by apply raises_bind.
Qed.

Section services_laws.
Context {W : Type} (sql : W → pg) (others : W → W).
Context (self : string) (Hself : shadow_identity self = Ok ()).
Context (config : ShadowProjectionConfig) (policy : option (RedisCapability.t → string → res bool)).

(** The SQL sources of the tenant; others act before each query. *)
Definition sql_page (tenant_id : string) (after_member : option string) (limit : Z) (candidates : option (list string))
    : pyeff W ActiveRunSqlPage :=
  λ w, let w' := others w in (list_nonterminal_runs self tenant_id after_member limit candidates (sql w'), w').
Definition sql_projection (tenant_id run_id : string) : pyeff W (option ShadowProjectionSnapshot) :=
  λ w, let w' := others w in (source_load self tenant_id run_id (sql w'), w').

Section active.
Context (index_page : string → option string → Z → pyeff W (option ActiveRunIndexPage)).
Context (Hlistable : ∀ w, listable self (sql (others w))).
Context (after_member : option string) (limit : Z) (force_sql : bool).
Context (Hafter : optional_cursor after_member = Ok ()) (Hlimit : 1 ≤ limit ≤ 1000).
Abbreviation cursor := (cursor_of after_member).

(** What the list promises of the state of SQL at its last query. *)
Definition authoritative (p : pg) (proposed : option ActiveRunIndexPage) (r : ActiveRunReadResult) : Prop :=
  page_shape limit r.(ar_items) r.(ar_next_after_member)
  ∧ (∀ s, s ∈ r.(ar_items) → active_run self p s ∧ below_cursor (position s) cursor)
  ∧ match r.(ar_source) with
    | ACTIVE_POSTGRES => ∀ s, active_run self p s → below_cursor (position s) cursor →
        s ∈ r.(ar_items) ∨ r.(ar_next_after_member) ≠ None
                           ∧ ∀ s', s' ∈ r.(ar_items) → pair_lt (position s) (position s')
    | REDIS_CANDIDATES => ∃ page, proposed = Some page ∧ map sn_run_id r.(ar_items) = run_ids page
                                  ∧ r.(ar_next_after_member) = page.(next_after_member)
    end.

Lemma wanted_all r : wanted None r.
Proof. done. Qed.

Lemma shape_next_valid p l next :
  (∀ s, s ∈ l → active_run self p s) → listable self p → page_shape limit l next → optional_cursor next = Ok ().
Proof.
  intros Hl Hp [_ _ Hnext]. destruct next as [m|]; [|done]. destruct (Hnext m eq_refl) as (s & Hlast & Hm).
  rewrite last_lookup in Hlast. apply list_elem_of_lookup_2, Hl in Hlast.
  destruct (active_cursor self Hself p Hp s Hlast) as (m' & Heq & Hvalid & Hparse).
  apply parse_cursor_Ok in Hm as (-> & _). by apply index_member_Ok in Heq as (-> & _).
Qed.

Lemma sql_read_authoritative reason w proposed :
  ∃ r, read_sql_page sql_page self after_member limit reason w = (Ok r, others w)
       ∧ r.(ar_source) = ACTIVE_POSTGRES ∧ authoritative (sql (others w)) proposed r.
Proof.
  destruct (list_page_ok self Hself (sql (others w)) (Hlistable w) cursor None after_member limit)
    as (page & Hpage & Hshape & Hin & Hall); [done..|].
  assert (∀ s, s ∈ sp_items page → active_run self (sql (others w)) s ∧ below_cursor (position s) cursor) as Hin2
    by (intros s (? & ? & _)%Hin; done).
  eexists. split_and!.
  - unfold read_sql_page. erewrite eff_step; [|unfold sql_page; by rewrite Hpage].
    cbv beta. erewrite eff_step; [|by apply from_Ok; eapply page_accepted].
    cbv beta. apply from_Ok. unfold ActiveRunReadResult_init. cbn [ar_source ar_fallback_reason ar_next_after_member mbind result_bind mret result_ret].
    erewrite shape_next_valid; [done|by intros s [? _]%Hin2|apply Hlistable|done].
  - done.
  - split_and!; [done|done|]. intros s Ha Hb. by apply Hall.
Qed.

Lemma index_page_error page tenant_id :
  raises_only [TypeError; ValueError; ActiveRunIndexProtocolError] (validate_index_page page tenant_id limit).
Proof.
  unfold validate_index_page. cbv zeta. apply raises_bind; [apply raises_assert; set_solver|intros _].
  apply raises_bind; [|intros _].
  - apply raises_mapM. intros entry. unfold validate_candidate_entry, shadow_identity. cbv zeta.
    do 7 (apply raises_bind; [apply raises_assert; set_solver|intros _]).
    destruct (parse_active_run_cursor _); [apply raises_assert; set_solver|intros ? [= <-]; set_solver].
  - apply raises_bind; [apply raises_assert; set_solver|intros _]. destruct (next_after_member page) as [m|]; [|done].
    destruct (parse_active_run_cursor m) as [[t r]|]; [|intros ? [= <-]; set_solver].
    destruct (last _); [apply raises_assert; set_solver|intros ? [= <-]; set_solver].
Qed.

(** What Redis proposes, if it answers. *)
Definition proposed (w : W) : option ActiveRunIndexPage :=
  match (index_page self after_member limit w).1 with Ok o => o | Err _ => None end.

Lemma propose_cases w :
  ∃ x w1, propose_candidates config policy index_page self after_member limit force_sql w = (Ok x, w1)
    ∧ (force_sql = true → x = inl INDEX_FORCE_SQL)
    ∧ match x with inr page => proposed w = Some page ∧ validate_index_page page self limit = Ok () | inl _ => True end.
Proof.
  unfold propose_candidates. destruct force_sql; [by eexists _, _|]. destruct (negb _); [by eexists _, _|].
  destruct (negb _); [by eexists _, _|]. unfold proposed, mbind, eff_bind, attempt.
  destruct (index_page self after_member limit w) as [[[page|]|e] w1]; cbn [fst]; [|by eexists _, _|by destruct e; eexists _, _].
  destruct (validate_index_page page self limit) as [[]|e] eqn:Hv; [by eexists _, _|].
  rewrite decide_True by (by eapply index_page_error). by eexists _, _.
Qed.

(** The continuation of a proposal that SQL confirmed names the last run. *)
Lemma proposal_next page l m :
  validate_index_page page self limit = Ok () → map sn_run_id l = run_ids page →
  forallb (λ cs, candidate_matches_snapshot cs.1 cs.2) (zip page.(items) l) = true → page.(next_after_member) = Some m →
  ∃ s, last l = Some s ∧ parse_active_run_cursor m = Ok (position s).
Proof.
  intros Hv Hids Hmatch Hnext. unfold validate_index_page in Hv. do 3 (apply result_bind_Ok in Hv as (? & _ & Hv)).
  rewrite Hnext in Hv. destruct (parse_active_run_cursor m) as [[t r]|] eqn:Hm; [|done].
  destruct (last (items page)) as [e|] eqn:He; [|done]. apply assert_result_Ok in Hv as [-> ->].
  apply (f_equal length) in Hids. unfold run_ids in Hids. rewrite !length_map in Hids.
  rewrite !last_lookup in *. rewrite Hids. destruct (l !! pred (length (items page))) as [s|] eqn:Hs.
  - exists s. split; [done|]. rewrite forallb_forall in Hmatch. specialize (Hmatch (e, s)). cbn [fst snd] in Hmatch.
    unfold candidate_matches_snapshot in Hmatch. rewrite Hm in Hmatch.
    rewrite bool_decide_eq_true in Hmatch. f_equal. apply Hmatch. apply list_elem_of_In, list_elem_of_lookup.
    exists (pred (length (items page))). by rewrite lookup_zip_with, He, Hs.
  - apply lookup_lt_Some in He. apply lookup_ge_None in Hs. lia.
Qed.

(** C25. The list of active runs is SQL's, whatever Redis proposes. For valid arguments the
    service answers, even if the index reader fails, misses or returns any page at all, and
    other transactions run before each query. Every listed run is, in the state of SQL at
    the last query, an active run of the tenant with exactly the listed snapshot; the list
    is in the stable descending order, after the cursor and no longer than the limit, and a
    continuation names its last run. A list from SQL misses no active run before the point
    where it continues; a list from candidates has exactly the proposed runs; and a caller
    that forces SQL gets it. *)
Theorem active_list_is_authoritative w :
  ∃ r w', list_active_runs config policy sql_page index_page self after_member limit force_sql w = (Ok r, w')
  ∧ authoritative (sql w') (proposed w) r
  ∧ (force_sql = true → r.(ar_source) = ACTIVE_POSTGRES).
Proof.
  unfold list_active_runs. erewrite eff_step by (by apply from_Ok). cbv beta.
  erewrite eff_step by (by apply from_Ok). cbv beta.
  erewrite eff_step by (apply from_Ok; unfold page_limit; by apply assert_ok_only). cbv beta.
  destruct (propose_cases w) as (x & w1 & Hprop & Hforce & Hx). erewrite eff_step by exact Hprop. cbv beta.
  destruct x as [reason|page].
  { destruct (sql_read_authoritative reason w1 (proposed w)) as (r & Hr & Hsrc & Ha). by exists r, (others w1). }
  destruct Hx as [Hpage Hv]. rewrite Hpage. case_decide as Hempty.
  { eexists _, w1. split; [done|]. split; [|by intros ?%Hforce].
    split_and!; [split; [cbn; lia|constructor|done]|by intros s ?%elem_of_nil|].
    exists page. unfold run_ids. rewrite Hempty. split_and!; [done|done|].
    unfold validate_index_page in Hv. do 3 (apply result_bind_Ok in Hv as (? & _ & Hv)). rewrite Hempty in Hv. cbn.
    destruct (next_after_member page) as [m|]; [|done]. by destruct (parse_active_run_cursor m) as [[]|]. }
  destruct (list_page_ok self Hself (sql (others w1)) (Hlistable w1) cursor (Some (run_ids page)) after_member limit)
    as (found & Hfound & Hshape & Hin & _); [done..|by eapply proposal_candidates; [|done]; lia| |].
  { intros [= Hnil]. unfold run_ids in Hnil. by apply map_eq_nil in Hnil. }
  assert (∀ s, s ∈ sp_items found → active_run self (sql (others w1)) s ∧ below_cursor (position s) cursor) as Hin2
    by (intros s (? & ? & _)%Hin; done).
  erewrite eff_step; [|unfold sql_page; by rewrite Hfound]. cbv beta.
  erewrite eff_step; [|by apply from_Ok; eapply page_accepted]. cbv beta.
  destruct (bool_decide _ && _) eqn:Hok.
  - apply andb_true_iff in Hok as [Hids%bool_decide_eq_true Hmatch].
    assert (page_shape limit (sp_items found) page.(next_after_member)) as Hshape2.
    { destruct Hshape as [Hl Hd _]. split; [done|done|]. intros m Hm. by eapply proposal_next. }
    eexists _, (others w1). split.
    + apply from_Ok. unfold ActiveRunReadResult_init. cbn [ar_source ar_fallback_reason ar_next_after_member mbind result_bind mret result_ret].
      erewrite shape_next_valid; [done|by intros s [? _]%Hin2|apply Hlistable|done].
    + split; [|by intros ?%Hforce]. split_and!; [done|done|]. by exists page.
  - destruct (sql_read_authoritative INDEX_STALE (others w1) (Some page)) as (r & Hr & Hsrc & Ha). by exists r, (others (others w1)).
Qed.
End active.

(** ** The status of a run *)

Section status.
Context (read_projection : string → string → pyeff W (option ShadowProjectionSnapshot)).
Context (write_projection : ShadowProjectionSnapshot → Z → pyeff W ProjectionWriteResult).
Context (run_id : string) (Hrun : shadow_identity run_id = Ok ()).

(** A usable status of the cache. *)
Definition cached_status (minimum : option Z) (force : bool) (w : W) (s : ShadowProjectionSnapshot) : Prop :=
  force = false ∧ (read_projection self run_id w).1 = Ok (Some s)
  ∧ s.(sn_tenant_id) = self ∧ s.(sn_run_id) = run_id ∧ ∀ v, minimum = Some v → v ≤ s.(sn_stream_version).

Lemma cache_cases minimum force w :
  ∃ x w1, cache_fallback_reason config policy read_projection self run_id minimum force w = (Ok x, w1)
    ∧ w1 ∈ [w; (read_projection self run_id w).2]
    ∧ match x with inl _ => True | inr s => cached_status minimum force w s end.
Proof.
  unfold cache_fallback_reason.
  assert (∀ reason, ∃ x w1, (mret (inl reason) : pyeff W (ShadowProjectionFallbackReason + ShadowProjectionSnapshot)) w
    = (Ok x, w1) ∧ w1 ∈ [w; (read_projection self run_id w).2]
    ∧ match x with inl _ => True | inr s => cached_status minimum force w s end) as Hearly
    by (intros reason; eexists _, _; split_and!; [done|by left|done]).
  destruct force; [apply Hearly|]. destruct (negb _); [apply Hearly|]. destruct (negb _); [apply Hearly|].
  unfold cached_status, mbind, eff_bind, attempt. destruct (read_projection self run_id w) as [c w1] eqn:Hc. cbn [fst snd].
  eexists _, _. split; [done|]. split; [by right; left|].
  destruct c as [[s|]|e]; [|done|by destruct e]. case_decide as Hid; [done|]. apply Decidable.not_or in Hid as [Ht Hr].
  apply dec_stable in Ht, Hr. destruct minimum as [v|]; [case_decide; [done|]|]; split_and!; try done.
  - intros v' [= <-]. lia.
Qed.

Lemma backfill_ok reason s w :
  (if decide (reason = OUTSIDE_CANARY) then mret () else best_effort_backfill config write_projection s) w
  = (Ok (), if decide (reason = OUTSIDE_CANARY) then w
            else if redis_cache_write config.(sc_features)
                 then (write_projection s (for_snapshot config.(sc_ttl) s) w).2 else w).
Proof.
  case_decide; [done|]. unfold best_effort_backfill. destruct (redis_cache_write _); [|done].
  unfold mbind, eff_bind, attempt. by destruct (write_projection _ _ _).
Qed.

(** C26. The status of a run is the run's, and only SQL's failure is a failure. A status from
    Redis was just read there, is the requested run's and not older than the requested
    version, and the caller did not force SQL; any other status is exactly what SQL holds when it
    is queried, whatever the reader answered and whatever becomes of the copy that is
    written back; and if no status is returned, the SQL query failed with that exception. *)
Theorem status_reads_fall_back minimum force w :
  (∀ v, minimum = Some v → 0 ≤ v) →
  let '(r, _) := read_ui_status config policy sql_projection read_projection write_projection self run_id minimum force w in
  let in_sql r := ∃ w1, w1 ∈ [w; (read_projection self run_id w).2] ∧ source_load self self run_id (sql (others w1)) = r in
  match r with
  | Ok {| rr_source := REDIS; rr_snapshot := o |} => ∃ s, o = Some s ∧ cached_status minimum force w s
  | Ok {| rr_source := STATUS_POSTGRES; rr_snapshot := o |} => in_sql (Ok o)
  | Err e => in_sql (Err e)
  end.
Proof.
  intros Hmin. unfold read_ui_status. erewrite eff_step by (by apply from_Ok). cbv beta.
  erewrite eff_step by (by apply from_Ok). cbv beta.
  assert (match minimum with Some v => non_negative_int v | None => mret () end = Ok ()) as Hv.
  { destruct minimum as [v|]; [|done]. by apply assert_ok_only, Hmin. }
  erewrite eff_step by (by apply from_Ok). cbv beta.
  destruct (cache_cases minimum force w) as (x & w1 & Hx & Hin & Hspec). erewrite eff_step by exact Hx. cbv beta.
  destruct x as [reason|s]; [|by exists s].
  unfold mbind at 1, eff_bind at 1, sql_projection at 1.
  destruct (source_load self self run_id (sql (others w1))) as [o|e] eqn:Hload; [|by exists w1].
  assert (match o with Some s => s.(sn_tenant_id) = self ∧ s.(sn_run_id) = run_id | None => True end) as Hid.
  { destruct o as [s|]; [|done]. unfold source_load in Hload. do 2 (apply result_bind_Ok in Hload as (? & _ & Hload)).
    destruct (pg_runs _ !! _) as [row|]; [|done]. destruct (snapshot_from_row run_id row self) as [s'|] eqn:Hs; [|done].
    injection Hload as ->. by apply snapshot_from_row_Ok in Hs as (_ & ? & ? & _). }
  destruct o as [s|]; [|by exists w1].
  erewrite eff_step; [by exists w1|]. erewrite eff_step by (by apply from_Ok, assert_ok_only). cbv beta. by apply backfill_ok.
Qed.
End status.
End services_laws.
