(* ===== verification/ShadowScenario.v ===== *)
(** * ShadowScenario: a run's snapshots on their way through Redis

    A concrete reader of ISO times and a concrete digest satisfy the laws that the shadow
    relies on. On the plain server a run's versions 3 and 5 arrive, then version 4 again; the
    index lists it, a relay polls, a rebuild fills an empty server, and the reads answer from
    SQL beside a stale index and a broken shadow. *)

From S2P Require Import Prelude Text Domain Platform Json Datetime Rollout Effects Decimal Redis.
From S2P Require Import ShadowProjection RedisShadow ShadowSafety RedisActiveIndex IndexCodec.
From S2P Require Import IndexSafety IndexReads ShadowConfig OutboxRelay RunOutbox Pipeline Rebuild ActiveReads.
From Stdlib Require Import Lia.

#[local] Open Scope Z_scope.

(** ** A digest of 64 digits *)

Fixpoint shadow_poly (acc : Z) (s : string) : Z :=
  match s with
  | EmptyString => acc
  | String a s' => shadow_poly (Z.land (acc * 257 + Z.of_N (N_of_ascii a)) 1099511627775) s'
  end.

#[local] Instance shadow_platform : Platform := {|
  sha256_text s := pad 64 (shadow_poly 1 s);
  uuid_canon s := if decide (s = "") then None else Some s;
  nfc s := s;
  path_resolve s := s;
  path_resolve_strict s := Some s;
  float_repr _ := "";
  float_of _ := None;
|}.

(** ** A reader of times with six digits of microseconds and no offset *)

(** The number in the first [w] characters, and what follows the separator. *)
Definition read_field (w k : nat) (s : string) : Z * string :=
  (digits_value 0 (str_take w s), str_drop (w + k) s).

Definition read_iso (s : string) : option (datetime * option timedelta) :=
  let '(y, s) := read_field 4 1 s in
  let '(m, s) := read_field 2 1 s in
  let '(d, s) := read_field 2 1 s in
  let '(h, s) := read_field 2 1 s in
  let '(mi, s) := read_field 2 1 s in
  let '(sec, s) := read_field 2 1 s in
  let '(us, s) := read_field 6 0 s in
  if decide (s = "+00:00")
  then Some (days 1 * day_of_civil (y, m, d) + seconds 1 * (3600 * h + 60 * mi + sec) + us, Some 0)
  else None.

#[local] Instance shadow_signing : Signing := {| hmac_sha256 key message := key; fromisoformat := read_iso |}.

Lemma str_drop_app a b k : str_drop (String.length a + k) (a +:+ b) = str_drop k b.
Proof. induction a as [|c a IH]; [done|exact IH]. Qed.

Lemma read_field_pad w k n sep rest :
  0 ≤ n < 10 ^ Z.of_nat w → String.length sep = k →
  read_field w k (pad w n +:+ sep +:+ rest) = (n, rest).
Proof.
  intros Hn <-. unfold read_field. f_equal.
  - rewrite <- (pad_length w n) at 1. rewrite str_take_app_length. by apply pad_value.
  - rewrite <- (pad_length w n) at 1. rewrite str_drop_app.
    rewrite <- (Nat.add_0_r (String.length sep)), str_drop_app. done.
Qed.

Lemma read_iso_isoformat t :
  datetime_ok t → read_iso (isoformat_with (λ us, "." +:+ pad 6 us) t +:+ "+00:00") = Some (t, Some 0).
Proof.
  intros Ht. pose proof (civil_range t Ht) as Hrange. unfold isoformat_with.
  pose proof (datetime_split t) as (Hsplit & Hsec & Hus). cbv zeta in *.
  pose proof (day_of_civil_civil (t `div` days 1)) as Hday.
  destruct (civil (t `div` days 1)) as [[y m] d]. destruct Hrange as (Hy & Hm & Hd).
  revert Hsplit Hsec Hus. generalize ((t `mod` days 1) `mod` seconds 1) ((t `mod` days 1) `div` seconds 1).
  intros us sec Hsplit Hsec Hus. pose proof (clock_range sec Hsec) as (Hh & Hmi & Hse).
  rewrite !str_app_assoc. unfold read_iso, seconds in *.
  do 6 (rewrite read_field_pad by (first [done|simpl; lia])).
  change "+00:00" with ("" +:+ "+00:00"). rewrite read_field_pad by (first [done|simpl; lia]).
  rewrite decide_True by done. do 2 f_equal. rewrite Hday, Hsplit.
  change (days 1) with 86400000000. Z.div_mod_to_equations. lia.
Qed.

Lemma pad_hex s : hex_format 64 (sha256_text s) = true.
Proof.
  unfold hex_format. cbn [sha256_text shadow_platform]. rewrite pad_length, andb_true_iff. split; [done|].
  pose proof (pad_digits 64 (shadow_poly 1 s)) as Hd. revert Hd. apply all_chars_weaken.
  intros a ->. done.
Qed.

#[local] Instance shadow_laws : ShadowLaws.
Proof. split; [exact pad_hex|exact read_iso_isoformat]. Qed.

(** ** Three deliveries *)

#[local] Existing Instance plain_redis.

Definition demo_snapshot (version : Z) : ShadowProjectionSnapshot := {|
  sn_tenant_id := "acme"; sn_run_id := "run-1"; sn_stream_version := version;
  sn_execution_status := ExecutionStatus.ACTIVE; sn_phase := Some "planning";
  sn_last_event_seq := version; sn_updated_at := seconds (1767225600 + version) |}.

Definition shadow0 : server := {| entries := ∅; plain_time := 1000000 |} : plain_server.
Definition deliver (version : Z) (srv : server) :=
  write_projection "prod" id Answered (demo_snapshot version) 900 srv.
Definition shadow5 : server := (deliver 5 (deliver 3 shadow0).2).2.

Lemma late_delivery_is_stale :
  deliver 4 shadow5
  = (Ok {| pw_status := ProjectionWriteStatus.STALE; incoming_version := 4; stored_version := 5 |}, shadow5)
  ∧ (read_projection "prod" id Answered "acme" "run-1" shadow5).1 = Ok (Some (demo_snapshot 5)).
Proof. split; vm_compute; reflexivity. Qed.

Lemma empty_represents : represents "prod" shadow0 ∅.
Proof. intros t r Ht Hr. split; [done|]. intros s Hs. by rewrite lookup_empty in Hs. Qed.

(** Witness of [shadow_is_a_versioned_register] on the empty server: an answered write. *)
Lemma shadow_is_a_versioned_register_witness :
  represents "prod" shadow0 ∅
  ∧ ∃ kept, kept ⊆ (∅ : gmap (string * string) ShadowProjectionSnapshot)
      ∧ represents "prod" shadow0 kept.
Proof.
  split; [exact empty_represents|].
  destruct (shadow_is_a_versioned_register "prod" id Answered shadow0 ∅ eq_refl empty_represents
    (λ k, or_introl eq_refl)) as (kept & Hsub & Hrep & _).
  exists kept. split; [exact Hsub|exact Hrep].
Defined.

(** ** The active index *)

(** A decoder for the scripts: the fields of an object. *)
Definition lua_field (j : json) : lua_value :=
  match j with
  | JStr s => LuaString s
  | JInt n => LuaNumber (int_str n) n
  | JBool false => LuaFalse
  | _ => LuaOther
  end.

#[local] Instance shadow_cjson : Cjson := λ text,
  match json_loads text with
  | Some (JObj l) => Some (list_to_map (map (λ kv, (kv.1, lua_field kv.2)) l))
  | _ => None
  end.

#[local] Instance shadow_cjson_laws : CjsonLaws.
Proof.
  split. intros fields Hnd _. unfold cjson_decode, shadow_cjson.
  rewrite loads_canonical by by apply text_object_dict.
  assert (normalize_json (text_object fields)
          = JObj (map (λ kv : string * string, (kv.1, JStr kv.2)) (sort_keys fields))) as ->.
  { unfold text_object. cbn [normalize_json]. f_equal. rewrite map_map. cbn [fst snd normalize_json].
    by rewrite (sort_keys_map JStr). }
  f_equal. rewrite map_map. cbn [fst snd lua_field].
  transitivity (list_to_map (prod_map id LuaString <$> sort_keys fields) : gmap string lua_value).
  - f_equal.
  - rewrite list_to_map_fmap. f_equal. symmetry. apply list_to_map_proper; [done|].
    symmetry. apply sort_keys_perm.
Qed.

Definition demo_runs (r : string) : Prop := r = "run-1" ∨ r = "run-2".

Lemma demo_runs_ok r : demo_runs r → shadow_identity r = Ok ().
Proof. by intros [->| ->]. Qed.

Lemma demo_digests r r' : demo_runs r → demo_runs r' → sha256_text r = sha256_text r' → r = r'.
Proof.
  assert (sha256_text "run-1" ≠ sha256_text "run-2") as Hne
    by (apply (bool_decide_eq_true (_ ≠ _)); vm_compute; reflexivity).
  intros [->| ->] [->| ->] Heq; [done| | |done]; by destruct Hne.
Qed.

Lemma empty_index : index_inv "prod" "acme" demo_runs shadow0 ∅ ∅ false.
Proof.
  split; [done|done|]. exists ∅. split; [done|]. intros x n. rewrite lookup_empty. split; [done|].
  intros [_ [[_ ?]|(r & s & ? & _)]]; done.
Qed.

Lemma demo_index_ok : index_ok (demo_snapshot 5).
Proof. split; [|done]. split; [done|]. split; [done|]. repeat constructor. Qed.

Lemma demo_limit : 1 ≤ 10 ≤ ACTIVE_RUN_INDEX_MAX_PAGE_SIZE.
Proof. unfold ACTIVE_RUN_INDEX_MAX_PAGE_SIZE. lia. Qed.

(** Witness of [active_index_is_a_sorted_copy]: an empty index is opened, a run is written
    and the page is read. *)
Lemma active_index_is_a_sorted_copy_witness :
  index_inv "prod" "acme" demo_runs shadow0 ∅ ∅ false
  ∧ ∃ srv1 srv2 srv3,
      index_mark_ready "prod" id Answered "acme" shadow0 = (Ok (), srv1)
      ∧ (index_write_snapshot "prod" id Answered (demo_snapshot 5) 900 srv1).2 = srv2
      ∧ read_page "prod" id Answered "acme" None 10 srv2
        = (Ok (Some {| items := [entry_of (demo_snapshot 5)]; next_after_member := None |}), srv3).
Proof.
  split; [exact empty_index|].
  pose proof (active_index_is_a_sorted_copy "prod" eq_refl "acme" eq_refl demo_runs demo_runs_ok demo_digests id
    (λ _ _ _ _ H, H)) as Hindex.
  destruct (Hindex shadow0 ∅ ∅ false empty_index) as (_ & (srv1 & Hready & Hinv1) & _).
  destruct (Hindex srv1 ∅ ∅ true Hinv1) as (_ & _ & Hwrite & _).
  destruct (Hwrite Answered (demo_snapshot 5) 900 (or_introl eq_refl) eq_refl demo_index_ok eq_refl)
    as (srv2 & Hinv2 & Hrun).
  destruct (Hindex srv2 _ _ true Hinv2) as (_ & _ & _ & Hread).
  destruct (Hread None 10 demo_limit I) as (srv3 & _ & Hpage).
  { right. intros r s. rewrite lookup_insert_Some, lookup_empty. cbn. intros [[<- _]|[_ ?]]; [set_solver|done]. }
  exists srv1, srv2, srv3. split; [exact Hready|]. split; [by rewrite Hrun|]. refine (eq_trans Hpage _). vm_compute. reflexivity.
Defined.

(** ** A poll of the relay *)

#[local] Existing Instance c_collation.

Definition demo_config : ShadowProjectionConfig := {|
  sc_environment := "prod"; sc_ttl := ShadowProjectionTtlConfig_default;
  sc_features := Phase3 (Phase3RedisFeatureFlags_default <| p3_redis_cache_write := true |>
                                                         <| p3_redis_active_index_write := true |>);
  sc_prompt_working_set := PromptWorkingSetConfig_default |}.

Definition demo_relay : ShadowRelayConfig :=
  {| rc_tenant_id := "acme"; publisher_id := "relay-1"; rc_limit := 10; visibility_timeout_seconds := 30 |}.

Definition demo_now : datetime := seconds 1767225700.

(** The run is at version 5; the row of its event 4 is not yet acknowledged. *)
Definition demo_pg : pg := {|
  pg_runs := {[ ("acme", "run-1") := {| pr_execution_status := "active"; pr_phase := Some "planning";
    pr_stream_version := 5; pr_last_event_seq := 5; pr_updated_at := seconds 1767225605 |} ]};
  pg_outbox := {[ ("acme", "ob-4") := {| ob_run_id := "run-1"; ob_destination := RUN_PROJECTION_DESTINATION;
    ob_dedupe_key := None; ob_stream_version := 4; ob_source_event_id := Some "ev-4"; ob_payload_json := "{}";
    ob_created_at := seconds 1767225604; ob_published_at := None; ob_claimed_by := None; ob_claimed_at := None;
    ob_claim_expires_at := None; ob_publish_attempts := 0; ob_last_error_json := None |} ]};
  pg_clock := demo_now |}.

Definition demo_world : world := {| w_pg := demo_pg; w_redis := shadow0; w_future := [] |}.
Definition demo_policy (c : RedisCapability.t) (t : string) : res bool := Ok false.
Definition demo_poll := run_once (ports "prod" "acme" demo_policy) demo_config demo_relay demo_world.

Lemma demo_sane : sane "prod" "acme" demo_runs (demo_pg, shadow0).
Proof.
  split.
  - intros r row Hrow. cbn [fst pg_runs demo_pg] in Hrow. apply lookup_singleton_Some in Hrow as [[= <-] <-].
    split; [by left|]. split; [done|]. split; [done|]. repeat constructor.
  - intros r _. exists None. split; [done|]. by intros s Hs.
  - exists ∅, ∅, false. exact empty_index.
Qed.

Lemma demo_row :
  ∃ row, demo_poll.2.(w_pg).(pg_outbox) !! ("acme", "ob-4") = Some row
    ∧ row.(ob_destination) = RUN_PROJECTION_DESTINATION ∧ row.(ob_published_at) ≠ None.
Proof.
  eexists. split; [vm_compute; reflexivity|]. done.
Qed.


(** ** A rebuild *)

Definition demo_exported : gmap string ShadowProjectionSnapshot := {[ "run-1" := demo_snapshot 5 ]}.

Lemma demo_exports : exports "acme" demo_pg demo_exported.
Proof.
  intros r. cbn [pg_runs demo_pg]. destruct (decide (r = "run-1")) as [->|Hne].
  - rewrite lookup_singleton_eq. exists (demo_snapshot 5). by split; [apply lookup_singleton_eq|].
  - unfold demo_exported. by rewrite !lookup_singleton_ne by congruence.
Qed.

Lemma demo_copies : copies "prod" "acme" demo_runs demo_exported shadow0 ∅ ∅ false.
Proof.
  split.
  - intros r _. exists None. split; [split; [done|by intros s ?]|]. by split; [intros s ?|intros ?%not_elem_of_empty].
  - exists ∅. split; [exact empty_index|]. intros r. rewrite lookup_empty. by split; [intros s ?|intros ?%not_elem_of_empty].
Qed.


(** ** Reads beside Redis *)

Definition demo_read_config : ShadowProjectionConfig := {|
  sc_environment := "prod"; sc_ttl := ShadowProjectionTtlConfig_default;
  sc_features := Phase3 (Phase3RedisFeatureFlags_default <| p3_redis_cache_read := true |>
                                                         <| p3_redis_active_index_read := true |>);
  sc_prompt_working_set := PromptWorkingSetConfig_default |}.
Definition demo_readers : option (RedisCapability.t → string → res bool) := Some (λ _ _, Ok true).

(** An index that still proposes version 4 of the run, and a shadow that is out of order. *)
Definition stale_page : ActiveRunIndexPage := {| items := [entry_of (demo_snapshot 4)]; next_after_member := None |}.
Definition stale_index (t : string) (a : option string) (l : Z) : pyeff pg (option ActiveRunIndexPage) := mret (Some stale_page).
Definition broken_shadow (t r : string) : pyeff pg (option ShadowProjectionSnapshot) := fail RedisError.
Definition broken_sink (s : ShadowProjectionSnapshot) (ttl : Z) : pyeff pg ProjectionWriteResult := fail RedisError.

Lemma demo_listable (p : pg) : listable "acme" demo_pg.
Proof.
  intros r row Hrow _. cbn [pg_runs demo_pg] in Hrow. apply lookup_singleton_Some in Hrow as [[= <-] <-].
  split; [by exists (demo_snapshot 5)|]. split_and!; by vm_compute.
Qed.

Definition demo_list := list_active_runs demo_read_config demo_readers (sql_page id (λ _, demo_pg) "acme") stale_index
  "acme" None 10 false demo_pg.

Lemma demo_list_is : demo_list = (Ok {| ar_source := ACTIVE_POSTGRES; ar_fallback_reason := Some INDEX_STALE;
                                        ar_items := [demo_snapshot 5]; ar_next_after_member := None |}, demo_pg).
Proof. by vm_compute. Qed.

(** Witness of [active_list_is_authoritative]: the stale proposal is noticed. *)
Lemma active_list_is_authoritative_witness :
  ∃ r, demo_list.1 = Ok r ∧ authoritative "acme" None 10 demo_pg (Some stale_page) r
       ∧ r.(ar_items) = [demo_snapshot 5] ∧ r.(ar_fallback_reason) = Some INDEX_STALE.
Proof.
  destruct (active_list_is_authoritative id (λ _, demo_pg) "acme" eq_refl demo_read_config demo_readers stale_index
    demo_listable None 10 false eq_refl ltac:(lia) demo_pg) as (r & w' & Hr & Ha & _).
  fold demo_list in Hr. pose proof demo_list_is as Heq. rewrite Hr in Heq. injection Heq as -> ->.
  eexists. split; [by rewrite Hr|]. split; [exact Ha|split; reflexivity].
Defined.

Lemma demo_status_is :
  read_ui_status demo_read_config demo_readers (sql_projection id (λ _, demo_pg) "acme") broken_shadow broken_sink
    "acme" "run-1" (Some 2) false demo_pg
  = (Ok {| rr_source := STATUS_POSTGRES; rr_fallback_reason := Some CACHE_UNAVAILABLE;
           rr_snapshot := Some (demo_snapshot 5) |}, demo_pg).
Proof. by vm_compute. Qed.

(** Witness of [status_reads_fall_back]: without Redis the status is SQL's. *)
Lemma status_reads_fall_back_witness :
  ∃ w1, w1 ∈ [demo_pg; demo_pg] ∧ source_load "acme" "acme" "run-1" (id ((λ _, demo_pg) w1)) = Ok (Some (demo_snapshot 5)).
Proof.
  pose proof (status_reads_fall_back id (λ _, demo_pg) "acme" eq_refl demo_read_config demo_readers broken_shadow broken_sink
    "run-1" eq_refl (Some 2) false demo_pg ltac:(intros v [= <-]; lia)) as Hstatus.
  rewrite demo_status_is in Hstatus. exact Hstatus.
Defined.
